(* ===== verification/_CoqProject ===== *)
-Q . S2P
Prelude.v
RustStd.v
Proto.v
HostTypes.v
HostTransitions.v
HostProps.v
Wire.v
RolloutMachine.v
RolloutProps.v
Gates.v
GateProps.v
Planner.v
PlannerProps.v
Verify.v
VerifyProps.v
Manifest.v
HostKey.v
HostKeyProps.v
Issuance.v
Enrollment.v
EnrollmentProps.v
CpStore.v
CpStoreProps.v
CpRuntime.v
CpApplierProps.v
CpRuntimeProps.v
CpRuntimeSpecs.v
CpSafety.v
CpHistory.v
AgentQueue.v
AgentQueueProps.v
AgentRuntime.v
AgentProps.v
AgentSpecs.v
CpRoutes.v
EndToEnd.v
AgentActivation.v
AgentActivationProps.v
AgentHost.v
AgentManifests.v
AgentManifestsProps.v
AgentWorkers.v
AgentWorkersProps.v
CpDispatch.v
CpDispatchProps.v
CpServe.v
CpServeProps.v
CpLog.v
CpLogProps.v
CpReplay.v
CpLogWriter.v
CpLogWriterProps.v
CpSweep.v
CpSweepProps.v
CpFetch.v
CpFetchProps.v
AgentProbes.v
AgentProbesProps.v
AgentProbesSpecs.v
AgentTasks.v
AgentTasksProps.v
Release.v
ReleaseProps.v
ReleaseSpecs.v
FileSystem.v
CpSigner.v
CpSignerProps.v
CpMain.v
CpMainProps.v
AgentIdentity.v
AgentIdentityProps.v
AgentIdentitySpecs.v
AgentBootProps.v
Evidence.v
CliKeys.v
CliKeysProps.v
CliKeysSpecs.v
CliStatus.v
CliStatusProps.v
