(* ===== verification/Prelude.v ===== *)
(** * nixfleet: a verification development

    ** The program

    nixfleet rolls NixOS closures out to a fleet.  A signed description of the
    fleet and one signed manifest per channel reach the control plane
    ([src/crates/nixfleet-control-plane]), which opens a rollout per
    [channel@ref], asks the dispatch gates of [src/crates/nixfleet-reconciler]
    which hosts may go, and queues dispatches.  The agent of each host
    ([src/crates/nixfleet-agent]) activates the closure, runs its probes during
    the soak window, and reports every step as a numbered event.  Both sides run
    the same pure reducers of [src/crates/nixfleet-state-machine]: the agent on
    [Local*] events, the control plane on the [Remote*] events it receives, so
    that the control plane mirrors its hosts.  The boundary types are in
    [src/crates/nixfleet-proto].

    Around the two runtimes, and modelled too: the release tool that builds and
    signs the artifacts ([src/crates/nixfleet-release]); their verification
    ([nixfleet-reconciler/src/verify.rs]); the control plane's router, its
    polls of the forge and its certificate authority; the agent's workers, probes,
    activation pipelines and enrollment; and the operator's commands
    ([src/crates/nixfleet-cli], [src/crates/nixfleet-verify-artifact]).

    ** The files

    Shared:
    - [Prelude] (this file): results and the [let?] notation for [?], record
      update, machine integers and time, the order of hash maps, lists.
    - [RustStd]: how a call ends ([ended]), [str], paths, UTF-8, numbers, and the
      answers of an HTTP request.  [FileSystem]: the monad [FileM] of a process
      that reads, writes and renames files, with the lemma databases [files] and
      [questions].

    The boundary and the machines:
    - [Proto]: [nixfleet-proto/src].  Rollout identifiers, the resolved fleet,
      selectors, manifests, wire events and states, boot snapshots, trust slots.
    - [HostTypes]: [nixfleet-state-machine/src/{state,event,effect,error}.rs].
    - [HostTransitions]: [transitions/*.rs], [lib.rs] and [rehydration.rs].  One
      module per source state ([pending], [activating], [deferred], [soaking],
      [converged], [failed], [reverted]) with one definition per match arm, the
      dispatcher and the public [step].  [HostProps] holds its theorems.
    - [Wire]: [wire_conversions.rs], and the mirror theorem.
    - [RolloutMachine]: [rollout/*.rs] and [rollout/transitions/*.rs], the
      reducer of a rollout.  [RolloutProps] holds its theorems.
    - [Gates]: [nixfleet-reconciler/src/planner_types.rs] and
      [planner_gates/*.rs], one module per gate.  [GateProps]: theorems.
    - [Planner]: [planner.rs].  [PlannerProps]: theorems.

    Signed artifacts and identities:
    - [Verify], [VerifyProps]: [nixfleet-reconciler/src/{verify,trust_rotation}.rs].
    - [Manifest]: [manifest.rs], the projection of a fleet to its manifests.
    - [HostKey], [HostKeyProps]: OpenSSH keys and DER
      ([nixfleet-proto/src/host_key.rs], [auth/issuance.rs]).
    - [Issuance], [Enrollment], [EnrollmentProps]: the certificate authority,
      tokens, allowlist, revocations and both enrollment routes of the control
      plane.

    The control plane:
    - [CpStore]: [nixfleet-control-plane/src/db/*.rs], the tables, the statements
      the runtime executes and the row codec.  [CpStoreProps]: theorems.
    - [CpRuntime]: [nixfleet-control-plane/src/runtime/{applier,reducer}.rs].
      [Applier] executes plan actions and effects; [Reducer] handles the four
      inputs (host event, manifests, heartbeat, plan tick).
      [CpApplierProps], [CpRuntimeProps], [CpRuntimeSpecs], [CpSafety] and
      [CpHistory] hold the refinement, the invariant, the functional
      specifications and the theorems about whole runs.
    - [CpRoutes]: the event route.  [CpDispatch], [CpDispatchProps]: the long
      poll, as a step relation of handlers, applier and clock.  [CpServe],
      [CpServeProps]: the router, its layers and the other routes.
    - [CpLog], [CpLogProps]: the event log as it is stored, its JSON documents and
      their projections.  [CpLogWriter], [CpLogWriterProps]: the task that writes
      it, as a step relation with the reducer task ([runtime/event_log_writer.rs]).
      [CpReplay]: the host records derived again from the stored log.
    - [CpSweep], [CpSweepProps]: the hourly sweep ([timers/prune_timer.rs]).
      [CpSigner], [CpSignerProps]: the signers of the authority
      ([auth/issuance.rs]), on a key file or a TPM.
    - [CpFetch], [CpFetchProps]: what the control plane fetches, the polls, and
      the start of the daemon.  [CpMain], [CpMainProps]: its command line.

    The agent:
    - [AgentRuntime], [AgentProps], [AgentSpecs]: the reducer task and its
      applier.  [AgentQueue], [AgentQueueProps]: the outbound queue.
    - [AgentActivation], [AgentActivationProps]: the activation pipelines of both
      platforms and their worker.
    - [AgentTasks], [AgentTasksProps]: the tasks and their bounded channels, with
      the advance ticker, the cancellation and the shutdown, as a step relation.
    - [AgentHost], [AgentManifests], [AgentManifestsProps]: the manifest cache.
      [AgentWorkers], [AgentWorkersProps]: long poll, heartbeat, boot recovery.
    - [AgentProbes], [AgentProbesProps], [AgentProbesSpecs]: the probe worker and
      its runners.
    - [AgentIdentity], [AgentIdentityProps], [AgentIdentitySpecs],
      [AgentBootProps]: first boot, enrollment and renewal.
    - [EndToEnd]: both runtimes, the queue and the event route together.

    The tools:
    - [Release], [ReleaseProps], [ReleaseSpecs]: the release tool.
    - [Evidence]: signatures over evidence and the offline verifier.
    - [CliKeys], [CliKeysProps], [CliKeysSpecs]: tokens, keys and operator
      certificates.  [CliStatus], [CliStatusProps]: configuration, the status
      table and the rollout listings.

    ** How the model is shaped

    A [Result] is [result]; [?] is [let?].  A step of a state machine is a
    function from a state and an event to the next state and a list of effects,
    as in the code.  The runtimes are functions on an explicit world: the
    database, and how many times the clock was read.  The tasks handle one input
    at a time, so a run is a list of inputs; deliveries of queued dispatches,
    retention sweeps and the inserts of the log writer, which other tasks
    perform, are steps interleaved between the inputs, and so is a restart, which
    forgets the in-memory state and the entries the log writer had not written.
    Tasks
    that share state and wait ([CpDispatch], [CpLogWriter], [AgentTasks], the tickers
    of [AgentProbes], the handlers of [Enrollment] and the polls of [CpFetch]) are
    step relations.

    - Hash maps: Rust visits a [HashMap] in an arbitrary order.  Definitions that
      iterate are functions of a [HashOrder], and theorems hold for every one.
    - Surroundings: the clock, the network, commands and the disk are classes
      whose answers depend on the number of questions asked before, so no two
      answers need agree; theorems that need more (a clock that moves forward, a
      disk that does not fail) say so.
    - Libraries: cryptography, X.509, JSON, TOML and key formats are classes;
      what a theorem needs of them (a signature verifies under its key, base64
      decodes what it encoded) is a named hypothesis, with an instance in the
      witness of the theorem.
    - Integers: [u32], [u64] and [i64] are [Z]; what can leave the width is
      written with its wrap-around or saturation.  Instants and durations are
      nanoseconds; floats are the doubles of [SpecFloat].
    - Fuel: the polling loop of an activation has [poll_fuel] turns, its budget
      divided by its interval and two, which [polling_terminates] shows to be
      enough; the loop of an enrollment, which waits for the control plane
      without a bound, takes its fuel as an argument, and [first_boot_ends] says
      how much is enough; replacing and trimming in a string take its length.
      Every other recursion is structural.
    - The database: each statement of the runtime is the branch on which SQLite
      succeeds (the code logs a failed one and goes on), and a database is
      attached; the routes take the failure of a statement as an argument.  Rows
      of a table with a primary key form a finite map.  Host records are kept
      decoded; [every_record_reads_back] says which of them the row codec gives
      back and which not.  The event log is three fields: its table, the channel
      of the writer task, and what was ever sent to it, which the program does
      not keep and the theorems compare the tables with.  An insert that fails
      drops its entry, a restart drops the channel; [CpLogWriter] splits the
      operations themselves between the tasks, so that a kill may fall inside
      one.

    ** What the theorems show

    - Host machine ([HostProps]): the whole transition table with its errors
      ([step_outcome]); [Converged] is reached on evidence only; at most one
      switch and one rollback per run of the machine; stamps and identity are kept; replayed
      events are refused; probe records and log entries change as specified.
    - Wire and queue ([Wire], [AgentQueueProps], [EndToEnd]): the control plane,
      fed the agent's events with duplicates, accepts each once and ends in the
      agent's state; drains deliver every entry once, up to the first one the
      control plane refuses, where they stop for good.
    - Rollout machine ([RolloutProps]): equality with a transition table, the
      wave cursor and stamp invariant, and the release signal.
    - Gates and planner ([GateProps], [PlannerProps]): a host is dispatched exactly
      when six declarative conditions hold; every waiting host is decided once;
      a plan never exceeds a disruption budget; open gates lead to a dispatch.
    - Control plane ([CpApplierProps] to [CpHistory]): the guarded SQL updates
      implement the rollout reducer; in every reachable database the rollout rows
      agree with their host records, a terminal rollout has converged
      everywhere, and the tables are the replay of what was sent to the log, of
      which the table of the log is a sublist; opening, event
      handling, wave promotion and the recovery of a wiped database are specified
      exactly.
    - The log ([CpLogProps], [CpReplay], [CpLogWriterProps], [CpSweepProps]): the
      stored rows decode to entries that were sent, and every host record is the
      replay of the events that were sent, so of the rows when none of its
      rollout was lost; the table misses only what is in the channel, the rest of
      the operation under way and failed inserts; the shutdown drains the channel;
      the sweep deletes the rows and files past their retention and no others.
    - Requests ([CpDispatchProps], [CpServeProps]): each dispatch is handed out
      once and to its machine; a machine changes only its own records; a revoked
      certificate reaches no data.
    - Signed artifacts ([VerifyProps], [AgentManifestsProps], [CpFetchProps],
      [AgentWorkersProps], [ReleaseSpecs]): what a verifier accepts; everything
      cached, served or dispatched was accepted under the keys and the clock of
      that turn; a release is accepted by all verifiers; over whole runs each
      switch is to a closure a signed manifest declares.
    - Identities ([EnrollmentProps], [AgentIdentitySpecs], [AgentBootProps],
      [CliKeysSpecs]): a certificate needs every check and goes to one request per
      nonce; a minted token enrolls its host, and a first boot ends with a
      certificate for the host that passes the name check of the control plane, or
      with none (its expiry is for the TLS verifier).
    - Tasks ([AgentTasksProps]): over the bounded channels the reducer task of the
      agent still implements its reducer; the exact states in which it waits for
      ever; and the end of the tasks after it.
    - Command line ([CpMainProps]): which flags start a daemon, and what a strict one
      was given and serves.
    - Probes and evidence ([AgentProbesSpecs], [CliKeysSpecs]): verdicts, reports
      of the tickers over any interleaving, and the rollback a failing probe
      leads to.
    - Behaviours that differ from the documentation are theorems too: the
      quarantine gate never blocks, recorded failures never clear, a record with
      a time past the year 9999 does not decode, a refused event stops the queue,
      a stale snapshot repeats a rollback, the log may miss what the tables hold, the agent's
      reducer and a worker can wait for each other for ever, failed rollouts are
      never pruned, a renewal gives any name, a reused signature does not verify,
      a lost answer costs the token, a rotated key keeps the old issuer, the status
      table never says that a host is stale.

    ** What is not modelled

    TLS, SQLite and the file system below their documented behaviour, what the
    commands themselves do (nix, git, systemd, probes), timers and back-off,
    metrics and log texts, the parsing of command lines, the text of JSON (its
    values are modelled where the program builds or reads them) and TOML, and the Nix library that evaluates the fleet.  They are I/O around the
    modelled decisions, or libraries. *)

From stdpp Require Export base tactics gmap strings list fin_maps sorting.
From Stdlib Require Export ZArith Lia Ascii.

#[export] Set Default Goal Selector "!".
(* Said by the tactics of stdpp. *)
#[export] Set Warnings "-clear-no-such-hyp".

(** ** Fallible code: Rust's [Result] *)

Inductive result (A E : Type) : Type :=
| Ok (a : A)
| Err (e : E).
Arguments Ok {A E} a.
Arguments Err {A E} e.

Definition is_ok {A E} (r : result A E) : bool :=
  match r with Ok _ => true | Err _ => false end.

Declare Scope nixfleet_scope.
Delimit Scope nixfleet_scope with nf.

(** [let? x := e in k] is Rust's [?] operator: return the error, or go on. *)
Notation "'let?' x := e 'in' k" :=
  (match e with Ok x => k | Err err_ => Err err_ end)
  (at level 10, x pattern, e at level 100, k at level 200) : nixfleet_scope.

Open Scope nixfleet_scope.

(** ** Record update

    [r <| f := v |>] is Rust's [r.f = v].  A record type opts in by an
    [Etaexp] instance that rebuilds it from its projections; the update of
    one field is then found by abstracting that projection. *)

Class Etaexp (R : Type) := etaexp : R -> R.
Class FieldSetter {R T : Type} (proj : R -> T) := field_setter : (T -> T) -> R -> R.

Definition update_field {R T} (proj : R -> T) `{!FieldSetter proj} (f : T -> T) (r : R) : R :=
  field_setter f r.

Ltac solve_field_setter :=
  match goal with
  | |- @FieldSetter ?R ?T ?proj =>
      let inst := constr:(_ : Etaexp R) in
      let body := eval hnf in inst in
      match (eval pattern proj in body) with
      | ?g _ =>
          let t := eval cbv beta in
            (fun (f : T -> T) (r : R) => g (fun r' => f (proj r')) r) in
          exact t
      end
  end.
#[export] Hint Extern 0 (FieldSetter _) => solve_field_setter : typeclass_instances.

Notation "r <| p := v |>" := (update_field p (fun _ => v) r)
  (at level 1, left associativity, v at level 200,
   format "r  <| p  :=  v |>") : nixfleet_scope.
Arguments update_field {R T} proj {_} f r /.
Arguments field_setter {R T} proj {_} f r /.

(** ** Machine integers and time

    A [u32], [u64] or [i64] is a [Z]; the arithmetic that can leave the width
    is written with its wrap-around.  A [DateTime<Utc>] is the number of
    nanoseconds since the epoch, a [chrono::Duration] a signed number of
    nanoseconds. *)

Abbreviation u32 := Z (only parsing).
Abbreviation u64 := Z (only parsing).
Abbreviation i32 := Z (only parsing).
Abbreviation i64 := Z (only parsing).
Abbreviation DateTime := Z (only parsing).
Abbreviation Duration := Z (only parsing).

Definition u32_wrap (z : Z) : u32 := (z mod 2 ^ 32)%Z.
Definition u64_wrap (z : Z) : u64 := (z mod 2 ^ 64)%Z.
Definition u32_max : u32 := (2 ^ 32 - 1)%Z.
Definition u64_max : u64 := (2 ^ 64 - 1)%Z.

(** [u32::saturating_add]. *)
Definition u32_saturating_add (a b : u32) : u32 := Z.min (a + b) u32_max.

Definition nanos_per_sec : Z := 1000000000%Z.
Definition duration_seconds (n : Z) : Duration := (n * nanos_per_sec)%Z.
Definition duration_minutes (n : Z) : Duration := duration_seconds (n * 60)%Z.

(** [chrono::Duration::num_seconds]: truncates toward zero. *)
Definition num_seconds (d : Duration) : Z := Z.quot d nanos_per_sec.

Lemma u64_wrap_small (z : Z) : (0 <= z <= u64_max)%Z -> u64_wrap z = z.
Proof. intros H. apply Z.mod_small. unfold u64_max in H. lia. Qed.

Lemma u32_wrap_small (z : Z) : (0 <= z <= u32_max)%Z -> u32_wrap z = z.
Proof. intros H. apply Z.mod_small. unfold u32_max in H. lia. Qed.

Lemma u64_wrap_range (z : Z) : (0 <= u64_wrap z <= u64_max)%Z.
Proof. unfold u64_wrap, u64_max. pose proof (Z.mod_pos_bound z (2 ^ 64)). lia. Qed.

(** ** Iteration over hash maps

    Rust's [HashMap] is visited in an arbitrary order.  [HashOrder] is that
    order: every definition that iterates over a map is a function of it, and
    every theorem holds for all of them. *)

Class HashOrder := {
  hash_iter : forall {K} `{Countable K} {V : Type}, gmap K V -> list (K * V);
  hash_iter_perm : forall {K} `{Countable K} {V : Type} (m : gmap K V),
    hash_iter m ≡ₚ map_to_list m;
}.

(** One order: that of [map_to_list]. *)
Definition list_order : HashOrder := {|
  hash_iter := fun K _ _ V m => map_to_list m;
  hash_iter_perm := fun K _ _ V m => reflexivity (map_to_list m);
|}.

Section hash_iter_lemmas.
Context {O : HashOrder} {K : Type} `{Countable K} {V : Type}.
Implicit Types m : gmap K V.

Lemma elem_of_hash_iter m k v : (k, v) ∈ hash_iter m <-> m !! k = Some v.
  Proof. rewrite hash_iter_perm. apply elem_of_map_to_list. Qed.

Lemma NoDup_hash_iter m : NoDup (hash_iter m).
  Proof. rewrite hash_iter_perm. apply NoDup_map_to_list. Qed.

Lemma NoDup_fst_hash_iter m : NoDup (hash_iter m).*1.
  Proof. rewrite hash_iter_perm. apply NoDup_fst_map_to_list. Qed.
End hash_iter_lemmas.

(** ** Lists *)

(** [iter().any(..)] and [iter().all(..)] over string lists. *)
Definition mem_str (x : string) (l : list string) : bool :=
  existsb (fun y => bool_decide (y = x)) l.

Lemma mem_str_spec x l : mem_str x l = true <-> x ∈ l.
Proof.
  unfold mem_str. rewrite existsb_exists. split.
  - intros (y & Hy & E). apply bool_decide_eq_true in E as ->.
    by apply list_elem_of_In.
  - intros Hx. exists x. split; [by apply list_elem_of_In | by apply bool_decide_eq_true].
Qed.

(** [Vec::is_empty]. *)
Definition is_empty {A} (l : list A) : bool :=
  match l with [] => true | _ => false end.

Lemma is_empty_spec {A} (l : list A) : is_empty l = true <-> l = [].
Proof. by destruct l. Qed.

(** [iter().position(..)]. *)
Fixpoint position {A} (p : A -> bool) (l : list A) : option nat :=
  match l with
  | [] => None
  | x :: l => if p x then Some 0 else S <$> position p l
  end.

Lemma position_Some {A} (p : A -> bool) l i :
  position p l = Some i ->
  exists x, l !! i = Some x /\ p x = true /\ forall j y, j < i -> l !! j = Some y -> p y = false.
Proof.
  revert i. induction l as [|a l IH]; intros i; simpl; [done|].
  destruct (p a) eqn:E.
  - intros [= <-]. exists a. repeat split; [done|]. intros; lia.
  - destruct (position p l) as [k|] eqn:Ek; intros [= <-].
    destruct (IH k eq_refl) as (x & Hx & Hp & Hmin). exists x.
    repeat split; [done..|].
    intros [|j] y Hj Hy; simpl in *; [congruence | eapply Hmin; [|done]; lia].
Qed.

Lemma position_None {A} (p : A -> bool) l :
  position p l = None <-> forall x, x ∈ l -> p x = false.
Proof.
  induction l as [|a l IH]; simpl.
  - split; [intros _ x Hx; by apply elem_of_nil in Hx | done].
  - destruct (p a) eqn:E.
    + split; [done|]. intros H. rewrite (H a) in E; [done | left].
    + split.
      * intros H x [->|Hx]%elem_of_cons; [done|].
        destruct (position p l); [done|]. by apply IH.
      * intros H. destruct IH as [_ IH2]. rewrite IH2; [done|].
        intros x Hx. apply H. by right.
Qed.

Lemma position_lt {A} (p : A -> bool) l i : position p l = Some i -> i < length l.
Proof.
  intros (x & Hx & _)%position_Some. by apply lookup_lt_Some in Hx.
Qed.
#[global] Arguments position : simpl never.

(** Splitting a decision wherever it stands in a hypothesis or the goal. *)
Tactic Notation "case_bool" "as" simple_intropattern(pat) :=
  match goal with
  | H : context [bool_decide ?P] |- _ => destruct (bool_decide_reflect P) as pat
  | |- context [bool_decide ?P] => destruct (bool_decide_reflect P) as pat
  end.
Tactic Notation "case_bool" := case_bool as [|].

(** The lemmas that simplify the models' small functions. *)
Create HintDb nixfleet.
Create Rewrite HintDb nixfleet.
#[export] Hint Rewrite u64_wrap_small u32_wrap_small using lia : nixfleet.

(** Inverts [Ok _ = Ok _], [Err _ = Ok _], [(_, _) = (_, _)] hypotheses. *)
Ltac inv_ok :=
  repeat match goal with
  | H : Ok _ = Ok _ |- _ => injection H; clear H; intros; subst
  | H : Err _ = Err _ |- _ => injection H; clear H; intros; subst
  | H : Ok _ = Err _ |- _ => discriminate H
  | H : Err _ = Ok _ |- _ => discriminate H
  | H : (_, _) = (_, _) |- _ => injection H; clear H; intros; subst
  end.
