(* ===== verification/RustStd.v ===== *)
(** * Pieces of Rust's standard library

    Strings are their UTF-8 bytes.  This file holds the functions of [core] and
    [std] the components use: how a call can end, slices and searches of [str],
    the UTF-8 check, paths, number parsing, [chrono]'s bounded durations, how an
    HTTP request ends, and calls that ask their surroundings. *)

From S2P Require Import Prelude.

(** How a call ends: with a value, in a panic of its task, or not within the
    fuel of the polling loop. *)
Inductive ended (A : Type) :=
| Returned (a : A)
| Panicked
| OutOfFuel.
Arguments Returned {A} a.
Arguments Panicked {A}.
Arguments OutOfFuel {A}.

Definition bind_ended {A B} (r : ended A) (k : A -> ended B) : ended B :=
  match r with
  | Returned a => k a
  | Panicked => Panicked
  | OutOfFuel => OutOfFuel
  end.

(** ** Bytes *)

Abbreviation u8 := Z (only parsing).
Definition u8_wrap (z : Z) : u8 := (z mod 2 ^ 8)%Z.

(** ** [str] *)

Definition is_continuation_byte (c : ascii) : bool :=
  let n := nat_of_ascii c in (128 <=? n) && (n <=? 191).

(** Slicing a [str] at a byte that is not a character boundary panics. *)
Fixpoint slice_from (n : nat) (s : string) : ended string :=
  match n, s with
  | O, EmptyString => Returned EmptyString
  | O, String c _ =>
      let b := nat_of_ascii c in
      if (128 <=? b) && (b <=? 191) then Panicked else Returned s
  | S _, EmptyString => Panicked
  | S n, String _ s => slice_from n s
  end.

(** [str::is_char_boundary]. *)
Definition is_char_boundary (s : string) (index : nat) : bool :=
  match index with
  | O => true
  | _ =>
      match String.get index s with
      | Some c => negb (is_continuation_byte c)
      | None => index =? String.length s
      end
  end.

(** [&s[..end]]. *)
Definition slice_to (end_ : nat) (s : string) : ended string :=
  if is_char_boundary s end_ then Returned (String.substring 0 end_ s) else Panicked.

Definition contains (needle s : string) : bool :=
  match String.index 0 needle s with Some _ => true | None => false end.

Definition ends_with (suffix s : string) : bool :=
  bool_decide (String.list_ascii_of_string suffix `suffix_of` String.list_ascii_of_string s).

(** [Option::or]. *)
Definition or_else {A} (x y : option A) : option A := match x with Some a => Some a | None => y end.

(** [str::lines().next()]: the text up to the first line feed; a carriage return
    before it goes with [trim]. *)
Fixpoint up_to_newline (s : string) : string :=
  match s with
  | EmptyString => EmptyString
  | String c s => if bool_decide (nat_of_ascii c = 10) then EmptyString else String c (up_to_newline s)
  end.

Definition first_line (s : string) : option string :=
  match s with EmptyString => None | _ => Some (up_to_newline s) end.

(** [str::trim]: the encodings of the characters of [White_Space]. *)
Definition space_of_1 (a : nat) : bool := (9 <=? a) && (a <=? 13) || (a =? 32).
Definition space_of_2 (a b : nat) : bool := (a =? 194) && ((b =? 133) || (b =? 160)).
Definition space_of_3 (a b c : nat) : bool :=
  (a =? 225) && (b =? 154) && (c =? 128) ||
  (a =? 226) && (b =? 128) && (((128 <=? c) && (c <=? 138)) || (c =? 168) || (c =? 169) || (c =? 175)) ||
  (a =? 226) && (b =? 129) && (c =? 159) ||
  (a =? 227) && (b =? 128) && (c =? 128).

Fixpoint drop_spaces (of_2 : nat -> nat -> bool) (of_3 : nat -> nat -> nat -> bool)
    (l : list ascii) : list ascii :=
  match l with
  | [] => []
  | a :: l1 =>
      if space_of_1 (nat_of_ascii a) then drop_spaces of_2 of_3 l1
      else
        match l1 with
        | [] => l
        | b :: l2 =>
            if of_2 (nat_of_ascii a) (nat_of_ascii b) then drop_spaces of_2 of_3 l2
            else
              match l2 with
              | [] => l
              | c :: l3 =>
                  if of_3 (nat_of_ascii a) (nat_of_ascii b) (nat_of_ascii c)
                  then drop_spaces of_2 of_3 l3
                  else l
              end
        end
  end.

Definition trim (s : string) : string :=
  let start := drop_spaces space_of_2 space_of_3 (String.list_ascii_of_string s) in
  String.string_of_list_ascii
    (reverse (drop_spaces (fun a b => space_of_2 b a) (fun a b c => space_of_3 c b a)
                (reverse start))).

(** [str::split_whitespace]. *)
Definition flush (word : list ascii) : list string :=
  match word with [] => [] | _ => [String.string_of_list_ascii (reverse word)] end.

Fixpoint split_spaces (word l : list ascii) : list string :=
  match l with
  | [] => flush word
  | a :: l1 =>
      if space_of_1 (nat_of_ascii a) then flush word ++ split_spaces [] l1
      else
        match l1 with
        | [] => flush (a :: word)
        | b :: l2 =>
            if space_of_2 (nat_of_ascii a) (nat_of_ascii b) then flush word ++ split_spaces [] l2
            else
              match l2 with
              | [] => split_spaces (a :: word) l1
              | c :: l3 =>
                  if space_of_3 (nat_of_ascii a) (nat_of_ascii b) (nat_of_ascii c)
                  then flush word ++ split_spaces [] l3
                  else split_spaces (a :: word) l1
              end
        end
  end.

Definition split_whitespace (s : string) : list string :=
  split_spaces [] (String.list_ascii_of_string s).

(** [str::strip_prefix] and [str::strip_suffix]. *)
Fixpoint strip_prefix (p s : string) : option string :=
  match p, s with
  | EmptyString, _ => Some s
  | String a p, String b s => if bool_decide (a = b) then strip_prefix p s else None
  | String _ _, EmptyString => None
  end.

Fixpoint strip_suffix (p s : string) : option string :=
  if bool_decide (s = p) then Some EmptyString
  else
    match s with
    | EmptyString => None
    | String a s => String a <$> strip_suffix p s
    end.

Definition starts_with (p s : string) : bool := bool_decide (is_Some (strip_prefix p s)).

(** [str::lines]: the line feeds, and a carriage return before one, are cut. *)
Definition cut_return (line : list ascii) : string :=   (* [line] is reversed *)
  String.string_of_list_ascii
    (reverse (match line with
              | c :: rest => if bool_decide (nat_of_ascii c = 13) then rest else line
              | [] => []
              end)).

Fixpoint lines_from (line : list ascii) (s : string) : list string :=
  match s with
  | EmptyString =>
      match line with [] => [] | _ => [String.string_of_list_ascii (reverse line)] end
  | String c s =>
      if bool_decide (nat_of_ascii c = 10) then cut_return line :: lines_from [] s
      else lines_from (c :: line) s
  end.

Definition lines (s : string) : list string := lines_from [] s.

(** [str::replace]. *)
Fixpoint replace_all (fuel : nat) (needle with_ s : string) : string :=
  match fuel with
  | 0 => s
  | S fuel =>
      match strip_prefix needle s with
      | Some rest => with_ +:+ replace_all fuel needle with_ rest
      | None =>
          match s with
          | EmptyString => EmptyString
          | String c s => String c (replace_all fuel needle with_ s)
          end
      end
  end.

(** For a needle that is not empty. *)
Definition replace (needle with_ s : string) : string :=
  replace_all (S (String.length s)) needle with_ s.

(** [trim_end_matches('/')]. *)
Definition strip_slashes (s : string) : string :=
  let fix go (s : string) : string :=
    match s with
    | EmptyString => EmptyString
    | String c s =>
        match go s with
        | EmptyString => if bool_decide (c = "/"%char) then EmptyString else String c EmptyString
        | s => String c s
        end
    end in
  go s.

(** [chars().all(..)] of a predicate that fails on every character beyond
    ASCII, hence on every byte of one. *)
Fixpoint all_chars (p : ascii -> bool) (s : string) : bool :=
  match s with EmptyString => true | String c s => p c && all_chars p s end.

Definition char_in (lo hi : nat) (c : ascii) : bool :=
  (lo <=? nat_of_ascii c) && (nat_of_ascii c <=? hi).
Definition is_ascii_lowercase : ascii -> bool := char_in 97 122.
Definition is_ascii_uppercase : ascii -> bool := char_in 65 90.
Definition is_ascii_digit : ascii -> bool := char_in 48 57.
Definition is_ascii_hexdigit (c : ascii) : bool :=
  is_ascii_digit c || char_in 65 70 c || char_in 97 102 c.

(** ** Paths and numbers of the standard library *)

Fixpoint split_path (part : string) (s : string) : list string :=
  match s with
  | EmptyString => [part]
  | String c s =>
      if bool_decide (c = "/"%char) then part :: split_path "" s
      else split_path (part ++ String c EmptyString) s
  end.

(** [Path::file_name]: the last component, unless it is [..]. *)
Definition file_name (p : string) : option string :=
  let components :=
    List.filter (fun x => negb (bool_decide (x = "")) && negb (bool_decide (x = ".")))
      (split_path "" p) in
  match last components with
  | Some name => if bool_decide (name = "..") then None else Some name
  | None => None
  end.

(** [Path::with_extension]: the part of the text before the last component, its
    stem and the extension; a path without a file name stays as it is. *)
Fixpoint drop_trailing (l : list ascii) : list ascii :=   (* of the reversed text *)
  match l with
  | ("/" :: l)%char => drop_trailing l
  | ("." :: ("/" :: _) as rest)%char => drop_trailing rest
  | l => l
  end.

(** The text of a path without separators and [.] components at its end. *)
Definition trim_path (p : string) : string :=
  String.string_of_list_ascii (List.rev (drop_trailing (List.rev (String.list_ascii_of_string p)))).

Definition file_stem (name : string) : string :=
  let reversed := List.rev (String.list_ascii_of_string name) in
  match List.find (fun n => bool_decide (reversed !! n = Some "."%char)) (seq 0 (length reversed)) with
  | Some n =>
      let stem := String.substring 0 (String.length name - S n) name in
      if bool_decide (stem = "") then name else stem
  | None => name
  end.

Definition with_extension (extension p : string) : string :=
  match file_name p with
  | None => p
  | Some name =>
      let trimmed := trim_path p in
      String.substring 0 (String.length trimmed - String.length name) trimmed +:+
      file_stem name +:+ "." +:+ extension
  end.

(** [Path::parent]: none for the root and the empty path. *)
Definition parent (p : string) : option string :=
  let trimmed := trim_path p in
  if bool_decide (trimmed = "") then None
  else
    let name := default "" (last (split_path "" trimmed)) in
    let rest := String.substring 0 (String.length trimmed - String.length name) trimmed in
    Some (if bool_decide (rest <> "" /\ trim_path rest = "") then "/" else trim_path rest).

(** [Path::join]: an absolute second path replaces the first. *)
Definition path_join (base p : string) : string :=
  match p with
  | String "/" _ => p
  | _ =>
      if bool_decide (base = "") then p
      else if bool_decide (String.get (String.length base - 1) base = Some "/"%char) then base +:+ p
      else base +:+ "/" +:+ p
  end.

(** The components of a path: the root, a leading [.], and the names. *)
Definition components (p : string) : list string :=
  match p with String "/" _ => ["/"] | _ => [] end ++
  match split_path "" p with
  | "." :: parts => "." :: List.filter (fun x => negb (bool_decide (x ∈ [""; "."]))) parts
  | parts => List.filter (fun x => negb (bool_decide (x ∈ [""; "."]))) parts
  end.

(** [Path::strip_prefix]; the rest is written with single separators. *)
Definition strip_path_prefix (base p : string) : option string :=
  let n := length (components base) in
  if bool_decide (take n (components p) = components base) then
    Some (String.concat "/" (drop n (components p)))
  else None.

(** [str::split] at a character. *)
Fixpoint split_char (sep : ascii) (part s : string) : list string :=
  match s with
  | EmptyString => [part]
  | String c s =>
      if bool_decide (c = sep) then part :: split_char sep "" s
      else split_char sep (part +:+ String c EmptyString) s
  end.

(** [Vec::dedup]: runs of equal elements become one. *)
Fixpoint dedup {A} `{EqDecision A} (l : list A) : list A :=
  match l with
  | x :: (y :: _) as rest => if bool_decide (x = y) then dedup rest else x :: dedup rest
  | l => l
  end.

(** [collect] into a [Result]: the first error, or all the values. *)
Fixpoint collect_results {A E} (l : list (result A E)) : result (list A) E :=
  match l with
  | [] => Ok []
  | Err e :: _ => Err e
  | Ok a :: l =>
      match collect_results l with
      | Ok as_ => Ok (a :: as_)
      | Err e => Err e
      end
  end.

(** [BTreeMap]'s iteration: ascending keys. *)
Definition key_le {V} (a b : string * V) : Prop := (a.1 ≤ b.1)%string.
#[export] Instance key_le_dec {V} : RelDecision (@key_le V).
Proof. intros a b. unfold key_le. apply _. Defined.
Definition btree_iter {V} (m : gmap string V) : list (string * V) := merge_sort key_le (map_to_list m).

Definition is_relative (p : string) : bool :=
  match p with String c _ => negb (bool_decide (c = "/"%char)) | EmptyString => true end.

Fixpoint parse_digits (n : Z) (s : string) : option Z :=
  match s with
  | EmptyString => Some n
  | String c s =>
      let d := (Z.of_nat (nat_of_ascii c) - 48)%Z in
      if Z.leb 0 d && Z.leb d 9 then parse_digits (10 * n + d) s else None
  end.

(** [str::parse::<i32>]. *)
Definition parse_i32 (s : string) : option i32 :=
  let '(negative, digits) :=
    match s with
    | String "-" s => (true, s)
    | String "+" s => (false, s)
    | _ => (false, s)
    end in
  match digits with
  | EmptyString => None
  | _ =>
      n ← parse_digits 0 digits;
      let n := if negative : bool then (- n)%Z else n in
      if Z.leb (- 2 ^ 31) n && Z.ltb n (2 ^ 31) then Some n else None
  end.

(** [str::parse] of unsigned integers. *)
Definition parse_unsigned (max : Z) (s : string) : option Z :=
  let digits := match s with String "+" s => s | _ => s end in
  match digits with
  | EmptyString => None
  | _ => n ← parse_digits 0 digits; if Z.leb n max then Some n else None
  end.

Definition parse_u64 : string -> option u64 := parse_unsigned u64_max.
Definition parse_u32 : string -> option u32 := parse_unsigned u32_max.

(** [str::from_utf8]: the ranges the next bytes must lie in. *)
Fixpoint utf8_valid (pending : list (nat * nat)) (s : string) : bool :=
  match s with
  | EmptyString => is_empty pending
  | String c s =>
      let b := nat_of_ascii c in
      let between lo hi := (lo <=? b) && (b <=? hi) in
      let cont := (128, 191) in
      match pending with
      | (lo, hi) :: pending => if between lo hi then utf8_valid pending s else false
      | [] =>
          if b <=? 127 then utf8_valid [] s
          else if between 194 223 then utf8_valid [cont] s
          else if b =? 224 then utf8_valid [(160, 191); cont] s
          else if b =? 237 then utf8_valid [(128, 159); cont] s
          else if between 225 239 then utf8_valid [cont; cont] s
          else if b =? 240 then utf8_valid [(144, 191); cont; cont] s
          else if between 241 243 then utf8_valid [cont; cont; cont] s
          else if b =? 244 then utf8_valid [(128, 143); cont; cont] s
          else false
      end
  end.

Definition from_utf8 (s : string) : option string := if utf8_valid [] s then Some s else None.

(** [chars().take(n)] of a valid string: [n] leading bytes with the
    continuation bytes that follow them. *)
Fixpoint take_chars (n : nat) (s : string) : string :=
  match s with
  | EmptyString => EmptyString
  | String c s =>
      if is_continuation_byte c then String c (take_chars n s)
      else match n with 0 => EmptyString | S n => String c (take_chars n s) end
  end.

(** ** [chrono::TimeDelta]

    At most [i64::MAX] milliseconds; converting or adding past it fails. *)
Definition time_delta_max : Duration := ((2 ^ 63 - 1) * 1000000)%Z.

(** [TimeDelta::from_std]. *)
Definition time_delta_from_std (d : Duration) : option Duration :=
  if Z.leb d time_delta_max then Some d else None.

(** The addition of two durations: it panics on overflow. *)
Definition time_delta_add (a b : Duration) : ended Duration :=
  if Z.leb (- time_delta_max) (a + b) && Z.leb (a + b) time_delta_max then Returned (a + b)%Z
  else Panicked.

(** [DateTime::timestamp], and [DateTime::from_timestamp] with no nanoseconds,
    which fails outside chrono's calendar. *)
Definition timestamp (t : DateTime) : i64 := (t / nanos_per_sec)%Z.

Definition from_timestamp (secs : i64) : option DateTime :=
  if Z.leb (-8334601228800) secs && Z.leb secs 8210266876799 then Some (secs * nanos_per_sec)%Z else None.

(** [UNIX_EPOCH + Duration], which panics past [i64::MAX] seconds. *)
Definition system_time (d : Duration) : ended Z :=
  if Z.ltb (d / nanos_per_sec) (2 ^ 63) then Returned d else Panicked.

(** ** Answers of an HTTP client *)

(** How a GET ends: no answer, or a status with a body that may fail to read. *)
Inductive HttpAnswer :=
| SendFailed (err : string)
| Response (status : Z) (body : result string string).

Definition is_success (status : Z) : bool := Z.leb 200 status && Z.ltb status 300.

(** The [?] operator inside a monad. *)
Notation "'try' x := e 'in' k" :=
  (mbind (fun r_ => match r_ with Ok x => k | Err err_ => mret (Err err_) end) e)
  (at level 10, x pattern, e at level 100, k at level 200) : nixfleet_scope.

(** ** Asking the surroundings

    What the clock, the files and the network answer is a function of the number
    of questions asked before. *)

Definition AskM (A : Type) : Type := nat -> ended A * nat.
#[export] Instance AskM_ret : MRet AskM := fun A a n => (Returned a, n).
#[export] Instance AskM_bind : MBind AskM := fun A B k m n =>
  match m n with
  | (Returned a, n) => k a n
  | (Panicked, n) => (Panicked, n)
  | (OutOfFuel, n) => (OutOfFuel, n)
  end.
Definition question {A} (answer : nat -> A) : AskM A := fun n => (Returned (answer n), S n).
Definition settle {A} (r : ended A) : AskM A := fun n => (r, n).

Lemma ask_bind_inv {A B} (m : AskM A) (k : A -> AskM B) n b n' :
  (m ≫= k) n = (Returned b, n') ->
  exists a n1, m n = (Returned a, n1) /\ k a n1 = (Returned b, n').
Proof.
  unfold mbind, AskM_bind. destruct (m n) as [[a| |] n1]; [|done..]. intros H. by exists a, n1.
Qed.

Lemma question_inv {A} (answer : nat -> A) n a n' :
  question answer n = (Returned a, n') -> a = answer n /\ n' = S n.
Proof. by intros [= <- <-]. Qed.

(** Splits the first step off a run that returned. *)
Ltac ask_step H a n :=
  let Ha := fresh "H" in
  apply ask_bind_inv in H as (a & n & Ha & H);
  try (apply question_inv in Ha as [-> ->]).

(** ** Strings as lists of characters *)

Abbreviation chars := String.list_ascii_of_string.

Lemma chars_app (s t : string) : chars (s ++ t) = (chars s ++ chars t)%list.
Proof. induction s as [|c s IH]; simpl; [done|]. by rewrite IH. Qed.

Lemma append_assoc (s t u : string) : ((s ++ t) ++ u = s ++ (t ++ u))%string.
Proof.
  induction s as [|c s IH]; [done|].
  change (String c ((s ++ t) ++ u)%string = String c (s ++ (t ++ u))%string). by rewrite IH.
Qed.

Lemma chars_inj (s t : string) : chars s = chars t -> s = t.
Proof.
  intros H. rewrite <- (String.string_of_list_ascii_of_string s), H.
  apply String.string_of_list_ascii_of_string.
Qed.

Lemma last_separator_inj {A} (sep : A) (l1 l2 k1 k2 : list A) :
  sep ∉ k1 -> sep ∉ k2 -> l1 ++ sep :: k1 = l2 ++ sep :: k2 -> l1 = l2 /\ k1 = k2.
Proof.
  intros H1 H2. revert l2. induction l1 as [|a l1 IH]; intros [|b l2]; simpl; intros [=]; subst.
  - done.
  - destruct H1. apply elem_of_app. right. left.
  - destruct H2. apply elem_of_app. right. left.
  - destruct (IH l2) as [-> ->]; done.
Qed.

Lemma ends_with_app (suffix s : string) : ends_with suffix (s ++ suffix) = true.
Proof. apply bool_decide_eq_true. exists (chars s). apply chars_app. Qed.

Lemma ends_with_other_char (suffix t : string) (c d : ascii) :
  c <> d -> ends_with (suffix ++ String c "") (t ++ String d "") = false.
Proof.
  intros Hne. apply bool_decide_eq_false. intros [k Hk]. rewrite !chars_app in Hk. simpl in Hk.
  rewrite app_assoc in Hk. by apply app_inj_tail in Hk as [_ ?].
Qed.

Lemma length_append a b : String.length (a +:+ b) = String.length a + String.length b.
Proof. induction a as [|c a IH]; simpl; [done|]. by rewrite IH. Qed.

Lemma append_empty_r s : s +:+ "" = s.
Proof. induction s as [|c s IH]; [done|]. exact (f_equal (String c) IH). Qed.

Lemma append_cancel_r s t u : s +:+ u = t +:+ u -> s = t.
Proof.
  intros H. apply chars_inj. apply (f_equal chars) in H. rewrite !chars_app in H.
  by apply app_inv_tail in H.
Qed.

Lemma append_neq_longer s u : u <> "" -> s +:+ u <> s.
Proof.
  intros Hu H. apply (f_equal String.length) in H. rewrite length_append in H. destruct u; simpl in H; [done|lia].
Qed.
