(* ===== verification/Proto.v ===== *)
(** * The boundary types of [nixfleet-proto]

    Models [crates/nixfleet-proto/src/]: the rollout identifier ([lib.rs]),
    the resolved fleet and its selectors ([fleet_resolved.rs]), the rollout
    manifest ([rollout_manifest.rs]), the agent event wire format
    ([agent_event.rs]), the wire host state ([host_rollout_state.rs]), the
    boot snapshot ([agent_wire.rs]) and the trust slots ([trust.rs]).
    Field names carry a short prefix per record. *)

From S2P Require Import Prelude.

(** ** Rollout identifiers *)

Record RolloutId := MkRolloutId { rid_raw : string }.

#[export] Instance RolloutId_eq_dec : EqDecision RolloutId.
Proof. solve_decision. Defined.
#[export] Program Instance RolloutId_countable : Countable RolloutId :=
  inj_countable' rid_raw MkRolloutId _.
Next Obligation. by intros []. Qed.

(** [str::split_once]: the text before and after the first [sep]. *)
Fixpoint split_once (sep : ascii) (s : string) : option (string * string) :=
  match s with
  | EmptyString => None
  | String c s' =>
      if bool_decide (c = sep) then Some (EmptyString, s')
      else match split_once sep s' with
           | Some (l, r) => Some (String c l, r)
           | None => None
           end
  end.

Fixpoint contains_char (sep : ascii) (s : string) : bool :=
  match s with
  | EmptyString => false
  | String c s' => bool_decide (c = sep) || contains_char sep s'
  end.

Definition at_sign : ascii := "@"%char.

Module rollout_id.

(** The [debug_assert!] on [channel] is absent from release builds. *)
Definition new (channel channel_ref : string) : RolloutId :=
  MkRolloutId (channel +:+ "@" +:+ channel_ref).

Definition channel (r : RolloutId) : string :=
  match split_once at_sign (rid_raw r) with
  | Some (c, _) => c
  | None => rid_raw r
  end.

Definition channel_ref (r : RolloutId) : string :=
  match split_once at_sign (rid_raw r) with
  | Some (_, x) => x
  | None => ""
  end.

End rollout_id.

(** ** The resolved fleet *)

Record Pin := MkPin {
  pin_commit : string;
  pin_reason : string;
  pin_expires_at : option DateTime;
}.

Record Host := MkHost {
  host_system : string;
  host_tags : list string;
  host_channel : string;
  host_closure_hash : option string;
  host_pubkey : option string;
  host_pin : option Pin;
}.

Record Channel := MkChannel {
  ch_rollout_policy : string;
  ch_reconcile_interval_minutes : u32;
  ch_freshness_window : u32;
  ch_signing_interval_minutes : u32;
}.

(** [Duration::from_secs(self.freshness_window as u64 * 60)]. *)
Definition freshness_window_duration (c : Channel) : Duration :=
  duration_seconds (u64_wrap (ch_freshness_window c * 60)).

(** Recovery action when a host fails its health gate. *)
Module OnHealthFailure.
Inductive t := Halt | RollbackAndHalt.
#[global] Instance t_eq_dec : EqDecision t.
Proof. solve_decision. Defined.
Definition to_string (p : t) : string :=
  match p with Halt => "halt" | RollbackAndHalt => "rollback-and-halt" end.
End OnHealthFailure.
Abbreviation OnHealthFailure := OnHealthFailure.t.

Record Selector := MkSelector {
  sel_tags : list string;
  sel_tags_any : list string;
  sel_hosts : list string;
  sel_channel : option string;
  sel_all : bool;
}.

#[export] Instance Selector_eq_dec : EqDecision Selector.
Proof. solve_decision. Defined.
#[export] Program Instance Selector_countable : Countable Selector :=
  inj_countable'
    (fun s => (sel_tags s, sel_tags_any s, sel_hosts s, sel_channel s, sel_all s))
    (fun '(t, a, h, c, b) => MkSelector t a h c b) _.
Next Obligation. by intros []. Qed.

Definition Selector_default : Selector := MkSelector [] [] [] None false.

Module selector.

Definition matches (s : Selector) (host_name : string) (host : Host) : bool :=
  if sel_all s then true
  else if negb (is_empty (sel_hosts s)) && mem_str host_name (sel_hosts s) then true
  else if match sel_channel s with
          | Some ch => bool_decide (host_channel host = ch)
          | None => false
          end then true
  else if negb (is_empty (sel_tags s))
          && forallb (fun t => mem_str t (host_tags host)) (sel_tags s) then true
  else if negb (is_empty (sel_tags_any s))
          && existsb (fun t => mem_str t (host_tags host)) (sel_tags_any s) then true
  else false.

(** Order follows the input iterator. *)
Definition resolve (s : Selector) (hosts : list (string * Host)) : list string :=
  (filter (fun p => matches s p.1 p.2 = true) hosts).*1.

Definition string_le (a b : string) : Prop := String.leb a b = true.
#[global] Instance string_le_dec a b : Decision (string_le a b).
Proof. unfold string_le. apply _. Defined.

Definition sort_strings (l : list string) : list string := merge_sort string_le l.

Definition summary (s : Selector) : string :=
  if sel_all s then "all"
  else match sel_channel s with
  | Some channel => "channel:" +:+ channel
  | None =>
      if negb (is_empty (sel_tags s)) then
        "tags:" +:+ String.concat "," (sort_strings (sel_tags s))
      else if negb (is_empty (sel_tags_any s)) then
        "tags_any:" +:+ String.concat "," (sort_strings (sel_tags_any s))
      else if negb (is_empty (sel_hosts s)) then
        "hosts:" +:+ String.concat "," (sort_strings (sel_hosts s))
      else "unknown"
  end.

End selector.

Record PolicyWave := MkPolicyWave {
  pw_selector : Selector;
  pw_soak_minutes : u32;
}.

Record SystemdFailedUnits := MkSystemdFailedUnits { sfu_max : u32 }.
Record HealthGate := MkHealthGate { hg_systemd_failed_units : option SystemdFailedUnits }.

Record RolloutPolicy := MkRolloutPolicy {
  rp_strategy : string;
  rp_waves : list PolicyWave;
  rp_health_gate : HealthGate;
  rp_on_health_failure : OnHealthFailure;
}.

Record Wave := MkWave {
  wave_hosts : list string;
  wave_soak_minutes : u32;
}.

(** [gated] is held until [gates] completes. *)
Record Edge := MkEdge {
  edge_gated : string;
  edge_gates : string;
  edge_reason : option string;
}.

Record ChannelEdge := MkChannelEdge {
  ce_gates : string;
  ce_gated : string;
  ce_reason : option string;
}.

Record DisruptionBudget := MkDisruptionBudget {
  db_selector : Selector;
  db_max_in_flight : option u32;
  db_max_in_flight_pct : option u32;
}.

Record Meta := MkMeta {
  meta_schema_version : u32;
  meta_signed_at : option DateTime;
  meta_ci_commit : option string;
  meta_signature_algorithm : option string;
}.

Definition signature_algorithm_or_default (m : Meta) : string :=
  default "ed25519" (meta_signature_algorithm m).

Record FleetResolved := MkFleetResolved {
  fr_schema_version : u32;
  fr_hosts : gmap string Host;
  fr_channels : gmap string Channel;
  fr_rollout_policies : gmap string RolloutPolicy;
  fr_waves : gmap string (list Wave);
  fr_edges : list Edge;
  fr_channel_edges : list ChannelEdge;
  fr_disruption_budgets : list DisruptionBudget;
  fr_meta : Meta;
}.
#[export] Instance Pin_eq_dec : EqDecision Pin.
Proof. solve_decision. Defined.
#[export] Instance Host_eq_dec : EqDecision Host.
Proof. solve_decision. Defined.
#[export] Instance Channel_eq_dec : EqDecision Channel.
Proof. solve_decision. Defined.
#[export] Instance SystemdFailedUnits_eq_dec : EqDecision SystemdFailedUnits.
Proof. solve_decision. Defined.
#[export] Instance HealthGate_eq_dec : EqDecision HealthGate.
Proof. solve_decision. Defined.
#[export] Instance PolicyWave_eq_dec : EqDecision PolicyWave.
Proof. solve_decision. Defined.
#[export] Instance RolloutPolicy_eq_dec : EqDecision RolloutPolicy.
Proof. solve_decision. Defined.
#[export] Instance Wave_eq_dec : EqDecision Wave.
Proof. solve_decision. Defined.
#[export] Instance Edge_eq_dec : EqDecision Edge.
Proof. solve_decision. Defined.
#[export] Instance ChannelEdge_eq_dec : EqDecision ChannelEdge.
Proof. solve_decision. Defined.
#[export] Instance DisruptionBudget_eq_dec : EqDecision DisruptionBudget.
Proof. solve_decision. Defined.
#[export] Instance Meta_eq_dec : EqDecision Meta.
Proof. solve_decision. Defined.
#[export] Instance FleetResolved_eq_dec : EqDecision FleetResolved.
Proof. solve_decision. Defined.

#[export] Instance FleetResolved_eta : Etaexp FleetResolved := fun r =>
  MkFleetResolved (fr_schema_version r) (fr_hosts r) (fr_channels r) (fr_rollout_policies r)
    (fr_waves r) (fr_edges r) (fr_channel_edges r) (fr_disruption_budgets r) (fr_meta r).

Definition STRATEGY_ALL_AT_ONCE : string := "all-at-once".

Definition implicit_wave : PolicyWave :=
  MkPolicyWave (MkSelector [] [] [] None true) 0.

Definition normalize_policy (p : RolloutPolicy) : RolloutPolicy :=
  if bool_decide (rp_strategy p = STRATEGY_ALL_AT_ONCE) && is_empty (rp_waves p)
  then MkRolloutPolicy (rp_strategy p) (rp_waves p ++ [implicit_wave])
         (rp_health_gate p) (rp_on_health_failure p)
  else p.

Definition normalize_rollout_policies (fleet : FleetResolved) : FleetResolved :=
  fleet <| fr_rollout_policies := normalize_policy <$> fr_rollout_policies fleet |>.

(** ** Rollout manifests *)

Record RolloutBudget := MkRolloutBudget {
  rb_selector : Selector;
  rb_hosts : list string;
  rb_max_in_flight : option u32;
  rb_max_in_flight_pct : option u32;
}.

Record HostWave := MkHostWave {
  hw_hostname : string;
  hw_wave_index : u32;
  hw_target_closure : string;
}.

Record RolloutManifest := MkRolloutManifest {
  rm_schema_version : u32;
  rm_display_name : string;
  rm_channel : string;
  rm_channel_ref : string;
  rm_fleet_resolved_hash : string;
  rm_host_set : list HostWave;
  rm_health_gate : HealthGate;
  rm_disruption_budgets : list RolloutBudget;
  rm_meta : Meta;
}.

#[export] Instance RolloutBudget_eq_dec : EqDecision RolloutBudget.
Proof. solve_decision. Defined.
#[export] Instance HostWave_eq_dec : EqDecision HostWave.
Proof. solve_decision. Defined.
#[export] Instance RolloutManifest_eq_dec : EqDecision RolloutManifest.
Proof. solve_decision. Defined.

(** ** The agent event wire format *)

Module ProbeStatusWire.
Inductive t := Pass | Fail.
End ProbeStatusWire.

Module ProbeModeWire.
Inductive t := Enforce | Observe | Disabled.
End ProbeModeWire.

Module OnHealthFailureWire.
Inductive t := Halt | RollbackAndHalt.

Definition into (w : t) : OnHealthFailure :=
  match w with
  | Halt => OnHealthFailure.Halt
  | RollbackAndHalt => OnHealthFailure.RollbackAndHalt
  end.

Definition from (p : OnHealthFailure) : t :=
  match p with
  | OnHealthFailure.Halt => Halt
  | OnHealthFailure.RollbackAndHalt => RollbackAndHalt
  end.
End OnHealthFailureWire.

Record ProbeTopologyEntryWire := MkProbeTopologyEntryWire {
  ptew_probe_name : string;
  ptew_kind : string;
  ptew_mode : ProbeModeWire.t;
}.

Record ProbeSubResultWire := MkProbeSubResultWire {
  psrw_control_id : string;
  psrw_status : ProbeStatusWire.t;
  psrw_framework : string;
  psrw_article : option string;
  psrw_effective_mode : ProbeModeWire.t;
  psrw_override_reason : option string;
}.

Module AgentEvent.
Inductive t :=
| DispatchAck (current_closure_at_dispatch : string) (received_at : DateTime) (seq : u64)
| ActivationStarted (started_at : DateTime) (switch_method : string) (seq : u64)
| ActivationCompleted (observed_current_closure : string) (exit_code : i32)
    (completed_at : DateTime) (seq : u64)
| ActivationFailed (exit_code : i32) (stderr_tail : string) (failed_at : DateTime) (seq : u64)
| ActivationDeferred (component : string) (deferred_at : DateTime) (seq : u64)
| ProbeTopologyDeclared (probes : list ProbeTopologyEntryWire) (declared_at : DateTime) (seq : u64)
| ProbeObservedFirst (probe_name : string) (mode : ProbeModeWire.t) (observed_at : DateTime)
    (seq : u64)
| ProbeResult (probe_name : string) (mode : ProbeModeWire.t) (status : ProbeStatusWire.t)
    (observed_at : DateTime) (failure_reason : option string)
    (sub_results : option (list ProbeSubResultWire)) (seq : u64)
| ProbeFailureFirst (probe_name : string) (mode : ProbeModeWire.t) (first_failed_at : DateTime)
    (seq : u64)
| Failed (failed_at : DateTime) (sustained_duration_secs : u64) (failing_probes : list string)
    (policy_applied : OnHealthFailureWire.t) (seq : u64)
| RollbackComplete (reverted_to_closure : string) (exit_code : i32) (completed_at : DateTime)
    (seq : u64)
| Converged (converged_at : DateTime) (current_closure : string) (seq : u64).

Definition seq (e : t) : u64 :=
  match e with
  | DispatchAck _ _ seq
  | ActivationStarted _ _ seq
  | ActivationCompleted _ _ _ seq
  | ActivationDeferred _ _ seq
  | ActivationFailed _ _ _ seq
  | ProbeTopologyDeclared _ _ seq
  | ProbeObservedFirst _ _ _ seq
  | ProbeResult _ _ _ _ _ _ seq
  | ProbeFailureFirst _ _ _ seq
  | Failed _ _ _ _ seq
  | RollbackComplete _ _ _ seq
  | Converged _ _ seq => seq
  end.
End AgentEvent.

(** The body of [POST /v1/agent/events]. *)
Record AgentEventEnvelope := MkAgentEventEnvelope {
  env_hostname : string;
  env_rollout_id : RolloutId;
  env_event : AgentEvent.t;
  env_signature : option string;
}.

(** ** The wire host state *)

Module WireState.
Inductive t := Pending | Activating | Deferred | Soaking | Converged | Failed | Reverted.

#[global] Instance t_eq_dec : EqDecision t.
Proof. solve_decision. Defined.

Definition as_db_str (s : t) : string :=
  match s with
  | Pending => "Pending"
  | Activating => "Activating"
  | Deferred => "Deferred"
  | Soaking => "Soaking"
  | Converged => "Converged"
  | Failed => "Failed"
  | Reverted => "Reverted"
  end.

(** The error carries the string that did not parse. *)
Definition from_db_str (s : string) : result t string :=
  if bool_decide (s = "Pending") then Ok Pending
  else if bool_decide (s = "Activating") then Ok Activating
  else if bool_decide (s = "Deferred") then Ok Deferred
  else if bool_decide (s = "Soaking") then Ok Soaking
  else if bool_decide (s = "Converged") then Ok Converged
  else if bool_decide (s = "Failed") then Ok Failed
  else if bool_decide (s = "Reverted") then Ok Reverted
  else Err s.

Definition is_terminal_for_ordering (s : t) : bool :=
  match s with Converged | Deferred => true | _ => false end.

Definition is_in_flight (s : t) : bool :=
  match s with Pending | Activating | Soaking => true | _ => false end.

Definition is_failed (s : t) : bool :=
  match s with Failed | Reverted => true | _ => false end.
End WireState.

(** The per-rollout state carried by a heartbeat response. *)
Record HostRolloutSnapshot := MkHostRolloutSnapshot {
  snap_rollout_id : RolloutId;
  snap_hostname : string;
  snap_channel : string;
  snap_state : WireState.t;
  snap_target_closure : string;
  snap_current_closure_at_dispatch : option string;
  snap_current_closure : option string;
  snap_dispatched_at : DateTime;
  snap_dispatch_acked_at : option DateTime;
  snap_activation_started_at : option DateTime;
  snap_activation_completed_at : option DateTime;
  snap_soak_due_at : option DateTime;
  snap_last_event_seq : u64;
}.

(** ** Trust slots *)

Record TrustedPubkey := MkTrustedPubkey {
  tp_algorithm : string;
  tp_public : string;
}.

Record KeySlot := MkKeySlot {
  ks_current : option TrustedPubkey;
  ks_previous : option TrustedPubkey;
  ks_reject_before : option DateTime;
  ks_successor : option TrustedPubkey;
  ks_retire_at : option DateTime;
}.

Definition active_keys (s : KeySlot) : list TrustedPubkey :=
  let keys := match ks_current s with Some k => [k] | None => [] end in
  match ks_previous s with Some k => keys ++ [k] | None => keys end.

Definition active_keys_at (s : KeySlot) (now : DateTime) : list TrustedPubkey :=
  let keys := active_keys s in
  match ks_successor s, ks_retire_at s with
  | Some k, Some retire_at => if Z.ltb now retire_at then keys ++ [k] else keys
  | _, _ => keys
  end.

Record TrustConfig := MkTrustConfig {
  tc_schema_version : u32;
  tc_ci_release_key : KeySlot;
  tc_cache_keys : list string;
  tc_org_root_key : option KeySlot;
  tc_root_ca_pem : option string;
  tc_issuance_ca_pems : list string;
}.

(** ** Lemmas and properties *)

Lemma split_once_spec sep s l r :
  split_once sep s = Some (l, r) <->
  s = l +:+ String sep r /\ contains_char sep l = false.
Proof.
  revert l r. induction s as [|c s IH]; intros l r; simpl.
  - split; [done|]. intros [H _]. by destruct l.
  - case_bool as [->|Hne].
    + split.
      * intros [= <- <-]. done.
      * destruct l as [|c' l]; simpl; [by intros [[= ->] _]|].
        intros [[= <- _] H]. by rewrite bool_decide_eq_true_2 in H.
    + destruct (split_once sep s) as [[l' r']|] eqn:E.
      * split.
        -- intros [= <- <-]. destruct (proj1 (IH l' r') eq_refl) as [-> Hl].
           split; [done|]. simpl. rewrite bool_decide_eq_false_2; done.
        -- destruct l as [|c' l]; simpl; [by intros [[= ->] _]|].
           intros [[= <- Hs] H]. apply orb_false_iff in H as [_ H].
           pose proof (proj2 (IH l r) (conj Hs H)) as [= -> ->]. done.
      * split; [done|].
        destruct l as [|c' l]; simpl; [by intros [[= ->] _]|].
        intros [[= <- Hs] H]. apply orb_false_iff in H as [_ H].
        by pose proof (proj2 (IH l r) (conj Hs H)).
Qed.

Lemma split_once_new channel channel_ref :
  contains_char at_sign channel = false ->
  split_once at_sign (rid_raw (rollout_id.new channel channel_ref)) = Some (channel, channel_ref).
Proof. intros H. by apply split_once_spec. Qed.

#[export] Hint Rewrite split_once_new using done : nixfleet.

(** Rollout identity: for channel names without ['@'], the two accessors
    recover both halves of [RolloutId::new], and equal identifiers come from
    equal [(channel, channel_ref)] pairs: two channels that share a ref do not
    collide, and neither do two refs of one channel. *)
Theorem rollout_id_identity (c c' r r' : string) :
  contains_char at_sign c = false -> contains_char at_sign c' = false ->
  rollout_id.channel (rollout_id.new c r) = c /\
  rollout_id.channel_ref (rollout_id.new c r) = r /\
  (rollout_id.new c r = rollout_id.new c' r' <-> c = c' /\ r = r').
Proof.
  intros Hc Hc'. unfold rollout_id.channel, rollout_id.channel_ref.
  rewrite split_once_new by done. split_and!; [done..|].
  split; [|by intros [-> ->]].
  intros E. apply (f_equal (fun x => split_once at_sign (rid_raw x))) in E.
  rewrite !split_once_new in E by done. by injection E.
Qed.

Lemma rollout_id_identity_witness :
  rollout_id.channel (rollout_id.new "stable" "abc1234") = "stable" /\
  rollout_id.channel_ref (rollout_id.new "stable" "abc1234") = "abc1234" /\
  (rollout_id.new "stable" "abc1234" = rollout_id.new "edge" "abc1234"
     <-> "stable" = "edge" /\ "abc1234" = "abc1234").
Proof. apply rollout_id_identity; reflexivity. Defined.

(** The database literal of a wire host state parses back to the state,
    every string that is not one of the seven literals is refused, and the
    refusal carries that string. *)
Theorem wire_state_db_roundtrip (s : string) (w : WireState.t) :
  (WireState.from_db_str s = Ok w <-> s = WireState.as_db_str w) /\
  (WireState.from_db_str s = Err s <-> forall w', s <> WireState.as_db_str w').
Proof.
  unfold WireState.from_db_str.
  repeat case_bool; subst; (split; split);
    first [ by intros [=] | intros [= <-]; done
          | intros E; by destruct w
          | intros E; exfalso; first
              [ by apply (E WireState.Pending) | by apply (E WireState.Activating)
              | by apply (E WireState.Deferred) | by apply (E WireState.Soaking)
              | by apply (E WireState.Converged) | by apply (E WireState.Failed)
              | by apply (E WireState.Reverted) ]
          | intros _ []; done ].
Qed.

Lemma normalize_policy_idemp p : normalize_policy (normalize_policy p) = normalize_policy p.
Proof.
  unfold normalize_policy. destruct p as [strategy waves hg ohf]; simpl.
  destruct (bool_decide (strategy = STRATEGY_ALL_AT_ONCE)) eqn:E, waves; simpl; by rewrite ?E.
Qed.

(** Policy normalisation touches exactly the [all-at-once] policies that
    declare no wave, to which it gives one match-all wave with zero soak; every
    other policy and every other part of the fleet is unchanged, and a second
    normalisation changes nothing. *)
Theorem normalize_rollout_policies_spec (fleet : FleetResolved) (name : string)
    (p : RolloutPolicy) :
  fr_rollout_policies fleet !! name = Some p ->
  let fleet' := normalize_rollout_policies fleet in
  (exists p', fr_rollout_policies fleet' !! name = Some p' /\
     rp_on_health_failure p' = rp_on_health_failure p /\
     rp_strategy p' = rp_strategy p /\
     (rp_strategy p = STRATEGY_ALL_AT_ONCE /\ rp_waves p = [] ->
        rp_waves p' = [implicit_wave]) /\
     (~ (rp_strategy p = STRATEGY_ALL_AT_ONCE /\ rp_waves p = []) -> p' = p)) /\
  fr_hosts fleet' = fr_hosts fleet /\ fr_channels fleet' = fr_channels fleet /\
  fr_waves fleet' = fr_waves fleet /\ fr_edges fleet' = fr_edges fleet /\
  fr_channel_edges fleet' = fr_channel_edges fleet /\
  normalize_rollout_policies fleet' = fleet'.
Proof.
  intros Hp fleet'. subst fleet'. split_and!; [|done..|].
  - exists (normalize_policy p). simpl. rewrite lookup_fmap, Hp. split; [done|].
    unfold normalize_policy. case_bool as [Hs|Hs]; simpl.
    + destruct (rp_waves p) eqn:Hw; simpl; rewrite ?Hw.
      * split_and!; [done..|]. intros []; done.
      * split_and!; [done..| |done]. by intros [].
    + split_and!; [done..| |done]. by intros [].
  - unfold normalize_rollout_policies. simpl. f_equal.
    rewrite <- map_fmap_compose. apply map_fmap_ext. intros. apply normalize_policy_idemp.
Qed.

Definition sample_all_at_once : RolloutPolicy :=
  MkRolloutPolicy "all-at-once" [] (MkHealthGate None) OnHealthFailure.Halt.

Definition sample_fleet_one_policy : FleetResolved :=
  MkFleetResolved 1 ∅ ∅ {[ "p" := sample_all_at_once ]} ∅ [] [] []
    (MkMeta 1 None None None).

Lemma normalize_rollout_policies_spec_witness :
  exists p', fr_rollout_policies (normalize_rollout_policies sample_fleet_one_policy) !! "p"
             = Some p' /\ rp_waves p' = [implicit_wave].
Proof.
  destruct (normalize_rollout_policies_spec sample_fleet_one_policy "p" sample_all_at_once eq_refl)
    as [(p' & E & _ & _ & W & _) _].
  exists p'. split; [exact E | apply W; split; reflexivity].
Defined.
