(* ===== verification/HostTypes.v ===== *)
(** * The host state machine: state, events, effects, errors

    Models the data of [crates/nixfleet-state-machine/src/]: [state.rs],
    [event.rs], [effect.rs] and [error.rs].  Variants live in a module per Rust
    enum, so that [Event.LocalActivate] reads as [Event::LocalActivate]; the
    fields of [HostRolloutState] carry the prefix [hs_]. *)

From S2P Require Import Prelude Proto.

Abbreviation ClosureHash := string (only parsing).
Abbreviation ProbeName := string (only parsing).

(** ** State *)

Module HostState.
Inductive t := Pending | Activating | Deferred | Soaking | Converged | Failed | Reverted.
#[global] Instance t_eq_dec : EqDecision t.
Proof. solve_decision. Defined.
End HostState.
Abbreviation HostState := HostState.t.

Module ProbeStatus.
Inductive t := Pass | Fail.
#[global] Instance t_eq_dec : EqDecision t.
Proof. solve_decision. Defined.
End ProbeStatus.
Abbreviation ProbeStatus := ProbeStatus.t.

Module ProbeMode.
Inductive t := Enforce | Observe | Disabled.
#[global] Instance t_eq_dec : EqDecision t.
Proof. solve_decision. Defined.
End ProbeMode.
Abbreviation ProbeMode := ProbeMode.t.

Definition ProbeMode_default : ProbeMode := ProbeMode.Enforce.

Record ProbeSubResult := MkProbeSubResult {
  psr_control_id : string;
  psr_status : ProbeStatus;
  psr_framework : string;
  psr_article : option string;
  psr_effective_mode : ProbeMode;
  psr_override_reason : option string;
}.

Record ProbeRecord := MkProbeRecord {
  pr_status : ProbeStatus;
  pr_mode : ProbeMode;
  pr_last_observed_at : DateTime;
  pr_last_pass_at : option DateTime;
  pr_failure_reason : option string;
}.
#[export] Instance ProbeRecord_eta : Etaexp ProbeRecord := fun r =>
  MkProbeRecord (pr_status r) (pr_mode r) (pr_last_observed_at r) (pr_last_pass_at r)
    (pr_failure_reason r).

Record HostRolloutState := MkHostRolloutState {
  hs_rollout_id : RolloutId;
  hs_hostname : string;
  hs_channel : string;
  hs_state : HostState;
  hs_target_closure : ClosureHash;
  hs_current_closure_at_dispatch : option ClosureHash;
  hs_current_closure : option ClosureHash;
  hs_reverted_to : option ClosureHash;
  hs_dispatched_at : DateTime;
  hs_dispatch_acked_at : option DateTime;
  hs_activation_started_at : option DateTime;
  hs_activation_completed_at : option DateTime;
  hs_activation_failed_at : option DateTime;
  hs_probe_observed_first_at : option DateTime;
  hs_probe_failure_first_at : option DateTime;
  hs_soak_due_at : option DateTime;
  hs_converged_at : option DateTime;
  hs_failed_at : option DateTime;
  hs_policy_applied : option OnHealthFailure;
  hs_reverted_at : option DateTime;
  hs_probes : gmap ProbeName ProbeRecord;
  hs_last_event_seq : u64;
}.
#[export] Instance HostRolloutState_eta : Etaexp HostRolloutState := fun r =>
  MkHostRolloutState (hs_rollout_id r) (hs_hostname r) (hs_channel r) (hs_state r)
    (hs_target_closure r) (hs_current_closure_at_dispatch r) (hs_current_closure r)
    (hs_reverted_to r) (hs_dispatched_at r) (hs_dispatch_acked_at r)
    (hs_activation_started_at r) (hs_activation_completed_at r) (hs_activation_failed_at r)
    (hs_probe_observed_first_at r) (hs_probe_failure_first_at r) (hs_soak_due_at r)
    (hs_converged_at r) (hs_failed_at r) (hs_policy_applied r) (hs_reverted_at r)
    (hs_probes r) (hs_last_event_seq r).

Definition new_pending (rollout_id : RolloutId) (hostname channel : string)
    (target_closure : ClosureHash) (dispatched_at soak_due_at : DateTime) : HostRolloutState := {|
  hs_rollout_id := rollout_id;
  hs_hostname := hostname;
  hs_channel := channel;
  hs_state := HostState.Pending;
  hs_target_closure := target_closure;
  hs_current_closure_at_dispatch := None;
  hs_current_closure := None;
  hs_reverted_to := None;
  hs_dispatched_at := dispatched_at;
  hs_dispatch_acked_at := None;
  hs_activation_started_at := None;
  hs_activation_completed_at := None;
  hs_activation_failed_at := None;
  hs_probe_observed_first_at := None;
  hs_probe_failure_first_at := None;
  hs_soak_due_at := Some soak_due_at;
  hs_converged_at := None;
  hs_failed_at := None;
  hs_policy_applied := None;
  hs_reverted_at := None;
  hs_probes := ∅;
  hs_last_event_seq := 0;
|}.

(** ** Events *)

Record ProbeTopologyEntry := MkProbeTopologyEntry {
  pte_probe_name : ProbeName;
  pte_kind : string;
  pte_mode : ProbeMode;
}.

Module Event.
Inductive t :=
| LocalActivate (current_closure_at_dispatch target_closure : ClosureHash)
    (received_at soak_due_at : DateTime) (seq : u64)
| LocalActivationStarted (started_at : DateTime) (switch_method : string) (seq : u64)
| LocalActivationCompleted (observed_current_closure : ClosureHash) (exit_code : i32)
    (completed_at : DateTime) (seq : u64)
| LocalActivationDeferred (component : string) (deferred_at : DateTime) (seq : u64)
| LocalActivationFailed (exit_code : i32) (stderr_tail : string) (failed_at : DateTime) (seq : u64)
| LocalProbeTopologyDeclared (probes : list ProbeTopologyEntry) (declared_at : DateTime) (seq : u64)
| LocalProbeObservedFirst (probe_name : ProbeName) (mode : ProbeMode) (observed_at : DateTime)
    (seq : u64)
| LocalProbeResult (probe_name : ProbeName) (mode : ProbeMode) (status : ProbeStatus)
    (observed_at : DateTime) (failure_reason : option string)
    (sub_results : option (list ProbeSubResult)) (seq : u64)
| LocalProbeFailureFirst (probe_name : ProbeName) (mode : ProbeMode) (first_failed_at : DateTime)
    (seq : u64)
| LocalSustainedFailureCrossed (failed_at : DateTime) (sustained_duration_secs : u64)
    (failing_probes : list ProbeName) (policy_applied : OnHealthFailure) (seq : u64)
| LocalRollbackCompleted (reverted_to_closure : ClosureHash) (exit_code : i32)
    (completed_at : DateTime) (seq : u64)
| LocalConvergedReached (converged_at : DateTime) (current_closure : ClosureHash) (seq : u64)
| RemoteDispatchAck (current_closure_at_dispatch : ClosureHash) (received_at : DateTime) (seq : u64)
| RemoteActivationStarted (started_at : DateTime) (switch_method : string) (seq : u64)
| RemoteActivationDeferred (component : string) (deferred_at : DateTime) (seq : u64)
| RemoteActivationCompleted (observed_current_closure : ClosureHash) (exit_code : i32)
    (completed_at : DateTime) (seq : u64)
| RemoteActivationFailed (exit_code : i32) (stderr_tail : string) (failed_at : DateTime)
    (seq : u64)
| RemoteProbeTopologyDeclared (probes : list ProbeTopologyEntry) (declared_at : DateTime)
    (seq : u64)
| RemoteProbeObservedFirst (probe_name : ProbeName) (mode : ProbeMode) (observed_at : DateTime)
    (seq : u64)
| RemoteProbeResult (probe_name : ProbeName) (mode : ProbeMode) (status : ProbeStatus)
    (observed_at : DateTime) (failure_reason : option string)
    (sub_results : option (list ProbeSubResult)) (seq : u64)
| RemoteProbeFailureFirst (probe_name : ProbeName) (mode : ProbeMode) (first_failed_at : DateTime)
    (seq : u64)
| RemoteFailed (failed_at : DateTime) (sustained_duration_secs : u64)
    (failing_probes : list ProbeName) (policy_applied : OnHealthFailure) (seq : u64)
| RemoteRollbackComplete (reverted_to_closure : ClosureHash) (exit_code : i32)
    (completed_at : DateTime) (seq : u64)
| RemoteConverged (converged_at : DateTime) (current_closure : ClosureHash) (seq : u64).

Definition seq (e : t) : u64 :=
  match e with
  | LocalActivate _ _ _ _ seq
  | LocalActivationStarted _ _ seq
  | LocalActivationCompleted _ _ _ seq
  | LocalActivationDeferred _ _ seq
  | LocalActivationFailed _ _ _ seq
  | LocalProbeTopologyDeclared _ _ seq
  | LocalProbeObservedFirst _ _ _ seq
  | LocalProbeResult _ _ _ _ _ _ seq
  | LocalProbeFailureFirst _ _ _ seq
  | LocalSustainedFailureCrossed _ _ _ _ seq
  | LocalRollbackCompleted _ _ _ seq
  | LocalConvergedReached _ _ seq
  | RemoteDispatchAck _ _ seq
  | RemoteActivationStarted _ _ seq
  | RemoteActivationCompleted _ _ _ seq
  | RemoteActivationDeferred _ _ seq
  | RemoteActivationFailed _ _ _ seq
  | RemoteProbeTopologyDeclared _ _ seq
  | RemoteProbeObservedFirst _ _ _ seq
  | RemoteProbeResult _ _ _ _ _ _ seq
  | RemoteProbeFailureFirst _ _ _ seq
  | RemoteFailed _ _ _ _ seq
  | RemoteRollbackComplete _ _ _ seq
  | RemoteConverged _ _ seq => seq
  end.
End Event.
Abbreviation Event := Event.t.

(** ** Effects *)

Module OutboundAgentEvent.
Inductive t :=
| DispatchAck (current_closure_at_dispatch : ClosureHash) (received_at : DateTime) (seq : u64)
| ActivationStarted (started_at : DateTime) (switch_method : string) (seq : u64)
| ActivationCompleted (observed_current_closure : ClosureHash) (exit_code : i32)
    (completed_at : DateTime) (seq : u64)
| ActivationFailed (exit_code : i32) (stderr_tail : string) (failed_at : DateTime) (seq : u64)
| ActivationDeferred (component : string) (deferred_at : DateTime) (seq : u64)
| ProbeTopologyDeclared (probes : list ProbeTopologyEntry) (declared_at : DateTime) (seq : u64)
| ProbeObservedFirst (probe_name : ProbeName) (mode : ProbeMode) (observed_at : DateTime)
    (seq : u64)
| ProbeResult (probe_name : ProbeName) (mode : ProbeMode) (status : ProbeStatus)
    (observed_at : DateTime) (failure_reason : option string)
    (sub_results : option (list ProbeSubResult)) (seq : u64)
| ProbeFailureFirst (probe_name : ProbeName) (mode : ProbeMode) (first_failed_at : DateTime)
    (seq : u64)
| Failed (failed_at : DateTime) (sustained_duration_secs : u64) (failing_probes : list ProbeName)
    (policy_applied : OnHealthFailure) (seq : u64)
| RollbackComplete (reverted_to_closure : ClosureHash) (exit_code : i32) (completed_at : DateTime)
    (seq : u64)
| Converged (converged_at : DateTime) (current_closure : ClosureHash) (seq : u64).
End OutboundAgentEvent.
Abbreviation OutboundAgentEvent := OutboundAgentEvent.t.

Module LogLevel.
Inductive t := Trace | Debug | Info | Warn | Error.
End LogLevel.

(** The [f64] of a metric is its 64-bit pattern; no transition emits one. *)
Module Effect.
Inductive t :=
| LocalFireSwitch (rollout_id : RolloutId) (target : ClosureHash)
| LocalFireRollbackTo (rollout_id : RolloutId) (closure : ClosureHash)
| LocalResetProbeCache (rollout_id : RolloutId)
| LocalEmitEvent (rollout_id : RolloutId) (payload : OutboundAgentEvent) (durable : bool)
| RemoteQueueDispatch (host : string) (rollout_id : RolloutId) (target_closure : ClosureHash)
    (soak_due_at : DateTime)
| RemoteInsertQuarantine (channel : string) (closure : ClosureHash)
| RemoteOpenRolloutRecord (rollout_id : RolloutId) (channel host : string)
| RemoteAppendEventLog (host : string) (rollout_id : RolloutId) (payload : OutboundAgentEvent)
| RecordTransition (host : string) (rollout_id : RolloutId) (from to : HostState) (at_ : DateTime)
| EmitMetric (name : string) (labels : list (string * string)) (value : Z)
| EmitLog (level : LogLevel.t) (target message : string) (fields : list (string * string)).
End Effect.
Abbreviation Effect := Effect.t.

(** ** Errors *)

Module TransitionError.
Inductive t :=
| IllegalForState (from : HostState) (event : string) (rollout_id : RolloutId) (hostname : string)
| SeqRegression (got last : u64) (rollout_id : RolloutId) (hostname : string)
| Invariant (what : string)
| Unimplemented (from : HostState) (event : string).
End TransitionError.
Abbreviation TransitionError := TransitionError.t.

(** What a transition returns. *)
Abbreviation step_result := (result (HostRolloutState * list Effect) TransitionError).
