(* ===== verification/HostTransitions.v ===== *)
(** * The host state machine: transitions

    Models [crates/nixfleet-state-machine/src/transitions/] and the public
    [step] of [lib.rs]: one module per source state, one definition per match
    arm, and [handle] for the match with its fall-through error. *)

From S2P Require Import Prelude Proto HostTypes.

(** ** Diagnostics ([transitions/mod.rs]) *)

Definition event_name (event : Event) : string :=
  match event with
  | Event.LocalActivate _ _ _ _ _ => "LocalActivate"
  | Event.LocalActivationStarted _ _ _ => "LocalActivationStarted"
  | Event.LocalActivationCompleted _ _ _ _ => "LocalActivationCompleted"
  | Event.LocalActivationDeferred _ _ _ => "LocalActivationDeferred"
  | Event.LocalActivationFailed _ _ _ _ => "LocalActivationFailed"
  | Event.LocalProbeTopologyDeclared _ _ _ => "LocalProbeTopologyDeclared"
  | Event.LocalProbeObservedFirst _ _ _ _ => "LocalProbeObservedFirst"
  | Event.LocalProbeResult _ _ _ _ _ _ _ => "LocalProbeResult"
  | Event.LocalProbeFailureFirst _ _ _ _ => "LocalProbeFailureFirst"
  | Event.LocalSustainedFailureCrossed _ _ _ _ _ => "LocalSustainedFailureCrossed"
  | Event.LocalRollbackCompleted _ _ _ _ => "LocalRollbackCompleted"
  | Event.LocalConvergedReached _ _ _ => "LocalConvergedReached"
  | Event.RemoteDispatchAck _ _ _ => "RemoteDispatchAck"
  | Event.RemoteActivationStarted _ _ _ => "RemoteActivationStarted"
  | Event.RemoteActivationCompleted _ _ _ _ => "RemoteActivationCompleted"
  | Event.RemoteActivationDeferred _ _ _ => "RemoteActivationDeferred"
  | Event.RemoteActivationFailed _ _ _ _ => "RemoteActivationFailed"
  | Event.RemoteProbeTopologyDeclared _ _ _ => "RemoteProbeTopologyDeclared"
  | Event.RemoteProbeObservedFirst _ _ _ _ => "RemoteProbeObservedFirst"
  | Event.RemoteProbeResult _ _ _ _ _ _ _ => "RemoteProbeResult"
  | Event.RemoteProbeFailureFirst _ _ _ _ => "RemoteProbeFailureFirst"
  | Event.RemoteFailed _ _ _ _ _ => "RemoteFailed"
  | Event.RemoteRollbackComplete _ _ _ _ => "RemoteRollbackComplete"
  | Event.RemoteConverged _ _ _ => "RemoteConverged"
  end.

Definition illegal (state : HostRolloutState) (event : Event) : TransitionError :=
  TransitionError.IllegalForState (hs_state state) (event_name event)
    (hs_rollout_id state) (hs_hostname state).

(** ** [Pending] ([transitions/pending.rs]) *)

Module pending.

(** [target_closure] and [soak_due_at] of the event are not consumed here. *)
Definition local_activate (state : HostRolloutState) (current_closure_at_dispatch : ClosureHash)
    (received_at : DateTime) (seq : u64) : HostRolloutState * list Effect :=
  let from := hs_state state in
  let state := state <| hs_state := HostState.Activating |>
                     <| hs_current_closure_at_dispatch := Some current_closure_at_dispatch |>
                     <| hs_dispatch_acked_at := Some received_at |>
                     <| hs_last_event_seq := seq |> in
  let target := hs_target_closure state in
  let rollout_id := hs_rollout_id state in
  (state,
   [ Effect.RecordTransition (hs_hostname state) rollout_id from HostState.Activating received_at;
     Effect.LocalEmitEvent rollout_id
       (OutboundAgentEvent.DispatchAck current_closure_at_dispatch received_at seq) true;
     Effect.LocalFireSwitch rollout_id target ]).

Definition remote_dispatch_ack (state : HostRolloutState)
    (current_closure_at_dispatch : ClosureHash) (received_at : DateTime) (seq : u64)
    : HostRolloutState * list Effect :=
  let from := hs_state state in
  let state := state <| hs_state := HostState.Activating |>
                     <| hs_current_closure_at_dispatch := Some current_closure_at_dispatch |>
                     <| hs_dispatch_acked_at := Some received_at |>
                     <| hs_last_event_seq := seq |> in
  (state,
   [ Effect.RemoteAppendEventLog (hs_hostname state) (hs_rollout_id state)
       (OutboundAgentEvent.DispatchAck (default "" (hs_current_closure_at_dispatch state))
          received_at seq);
     Effect.RecordTransition (hs_hostname state) (hs_rollout_id state) from
       HostState.Activating received_at ]).

Definition handle (state : HostRolloutState) (event : Event) (_now : DateTime)
    (_policy : RolloutPolicy) : step_result :=
  match event with
  | Event.LocalActivate current_closure_at_dispatch _ received_at _ seq =>
      Ok (local_activate state current_closure_at_dispatch received_at seq)
  | Event.RemoteDispatchAck current_closure_at_dispatch received_at seq =>
      Ok (remote_dispatch_ack state current_closure_at_dispatch received_at seq)
  | other => Err (illegal state other)
  end.

End pending.

(** ** [Activating] ([transitions/activating.rs]) *)

Module activating.

Definition local_activation_started (state : HostRolloutState) (started_at : DateTime)
    (switch_method : string) (seq : u64) : HostRolloutState * list Effect :=
  let state := state <| hs_activation_started_at := Some started_at |>
                     <| hs_last_event_seq := seq |> in
  (state,
   [ Effect.LocalEmitEvent (hs_rollout_id state)
       (OutboundAgentEvent.ActivationStarted started_at switch_method seq) true ]).

Definition remote_activation_started (state : HostRolloutState) (started_at : DateTime)
    (switch_method : string) (seq : u64) : HostRolloutState * list Effect :=
  let state := state <| hs_activation_started_at := Some started_at |>
                     <| hs_last_event_seq := seq |> in
  (state,
   [ Effect.RemoteAppendEventLog (hs_hostname state) (hs_rollout_id state)
       (OutboundAgentEvent.ActivationStarted started_at switch_method seq) ]).

Definition local_activation_completed (state : HostRolloutState)
    (observed_current_closure : ClosureHash) (exit_code : i32) (completed_at : DateTime)
    (seq : u64) : HostRolloutState * list Effect :=
  let from := hs_state state in
  let state := state <| hs_state := HostState.Soaking |>
                     <| hs_activation_completed_at := Some completed_at |>
                     <| hs_current_closure := Some observed_current_closure |>
                     <| hs_probes := ∅ |>
                     <| hs_last_event_seq := seq |> in
  (state,
   [ Effect.LocalResetProbeCache (hs_rollout_id state);
     Effect.LocalEmitEvent (hs_rollout_id state)
       (OutboundAgentEvent.ActivationCompleted observed_current_closure exit_code completed_at seq)
       true;
     Effect.RecordTransition (hs_hostname state) (hs_rollout_id state) from
       HostState.Soaking completed_at ]).

Definition remote_activation_completed (state : HostRolloutState)
    (observed_current_closure : ClosureHash) (exit_code : i32) (completed_at : DateTime)
    (seq : u64) : HostRolloutState * list Effect :=
  let from := hs_state state in
  let state := state <| hs_state := HostState.Soaking |>
                     <| hs_activation_completed_at := Some completed_at |>
                     <| hs_current_closure := Some observed_current_closure |>
                     <| hs_probes := ∅ |>
                     <| hs_last_event_seq := seq |> in
  (state,
   [ Effect.RemoteAppendEventLog (hs_hostname state) (hs_rollout_id state)
       (OutboundAgentEvent.ActivationCompleted observed_current_closure exit_code completed_at seq);
     Effect.RecordTransition (hs_hostname state) (hs_rollout_id state) from
       HostState.Soaking completed_at ]).

Definition local_activation_deferred (state : HostRolloutState) (component : string)
    (deferred_at : DateTime) (seq : u64) : HostRolloutState * list Effect :=
  let from := hs_state state in
  let state := state <| hs_state := HostState.Deferred |>
                     <| hs_last_event_seq := seq |> in
  (state,
   [ Effect.LocalEmitEvent (hs_rollout_id state)
       (OutboundAgentEvent.ActivationDeferred component deferred_at seq) true;
     Effect.RecordTransition (hs_hostname state) (hs_rollout_id state) from
       HostState.Deferred deferred_at ]).

Definition remote_activation_deferred (state : HostRolloutState) (component : string)
    (deferred_at : DateTime) (seq : u64) : HostRolloutState * list Effect :=
  let from := hs_state state in
  let state := state <| hs_state := HostState.Deferred |>
                     <| hs_last_event_seq := seq |> in
  (state,
   [ Effect.RemoteAppendEventLog (hs_hostname state) (hs_rollout_id state)
       (OutboundAgentEvent.ActivationDeferred component deferred_at seq);
     Effect.RecordTransition (hs_hostname state) (hs_rollout_id state) from
       HostState.Deferred deferred_at ]).

Definition local_activation_failed (state : HostRolloutState) (policy : RolloutPolicy)
    (exit_code : i32) (stderr_tail : string) (failed_at : DateTime) (seq : u64)
    : HostRolloutState * list Effect :=
  let from := hs_state state in
  let state := state <| hs_state := HostState.Failed |>
                     <| hs_activation_failed_at := Some failed_at |>
                     <| hs_failed_at := Some failed_at |>
                     <| hs_policy_applied := Some (rp_on_health_failure policy) |>
                     <| hs_last_event_seq := seq |> in
  let effects :=
    [ Effect.LocalEmitEvent (hs_rollout_id state)
        (OutboundAgentEvent.ActivationFailed exit_code stderr_tail failed_at seq) true;
      Effect.RecordTransition (hs_hostname state) (hs_rollout_id state) from
        HostState.Failed failed_at ] in
  let effects :=
    match rp_on_health_failure policy, hs_current_closure_at_dispatch state with
    | OnHealthFailure.RollbackAndHalt, Some prior =>
        effects ++ [ Effect.LocalFireRollbackTo (hs_rollout_id state) prior ]
    | _, _ => effects
    end in
  (state, effects).

Definition remote_activation_failed (state : HostRolloutState) (policy : RolloutPolicy)
    (exit_code : i32) (stderr_tail : string) (failed_at : DateTime) (seq : u64)
    : HostRolloutState * list Effect :=
  let from := hs_state state in
  let state := state <| hs_state := HostState.Failed |>
                     <| hs_activation_failed_at := Some failed_at |>
                     <| hs_failed_at := Some failed_at |>
                     <| hs_policy_applied := Some (rp_on_health_failure policy) |>
                     <| hs_last_event_seq := seq |> in
  (state,
   [ Effect.RemoteAppendEventLog (hs_hostname state) (hs_rollout_id state)
       (OutboundAgentEvent.ActivationFailed exit_code stderr_tail failed_at seq);
     Effect.RecordTransition (hs_hostname state) (hs_rollout_id state) from
       HostState.Failed failed_at ]).

Definition handle (state : HostRolloutState) (event : Event) (_now : DateTime)
    (policy : RolloutPolicy) : step_result :=
  match event with
  | Event.LocalActivationStarted started_at switch_method seq =>
      Ok (local_activation_started state started_at switch_method seq)
  | Event.RemoteActivationStarted started_at switch_method seq =>
      Ok (remote_activation_started state started_at switch_method seq)
  | Event.LocalActivationCompleted observed exit_code completed_at seq =>
      Ok (local_activation_completed state observed exit_code completed_at seq)
  | Event.RemoteActivationCompleted observed exit_code completed_at seq =>
      Ok (remote_activation_completed state observed exit_code completed_at seq)
  | Event.LocalActivationDeferred component deferred_at seq =>
      Ok (local_activation_deferred state component deferred_at seq)
  | Event.RemoteActivationDeferred component deferred_at seq =>
      Ok (remote_activation_deferred state component deferred_at seq)
  | Event.LocalActivationFailed exit_code stderr_tail failed_at seq =>
      Ok (local_activation_failed state policy exit_code stderr_tail failed_at seq)
  | Event.RemoteActivationFailed exit_code stderr_tail failed_at seq =>
      Ok (remote_activation_failed state policy exit_code stderr_tail failed_at seq)
  | other => Err (illegal state other)
  end.

End activating.


(** ** [Deferred] ([transitions/deferred.rs]) *)

Module deferred.

Definition local_activation_completed (state : HostRolloutState)
    (observed_current_closure : ClosureHash) (exit_code : i32) (completed_at : DateTime)
    (seq : u64) : HostRolloutState * list Effect :=
  let from := hs_state state in
  let state := state <| hs_state := HostState.Soaking |>
                     <| hs_activation_completed_at := Some completed_at |>
                     <| hs_current_closure := Some observed_current_closure |>
                     <| hs_probes := ∅ |>
                     <| hs_last_event_seq := seq |> in
  (state,
   [ Effect.LocalResetProbeCache (hs_rollout_id state);
     Effect.LocalEmitEvent (hs_rollout_id state)
       (OutboundAgentEvent.ActivationCompleted observed_current_closure exit_code completed_at seq)
       true;
     Effect.RecordTransition (hs_hostname state) (hs_rollout_id state) from
       HostState.Soaking completed_at ]).

Definition remote_activation_completed (state : HostRolloutState)
    (observed_current_closure : ClosureHash) (exit_code : i32) (completed_at : DateTime)
    (seq : u64) : HostRolloutState * list Effect :=
  let from := hs_state state in
  let state := state <| hs_state := HostState.Soaking |>
                     <| hs_activation_completed_at := Some completed_at |>
                     <| hs_current_closure := Some observed_current_closure |>
                     <| hs_probes := ∅ |>
                     <| hs_last_event_seq := seq |> in
  (state,
   [ Effect.RemoteAppendEventLog (hs_hostname state) (hs_rollout_id state)
       (OutboundAgentEvent.ActivationCompleted observed_current_closure exit_code completed_at seq);
     Effect.RecordTransition (hs_hostname state) (hs_rollout_id state) from
       HostState.Soaking completed_at ]).

(** Unlike [activating], neither [policy_applied] nor a rollback effect. *)
Definition local_activation_failed (state : HostRolloutState) (exit_code : i32)
    (stderr_tail : string) (failed_at : DateTime) (seq : u64)
    : HostRolloutState * list Effect :=
  let from := hs_state state in
  let state := state <| hs_state := HostState.Failed |>
                     <| hs_activation_failed_at := Some failed_at |>
                     <| hs_failed_at := Some failed_at |>
                     <| hs_last_event_seq := seq |> in
  (state,
   [ Effect.LocalEmitEvent (hs_rollout_id state)
       (OutboundAgentEvent.ActivationFailed exit_code stderr_tail failed_at seq) true;
     Effect.RecordTransition (hs_hostname state) (hs_rollout_id state) from
       HostState.Failed failed_at ]).

Definition remote_activation_failed (state : HostRolloutState) (exit_code : i32)
    (stderr_tail : string) (failed_at : DateTime) (seq : u64)
    : HostRolloutState * list Effect :=
  let from := hs_state state in
  let state := state <| hs_state := HostState.Failed |>
                     <| hs_activation_failed_at := Some failed_at |>
                     <| hs_failed_at := Some failed_at |>
                     <| hs_last_event_seq := seq |> in
  (state,
   [ Effect.RemoteAppendEventLog (hs_hostname state) (hs_rollout_id state)
       (OutboundAgentEvent.ActivationFailed exit_code stderr_tail failed_at seq);
     Effect.RecordTransition (hs_hostname state) (hs_rollout_id state) from
       HostState.Failed failed_at ]).

Definition handle (state : HostRolloutState) (event : Event) (_now : DateTime)
    (_policy : RolloutPolicy) : step_result :=
  match event with
  | Event.LocalActivationCompleted observed exit_code completed_at seq =>
      Ok (local_activation_completed state observed exit_code completed_at seq)
  | Event.RemoteActivationCompleted observed exit_code completed_at seq =>
      Ok (remote_activation_completed state observed exit_code completed_at seq)
  | Event.LocalActivationFailed exit_code stderr_tail failed_at seq =>
      Ok (local_activation_failed state exit_code stderr_tail failed_at seq)
  | Event.RemoteActivationFailed exit_code stderr_tail failed_at seq =>
      Ok (remote_activation_failed state exit_code stderr_tail failed_at seq)
  | other => Err (illegal state other)
  end.

End deferred.

(** ** [Soaking] ([transitions/soaking.rs]) *)

(** [map.entry(name).or_insert(fresh)], then the writes through [entry]. *)
Definition update_probe (state : HostRolloutState) (name : string) (mode : ProbeMode)
    (status : ProbeStatus) (observed_at : DateTime) (failure_reason : option string)
    : HostRolloutState :=
  let entry := default (MkProbeRecord status mode observed_at None None)
                 (hs_probes state !! name) in
  let entry := entry <| pr_status := status |>
                     <| pr_mode := mode |>
                     <| pr_last_observed_at := observed_at |> in
  let entry :=
    match status with
    | ProbeStatus.Pass => entry <| pr_last_pass_at := Some observed_at |>
                                <| pr_failure_reason := None |>
    | ProbeStatus.Fail => entry <| pr_failure_reason := failure_reason |>
    end in
  state <| hs_probes := <[ name := entry ]> (hs_probes state) |>.

(** The loop's test: an enforce-mode probe that is not [Pass]. *)
Definition probe_blocks_convergence (probe : ProbeRecord) : bool :=
  bool_decide (pr_mode probe = ProbeMode.Enforce) &&
  negb (bool_decide (pr_status probe = ProbeStatus.Pass)).

(** The loop over the probes returns at the first blocking one; the result
    does not depend on the order. *)
Definition verify_converged_invariants (state : HostRolloutState) (current_closure : ClosureHash)
    (converged_at : DateTime) : result unit TransitionError :=
  if negb (bool_decide (current_closure = hs_target_closure state)) then
    Err (TransitionError.Invariant "Converged event: current_closure != target_closure")
  else if match hs_soak_due_at state with
          | Some soak_due => Z.ltb converged_at soak_due
          | None => false
          end then
    Err (TransitionError.Invariant "Converged event: converged_at before soak_due_at")
  else if existsb (fun p => probe_blocks_convergence p.2) (map_to_list (hs_probes state)) then
    Err (TransitionError.Invariant
           "Converged event: at least one enforce-mode probe is not Pass")
  else Ok tt.

Module soaking.

Definition local_probe_topology_declared (state : HostRolloutState)
    (probes : list ProbeTopologyEntry) (declared_at : DateTime) (seq : u64)
    : HostRolloutState * list Effect :=
  let state := state <| hs_last_event_seq := seq |> in
  (state,
   [ Effect.LocalEmitEvent (hs_rollout_id state)
       (OutboundAgentEvent.ProbeTopologyDeclared probes declared_at seq) true ]).

Definition remote_probe_topology_declared (state : HostRolloutState)
    (probes : list ProbeTopologyEntry) (declared_at : DateTime) (seq : u64)
    : HostRolloutState * list Effect :=
  let state := state <| hs_last_event_seq := seq |> in
  (state,
   [ Effect.RemoteAppendEventLog (hs_hostname state) (hs_rollout_id state)
       (OutboundAgentEvent.ProbeTopologyDeclared probes declared_at seq) ]).

Definition local_probe_observed_first (state : HostRolloutState) (probe_name : ProbeName)
    (mode : ProbeMode) (observed_at : DateTime) (seq : u64) : HostRolloutState * list Effect :=
  let state :=
    match hs_probe_observed_first_at state with
    | None => state <| hs_probe_observed_first_at := Some observed_at |>
    | Some _ => state
    end in
  let state := state <| hs_last_event_seq := seq |> in
  (state,
   [ Effect.LocalEmitEvent (hs_rollout_id state)
       (OutboundAgentEvent.ProbeObservedFirst probe_name mode observed_at seq) false ]).

Definition remote_probe_observed_first (state : HostRolloutState) (probe_name : ProbeName)
    (mode : ProbeMode) (observed_at : DateTime) (seq : u64) : HostRolloutState * list Effect :=
  let state :=
    match hs_probe_observed_first_at state with
    | None => state <| hs_probe_observed_first_at := Some observed_at |>
    | Some _ => state
    end in
  let state := state <| hs_last_event_seq := seq |> in
  (state,
   [ Effect.RemoteAppendEventLog (hs_hostname state) (hs_rollout_id state)
       (OutboundAgentEvent.ProbeObservedFirst probe_name mode observed_at seq) ]).

Definition local_probe_result (state : HostRolloutState) (probe_name : ProbeName)
    (mode : ProbeMode) (status : ProbeStatus) (observed_at : DateTime)
    (failure_reason : option string) (sub_results : option (list ProbeSubResult)) (seq : u64)
    : HostRolloutState * list Effect :=
  let state := update_probe state probe_name mode status observed_at failure_reason in
  let state := state <| hs_last_event_seq := seq |> in
  (state,
   [ Effect.LocalEmitEvent (hs_rollout_id state)
       (OutboundAgentEvent.ProbeResult probe_name mode status observed_at failure_reason
          sub_results seq) false ]).

Definition remote_probe_result (state : HostRolloutState) (probe_name : ProbeName)
    (mode : ProbeMode) (status : ProbeStatus) (observed_at : DateTime)
    (failure_reason : option string) (sub_results : option (list ProbeSubResult)) (seq : u64)
    : HostRolloutState * list Effect :=
  let state := update_probe state probe_name mode status observed_at failure_reason in
  let state := state <| hs_last_event_seq := seq |> in
  (state,
   [ Effect.RemoteAppendEventLog (hs_hostname state) (hs_rollout_id state)
       (OutboundAgentEvent.ProbeResult probe_name mode status observed_at failure_reason
          sub_results seq) ]).

Definition local_probe_failure_first (state : HostRolloutState) (probe_name : ProbeName)
    (mode : ProbeMode) (first_failed_at : DateTime) (seq : u64)
    : HostRolloutState * list Effect :=
  let state :=
    match hs_probe_failure_first_at state with
    | None => state <| hs_probe_failure_first_at := Some first_failed_at |>
    | Some _ => state
    end in
  let state := state <| hs_last_event_seq := seq |> in
  (state,
   [ Effect.LocalEmitEvent (hs_rollout_id state)
       (OutboundAgentEvent.ProbeFailureFirst probe_name mode first_failed_at seq) false ]).

Definition remote_probe_failure_first (state : HostRolloutState) (probe_name : ProbeName)
    (mode : ProbeMode) (first_failed_at : DateTime) (seq : u64)
    : HostRolloutState * list Effect :=
  let state :=
    match hs_probe_failure_first_at state with
    | None => state <| hs_probe_failure_first_at := Some first_failed_at |>
    | Some _ => state
    end in
  let state := state <| hs_last_event_seq := seq |> in
  (state,
   [ Effect.RemoteAppendEventLog (hs_hostname state) (hs_rollout_id state)
       (OutboundAgentEvent.ProbeFailureFirst probe_name mode first_failed_at seq) ]).

Definition local_sustained_failure_crossed (state : HostRolloutState) (failed_at : DateTime)
    (sustained_duration_secs : u64) (failing_probes : list ProbeName)
    (policy_applied : OnHealthFailure) (seq : u64) : HostRolloutState * list Effect :=
  let from := hs_state state in
  let state := state <| hs_state := HostState.Failed |>
                     <| hs_failed_at := Some failed_at |>
                     <| hs_policy_applied := Some policy_applied |>
                     <| hs_last_event_seq := seq |> in
  let effects :=
    [ Effect.LocalEmitEvent (hs_rollout_id state)
        (OutboundAgentEvent.Failed failed_at sustained_duration_secs failing_probes
           policy_applied seq) true;
      Effect.RecordTransition (hs_hostname state) (hs_rollout_id state) from
        HostState.Failed failed_at ] in
  let effects :=
    match policy_applied, hs_current_closure_at_dispatch state with
    | OnHealthFailure.RollbackAndHalt, Some prior =>
        effects ++ [ Effect.LocalFireRollbackTo (hs_rollout_id state) prior ]
    | _, _ => effects
    end in
  (state, effects).

Definition remote_failed (state : HostRolloutState) (failed_at : DateTime)
    (sustained_duration_secs : u64) (failing_probes : list ProbeName)
    (policy_applied : OnHealthFailure) (seq : u64) : HostRolloutState * list Effect :=
  let from := hs_state state in
  let state := state <| hs_state := HostState.Failed |>
                     <| hs_failed_at := Some failed_at |>
                     <| hs_policy_applied := Some policy_applied |>
                     <| hs_last_event_seq := seq |> in
  (state,
   [ Effect.RemoteAppendEventLog (hs_hostname state) (hs_rollout_id state)
       (OutboundAgentEvent.Failed failed_at sustained_duration_secs failing_probes
          policy_applied seq);
     Effect.RecordTransition (hs_hostname state) (hs_rollout_id state) from
       HostState.Failed failed_at ]).

Definition local_converged_reached (state : HostRolloutState) (converged_at : DateTime)
    (current_closure : ClosureHash) (seq : u64) : step_result :=
  let? _ := verify_converged_invariants state current_closure converged_at in
  let from := hs_state state in
  let state := state <| hs_state := HostState.Converged |>
                     <| hs_converged_at := Some converged_at |>
                     <| hs_current_closure := Some current_closure |>
                     <| hs_last_event_seq := seq |> in
  Ok (state,
   [ Effect.LocalEmitEvent (hs_rollout_id state)
       (OutboundAgentEvent.Converged converged_at current_closure seq) true;
     Effect.RecordTransition (hs_hostname state) (hs_rollout_id state) from
       HostState.Converged converged_at ]).

Definition remote_converged (state : HostRolloutState) (converged_at : DateTime)
    (current_closure : ClosureHash) (seq : u64) : step_result :=
  let? _ := verify_converged_invariants state current_closure converged_at in
  let from := hs_state state in
  let state := state <| hs_state := HostState.Converged |>
                     <| hs_converged_at := Some converged_at |>
                     <| hs_current_closure := Some current_closure |>
                     <| hs_last_event_seq := seq |> in
  Ok (state,
   [ Effect.RemoteAppendEventLog (hs_hostname state) (hs_rollout_id state)
       (OutboundAgentEvent.Converged converged_at current_closure seq);
     Effect.RecordTransition (hs_hostname state) (hs_rollout_id state) from
       HostState.Converged converged_at ]).

Definition handle (state : HostRolloutState) (event : Event) (_now : DateTime)
    (_policy : RolloutPolicy) : step_result :=
  match event with
  | Event.LocalProbeTopologyDeclared probes declared_at seq =>
      Ok (local_probe_topology_declared state probes declared_at seq)
  | Event.RemoteProbeTopologyDeclared probes declared_at seq =>
      Ok (remote_probe_topology_declared state probes declared_at seq)
  | Event.LocalProbeObservedFirst name mode observed_at seq =>
      Ok (local_probe_observed_first state name mode observed_at seq)
  | Event.RemoteProbeObservedFirst name mode observed_at seq =>
      Ok (remote_probe_observed_first state name mode observed_at seq)
  | Event.LocalProbeResult name mode status observed_at reason subs seq =>
      Ok (local_probe_result state name mode status observed_at reason subs seq)
  | Event.RemoteProbeResult name mode status observed_at reason subs seq =>
      Ok (remote_probe_result state name mode status observed_at reason subs seq)
  | Event.LocalProbeFailureFirst name mode first_failed_at seq =>
      Ok (local_probe_failure_first state name mode first_failed_at seq)
  | Event.RemoteProbeFailureFirst name mode first_failed_at seq =>
      Ok (remote_probe_failure_first state name mode first_failed_at seq)
  | Event.LocalSustainedFailureCrossed failed_at secs failing policy_applied seq =>
      Ok (local_sustained_failure_crossed state failed_at secs failing policy_applied seq)
  | Event.RemoteFailed failed_at secs failing policy_applied seq =>
      Ok (remote_failed state failed_at secs failing policy_applied seq)
  | Event.LocalConvergedReached converged_at current_closure seq =>
      local_converged_reached state converged_at current_closure seq
  | Event.RemoteConverged converged_at current_closure seq =>
      remote_converged state converged_at current_closure seq
  | other => Err (illegal state other)
  end.

End soaking.

(** ** [Failed] ([transitions/failed.rs]) *)

Module failed.

Definition local_rollback_completed (state : HostRolloutState)
    (reverted_to_closure : ClosureHash) (exit_code : i32) (completed_at : DateTime) (seq : u64)
    : HostRolloutState * list Effect :=
  let from := hs_state state in
  let state := state <| hs_state := HostState.Reverted |>
                     <| hs_reverted_at := Some completed_at |>
                     <| hs_reverted_to := Some reverted_to_closure |>
                     <| hs_current_closure := Some reverted_to_closure |>
                     <| hs_last_event_seq := seq |> in
  (state,
   [ Effect.LocalEmitEvent (hs_rollout_id state)
       (OutboundAgentEvent.RollbackComplete reverted_to_closure exit_code completed_at seq) true;
     Effect.RecordTransition (hs_hostname state) (hs_rollout_id state) from
       HostState.Reverted completed_at ]).

Definition remote_rollback_complete (state : HostRolloutState)
    (reverted_to_closure : ClosureHash) (exit_code : i32) (completed_at : DateTime) (seq : u64)
    : HostRolloutState * list Effect :=
  let from := hs_state state in
  let bad_closure := hs_target_closure state in
  let channel := hs_channel state in
  let state := state <| hs_state := HostState.Reverted |>
                     <| hs_reverted_at := Some completed_at |>
                     <| hs_reverted_to := Some reverted_to_closure |>
                     <| hs_current_closure := Some reverted_to_closure |>
                     <| hs_last_event_seq := seq |> in
  (state,
   [ Effect.RemoteAppendEventLog (hs_hostname state) (hs_rollout_id state)
       (OutboundAgentEvent.RollbackComplete reverted_to_closure exit_code completed_at seq);
     Effect.RemoteInsertQuarantine channel bad_closure;
     Effect.RecordTransition (hs_hostname state) (hs_rollout_id state) from
       HostState.Reverted completed_at ]).

Definition handle (state : HostRolloutState) (event : Event) (_now : DateTime)
    (_policy : RolloutPolicy) : step_result :=
  match event with
  | Event.LocalRollbackCompleted reverted_to_closure exit_code completed_at seq =>
      Ok (local_rollback_completed state reverted_to_closure exit_code completed_at seq)
  | Event.RemoteRollbackComplete reverted_to_closure exit_code completed_at seq =>
      Ok (remote_rollback_complete state reverted_to_closure exit_code completed_at seq)
  | other => Err (illegal state other)
  end.

End failed.

(** ** [Converged] and [Reverted] *)

Module converged.
Definition handle (state : HostRolloutState) (event : Event) (_now : DateTime)
    (_policy : RolloutPolicy) : step_result := Err (illegal state event).
End converged.

Module reverted.
Definition handle (state : HostRolloutState) (event : Event) (_now : DateTime)
    (_policy : RolloutPolicy) : step_result := Err (illegal state event).
End reverted.

(** ** The dispatcher and the public reducer *)

Definition dispatch (state : HostRolloutState) (event : Event) (now : DateTime)
    (policy : RolloutPolicy) : step_result :=
  let got := Event.seq event in
  if Z.leb got (hs_last_event_seq state) then
    Err (TransitionError.SeqRegression got (hs_last_event_seq state)
           (hs_rollout_id state) (hs_hostname state))
  else
    match hs_state state with
    | HostState.Pending => pending.handle state event now policy
    | HostState.Activating => activating.handle state event now policy
    | HostState.Deferred => deferred.handle state event now policy
    | HostState.Soaking => soaking.handle state event now policy
    | HostState.Failed => failed.handle state event now policy
    | HostState.Converged => converged.handle state event now policy
    | HostState.Reverted => reverted.handle state event now policy
    end.

Definition step (state : HostRolloutState) (event : Event) (now : DateTime)
    (policy : RolloutPolicy) : step_result := dispatch state event now policy.

(** ** Effects after a snapshot is applied ([rehydration.rs]) *)

Definition rehydration_effects (state : HostRolloutState) : list Effect :=
  match hs_state state with
  | HostState.Pending => []
  | HostState.Activating
  | HostState.Deferred
  | HostState.Soaking
  | HostState.Converged
  | HostState.Failed
  | HostState.Reverted => [ Effect.LocalResetProbeCache (hs_rollout_id state) ]
  end.
