(* ===== verification/HostProps.v ===== *)
(** * The host state machine: what its transitions guarantee

    The specification of [HostTransitions.step] as a transition table, an
    invariant of reachable states, and the facts that hold along a run: the
    sequence numbers, the recorded transitions, the rollback and switch
    effects, and the events each side logs. *)

From S2P Require Import Prelude Proto HostTypes HostTransitions.

(** ** The specification *)

(** The legal moves: source state, event, target state. *)
Definition next_state (s : HostState) (e : Event) : option HostState :=
  match s, e with
  | HostState.Pending, (Event.LocalActivate _ _ _ _ _ | Event.RemoteDispatchAck _ _ _) =>
      Some HostState.Activating
  | HostState.Activating,
    (Event.LocalActivationStarted _ _ _ | Event.RemoteActivationStarted _ _ _) =>
      Some HostState.Activating
  | HostState.Activating,
    (Event.LocalActivationDeferred _ _ _ | Event.RemoteActivationDeferred _ _ _) =>
      Some HostState.Deferred
  | (HostState.Activating | HostState.Deferred),
    (Event.LocalActivationCompleted _ _ _ _ | Event.RemoteActivationCompleted _ _ _ _) =>
      Some HostState.Soaking
  | (HostState.Activating | HostState.Deferred),
    (Event.LocalActivationFailed _ _ _ _ | Event.RemoteActivationFailed _ _ _ _) =>
      Some HostState.Failed
  | HostState.Soaking,
    ( Event.LocalProbeTopologyDeclared _ _ _ | Event.RemoteProbeTopologyDeclared _ _ _
    | Event.LocalProbeObservedFirst _ _ _ _ | Event.RemoteProbeObservedFirst _ _ _ _
    | Event.LocalProbeResult _ _ _ _ _ _ _ | Event.RemoteProbeResult _ _ _ _ _ _ _
    | Event.LocalProbeFailureFirst _ _ _ _ | Event.RemoteProbeFailureFirst _ _ _ _) =>
      Some HostState.Soaking
  | HostState.Soaking,
    (Event.LocalSustainedFailureCrossed _ _ _ _ _ | Event.RemoteFailed _ _ _ _ _) =>
      Some HostState.Failed
  | HostState.Soaking, (Event.LocalConvergedReached _ _ _ | Event.RemoteConverged _ _ _) =>
      Some HostState.Converged
  | HostState.Failed, (Event.LocalRollbackCompleted _ _ _ _ | Event.RemoteRollbackComplete _ _ _ _) =>
      Some HostState.Reverted
  | _, _ => None
  end.

(** The three conditions a [Converged] event is re-checked against. *)
Definition converge_allowed (st : HostRolloutState) (current : ClosureHash) (at_ : DateTime) : Prop :=
  current = hs_target_closure st /\
  (forall due, hs_soak_due_at st = Some due -> (due <= at_)%Z) /\
  (forall name pr, hs_probes st !! name = Some pr ->
     pr_mode pr = ProbeMode.Enforce -> pr_status pr = ProbeStatus.Pass).

(** The closure and time a convergence event claims. *)
Definition convergence_claim (e : Event) : option (ClosureHash * DateTime) :=
  match e with
  | Event.LocalConvergedReached at_ current _ | Event.RemoteConverged at_ current _ =>
      Some (current, at_)
  | _ => None
  end.

Definition is_local (e : Event) : bool :=
  match e with
  | Event.LocalActivate _ _ _ _ _ | Event.LocalActivationStarted _ _ _
  | Event.LocalActivationCompleted _ _ _ _ | Event.LocalActivationDeferred _ _ _
  | Event.LocalActivationFailed _ _ _ _ | Event.LocalProbeTopologyDeclared _ _ _
  | Event.LocalProbeObservedFirst _ _ _ _ | Event.LocalProbeResult _ _ _ _ _ _ _
  | Event.LocalProbeFailureFirst _ _ _ _ | Event.LocalSustainedFailureCrossed _ _ _ _ _
  | Event.LocalRollbackCompleted _ _ _ _ | Event.LocalConvergedReached _ _ _ => true
  | _ => false
  end.

(** The log entry an event stands for, on either side. *)
Definition outbound_of (e : Event) : OutboundAgentEvent :=
  match e with
  | Event.LocalActivate c _ t _ s | Event.RemoteDispatchAck c t s =>
      OutboundAgentEvent.DispatchAck c t s
  | Event.LocalActivationStarted t m s | Event.RemoteActivationStarted t m s =>
      OutboundAgentEvent.ActivationStarted t m s
  | Event.LocalActivationCompleted c x t s | Event.RemoteActivationCompleted c x t s =>
      OutboundAgentEvent.ActivationCompleted c x t s
  | Event.LocalActivationDeferred c t s | Event.RemoteActivationDeferred c t s =>
      OutboundAgentEvent.ActivationDeferred c t s
  | Event.LocalActivationFailed x r t s | Event.RemoteActivationFailed x r t s =>
      OutboundAgentEvent.ActivationFailed x r t s
  | Event.LocalProbeTopologyDeclared p t s | Event.RemoteProbeTopologyDeclared p t s =>
      OutboundAgentEvent.ProbeTopologyDeclared p t s
  | Event.LocalProbeObservedFirst n m t s | Event.RemoteProbeObservedFirst n m t s =>
      OutboundAgentEvent.ProbeObservedFirst n m t s
  | Event.LocalProbeResult n m st t r b s | Event.RemoteProbeResult n m st t r b s =>
      OutboundAgentEvent.ProbeResult n m st t r b s
  | Event.LocalProbeFailureFirst n m t s | Event.RemoteProbeFailureFirst n m t s =>
      OutboundAgentEvent.ProbeFailureFirst n m t s
  | Event.LocalSustainedFailureCrossed t d p o s | Event.RemoteFailed t d p o s =>
      OutboundAgentEvent.Failed t d p o s
  | Event.LocalRollbackCompleted c x t s | Event.RemoteRollbackComplete c x t s =>
      OutboundAgentEvent.RollbackComplete c x t s
  | Event.LocalConvergedReached t c s | Event.RemoteConverged t c s =>
      OutboundAgentEvent.Converged t c s
  end.

(** The log entries, transitions, switches and rollbacks among effects. *)
Definition local_emits (effs : list Effect) : list OutboundAgentEvent :=
  omap (fun x => match x with Effect.LocalEmitEvent _ p _ => Some p | _ => None end) effs.
Definition remote_appends (effs : list Effect) : list OutboundAgentEvent :=
  omap (fun x => match x with Effect.RemoteAppendEventLog _ _ p => Some p | _ => None end) effs.
Definition transitions (effs : list Effect) : list (HostState * HostState) :=
  omap (fun x => match x with Effect.RecordTransition _ _ f t _ => Some (f, t) | _ => None end) effs.
Definition switches (effs : list Effect) : list ClosureHash :=
  omap (fun x => match x with Effect.LocalFireSwitch _ c => Some c | _ => None end) effs.
Definition rollbacks (effs : list Effect) : list ClosureHash :=
  omap (fun x => match x with Effect.LocalFireRollbackTo _ c => Some c | _ => None end) effs.
Definition quarantines (effs : list Effect) : list (string * ClosureHash) :=
  omap (fun x => match x with Effect.RemoteInsertQuarantine ch c => Some (ch, c) | _ => None end)
    effs.

Definition is_local_effect (x : Effect) : bool :=
  match x with
  | Effect.LocalFireSwitch _ _ | Effect.LocalFireRollbackTo _ _ | Effect.LocalResetProbeCache _
  | Effect.LocalEmitEvent _ _ _ => true
  | _ => false
  end.
Definition is_remote_effect (x : Effect) : bool :=
  match x with
  | Effect.RemoteQueueDispatch _ _ _ _ | Effect.RemoteInsertQuarantine _ _
  | Effect.RemoteOpenRolloutRecord _ _ _ | Effect.RemoteAppendEventLog _ _ _ => true
  | _ => false
  end.

(** A rollback leaves the agent only for these events. *)
Definition rollback_trigger (st : HostRolloutState) (e : Event) (policy : RolloutPolicy)
    : option ClosureHash :=
  match hs_state st, e with
  | HostState.Activating, Event.LocalActivationFailed _ _ _ _ =>
      match rp_on_health_failure policy with
      | OnHealthFailure.RollbackAndHalt => hs_current_closure_at_dispatch st
      | OnHealthFailure.Halt => None
      end
  | HostState.Soaking, Event.LocalSustainedFailureCrossed _ _ _ p _ =>
      match p with
      | OnHealthFailure.RollbackAndHalt => hs_current_closure_at_dispatch st
      | OnHealthFailure.Halt => None
      end
  | _, _ => None
  end.

(** ** Runs

    The runtimes drop an event that [step] refuses and keep the state.  [run]
    returns the final state and the effects of the accepted events, in order. *)

Record input := MkInput { in_event : Event; in_now : DateTime; in_policy : RolloutPolicy }.

Definition run_one (st : HostRolloutState) (i : input) : HostRolloutState * list Effect :=
  match step st (in_event i) (in_now i) (in_policy i) with
  | Ok r => r
  | Err _ => (st, [])
  end.

Fixpoint run (st : HostRolloutState) (ins : list input) : HostRolloutState * list Effect :=
  match ins with
  | [] => (st, [])
  | i :: ins =>
      let '(st1, effs1) := run_one st i in
      let '(st2, effs2) := run st1 ins in
      (st2, effs1 ++ effs2)
  end.

(** Every event of the list is accepted in turn. *)
Fixpoint accepted (st : HostRolloutState) (ins : list input) : bool :=
  match ins with
  | [] => true
  | i :: ins =>
      match step st (in_event i) (in_now i) (in_policy i) with
      | Ok (st', _) => accepted st' ins
      | Err _ => false
      end
  end.

(** A [Pending] record, a step's input, and a run used by the witnesses. *)
Definition sample_policy : RolloutPolicy :=
  MkRolloutPolicy "canary" [] (MkHealthGate None) OnHealthFailure.RollbackAndHalt.
Definition sample_pending : HostRolloutState :=
  new_pending (rollout_id.new "stable" "abc") "web-1" "stable" "/nix/store/new" 0 600.
Definition sample_inputs : list input :=
  (fun e => MkInput e 0%Z sample_policy) <$>
  [ Event.LocalActivate "/nix/store/old" "/nix/store/new" 1 600 1;
    Event.LocalActivationStarted 2 "switch" 2;
    Event.LocalActivationCompleted "/nix/store/new" 0 3 3;
    Event.LocalProbeResult "http" ProbeMode.Enforce ProbeStatus.Pass 4 None None 4;
    Event.LocalConvergedReached 700 "/nix/store/new" 5 ].
Definition sample_soaking : HostRolloutState :=
  Eval vm_compute in (run sample_pending (take 3 sample_inputs)).1.
Definition sample_deferral : list input :=
  (fun e => MkInput e 0%Z sample_policy) <$>
  [ Event.LocalActivate "/nix/store/old" "/nix/store/new" 1 600 1;
    Event.LocalActivationDeferred "dbus" 2 2 ].
Definition sample_deferred : HostRolloutState :=
  Eval vm_compute in (run sample_pending sample_deferral).1.

(** ** Case analysis on a step *)

Lemma verify_converged_spec st current at_ :
  verify_converged_invariants st current at_ = Ok tt <-> converge_allowed st current at_.
Proof.
  unfold verify_converged_invariants, converge_allowed.
  case_bool as [->|Hne]; simpl; [|by split; [|intros [? _]]].
  assert (Hsoak : match hs_soak_due_at st with Some d => Z.ltb at_ d | None => false end = false
            <-> forall due, hs_soak_due_at st = Some due -> (due <= at_)%Z).
  { destruct (hs_soak_due_at st) as [d|].
    - rewrite Z.ltb_ge. split; [by intros ? ? [= <-]|]. intros H. by apply H.
    - by split. }
  assert (Hprobes : existsb (fun p => probe_blocks_convergence p.2) (map_to_list (hs_probes st))
                    = false
            <-> forall name pr, hs_probes st !! name = Some pr ->
                  pr_mode pr = ProbeMode.Enforce -> pr_status pr = ProbeStatus.Pass).
  { rewrite <- not_true_iff_false, existsb_exists. split.
    - intros H name pr Hl Hm. destruct (decide (pr_status pr = ProbeStatus.Pass)); [done|].
      exfalso. apply H. exists (name, pr).
      rewrite <- list_elem_of_In, elem_of_map_to_list. split; [done|].
      unfold probe_blocks_convergence. simpl.
      by rewrite (bool_decide_eq_true_2 _ Hm), (bool_decide_eq_false_2 (pr_status pr = _)).
    - intros H ([name pr] & Hin & Hb). rewrite <- list_elem_of_In, elem_of_map_to_list in Hin.
      unfold probe_blocks_convergence in Hb. simpl in Hb.
      apply andb_true_iff in Hb as [Hm Hs]. apply bool_decide_eq_true in Hm.
      rewrite (bool_decide_eq_true_2 _ (H _ _ Hin Hm)) in Hs. done. }
  destruct (match hs_soak_due_at st with _ => _ end).
  { split; [done|]. intros (_ & H & _). by apply Hsoak in H. }
  destruct (existsb _ _).
  { split; [done|]. intros (_ & _ & H). by apply Hprobes in H. }
  split; [|done]. intros _. split_and!; [done|by apply Hsoak|by apply Hprobes].
Qed.

(** Splits a successful step into its source state and event; each remaining
    goal has the new state and the effects computed. *)
Ltac step_cases H :=
  match type of H with
  | step ?st ?e _ _ = Ok _ =>
      unfold step, dispatch in H;
      destruct (Z.leb_spec (Event.seq e) (hs_last_event_seq st)) as [|Hseq]; [discriminate H|];
      destruct (hs_state st) eqn:Hst; destruct e; simpl in H; try discriminate H;
      unfold soaking.local_converged_reached, soaking.remote_converged in H;
      try match type of H with
      | (match ?v with Ok _ => _ | Err _ => _ end) = _ =>
          destruct v as [[]|] eqn:Hverify; [apply verify_converged_spec in Hverify|discriminate H]
      end;
      injection H as <- <-
  end.

Lemma step_next_state st e now policy st' effs :
  step st e now policy = Ok (st', effs) -> next_state (hs_state st) e = Some (hs_state st').
Proof. intros H. step_cases H; simpl. all: rewrite ?Hst; try done.
all: repeat match goal with |- context [match ?x with _ => _ end] => destruct x end; simpl; by rewrite ?Hst.
Qed.

Ltac break_matches :=
  repeat match goal with
  | |- context [match ?x with _ => _ end] => destruct x eqn:?; simpl
  end.

(** ** One step *)

Lemma step_seq st e now policy st' effs :
  step st e now policy = Ok (st', effs) ->
  (hs_last_event_seq st < Event.seq e)%Z /\ hs_last_event_seq st' = Event.seq e.
Proof. intros H. split; step_cases H; simpl in *; done || lia. Qed.

Lemma step_converge_allowed st e now policy st' effs c at_ :
  step st e now policy = Ok (st', effs) -> convergence_claim e = Some (c, at_) ->
  converge_allowed st c at_ /\ hs_current_closure st' = Some c /\ hs_converged_at st' = Some at_.
Proof. intros H Hc. step_cases H; simpl in Hc; try discriminate Hc; by injection Hc as <- <-. Qed.

(** What no event of a rollout changes: who, which rollout, which closure, and
    the times fixed at dispatch. *)
Definition identity_of (st : HostRolloutState) :=
  (hs_rollout_id st, hs_hostname st, hs_channel st, hs_target_closure st,
   hs_dispatched_at st, hs_soak_due_at st).

Lemma step_identity st e now policy st' effs :
  step st e now policy = Ok (st', effs) -> identity_of st' = identity_of st.
Proof. intros H. unfold identity_of. step_cases H; simpl; by break_matches. Qed.

Lemma step_probes st e now policy st' effs :
  step st e now policy = Ok (st', effs) ->
  hs_state st <> HostState.Soaking ->
  hs_probes st' = if decide (hs_state st' = HostState.Soaking) then ∅ else hs_probes st.
Proof. intros H Hns. step_cases H; try done; simpl; by rewrite ?decide_False, ?decide_True by congruence. Qed.

Lemma step_logs st e now policy st' effs :
  step st e now policy = Ok (st', effs) ->
  local_emits effs = (if is_local e then [outbound_of e] else []) /\
  remote_appends effs = (if is_local e then [] else [outbound_of e]) /\
  forallb (fun x => negb (if is_local e then is_remote_effect x else is_local_effect x)) effs.
Proof. intros H. step_cases H; simpl; by break_matches. Qed.

Lemma step_transitions st e now policy st' effs :
  step st e now policy = Ok (st', effs) ->
  transitions effs = if decide (hs_state st' = hs_state st) then []
                     else [(hs_state st, hs_state st')].
Proof. intros H. step_cases H; simpl; rewrite ?Hst; break_matches; simpl in *; congruence. Qed.

Lemma step_rollbacks st e now policy st' effs :
  step st e now policy = Ok (st', effs) ->
  rollbacks effs = option_list (rollback_trigger st e policy).
Proof. intros H. unfold rollback_trigger. step_cases H; rewrite ?Hst; simpl; by break_matches. Qed.

Lemma step_switches st e now policy st' effs :
  step st e now policy = Ok (st', effs) ->
  switches effs = match e with Event.LocalActivate _ _ _ _ _ => [hs_target_closure st] | _ => [] end.
Proof. intros H. step_cases H; simpl; by break_matches. Qed.

Lemma step_quarantines st e now policy st' effs :
  step st e now policy = Ok (st', effs) ->
  quarantines effs = match e with
                     | Event.RemoteRollbackComplete _ _ _ _ =>
                         [(hs_channel st, hs_target_closure st)]
                     | _ => []
                     end.
Proof. intros H. step_cases H; simpl; by break_matches. Qed.

(** ** The invariant of reachable states *)

Definition before_soak (s : HostState) : bool :=
  match s with HostState.Pending | HostState.Activating | HostState.Deferred => true | _ => false end.
Definition failure_state (s : HostState) : bool :=
  match s with HostState.Failed | HostState.Reverted => true | _ => false end.

Definition probe_record_ok (pr : ProbeRecord) : Prop :=
  pr_status pr = ProbeStatus.Pass ->
  pr_last_pass_at pr = Some (pr_last_observed_at pr) /\ pr_failure_reason pr = None.

(** Each stamp is present exactly in the states that follow the event that
    writes it, and the two terminal states carry their evidence. *)
Record host_inv (st : HostRolloutState) : Prop := {
  inv_acked : is_Some (hs_dispatch_acked_at st) <-> hs_state st <> HostState.Pending;
  inv_prior : is_Some (hs_current_closure_at_dispatch st) <-> hs_state st <> HostState.Pending;
  inv_before_soak : before_soak (hs_state st) = true ->
    hs_activation_completed_at st = None /\ hs_current_closure st = None /\ hs_probes st = ∅ /\
    hs_probe_observed_first_at st = None /\ hs_probe_failure_first_at st = None;
  inv_soaked : hs_state st = HostState.Soaking \/ hs_state st = HostState.Converged ->
    is_Some (hs_activation_completed_at st) /\ is_Some (hs_current_closure st);
  inv_converged : is_Some (hs_converged_at st) <-> hs_state st = HostState.Converged;
  inv_converged_evidence : forall at_, hs_converged_at st = Some at_ ->
    hs_current_closure st = Some (hs_target_closure st) /\
    converge_allowed st (hs_target_closure st) at_;
  inv_failed : is_Some (hs_failed_at st) <-> failure_state (hs_state st) = true;
  inv_failure_stamps : failure_state (hs_state st) = false ->
    hs_policy_applied st = None /\ hs_activation_failed_at st = None;
  inv_activation_outcome : is_Some (hs_activation_failed_at st) ->
    hs_activation_completed_at st = None;
  inv_reverted : is_Some (hs_reverted_at st) <-> hs_state st = HostState.Reverted;
  inv_reverted_to : is_Some (hs_reverted_to st) <-> hs_state st = HostState.Reverted;
  inv_reverted_current : hs_state st = HostState.Reverted ->
    hs_current_closure st = hs_reverted_to st;
  inv_probes : map_Forall (fun _ => probe_record_ok) (hs_probes st);
}.

Lemma host_inv_new_pending rid host ch target dispatched soak :
  host_inv (new_pending rid host ch target dispatched soak).
Proof.
  split; simpl; try done; try (split; [by intros [] | done]); try (split; [by intros []|by intros []]).
  all: by intros [|].
Qed.

(** Turns each [is_Some x <-> P], with [P] decided by the state, into what [x] is. *)
Ltac settle_stamps :=
  repeat match goal with
  | H : is_Some ?x <-> ?P |- _ =>
      first [ let E := fresh in assert (E : P) by done; apply H in E; clear H
            | let E := fresh in
              assert (E : x = None) by
                (apply eq_None_not_Some; let G := fresh in intros G%H; discriminate || by destruct G);
              clear H ]
  | H : ?a = ?a -> _ |- _ => specialize (H eq_refl)
  end.

Lemma host_inv_step st e now policy st' effs :
  host_inv st -> step st e now policy = Ok (st', effs) -> host_inv st'.
Proof.
  intros [] H. step_cases H; simpl in *; settle_stamps; destruct_and?; simpl in *; split; simpl.
  all: rewrite ?Hst; simpl; try done.
  all: break_matches; simpl; rewrite ?Hst; simpl; try done.
  all: try (by apply map_Forall_empty).
  all: try (split; [intros []; congruence | congruence]); try (intros []; congruence);
    try (intros; congruence).
  all: try (by apply map_Forall_insert_2).
  all: try (intros _; split; [|done];
    by match goal with H : _ \/ _ -> _ |- _ => destruct (H (or_introl eq_refl)) end).
  all: intros ? [= <-]; destruct Hverify as (-> & ? & ?); by split_and!.
Qed.

(** ** Runs *)

Lemma run_app st ins1 ins2 :
  run st (ins1 ++ ins2) =
  ((run (run st ins1).1 ins2).1, (run st ins1).2 ++ (run (run st ins1).1 ins2).2).
Proof.
  revert st. induction ins1 as [|i ins1 IH]; intros st; simpl.
  - by destruct (run st ins2).
  - destruct (run_one st i) as [st1 effs1]. rewrite IH.
    destruct (run st1 ins1) as [st2 effs2]. simpl.
    destruct (run st2 ins2) as [st3 effs3]. simpl. by rewrite app_assoc.
Qed.

(** Induction over the accepted steps of a run. *)
Lemma run_ind (P : HostRolloutState -> list Effect -> Prop) st0 ins :
  P st0 [] ->
  (forall st effs e now policy st' effs',
     P st effs -> step st e now policy = Ok (st', effs') -> P st' (effs ++ effs')) ->
  P (run st0 ins).1 (run st0 ins).2.
Proof.
  intros H0 Hstep. induction ins as [|i ins IH] using rev_ind; [done|].
  rewrite run_app. simpl. unfold run_one.
  destruct (step _ _ _ _) as [[st' effs']|] eqn:E; simpl.
  - rewrite app_nil_r. by eapply Hstep.
  - by rewrite !app_nil_r.
Qed.

Lemma run_inv st0 ins : host_inv st0 -> host_inv (run st0 ins).1.
Proof.
  intros H0. apply (run_ind (fun st _ => host_inv st)); [done|].
  intros. by eapply host_inv_step.
Qed.

Lemma run_identity st0 ins : identity_of (run st0 ins).1 = identity_of st0.
Proof.
  apply (run_ind (fun st _ => identity_of st = identity_of st0)); [done|].
  intros. erewrite step_identity; eauto.
Qed.

Lemma run_seq st0 ins : (hs_last_event_seq st0 <= hs_last_event_seq (run st0 ins).1)%Z.
Proof.
  apply (run_ind (fun st _ => hs_last_event_seq st0 <= hs_last_event_seq st)%Z); [lia|].
  intros ?????? ? ? [??]%step_seq. lia.
Qed.

#[export] Hint Resolve host_inv_new_pending run_inv : nixfleet.

(** A refused event has no effect of its own on later ones. *)
Lemma step_regression st e now policy :
  (Event.seq e <= hs_last_event_seq st)%Z ->
  step st e now policy =
    Err (TransitionError.SeqRegression (Event.seq e) (hs_last_event_seq st)
           (hs_rollout_id st) (hs_hostname st)).
Proof. intros H. unfold step, dispatch. by rewrite (proj2 (Z.leb_le _ _) H). Qed.

Lemma run_regression st ins :
  Forall (fun i => (Event.seq (in_event i) <= hs_last_event_seq st)%Z) ins -> run st ins = (st, []).
Proof.
  induction 1 as [|i ins Hi _ IH]; simpl; [done|].
  unfold run_one. rewrite step_regression by done. by rewrite IH.
Qed.

Lemma accepted_seqs st ins :
  accepted st ins = true ->
  Forall (fun i => (Event.seq (in_event i) <= hs_last_event_seq (run st ins).1)%Z) ins.
Proof.
  revert st. induction ins as [|i ins IH]; intros st; simpl; [done|].
  unfold run_one. destruct (step _ _ _ _) as [[st' effs]|] eqn:E; [|done]. intros Hacc.
  pose proof (IH _ Hacc) as HF. pose proof (run_seq st' ins) as Hle.
  destruct (run st' ins) as [st2 effs2]. simpl in *.
  constructor; [|done]. apply step_seq in E as [? ?]. lia.
Qed.

(** ** Ranks: the graph is acyclic *)

Definition rank (s : HostState) : nat :=
  match s with
  | HostState.Pending => 0
  | HostState.Activating => 1
  | HostState.Deferred => 2
  | HostState.Soaking => 3
  | HostState.Failed | HostState.Converged => 4
  | HostState.Reverted => 5
  end.

Lemma next_state_rank s e s' : next_state s e = Some s' -> s' = s \/ rank s < rank s'.
Proof. destruct s, e; simpl; intros [= <-]; first [by left | right; simpl; lia]. Qed.

(** [path s l s']: [l] is a sequence of moves of the table from [s] to [s']. *)
Fixpoint path (s : HostState) (l : list (HostState * HostState)) (s' : HostState) : Prop :=
  match l with
  | [] => s = s'
  | (a, b) :: l => s = a /\ a <> b /\ (exists e, next_state a e = Some b) /\ path b l s'
  end.

Lemma path_snoc s l a b :
  path s l a -> a <> b -> (exists e, next_state a e = Some b) -> path s (l ++ [(a, b)]) b.
Proof.
  revert s. induction l as [|[c d] l IH]; intros s; simpl.
  - intros -> ? ?. by split_and!.
  - intros (-> & ? & ? & ?) ? ?. split_and!; auto.
Qed.

Lemma path_length s l s' : path s l s' -> length l + rank s <= rank s'.
Proof.
  revert s. induction l as [|[a b] l IH]; intros s; simpl; [intros ->; lia|].
  intros (-> & Hne & (e & He) & Hp). apply IH in Hp.
  apply next_state_rank in He as [->|?]; [done|lia].
Qed.

Lemma run_path st0 ins : path (hs_state st0) (transitions (run st0 ins).2) (hs_state (run st0 ins).1).
Proof.
  apply (run_ind (fun st effs => path (hs_state st0) (transitions effs) (hs_state st))); [done|].
  intros st effs e now policy st' effs' IH H. unfold transitions in *.
  rewrite omap_app. pose proof (step_transitions _ _ _ _ _ _ H) as Ht.
  unfold transitions in Ht. rewrite Ht.
  case_decide as Hd; [rewrite app_nil_r, Hd; done|].
  apply path_snoc; [done|congruence|]. exists e. by eapply step_next_state.
Qed.

(** ** Switches and rollbacks along a run *)

(** What a run has asked the agent to execute so far. *)
Definition executed_ok (st : HostRolloutState) (effs : list Effect) : Prop :=
  (rollbacks effs = [] \/
   failure_state (hs_state st) = true /\
   hs_policy_applied st = Some OnHealthFailure.RollbackAndHalt /\
   exists c, rollbacks effs = [c] /\ hs_current_closure_at_dispatch st = Some c) /\
  (switches effs = [] \/
   hs_state st <> HostState.Pending /\ switches effs = [hs_target_closure st]) /\
  (quarantines effs = [] \/
   hs_state st = HostState.Reverted /\
   quarantines effs = [(hs_channel st, hs_target_closure st)]).

Lemma step_no_trigger st e now policy st' effs :
  step st e now policy = Ok (st', effs) ->
  failure_state (hs_state st) = true ->
  failure_state (hs_state st') = true /\ rollback_trigger st e policy = None /\
  hs_policy_applied st' = hs_policy_applied st /\
  hs_current_closure_at_dispatch st' = hs_current_closure_at_dispatch st.
Proof. intros H Hf. unfold rollback_trigger. step_cases H; simpl in Hf; try done; by rewrite Hst. Qed.

Lemma step_rollback_ids st e now policy st' effs :
  step st e now policy = Ok (st', effs) ->
  Forall (fun x => match x with
                   | Effect.LocalFireRollbackTo rid _ => rid = hs_rollout_id st
                   | _ => True
                   end) effs.
Proof. intros H. step_cases H; simpl; break_matches; by repeat constructor. Qed.

Lemma rollback_trigger_spec st e policy c :
  rollback_trigger st e policy = Some c <->
  hs_current_closure_at_dispatch st = Some c /\
  ((hs_state st = HostState.Activating /\
    rp_on_health_failure policy = OnHealthFailure.RollbackAndHalt /\
    exists x t f s, e = Event.LocalActivationFailed x t f s) \/
   (hs_state st = HostState.Soaking /\
    exists f d p s, e = Event.LocalSustainedFailureCrossed f d p OnHealthFailure.RollbackAndHalt s)).
Proof.
  unfold rollback_trigger. split.
  - destruct (hs_state st), e; try discriminate;
      [destruct (rp_on_health_failure policy) | destruct policy_applied]; try discriminate;
      eauto 12.
  - by intros [Hc [(-> & -> & x & t & f & s & ->) | (-> & f & d & p & s & ->)]].
Qed.

Lemma step_trigger st e now policy st' effs c :
  step st e now policy = Ok (st', effs) ->
  rollback_trigger st e policy = Some c ->
  failure_state (hs_state st') = true /\
  hs_policy_applied st' = Some OnHealthFailure.RollbackAndHalt /\
  hs_current_closure_at_dispatch st' = Some c.
Proof.
  intros H Ht. unfold rollback_trigger in Ht. step_cases H; simpl in Ht; try done.
  - simpl. destruct (rp_on_health_failure policy); done.
  - simpl. by destruct policy_applied.
Qed.

Lemma step_executed st e now policy st' effs effs' :
  executed_ok st effs -> step st e now policy = Ok (st', effs') -> executed_ok st' (effs ++ effs').
Proof.
  intros (Hr & Hs & Hq) H.
  pose proof (step_rollbacks _ _ _ _ _ _ H) as Er. pose proof (step_switches _ _ _ _ _ _ H) as Es.
  pose proof (step_quarantines _ _ _ _ _ _ H) as Eq. pose proof (step_identity _ _ _ _ _ _ H) as Eid.
  pose proof (step_next_state _ _ _ _ _ _ H) as En.
  unfold executed_ok, rollbacks, switches, quarantines in *. rewrite !omap_app, Er, Es, Eq.
  unfold identity_of in Eid. injection Eid as Erid Ehost Ech Etgt Edisp Esoak.
  split_and!.
  - destruct Hr as [Hr | (Hf & Hp & c & Hr & Hc)]; rewrite Hr.
    + destruct (rollback_trigger st e policy) as [c|] eqn:Ht; [right|by left].
      destruct (step_trigger _ _ _ _ _ _ _ H Ht) as (? & ? & ?). simpl. eauto.
    + destruct (step_no_trigger _ _ _ _ _ _ H Hf) as (? & -> & -> & ->). right. simpl. eauto.
  - destruct Hs as [Hs | [Hs1 Hs2]]; rewrite ?Hs, ?Hs2, Etgt.
    + destruct e; simpl; try (by left). right.
      by destruct (hs_state st); simpl in En; try discriminate En; injection En as <-.
    + right. destruct (hs_state st), e; simpl in En; try discriminate En; injection En as <-;
        try done; by rewrite ?app_nil_r.
  - destruct Hq as [Hq | [Hq1 Hq2]]; rewrite ?Hq, ?Hq2, ?Etgt, ?Ech.
    + destruct e; simpl; try (by left). right.
      by destruct (hs_state st); simpl in En; try discriminate En; injection En as <-.
    + by rewrite Hq1 in En.
Qed.

(** ** Properties *)

(** C13.  The reducer, on every state and event.  An accepted event has a
    sequence number above the last one, which becomes the last one, moves the
    host along the transition table, and, when it claims convergence, meets the
    three conditions.  [SeqRegression] is returned exactly for a stale
    sequence number, [IllegalForState] exactly for a fresh event the table does
    not allow, and [Invariant] only for a fresh convergence claim in [Soaking]
    whose conditions fail; the errors report the state they were raised in. *)
Theorem step_outcome (st : HostRolloutState) (e : Event) (now : DateTime) (policy : RolloutPolicy) :
  match step st e now policy with
  | Ok (st', _) =>
      (hs_last_event_seq st < Event.seq e)%Z /\ hs_last_event_seq st' = Event.seq e /\
      next_state (hs_state st) e = Some (hs_state st') /\
      (forall c at_, convergence_claim e = Some (c, at_) -> converge_allowed st c at_)
  | Err (TransitionError.SeqRegression got last rid host) =>
      (got <= last)%Z /\ got = Event.seq e /\ last = hs_last_event_seq st /\
      rid = hs_rollout_id st /\ host = hs_hostname st
  | Err (TransitionError.IllegalForState from ev rid host) =>
      (hs_last_event_seq st < Event.seq e)%Z /\ next_state (hs_state st) e = None /\
      from = hs_state st /\ ev = event_name e /\ rid = hs_rollout_id st /\ host = hs_hostname st
  | Err (TransitionError.Invariant _) =>
      (hs_last_event_seq st < Event.seq e)%Z /\ hs_state st = HostState.Soaking /\
      exists c at_, convergence_claim e = Some (c, at_) /\ ~ converge_allowed st c at_
  | Err (TransitionError.Unimplemented _ _) => False
  end.
Proof.
  destruct (step st e now policy) as [[st' effs]|err] eqn:E.
  - destruct (step_seq _ _ _ _ _ _ E). split_and!; [done..| |].
    + by eapply step_next_state.
    + intros c at_ Hc. by destruct (step_converge_allowed _ _ _ _ _ _ _ _ E Hc).
  - unfold step, dispatch in E.
    destruct (Z.leb_spec (Event.seq e) (hs_last_event_seq st)); [by injection E as <-|].
    destruct (hs_state st) eqn:Hst, e; simpl in E; try discriminate E;
      unfold soaking.local_converged_reached, soaking.remote_converged in E;
      first [ injection E as <-; unfold illegal; rewrite Hst; done | idtac ].
    all: match type of E with (match ?v with _ => _ end) = _ => destruct v as [|err'] eqn:Hv end;
      [discriminate E|].
    all: injection E as <-;
      match type of Hv with verify_converged_invariants _ ?c ?a = _ =>
        assert (~ converge_allowed st c a) by (rewrite <- verify_converged_spec, Hv; done) end.
    all: unfold verify_converged_invariants in Hv; repeat case_match; simplify_eq; eauto 8.
Qed.

(** Every state a host record reaches from dispatch, whatever events
    arrive in whatever order, satisfies [host_inv] (stamps match the state,
    pass records carry their pass time, a reverted host runs the closure it
    reverted to), and its rollout, host, channel, target, dispatch time and
    soak deadline are those of the dispatch. *)
Theorem reachable_host_inv (rid : RolloutId) (host ch : string) (target : ClosureHash)
    (dispatched soak : DateTime) (ins : list input) :
  let st := (run (new_pending rid host ch target dispatched soak) ins).1 in
  host_inv st /\
  identity_of st = (rid, host, ch, target, dispatched, Some soak).
Proof. split; [auto with nixfleet | apply run_identity]. Qed.

(** C10.  A host counts as converged only on evidence: it runs the target
    closure, it converged at or after the soak deadline fixed at dispatch, and
    every enforce-mode probe recorded since activation passes. *)
Theorem converged_only_on_evidence (rid : RolloutId) (host ch : string) (target : ClosureHash)
    (dispatched soak : DateTime) (ins : list input) :
  let st := (run (new_pending rid host ch target dispatched soak) ins).1 in
  hs_state st = HostState.Converged ->
  hs_current_closure st = Some target /\ is_Some (hs_activation_completed_at st) /\
  hs_failed_at st = None /\
  exists at_, hs_converged_at st = Some at_ /\ (soak <= at_)%Z /\
    forall name pr, hs_probes st !! name = Some pr -> pr_mode pr = ProbeMode.Enforce ->
      pr_status pr = ProbeStatus.Pass /\ pr_last_pass_at pr = Some (pr_last_observed_at pr).
Proof.
  intros st Hc.
  assert (Hinv : host_inv st) by (unfold st; auto with nixfleet).
  assert (Hid : identity_of st = (rid, host, ch, target, dispatched, Some soak))
    by apply run_identity.
  unfold identity_of in Hid. injection Hid as _ _ _ Htgt _ Hsoak.
  destruct (proj2 (inv_converged _ Hinv) Hc) as [at_ Hat].
  destruct (inv_converged_evidence _ Hinv _ Hat) as [Hcur (_ & Hdue & Hprobes)].
  split_and!; [by rewrite Hcur, Htgt | by apply inv_soaked; auto | |].
  - apply eq_None_not_Some. intros G%(inv_failed _ Hinv). by rewrite Hc in G.
  - exists at_. split_and!; [done | by apply Hdue |].
    intros name pr Hl Hm. pose proof (Hprobes _ _ Hl Hm) as Hpass. split; [done|].
    by apply (inv_probes _ Hinv _ _ Hl).
Qed.

Lemma converged_only_on_evidence_witness :
  let st := (run sample_pending sample_inputs).1 in
  hs_state st = HostState.Converged /\ hs_current_closure st = Some "/nix/store/new".
Proof.
  assert (H : hs_state (run sample_pending sample_inputs).1 = HostState.Converged)
    by reflexivity.
  split; [exact H|].
  exact (proj1 (converged_only_on_evidence (rollout_id.new "stable" "abc") "web-1" "stable"
    "/nix/store/new" 0 600 sample_inputs H)).
Defined.

(** The recorded transitions are a faithful history: along any run they
    form, in order, a path of the transition table from the initial state to
    the current one, with no step recorded twice; there are at most five of
    them from dispatch, whatever events arrive; and [Converged] and [Reverted]
    refuse every event. *)
Theorem recorded_transitions_path (st0 : HostRolloutState) (ins : list input) :
  let r := run st0 ins in
  path (hs_state st0) (transitions r.2) (hs_state r.1) /\
  length (transitions r.2) <= 5 /\
  (hs_state st0 = HostState.Converged \/ hs_state st0 = HostState.Reverted -> r = (st0, [])).
Proof.
  intros r. pose proof (run_path st0 ins) as Hp. split_and!; [done| |].
  - apply path_length in Hp. subst r. destruct (hs_state (run st0 ins).1); simpl in Hp; lia.
  - intros Hterm. subst r.
    induction ins as [|i ins IH]; simpl; [done|].
    assert (Hone : run_one st0 i = (st0, [])).
    { unfold run_one. destruct (step _ _ _ _) as [[st' effs]|] eqn:E; [|done].
      apply step_next_state in E. by destruct Hterm as [Ht | Ht]; rewrite Ht in E; destruct (in_event i). }
    rewrite Hone, IH; [done|apply run_path].
Qed.

(** Retransmission is harmless: once a list of events has been accepted,
    feeding any of them again, in any order and any number of times, leaves the
    state as it is and produces no effect. *)
Theorem accepted_replay_is_noop (st : HostRolloutState) (ins again : list input) :
  accepted st ins = true -> again ⊆ ins -> run (run st ins).1 again = ((run st ins).1, []).
Proof.
  intros Hacc Hsub. apply run_regression, Forall_forall. intros i Hi.
  pose proof (accepted_seqs _ _ Hacc) as HF. rewrite Forall_forall in HF. by apply HF, Hsub.
Qed.

Lemma accepted_replay_is_noop_witness :
  run (run sample_pending sample_inputs).1 (reverse sample_inputs)
  = ((run sample_pending sample_inputs).1, []).
Proof.
  apply (accepted_replay_is_noop sample_pending sample_inputs (reverse sample_inputs)); [vm_compute; reflexivity|].
  intros x Hx. by apply elem_of_reverse in Hx.
Defined.

(** Each accepted event is logged exactly once, as itself and on its own
    side: a [Local] event is emitted once and yields no control-plane effect, a
    [Remote] event is appended once and yields no agent effect. *)
Theorem step_logs_once (st : HostRolloutState) (e : Event) (now : DateTime)
    (policy : RolloutPolicy) (st' : HostRolloutState) (effs : list Effect) :
  step st e now policy = Ok (st', effs) ->
  local_emits effs = (if is_local e then [outbound_of e] else []) /\
  remote_appends effs = (if is_local e then [] else [outbound_of e]) /\
  forall x, x ∈ effs -> (is_local e = true -> is_remote_effect x = false) /\
                        (is_local e = false -> is_local_effect x = false).
Proof.
  intros H. destruct (step_logs _ _ _ _ _ _ H) as (H1 & H2 & H3). split_and!; [done..|].
  intros x Hx%list_elem_of_In. apply Is_true_true in H3.
  rewrite forallb_forall in H3. specialize (H3 x Hx).
  by destruct (is_local e); apply negb_true_iff in H3.
Qed.

Lemma step_logs_once_witness :
  local_emits (pending.local_activate sample_pending "/nix/store/old" 1 1).2
  = [OutboundAgentEvent.DispatchAck "/nix/store/old" 1 1].
Proof.
  exact (proj1 (step_logs_once sample_pending
    (Event.LocalActivate "/nix/store/old" "/nix/store/new" 1 600 1) 0 sample_policy _ _ eq_refl)).
Defined.

(** C11.  What a host executes for a rollout, in any run of the host machine from a
    fresh record, whatever the events (the snapshots of the heartbeat, which replace
    a record, are not events of the machine; see [AgentSpecs]): at most one switch, to the target; at most one rollback, to the closure recorded at
    dispatch, only when the host failed under the rollback-and-halt policy;
    and at most one quarantine of the target on its channel, only once the host
    has reverted. *)
Theorem rollback_and_switch_at_most_once (rid : RolloutId) (host ch : string)
    (target : ClosureHash) (dispatched soak : DateTime) (ins : list input) :
  let r := run (new_pending rid host ch target dispatched soak) ins in
  (switches r.2 = [] \/ switches r.2 = [target]) /\
  (rollbacks r.2 = [] \/
   failure_state (hs_state r.1) = true /\
   hs_policy_applied r.1 = Some OnHealthFailure.RollbackAndHalt /\
   exists prior, rollbacks r.2 = [prior] /\ hs_current_closure_at_dispatch r.1 = Some prior) /\
  (quarantines r.2 = [] \/
   hs_state r.1 = HostState.Reverted /\ quarantines r.2 = [(ch, target)]).
Proof.
  intros r. assert (Hx : executed_ok r.1 r.2).
  { apply (run_ind executed_ok); [by split_and!; left|]. intros. by eapply step_executed. }
  pose proof (run_identity (new_pending rid host ch target dispatched soak) ins) as Hid.
  unfold identity_of in Hid. injection Hid as _ _ Hch Htgt _ _. fold r in Hch, Htgt.
  destruct Hx as (Hr & Hs & Hq). rewrite Htgt in Hs, Hq. rewrite Hch in Hq.
  split_and!; [|done..]. destruct Hs as [?|[_ ?]]; auto.
Qed.

(** The rollback decision of one step: the agent is told to roll back
    exactly when activation fails from [Activating] under the rollback-and-halt
    policy, or sustained probe failure crosses in [Soaking] with that policy in
    the event, and a prior closure is recorded; it is that closure. *)
Theorem rollback_iff_trigger (st : HostRolloutState) (e : Event) (now : DateTime)
    (policy : RolloutPolicy) (st' : HostRolloutState) (effs : list Effect) (c : ClosureHash) :
  step st e now policy = Ok (st', effs) ->
  (Effect.LocalFireRollbackTo (hs_rollout_id st) c ∈ effs <->
   hs_current_closure_at_dispatch st = Some c /\
   ((hs_state st = HostState.Activating /\
     rp_on_health_failure policy = OnHealthFailure.RollbackAndHalt /\
     exists x t f s, e = Event.LocalActivationFailed x t f s) \/
    (hs_state st = HostState.Soaking /\
     exists f d p s, e = Event.LocalSustainedFailureCrossed f d p OnHealthFailure.RollbackAndHalt s))).
Proof.
  intros H.
  pose proof (step_rollback_ids _ _ _ _ _ _ H) as Hrid. rewrite Forall_forall in Hrid.
  assert (Hin : Effect.LocalFireRollbackTo (hs_rollout_id st) c ∈ effs <-> c ∈ rollbacks effs).
  { unfold rollbacks. rewrite list_elem_of_omap. split; [by eauto|].
    intros (x & Hx & Ex). destruct x; try discriminate Ex. injection Ex as ->.
    by rewrite <- (Hrid _ Hx). }
  rewrite Hin, (step_rollbacks _ _ _ _ _ _ H), <- rollback_trigger_spec.
  destruct (rollback_trigger st e policy); simpl.
  - rewrite list_elem_of_singleton. by split; [intros -> | intros [= ->]].
  - rewrite elem_of_nil. done.
Qed.

Lemma rollback_iff_trigger_witness :
  Effect.LocalFireRollbackTo (rollout_id.new "stable" "abc") "/nix/store/old" ∈
  (soaking.local_sustained_failure_crossed sample_soaking
     300 130 ["http"] OnHealthFailure.RollbackAndHalt 4).2.
Proof.
  apply (rollback_iff_trigger sample_soaking
    (Event.LocalSustainedFailureCrossed 300 130 ["http"] OnHealthFailure.RollbackAndHalt 4) 0
    sample_policy _ _ "/nix/store/old" eq_refl).
  split; [reflexivity|]. right. split; [reflexivity|]. repeat eexists.
Defined.

(** A failed activation reached through a deferral is not treated as one
    reached directly: the host fails without the policy being recorded and
    without a rollback, even under rollback-and-halt, and no later event can
    make the host roll back. *)
Theorem deferred_failure_never_rolls_back (st : HostRolloutState) (exit_code : i32) (tail : string)
    (failed_at : DateTime) (seq : u64) (now : DateTime) (policy : RolloutPolicy)
    (st' : HostRolloutState) (effs : list Effect) (later : list input) :
  host_inv st -> hs_state st = HostState.Deferred ->
  step st (Event.LocalActivationFailed exit_code tail failed_at seq) now policy = Ok (st', effs) ->
  hs_state st' = HostState.Failed /\ hs_policy_applied st' = None /\
  rollbacks (effs ++ (run st' later).2) = [].
Proof.
  intros Hinv Hd H.
  assert (Hp : hs_policy_applied st = None).
  { apply (inv_failure_stamps _ Hinv). by rewrite Hd. }
  pose proof (step_rollbacks _ _ _ _ _ _ H) as Hr.
  unfold rollback_trigger in Hr. rewrite Hd in Hr. simpl in Hr.
  assert (Hst' : hs_state st' = HostState.Failed /\ hs_policy_applied st' = None).
  { unfold step, dispatch in H. rewrite Hd in H. simpl in H.
    case_match; [done|]. by injection H as <- <-. }
  destruct Hst' as [Hf Hpol]. split_and!; [done..|].
  unfold rollbacks in *. rewrite omap_app, Hr.
  destruct (run_ind (fun s x => failure_state (hs_state s) = true /\ rollbacks x = []) st' later)
    as [_ ?]; [by rewrite Hf| |done].
  intros s x e n p s' x' [Hs Hx] E. destruct (step_no_trigger _ _ _ _ _ _ E Hs) as (? & Ht & _).
  split; [done|]. unfold rollbacks in *. rewrite omap_app, Hx.
  pose proof (step_rollbacks _ _ _ _ _ _ E) as Er. unfold rollbacks in Er. by rewrite Er, Ht.
Qed.

Lemma deferred_failure_never_rolls_back_witness :
  rollbacks ((deferred.local_activation_failed sample_deferred 1 "boom" 9 3).2
             ++ (run (deferred.local_activation_failed sample_deferred 1 "boom" 9 3).1 []).2) = [].
Proof.
  apply (deferred_failure_never_rolls_back sample_deferred 1 "boom" 9 3 0 sample_policy _ _ []);
    [|reflexivity|reflexivity].
  assert (E : (run sample_pending sample_deferral).1 = sample_deferred) by (vm_compute; reflexivity).
  rewrite <- E. apply run_inv, host_inv_new_pending.
Defined.

(** A probe result updates that probe's record and nothing else the
    convergence check reads: the probe gets the reported status, mode and time;
    a pass sets its pass time and clears its reason, a failure keeps the last
    pass time and stores the given reason; the other probes are untouched; and
    entering [Soaking] empties the map, so no result from before activation is
    counted. *)
Theorem probe_map_updates (st : HostRolloutState) (e : Event) (now : DateTime)
    (policy : RolloutPolicy) (st' : HostRolloutState) (effs : list Effect) (name : string) :
  step st e now policy = Ok (st', effs) ->
  (hs_state st <> HostState.Soaking -> hs_state st' = HostState.Soaking -> hs_probes st' = ∅) /\
  hs_probes st' !! name =
    match e with
    | Event.LocalProbeResult n mode status at_ reason _ _
    | Event.RemoteProbeResult n mode status at_ reason _ _ =>
        if decide (n = name) then
          Some (MkProbeRecord status mode at_
            (match status with
             | ProbeStatus.Pass => Some at_
             | ProbeStatus.Fail => hs_probes st !! name ≫= pr_last_pass_at
             end)
            (match status with ProbeStatus.Pass => None | ProbeStatus.Fail => reason end))
        else hs_probes st !! name
    | Event.LocalActivationCompleted _ _ _ _ | Event.RemoteActivationCompleted _ _ _ _ => None
    | _ => hs_probes st !! name
    end.
Proof.
  intros H. split.
  - intros Hns Hs. rewrite (step_probes _ _ _ _ _ _ H Hns). by rewrite decide_True.
  - step_cases H; simpl; try done; break_matches; simpl; try done.
    all: case_decide; subst; rewrite ?lookup_insert_eq, ?lookup_insert_ne by done; try done.
    all: by destruct (hs_probes st !! name).
Qed.

Lemma probe_map_updates_witness :
  hs_probes (soaking.local_probe_result sample_soaking
               "http" ProbeMode.Enforce ProbeStatus.Fail 9 (Some "503") None 4).1 !! "http"
  = Some (MkProbeRecord ProbeStatus.Fail ProbeMode.Enforce 9 None (Some "503")).
Proof.
  exact (proj2 (probe_map_updates sample_soaking
    (Event.LocalProbeResult "http" ProbeMode.Enforce ProbeStatus.Fail 9 (Some "503") None 4) 0
    sample_policy _ _ "http" eq_refl)).
Defined.
