(* ===== verification/Wire.v ===== *)
(** * The wire conversions, and the control plane as a mirror of the agent

    Models [crates/nixfleet-state-machine/src/wire_conversions.rs] and proves
    the claim the crate is built on: the control plane, which runs the same
    reducer on the events the agent emits, reaches the agent's state. *)

From S2P Require Import Prelude Proto HostTypes HostTransitions HostProps.

(** ** Conversions *)

Definition ProbeStatus_from_wire (w : ProbeStatusWire.t) : ProbeStatus :=
  match w with
  | ProbeStatusWire.Pass => ProbeStatus.Pass
  | ProbeStatusWire.Fail => ProbeStatus.Fail
  end.

Definition ProbeStatusWire_from (s : ProbeStatus) : ProbeStatusWire.t :=
  match s with
  | ProbeStatus.Pass => ProbeStatusWire.Pass
  | ProbeStatus.Fail => ProbeStatusWire.Fail
  end.

Definition ProbeMode_from_wire (w : ProbeModeWire.t) : ProbeMode :=
  match w with
  | ProbeModeWire.Enforce => ProbeMode.Enforce
  | ProbeModeWire.Observe => ProbeMode.Observe
  | ProbeModeWire.Disabled => ProbeMode.Disabled
  end.

Definition ProbeModeWire_from (m : ProbeMode) : ProbeModeWire.t :=
  match m with
  | ProbeMode.Enforce => ProbeModeWire.Enforce
  | ProbeMode.Observe => ProbeModeWire.Observe
  | ProbeMode.Disabled => ProbeModeWire.Disabled
  end.

Definition ProbeTopologyEntry_from_wire (w : ProbeTopologyEntryWire) : ProbeTopologyEntry :=
  MkProbeTopologyEntry (ptew_probe_name w) (ptew_kind w) (ProbeMode_from_wire (ptew_mode w)).

Definition ProbeTopologyEntryWire_from (e : ProbeTopologyEntry) : ProbeTopologyEntryWire :=
  MkProbeTopologyEntryWire (pte_probe_name e) (pte_kind e) (ProbeModeWire_from (pte_mode e)).

Definition ProbeSubResult_from_wire (w : ProbeSubResultWire) : ProbeSubResult :=
  MkProbeSubResult (psrw_control_id w) (ProbeStatus_from_wire (psrw_status w)) (psrw_framework w)
    (psrw_article w) (ProbeMode_from_wire (psrw_effective_mode w)) (psrw_override_reason w).

Definition ProbeSubResultWire_from (s : ProbeSubResult) : ProbeSubResultWire :=
  MkProbeSubResultWire (psr_control_id s) (ProbeStatusWire_from (psr_status s)) (psr_framework s)
    (psr_article s) (ProbeModeWire_from (psr_effective_mode s)) (psr_override_reason s).

(** Inbound: an agent event becomes a [Remote] event. *)
Definition Event_from_wire (e : AgentEvent.t) : Event :=
  match e with
  | AgentEvent.DispatchAck current_closure_at_dispatch received_at seq =>
      Event.RemoteDispatchAck current_closure_at_dispatch received_at seq
  | AgentEvent.ActivationStarted started_at switch_method seq =>
      Event.RemoteActivationStarted started_at switch_method seq
  | AgentEvent.ActivationCompleted observed_current_closure exit_code completed_at seq =>
      Event.RemoteActivationCompleted observed_current_closure exit_code completed_at seq
  | AgentEvent.ActivationFailed exit_code stderr_tail failed_at seq =>
      Event.RemoteActivationFailed exit_code stderr_tail failed_at seq
  | AgentEvent.ActivationDeferred component deferred_at seq =>
      Event.RemoteActivationDeferred component deferred_at seq
  | AgentEvent.ProbeTopologyDeclared probes declared_at seq =>
      Event.RemoteProbeTopologyDeclared (map ProbeTopologyEntry_from_wire probes) declared_at seq
  | AgentEvent.ProbeObservedFirst probe_name mode observed_at seq =>
      Event.RemoteProbeObservedFirst probe_name (ProbeMode_from_wire mode) observed_at seq
  | AgentEvent.ProbeResult probe_name mode status observed_at failure_reason sub_results seq =>
      Event.RemoteProbeResult probe_name (ProbeMode_from_wire mode) (ProbeStatus_from_wire status)
        observed_at failure_reason (option_map (map ProbeSubResult_from_wire) sub_results) seq
  | AgentEvent.ProbeFailureFirst probe_name mode first_failed_at seq =>
      Event.RemoteProbeFailureFirst probe_name (ProbeMode_from_wire mode) first_failed_at seq
  | AgentEvent.Failed failed_at sustained_duration_secs failing_probes policy_applied seq =>
      Event.RemoteFailed failed_at sustained_duration_secs failing_probes
        (OnHealthFailureWire.into policy_applied) seq
  | AgentEvent.RollbackComplete reverted_to_closure exit_code completed_at seq =>
      Event.RemoteRollbackComplete reverted_to_closure exit_code completed_at seq
  | AgentEvent.Converged converged_at current_closure seq =>
      Event.RemoteConverged converged_at current_closure seq
  end.

(** Outbound: what the agent's applier queues. *)
Definition AgentEvent_from_outbound (e : OutboundAgentEvent) : AgentEvent.t :=
  match e with
  | OutboundAgentEvent.DispatchAck current_closure_at_dispatch received_at seq =>
      AgentEvent.DispatchAck current_closure_at_dispatch received_at seq
  | OutboundAgentEvent.ActivationStarted started_at switch_method seq =>
      AgentEvent.ActivationStarted started_at switch_method seq
  | OutboundAgentEvent.ActivationCompleted observed_current_closure exit_code completed_at seq =>
      AgentEvent.ActivationCompleted observed_current_closure exit_code completed_at seq
  | OutboundAgentEvent.ActivationFailed exit_code stderr_tail failed_at seq =>
      AgentEvent.ActivationFailed exit_code stderr_tail failed_at seq
  | OutboundAgentEvent.ActivationDeferred component deferred_at seq =>
      AgentEvent.ActivationDeferred component deferred_at seq
  | OutboundAgentEvent.ProbeTopologyDeclared probes declared_at seq =>
      AgentEvent.ProbeTopologyDeclared (map ProbeTopologyEntryWire_from probes) declared_at seq
  | OutboundAgentEvent.ProbeObservedFirst probe_name mode observed_at seq =>
      AgentEvent.ProbeObservedFirst probe_name (ProbeModeWire_from mode) observed_at seq
  | OutboundAgentEvent.ProbeResult probe_name mode status observed_at failure_reason sub_results
      seq =>
      AgentEvent.ProbeResult probe_name (ProbeModeWire_from mode) (ProbeStatusWire_from status)
        observed_at failure_reason (option_map (map ProbeSubResultWire_from) sub_results) seq
  | OutboundAgentEvent.ProbeFailureFirst probe_name mode first_failed_at seq =>
      AgentEvent.ProbeFailureFirst probe_name (ProbeModeWire_from mode) first_failed_at seq
  | OutboundAgentEvent.Failed failed_at sustained_duration_secs failing_probes policy_applied seq =>
      AgentEvent.Failed failed_at sustained_duration_secs failing_probes
        (OnHealthFailureWire.from policy_applied) seq
  | OutboundAgentEvent.RollbackComplete reverted_to_closure exit_code completed_at seq =>
      AgentEvent.RollbackComplete reverted_to_closure exit_code completed_at seq
  | OutboundAgentEvent.Converged converged_at current_closure seq =>
      AgentEvent.Converged converged_at current_closure seq
  end.

(** What the control plane's reducer is given for a log entry of the agent. *)
Definition received (o : OutboundAgentEvent) : Event :=
  Event_from_wire (AgentEvent_from_outbound o).

(** The control plane's inputs for a log: its own clock, the same policy. *)
Definition deliver (now : DateTime) (policy : RolloutPolicy) (log : list OutboundAgentEvent)
    : list input :=
  (fun o => MkInput (received o) now policy) <$> log.

(** ** Round trips *)

Lemma probe_status_roundtrip s : ProbeStatus_from_wire (ProbeStatusWire_from s) = s.
Proof. by destruct s. Qed.
Lemma probe_mode_roundtrip m : ProbeMode_from_wire (ProbeModeWire_from m) = m.
Proof. by destruct m. Qed.
Lemma on_health_failure_roundtrip p : OnHealthFailureWire.into (OnHealthFailureWire.from p) = p.
Proof. by destruct p. Qed.
#[global] Arguments ProbeStatus_from_wire : simpl never.
#[global] Arguments ProbeMode_from_wire : simpl never.
#[global] Arguments OnHealthFailureWire.into : simpl never.
#[export] Hint Rewrite probe_status_roundtrip probe_mode_roundtrip on_health_failure_roundtrip
  : nixfleet.

Lemma topology_entry_roundtrip e : ProbeTopologyEntry_from_wire (ProbeTopologyEntryWire_from e) = e.
Proof. by destruct e as [? ? []]. Qed.
Lemma sub_result_roundtrip s : ProbeSubResult_from_wire (ProbeSubResultWire_from s) = s.
Proof. by destruct s as [? [] ? ? [] ?]. Qed.

Lemma map_roundtrip {A B} (f : A -> B) (g : B -> A) (l : list A) :
  (forall x, g (f x) = x) -> map g (map f l) = l.
Proof. intros H. induction l; simpl; congruence. Qed.

Lemma outbound_of_received o : outbound_of (received o) = o.
Proof.
  destruct o; cbn; autorewrite with nixfleet; try done.
  - by rewrite (map_roundtrip _ _ _ topology_entry_roundtrip).
  - destruct sub_results; cbn; [|done].
    by rewrite (map_roundtrip _ _ _ sub_result_roundtrip).
Qed.

Lemma received_remote o : is_local (received o) = false.
Proof. by destruct o. Qed.

(** The [Remote] event of a log entry is determined by the entry. *)
Lemma received_unique o e : is_local e = false -> outbound_of e = o -> received o = e.
Proof.
  intros Hl <-. destruct e; try discriminate Hl; cbn; autorewrite with nixfleet; try done.
  - by rewrite (map_roundtrip _ _ _ topology_entry_roundtrip).
  - destruct sub_results; cbn; [|done].
    by rewrite (map_roundtrip _ _ _ sub_result_roundtrip).
Qed.

Lemma received_seq e : Event.seq (received (outbound_of e)) = Event.seq e.
Proof. by destruct e. Qed.

(** ** The mirror *)

Lemma step_mirror st e now now' policy :
  match step st e now policy, step st (received (outbound_of e)) now' policy with
  | Ok (st1, _), Ok (st2, _) => st1 = st2
  | Err _, Err _ => True
  | _, _ => False
  end.
Proof.
  unfold step, dispatch. rewrite received_seq.
  destruct (Z.leb _ _); [done|].
  destruct (hs_state st), e; cbn -[verify_converged_invariants update_probe];
    autorewrite with nixfleet; try done.
  all: unfold soaking.local_converged_reached, soaking.remote_converged;
    by destruct (verify_converged_invariants _ _ _).
Qed.

Lemma local_emits_app effs effs' : local_emits (effs ++ effs') = local_emits effs ++ local_emits effs'.
Proof. apply omap_app. Qed.

Lemma mirror_run st0 ins now policy :
  Forall (fun i => is_local (in_event i) = true /\ in_policy i = policy) ins ->
  (run st0 (deliver now policy (local_emits (run st0 ins).2))).1 = (run st0 ins).1 /\
  accepted st0 (deliver now policy (local_emits (run st0 ins).2)) = true.
Proof.
  revert st0. induction ins as [|i ins IH]; intros st0 HF; simpl; [done|].
  apply Forall_cons in HF as [[Hl Hp] HF]. unfold run_one.
  pose proof (step_mirror st0 (in_event i) (in_now i) now (in_policy i)) as Hm.
  destruct (step st0 _ _ _) as [[st1 effs1]|] eqn:E.
  - destruct (IH st1 HF) as [IH1 IH2]. destruct (run st1 ins) as [st2 effs2]. simpl in *.
    rewrite local_emits_app.
    destruct (step_logs _ _ _ _ _ _ E) as [-> _]. rewrite Hl. simpl.
    unfold run_one. simpl. rewrite <- Hp.
    destruct (step st0 (received _) _ _) as [[st1' effs1']|]; [subst st1'|done].
    rewrite Hp. unfold deliver in *.
    destruct (run st1 (_ <$> _)) as [st3 effs3]. simpl in *. by split.
  - destruct (IH st0 HF) as [IH1 IH2]. by destruct (run st0 ins) as [st2 effs2].
Qed.

(** ** Properties *)

(** The conversions lose nothing: what the agent logs, sent over the wire
    and projected on the control plane's side, is the [Remote] event that
    stands for that log entry, the only such event, with the same sequence
    number. *)
Theorem wire_lossless (e : Event) :
  let e' := Event_from_wire (AgentEvent_from_outbound (outbound_of e)) in
  outbound_of e' = outbound_of e /\ is_local e' = false /\ Event.seq e' = Event.seq e /\
  AgentEvent.seq (AgentEvent_from_outbound (outbound_of e)) = Event.seq e /\
  (forall e'', is_local e'' = false -> outbound_of e'' = outbound_of e -> e'' = e').
Proof.
  split_and!; [apply outbound_of_received | apply received_remote | apply received_seq | |].
  - by destruct e.
  - intros e'' Hl Ho. symmetry. by apply received_unique.
Qed.

(** C12.  The control plane mirrors the agent.  The agent runs its local events,
    accepting some and refusing others; the log of what it emitted is delivered
    in order over the wire, with any of the entries delivered again afterwards,
    in any order.  The control plane, started from the same record with the same
    policy and its own clock, accepts every entry and ends in the agent's
    state. *)
Theorem cp_mirrors_agent (st0 : HostRolloutState) (ins : list input) (now : DateTime)
    (policy : RolloutPolicy) (again : list OutboundAgentEvent) :
  Forall (fun i => is_local (in_event i) = true /\ in_policy i = policy) ins ->
  let agent := run st0 ins in
  let log := local_emits agent.2 in
  again ⊆ log ->
  accepted st0 (deliver now policy log) = true /\
  (run st0 (deliver now policy (log ++ again))).1 = agent.1.
Proof.
  intros HF agent log Hsub. destruct (mirror_run st0 ins now policy HF) as [Hrun Hacc].
  split; [done|]. unfold deliver in *. rewrite fmap_app, run_app. simpl.
  rewrite run_regression; [done|].
  apply Forall_fmap, Forall_forall. intros o Ho. simpl.
  pose proof (accepted_seqs _ _ Hacc) as HS. rewrite Forall_fmap, Forall_forall in HS.
  by apply HS, Hsub.
Qed.

Lemma cp_mirrors_agent_witness :
  let log := local_emits (run sample_pending sample_inputs).2 in
  (run sample_pending (deliver 9 sample_policy (log ++ reverse log))).1
  = (run sample_pending sample_inputs).1.
Proof.
  refine (proj2 (cp_mirrors_agent sample_pending sample_inputs 9 sample_policy
    (reverse (local_emits (run sample_pending sample_inputs).2)) _ _)).
  - repeat constructor.
  - intros x Hx. by apply elem_of_reverse in Hx.
Defined.
