(* ===== verification/RolloutMachine.v ===== *)
(** * The rollout state machine

    Models [crates/nixfleet-state-machine/src/rollout/]: the rollout record,
    events, effects and errors, and the reducer with one module per source
    state.  Only the control plane runs it. *)

From S2P Require Import Prelude Proto HostTypes.

Abbreviation ChannelId := string (only parsing).
Abbreviation ChannelRef := string (only parsing).
Abbreviation HostId := string (only parsing).

Module RolloutState.
Inductive t :=
| Opening | Active | Converging | Terminal | Reverted | Failed | Superseded | Pruned.

#[global] Instance t_eq_dec : EqDecision t.
Proof. solve_decision. Defined.

Definition as_db_str (s : t) : string :=
  match s with
  | Opening => "Opening"
  | Active => "Active"
  | Converging => "Converging"
  | Terminal => "Terminal"
  | Reverted => "Reverted"
  | Failed => "Failed"
  | Superseded => "Superseded"
  | Pruned => "Pruned"
  end.

Definition from_db_str (s : string) : option t :=
  if bool_decide (s = "Opening") then Some Opening
  else if bool_decide (s = "Active") then Some Active
  else if bool_decide (s = "Converging") then Some Converging
  else if bool_decide (s = "Terminal") then Some Terminal
  else if bool_decide (s = "Reverted") then Some Reverted
  else if bool_decide (s = "Failed") then Some Failed
  else if bool_decide (s = "Superseded") then Some Superseded
  else if bool_decide (s = "Pruned") then Some Pruned
  else None.

Definition is_terminal_for_ordering (s : t) : bool :=
  match s with Terminal | Superseded => true | _ => false end.
End RolloutState.
Abbreviation RolloutState := RolloutState.t.

Record RolloutRecord := MkRolloutRecord {
  rr_rollout_id : RolloutId;
  rr_channel : ChannelId;
  rr_target_ref : ChannelRef;
  rr_state : RolloutState;
  rr_current_wave : u32;
  rr_opened_event_log_seq : option i64;
  rr_last_transition_event_log_seq : option i64;
  rr_opened_at : DateTime;
  rr_terminal_at : option DateTime;
  rr_superseded_at : option DateTime;
}.
#[export] Instance RolloutRecord_eta : Etaexp RolloutRecord := fun r =>
  MkRolloutRecord (rr_rollout_id r) (rr_channel r) (rr_target_ref r) (rr_state r)
    (rr_current_wave r) (rr_opened_event_log_seq r) (rr_last_transition_event_log_seq r)
    (rr_opened_at r) (rr_terminal_at r) (rr_superseded_at r).

Module RolloutEvent.
Inductive t :=
| RolloutOpened (rollout_id : RolloutId) (channel : ChannelId) (target_ref : ChannelRef)
    (at_ : DateTime)
| HostJoined (rollout_id : RolloutId) (host_id : HostId) (wave : u32) (at_ : DateTime)
| HostStateChanged (rollout_id : RolloutId) (host_id : HostId) (from to : HostState)
    (at_ : DateTime)
| WaveAdvanced (rollout_id : RolloutId) (from_wave to_wave : u32) (at_ : DateTime)
| RolloutTerminal (rollout_id : RolloutId) (at_ : DateTime)
| SuccessorOpened (superseded_rollout_id successor_rollout_id : RolloutId) (at_ : DateTime)
| RetentionExpired (rollout_id : RolloutId) (at_ : DateTime)
| OperatorClearance (rollout_id : RolloutId) (operator reason : string) (at_ : DateTime).

Definition kind (e : t) : string :=
  match e with
  | RolloutOpened _ _ _ _ => "RolloutOpened"
  | HostJoined _ _ _ _ => "HostJoined"
  | HostStateChanged _ _ _ _ _ => "HostStateChanged"
  | WaveAdvanced _ _ _ _ => "WaveAdvanced"
  | RolloutTerminal _ _ => "RolloutTerminal"
  | SuccessorOpened _ _ _ => "SuccessorOpened"
  | RetentionExpired _ _ => "RetentionExpired"
  | OperatorClearance _ _ _ _ => "OperatorClearance"
  end.
End RolloutEvent.
Abbreviation RolloutEvent := RolloutEvent.t.

Module RolloutEffect.
Inductive t :=
| RecordRolloutTransition (rollout_id : RolloutId) (from to : RolloutState) (at_ : DateTime)
| UpdateCurrentWave (rollout_id : RolloutId) (wave : u32)
| InsertQuarantineFromRollout (channel : ChannelId) (closure_hash : ClosureHash)
| SchedulePruning (rollout_id : RolloutId) (delay_seconds : i64).

Definition kind (e : t) : string :=
  match e with
  | RecordRolloutTransition _ _ _ _ => "RecordRolloutTransition"
  | UpdateCurrentWave _ _ => "UpdateCurrentWave"
  | InsertQuarantineFromRollout _ _ => "InsertQuarantineFromRollout"
  | SchedulePruning _ _ => "SchedulePruning"
  end.
End RolloutEffect.
Abbreviation RolloutEffect := RolloutEffect.t.

Module RolloutTransitionError.
Inductive t :=
| IllegalForState (from : RolloutState) (event : string) (rollout_id : RolloutId)
| SupersessionExpected (rollout_id : RolloutId) (channel : string)
| Invariant (what : string)
| Unimplemented (from : RolloutState) (event : string).
End RolloutTransitionError.
Abbreviation RolloutTransitionError := RolloutTransitionError.t.

Abbreviation rollout_result := (result (RolloutRecord * list RolloutEffect) RolloutTransitionError).

Module rollout.

(** ** Helpers ([transitions/mod.rs]) *)

Definition transition_effect (record : RolloutRecord) (from to : RolloutState) (at_ : DateTime)
    : RolloutEffect :=
  RolloutEffect.RecordRolloutTransition (rr_rollout_id record) from to at_.

Definition illegal (from : RolloutState) (event : RolloutEvent) (rollout_id : RolloutId)
    : RolloutTransitionError :=
  RolloutTransitionError.IllegalForState from (RolloutEvent.kind event) rollout_id.

(** ** One module per source state *)

Module opening.
Definition step (record : RolloutRecord) (event : RolloutEvent) (_now : DateTime)
    : rollout_result :=
  match event with
  | RolloutEvent.HostJoined _ _ _ at_ =>
      let record := record <| rr_state := RolloutState.Active |> in
      Ok (record, [transition_effect record RolloutState.Opening RolloutState.Active at_])
  | RolloutEvent.SuccessorOpened _ _ at_ =>
      let record := record <| rr_state := RolloutState.Superseded |>
                           <| rr_superseded_at := Some at_ |> in
      Ok (record, [transition_effect record RolloutState.Opening RolloutState.Superseded at_])
  | RolloutEvent.OperatorClearance _ _ _ _
  | RolloutEvent.RolloutOpened _ _ _ _
  | RolloutEvent.HostStateChanged _ _ _ _ _
  | RolloutEvent.WaveAdvanced _ _ _ _
  | RolloutEvent.RolloutTerminal _ _
  | RolloutEvent.RetentionExpired _ _ =>
      Err (illegal RolloutState.Opening event (rr_rollout_id record))
  end.
End opening.

Module active.
Definition step (record : RolloutRecord) (event : RolloutEvent) (_now : DateTime)
    : rollout_result :=
  match event with
  | RolloutEvent.HostJoined _ _ _ _ => Ok (record, [])
  | RolloutEvent.HostStateChanged _ _ _ to at_ =>
      match to with
      | HostState.Reverted =>
          let record := record <| rr_state := RolloutState.Reverted |> in
          Ok (record, [transition_effect record RolloutState.Active RolloutState.Reverted at_])
      | HostState.Failed =>
          let record := record <| rr_state := RolloutState.Failed |> in
          Ok (record, [transition_effect record RolloutState.Active RolloutState.Failed at_])
      | _ => Ok (record, [])
      end
  | RolloutEvent.WaveAdvanced _ from_wave to_wave at_ =>
      if Z.ltb from_wave to_wave then
        if Z.ltb (rr_current_wave record) to_wave then
          Ok (record <| rr_current_wave := to_wave |>,
              [RolloutEffect.UpdateCurrentWave (rr_rollout_id record) to_wave])
        else Ok (record, [])
      else
        let record := record <| rr_state := RolloutState.Converging |> in
        Ok (record, [transition_effect record RolloutState.Active RolloutState.Converging at_])
  | RolloutEvent.RolloutTerminal _ at_ =>
      let record := record <| rr_state := RolloutState.Terminal |>
                           <| rr_terminal_at := Some at_ |> in
      Ok (record, [transition_effect record RolloutState.Active RolloutState.Terminal at_])
  | RolloutEvent.SuccessorOpened _ _ at_ =>
      let record := record <| rr_state := RolloutState.Superseded |>
                           <| rr_superseded_at := Some at_ |> in
      Ok (record, [transition_effect record RolloutState.Active RolloutState.Superseded at_])
  | RolloutEvent.RolloutOpened _ _ _ _
  | RolloutEvent.RetentionExpired _ _
  | RolloutEvent.OperatorClearance _ _ _ _ =>
      Err (illegal RolloutState.Active event (rr_rollout_id record))
  end.
End active.

Module converging.
Definition step (record : RolloutRecord) (event : RolloutEvent) (_now : DateTime)
    : rollout_result :=
  match event with
  | RolloutEvent.WaveAdvanced _ from_wave to_wave at_ =>
      if Z.ltb from_wave to_wave then
        let record := record <| rr_state := RolloutState.Active |> in
        let effects :=
          [transition_effect record RolloutState.Converging RolloutState.Active at_] in
        if Z.ltb (rr_current_wave record) to_wave then
          let record := record <| rr_current_wave := to_wave |> in
          Ok (record,
              effects ++ [RolloutEffect.UpdateCurrentWave (rr_rollout_id record) to_wave])
        else Ok (record, effects)
      else Ok (record, [])
  | RolloutEvent.RolloutTerminal _ at_ =>
      let record := record <| rr_state := RolloutState.Terminal |>
                           <| rr_terminal_at := Some at_ |> in
      Ok (record, [transition_effect record RolloutState.Converging RolloutState.Terminal at_])
  | RolloutEvent.HostStateChanged _ _ _ to at_ =>
      match to with
      | HostState.Reverted =>
          let record := record <| rr_state := RolloutState.Reverted |> in
          Ok (record,
              [transition_effect record RolloutState.Converging RolloutState.Reverted at_])
      | HostState.Failed =>
          let record := record <| rr_state := RolloutState.Failed |> in
          Ok (record, [transition_effect record RolloutState.Converging RolloutState.Failed at_])
      | _ => Ok (record, [])
      end
  | RolloutEvent.SuccessorOpened _ _ at_ =>
      let record := record <| rr_state := RolloutState.Superseded |>
                           <| rr_superseded_at := Some at_ |> in
      Ok (record, [transition_effect record RolloutState.Converging RolloutState.Superseded at_])
  | RolloutEvent.HostJoined _ _ _ _ => Ok (record, [])
  | RolloutEvent.RolloutOpened _ _ _ _
  | RolloutEvent.RetentionExpired _ _
  | RolloutEvent.OperatorClearance _ _ _ _ =>
      Err (illegal RolloutState.Converging event (rr_rollout_id record))
  end.
End converging.

Module failed.
Definition step (record : RolloutRecord) (event : RolloutEvent) (_now : DateTime)
    : rollout_result :=
  match event with
  | RolloutEvent.SuccessorOpened _ _ at_ =>
      let record := record <| rr_state := RolloutState.Superseded |>
                           <| rr_superseded_at := Some at_ |> in
      Ok (record, [transition_effect record RolloutState.Failed RolloutState.Superseded at_])
  | RolloutEvent.RetentionExpired _ at_ =>
      let record := record <| rr_state := RolloutState.Pruned |> in
      Ok (record, [transition_effect record RolloutState.Failed RolloutState.Pruned at_])
  | RolloutEvent.OperatorClearance _ _ _ _ =>
      Err (RolloutTransitionError.Unimplemented RolloutState.Failed (RolloutEvent.kind event))
  | RolloutEvent.HostStateChanged _ _ _ _ _
  | RolloutEvent.HostJoined _ _ _ _
  | RolloutEvent.WaveAdvanced _ _ _ _
  | RolloutEvent.RolloutTerminal _ _ => Ok (record, [])
  | RolloutEvent.RolloutOpened _ _ _ _ =>
      Err (illegal RolloutState.Failed event (rr_rollout_id record))
  end.
End failed.

Module reverted.
Definition step (record : RolloutRecord) (event : RolloutEvent) (_now : DateTime)
    : rollout_result :=
  match event with
  | RolloutEvent.SuccessorOpened _ _ at_ =>
      let record := record <| rr_state := RolloutState.Superseded |>
                           <| rr_superseded_at := Some at_ |> in
      Ok (record, [transition_effect record RolloutState.Reverted RolloutState.Superseded at_])
  | RolloutEvent.RetentionExpired _ at_ =>
      let record := record <| rr_state := RolloutState.Pruned |> in
      Ok (record, [transition_effect record RolloutState.Reverted RolloutState.Pruned at_])
  | RolloutEvent.OperatorClearance _ _ _ _ =>
      Err (RolloutTransitionError.Unimplemented RolloutState.Reverted (RolloutEvent.kind event))
  | RolloutEvent.HostStateChanged _ _ _ _ _
  | RolloutEvent.HostJoined _ _ _ _
  | RolloutEvent.WaveAdvanced _ _ _ _
  | RolloutEvent.RolloutTerminal _ _ => Ok (record, [])
  | RolloutEvent.RolloutOpened _ _ _ _ =>
      Err (illegal RolloutState.Reverted event (rr_rollout_id record))
  end.
End reverted.

Module terminal.
Definition step (record : RolloutRecord) (event : RolloutEvent) (_now : DateTime)
    : rollout_result :=
  match event with
  | RolloutEvent.SuccessorOpened _ _ at_ =>
      let record := record <| rr_state := RolloutState.Superseded |>
                           <| rr_superseded_at := Some at_ |> in
      Ok (record, [transition_effect record RolloutState.Terminal RolloutState.Superseded at_])
  | RolloutEvent.RetentionExpired _ at_ =>
      let record := record <| rr_state := RolloutState.Pruned |> in
      Ok (record, [transition_effect record RolloutState.Terminal RolloutState.Pruned at_])
  | RolloutEvent.RolloutTerminal _ _ => Ok (record, [])
  | RolloutEvent.HostStateChanged _ _ _ _ _
  | RolloutEvent.HostJoined _ _ _ _ => Ok (record, [])
  | RolloutEvent.RolloutOpened _ _ _ _
  | RolloutEvent.WaveAdvanced _ _ _ _
  | RolloutEvent.OperatorClearance _ _ _ _ =>
      Err (illegal RolloutState.Terminal event (rr_rollout_id record))
  end.
End terminal.

Module superseded.
Definition step (record : RolloutRecord) (event : RolloutEvent) (_now : DateTime)
    : rollout_result :=
  match event with
  | RolloutEvent.RetentionExpired _ at_ =>
      let record := record <| rr_state := RolloutState.Pruned |> in
      Ok (record, [transition_effect record RolloutState.Superseded RolloutState.Pruned at_])
  | RolloutEvent.HostStateChanged _ _ _ _ _
  | RolloutEvent.HostJoined _ _ _ _
  | RolloutEvent.WaveAdvanced _ _ _ _
  | RolloutEvent.RolloutTerminal _ _
  | RolloutEvent.SuccessorOpened _ _ _ => Ok (record, [])
  | RolloutEvent.RolloutOpened _ _ _ _
  | RolloutEvent.OperatorClearance _ _ _ _ =>
      Err (illegal RolloutState.Superseded event (rr_rollout_id record))
  end.
End superseded.

Module pruned.
Definition step (record : RolloutRecord) (event : RolloutEvent) (_now : DateTime)
    : rollout_result := Err (illegal RolloutState.Pruned event (rr_rollout_id record)).
End pruned.

(** ** The reducer *)

Definition dispatch (record : RolloutRecord) (event : RolloutEvent) (now : DateTime)
    : rollout_result :=
  match rr_state record with
  | RolloutState.Opening => opening.step record event now
  | RolloutState.Active => active.step record event now
  | RolloutState.Converging => converging.step record event now
  | RolloutState.Terminal => terminal.step record event now
  | RolloutState.Reverted => reverted.step record event now
  | RolloutState.Failed => failed.step record event now
  | RolloutState.Superseded => superseded.step record event now
  | RolloutState.Pruned => pruned.step record event now
  end.

Definition step (record : RolloutRecord) (event : RolloutEvent) (now : DateTime)
    : rollout_result := dispatch record event now.

End rollout.
