(* ===== verification/RolloutProps.v ===== *)
(** * The rollout state machine: what its transitions guarantee

    The reducer's full functional behaviour as one table, an invariant of the
    records a rollout goes through, the release signal channel-edges read, and
    the database literals of the states. *)

From S2P Require Import Prelude Proto HostTypes RolloutMachine.

(** ** The specification *)

(** What an event does in a state: the next state, or a refusal. *)
Variant verdict := Move (s : RolloutState) | Refuse | NotYet.

Definition host_verdict (s : RolloutState) (to : HostState) : verdict :=
  match to with
  | HostState.Reverted => Move RolloutState.Reverted
  | HostState.Failed => Move RolloutState.Failed
  | _ => Move s
  end.

Definition rollout_table (s : RolloutState) (e : RolloutEvent) : verdict :=
  match s, e with
  | RolloutState.Pruned, _ => Refuse
  | _, RolloutEvent.RolloutOpened _ _ _ _ => Refuse
  | (RolloutState.Failed | RolloutState.Reverted), RolloutEvent.OperatorClearance _ _ _ _ => NotYet
  | _, RolloutEvent.OperatorClearance _ _ _ _ => Refuse
  | _, RolloutEvent.SuccessorOpened _ _ _ => Move RolloutState.Superseded
  | (RolloutState.Opening | RolloutState.Active | RolloutState.Converging),
    RolloutEvent.RetentionExpired _ _ => Refuse
  | _, RolloutEvent.RetentionExpired _ _ => Move RolloutState.Pruned
  | RolloutState.Opening, RolloutEvent.HostJoined _ _ _ _ => Move RolloutState.Active
  | RolloutState.Opening, _ => Refuse
  | RolloutState.Terminal, RolloutEvent.WaveAdvanced _ _ _ _ => Refuse
  | (RolloutState.Active | RolloutState.Converging), RolloutEvent.HostStateChanged _ _ _ to _ =>
      host_verdict s to
  | (RolloutState.Active | RolloutState.Converging), RolloutEvent.WaveAdvanced _ from to _ =>
      Move (if Z.ltb from to then RolloutState.Active else RolloutState.Converging)
  | (RolloutState.Active | RolloutState.Converging), RolloutEvent.RolloutTerminal _ _ =>
      Move RolloutState.Terminal
  | _, _ => Move s
  end.

(** The wave cursor after an accepted event. *)
Definition rollout_wave (s : RolloutState) (wave : u32) (e : RolloutEvent) : u32 :=
  match s, e with
  | (RolloutState.Active | RolloutState.Converging), RolloutEvent.WaveAdvanced _ from to _ =>
      if Z.ltb from to then Z.max wave to else wave
  | _, _ => wave
  end.

Definition event_at (e : RolloutEvent) : DateTime :=
  match e with
  | RolloutEvent.RolloutOpened _ _ _ t | RolloutEvent.HostJoined _ _ _ t
  | RolloutEvent.HostStateChanged _ _ _ _ t | RolloutEvent.WaveAdvanced _ _ _ t
  | RolloutEvent.RolloutTerminal _ t | RolloutEvent.SuccessorOpened _ _ t
  | RolloutEvent.RetentionExpired _ t | RolloutEvent.OperatorClearance _ _ _ t => t
  end.

(** The record after an accepted event that leads to [s']. *)
Definition rollout_after (r : RolloutRecord) (e : RolloutEvent) (s' : RolloutState)
    : RolloutRecord :=
  let moved := negb (bool_decide (s' = rr_state r)) in
  MkRolloutRecord (rr_rollout_id r) (rr_channel r) (rr_target_ref r) s'
    (rollout_wave (rr_state r) (rr_current_wave r) e)
    (rr_opened_event_log_seq r) (rr_last_transition_event_log_seq r) (rr_opened_at r)
    (if moved && bool_decide (s' = RolloutState.Terminal)
     then Some (event_at e) else rr_terminal_at r)
    (if moved && bool_decide (s' = RolloutState.Superseded)
     then Some (event_at e) else rr_superseded_at r).

(** One transition effect per state change, one wave effect per advance. *)
Definition rollout_effects (r : RolloutRecord) (e : RolloutEvent) (s' : RolloutState)
    : list RolloutEffect :=
  (if bool_decide (s' = rr_state r) then []
   else [RolloutEffect.RecordRolloutTransition (rr_rollout_id r) (rr_state r) s' (event_at e)]) ++
  (let wave' := rollout_wave (rr_state r) (rr_current_wave r) e in
   if bool_decide (wave' = rr_current_wave r) then []
   else [RolloutEffect.UpdateCurrentWave (rr_rollout_id r) wave']).

(** ** Runs of a rollout: refused events are dropped *)

Definition rollout_run_one (r : RolloutRecord) (e : RolloutEvent * DateTime) : RolloutRecord :=
  match rollout.step r e.1 e.2 with Ok (r', _) => r' | Err _ => r end.

Definition rollout_run (r : RolloutRecord) (es : list (RolloutEvent * DateTime)) : RolloutRecord :=
  fold_left rollout_run_one es r.

(** A freshly opened rollout ([record_rollout_opened]). *)
Definition opened_record (rid : RolloutId) (channel : ChannelId) (target_ref : ChannelRef)
    (opened_at : DateTime) (log_seq : option i64) : RolloutRecord :=
  MkRolloutRecord rid channel target_ref RolloutState.Opening 0 log_seq log_seq opened_at None None.

(** Stamps tell the history: a terminal rollout has its terminal time and was
    never superseded, a superseded one has its superseded time, and a rollout
    that got to neither has no stamp. *)
Definition rollout_inv (r : RolloutRecord) : Prop :=
  match rr_state r with
  | RolloutState.Terminal => is_Some (rr_terminal_at r) /\ rr_superseded_at r = None
  | RolloutState.Superseded => is_Some (rr_superseded_at r)
  | RolloutState.Pruned => True
  | _ => rr_terminal_at r = None /\ rr_superseded_at r = None
  end.

(** ** Lemmas *)

Lemma rollout_step_table r e now :
  match rollout_table (rr_state r) e with
  | Move s' => rollout.step r e now = Ok (rollout_after r e s', rollout_effects r e s')
  | Refuse => rollout.step r e now =
      Err (RolloutTransitionError.IllegalForState (rr_state r) (RolloutEvent.kind e)
             (rr_rollout_id r))
  | NotYet => rollout.step r e now =
      Err (RolloutTransitionError.Unimplemented (rr_state r) (RolloutEvent.kind e))
  end.
Proof.
  destruct r as [rid ch ref s wave o l opened term super].
  unfold rollout.step, rollout.dispatch, rollout_after, rollout_effects.
  assert (Hw : bool_decide (wave = wave) = true) by by apply bool_decide_eq_true_2.
  destruct s, e; simpl; rewrite ?Hw; try done; try (destruct to; simpl; rewrite ?Hw; done).
  all: destruct (Z.ltb_spec from_wave to_wave); simpl; rewrite ?Hw; try done.
  all: destruct (Z.ltb_spec wave to_wave); simpl.
  all: first [ rewrite Z.max_r, bool_decide_eq_false_2 by lia
             | rewrite Z.max_l, Hw by lia ]; done.
Qed.

Lemma rollout_step_inv r e now r' effs :
  rollout.step r e now = Ok (r', effs) ->
  exists s', rollout_table (rr_state r) e = Move s' /\
             r' = rollout_after r e s' /\ effs = rollout_effects r e s'.
Proof.
  intros H. pose proof (rollout_step_table r e now) as T.
  destruct (rollout_table _ _) as [s'| |]; rewrite T in H; inv_ok. by exists s'.
Qed.

Lemma rollout_inv_opened rid ch ref at_ l : rollout_inv (opened_record rid ch ref at_ l).
Proof. by split. Qed.

Lemma rollout_inv_step r e now r' effs :
  rollout_inv r -> rollout.step r e now = Ok (r', effs) -> rollout_inv r'.
Proof.
  intros Hinv (s' & Ht & -> & _)%rollout_step_inv. unfold rollout_inv in *.
  destruct r as [rid ch ref s wave o l opened term super]; simpl in *.
  destruct s, e; simpl in Ht; try discriminate Ht; try injection Ht as <-; simpl; try done.
  all: try (destruct to; injection Ht as <-; done).
  all: try (by destruct Hinv).
  all: by destruct (Z.ltb from_wave to_wave).
Qed.

Lemma rollout_run_ind (P : RolloutRecord -> Prop) r es :
  P r ->
  (forall r1 e now r2 effs, P r1 -> rollout.step r1 e now = Ok (r2, effs) -> P r2) ->
  P (rollout_run r es).
Proof.
  intros H0 Hs. unfold rollout_run. revert r H0.
  induction es as [|[e now] es IH]; intros r H0; simpl; [done|].
  apply IH. unfold rollout_run_one. simpl.
  destruct (rollout.step r e now) as [[r' effs]|] eqn:E; [by eapply Hs|done].
Qed.

(** ** Properties *)

(** The rollout reducer is the table: in every state, for every event, it
    accepts exactly the events the table moves, with the table's next state,
    the terminal and superseded times set on entering those states and nowhere
    else, the wave cursor advanced exactly by a forward [WaveAdvanced] of a live
    rollout, one transition effect per state change and one wave effect per
    cursor change, naming this rollout; it refuses every other event, and an
    operator clearance of a failed or reverted rollout is not implemented. *)
Theorem rollout_step_spec (r : RolloutRecord) (e : RolloutEvent) (now : DateTime) :
  match rollout_table (rr_state r) e with
  | Move s' => rollout.step r e now = Ok (rollout_after r e s', rollout_effects r e s')
  | Refuse => rollout.step r e now =
      Err (RolloutTransitionError.IllegalForState (rr_state r) (RolloutEvent.kind e)
             (rr_rollout_id r))
  | NotYet => rollout.step r e now =
      Err (RolloutTransitionError.Unimplemented (rr_state r) (RolloutEvent.kind e))
  end.
Proof. apply rollout_step_table. Qed.

(** Along any run of an opened rollout, whatever events arrive, the record
    keeps its identity, its wave cursor never goes back, its terminal and
    superseded times are present exactly as its history requires, and a wave is
    never skipped past: the cursor is zero or the target of some [WaveAdvanced]
    event of the run. *)
Theorem rollout_run_invariant (rid : RolloutId) (ch ref : string) (opened : DateTime)
    (l : option i64) (es es' : list (RolloutEvent * DateTime)) :
  let r0 := opened_record rid ch ref opened l in
  let r := rollout_run r0 es in
  let r' := rollout_run r es' in
  rollout_inv r /\
  rr_rollout_id r = rid /\ rr_channel r = ch /\ rr_target_ref r = ref /\ rr_opened_at r = opened /\
  (rr_current_wave r <= rr_current_wave r')%Z /\
  (rr_current_wave r = 0%Z \/
   exists x from at_ now, (RolloutEvent.WaveAdvanced x from (rr_current_wave r) at_, now) ∈ es).
Proof.
  intros r0 r r'.
  assert (Hid : rr_rollout_id r = rid /\ rr_channel r = ch /\ rr_target_ref r = ref /\
                rr_opened_at r = opened).
  { apply (rollout_run_ind (fun x => rr_rollout_id x = rid /\ rr_channel x = ch /\
      rr_target_ref x = ref /\ rr_opened_at x = opened)); [done|].
    by intros r1 e now r2 effs ? (s' & _ & -> & _)%rollout_step_inv. }
  destruct Hid as (H1 & H2 & H3 & H4). split_and!; [|done..| |].
  - apply (rollout_run_ind rollout_inv); [apply rollout_inv_opened|].
    intros. by eapply rollout_inv_step.
  - apply (rollout_run_ind (fun x => (rr_current_wave r <= rr_current_wave x)%Z)); [lia|].
    intros r1 e now r2 effs Hle (s' & _ & -> & _)%rollout_step_inv. simpl.
    unfold rollout_wave. repeat case_match; lia.
  - subst r. clear. unfold rollout_run.
    assert (G : forall r1 : RolloutRecord,
      rr_current_wave (fold_left rollout_run_one es r1) = rr_current_wave r1 \/
      exists x from at_ now, (RolloutEvent.WaveAdvanced x from
        (rr_current_wave (fold_left rollout_run_one es r1)) at_, now) ∈ es); [|apply (G r0)].
    induction es as [|[e now] es IH]; intros r1; simpl; [by left|].
    destruct (IH (rollout_run_one r1 (e, now))) as [-> | (x & f & a & n & Hin)];
      [|right; do 4 eexists; by right].
    unfold rollout_run_one; simpl.
    destruct (rollout.step r1 e now) as [[r2 effs]|] eqn:E; [|by left].
    apply rollout_step_inv in E as (s' & _ & -> & _). simpl.
    unfold rollout_wave. repeat case_match; try (by left); subst.
    all: destruct (Z.max_spec (rr_current_wave r1) to_wave) as [[_ ->]|[_ ->]]; [|by left].
    all: right; do 4 eexists; by left.
Qed.

(** The release signal that channel-edges wait for is not revoked: once a
    rollout is terminal for ordering, it stays so under every event except the
    end of its retention, which prunes it; a failed or reverted rollout can only
    be superseded or pruned, and a pruned one accepts nothing. *)
Theorem rollout_release_stable (r r' : RolloutRecord) (e : RolloutEvent) (now : DateTime)
    (effs : list RolloutEffect) :
  rollout.step r e now = Ok (r', effs) ->
  rr_state r <> RolloutState.Pruned /\
  (RolloutState.is_terminal_for_ordering (rr_state r) = true ->
   RolloutState.is_terminal_for_ordering (rr_state r') = true \/
   rr_state r' = RolloutState.Pruned /\ exists x at_, e = RolloutEvent.RetentionExpired x at_) /\
  (rr_state r = RolloutState.Failed \/ rr_state r = RolloutState.Reverted ->
   rr_state r' = rr_state r \/ rr_state r' = RolloutState.Superseded \/
   rr_state r' = RolloutState.Pruned).
Proof.
  intros (s' & Ht & -> & _)%rollout_step_inv. simpl.
  destruct (rr_state r), e; simpl in Ht; try discriminate Ht; try injection Ht as <-.
  all: try (destruct to; injection Ht as <-).
  all: repeat case_match; split_and!; try done; intuition (discriminate || eauto).
Qed.

Definition sample_rollout : RolloutRecord :=
  MkRolloutRecord (rollout_id.new "stable" "r1") "stable" "r1" RolloutState.Terminal 1 None None 0
    (Some 50%Z) None.

Lemma rollout_release_stable_witness :
  RolloutState.is_terminal_for_ordering RolloutState.Superseded = true \/
  RolloutState.Superseded = RolloutState.Pruned /\
  exists x at_, RolloutEvent.SuccessorOpened (rollout_id.new "stable" "r1")
                  (rollout_id.new "stable" "r2") 60 = RolloutEvent.RetentionExpired x at_.
Proof.
  exact (proj1 (proj2 (rollout_release_stable sample_rollout _
    (RolloutEvent.SuccessorOpened (rollout_id.new "stable" "r1") (rollout_id.new "stable" "r2") 60)
    0 _ eq_refl)) eq_refl).
Defined.

(** No event makes the rollout reducer ask for a quarantine or schedule a
    pruning: of the four effects it declares, it emits two. *)
Theorem rollout_never_quarantines_or_schedules (r r' : RolloutRecord) (e : RolloutEvent)
    (now : DateTime) (effs : list RolloutEffect) :
  rollout.step r e now = Ok (r', effs) ->
  Forall (fun x => RolloutEffect.kind x = "RecordRolloutTransition" \/
                   RolloutEffect.kind x = "UpdateCurrentWave") effs.
Proof.
  intros (s' & _ & _ & ->)%rollout_step_inv. unfold rollout_effects.
  apply Forall_app_2; case_match; repeat apply Forall_cons_2; simpl; auto.
Qed.

Lemma rollout_never_quarantines_or_schedules_witness :
  Forall (fun x => RolloutEffect.kind x = "RecordRolloutTransition" \/
                   RolloutEffect.kind x = "UpdateCurrentWave")
    [RolloutEffect.RecordRolloutTransition (rollout_id.new "stable" "r1") RolloutState.Terminal
       RolloutState.Superseded 60].
Proof.
  exact (rollout_never_quarantines_or_schedules sample_rollout _
    (RolloutEvent.SuccessorOpened (rollout_id.new "stable" "r1") (rollout_id.new "stable" "r2") 60)
    0 _ eq_refl).
Defined.

(** The stored literal of a rollout state parses back to it, distinct
    states have distinct literals, and any other string is refused. *)
Theorem rollout_state_db_roundtrip (str : string) (s : RolloutState) :
  (RolloutState.from_db_str str = Some s <-> str = RolloutState.as_db_str s) /\
  (RolloutState.from_db_str str = None <-> forall s', str <> RolloutState.as_db_str s').
Proof.
  assert (Hrt : forall s', RolloutState.from_db_str (RolloutState.as_db_str s') = Some s')
    by (by intros []).
  assert (Hsome : forall s', RolloutState.from_db_str str = Some s' ->
                             str = RolloutState.as_db_str s').
  { unfold RolloutState.from_db_str. intros s'. repeat case_bool; by intros [= <-] || intros [=]. }
  split; split; [apply Hsome | by intros -> | by intros H s' ->; rewrite Hrt in H |].
  intros H. destruct (RolloutState.from_db_str str) as [s'|] eqn:E; [|done].
  by destruct (H s' (Hsome s' eq_refl)).
Qed.
