(* ===== verification/Gates.v ===== *)
(** * The dispatch gates

    Models the planner's inputs and outputs
    ([crates/nixfleet-reconciler/src/planner_types.rs]) and the six gates of
    [planner_gates/]: one module per gate, [check] as in the source, and
    [evaluate_for_dispatch], which asks them in order. *)

From S2P Require Import Prelude Proto HostTypes RolloutMachine.
From stdpp Require Import pretty.

(** ** Inputs *)

(** The witness of a verified payload; only [verify_*] builds one. *)
Record Verified (T : Type) := MkVerified {
  inner : T;
  v_signed_at : DateTime;
}.
Arguments MkVerified {T} _ _.
Arguments inner {T} _.
Arguments v_signed_at {T} _.

Record SignedManifestSet := MkSignedManifestSet {
  sms_fleet : Verified FleetResolved;
  sms_rollouts : gmap ChannelId (Verified RolloutManifest);
}.

Definition fleet (m : SignedManifestSet) : FleetResolved := inner (sms_fleet m).

Record RolloutSummary := MkRolloutSummary {
  rs_rollout_id : RolloutId;
  rs_channel : ChannelId;
  rs_target_ref : ChannelRef;
  rs_opened_at : DateTime;
  rs_terminal_at : option DateTime;
  rs_current_wave : u32;
  rs_budgets : list RolloutBudget;
}.
#[export] Instance RolloutSummary_eta : Etaexp RolloutSummary := fun r =>
  MkRolloutSummary (rs_rollout_id r) (rs_channel r) (rs_target_ref r) (rs_opened_at r)
    (rs_terminal_at r) (rs_current_wave r) (rs_budgets r).

Record FleetState := MkFleetState {
  fs_host_states : gmap (RolloutId * HostId) HostRolloutState;
  fs_rollouts : gmap RolloutId RolloutSummary;
  fs_outstanding_failing_enforce_probes : gmap RolloutId (gmap HostId Z);
}.
#[export] Instance FleetState_eta : Etaexp FleetState := fun r =>
  MkFleetState (fs_host_states r) (fs_rollouts r) (fs_outstanding_failing_enforce_probes r).

Abbreviation QuarantineSet := (gmap ChannelId (gset ClosureHash)).

(** ** Why a dispatch is held *)

Module GateBlock.
Inductive t :=
| ChannelEdges (predecessor_channel : string)
| WavePromotion (host_wave current_wave : u32)
| HostUnstaged (channel : string)
| HostEdge (gating_host : string)
| DisruptionBudget (in_flight max : u32) (selector_summary : string)
| ComplianceWave (failing_events_count : Z) (host_wave : u32)
| Quarantined (channel closure_hash : string).

Definition reason (b : t) : string :=
  match b with
  | ChannelEdges predecessor_channel =>
      "channelEdges predecessor channel '" +:+ predecessor_channel +:+ "' not converged"
  | WavePromotion host_wave current_wave =>
      "wave-promotion: host_wave=" +:+ pretty host_wave +:+ " > current_wave=" +:+
      pretty current_wave
  | HostUnstaged channel =>
      "wave-promotion: channel '" +:+ channel +:+
      "' declares waves but this host is not assigned to any of them — fix the fleet declaration or the host's tag/wave selector"
  | HostEdge gating_host => "host-edge: gating host '" +:+ gating_host +:+ "' not yet Converged"
  | DisruptionBudget in_flight max selector_summary =>
      "disruption-budget: " +:+ pretty in_flight +:+ "/" +:+ pretty max +:+ " in flight (" +:+
      selector_summary +:+ ")"
  | ComplianceWave failing_events_count host_wave =>
      "compliance-wave: " +:+ pretty failing_events_count +:+
      " outstanding failure(s) on hosts in wave < " +:+ pretty host_wave
  | Quarantined channel closure_hash =>
      "channel " +:+ channel +:+ " closure " +:+ closure_hash +:+
      " quarantined (sustained probe failures); push a new closure to clear"
  end.

Definition discriminator (b : t) : string :=
  match b with
  | ChannelEdges _ => "channel-edges"
  | WavePromotion _ _ => "wave-promotion"
  | HostUnstaged _ => "wave-promotion-host-unstaged"
  | HostEdge _ => "host-edge"
  | DisruptionBudget _ _ _ => "disruption-budget"
  | ComplianceWave _ _ => "compliance-wave"
  | Quarantined _ _ => "quarantine"
  end.
End GateBlock.
Abbreviation GateBlock := GateBlock.t.

(** The first element on which [f] answers: the loops' early return. *)
Fixpoint find_map {A B} (f : A -> option B) (l : list A) : option B :=
  match l with
  | [] => None
  | x :: l => match f x with Some y => Some y | None => find_map f l end
  end.

(** ** The gates *)

Module quarantine.
Definition check (quarantines : QuarantineSet) (channel : ChannelId)
    (target_closure : ClosureHash) : option GateBlock :=
  match quarantines !! channel with
  | None => None
  | Some set =>
      if bool_decide (target_closure ∈ set)
      then Some (GateBlock.Quarantined channel target_closure)
      else None
  end.
End quarantine.

Module channel_edges.
Definition predecessor_active (fleet_state : FleetState) (manifests : SignedManifestSet)
    (predecessor : ChannelId) : bool :=
  match sms_rollouts manifests !! predecessor with
  | None => false
  | Some rollout_manifest =>
      let rollout_id := rollout_id.new predecessor (rm_channel_ref (inner rollout_manifest)) in
      match fs_rollouts fleet_state !! rollout_id with
      | None => true
      | Some summary => match rs_terminal_at summary with None => true | Some _ => false end
      end
  end.

Definition check (fleet_state : FleetState) (manifests : SignedManifestSet)
    (successor_channel : ChannelId) : option GateBlock :=
  find_map (fun edge =>
      let predecessor := ce_gates edge in
      if predecessor_active fleet_state manifests predecessor
      then Some (GateBlock.ChannelEdges predecessor)
      else None)
    (filter (fun e => ce_gated e = successor_channel) (fr_channel_edges (fleet manifests))).
End channel_edges.

Module wave_promotion.
Definition check (fleet_state : FleetState) (manifests : SignedManifestSet) (host : HostId)
    (rollout_id : RolloutId) : option GateBlock :=
  let fleet := fleet manifests in
  match host_channel <$> fr_hosts fleet !! host with
  | None => None
  | Some channel =>
      match fr_waves fleet !! channel with
      | None | Some [] => None
      | Some waves =>
          match (fun i => u32_wrap (Z.of_nat i)) <$>
                position (fun w => mem_str host (wave_hosts w)) waves with
          | None => Some (GateBlock.HostUnstaged channel)
          | Some host_wave =>
              let current_wave :=
                default 0%Z (rs_current_wave <$> fs_rollouts fleet_state !! rollout_id) in
              if Z.ltb current_wave host_wave
              then Some (GateBlock.WavePromotion host_wave current_wave)
              else None
          end
      end
  end.
End wave_promotion.

Module host_edges.
Definition check (fleet_state : FleetState) (manifests : SignedManifestSet) (host : HostId)
    (rollout_id : RolloutId) : option GateBlock :=
  let fleet := fleet manifests in
  match host_channel <$> fr_hosts fleet !! host with
  | None => None
  | Some channel =>
      find_map (fun edge =>
          let same_channel :=
            default false ((fun h => bool_decide (host_channel h = channel)) <$>
                           fr_hosts fleet !! edge_gates edge) in
          if negb same_channel then None
          else
            let state := hs_state <$> fs_host_states fleet_state !! (rollout_id, edge_gates edge) in
            let ordering_eligible :=
              match state with
              | Some HostState.Converged | Some HostState.Deferred => true
              | _ => false
              end in
            if negb ordering_eligible then Some (GateBlock.HostEdge (edge_gates edge)) else None)
        (filter (fun e => edge_gated e = host) (fr_edges fleet))
  end.
End host_edges.

Module disruption_budget.
Abbreviation BudgetId := Selector (only parsing).

Definition is_in_flight (state : HostState) : bool :=
  match state with HostState.Activating | HostState.Soaking => true | _ => false end.

Section with_order.
Context {O : HashOrder}.

(** [count += 1] on a [u32], over the entries of every rollout that declares a
    budget with this selector. *)
Definition in_flight_count (fleet_state : FleetState) (selector : Selector) : u32 :=
  fold_left (fun count '(rollout_id, summary) =>
      match List.find (fun b => bool_decide (rb_selector b = selector)) (rs_budgets summary) with
      | None => count
      | Some matching_budget =>
          fold_left (fun count '((rid, hostname), state) =>
              if negb (bool_decide (rid = rollout_id)) then count
              else if negb (mem_str hostname (rb_hosts matching_budget)) then count
              else if is_in_flight (hs_state state) then u32_wrap (count + 1)
              else count)
            (hash_iter (fs_host_states fleet_state)) count
      end)
    (hash_iter (fs_rollouts fleet_state)) 0%Z.

Definition check (fleet_state : FleetState) (rollout_id : RolloutId) (host : HostId)
    (tick_dispatched : gmap BudgetId u32) : option GateBlock :=
  match fs_rollouts fleet_state !! rollout_id with
  | None => None
  | Some rollout =>
      find_map (fun budget =>
          if negb (mem_str host (rb_hosts budget)) then None
          else match rb_max_in_flight budget with
          | None => None
          | Some max =>
              let in_flight := in_flight_count fleet_state (rb_selector budget) in
              let pending_this_tick := default 0%Z (tick_dispatched !! rb_selector budget) in
              let total := u32_saturating_add in_flight pending_this_tick in
              if Z.leb max total
              then Some (GateBlock.DisruptionBudget total max
                           (selector.summary (rb_selector budget)))
              else None
          end)
        (rs_budgets rollout)
  end.
End with_order.
End disruption_budget.

Module compliance_wave.
Definition check (fleet_state : FleetState) (manifests : SignedManifestSet) (host : HostId)
    (rollout_id : RolloutId) : option GateBlock :=
  let fleet := fleet manifests in
  match host_channel <$> fr_hosts fleet !! host with
  | None => None
  | Some host_channel =>
      let host_wave_idx :=
        match fr_waves fleet !! host_channel with
        | Some waves => position (fun w => mem_str host (wave_hosts w)) waves
        | None => None
        end in
      match host_wave_idx with
      | Some 0 | None => None
      | Some host_wave =>
          match fr_waves fleet !! host_channel,
                fs_outstanding_failing_enforce_probes fleet_state !! rollout_id with
          | Some waves, Some per_host =>
              let failing_count :=
                fold_left (fun count wave =>
                    fold_left (fun count h =>
                        match per_host !! h with
                        | Some n => if Z.ltb 0 n then u64_wrap (count + n) else count
                        | None => count
                        end) (wave_hosts wave) count)
                  (take host_wave waves) 0%Z in
              if Z.ltb 0 failing_count
              then Some (GateBlock.ComplianceWave failing_count (u32_wrap (Z.of_nat host_wave)))
              else None
          | _, _ => None
          end
      end
  end.
End compliance_wave.

(** ** First block wins *)

Definition evaluate_for_dispatch {O : HashOrder} (fleet_state : FleetState)
    (manifests : SignedManifestSet) (quarantines : QuarantineSet) (rollout_id : RolloutId)
    (host : HostId) (target_closure : ClosureHash) (channel : ChannelId)
    (tick_dispatched : gmap Selector u32) : option GateBlock :=
  match quarantine.check quarantines channel target_closure with
  | Some b => Some b
  | None =>
  match channel_edges.check fleet_state manifests channel with
  | Some b => Some b
  | None =>
  match wave_promotion.check fleet_state manifests host rollout_id with
  | Some b => Some b
  | None =>
  match host_edges.check fleet_state manifests host rollout_id with
  | Some b => Some b
  | None =>
  match disruption_budget.check fleet_state rollout_id host tick_dispatched with
  | Some b => Some b
  | None => compliance_wave.check fleet_state manifests host rollout_id
  end end end end end.
