(* ===== verification/GateProps.v ===== *)
(** * The dispatch gates: what they promise

    A declarative reading of every gate, the theorem that a host is dispatched
    exactly when all of them hold, their precedence, and their independence of
    the order in which hash maps are visited. *)

From S2P Require Import Prelude Proto HostTypes RolloutMachine Gates.

(** ** The declarative reading *)

Definition ordering_eligible (s : HostState) : Prop :=
  s = HostState.Converged \/ s = HostState.Deferred.

(** The predecessor has nothing declared, or its advertised rollout is over. *)
Definition predecessor_done (fs : FleetState) (m : SignedManifestSet) (ch : ChannelId) : Prop :=
  forall rm, sms_rollouts m !! ch = Some rm ->
  exists summary, fs_rollouts fs !! rollout_id.new ch (rm_channel_ref (inner rm)) = Some summary /\
                  is_Some (rs_terminal_at summary).

Definition edges_open (fs : FleetState) (m : SignedManifestSet) (ch : ChannelId) : Prop :=
  forall e, e ∈ fr_channel_edges (fleet m) -> ce_gated e = ch -> predecessor_done fs m (ce_gates e).

Definition current_wave_of (fs : FleetState) (rid : RolloutId) : u32 :=
  default 0%Z (rs_current_wave <$> fs_rollouts fs !! rid).

(** The index of the first wave of the host's channel that lists the host. *)
Definition host_wave_of (m : SignedManifestSet) (host : HostId) : option nat :=
  h ← fr_hosts (fleet m) !! host;
  waves ← fr_waves (fleet m) !! host_channel h;
  position (fun w => mem_str host (wave_hosts w)) waves.

(** A known host of a channel with waves is in one of them, not past the
    rollout's current wave. *)
Definition wave_open (fs : FleetState) (m : SignedManifestSet) (host : HostId) (rid : RolloutId)
    : Prop :=
  forall h waves, fr_hosts (fleet m) !! host = Some h ->
  fr_waves (fleet m) !! host_channel h = Some waves -> waves <> [] ->
  exists i, host_wave_of m host = Some i /\
            (u32_wrap (Z.of_nat i) <= current_wave_of fs rid)%Z.

(** Every host of the same channel that gates this one is done. *)
Definition host_edges_open (fs : FleetState) (m : SignedManifestSet) (host : HostId)
    (rid : RolloutId) : Prop :=
  forall h e g, fr_hosts (fleet m) !! host = Some h ->
  e ∈ fr_edges (fleet m) -> edge_gated e = host ->
  fr_hosts (fleet m) !! edge_gates e = Some g -> host_channel g = host_channel h ->
  exists st, fs_host_states fs !! (rid, edge_gates e) = Some st /\ ordering_eligible (hs_state st).

Definition budgets_open {O : HashOrder} (fs : FleetState) (rid : RolloutId) (host : HostId)
    (tick : gmap Selector u32) : Prop :=
  forall summary b max, fs_rollouts fs !! rid = Some summary ->
  b ∈ rs_budgets summary -> host ∈ rb_hosts b -> rb_max_in_flight b = Some max ->
  (u32_saturating_add (disruption_budget.in_flight_count fs (rb_selector b))
     (default 0 (tick !! rb_selector b)) < max)%Z.

(** The outstanding enforce failures of the hosts in the first [n] waves. *)
Definition earlier_failures (per_host : gmap HostId Z) (waves : list Wave) (n : nat) : Z :=
  fold_left (fun count h => match per_host !! h with
                            | Some k => if Z.ltb 0 k then u64_wrap (count + k) else count
                            | None => count
                            end)
    (concat (map wave_hosts (take n waves))) 0%Z.

Definition compliance_open (fs : FleetState) (m : SignedManifestSet) (host : HostId)
    (rid : RolloutId) : Prop :=
  forall h waves i per_host, fr_hosts (fleet m) !! host = Some h ->
  fr_waves (fleet m) !! host_channel h = Some waves ->
  host_wave_of m host = Some i -> 0 < i ->
  fs_outstanding_failing_enforce_probes fs !! rid = Some per_host ->
  (earlier_failures per_host waves i <= 0)%Z.

Definition not_quarantined (q : QuarantineSet) (ch : ChannelId) (c : ClosureHash) : Prop :=
  forall set, q !! ch = Some set -> c ∉ set.

Definition dispatch_allowed {O : HashOrder} (fs : FleetState) (m : SignedManifestSet)
    (q : QuarantineSet) (rid : RolloutId) (host : HostId) (target : ClosureHash) (ch : ChannelId)
    (tick : gmap Selector u32) : Prop :=
  not_quarantined q ch target /\ edges_open fs m ch /\ wave_open fs m host rid /\
  host_edges_open fs m host rid /\ budgets_open fs rid host tick /\ compliance_open fs m host rid.

(** ** Lemmas *)

Lemma find_map_None {A B} (f : A -> option B) l :
  find_map f l = None <-> forall x, x ∈ l -> f x = None.
Proof.
  induction l as [|x l IH]; simpl.
  - split; [intros _ x Hx; by apply elem_of_nil in Hx | done].
  - destruct (f x) eqn:E.
    + split; [done|]. intros H. rewrite (H x) in E; [done|by left].
    + rewrite IH. split; [intros H y [->|Hy]%elem_of_cons; auto | intros H y Hy; apply H; by right].
Qed.

Lemma quarantine_open q ch c : quarantine.check q ch c = None <-> not_quarantined q ch c.
Proof.
  unfold quarantine.check, not_quarantined. destruct (q !! ch) as [s|].
  - case_bool as [Hin|Hin]; split; try done.
    + intros H. by destruct (H s eq_refl).
    + by intros _ ? [= <-].
  - by split.
Qed.

Lemma predecessor_active_spec fs m ch :
  channel_edges.predecessor_active fs m ch = false <-> predecessor_done fs m ch.
Proof.
  unfold channel_edges.predecessor_active, predecessor_done.
  destruct (sms_rollouts m !! ch) as [rm|]; [|by split].
  destruct (fs_rollouts fs !! _) as [s|] eqn:E.
  - destruct (rs_terminal_at s) eqn:Et; split; try done.
    + intros _ ? [= <-]. rewrite E. exists s. by rewrite Et.
    + intros H. destruct (H rm eq_refl) as (s' & E' & [? Hs]). congruence.
  - split; [done|]. intros H. destruct (H rm eq_refl) as (s' & E' & _). congruence.
Qed.

Lemma channel_edges_open fs m ch : channel_edges.check fs m ch = None <-> edges_open fs m ch.
Proof.
  unfold channel_edges.check, edges_open. rewrite find_map_None. split.
  - intros H e Hin Hg. apply predecessor_active_spec.
    specialize (H e (proj2 (list_elem_of_filter _ _ _) (conj Hg Hin))).
    by destruct (channel_edges.predecessor_active _ _ _).
  - intros H e [Hg Hin]%list_elem_of_filter.
    by rewrite (proj2 (predecessor_active_spec _ _ _) (H e Hin Hg)).
Qed.

Lemma wave_promotion_open fs m host rid :
  wave_promotion.check fs m host rid = None <-> wave_open fs m host rid.
Proof.
  unfold wave_promotion.check, wave_open, host_wave_of. fold (current_wave_of fs rid).
  destruct (fr_hosts (fleet m) !! host) as [h|]; simpl; [|by split].
  destruct (fr_waves (fleet m) !! host_channel h) as [[|w ws]|] eqn:Ew; simpl.
  - split; [|done]. intros _ ? ? [= <-] E. rewrite Ew in E. by injection E as <-.
  - destruct (position _ (w :: ws)) as [i|] eqn:Ep; simpl.
    + destruct (Z.ltb_spec (current_wave_of fs rid) (u32_wrap (Z.of_nat i))); split; try done.
      * intros H'. destruct (H' h (w :: ws) eq_refl Ew) as (j & Ej & Hj); [done|].
        simpl in Ej. injection Ej as <-. lia.
      * intros _ ? ? [= <-] _ _. by exists i.
    + split; [done|]. intros H'. destruct (H' h (w :: ws) eq_refl Ew) as (j & Ej & _); [done|].
      by simpl in Ej.
  - split; [|done]. intros _ ? ? [= <-] E. by rewrite Ew in E.
Qed.

Lemma host_edges_spec fs m host rid :
  host_edges.check fs m host rid = None <-> host_edges_open fs m host rid.
Proof.
  unfold host_edges.check, host_edges_open.
  destruct (fr_hosts (fleet m) !! host) as [h|]; simpl; [|by split].
  rewrite find_map_None. split.
  - intros H ? e g [= <-] Hin Hg Hgates Hch.
    specialize (H e (proj2 (list_elem_of_filter _ _ _) (conj Hg Hin))).
    rewrite Hgates in H. simpl in H. rewrite bool_decide_eq_true_2 in H by done. simpl in H.
    destruct (fs_host_states fs !! (rid, edge_gates e)) as [st|]; simpl in H; [|done].
    exists st. split; [done|]. unfold ordering_eligible.
    destruct (hs_state st); simpl in H; try discriminate H; auto.
  - intros H e [Hg Hin]%list_elem_of_filter.
    destruct (fr_hosts (fleet m) !! edge_gates e) as [g|] eqn:Eg; simpl; [|done].
    case_bool as [Hch|Hch]; simpl; [|done].
    destruct (H h e g eq_refl Hin Hg Eg Hch) as (st & -> & Hel). simpl.
    by destruct Hel as [-> | ->].
Qed.

Lemma disruption_budget_open {O : HashOrder} fs rid host tick :
  disruption_budget.check fs rid host tick = None <-> budgets_open fs rid host tick.
Proof.
  unfold disruption_budget.check, budgets_open.
  destruct (fs_rollouts fs !! rid) as [s|]; [|by split].
  rewrite find_map_None. split.
  - intros H ? b max [= <-] Hb Hh Hm. specialize (H b Hb).
    rewrite (proj2 (mem_str_spec _ _) Hh), Hm in H. simpl in H.
    destruct (Z.leb_spec max (u32_saturating_add
      (disruption_budget.in_flight_count fs (rb_selector b)) (default 0 (tick !! rb_selector b))%Z));
      [done|lia].
  - intros H b Hb. destruct (mem_str host (rb_hosts b)) eqn:Eh; simpl; [|done].
    destruct (rb_max_in_flight b) as [max|] eqn:Em; [|done].
    specialize (H s b max eq_refl Hb (proj1 (mem_str_spec _ _) Eh) Em).
    by rewrite (proj2 (Z.leb_gt _ _) H).
Qed.

Lemma fold_left_concat {A B} (f : A -> B -> A) (ls : list (list B)) (a : A) :
  fold_left f (concat ls) a = fold_left (fun a l => fold_left f l a) ls a.
Proof. revert a. induction ls as [|l ls IH]; intros a; simpl; [done|]. by rewrite fold_left_app. Qed.

Lemma fold_left_map {A B C} (f : A -> C -> A) (g : B -> C) (l : list B) (a : A) :
  fold_left f (map g l) a = fold_left (fun a x => f a (g x)) l a.
Proof. revert a. induction l as [|x l IH]; intros a; simpl; done. Qed.

Lemma compliance_open_spec fs m host rid :
  compliance_wave.check fs m host rid = None <-> compliance_open fs m host rid.
Proof.
  unfold compliance_wave.check, compliance_open, host_wave_of.
  destruct (fr_hosts (fleet m) !! host) as [h|]; simpl; [|by split].
  destruct (fr_waves (fleet m) !! host_channel h) as [ws|] eqn:Ews; simpl.
  2: { split; [|done]. intros _ ? ? ? ? [= <-] E. by rewrite Ews in E. }
  destruct (position _ ws) as [[|n]|] eqn:Ep; simpl.
  - split; [|done]. intros _ ? ? i ? [= <-] ? [= <-]. lia.
  - destruct (fs_outstanding_failing_enforce_probes fs !! rid) as [per|]; [|by split].
    set (total := fold_left _ (take (S n) ws) 0%Z).
    assert (Ht : total = earlier_failures per ws (S n)).
    { unfold earlier_failures. by rewrite fold_left_concat, fold_left_map. }
    rewrite Ht. destruct (Z.ltb_spec 0 (earlier_failures per ws (S n))); split; try done.
    + intros H'. specialize (H' h ws (S n) per eq_refl Ews eq_refl ltac:(lia) eq_refl). lia.
    + intros _ ? ? i ? [= <-] E [= <-] _ [= <-]. rewrite Ews in E. by injection E as <-.
  - split; [|done]. by intros _ ? ? i ? [= <-] ? E.
Qed.

Lemma evaluate_allowed {O : HashOrder} fs m q rid host target ch tick :
  evaluate_for_dispatch fs m q rid host target ch tick = None <->
  dispatch_allowed fs m q rid host target ch tick.
Proof.
  unfold evaluate_for_dispatch, dispatch_allowed.
  rewrite <- quarantine_open, <- channel_edges_open, <- wave_promotion_open, <- host_edges_spec,
    <- disruption_budget_open, <- compliance_open_spec.
  repeat (case_match; [by split; [|intros; destruct_and?; congruence]|]).
  split; [by intros ->; split_and! | by intros (_ & _ & _ & _ & _ & ?)].
Qed.

(** What each gate reports when it blocks. *)

Lemma find_map_Some {A B} (f : A -> option B) l y :
  find_map f l = Some y -> exists x, x ∈ l /\ f x = Some y.
Proof.
  induction l as [|x l IH]; simpl; [done|]. destruct (f x) eqn:E.
  - intros [= <-]. exists x. split; [by left|done].
  - intros H. destruct (IH H) as (z & ? & ?). exists z. split; [by right|done].
Qed.

Lemma quarantine_blocks q ch c b :
  quarantine.check q ch c = Some b -> b = GateBlock.Quarantined ch c /\ ~ not_quarantined q ch c.
Proof.
  intros H. split.
  - unfold quarantine.check in H. repeat case_match; by simplify_eq.
  - intros Hn%quarantine_open. congruence.
Qed.

Lemma channel_edges_blocks fs m ch b :
  channel_edges.check fs m ch = Some b ->
  exists e, b = GateBlock.ChannelEdges (ce_gates e) /\ ~ predecessor_done fs m (ce_gates e) /\
            e ∈ fr_channel_edges (fleet m) /\ ce_gated e = ch.
Proof.
  intros (e & [Hg Hin]%list_elem_of_filter & He)%find_map_Some.
  simpl in He. destruct (channel_edges.predecessor_active _ _ _) eqn:Ep; [|done]. injection He as <-.
  exists e. split_and!; [done| |done..]. rewrite <- predecessor_active_spec. congruence.
Qed.

Lemma wave_promotion_blocks fs m host rid b :
  wave_promotion.check fs m host rid = Some b ->
  (exists c, b = GateBlock.HostUnstaged c) /\ host_wave_of m host = None \/
  exists hw, b = GateBlock.WavePromotion hw (current_wave_of fs rid) /\
    (current_wave_of fs rid < hw)%Z /\
    exists i, host_wave_of m host = Some i /\ hw = u32_wrap (Z.of_nat i).
Proof.
  unfold wave_promotion.check, host_wave_of. fold (current_wave_of fs rid).
  destruct (fr_hosts (fleet m) !! host) as [h|]; simpl; [|done].
  destruct (fr_waves (fleet m) !! host_channel h) as [[|w ws]|]; simpl; [done| |done].
  destruct (position _ (w :: ws)) as [i|]; simpl; [|intros [= <-]; eauto].
  destruct (Z.ltb_spec (current_wave_of fs rid) (u32_wrap (Z.of_nat i))); [|done].
  intros [= <-]. right. eauto 8.
Qed.

Lemma host_edges_blocks fs m host rid b :
  host_edges.check fs m host rid = Some b ->
  exists g, b = GateBlock.HostEdge g /\
    forall st, fs_host_states fs !! (rid, g) = Some st -> ~ ordering_eligible (hs_state st).
Proof.
  unfold host_edges.check. destruct (host_channel <$> _) as [c|]; [|done].
  intros (e & _ & He)%find_map_Some. destruct (negb _); [done|].
  destruct (fs_host_states fs !! (rid, edge_gates e)) as [st|] eqn:Est; simpl in He.
  - destruct (hs_state st) eqn:Es; simpl in He; try discriminate He; injection He as <-.
    all: exists (edge_gates e); split; [done|]; intros st'; rewrite Est; intros [= <-];
      rewrite Es; by intros [[=]|[=]].
  - injection He as <-. exists (edge_gates e). split; [done|]. intros st'. by rewrite Est.
Qed.

Lemma disruption_budget_blocks {O : HashOrder} fs rid host tick b :
  disruption_budget.check fs rid host tick = Some b ->
  exists n max s, b = GateBlock.DisruptionBudget n max s /\ (max <= n)%Z.
Proof.
  unfold disruption_budget.check. destruct (fs_rollouts fs !! rid) as [s|]; [|done].
  intros (x & _ & Hx)%find_map_Some. repeat (case_match; try done). simplify_eq.
  do 3 eexists. split; [done|]. by apply Z.leb_le.
Qed.

Lemma compliance_wave_blocks fs m host rid b :
  compliance_wave.check fs m host rid = Some b ->
  exists n w, b = GateBlock.ComplianceWave n w /\ (0 < n)%Z.
Proof.
  unfold compliance_wave.check. intros H. repeat (case_match; try done). simplify_eq.
  do 2 eexists. split; [done|]. by apply Z.ltb_lt.
Qed.

(** ** In-flight counts do not depend on the iteration order *)

Definition counts_in_flight (rid : RolloutId) (b : RolloutBudget)
    (e : (RolloutId * HostId) * HostRolloutState) : bool :=
  bool_decide (e.1.1 = rid) && mem_str e.1.2 (rb_hosts b) &&
  disruption_budget.is_in_flight (hs_state e.2).

(** How many entries the count visits, over the entries in list order. *)
Definition in_flight_number (fs : FleetState) (sel : Selector) : nat :=
  sum_list_with (fun '(rid, summary) =>
      match List.find (fun b => bool_decide (rb_selector b = sel)) (rs_budgets summary) with
      | None => 0
      | Some b => length (List.filter (counts_in_flight rid b) (map_to_list (fs_host_states fs)))
      end)
    (map_to_list (fs_rollouts fs)).

Lemma u32_wrap_add (a b : Z) : u32_wrap (u32_wrap a + b) = u32_wrap (a + b).
Proof. unfold u32_wrap. by rewrite Zplus_mod_idemp_l. Qed.

Lemma List_filter_perm {A} (f : A -> bool) (l l' : list A) :
  l ≡ₚ l' -> length (List.filter f l) = length (List.filter f l').
Proof. induction 1; simpl; repeat case_match; simpl; congruence. Qed.

Lemma sum_list_with_perm {A} (f : A -> nat) (l l' : list A) :
  l ≡ₚ l' -> sum_list_with f l = sum_list_with f l'.
Proof. induction 1; simpl; lia. Qed.

Lemma inner_count rid b l z :
  fold_left (fun (count : u32) '((rid', hostname), state) =>
      if negb (bool_decide (rid' = rid)) then count
      else if negb (mem_str hostname (rb_hosts b)) then count
      else if disruption_budget.is_in_flight (hs_state state) then u32_wrap (count + 1)
      else count) l (u32_wrap z) =
  u32_wrap (z + Z.of_nat (length (List.filter (counts_in_flight rid b) l))).
Proof.
  revert z. induction l as [|[[rid' h] st] l IH]; intros z; [simpl; f_equal; lia|].
  cbn [fold_left List.filter]. unfold counts_in_flight at 1. simpl fst. simpl snd.
  destruct (bool_decide (rid' = rid)), (mem_str h (rb_hosts b)),
    (disruption_budget.is_in_flight (hs_state st)); cbn [negb andb]; rewrite ?IH; try done.
  rewrite <- Z.add_assoc, u32_wrap_add. cbn [length]. f_equal. lia.
Qed.

Lemma in_flight_count_number {O : HashOrder} fs sel :
  disruption_budget.in_flight_count fs sel = u32_wrap (Z.of_nat (in_flight_number fs sel)).
Proof.
  unfold disruption_budget.in_flight_count, in_flight_number.
  rewrite <- (sum_list_with_perm _ _ _ (hash_iter_perm (fs_rollouts fs))).
  change 0%Z with (u32_wrap 0) at 1. generalize (hash_iter (fs_rollouts fs)). intros l.
  rewrite <- (Z.add_0_l (Z.of_nat _)). generalize 0%Z.
  induction l as [|[rid s] l IH]; intros z; cbn [fold_left sum_list_with]; [f_equal; lia|].
  destruct (List.find _ (rs_budgets s)) as [b|].
  - rewrite inner_count, IH. f_equal.
    rewrite (List_filter_perm _ _ _ (hash_iter_perm (fs_host_states fs))). lia.
  - rewrite IH. f_equal.
Qed.

Lemma in_flight_count_nonneg {O : HashOrder} fs sel :
  (0 <= disruption_budget.in_flight_count fs sel)%Z.
Proof. rewrite in_flight_count_number. unfold u32_wrap. by apply Z.mod_pos_bound. Qed.

Lemma find_map_ext {A B} (f g : A -> option B) l :
  (forall x, f x = g x) -> find_map f l = find_map g l.
Proof. intros H. induction l as [|x l IH]; simpl; [done|]. by rewrite H, IH. Qed.

Lemma evaluate_order_irrelevant (O1 O2 : HashOrder) fs m q rid host target ch tick :
  evaluate_for_dispatch (O := O1) fs m q rid host target ch tick =
  evaluate_for_dispatch (O := O2) fs m q rid host target ch tick.
Proof.
  unfold evaluate_for_dispatch. repeat (case_match; [done|]).
  assert (E : disruption_budget.check (O := O1) fs rid host tick =
              disruption_budget.check (O := O2) fs rid host tick).
  { unfold disruption_budget.check. destruct (fs_rollouts fs !! rid); [|done].
    apply find_map_ext. intros b. by rewrite !in_flight_count_number. }
  by rewrite E.
Qed.

(** ** Properties *)

(** C32.  The gates, read as conditions: a host is let through exactly when its
    target is not quarantined on its channel, every predecessor channel has
    nothing declared or a finished rollout, its wave has been reached, every
    host of its channel that gates it is converged or deferred, every budget
    that contains it and has [maxInFlight] has room for one more after the
    dispatches of this tick, and no host of an earlier wave has an outstanding
    enforce failure.  These are the conditions of the code; RFC-0002 (4.1 to 4.3)
    words some of them differently. *)
Theorem dispatch_iff_gates_open {O : HashOrder} (fs : FleetState) (m : SignedManifestSet)
    (q : QuarantineSet) (rid : RolloutId) (host : HostId) (target : ClosureHash)
    (ch : ChannelId) (tick : gmap Selector u32) :
  evaluate_for_dispatch fs m q rid host target ch tick = None <->
  not_quarantined q ch target /\ edges_open fs m ch /\ wave_open fs m host rid /\
  host_edges_open fs m host rid /\ budgets_open fs rid host tick /\
  compliance_open fs m host rid.
Proof. apply evaluate_allowed. Qed.

(** The reported block is the first that applies: a quarantined target is
    reported as such whatever the other gates say, and a block of any other
    kind means every gate asked before it is open and the reported condition
    holds.  The answer does not depend on the order in which hash maps are
    visited. *)
Theorem block_is_first_failing_gate (O1 O2 : HashOrder) (fs : FleetState) (m : SignedManifestSet)
    (q : QuarantineSet) (rid : RolloutId) (host : HostId) (target : ClosureHash)
    (ch : ChannelId) (tick : gmap Selector u32) :
  evaluate_for_dispatch (O := O1) fs m q rid host target ch tick =
    evaluate_for_dispatch (O := O2) fs m q rid host target ch tick /\
  (~ not_quarantined q ch target ->
   evaluate_for_dispatch fs m q rid host target ch tick = Some (GateBlock.Quarantined ch target)) /\
  match evaluate_for_dispatch fs m q rid host target ch tick with
  | None => True
  | Some (GateBlock.Quarantined c h) => c = ch /\ h = target /\ ~ not_quarantined q ch target
  | Some (GateBlock.ChannelEdges p) =>
      not_quarantined q ch target /\ ~ predecessor_done fs m p /\
      exists e, e ∈ fr_channel_edges (fleet m) /\ ce_gated e = ch /\ ce_gates e = p
  | Some (GateBlock.WavePromotion hw cw) =>
      not_quarantined q ch target /\ edges_open fs m ch /\
      cw = current_wave_of fs rid /\ (cw < hw)%Z /\
      exists i, host_wave_of m host = Some i /\ hw = u32_wrap (Z.of_nat i)
  | Some (GateBlock.HostUnstaged c) =>
      not_quarantined q ch target /\ edges_open fs m ch /\ host_wave_of m host = None
  | Some (GateBlock.HostEdge g) =>
      not_quarantined q ch target /\ edges_open fs m ch /\ wave_open fs m host rid /\
      (forall st, fs_host_states fs !! (rid, g) = Some st -> ~ ordering_eligible (hs_state st))
  | Some (GateBlock.DisruptionBudget n max _) =>
      not_quarantined q ch target /\ edges_open fs m ch /\ wave_open fs m host rid /\
      host_edges_open fs m host rid /\ (max <= n)%Z
  | Some (GateBlock.ComplianceWave n _) =>
      not_quarantined q ch target /\ edges_open fs m ch /\ wave_open fs m host rid /\
      host_edges_open fs m host rid /\ budgets_open fs rid host tick /\ (0 < n)%Z
  end.
Proof.
  split; [apply evaluate_order_irrelevant|].
  unfold evaluate_for_dispatch.
  destruct (quarantine.check q ch target) as [b|] eqn:Eq.
  { apply quarantine_blocks in Eq as [-> Hq]. by split_and!. }
  apply quarantine_open in Eq. split; [done|].
  destruct (channel_edges.check fs m ch) as [b|] eqn:Ec.
  { apply channel_edges_blocks in Ec as (e & -> & ? & ? & ?). eauto 8. }
  apply channel_edges_open in Ec.
  destruct (wave_promotion.check fs m host rid) as [b|] eqn:Ew.
  { apply wave_promotion_blocks in Ew as [[[c ->] ?] | (hw & -> & ? & ?)]; by split_and!. }
  apply wave_promotion_open in Ew.
  destruct (host_edges.check fs m host rid) as [b|] eqn:Eh.
  { apply host_edges_blocks in Eh as (g & -> & ?). by split_and!. }
  apply host_edges_spec in Eh.
  destruct (disruption_budget.check fs rid host tick) as [b|] eqn:Ed.
  { apply disruption_budget_blocks in Ed as (n & max & s & -> & ?). by split_and!. }
  apply disruption_budget_open in Ed.
  destruct (compliance_wave.check fs m host rid) as [b|] eqn:Ep; [|done].
  apply compliance_wave_blocks in Ep as (n & w & -> & ?). by split_and!.
Qed.
