(* ===== verification/Planner.v ===== *)
(** * The planner

    Models [crates/nixfleet-reconciler/src/planner.rs]: the actions, the pure
    function [plan_next] with its within-tick budget accumulator, the soak
    deadline and the host lookup.  Both loops visit hash maps, so the planner
    is a function of the iteration order. *)

From S2P Require Import Prelude Proto HostTypes RolloutMachine Gates.

Module PlanAction.
Inductive t :=
| OpenRollout (rollout_id : RolloutId) (channel : ChannelId) (target_ref : ChannelRef)
| QueueDispatch (host : HostId) (rollout : RolloutId) (target_closure : ClosureHash)
    (soak_due_at : DateTime)
| RecordHaltLifted (channel : ChannelId)
| DeferDispatch (host : HostId) (rollout : RolloutId) (gate reason : string).
End PlanAction.
Abbreviation PlanAction := PlanAction.t.

Definition compute_soak_due_at (dispatched_at : DateTime) (soak_minutes : u32) : DateTime :=
  (dispatched_at + duration_minutes soak_minutes)%Z.

Section planner.
Context {O : HashOrder}.
Variable manifests : SignedManifestSet.
Variable fleet_state : FleetState.
Variable quarantines : QuarantineSet.
Variable now : DateTime.

(** Section 1 of the source: channels whose advertised ref has no rollout row. *)
Definition open_actions : list PlanAction :=
  omap (fun '(channel, rollout_manifest) =>
      let channel_ref := rm_channel_ref (inner rollout_manifest) in
      let rollout_id := rollout_id.new channel channel_ref in
      match fs_rollouts fleet_state !! rollout_id with
      | None => Some (PlanAction.OpenRollout rollout_id channel channel_ref)
      | Some _ => None
      end)
    (hash_iter (sms_rollouts manifests)).

(** [*tick_dispatched.entry(budget.selector.clone()).or_insert(0) += 1] for
    every budget the host belongs to. *)
Definition bump_budgets (budgets : list RolloutBudget) (host : HostId)
    (tick_dispatched : gmap Selector u32) : gmap Selector u32 :=
  fold_left (fun tick budget =>
      if mem_str host (rb_hosts budget)
      then <[ rb_selector budget := u32_wrap (default 0%Z (tick !! rb_selector budget) + 1) ]> tick
      else tick)
    budgets tick_dispatched.

(** One entry of [host_states] under one rollout: the body of the inner loop. *)
Definition plan_host (rollout_id : RolloutId) (summary : RolloutSummary)
    (acc : gmap Selector u32 * list PlanAction) (entry : (RolloutId * HostId) * HostRolloutState)
    : gmap Selector u32 * list PlanAction :=
  let '(tick_dispatched, actions) := acc in
  let '((rid, host), state) := entry in
  if negb (bool_decide (rid = rollout_id)) then acc
  else if negb (bool_decide (hs_state state = HostState.Pending)) then acc
  else match hs_dispatch_acked_at state with
  | Some _ => acc
  | None =>
      let target_closure := hs_target_closure state in
      match evaluate_for_dispatch fleet_state manifests quarantines rollout_id host target_closure
              (rs_channel summary) tick_dispatched with
      | Some b =>
          (tick_dispatched,
           actions ++ [PlanAction.DeferDispatch host rollout_id (GateBlock.discriminator b)
                         (GateBlock.reason b)])
      | None =>
          (bump_budgets (rs_budgets summary) host tick_dispatched,
           actions ++ [PlanAction.QueueDispatch host rollout_id target_closure
                         (default now (hs_soak_due_at state))])
      end
  end.

(** One rollout: the body of the outer loop. *)
Definition plan_rollout (acc : gmap Selector u32 * list PlanAction)
    (entry : RolloutId * RolloutSummary) : gmap Selector u32 * list PlanAction :=
  let '(rollout_id, summary) := entry in
  match rs_terminal_at summary with
  | Some _ => acc
  | None => fold_left (plan_host rollout_id summary) (hash_iter (fs_host_states fleet_state)) acc
  end.

Definition plan_next : list PlanAction :=
  let actions := open_actions in
  (fold_left plan_rollout (hash_iter (fs_rollouts fleet_state)) (∅, actions)).2.

(** [host_states.iter().find(..)]. *)
Definition active_rollout_for_host (host_id : HostId) : option RolloutId :=
  (fun '((rid, _), _) => rid) <$>
  List.find (fun '((_, h), _) => bool_decide (h = host_id)) (hash_iter (fs_host_states fleet_state)).

End planner.
