(* ===== verification/PlannerProps.v ===== *)
(** * The planner: what it promises

    For every iteration order: which actions a plan holds, that every waiting
    host gets exactly one, that a queued dispatch has passed the gates, and that
    a plan never takes a budget past its limit. *)

From S2P Require Import Prelude Proto HostTypes RolloutMachine Gates GateProps Planner.

Section planner_lemmas.
Context {O : HashOrder}.
Variable m : SignedManifestSet.
Variable fs : FleetState.
Variable q : QuarantineSet.
Variable now : DateTime.

Let plan := plan_next m fs q now.

(** A host the planner must decide about. *)
Definition waiting (rid : RolloutId) (host : HostId) (summary : RolloutSummary)
    (st : HostRolloutState) : Prop :=
  fs_rollouts fs !! rid = Some summary /\ rs_terminal_at summary = None /\
  fs_host_states fs !! (rid, host) = Some st /\
  hs_state st = HostState.Pending /\ hs_dispatch_acked_at st = None.

(** The host an action is about. *)
Definition action_key (a : PlanAction) : option (RolloutId * HostId) :=
  match a with
  | PlanAction.QueueDispatch h r _ _ | PlanAction.DeferDispatch h r _ _ => Some (r, h)
  | _ => None
  end.

Definition entry_waits (rid : RolloutId) (e : (RolloutId * HostId) * HostRolloutState) : Prop :=
  e.1.1 = rid /\ hs_state e.2 = HostState.Pending /\ hs_dispatch_acked_at e.2 = None.

Definition rollout_keys (e : RolloutId * RolloutSummary) : list (RolloutId * HostId) :=
  match rs_terminal_at e.2 with
  | Some _ => []
  | None => (filter (entry_waits e.1) (hash_iter (fs_host_states fs))).*1
  end.

(** ** Induction over the decisions of a plan *)

Lemma plan_host_skip rid summary acc e :
  ~ entry_waits rid e -> plan_host m fs q now rid summary acc e = acc.
Proof.
  destruct acc as [tick acts], e as [[rid' h] st]. unfold entry_waits, plan_host. simpl. intros H.
  repeat case_bool; simpl; try done. destruct (hs_dispatch_acked_at st); [done|]. by destruct H.
Qed.

Lemma plan_ind (P : gmap Selector u32 * list PlanAction -> Prop) :
  P (∅, open_actions m fs) ->
  (forall acc rid summary host st, P acc -> waiting rid host summary st ->
     P (plan_host m fs q now rid summary acc ((rid, host), st))) ->
  P (fold_left (plan_rollout m fs q now) (hash_iter (fs_rollouts fs)) (∅, open_actions m fs)).
Proof.
  intros H0 Hstep.
  assert (Hin : forall e, e ∈ hash_iter (fs_rollouts fs) -> fs_rollouts fs !! e.1 = Some e.2).
  { intros [rid s] He. by apply elem_of_hash_iter. }
  revert H0 Hin. generalize (∅ : gmap Selector u32, open_actions m fs).
  induction (hash_iter (fs_rollouts fs)) as [|[rid s] l IH]; intros acc H0 Hin; simpl; [done|].
  apply IH; [|intros e He; apply Hin; by right].
  pose proof (Hin _ ltac:(by left)) as Hr. simpl in Hr.
  destruct (rs_terminal_at s) eqn:Et; [done|].
  assert (Hin2 : forall e, e ∈ hash_iter (fs_host_states fs) -> fs_host_states fs !! e.1 = Some e.2).
  { intros [k st] He. by apply elem_of_hash_iter. }
  clear IH Hin. revert acc H0.
  induction (hash_iter (fs_host_states fs)) as [|[[rid' h] st] l' IH']; intros acc H0; simpl; [done|].
  apply IH'; [intros e He; apply Hin2; by right|].
  destruct (decide (entry_waits rid ((rid', h), st))) as [(E & Hp & Ha)|Hn].
  - simpl in *. subst rid'. apply Hstep; [done|].
    pose proof (Hin2 _ ltac:(by left)) as Hs. by split_and!.
  - by rewrite plan_host_skip.
Qed.

Lemma plan_host_decision rid summary tick acts host st :
  waiting rid host summary st ->
  plan_host m fs q now rid summary (tick, acts) ((rid, host), st) =
  match evaluate_for_dispatch fs m q rid host (hs_target_closure st) (rs_channel summary) tick with
  | Some b =>
      (tick, acts ++ [PlanAction.DeferDispatch host rid (GateBlock.discriminator b)
                        (GateBlock.reason b)])
  | None =>
      (bump_budgets (rs_budgets summary) host tick,
       acts ++ [PlanAction.QueueDispatch host rid (hs_target_closure st)
                  (default now (hs_soak_due_at st))])
  end.
Proof.
  intros (_ & _ & _ & Hp & Ha). unfold plan_host.
  by rewrite !bool_decide_eq_true_2, Ha by done.
Qed.

(** ** One action per waiting host *)

Lemma inner_keys rid summary l acc :
  omap action_key (fold_left (plan_host m fs q now rid summary) l acc).2 =
  omap action_key acc.2 ++ (filter (entry_waits rid) l).*1.
Proof.
  revert acc. induction l as [|[[rid' h] st] l IH]; intros [tick acts]; cbn [fold_left].
  - by rewrite app_nil_r.
  - rewrite IH. destruct (decide (entry_waits rid ((rid', h), st))) as [Hw|Hn].
    + rewrite filter_cons_True by done. destruct Hw as (E & Hp & Ha). simpl in *. subst rid'.
      unfold plan_host. rewrite !bool_decide_eq_true_2, Ha by done. simpl.
      destruct (evaluate_for_dispatch _ _ _ _ _ _ _ _); simpl;
        by rewrite omap_app, <- app_assoc.
    + by rewrite filter_cons_False, plan_host_skip by done.
Qed.

Lemma plan_keys : omap action_key plan = concat (map rollout_keys (hash_iter (fs_rollouts fs))).
Proof.
  subst plan. unfold plan_next.
  assert (Hopen : omap action_key (open_actions m fs) = []).
  { unfold open_actions. induction (hash_iter (sms_rollouts m)) as [|[ch rm] l IH]; simpl; [done|].
    by destruct (fs_rollouts fs !! _). }
  rewrite <- (app_nil_l (concat _)), <- Hopen. change (open_actions m fs) with
    ((∅ : gmap Selector u32, open_actions m fs).2) at 2.
  generalize (∅ : gmap Selector u32, open_actions m fs).
  induction (hash_iter (fs_rollouts fs)) as [|[rid s] l IH]; intros acc; simpl.
  - by rewrite app_nil_r.
  - rewrite IH, app_assoc. f_equal. unfold rollout_keys. simpl.
    destruct (rs_terminal_at s); simpl; [by rewrite app_nil_r|]. apply inner_keys.
Qed.

Lemma rollout_keys_spec e k :
  k ∈ rollout_keys e -> k.1 = e.1.
Proof.
  unfold rollout_keys. destruct (rs_terminal_at e.2); [by intros ?%elem_of_nil|].
  intros (x & -> & [Hw _]%list_elem_of_filter)%list_elem_of_fmap. by destruct Hw.
Qed.

Lemma NoDup_keys : NoDup (omap action_key plan).
Proof.
  rewrite plan_keys. pose proof (NoDup_fst_hash_iter (fs_rollouts fs)) as Hnd.
  induction (hash_iter (fs_rollouts fs)) as [|e l IH]; simpl; [constructor|].
  apply NoDup_cons in Hnd as [Hni Hnd]. apply NoDup_app. split_and!; [|..|by apply IH].
  - unfold rollout_keys. destruct (rs_terminal_at e.2); [constructor|].
    eapply sublist_NoDup; [apply (NoDup_fst_hash_iter (fs_host_states fs))|].
    apply fmap_sublist, sublist_filter.
  - intros k Hk Hk2. apply rollout_keys_spec in Hk.
    apply list_elem_of_In, in_concat in Hk2 as (ks & Hks & Hk2).
    apply in_map_iff in Hks as (e' & <- & He'). apply list_elem_of_In, rollout_keys_spec in Hk2.
    apply Hni. rewrite <- Hk, Hk2. apply list_elem_of_fmap_2, list_elem_of_In, He'.
Qed.

Lemma elem_of_keys rid host :
  (rid, host) ∈ omap action_key plan <-> exists summary st, waiting rid host summary st.
Proof.
  rewrite plan_keys, list_elem_of_In, in_concat. split.
  - intros (ks & (e & <- & He)%in_map_iff & Hk). apply list_elem_of_In in Hk, He.
    destruct e as [rid' s]. apply elem_of_hash_iter in He.
    pose proof (rollout_keys_spec _ _ Hk) as E. simpl in E. subst rid'.
    unfold rollout_keys in Hk. simpl in Hk. destruct (rs_terminal_at s) eqn:Et;
      [by apply elem_of_nil in Hk|].
    apply list_elem_of_fmap in Hk as ([k st] & E & [(_ & ? & ?) Hin]%list_elem_of_filter).
    simpl in *. subst k. apply elem_of_hash_iter in Hin. exists s, st. by split_and!.
  - intros (s & st & Hr & Ht & Hs & Hp & Ha).
    exists (rollout_keys (rid, s)). split.
    + apply in_map_iff. exists (rid, s). split; [done|]. by apply list_elem_of_In, elem_of_hash_iter.
    + apply list_elem_of_In. unfold rollout_keys. simpl. rewrite Ht.
      apply list_elem_of_fmap. exists ((rid, host), st). split; [done|].
      apply list_elem_of_filter. split; [done|]. by apply elem_of_hash_iter.
Qed.

(** ** Opened rollouts *)

Lemma elem_of_open_actions a :
  a ∈ open_actions m fs <->
  exists ch rm, sms_rollouts m !! ch = Some rm /\
    let ref := rm_channel_ref (inner rm) in
    fs_rollouts fs !! rollout_id.new ch ref = None /\
    a = PlanAction.OpenRollout (rollout_id.new ch ref) ch ref.
Proof.
  unfold open_actions. rewrite list_elem_of_omap. split.
  - intros ([ch rm] & Hin%elem_of_hash_iter & Ha). exists ch, rm. split; [done|]. simpl.
    destruct (fs_rollouts fs !! _); [done|]. by injection Ha as <-.
  - intros (ch & rm & Hrm & Hn & ->). exists (ch, rm). split; [by apply elem_of_hash_iter|].
    by rewrite Hn.
Qed.

(** ** Queued dispatches passed the gates *)

(** A queued dispatch is the waiting host's, and all its gates were open. *)
Definition action_justified (a : PlanAction) : Prop :=
  match a with
  | PlanAction.QueueDispatch host rid target soak =>
      exists summary st tick, waiting rid host summary st /\
        target = hs_target_closure st /\ soak = default now (hs_soak_due_at st) /\
        dispatch_allowed fs m q rid host target (rs_channel summary) tick
  | PlanAction.DeferDispatch host rid gate reason =>
      exists summary st tick b, waiting rid host summary st /\
        evaluate_for_dispatch fs m q rid host (hs_target_closure st) (rs_channel summary) tick
          = Some b /\
        gate = GateBlock.discriminator b /\ reason = GateBlock.reason b
  | PlanAction.OpenRollout rid ch ref =>
      exists rm, sms_rollouts m !! ch = Some rm /\ ref = rm_channel_ref (inner rm) /\
                 rid = rollout_id.new ch ref /\ fs_rollouts fs !! rid = None
  | PlanAction.RecordHaltLifted _ => False
  end.

Lemma plan_justified : Forall action_justified plan.
Proof.
  subst plan. unfold plan_next. apply (plan_ind (fun acc => Forall action_justified acc.2)).
  - apply Forall_forall. intros a (ch & rm & Hrm & Hn & ->)%elem_of_open_actions. by exists rm.
  - intros [tick acts] rid s host st HF Hw. rewrite (plan_host_decision _ _ _ _ _ _ Hw).
    destruct (evaluate_for_dispatch _ _ _ _ _ _ _ _) as [b|] eqn:E; simpl;
      apply Forall_app_2; try done; repeat constructor; simpl.
    + by exists s, st, tick, b.
    + exists s, st, tick. split_and!; try done; by apply evaluate_allowed.
Qed.

Lemma plan_opens ch rm :
  sms_rollouts m !! ch = Some rm ->
  let ref := rm_channel_ref (inner rm) in
  fs_rollouts fs !! rollout_id.new ch ref = None ->
  PlanAction.OpenRollout (rollout_id.new ch ref) ch ref ∈ plan.
Proof.
  intros Hrm ref Hn. subst plan. unfold plan_next. apply (plan_ind (fun acc => _ ∈ acc.2)).
  - apply elem_of_open_actions. by exists ch, rm.
  - intros [tick acts] rid s host st Hin Hw. rewrite (plan_host_decision _ _ _ _ _ _ Hw).
    destruct (evaluate_for_dispatch _ _ _ _ _ _ _ _); simpl in *; set_solver.
Qed.

(** ** Budgets *)

(** A dispatch the budget with this selector limits. *)
Definition counts_against (sel : Selector) (a : PlanAction) : bool :=
  match a with
  | PlanAction.QueueDispatch host rid _ _ =>
      match fs_rollouts fs !! rid with
      | Some s => existsb (fun b => bool_decide (rb_selector b = sel) && mem_str host (rb_hosts b))
                    (rs_budgets s)
      | None => false
      end
  | _ => false
  end.

Definition counted (sel : Selector) (acts : list PlanAction) : Z :=
  Z.of_nat (length (List.filter (counts_against sel) acts)).

Lemma counted_snoc sel acts a :
  counted sel (acts ++ [a]) = (counted sel acts + if counts_against sel a then 1 else 0)%Z.
Proof.
  unfold counted. rewrite List.filter_app, length_app. simpl.
  destruct (counts_against sel a); simpl; lia.
Qed.

Definition tick_of (sel : Selector) (tick : gmap Selector u32) : Z := default 0%Z (tick !! sel).

(** The accumulator grows by the number of matching budgets. *)
Lemma bump_budgets_tick sel host bs tick :
  (0 <= tick_of sel tick)%Z -> (tick_of sel tick + Z.of_nat (length bs) <= u32_max)%Z ->
  let hits := List.filter (fun b => bool_decide (rb_selector b = sel) && mem_str host (rb_hosts b)) bs in
  tick_of sel (bump_budgets bs host tick) = (tick_of sel tick + Z.of_nat (length hits))%Z.
Proof.
  revert tick. induction bs as [|b bs IH]; intros tick H0 Hmax; simpl; [lia|].
  simpl in Hmax. unfold bump_budgets in *. cbn [fold_left].
  destruct (mem_str host (rb_hosts b)); [|rewrite andb_false_r; apply IH; lia].
  rewrite andb_true_r. unfold tick_of in *. case_bool as [<-|Hne].
  - rewrite u32_wrap_small by lia. rewrite IH; rewrite lookup_insert_eq; simpl; lia.
  - by rewrite IH; rewrite lookup_insert_ne by done; [|lia|lia].
Qed.

Section one_budget.
Variable sel : Selector.
Variable max : u32.

(** Every budget with this selector has this limit, and the counters fit. *)
Definition budget_uniform : Prop :=
  (0 <= max)%Z /\
  forall rid s, fs_rollouts fs !! rid = Some s ->
    (max + Z.of_nat (length (rs_budgets s)) <= u32_max)%Z /\
    forall b, b ∈ rs_budgets s -> rb_selector b = sel -> rb_max_in_flight b = Some max.

Let in_flight := disruption_budget.in_flight_count fs sel.

(** The accumulator bounds the dispatches, and both respect the limit. *)
Definition budget_inv (acc : gmap Selector u32 * list PlanAction) : Prop :=
  (counted sel acc.2 <= tick_of sel acc.1)%Z /\
  (counted sel acc.2 <= Z.max 0 (max - in_flight))%Z.

Lemma open_actions_uncounted acts :
  acts = open_actions m fs -> counted sel acts = 0%Z.
Proof.
  intros ->. unfold counted. rewrite (proj2 (List.length_zero_iff_nil _)); [done|].
  destruct (List.filter _ _) as [|a l] eqn:E; [done|]. exfalso.
  assert (Ha : In a (List.filter (counts_against sel) (open_actions m fs))) by (rewrite E; by left).
  apply filter_In in Ha as [Ha Hc]. apply list_elem_of_In, elem_of_open_actions in Ha.
  by destruct Ha as (? & ? & ? & ? & ->).
Qed.

Lemma budget_inv_plan :
  budget_uniform ->
  budget_inv (fold_left (plan_rollout m fs q now) (hash_iter (fs_rollouts fs)) (∅, open_actions m fs)).
Proof.
  intros [Hmax Hu]. apply plan_ind.
  - unfold budget_inv, tick_of. simpl. rewrite open_actions_uncounted by done.
    rewrite lookup_empty. simpl. lia.
  - intros [tick acts] rid s host st [Ht Hc] Hw. simpl in Ht, Hc.
    rewrite (plan_host_decision _ _ _ _ _ _ Hw). unfold budget_inv.
    assert (Hn : (0 <= counted sel acts)%Z) by (unfold counted; lia).
    destruct (evaluate_for_dispatch _ _ _ _ _ _ _ _) as [b|] eqn:E; cbn [fst snd];
      rewrite counted_snoc; cbn [counts_against]; [lia|].
    destruct Hw as (Hr & _). rewrite Hr. destruct (Hu _ _ Hr) as [Hfit Hall].
    apply evaluate_allowed in E as (_ & _ & _ & _ & Hb & _).
    set (hit := fun b => bool_decide (rb_selector b = sel) && mem_str host (rb_hosts b)).
    destruct (existsb hit (rs_budgets s)) eqn:Ex.
    + apply existsb_exists in Ex as (b & Hbin & Hhit).
      apply andb_true_iff in Hhit as [Hs%bool_decide_eq_true Hh%mem_str_spec]. subst hit.
      apply list_elem_of_In in Hbin.
      specialize (Hb s b max Hr Hbin Hh (Hall b Hbin Hs)). rewrite Hs in Hb.
      fold (tick_of sel tick) in Hb. unfold u32_saturating_add in Hb. fold in_flight in Hb.
      assert (0 <= in_flight)%Z by apply in_flight_count_nonneg.
      assert (in_flight + tick_of sel tick < max)%Z by lia.
      rewrite bump_budgets_tick by lia.
      assert (1 <= length (List.filter (fun b => bool_decide (rb_selector b = sel) &&
                 mem_str host (rb_hosts b)) (rs_budgets s))).
      { assert (In b (List.filter (fun b => bool_decide (rb_selector b = sel) &&
                 mem_str host (rb_hosts b)) (rs_budgets s))) as Hin.
        { apply filter_In. split; [by apply list_elem_of_In|].
          rewrite bool_decide_eq_true_2 by done. by apply mem_str_spec. }
        destruct (List.filter _ _); [done|simpl; lia]. }
      lia.
    + assert (Hno : forall b, b ∈ rs_budgets s -> hit b = false).
      { intros b Hin. apply not_true_iff_false. intros Hh. apply not_true_iff_false in Ex.
        apply Ex, existsb_exists. exists b. split; [by apply list_elem_of_In|done]. }
      assert (Htick : tick_of sel (bump_budgets (rs_budgets s) host tick) = tick_of sel tick).
      { clear -Hno. unfold bump_budgets. revert tick.
        induction (rs_budgets s) as [|b bs IH]; intros tick; cbn [fold_left]; [done|].
        rewrite IH by (intros; apply Hno; by right).
        pose proof (Hno b ltac:(by left)) as Hb. subst hit. simpl in Hb.
        destruct (mem_str host (rb_hosts b)); [|done]. rewrite andb_true_r in Hb.
        apply bool_decide_eq_false in Hb. unfold tick_of. by rewrite lookup_insert_ne. }
      rewrite Htick. lia.
Qed.

End one_budget.
End planner_lemmas.

(** ** Sample fleets *)

Definition sample_host : Host := MkHost "x86_64-linux" [] "stable" (Some "/nix/store/new") None None.
Definition sample_selector : Selector := MkSelector [] [] [] None true.
Definition sample_budget : RolloutBudget := MkRolloutBudget sample_selector ["a"; "b"; "c"] (Some 1%Z) None.
Definition sample_meta : Meta := MkMeta 1 (Some 0%Z) None None.
Definition sample_halt_policy : RolloutPolicy :=
  MkRolloutPolicy "canary" [] (MkHealthGate None) OnHealthFailure.Halt.
Definition sample_fleet : FleetResolved :=
  MkFleetResolved 1 {[ "a" := sample_host; "b" := sample_host; "c" := sample_host ]}
    {[ "stable" := MkChannel "p" 5 180 60 ]} {[ "p" := sample_halt_policy ]} ∅ [] [] [] sample_meta.
Definition sample_manifest (budgets : list RolloutBudget) : RolloutManifest :=
  MkRolloutManifest 1 "stable@r1" "stable" "r1" "hash"
    [MkHostWave "a" 0 "/nix/store/new"; MkHostWave "b" 0 "/nix/store/new";
     MkHostWave "c" 0 "/nix/store/new"]
    (MkHealthGate None) budgets sample_meta.
Definition sample_manifests (budgets : list RolloutBudget) : SignedManifestSet :=
  MkSignedManifestSet (MkVerified sample_fleet 0)
    {[ "stable" := MkVerified (sample_manifest budgets) 0 ]}.
Definition sample_rid : RolloutId := rollout_id.new "stable" "r1".
Definition sample_waiting (host : HostId) : HostRolloutState :=
  new_pending sample_rid host "stable" "/nix/store/new" 0 600.
Definition sample_failed (host : HostId) : HostRolloutState :=
  (sample_waiting host) <| hs_state := HostState.Failed |>
    <| hs_dispatch_acked_at := Some 1%Z |> <| hs_failed_at := Some 5%Z |>
    <| hs_policy_applied := Some OnHealthFailure.Halt |>.
Definition sample_summary (budgets : list RolloutBudget) : RolloutSummary :=
  MkRolloutSummary sample_rid "stable" "r1" 0 None 0 budgets.
(** Host [a] has failed under [halt]; [b] and [c] wait. *)
Definition sample_fleet_state (budgets : list RolloutBudget) : FleetState :=
  MkFleetState {[ (sample_rid, "a") := sample_failed "a"; (sample_rid, "b") := sample_waiting "b";
                  (sample_rid, "c") := sample_waiting "c" ]}
    {[ sample_rid := sample_summary budgets ]} ∅.

(** ** Properties *)

(** A plan decides about every waiting host exactly once and about no
    other: the hosts of its dispatch and deferral actions are, without
    repetition, those pending and unacknowledged in a rollout that is not over. *)
Theorem plan_decides_each_waiting_host_once {O : HashOrder} (m : SignedManifestSet)
    (fs : FleetState) (q : QuarantineSet) (now : DateTime) (rid : RolloutId) (host : HostId) :
  NoDup (omap action_key (plan_next m fs q now)) /\
  ((rid, host) ∈ omap action_key (plan_next m fs q now) <->
   exists summary st, waiting fs rid host summary st).
Proof. split; [apply NoDup_keys | apply elem_of_keys]. Qed.

(** Every action of a plan is justified: a queued dispatch carries the
    host's target and soak deadline and had all its gates open, a deferral
    reports the gate that held the host, a rollout is opened exactly for a
    channel whose manifest names a ref without a rollout row, and no other
    action is produced. *)
Theorem plan_actions_justified {O : HashOrder} (m : SignedManifestSet) (fs : FleetState)
    (q : QuarantineSet) (now : DateTime) :
  Forall (action_justified m fs q now) (plan_next m fs q now) /\
  (forall ch rm, sms_rollouts m !! ch = Some rm ->
   let ref := rm_channel_ref (inner rm) in
   fs_rollouts fs !! rollout_id.new ch ref = None ->
   PlanAction.OpenRollout (rollout_id.new ch ref) ch ref ∈ plan_next m fs q now).
Proof. split; [apply plan_justified | intros ch rm; apply plan_opens]. Qed.

(** C25.  A plan does not take a uniform budget past its limit: when every budget with
    a given selector has the same limit, the dispatches of one plan that it
    covers, in any rollout, together with the hosts already in flight, are at
    most the limit, unless the limit was exceeded before the plan, which then
    dispatches none of them. *)
Theorem plan_respects_budget {O : HashOrder} (m : SignedManifestSet) (fs : FleetState)
    (q : QuarantineSet) (now : DateTime) (sel : Selector) (max : u32) :
  budget_uniform fs sel max ->
  (counted fs sel (plan_next m fs q now) <=
   Z.max 0 (max - disruption_budget.in_flight_count fs sel))%Z.
Proof. intros H. by destruct (budget_inv_plan m fs q now sel max H). Qed.

Lemma plan_respects_budget_witness :
  (counted (sample_fleet_state [sample_budget]) sample_selector
     (plan_next (O := list_order) (sample_manifests [sample_budget])
        (sample_fleet_state [sample_budget]) ∅ 10) <= 1)%Z.
Proof.
  pose proof (plan_respects_budget (O := list_order) (sample_manifests [sample_budget])
    (sample_fleet_state [sample_budget]) ∅ 10 sample_selector 1) as H.
  replace (disruption_budget.in_flight_count (O := list_order)
             (sample_fleet_state [sample_budget]) sample_selector) with 0%Z in H
    by (vm_compute; reflexivity).
  apply H. split; [lia|]. intros rid s Hs.
  change (fs_rollouts (sample_fleet_state [sample_budget])) with
    ({[ sample_rid := sample_summary [sample_budget] ]} : gmap RolloutId RolloutSummary) in Hs.
  apply lookup_singleton_Some in Hs as [<- <-]. split; [vm_compute; discriminate|].
  intros b Hb _. apply list_elem_of_singleton in Hb as ->. reflexivity.
Defined.

(** No host starves: a waiting host whose quarantine, channel, wave, host
    and compliance gates are open and that no limited budget covers is queued
    by the next plan, in every iteration order, whatever state the rollout's
    other hosts are in, failed ones included. *)
Theorem open_gates_dispatch {O : HashOrder} (m : SignedManifestSet) (fs : FleetState)
    (q : QuarantineSet) (now : DateTime) (rid : RolloutId) (host : HostId)
    (summary : RolloutSummary) (st : HostRolloutState) :
  waiting fs rid host summary st ->
  not_quarantined q (rs_channel summary) (hs_target_closure st) ->
  edges_open fs m (rs_channel summary) -> wave_open fs m host rid ->
  host_edges_open fs m host rid -> compliance_open fs m host rid ->
  (forall b, b ∈ rs_budgets summary -> host ∈ rb_hosts b -> rb_max_in_flight b = None) ->
  PlanAction.QueueDispatch host rid (hs_target_closure st) (default now (hs_soak_due_at st))
    ∈ plan_next m fs q now.
Proof.
  intros Hw Hq He Hv Hh Hc Hb.
  assert (Hk : (rid, host) ∈ omap action_key (plan_next m fs q now)).
  { apply elem_of_keys. by exists summary, st. }
  apply list_elem_of_omap in Hk as (a & Ha & Ek).
  pose proof (plan_justified m fs q now) as HF. rewrite Forall_forall in HF. specialize (HF a Ha).
  pose proof Hw as (Hr & _ & Hs & _).
  destruct a as [| h r target soak | | h r gate reason]; try discriminate Ek;
    injection Ek as -> ->; simpl in HF.
  - destruct HF as (s' & st' & tick & (Hr' & _ & Hs' & _) & -> & -> & _).
    rewrite Hs in Hs'. by injection Hs' as <-.
  - destruct HF as (s' & st' & tick & b & (Hr' & _ & Hs' & _) & Hev & _).
    rewrite Hs in Hs'. injection Hs' as <-. rewrite Hr in Hr'. injection Hr' as <-.
    rewrite (proj2 (evaluate_allowed fs m q rid host _ _ tick)) in Hev; [done|].
    split_and!; try done. intros s'' b' mx Hr'' Hin Hhost Hmx.
    rewrite Hr in Hr''. injection Hr'' as <-. by rewrite (Hb b' Hin Hhost) in Hmx.
Qed.

Lemma open_gates_dispatch_witness :
  hs_state <$> fs_host_states (sample_fleet_state []) !! (sample_rid, "a") = Some HostState.Failed /\
  PlanAction.QueueDispatch "b" sample_rid "/nix/store/new" 600
    ∈ plan_next (O := list_order) (sample_manifests []) (sample_fleet_state []) ∅ 10.
Proof.
  split; [vm_compute; reflexivity|].
  apply (open_gates_dispatch (O := list_order) (sample_manifests []) (sample_fleet_state []) ∅ 10
    sample_rid "b" (sample_summary []) (sample_waiting "b")).
  - split_and!; vm_compute; reflexivity.
  - intros set. rewrite lookup_empty. discriminate.
  - intros e Hin. apply elem_of_nil in Hin. destruct Hin.
  - intros h waves _ E. change (fr_waves (fleet (sample_manifests []))) with (∅ : gmap string (list Wave)) in E.
    rewrite lookup_empty in E. discriminate E.
  - intros h e g _ Hin. apply elem_of_nil in Hin. destruct Hin.
  - intros h waves i per _ E.
    change (fr_waves (fleet (sample_manifests []))) with (∅ : gmap string (list Wave)) in E.
    rewrite lookup_empty in E. discriminate E.
  - intros b Hin. apply elem_of_nil in Hin. destruct Hin.
Defined.
