(* ===== verification/Verify.v ===== *)
(** * Verification of signed artifacts

    Models [crates/nixfleet-reconciler/src/verify.rs] and [trust_rotation.rs],
    and [canonicalize] of [crates/nixfleet-canonicalize/src/lib.rs].  The
    cryptographic and JSON crates are the class [Crypto] and the decoder of a
    payload type the class [DeserializeOwned]: the definitions hold for whatever
    they answer. *)

From S2P Require Import Prelude RustStd Proto Gates.
From stdpp Require Import pretty.

(** ** The third-party code *)

Class Crypto := {
  Value : Type;                                        (* [serde_json::Value] *)
  parse_value : string -> result Value string;
  jcs_to_string : Value -> result string string;       (* [serde_jcs::to_string] *)
  base64_decode : string -> result string string;
  Ed25519Key : Type;
  ed25519_from_bytes : string -> result Ed25519Key string;
  verify_strict : Ed25519Key -> string -> string -> bool;
  EncodedPoint : Type;
  P256Key : Type;
  P256Signature : Type;
  encoded_point_from_bytes : string -> result EncodedPoint string;
  from_encoded_point : EncodedPoint -> result P256Key string;
  p256_from_slice : string -> option P256Signature;
  normalize_s : P256Signature -> option P256Signature;
  p256_verify : P256Key -> string -> P256Signature -> bool;
  sha256 : string -> string;
  utf8_error : string -> string;                       (* the text of a [Utf8Error] *)
}.

Class DeserializeOwned (T : Type) := from_str : string -> result T string.

(** A payload signed under the release key. *)
Class SignedSidecar (T : Type) := {
  schema_version : T -> u32;
  signed_at : T -> option DateTime;
}.

#[export] Instance FleetResolved_sidecar : SignedSidecar FleetResolved := {|
  schema_version := fr_schema_version;
  signed_at := fun f => meta_signed_at (fr_meta f);
|}.

#[export] Instance RolloutManifest_sidecar : SignedSidecar RolloutManifest := {|
  schema_version := rm_schema_version;
  signed_at := fun m => meta_signed_at (rm_meta m);
|}.

(** ** Errors *)

Module VerifyError.
Inductive t :=
| Parse (err : string)
| BadSignature
| NotSigned
| Stale (signed_at now : DateTime) (window : Duration)
| FutureDated (signed_at now : DateTime) (slack_secs : i64)
| RejectedBeforeTimestamp (signed_at reject_before : DateTime)
| SchemaVersionUnsupported (version : u32)
| Canonicalize (err : string)
| UnsupportedAlgorithm (algorithm : string)
| BadPubkeyEncoding (algorithm reason : string)
| NoTrustRoots.
End VerifyError.
Abbreviation VerifyError := VerifyError.t.

Definition ACCEPTED_SCHEMA_VERSION : u32 := 1.
Definition CLOCK_SKEW_SLACK_SECS : i64 := 60.

Section verify.
Context {Cr : Crypto}.

Definition canonicalize (input : string) : result string string :=
  match parse_value input with
  | Err _ => Err "input is not valid JSON"
  | Ok value =>
      match jcs_to_string value with
      | Err _ => Err "JCS canonicalization failed"
      | Ok canonical => Ok canonical
      end
  end.

(** ** Signatures *)

Definition verify_ed25519 (canonical_bytes signature public_b64 : string) : result unit VerifyError :=
  match base64_decode public_b64 with
  | Err e => Err (VerifyError.BadPubkeyEncoding "ed25519" ("base64 decode failed: " +:+ e))
  | Ok public_bytes =>
      if negb (bool_decide (String.length public_bytes = 32)) then
        Err (VerifyError.BadPubkeyEncoding "ed25519" 
               ("expected 32 bytes, got " +:+ pretty (String.length public_bytes)))
      else
        match ed25519_from_bytes public_bytes with
        | Err e => Err (VerifyError.BadPubkeyEncoding "ed25519" e)
        | Ok verifying_key =>
            if negb (bool_decide (String.length signature = 64)) then Err VerifyError.BadSignature
            else if verify_strict verifying_key canonical_bytes signature then Ok tt
            else Err VerifyError.BadSignature
        end
  end.

(** The high half of an ECDSA signature is normalised first. *)
Definition verify_ecdsa_p256 (canonical_bytes signature public_b64 : string)
    : result unit VerifyError :=
  match base64_decode public_b64 with
  | Err e => Err (VerifyError.BadPubkeyEncoding "ecdsa-p256" ("base64 decode failed: " +:+ e))
  | Ok public_bytes =>
      if negb (bool_decide (String.length public_bytes = 64)) then
        Err (VerifyError.BadPubkeyEncoding "ecdsa-p256" 
               ("expected 64 bytes (X ‖ Y uncompressed), got " +:+ pretty (String.length public_bytes)))
      else
        match encoded_point_from_bytes (String (ascii_of_nat 4) public_bytes) with
        | Err e => Err (VerifyError.BadPubkeyEncoding "ecdsa-p256" ("SEC1 decode failed: " +:+ e))
        | Ok point =>
            match from_encoded_point point with
            | Err e =>
                Err (VerifyError.BadPubkeyEncoding "ecdsa-p256"
                       ("not on curve / invalid point: " +:+ e))
            | Ok verifying_key =>
                match p256_from_slice signature with
                | None => Err VerifyError.BadSignature
                | Some sig =>
                    let sig := default sig (normalize_s sig) in
                    if p256_verify verifying_key canonical_bytes sig then Ok tt
                    else Err VerifyError.BadSignature
                end
            end
        end
  end.

(** The loop over the keys: [Ok] at the first that verifies, else whether any
    algorithm was supported. *)
Fixpoint try_keys (canonical signature : string) (attempted_any_supported : bool)
    (trusted_keys : list TrustedPubkey) : result unit bool :=
  match trusted_keys with
  | [] => Err attempted_any_supported
  | key :: keys =>
      if bool_decide (tp_algorithm key = "ed25519") then
        if is_ok (verify_ed25519 canonical signature (tp_public key)) then Ok tt
        else try_keys canonical signature true keys
      else if bool_decide (tp_algorithm key = "ecdsa-p256") then
        if is_ok (verify_ecdsa_p256 canonical signature (tp_public key)) then Ok tt
        else try_keys canonical signature true keys
      else try_keys canonical signature attempted_any_supported keys
  end.

Definition verify_signature_against_trust_roots (signed_bytes signature : string)
    (trusted_keys : list TrustedPubkey) : result string VerifyError :=
  match trusted_keys with
  | [] => Err VerifyError.NoTrustRoots
  | first :: _ =>
      match from_utf8 signed_bytes with
      | None => Err (VerifyError.Parse (utf8_error signed_bytes))
      | Some raw_str =>
          match parse_value raw_str with
          | Err e => Err (VerifyError.Parse e)
          | Ok _ =>
              match canonicalize raw_str with
              | Err e => Err (VerifyError.Canonicalize e)
              | Ok canonical =>
                  match try_keys canonical signature false trusted_keys with
                  | Ok _ => Ok canonical
                  | Err attempted_any_supported =>
                      if negb attempted_any_supported then
                        Err (VerifyError.UnsupportedAlgorithm (tp_algorithm first))
                      else Err VerifyError.BadSignature
                  end
              end
          end
      end
  end.

(** ** Schema, compromise switch and freshness *)

(** The [expect] on the window, and the overflow of the addition, panic. *)
Definition finish_sidecar_verification `{DeserializeOwned T} `{SignedSidecar T}
    (canonical : string) (now : DateTime) (freshness_window : Duration)
    (reject_before : option DateTime) : ended (result (Verified T) VerifyError) :=
  match from_str canonical with
  | Err e => Returned (Err (VerifyError.Parse e))
  | Ok payload =>
      if negb (bool_decide (schema_version payload = ACCEPTED_SCHEMA_VERSION)) then
        Returned (Err (VerifyError.SchemaVersionUnsupported (schema_version payload)))
      else
        match signed_at payload with
        | None => Returned (Err VerifyError.NotSigned)
        | Some signed_at =>
            let rejected :=
              match reject_before with
              | Some rb =>
                  if Z.ltb signed_at rb then Some (VerifyError.RejectedBeforeTimestamp signed_at rb)
                  else None
              | None => None
              end in
            match rejected with
            | Some err => Returned (Err err)
            | None =>
                match time_delta_from_std freshness_window with
                | None => Panicked
                | Some window =>
                    bind_ended (time_delta_add window (duration_seconds CLOCK_SKEW_SLACK_SECS))
                      (fun effective_window =>
                       let elapsed := (now - signed_at)%Z in
                       if Z.ltb effective_window elapsed then
                         Returned (Err (VerifyError.Stale signed_at now freshness_window))
                       else if Z.ltb (duration_seconds CLOCK_SKEW_SLACK_SECS) (- elapsed) then
                         Returned (Err (VerifyError.FutureDated signed_at now CLOCK_SKEW_SLACK_SECS))
                       else Returned (Ok (MkVerified payload signed_at)))
                end
            end
        end
  end.

Definition verify_signed_sidecar `{DeserializeOwned T} `{SignedSidecar T}
    (signed_bytes signature : string) (trusted_keys : list TrustedPubkey) (now : DateTime)
    (freshness_window : Duration) (reject_before : option DateTime)
    : ended (result (Verified T) VerifyError) :=
  match verify_signature_against_trust_roots signed_bytes signature trusted_keys with
  | Err e => Returned (Err e)
  | Ok canonical => finish_sidecar_verification canonical now freshness_window reject_before
  end.

(** The fleet is normalised after the check. *)
Definition verify_artifact `{!DeserializeOwned FleetResolved} (signed_bytes signature : string)
    (trusted_keys : list TrustedPubkey) (now : DateTime) (freshness_window : Duration)
    (reject_before : option DateTime) : ended (result (Verified FleetResolved) VerifyError) :=
  bind_ended (verify_signed_sidecar signed_bytes signature trusted_keys now freshness_window
                reject_before) (fun r =>
  match r with
  | Err e => Returned (Err e)
  | Ok verified =>
      Returned (Ok (MkVerified (normalize_rollout_policies (inner verified)) (v_signed_at verified)))
  end).

Definition verify_rollout_manifest `{!DeserializeOwned RolloutManifest}
    (signed_bytes signature : string) (trusted_keys : list TrustedPubkey) (now : DateTime)
    (freshness_window : Duration) (reject_before : option DateTime)
    : ended (result (Verified RolloutManifest) VerifyError) :=
  verify_signed_sidecar signed_bytes signature trusted_keys now freshness_window reject_before.

(** ** Content hashes *)

Definition hex_digit (n : nat) : ascii :=
  if n <? 10 then ascii_of_nat (48 + n) else ascii_of_nat (87 + n).

Fixpoint hex_lowercase (bytes : string) : string :=
  match bytes with
  | EmptyString => EmptyString
  | String c bytes =>
      let b := nat_of_ascii c in
      String (hex_digit (b / 16)) (String (hex_digit (b mod 16)) (hex_lowercase bytes))
  end.

Definition canonical_hash_from_bytes (bytes : string) : result string VerifyError :=
  match from_utf8 bytes with
  | None => Err (VerifyError.Canonicalize ("input not valid UTF-8: " +:+ utf8_error bytes))
  | Some s =>
      match canonicalize s with
      | Err e => Err (VerifyError.Canonicalize e)
      | Ok canonical => Ok (hex_lowercase (sha256 canonical))
      end
  end.

End verify.

(** ** Rotation ([trust_rotation.rs]) *)

Record RotateTrustRoot := MkRotateTrustRoot {
  rtr_which : string;
  rtr_retire_at : DateTime;
}.

Definition is_rotation_due (slot : KeySlot) (now : DateTime) : option DateTime :=
  retire_at ← ks_retire_at slot;
  _ ← ks_successor slot;
  if Z.ltb now retire_at then None else Some retire_at.

Definition check_trust_rotations (trust : TrustConfig) (now : DateTime) : list RotateTrustRoot :=
  let out :=
    match is_rotation_due (tc_ci_release_key trust) now with
    | Some retire_at => [MkRotateTrustRoot "ciReleaseKey" retire_at]
    | None => []
    end in
  match tc_org_root_key trust with
  | Some org_root =>
      match is_rotation_due org_root now with
      | Some retire_at => out ++ [MkRotateTrustRoot "orgRootKey" retire_at]
      | None => out
      end
  | None => out
  end.
