(* ===== verification/VerifyProps.v ===== *)
(** * Verification of signed artifacts: what it promises *)

From S2P Require Import Prelude RustStd Proto Gates Verify.

Section verify.
Context {Cr : Crypto}.

(** The signature is the key's, over the canonical text. *)
Definition key_accepts (canonical signature : string) (k : TrustedPubkey) : Prop :=
  tp_algorithm k = "ed25519" /\ verify_ed25519 canonical signature (tp_public k) = Ok tt \/
  tp_algorithm k = "ecdsa-p256" /\ verify_ecdsa_p256 canonical signature (tp_public k) = Ok tt.

Definition supported (k : TrustedPubkey) : bool :=
  bool_decide (tp_algorithm k = "ed25519") || bool_decide (tp_algorithm k = "ecdsa-p256").

Lemma is_ok_unit {E} (r : result unit E) : is_ok r = true <-> r = Ok tt.
Proof. by destruct r as [[]|]. Qed.

Lemma try_keys_cons canonical signature b k keys :
  (key_accepts canonical signature k /\ try_keys canonical signature b (k :: keys) = Ok tt) \/
  (~ key_accepts canonical signature k /\
   try_keys canonical signature b (k :: keys) = try_keys canonical signature (supported k || b) keys).
Proof.
  unfold key_accepts, supported. simpl. case_bool as [He|He]; [|case_bool as [Hp|Hp]].
  - destruct (is_ok _) eqn:E; [left; apply is_ok_unit in E; eauto|right; split; [|done]].
    intros [[_ E']|[E' _]]; [by rewrite E' in E|congruence].
  - destruct (is_ok _) eqn:E; [left; apply is_ok_unit in E; eauto|right; split; [|done]].
    intros [[E' _]|[_ E']]; [congruence|by rewrite E' in E].
  - right. split; [|done]. by intros [[E _]|[E _]].
Qed.

Lemma try_keys_ok canonical signature b keys :
  try_keys canonical signature b keys = Ok tt <-> Exists (key_accepts canonical signature) keys.
Proof.
  revert b. induction keys as [|k keys IH]; intros b.
  - split; [done|]. by intros ?%Exists_nil.
  - rewrite Exists_cons. destruct (try_keys_cons canonical signature b k keys) as [[Hk ->]|[Hk ->]].
    + naive_solver.
    + rewrite IH. naive_solver.
Qed.

Lemma try_keys_err canonical signature b keys :
  ~ Exists (key_accepts canonical signature) keys ->
  try_keys canonical signature b keys = Err (existsb supported keys || b).
Proof.
  revert b. induction keys as [|k keys IH]; intros b Hno; [done|].
  rewrite Exists_cons in Hno.
  destruct (try_keys_cons canonical signature b k keys) as [[Hk _]|[_ ->]]; [naive_solver|].
  rewrite IH by naive_solver. simpl. by destruct (supported k), (existsb supported keys).
Qed.

(** Canonical form of the received bytes. *)
Definition canonical_form (signed_bytes canonical : string) : Prop :=
  from_utf8 signed_bytes = Some signed_bytes /\
  exists value, parse_value signed_bytes = Ok value /\ jcs_to_string value = Ok canonical.

Lemma from_utf8_id s s' : from_utf8 s = Some s' -> s' = s.
Proof. unfold from_utf8. destruct (utf8_valid [] s); congruence. Qed.

Lemma canonicalize_ok s c :
  canonicalize s = Ok c <-> exists value, parse_value s = Ok value /\ jcs_to_string value = Ok c.
Proof.
  unfold canonicalize. destruct (parse_value s) as [value|]; [|split; [done|by intros (? & [=] & _)]].
  destruct (jcs_to_string value) as [c'|] eqn:E; split.
  - intros [= <-]. eauto.
  - intros (value' & [= <-] & E'). congruence.
  - done.
  - intros (value' & [= <-] & E'). congruence.
Qed.

Lemma trust_roots_spec signed_bytes signature keys canonical :
  verify_signature_against_trust_roots signed_bytes signature keys = Ok canonical <->
  canonical_form signed_bytes canonical /\ Exists (key_accepts canonical signature) keys.
Proof.
  unfold verify_signature_against_trust_roots, canonical_form.
  destruct keys as [|first keys]; [split; [done|by intros [_ ?%Exists_nil]]|].
  destruct (from_utf8 signed_bytes) as [raw|] eqn:Eu; [|split; [done|by intros [[[=] _] _]]].
  apply from_utf8_id in Eu as ->.
  destruct (parse_value signed_bytes) as [value|] eqn:Ev; [|split; [done|by intros [(_ & ? & [=] & _) _]]].
  destruct (canonicalize signed_bytes) as [c|e] eqn:Ec.
  - apply canonicalize_ok in Ec as (value' & Ev' & Ec). rewrite Ev in Ev'. injection Ev' as <-.
    destruct (try_keys c signature false (first :: keys)) as [[]|att] eqn:Et.
    + apply try_keys_ok in Et. split; [intros [= <-]; split; [split; eauto|done]|].
      intros [(_ & value'' & [= <-] & Ec') _]. congruence.
    + split; [by destruct (negb att)|]. intros [(_ & value'' & [= <-] & Ec') Hex].
      rewrite Ec in Ec'. injection Ec' as <-.
      apply (try_keys_ok _ _ false) in Hex. congruence.
  - split; [done|]. intros [(_ & value' & [= <-] & Ec') _].
    assert (canonicalize signed_bytes = Ok canonical) by (apply canonicalize_ok; eauto). congruence.
Qed.

Lemma canonical_form_unique signed_bytes c c' :
  canonical_form signed_bytes c -> canonical_form signed_bytes c' -> c = c'.
Proof. intros (_ & v & Hv & Hc) (_ & v' & Hv' & Hc'). congruence. Qed.

(** ** The keys of a slot *)

Lemma active_keys_at_spec slot now k :
  k ∈ active_keys_at slot now <->
  ks_current slot = Some k \/ ks_previous slot = Some k \/
  (ks_successor slot = Some k /\ exists r, ks_retire_at slot = Some r /\ (now < r)%Z).
Proof.
  assert (Ha : k ∈ active_keys slot <-> ks_current slot = Some k \/ ks_previous slot = Some k).
  { unfold active_keys. destruct (ks_current slot), (ks_previous slot); simpl;
      rewrite ?elem_of_cons, ?elem_of_nil; naive_solver. }
  unfold active_keys_at. destruct (ks_successor slot) as [k'|]; [|naive_solver].
  destruct (ks_retire_at slot) as [r|]; [|naive_solver].
  destruct (Z.ltb_spec now r) as [Hlt|Hge].
  - rewrite elem_of_app, Ha, list_elem_of_singleton. naive_solver.
  - rewrite Ha. split; [tauto|]. intros [?|[?|(_ & r' & [= <-] & ?)]]; [tauto..|lia].
Qed.

Lemma retired_keys slot r now :
  ks_retire_at slot = Some r -> (r <= now)%Z -> active_keys_at slot now = active_keys slot.
Proof.
  intros Hr Hge. unfold active_keys_at. rewrite Hr.
  destruct (ks_successor slot); [|done]. by rewrite (proj2 (Z.ltb_ge _ _)).
Qed.

Lemma is_rotation_due_late slot k r now :
  ks_successor slot = Some k -> ks_retire_at slot = Some r -> (r <= now)%Z ->
  is_rotation_due slot now = Some r.
Proof.
  intros Hk Hr Hge. unfold is_rotation_due. rewrite Hr, Hk. simpl. by rewrite (proj2 (Z.ltb_ge _ _)).
Qed.

Lemma is_rotation_due_early slot r now :
  ks_retire_at slot = Some r -> (now < r)%Z -> is_rotation_due slot now = None.
Proof.
  intros Hr Hlt. unfold is_rotation_due. rewrite Hr. simpl.
  destruct (ks_successor slot); [|done]. simpl. by rewrite (proj2 (Z.ltb_lt _ _)).
Qed.

Lemma rotation_due trust r now k :
  ks_successor (tc_ci_release_key trust) = Some k -> ks_retire_at (tc_ci_release_key trust) = Some r ->
  (r <= now)%Z -> MkRotateTrustRoot "ciReleaseKey" r ∈ check_trust_rotations trust now.
Proof.
  intros Hk Hr Hge. unfold check_trust_rotations. rewrite (is_rotation_due_late _ k r now) by done.
  destruct (tc_org_root_key trust) as [org|]; [destruct (is_rotation_due org now)|]; by left.
Qed.

Lemma rotation_not_due trust r now :
  ks_retire_at (tc_ci_release_key trust) = Some r -> (now < r)%Z ->
  MkRotateTrustRoot "ciReleaseKey" r ∉ check_trust_rotations trust now.
Proof.
  intros Hr Hlt. unfold check_trust_rotations. rewrite (is_rotation_due_early _ r) by done.
  destruct (tc_org_root_key trust) as [org|]; [destruct (is_rotation_due org now)|]; simpl;
    rewrite ?elem_of_cons, ?elem_of_nil; naive_solver.
Qed.

(** ** The checks after the signature *)

Definition slack : Duration := duration_seconds CLOCK_SKEW_SLACK_SECS.

Definition not_rejected (reject_before : option DateTime) (signed : DateTime) : Prop :=
  forall rb, reject_before = Some rb -> (rb <= signed)%Z.

(** Neither stale nor from the future. *)
Definition in_window (window : Duration) (now signed : DateTime) : Prop :=
  (now - signed <= window + slack)%Z /\ (signed - now <= slack)%Z.

Section payload.
Context {T} {De : DeserializeOwned T} {Si : SignedSidecar T}.

Definition payload_ok (canonical : string) (reject_before : option DateTime) (v : Verified T) : Prop :=
  from_str canonical = Ok (inner v) /\ schema_version (inner v) = ACCEPTED_SCHEMA_VERSION /\
  signed_at (inner v) = Some (v_signed_at v) /\ not_rejected reject_before (v_signed_at v).

(** The checks before the window: they pass with this payload, or with this
    error. *)
Lemma finish_cases canonical now window reject_before :
  (exists e, (forall w, finish_sidecar_verification (T := T) canonical now w reject_before =
                        Returned (Err e)) /\
             forall v, ~ payload_ok canonical reject_before v) \/
  (exists v, payload_ok canonical reject_before v /\
     finish_sidecar_verification canonical now window reject_before =
     match time_delta_from_std window with
     | None => Panicked
     | Some window' =>
         bind_ended (time_delta_add window' slack) (fun effective_window =>
           let elapsed := (now - v_signed_at v)%Z in
           if Z.ltb effective_window elapsed then
             Returned (Err (VerifyError.Stale (v_signed_at v) now window))
           else if Z.ltb slack (- elapsed) then
             Returned (Err (VerifyError.FutureDated (v_signed_at v) now CLOCK_SKEW_SLACK_SECS))
           else Returned (Ok v))
     end).
Proof.
  unfold finish_sidecar_verification, payload_ok, not_rejected.
  destruct (from_str canonical) as [payload|e]; [|left; eexists; split; [done|by intros v []]].
  case_bool as [Hschema|Hschema]; simpl.
  2: { left. eexists. split; [done|]. intros v ([= ->] & ? & _). done. }
  destruct (signed_at payload) as [t|] eqn:Et.
  2: { left. eexists. split; [done|]. intros v ([= ->] & _ & ? & _). congruence. }
  destruct reject_before as [rb|]; [destruct (Z.ltb_spec t rb) as [Hlt|Hge]|].
  - left. eexists. split; [done|]. intros v ([= ->] & _ & Hv & Hrb).
    rewrite Et in Hv. injection Hv as ->. specialize (Hrb rb eq_refl). lia.
  - right. exists (MkVerified payload t). split; [|done]. split_and!; [done..|].
    by intros ? [= <-].
  - right. exists (MkVerified payload t). split; [|done]. by split_and!.
Qed.

Lemma payload_ok_unique canonical reject_before (v v' : Verified T) :
  payload_ok canonical reject_before v -> payload_ok canonical reject_before v' -> v = v'.
Proof.
  intros (H1 & _ & H2 & _) (H1' & _ & H2' & _). destruct v as [p t], v' as [p' t']. simpl in *.
  rewrite H1 in H1'. injection H1' as <-. rewrite H2 in H2'. by injection H2' as <-.
Qed.

(** A window of standard durations that does not overflow [TimeDelta]. *)
Definition window_fits (window : Duration) : Prop := (0 <= window /\ window + slack <= time_delta_max)%Z.

Lemma time_delta_window window k :
  (0 <= window)%Z ->
  match time_delta_from_std window with
  | None => Panicked
  | Some window => bind_ended (time_delta_add window slack) k
  end = if bool_decide (window_fits window) then k (window + slack)%Z else @Panicked (result (Verified T) VerifyError).
Proof.
  intros Hw. assert (Hs : (0 <= slack)%Z) by by vm_compute.
  assert (Hm : (0 <= time_delta_max)%Z) by by vm_compute.
  unfold time_delta_from_std, time_delta_add, window_fits.
  destruct (Z.leb_spec window time_delta_max) as [H1|H1].
  - destruct (Z.leb_spec (window + slack) time_delta_max) as [H2|H2].
    + rewrite (proj2 (Z.leb_le _ _)) by lia. rewrite bool_decide_eq_true_2 by lia. done.
    + rewrite andb_false_r, bool_decide_eq_false_2 by lia. done.
  - rewrite bool_decide_eq_false_2 by lia. done.
Qed.

Lemma finish_ok canonical now window reject_before v :
  (0 <= window)%Z ->
  finish_sidecar_verification canonical now window reject_before = Returned (Ok v) <->
  payload_ok canonical reject_before v /\ window_fits window /\ in_window window now (v_signed_at v).
Proof.
  intros Hw. destruct (finish_cases canonical now window reject_before)
    as [(e & He & Hno)|(v' & Hv' & ->)].
  { rewrite He. split; [done|]. intros [Hv _]. by destruct (Hno v). }
  rewrite time_delta_window by done. unfold in_window.
  case_bool as [Hfit|Hfit]; [|split; [done|naive_solver]]. simpl.
  split.
  - destruct (Z.ltb_spec (window + slack) (now - v_signed_at v')); [done|].
    destruct (Z.ltb_spec slack (- (now - v_signed_at v'))); [done|]. intros [= <-].
    split_and!; [done..|lia|lia].
  - intros (Hv & _ & H1 & H2). rewrite (payload_ok_unique _ _ _ _ Hv' Hv).
    rewrite (proj2 (Z.ltb_ge _ _)), (proj2 (Z.ltb_ge _ _)) by lia. done.
Qed.

Lemma finish_not_panicked canonical now window reject_before :
  window_fits window ->
  exists r, finish_sidecar_verification (T := T) canonical now window reject_before = Returned r.
Proof.
  intros Hfit. destruct (finish_cases canonical now window reject_before)
    as [(e & He & _)|(v' & _ & ->)]; [eauto|].
  rewrite time_delta_window by (destruct Hfit; lia).
  rewrite bool_decide_eq_true_2 by done. simpl. repeat case_match; eauto.
Qed.

Lemma sidecar_ok signed_bytes signature keys now window reject_before (v : Verified T) :
  (0 <= window)%Z ->
  verify_signed_sidecar signed_bytes signature keys now window reject_before = Returned (Ok v) <->
  window_fits window /\
  exists canonical, canonical_form signed_bytes canonical /\
    Exists (key_accepts canonical signature) keys /\
    payload_ok canonical reject_before v /\ in_window window now (v_signed_at v).
Proof.
  intros Hw. unfold verify_signed_sidecar.
  destruct (verify_signature_against_trust_roots _ _ _) as [c|e] eqn:E.
  - apply trust_roots_spec in E as [Hc Hk]. rewrite finish_ok by done.
    split; [intros (? & ? & ?); split; [done|]; by exists c|].
    intros (Hfit & c' & Hc' & _ & Hp & Hi). by rewrite (canonical_form_unique _ _ _ Hc Hc').
  - split; [done|]. intros (_ & c & Hc & Hk & _).
    assert (verify_signature_against_trust_roots signed_bytes signature keys = Ok c) by
      by apply trust_roots_spec.
    congruence.
Qed.

(** C4.  What an accepted artifact is.  [verify_signed_sidecar] returns a payload
    exactly when the received bytes are UTF-8 and JSON, one of the trusted keys,
    in whatever position, verifies the signature over their canonical form, and
    the payload decoded from that form has the accepted schema version and a
    signing time that is not before the compromise switch, not older than the
    window plus a minute and not more than a minute ahead.  No other bytes, and
    no malformed or unknown key in the list, change the answer.  The algorithm the
    payload names in [meta.signatureAlgorithm] is not among the conditions, although
    the contract asks consumers to check it against that of the key. *)
Theorem verify_accepts_iff (signed_bytes signature : string) (keys : list TrustedPubkey)
    (now : DateTime) (window : Duration) (reject_before : option DateTime) (v : Verified T) :
  (0 <= window)%Z ->
  verify_signed_sidecar signed_bytes signature keys now window reject_before = Returned (Ok v) <->
  window_fits window /\
  exists canonical, canonical_form signed_bytes canonical /\
    Exists (key_accepts canonical signature) keys /\
    payload_ok canonical reject_before v /\ in_window window now (v_signed_at v).
Proof. apply sidecar_ok. Qed.

(** The freshness window and the width of a [TimeDelta].  The check never
    panics for a window that leaves room for the slack, which every window a
    channel can declare does; for a longer one it panics on every artifact that
    passes the checks before it. *)
Theorem window_overflow_panics (signed_bytes signature : string) (keys : list TrustedPubkey)
    (now : DateTime) (window : Duration) (reject_before : option DateTime) :
  let r := verify_signed_sidecar (T := T) signed_bytes signature keys now window reject_before in
  (window_fits window -> exists x, r = Returned x) /\
  (forall canonical v, (time_delta_max - slack < window)%Z ->
     verify_signature_against_trust_roots signed_bytes signature keys = Ok canonical ->
     payload_ok canonical reject_before v -> r = Panicked) /\
  (forall c : Channel, (0 <= ch_freshness_window c <= u32_max)%Z ->
     window_fits (freshness_window_duration c)).
Proof.
  intros r. unfold r, verify_signed_sidecar. split_and!.
  - intros Hfit. destruct (verify_signature_against_trust_roots _ _ _); [|eauto].
    by apply finish_not_panicked.
  - intros canonical v Hlong -> Hv.
    destruct (finish_cases canonical now window reject_before) as [(e & _ & Hno)|(v' & _ & ->)];
      [by destruct (Hno v)|].
    assert (Hpos : (0 <= time_delta_max - slack)%Z) by by vm_compute.
    rewrite time_delta_window by lia.
    rewrite bool_decide_eq_false_2; [done|]. unfold window_fits. lia.
  - intros c Hc. unfold freshness_window_duration, window_fits, u32_max in *.
    rewrite u64_wrap_small by (unfold u64_max; lia).
    unfold slack, time_delta_max, duration_seconds, CLOCK_SKEW_SLACK_SECS, nanos_per_sec. lia.
Qed.

(** Rotation and compromise of the release key.  With the keys and the
    switch of a slot, an accepted artifact is signed by its current or previous
    key, or by the successor strictly before the retirement, and never dated
    before [reject_before].  From the retirement on the successor alone is
    refused, and exactly then the rotation of the slot is reported as due. *)
Theorem key_rotation_spec (signed_bytes signature : string) (trust : TrustConfig) (now : DateTime)
    (window : Duration) (v : Verified T) :
  let slot := tc_ci_release_key trust in
  (0 <= window)%Z ->
  verify_signed_sidecar signed_bytes signature (active_keys_at slot now) now window
    (ks_reject_before slot) = Returned (Ok v) ->
  not_rejected (ks_reject_before slot) (v_signed_at v) /\
  exists canonical k, canonical_form signed_bytes canonical /\ key_accepts canonical signature k /\
    (ks_current slot = Some k \/ ks_previous slot = Some k \/
     ks_successor slot = Some k /\
     forall r, ks_retire_at slot = Some r ->
       (now < r)%Z /\ (MkRotateTrustRoot "ciReleaseKey" r ∉ check_trust_rotations trust now) /\
       forall now', (r <= now')%Z ->
         active_keys_at slot now' = active_keys slot /\
         MkRotateTrustRoot "ciReleaseKey" r ∈ check_trust_rotations trust now').
Proof.
  intros slot Hw Hok. unfold verify_signed_sidecar in Hok.
  destruct (verify_signature_against_trust_roots _ _ _) as [c|] eqn:E; [|done].
  apply finish_ok in Hok as ((_ & _ & _ & Hrej) & _); [|done]. split; [done|].
  apply trust_roots_spec in E as [Hc Hk]. apply Exists_exists in Hk as (k & Hin & Hk).
  exists c, k. split_and!; [done..|]. apply active_keys_at_spec in Hin as [Hin|[Hin|(Hs & r & Hr & Hlt)]].
  - by left.
  - by right; left.
  - right; right. split; [done|]. intros r' Hr'. assert (r' = r) as -> by congruence.
    split_and!; [done| |].
    + by eapply rotation_not_due.
    + intros now' Hge. split; [by eapply retired_keys|by eapply rotation_due].
Qed.

End payload.
End verify.

(** ** A concrete instance of the third-party code *)

(** The first [n] bytes, padded with spaces. *)
Fixpoint pad (n : nat) (s : string) : string :=
  match n, s with
  | 0, _ => EmptyString
  | S n, EmptyString => String " " (pad n EmptyString)
  | S n, String c s => String c (pad n s)
  end.

Definition sample_sign (public message : string) : string := pad 64 (public +:+ message).

Definition sample_crypto : Crypto := {|
  Value := string;
  parse_value := Ok;
  jcs_to_string := Ok;
  base64_decode := fun s => Ok (pad 32 s);
  Ed25519Key := string;
  ed25519_from_bytes := Ok;
  verify_strict := fun k m s => bool_decide (s = sample_sign k m);
  EncodedPoint := string;
  P256Key := string;
  P256Signature := string;
  encoded_point_from_bytes := Ok;
  from_encoded_point := Ok;
  p256_from_slice := Some;
  normalize_s := fun _ => None;
  p256_verify := fun _ _ _ => false;
  sha256 := pad 32;
  utf8_error := fun _ => "";
|}.

Definition sample_manifest : RolloutManifest :=
  MkRolloutManifest 1 "stable@abc" "stable" "abc" "" [MkHostWave "web-1" 0 "new"] (MkHealthGate None) []
    (MkMeta 1 (Some 0%Z) (Some "abc") None).

Definition sample_decoder : DeserializeOwned RolloutManifest := fun s =>
  if bool_decide (s = "manifest") then Ok sample_manifest else Err "unexpected".

Definition sample_key (name : string) : TrustedPubkey := MkTrustedPubkey "ed25519" name.

Lemma verify_accepts_iff_witness :
  verify_signed_sidecar (Cr := sample_crypto) (H := sample_decoder) "manifest"
    (sample_sign (pad 32 "ci") "manifest") [MkTrustedPubkey "rsa" "old"; sample_key "previous"; sample_key "ci"]
    (duration_minutes 5) (duration_minutes 60) None = Returned (Ok (MkVerified sample_manifest 0%Z)).
Proof.
  apply verify_accepts_iff; [by vm_compute|]. split; [by vm_compute|].
  exists "manifest". split; [split; [done|by exists "manifest"]|]. split.
  - do 2 apply Exists_cons_tl. apply Exists_cons_hd. left. by split; vm_compute.
  - split; [by split_and!|by vm_compute].
Defined.

Definition sample_trust : TrustConfig :=
  MkTrustConfig 1 (MkKeySlot (Some (sample_key "ci")) None None (Some (sample_key "next"))
    (Some (duration_minutes 10))) [] None None [].

(** The successor signs during the overlap. *)
Lemma key_rotation_spec_witness :
  let r := verify_signed_sidecar (Cr := sample_crypto) (H := sample_decoder) "manifest"
    (sample_sign (pad 32 "next") "manifest")
    (active_keys_at (tc_ci_release_key sample_trust) (duration_minutes 5))
    (duration_minutes 5) (duration_minutes 60) None in
  r = Returned (Ok (MkVerified sample_manifest 0%Z)) /\ not_rejected None 0.
Proof.
  intros r. assert (Hr : r = Returned (Ok (MkVerified sample_manifest 0%Z))) by by vm_compute.
  split; [done|].
  refine (proj1 (key_rotation_spec (Cr := sample_crypto) (De := sample_decoder) "manifest"
    (sample_sign (pad 32 "next") "manifest") sample_trust (duration_minutes 5) (duration_minutes 60)
    (MkVerified sample_manifest 0%Z) _ Hr)).
  by vm_compute.
Defined.
