(* ===== verification/Manifest.v ===== *)
(** * The projection of a fleet to a rollout manifest

    Models [crates/nixfleet-reconciler/src/manifest.rs]: what the release tool
    writes, and what the agents and the control plane derive again.  The host
    and channel maps are visited in an arbitrary order. *)

From S2P Require Import Prelude RustStd Proto Gates Verify.

(** [sort] and [sort_by] on names: the byte order of [str]. *)
Definition hostname_le (a b : HostWave) : Prop := (hw_hostname a ≤ hw_hostname b)%string.
#[export] Instance hostname_le_dec : RelDecision hostname_le.
Proof. intros a b. unfold hostname_le. apply _. Defined.

Section manifest.
Context {O : HashOrder}.

(** One iteration of the loop over the hosts. *)
Definition host_wave_of (waves : option (list Wave)) (channel : string) (entry : string * Host)
    : option HostWave :=
  let '(hostname, host) := entry in
  if negb (bool_decide (host_channel host = channel)) then None
  else
    match host_closure_hash host with
    | None => None
    | Some target_closure =>
        let wave_index : u32 :=
          match waves with
          | Some ws =>
              from_option (fun i => u32_wrap (Z.of_nat i)) 0%Z
                (position (fun w => mem_str hostname (wave_hosts w)) ws)
          | None => 0%Z
          end in
        Some (MkHostWave hostname wave_index target_closure)
    end.

Definition budget_of (fleet : FleetResolved) (b : DisruptionBudget) : RolloutBudget := {|
  rb_selector := db_selector b;
  rb_hosts := merge_sort (≤)%string (selector.resolve (db_selector b) (hash_iter (fr_hosts fleet)));
  rb_max_in_flight := db_max_in_flight b;
  rb_max_in_flight_pct := db_max_in_flight_pct b;
|}.

Definition project_manifest (fleet : FleetResolved) (channel fleet_resolved_hash : string)
    (signed_at : DateTime) (ci_commit : option string) (signature_algorithm : string)
    : result (option RolloutManifest) string :=
  match fr_channels fleet !! channel with
  | None => Err ("channel " +:+ channel +:+ " missing from fleet.channels")
  | Some channel_def =>
      match fr_rollout_policies fleet !! ch_rollout_policy channel_def with
      | None =>
          Err ("rollout policy " +:+ ch_rollout_policy channel_def +:+ " for channel " +:+ channel
               +:+ " not found in fleet.rolloutPolicies")
      | Some policy =>
          let waves := fr_waves fleet !! channel in
          let host_set := omap (host_wave_of waves channel) (hash_iter (fr_hosts fleet)) in
          if is_empty host_set then Ok None
          else
            let host_set := merge_sort hostname_le host_set in
            let display_name :=
              channel +:+ "@" +:+ from_option (take_chars 8) "unknown" ci_commit in
            let channel_ref := default "" ci_commit in
            let disruption_budgets := map (budget_of fleet) (fr_disruption_budgets fleet) in
            Ok (Some {|
              rm_schema_version := 1;
              rm_display_name := display_name;
              rm_channel := channel;
              rm_channel_ref := channel_ref;
              rm_fleet_resolved_hash := fleet_resolved_hash;
              rm_host_set := host_set;
              rm_health_gate := rp_health_gate policy;
              rm_disruption_budgets := disruption_budgets;
              rm_meta := MkMeta 1 (Some signed_at) ci_commit (Some signature_algorithm);
            |})
      end
  end.

Definition compute_rollout_id_for_channel (fleet : FleetResolved) (fleet_resolved_hash channel : string)
    : result (option string) string :=
  match meta_signed_at (fr_meta fleet) with
  | None => Err "fleet.meta.signedAt is None - cannot project manifest"
  | Some signed_at =>
      let ci_commit := meta_ci_commit (fr_meta fleet) in
      match project_manifest fleet channel fleet_resolved_hash signed_at ci_commit
              (signature_algorithm_or_default (fr_meta fleet)) with
      | Err e => Err e
      | Ok None => Ok None
      | Ok (Some manifest) =>
          Ok (Some (rid_raw (rollout_id.new (rm_channel manifest) (rm_channel_ref manifest))))
      end
  end.

(** Channels that err or have no host are left out. *)
Definition current_rollout_ids (fleet : FleetResolved) (fleet_resolved_hash : string) : gset string :=
  list_to_set (omap (fun ch =>
    match compute_rollout_id_for_channel fleet fleet_resolved_hash ch with
    | Ok id => id
    | Err _ => None
    end) (hash_iter (fr_channels fleet)).*1).

End manifest.
#[global] Arguments host_wave_of : simpl never.

(** ** Lemmas *)

Lemma host_wave_of_Some waves channel hostname host hw :
  host_wave_of waves channel (hostname, host) = Some hw <->
  host_channel host = channel /\ hw_hostname hw = hostname /\
  host_closure_hash host = Some (hw_target_closure hw) /\
  hw_wave_index hw =
    match waves with
    | Some ws =>
        from_option (fun i => u32_wrap (Z.of_nat i)) 0%Z
          (position (fun w => mem_str hostname (wave_hosts w)) ws)
    | None => 0%Z
    end.
Proof.
  unfold host_wave_of. case_bool as [Hc|Hc]; simpl; [|naive_solver].
  destruct (host_closure_hash host) as [c|]; [|naive_solver].
  destruct hw as [h i t]. simpl. naive_solver.
Qed.

(** Sorting by an injective key forgets the order of the input. *)
Lemma merge_sort_perm_unique {A} (R : A -> A -> Prop) `{!RelDecision R, !Total R, !Transitive R}
    (l l' : list A) :
  (forall x y, x ∈ l -> y ∈ l -> R x y -> R y x -> x = y) ->
  l ≡ₚ l' -> merge_sort R l = merge_sort R l'.
Proof.
  intros Hinj Hp. apply (Sorted_unique_strong R).
  - intros x y Hx Hy. rewrite merge_sort_Permutation in Hx. rewrite merge_sort_Permutation, <- Hp in Hy.
    by apply Hinj.
  - by apply Sorted_merge_sort.
  - by apply Sorted_merge_sort.
  - by rewrite !merge_sort_Permutation.
Qed.

#[export] Instance hostname_le_total : Total hostname_le.
Proof. intros a b. apply (total String.le). Qed.
#[export] Instance hostname_le_trans : Transitive hostname_le.
Proof. intros a b c. apply (transitivity (R := String.le)). Qed.

Lemma host_set_elem {O : HashOrder} fleet waves channel hw :
  hw ∈ omap (host_wave_of waves channel) (hash_iter (fr_hosts fleet)) <->
  exists host, fr_hosts fleet !! hw_hostname hw = Some host /\
    host_wave_of waves channel (hw_hostname hw, host) = Some hw.
Proof.
  rewrite list_elem_of_omap. split.
  - intros ([hostname host] & Hin & Hw). apply elem_of_hash_iter in Hin.
    pose proof (proj1 (host_wave_of_Some _ _ _ _ _) Hw) as (_ & <- & _). by exists host.
  - intros (host & Hin & Hw). exists (hw_hostname hw, host). by rewrite elem_of_hash_iter.
Qed.

Lemma host_set_NoDup {O : HashOrder} fleet waves channel :
  NoDup (hw_hostname <$> omap (host_wave_of waves channel) (hash_iter (fr_hosts fleet))).
Proof.
  apply (sublist_NoDup _ (hash_iter (fr_hosts fleet)).*1); [apply NoDup_fst_hash_iter|].
  induction (hash_iter (fr_hosts fleet)) as [|[hostname host] l IH]; [done|]. csimpl.
  destruct (host_wave_of waves channel (hostname, host)) as [hw|] eqn:E; csimpl.
  - apply host_wave_of_Some in E as (_ & -> & _). by apply sublist_skip.
  - by apply sublist_cons.
Qed.

Lemma omap_perm {A B} (f : A -> option B) (l l' : list A) : l ≡ₚ l' -> omap f l ≡ₚ omap f l'.
Proof. intros Hp. by rewrite Hp. Qed.

Lemma hash_iter_orders (O1 O2 : HashOrder) {K} `{Countable K} {V} (m : gmap K V) :
  @hash_iter O1 K _ _ V m ≡ₚ @hash_iter O2 K _ _ V m.
Proof. by rewrite !hash_iter_perm. Qed.

Lemma host_set_deterministic (O1 O2 : HashOrder) fleet waves channel :
  merge_sort hostname_le (omap (host_wave_of waves channel) (@hash_iter O1 _ _ _ _ (fr_hosts fleet))) =
  merge_sort hostname_le (omap (host_wave_of waves channel) (@hash_iter O2 _ _ _ _ (fr_hosts fleet))).
Proof.
  apply (merge_sort_perm_unique hostname_le); [|apply omap_perm, hash_iter_orders].
  intros x y Hx Hy Hxy Hyx. apply host_set_elem in Hx as (hx & Hx & Hwx), Hy as (hy & Hy & Hwy).
  assert (E : hw_hostname x = hw_hostname y) by by apply (anti_symm String.le).
  rewrite E in Hx, Hwx. congruence.
Qed.

Lemma budget_of_deterministic (O1 O2 : HashOrder) fleet b :
  @budget_of O1 fleet b = @budget_of O2 fleet b.
Proof.
  unfold budget_of. f_equal. apply (merge_sort_perm_unique String.le).
  - intros x y _ _. apply (anti_symm String.le).
  - unfold selector.resolve. apply fmap_Permutation.
    by rewrite (hash_iter_orders O1 O2).
Qed.

Lemma is_empty_perm {A} (l l' : list A) : l ≡ₚ l' -> is_empty l = is_empty l'.
Proof. intros Hp. apply Permutation_length in Hp. by destruct l, l'. Qed.

Lemma project_manifest_deterministic (O1 O2 : HashOrder) fleet channel hash at_ commit algorithm :
  @project_manifest O1 fleet channel hash at_ commit algorithm =
  @project_manifest O2 fleet channel hash at_ commit algorithm.
Proof.
  unfold project_manifest. destruct (fr_channels fleet !! channel); [|done].
  destruct (fr_rollout_policies fleet !! _); [|done].
  rewrite (is_empty_perm _ _ (omap_perm _ _ _ (hash_iter_orders O1 O2 (fr_hosts fleet)))).
  destruct (is_empty _); [done|]. do 3 f_equal; [apply host_set_deterministic|].
  apply map_ext. intros b. apply budget_of_deterministic.
Qed.

Lemma rollout_id_deterministic (O1 O2 : HashOrder) fleet hash channel :
  @compute_rollout_id_for_channel O1 fleet hash channel =
  @compute_rollout_id_for_channel O2 fleet hash channel.
Proof.
  unfold compute_rollout_id_for_channel. destruct (meta_signed_at _); [|done].
  by rewrite (project_manifest_deterministic O1 O2).
Qed.

(** ** Properties *)

(** The producer, the control plane and the agents derive the same manifest.
    The projection, the rollout identifier of a channel and the set of current
    identifiers are functions of the fleet alone: no iteration order of the
    host and channel maps changes a byte of them. *)
Theorem projection_is_deterministic (O1 O2 : HashOrder) (fleet : FleetResolved)
    (hash channel : string) (signed_at : DateTime) (ci_commit : option string) (algorithm : string) :
  @project_manifest O1 fleet channel hash signed_at ci_commit algorithm =
  @project_manifest O2 fleet channel hash signed_at ci_commit algorithm /\
  @compute_rollout_id_for_channel O1 fleet hash channel =
  @compute_rollout_id_for_channel O2 fleet hash channel /\
  @current_rollout_ids O1 fleet hash = @current_rollout_ids O2 fleet hash.
Proof.
  split_and!; [apply project_manifest_deterministic|apply rollout_id_deterministic|].
  unfold current_rollout_ids.
  apply leibniz_equiv, list_to_set_perm.
  etrans; [apply omap_perm; by rewrite (hash_iter_orders O1 O2)|].
  apply reflexive_eq, list_omap_ext, Forall_Forall2_diag, Forall_true. intros ch.
  by rewrite (rollout_id_deterministic O1 O2).
Qed.

(** What a projected manifest holds.  Its host set lists, in name order and
    once each, exactly the hosts of the channel that have a closure, with that
    closure and the first wave that names them (wave 0 when none does); there is
    no manifest exactly when no host has one.  Its identifier is the channel and
    the commit, whatever the hash of the fleet. *)
Theorem projection_spec {O : HashOrder} (fleet : FleetResolved) (hash channel : string)
    (def : Channel) (policy : RolloutPolicy) (t : DateTime) :
  fr_channels fleet !! channel = Some def ->
  fr_rollout_policies fleet !! ch_rollout_policy def = Some policy ->
  meta_signed_at (fr_meta fleet) = Some t ->
  let commit := meta_ci_commit (fr_meta fleet) in
  let staged hw := exists host, fr_hosts fleet !! hw_hostname hw = Some host /\
    host_wave_of (fr_waves fleet !! channel) channel (hw_hostname hw, host) = Some hw in
  match project_manifest fleet channel hash t commit (signature_algorithm_or_default (fr_meta fleet)) with
  | Ok (Some m) =>
      (forall hw, hw ∈ rm_host_set m <-> staged hw) /\
      Sorted hostname_le (rm_host_set m) /\ NoDup (hw_hostname <$> rm_host_set m) /\
      rm_host_set m <> [] /\ rm_channel m = channel /\ rm_fleet_resolved_hash m = hash /\
      compute_rollout_id_for_channel fleet hash channel =
        Ok (Some (rid_raw (rollout_id.new channel (default "" commit))))
  | Ok None =>
      (forall hw, ~ staged hw) /\ compute_rollout_id_for_channel fleet hash channel = Ok None
  | Err _ => False
  end.
Proof.
  intros Hch Hp Ht commit staged. unfold compute_rollout_id_for_channel. rewrite Ht.
  fold commit. unfold project_manifest. rewrite Hch, Hp.
  set (l := omap _ _). destruct (is_empty l) eqn:El.
  - apply is_empty_spec in El. split; [|done]. intros hw Hhw.
    apply host_set_elem in Hhw. fold l in Hhw. rewrite El in Hhw. by apply elem_of_nil in Hhw.
  - cbn [rm_host_set rm_channel rm_fleet_resolved_hash rm_channel_ref].
    split_and!; [|apply (Sorted_merge_sort hostname_le)|..|done|done|done].
    + intros hw. rewrite merge_sort_Permutation. apply host_set_elem.
    + rewrite merge_sort_Permutation. apply host_set_NoDup.
    + intros E. assert (Hl : l ≡ₚ []) by by rewrite <- (merge_sort_Permutation hostname_le l), E.
      apply Permutation_nil_r in Hl. by rewrite Hl in El.
Qed.

(** Two of three hosts are staged, in the order of their names. *)
Definition projected_fleet : FleetResolved :=
  let host ch closure := MkHost "x86_64-linux" [] ch closure None None in
  MkFleetResolved 1
    {[ "web-2" := host "stable" (Some "b"); "web-1" := host "stable" (Some "a");
       "db-1" := host "edge" (Some "c"); "new-1" := host "stable" None ]}
    {[ "stable" := MkChannel "p" 5 180 60 ]}
    {[ "p" := MkRolloutPolicy "waves" [] (MkHealthGate None) OnHealthFailure.Halt ]}
    {[ "stable" := [MkWave ["web-1"] 0; MkWave ["web-2"] 5] ]} [] [] []
    (MkMeta 1 (Some 0%Z) (Some "abcdef0123") None).

Lemma projection_spec_witness :
  match project_manifest (O := list_order) projected_fleet "stable" "hash" 0 (Some "abcdef0123") "ed25519" with
  | Ok (Some m) =>
      rm_host_set m = [MkHostWave "web-1" 0 "a"; MkHostWave "web-2" 1 "b"] /\
      rm_display_name m = "stable@abcdef01" /\ NoDup (hw_hostname <$> rm_host_set m)
  | _ => False
  end.
Proof.
  pose proof (projection_spec (O := list_order) projected_fleet "hash" "stable" (MkChannel "p" 5 180 60)
    (MkRolloutPolicy "waves" [] (MkHealthGate None) OnHealthFailure.Halt) 0 eq_refl eq_refl eq_refl) as H.
  cbv zeta in H. change (meta_ci_commit (fr_meta projected_fleet)) with (Some "abcdef0123") in H.
  change (signature_algorithm_or_default (fr_meta projected_fleet)) with "ed25519" in H.
  destruct (project_manifest (O := list_order) projected_fleet "stable" "hash" 0 (Some "abcdef0123") "ed25519")
    as [[m|]|] eqn:E; try (vm_compute in E; discriminate E).
  split_and!; [..|apply H]; vm_compute in E; injection E as <-; reflexivity.
Defined.
