(* ===== verification/HostKeyProps.v ===== *)
(** * Host keys and DER: round trips and bounds *)

From S2P Require Import Prelude RustStd Verify HostKey.

(** ** DER integers *)

(** Big endian. *)
Definition be_value (l : list u8) : Z := fold_left (fun v b => 256 * v + b)%Z l 0%Z.

Definition is_byte (b : u8) : Prop := (0 <= b < 256)%Z.

(** The value of the content of a DER integer: two's complement. *)
Definition signed_value (l : list u8) : Z :=
  match l with
  | b :: _ => if Z.ltb b 128 then be_value l else (be_value l - 256 ^ Z.of_nat (length l))%Z
  | [] => 0%Z
  end.

(** The first nine bits of the content are not all equal. *)
Definition minimal (l : list u8) : Prop :=
  match l with
  | a :: b :: _ => ~ (a = 0%Z /\ (b < 128)%Z) /\ ~ (a = 255%Z /\ (128 <= b)%Z)
  | _ => l <> []
  end.

Lemma be_value_acc l v :
  fold_left (fun v b => 256 * v + b)%Z l v = (v * 256 ^ Z.of_nat (length l) + be_value l)%Z.
Proof.
  unfold be_value. revert v. induction l as [|b l IH]; intros v; [simpl; lia|].
  cbn [fold_left length]. rewrite (IH (256 * v + b)%Z), (IH (256 * 0 + b)%Z).
  rewrite Nat2Z.inj_succ, Z.pow_succ_r by lia. lia.
Qed.

Lemma be_value_cons b l : be_value (b :: l) = (b * 256 ^ Z.of_nat (length l) + be_value l)%Z.
Proof. unfold be_value at 1. cbn [fold_left]. by rewrite be_value_acc. Qed.

Lemma strip_zeros_cons b c l :
  strip_zeros (b :: c :: l) = if Z.eqb b 0 then strip_zeros (c :: l) else b :: c :: l.
Proof. done. Qed.

Lemma strip_zeros_spec l :
  l <> [] ->
  be_value (strip_zeros l) = be_value l /\ length (strip_zeros l) <= length l /\
  (Forall is_byte l -> Forall is_byte (strip_zeros l)) /\
  exists b rest, strip_zeros l = b :: rest /\ (b <> 0%Z \/ rest = []).
Proof.
  intros Hne. induction l as [|b [|c l] IH]; [done|split_and!; eauto|].
  rewrite strip_zeros_cons. destruct (Z.eqb_spec b 0) as [->|Hb].
  - destruct IH as (Hv & Hl & Hf & Hs); [done|].
    split_and!; [by rewrite Hv, (be_value_cons 0)|simpl in *; lia|by intros [_ ?]%Forall_cons; auto|done].
  - split_and!; eauto.
Qed.

Lemma land_high b : is_byte b -> negb (Z.eqb (Z.land b 0x80) 0) = negb (Z.ltb b 128).
Proof.
  intros Hb.
  assert (H : forallb (fun n => let b := Z.of_nat n in
             Bool.eqb (negb (Z.eqb (Z.land b 0x80) 0)) (negb (Z.ltb b 128))) (seq 0 256) = true)
    by by vm_compute.
  rewrite forallb_forall in H. specialize (H (Z.to_nat b)). cbv zeta in H.
  rewrite Z2Nat.id in H by (destruct Hb; lia).
  apply eqb_prop, H, in_seq. destruct Hb. lia.
Qed.

Lemma u8_wrap_small z : (0 <= z < 256)%Z -> u8_wrap z = z.
Proof. intros H. by apply Z.mod_small. Qed.

(** One integer: a tag, a length and a minimal content of the same value. *)
Lemma der_encode_int_spec l :
  l <> [] -> length l < 127 -> Forall is_byte l ->
  exists content,
    der_encode_int l = Returned ([2; Z.of_nat (length content)]%Z ++ content) /\
    signed_value content = be_value l /\ minimal content /\ Forall is_byte content /\
    1 <= length content <= S (length l).
Proof.
  intros Hne Hlen Hb. unfold der_encode_int.
  destruct (strip_zeros_spec l Hne) as (Hv & Hl & Hf & b & rest & Hs & Hb0). specialize (Hf Hb).
  rewrite Hs in *. apply Forall_cons in Hf as [Hbb Hrest]. rewrite land_high by done.
  destruct (Z.ltb_spec b 128) as [Hlt|Hge]; cbn [negb].
  - exists (b :: rest). rewrite u8_wrap_small by (simpl in *; lia). rewrite Z.add_0_r.
    split_and!; [done|simpl; rewrite (proj2 (Z.ltb_lt _ _)) by done; exact Hv| |by constructor|simpl in *; lia..].
    destruct rest as [|c rest]; [done|]. destruct Hb0 as [Hb0|]; [|done]. split; intros []; lia.
  - exists (0%Z :: b :: rest). rewrite u8_wrap_small by (simpl in *; lia).
    split_and!.
    + simpl. do 4 f_equal. lia.
    + simpl. rewrite be_value_cons. lia.
    + split; intros []; lia.
    + constructor; [by split|by constructor].
    + simpl. lia.
    + simpl in *. lia.
Qed.

(** ** Properties *)

(** The DER of a TPM signature.  For 64 bytes the encoder returns, without a
    panic, a SEQUENCE of two INTEGERs in canonical form: each content is minimal
    and stands, in two's complement, for the unsigned value of its half, so it is
    never negative; every length fits in one byte below 128, and is the length
    of what follows; the whole has at most 72 bytes.  Any other number of bytes
    is refused. *)
Theorem der_signature_roundtrip (raw : list u8) :
  Forall is_byte raw ->
  (length raw <> 64 -> exists e, der_encode_ecdsa_p256_sig raw = Returned (Err e)) /\
  (length raw = 64 -> exists r s,
     let body := [2; Z.of_nat (length r)]%Z ++ r ++ [2; Z.of_nat (length s)]%Z ++ s in
     der_encode_ecdsa_p256_sig raw = Returned (Ok ([0x30; Z.of_nat (length body)]%Z ++ body)) /\
     signed_value r = be_value (take 32 raw) /\ signed_value s = be_value (drop 32 raw) /\
     minimal r /\ minimal s /\ Forall is_byte body /\
     length r <= 33 /\ length s <= 33 /\ length body <= 70).
Proof.
  intros Hb. unfold der_encode_ecdsa_p256_sig. split; intros Hlen.
  { rewrite bool_decide_eq_false_2 by done. by eexists. }
  rewrite bool_decide_eq_true_2 by done. cbn [negb].
  assert (H1 : length (take 32 raw) = 32) by (rewrite length_take; lia).
  assert (H2 : length (drop 32 raw) = 32) by (rewrite length_drop; lia).
  destruct (der_encode_int_spec (take 32 raw)) as (r & -> & Hr & Hmr & Hfr & Hlr);
    [by intros E; rewrite E in H1|lia|by apply Forall_take|].
  destruct (der_encode_int_spec (drop 32 raw)) as (s & -> & Hs & Hms & Hfs & Hls);
    [by intros E; rewrite E in H2|lia|by apply Forall_drop|].
  rewrite H1 in Hlr. rewrite H2 in Hls. exists r, s. cbn [bind_ended]. rewrite !length_app. simpl length.
  split_and!; try done; try lia.
  - rewrite u8_wrap_small by lia. rewrite <- !app_assoc. simpl. do 4 f_equal. lia.
  - repeat (apply Forall_app_2 || apply Forall_cons_2 || apply Forall_nil_2); try done; split; lia.
Qed.

(** Both halves start with a set bit, so both are padded. *)
Lemma der_signature_roundtrip_witness :
  let raw := repeat 200%Z 64 in
  der_encode_ecdsa_p256_sig raw =
    Returned (Ok ([0x30; 70; 2; 33; 0] ++ repeat 200 32 ++ [2; 33; 0] ++ repeat 200 32)%Z) /\
  exists r s,
    let body := [2; Z.of_nat (length r)]%Z ++ r ++ [2; Z.of_nat (length s)]%Z ++ s in
    der_encode_ecdsa_p256_sig raw = Returned (Ok ([0x30; Z.of_nat (length body)]%Z ++ body)) /\
    signed_value r = be_value (repeat 200%Z 32) /\ minimal s.
Proof.
  intros raw. split; [by vm_compute|].
  destruct (der_signature_roundtrip raw) as [_ H];
    [unfold raw; cbn [repeat]; repeat apply Forall_cons_2; try apply Forall_nil_2; by split|].
  destruct (H eq_refl) as (r & s & He & Hr & _ & _ & Hm & _). by exists r, s.
Defined.
