(* ===== verification/Issuance.v ===== *)
(** * Certificates and tokens of the control plane

    Models, of [crates/nixfleet-control-plane/src/]: the names, tokens,
    certificates and audit records of [auth/issuance.rs] and the peer certificate
    of [auth/auth_cn.rs]; and the wire types of
    [nixfleet-proto/src/{enroll_wire,revocations,bootstrap_nonces}.rs].  X.509
    (rcgen, x509-parser) and the signature over a token are the class [Pki]. *)

From S2P Require Import Prelude RustStd Proto Gates Verify HostKey.

(** ** Wire types *)

Record TokenClaims := MkTokenClaims {
  cl_hostname : string;
  cl_expected_pubkey_fingerprint : string;
  cl_issued_at : DateTime;
  cl_expires_at : DateTime;
  cl_nonce : string;
}.

Record BootstrapToken := MkBootstrapToken {
  bt_version : u32;
  bt_claims : TokenClaims;
  bt_signature : string;
}.

Record EnrollRequest := MkEnrollRequest {
  er_token : BootstrapToken;
  er_csr_pem : string;
}.

(** Also [RenewResponse]. *)
Record EnrollResponse := MkEnrollResponse {
  en_cert_pem : string;
  en_not_after : DateTime;
}.

Record RevocationEntry := MkRevocationEntry {
  rv_hostname : string;
  rv_not_before : DateTime;
  rv_reason : option string;
  rv_revoked_by : option string;
}.
#[export] Instance RevocationEntry_eq_dec : EqDecision RevocationEntry.
Proof. solve_decision. Defined.

Record Revocations := MkRevocations {
  revs_schema_version : u32;
  revs_revocations : list RevocationEntry;
  revs_meta : Meta;
}.
#[export] Instance Revocations_eq_dec : EqDecision Revocations.
Proof. solve_decision. Defined.

Record BootstrapNonceEntry := MkBootstrapNonceEntry {
  bn_nonce : string;
  bn_hostname : string;
  bn_expires_at : DateTime;
  bn_minted_at : option DateTime;
  bn_minted_by : option string;
}.

Record BootstrapNonces := MkBootstrapNonces {
  bns_schema_version : u32;
  bns_bootstrap_nonces : list BootstrapNonceEntry;
  bns_meta : Meta;
}.

#[export] Instance Revocations_sidecar : SignedSidecar Revocations := {|
  schema_version := revs_schema_version;
  signed_at := fun r => meta_signed_at (revs_meta r);
|}.

#[export] Instance BootstrapNonces_sidecar : SignedSidecar BootstrapNonces := {|
  schema_version := bns_schema_version;
  signed_at := fun b => meta_signed_at (bns_meta b);
|}.

(** ** X.509 *)

Inductive DnType :=
| CommonName
| OtherType (oid : string).
#[export] Instance DnType_eq_dec : EqDecision DnType.
Proof. solve_decision. Defined.

Inductive DnValue :=
| PrintableString (s : string)
| Utf8String (s : string)
| OtherValue (debug : string).                       (* its [Debug] text *)

Inductive ExtendedKeyUsage :=
| ClientAuth
| OtherUsage (oid : string).

Inductive SanType :=
| DnsName (s : string)
| OtherName (s : string).

(** What the code reads and writes of [CertificateParams]; [cp_rest] is what it
    leaves as it came. *)
Record CertParams := MkCertParams {
  cp_distinguished_name : list (DnType * DnValue);
  cp_extended_key_usages : list ExtendedKeyUsage;
  cp_subject_alt_names : list SanType;
  cp_not_before : Z;
  cp_not_after : Z;
  cp_rest : string;
}.

(** A parsed request: its parameters and [public_key.der_bytes()]. *)
Record Csr := MkCsr {
  csr_params : CertParams;
  csr_public_key : string;
}.

(** A parsed peer certificate: the common names, [None] for one that is not
    text, and the seconds of [notBefore]. *)
Record Certificate := MkCertificate {
  x_common_names : list (option string);
  x_not_before : i64;
}.

Class Pki {Cr : Crypto} := {
  csr_from_pem : string -> result Csr string;
  CaCert : Type;
  CaKey : Type;
  signed_by : CertParams -> string -> CaCert -> CaKey -> result string string;  (* then [pem()] *)
  is_dns_name : string -> bool;
  fits_offset_date_time : Z -> bool;
  certificate_from_der : string -> option Certificate;
  claims_to_string : TokenClaims -> result string string;
  ed25519_signature_from_slice : string -> option string;
  ed25519_verify : Ed25519Key -> string -> string -> bool;
}.

(** [dyn CaSigner]: the key pair is made for each certificate. *)
Record CaSigner `{Pki} := MkCaSigner {
  issuer : CaCert;
  make_key_pair : result CaKey string;
}.

Module TrustVerifyError.
Inductive t :=
| TrustFileRead (source : string)
| TrustFileParse (source : string)
| NoOrgRootKey
| NoActiveKeys
| SignatureMismatch.
#[global] Instance t_eq_dec : EqDecision t.
Proof. solve_decision. Defined.
End TrustVerifyError.
Abbreviation TrustVerifyError := TrustVerifyError.t.

(** Reading and parsing the trust file. *)
Inductive TrustFile :=
| TrustUnreadable (source : string)
| TrustUnparsable (source : string)
| TrustRead (trust : TrustConfig).

Definition AGENT_CERT_VALIDITY : Duration := duration_seconds (30 * 24 * 60 * 60).

Definition canonical_agent_cn (machine_id suffix : string) : string :=
  "agent-" +:+ machine_id +:+ "." +:+ suffix.

Definition extract_machine_id (cn suffix : string) : string :=
  let trailer := "." +:+ suffix in
  match strip_prefix "agent-" cn with
  | Some rest =>
      match strip_suffix trailer rest with
      | Some machine_id => machine_id
      | None => cn
      end
  | None => cn
  end.

Inductive AuditContext :=
| Enroll (token_nonce : string)
| Renew (previous_cert_serial : string).

Record AuditRecord := MkAuditRecord {
  au_at : DateTime;
  au_requester_cn : string;
  au_issued_cn : string;
  au_not_after : DateTime;
  au_validity_secs : i64;
  au_context : string;
}.

Section issuance.
Context {Cr : Crypto} {B : Base64} {P : Pki}.

(** ** The token *)

Definition verify_token_signature (token : BootstrapToken) (org_root_pubkey : string)
    : result unit string :=
  if negb (Z.eqb (bt_version token) 1) then Err "unsupported token version"
  else if negb (bool_decide (String.length org_root_pubkey = 32)) then Err "orgRootKey is not 32 bytes"
  else
    let? pubkey := ed25519_from_bytes org_root_pubkey in
    let? sig_bytes := base64_decode (bt_signature token) in
    match ed25519_signature_from_slice sig_bytes with
    | None => Err "parse ed25519 signature"
    | Some signature =>
        let? claims_json := claims_to_string (bt_claims token) in
        let? canonical := canonicalize claims_json in
        if ed25519_verify pubkey canonical signature then Ok tt else Err "verify token signature"
    end.

(** One candidate of the loop. *)
Definition candidate_accepts (token : BootstrapToken) (pubkey : TrustedPubkey) : bool :=
  if negb (bool_decide (tp_algorithm pubkey = "ed25519")) then false
  else
    match base64_decode (tp_public pubkey) with
    | Err _ => false
    | Ok pubkey_bytes => is_ok (verify_token_signature token pubkey_bytes)
    end.

Definition verify_bootstrap_token_against_trust (file : TrustFile) (token : BootstrapToken)
    (now : DateTime) : result unit TrustVerifyError :=
  match file with
  | TrustUnreadable source => Err (TrustVerifyError.TrustFileRead source)
  | TrustUnparsable source => Err (TrustVerifyError.TrustFileParse source)
  | TrustRead trust =>
      match tc_org_root_key trust with
      | None => Err TrustVerifyError.NoOrgRootKey
      | Some org_root =>
          let candidates := active_keys_at org_root now in
          if is_empty candidates then Err TrustVerifyError.NoActiveKeys
          else if existsb (candidate_accepts token) candidates then Ok tt
          else Err TrustVerifyError.SignatureMismatch
      end
  end.

Definition validate_token_claims (claims : TokenClaims) (csr_cn csr_pubkey_fingerprint : string)
    (now : DateTime) : result unit string :=
  if Z.ltb now (cl_issued_at claims) then Err "token issued in the future"
  else if Z.leb (cl_expires_at claims) now then Err "token expired"
  else if negb (bool_decide (csr_cn = cl_hostname claims)) then
    Err "CSR CN does not match token hostname"
  else if negb (bool_decide (csr_pubkey_fingerprint = cl_expected_pubkey_fingerprint claims)) then
    Err "CSR pubkey fingerprint does not match token expected_pubkey_fingerprint"
  else Ok tt.

Definition validate_csr_against_fleet_host (csr_pubkey_raw : string)
    (declared_openssh_pubkey : option string) : result unit string :=
  match declared_openssh_pubkey with
  | None => Err "host has no pubkey declared in fleet.nix"
  | Some openssh =>
      match ed25519_pubkey_raw_from_openssh openssh with
      | Err _ => Err "parse declared OpenSSH pubkey for fleet host"
      | Ok declared_raw =>
          if negb (bool_decide (csr_pubkey_raw = declared_raw)) then
            Err "CSR pubkey does not match host's declared SSH host pubkey"
          else Ok tt
      end
  end.

(** ** Issuing *)

(** The first common name of a distinguished name. *)
Definition find_cn (dn : list (DnType * DnValue)) : option DnValue :=
  snd <$> List.find (fun p : DnType * DnValue => bool_decide (p.1 = CommonName)) dn.

Definition dn_value_text (v : DnValue) : string :=
  match v with PrintableString s | Utf8String s => s | OtherValue debug => debug end.

(** The parameters that are signed. *)
Definition agent_params (params : CertParams) (canonical_cn : string) (not_before not_after : Z)
    : CertParams := {|
  cp_distinguished_name :=
    List.filter (fun p : DnType * DnValue => negb (bool_decide (p.1 = CommonName)))
      (cp_distinguished_name params) ++ [(CommonName, Utf8String canonical_cn)];
  cp_extended_key_usages := [ClientAuth];
  cp_subject_alt_names := [DnsName canonical_cn];
  cp_not_before := not_before;
  cp_not_after := not_after;
  cp_rest := cp_rest params;
|}.

Definition issue_cert (csr_pem : string) (signer : CaSigner) (validity : Duration) (now : DateTime)
    (agent_cn_suffix : string) : ended (result (string * DateTime) string) :=
  match make_key_pair signer with
  | Err e => Returned (Err e)
  | Ok ca_key =>
      match csr_from_pem csr_pem with
      | Err e => Returned (Err e)
      | Ok csr =>
          match find_cn (cp_distinguished_name (csr_params csr)) with
          | None => Returned (Err "CSR has no CN")
          | Some csr_cn =>
              let machine_id := extract_machine_id (dn_value_text csr_cn) agent_cn_suffix in
              let canonical_cn := canonical_agent_cn machine_id agent_cn_suffix in
              if negb (is_dns_name canonical_cn) then
                Returned (Err "canonical CN is not a valid dNSName")
              else
                bind_ended (system_time (duration_seconds (u64_wrap (timestamp now)))) (fun not_before_sys =>
                bind_ended (system_time (not_before_sys + validity)) (fun not_after_sys =>
                if negb (fits_offset_date_time not_before_sys && fits_offset_date_time not_after_sys)
                then Panicked
                else
                  let params := agent_params (csr_params csr) canonical_cn not_before_sys not_after_sys in
                  match signed_by params (csr_public_key csr) (issuer signer) ca_key with
                  | Err e => Returned (Err e)
                  | Ok pem => Returned (Ok (pem, not_after_sys))
                  end))
          end
      end
  end.

(** A failed write is only logged. *)
Definition audit_log (written : bool) (now : DateTime) (requester_cn issued_cn : string)
    (not_after : DateTime) (context : AuditContext) (log : list AuditRecord) : list AuditRecord :=
  let context_str :=
    match context with
    | Enroll token_nonce => "enroll/nonce:" +:+ token_nonce
    | Renew previous_cert_serial => "renew/prev:" +:+ previous_cert_serial
    end in
  let validity_secs := num_seconds (not_after - now) in
  if written then
    log ++ [MkAuditRecord now requester_cn issued_cn not_after validity_secs context_str]
  else log.

(** ** The peer certificate *)

(** DER, leaf first. *)
Definition PeerCertificates : Type := list string.

Definition leaf_cn (chain : PeerCertificates) : option string :=
  leaf ← head chain;
  cert ← certificate_from_der leaf;
  attr ← head (x_common_names cert);
  attr.

Definition leaf_not_before (chain : PeerCertificates) : option DateTime :=
  leaf ← head chain;
  cert ← certificate_from_der leaf;
  from_timestamp (x_not_before cert).

End issuance.
