(* ===== verification/Enrollment.v ===== *)
(** * Who may talk to the control plane

    Models, of [crates/nixfleet-control-plane/src/]: [db/tokens.rs],
    [db/revocations.rs], [db/allowed_nonces.rs], the checks of
    [server/middleware.rs], the readiness of [server/state.rs], what the
    revocations and bootstrap-nonces polls do with a verified list, the token
    sweep of [timers/prune_timer.rs], and both handlers of
    [server/routes/enrollment.rs].  A time a table stamps itself is read apart
    from the handler's clock, and has no fraction of a second. *)

From S2P Require Import Prelude RustStd Proto Gates Verify HostKey Issuance.

(** HTTP statuses by number. *)
Abbreviation Status := Z (only parsing).
Definition OK : Status := 200.
Definition BAD_REQUEST : Status := 400.
Definition UNAUTHORIZED : Status := 401.
Definition CONFLICT : Status := 409.
Definition UPGRADE_REQUIRED : Status := 426.
Definition INTERNAL_SERVER_ERROR : Status := 500.
Definition UNAVAILABLE : Status := 503.

(** ** Tables *)

Record TokenRow := MkTokenRow {
  tr_hostname : string;
  tr_first_seen : i64;                                 (* seconds *)
}.

Module Tokens.

Inductive RecordTokenOutcome := Recorded | AlreadyRecorded.

Definition token_seen (nonce : string) (t : gmap string TokenRow) : bool :=
  bool_decide (is_Some (t !! nonce)).

(** A plain INSERT: the primary key decides. *)
Definition record_token_nonce (nonce hostname : string) (now : DateTime) (t : gmap string TokenRow)
    : RecordTokenOutcome * gmap string TokenRow :=
  match t !! nonce with
  | Some _ => (AlreadyRecorded, t)
  | None => (Recorded, <[ nonce := MkTokenRow hostname (timestamp now) ]> t)
  end.

Definition prune_token_replay (max_age_hours : Z) (now : DateTime) (t : gmap string TokenRow)
    : gmap string TokenRow :=
  filter (fun p => (timestamp now - max_age_hours * 3600 <= tr_first_seen p.2)%Z) t.

End Tokens.

Definition TOKEN_REPLAY_RETENTION_HOURS : Z := 24.

Record RevocationRow := MkRevocationRow {
  rr_not_before : DateTime;
  rr_reason : option string;
  rr_revoked_at : i64;
  rr_revoked_by : option string;
}.

Module RevocationTable.

Definition revoke_cert (entry : RevocationEntry) (now : DateTime) (t : gmap string RevocationRow)
    : gmap string RevocationRow :=
  <[ rv_hostname entry :=
       MkRevocationRow (rv_not_before entry) (rv_reason entry) (timestamp now) (rv_revoked_by entry) ]> t.

Definition cert_revoked_before (hostname : string) (t : gmap string RevocationRow) : option DateTime :=
  rr_not_before <$> t !! hostname.

Definition retain_only (keep : list string) (t : gmap string RevocationRow)
    : gmap string RevocationRow :=
  filter (fun p => p.1 ∈ keep) t.

End RevocationTable.

Module AllowedNoncesView.

(** Collected into a map: the last entry of a nonce stays. *)
Definition from_artifact (artifact : BootstrapNonces) : gmap string BootstrapNonceEntry :=
  fold_left (fun m e => <[ bn_nonce e := e ]> m) (bns_bootstrap_nonces artifact) ∅.

Definition entry_is_live (entry : BootstrapNonceEntry) (now : DateTime) : bool :=
  Z.leb now (bn_expires_at entry).

End AllowedNoncesView.

(** ** The state and the configuration *)

Record IdentityState := MkIdentityState {
  is_tokens : gmap string TokenRow;
  is_revocations : gmap string RevocationRow;
  is_allowed_nonces : gmap string BootstrapNonceEntry;
  is_verified_fleet : option FleetResolved;
  is_audit : list AuditRecord;
}.
#[export] Instance IdentityState_eta : Etaexp IdentityState := fun s =>
  MkIdentityState (is_tokens s) (is_revocations s) (is_allowed_nonces s) (is_verified_fleet s)
    (is_audit s).

(** The parts of [AppState] that are fixed at start. *)
Record Server `{Pki} := MkServer {
  sv_has_db : bool;
  sv_agent_cn_suffix : string;
  sv_agent_cert_validity : Duration;
  sv_audit_log : bool;                                 (* a path is configured *)
  sv_ca_signer : option CaSigner;
}.

(** What the surroundings answer during one request: the clock of the handler and
    of the table, the trust file, and whether the statements and the log write
    succeed. *)
Record Surroundings := MkSurroundings {
  su_now : DateTime;
  su_db_now : DateTime;
  su_trust : TrustFile;
  su_token_seen_fails : bool;
  su_record_fails : bool;
  su_revocations_fail : bool;
  su_audit_written : bool;
}.

(** ** Readiness ([AppState::is_ready]) *)

Record Primed := MkPrimed {
  pm_artifact : bool;
  pm_revocations : bool;
  pm_revocations_required : bool;
  pm_bootstrap_nonces : bool;
  pm_bootstrap_nonces_required : bool;
}.

Definition is_ready (p : Primed) : bool :=
  if negb (pm_artifact p) then false
  else if pm_revocations_required p && negb (pm_revocations p) then false
  else if pm_bootstrap_nonces_required p && negb (pm_bootstrap_nonces p) then false
  else true.

(** A request that passes goes on to the next layer. *)
Definition require_ready_layer (p : Primed) : option Status :=
  if is_ready p then None else Some UNAVAILABLE.

Definition PROTOCOL_MAJOR_VERSION : u32 := 1.

(** The header's value, [None] inside for one that is not visible ASCII. *)
Definition protocol_version_middleware (strict : bool) (header : option (option string))
    : option Status :=
  match header with
  | Some value =>
      match value ≫= parse_u32 with
      | Some v => if Z.eqb v PROTOCOL_MAJOR_VERSION then None else Some UPGRADE_REQUIRED
      | None => Some BAD_REQUEST
      end
  | None => if strict then Some BAD_REQUEST else None
  end.

Section enrollment.
Context {Cr : Crypto} {B : Base64} {P : Pki} (sv : Server).

(** ** Authentication ([require_cn]) *)

Definition require_cn (su : Surroundings) (st : IdentityState) (peer_certs : PeerCertificates)
    : result string Status :=
  if is_empty peer_certs then Err UNAUTHORIZED
  else
    match leaf_cn peer_certs with
    | None => Err UNAUTHORIZED
    | Some cn =>
        if negb (sv_has_db sv) then Ok cn
        else
          let machine_id := extract_machine_id cn (sv_agent_cn_suffix sv) in
          if su_revocations_fail su then Err INTERNAL_SERVER_ERROR
          else
            match RevocationTable.cert_revoked_before machine_id (is_revocations st) with
            | None => Ok cn
            | Some revoked_before =>
                match leaf_not_before peer_certs with
                | None => Err UNAUTHORIZED
                | Some cert_nbf =>
                    if Z.ltb cert_nbf revoked_before then Err UNAUTHORIZED else Ok cn
                end
            end
    end.

(** ** Enrolling *)

(** The allowlist, under its read lock. *)
Definition check_allowlist (now : DateTime) (claims : TokenClaims) (st : IdentityState)
    : result unit Status :=
  match is_allowed_nonces st !! cl_nonce claims with
  | None => Err UNAUTHORIZED
  | Some entry =>
      if negb (bool_decide (bn_hostname entry = cl_hostname claims)) then Err UNAUTHORIZED
      else if negb (AllowedNoncesView.entry_is_live entry now) then Err UNAUTHORIZED
      else Ok tt
  end.

(** The binding of a CSR key to the declared host key. *)
Definition check_host_key (csr : Csr) (host_decl : Host) : result unit Status :=
  if negb (bool_decide (String.length (csr_public_key csr) = 32)) then Err BAD_REQUEST
  else
    match validate_csr_against_fleet_host (csr_public_key csr) (host_pubkey host_decl) with
    | Err _ => Err UNAUTHORIZED
    | Ok _ => Ok tt
    end.

(** Everything up to the recording of the nonce. *)
Definition enroll_checks (su : Surroundings) (st : IdentityState) (req : EnrollRequest)
    : result unit Status :=
  let now := su_now su in
  let claims := bt_claims (er_token req) in
  if negb (sv_has_db sv) then Err UNAVAILABLE
  else if su_token_seen_fails su then Err INTERNAL_SERVER_ERROR
  else if Tokens.token_seen (cl_nonce claims) (is_tokens st) then Err CONFLICT
  else
    let? _ := check_allowlist now claims st in
    if Z.ltb now (cl_issued_at claims) || Z.leb (cl_expires_at claims) now then Err UNAUTHORIZED
    else
      match verify_bootstrap_token_against_trust (su_trust su) (er_token req) now with
      | Err TrustVerifyError.SignatureMismatch => Err UNAUTHORIZED
      | Err _ => Err INTERNAL_SERVER_ERROR
      | Ok _ =>
          match csr_from_pem (er_csr_pem req) with
          | Err _ => Err BAD_REQUEST
          | Ok csr =>
              match find_cn (cp_distinguished_name (csr_params csr)) with
              | None => Err BAD_REQUEST
              | Some v =>
                  let csr_cn := dn_value_text v in
                  let csr_fingerprint := fingerprint (csr_public_key csr) in
                  match validate_token_claims claims csr_cn csr_fingerprint now with
                  | Err _ => Err UNAUTHORIZED
                  | Ok _ =>
                      match is_verified_fleet st with
                      | None => Err UNAVAILABLE
                      | Some fleet =>
                          match fr_hosts fleet !! csr_cn with
                          | None => Err UNAUTHORIZED
                          | Some host_decl => check_host_key csr host_decl
                          end
                      end
                  end
              end
          end
      end.

(** From the recording of the nonce on. *)
Definition enroll_commit (su : Surroundings) (req : EnrollRequest) (st : IdentityState)
    : ended (result EnrollResponse Status) * IdentityState :=
  let now := su_now su in
  let claims := bt_claims (er_token req) in
  if su_record_fails su then (Returned (Err INTERNAL_SERVER_ERROR), st)
  else
    match Tokens.record_token_nonce (cl_nonce claims) (cl_hostname claims) (su_db_now su)
            (is_tokens st) with
    | (Tokens.AlreadyRecorded, _) => (Returned (Err CONFLICT), st)
    | (Tokens.Recorded, tokens) =>
        let st := st <| is_tokens := tokens |> in
        match sv_ca_signer sv with
        | None => (Returned (Err INTERNAL_SERVER_ERROR), st)
        | Some signer =>
            match issue_cert (er_csr_pem req) signer (sv_agent_cert_validity sv) now
                    (sv_agent_cn_suffix sv) with
            | Panicked => (Panicked, st)
            | OutOfFuel => (OutOfFuel, st)
            | Returned (Err _) => (Returned (Err BAD_REQUEST), st)
            | Returned (Ok (cert_pem, not_after)) =>
                let st :=
                  if sv_audit_log sv then
                    st <| is_audit := audit_log (su_audit_written su) now "<enroll>"
                            (canonical_agent_cn (cl_hostname claims) (sv_agent_cn_suffix sv)) not_after
                            (Enroll (cl_nonce claims)) (is_audit st) |>
                  else st in
                (Returned (Ok (MkEnrollResponse cert_pem not_after)), st)
            end
        end
    end.

Definition enroll (su : Surroundings) (req : EnrollRequest) (st : IdentityState)
    : ended (result EnrollResponse Status) * IdentityState :=
  match enroll_checks su st req with
  | Err status => (Returned (Err status), st)
  | Ok _ => enroll_commit su req st
  end.

(** ** Renewing

    [cn] is the name [require_cn] returned. *)
Definition renew (su : Surroundings) (cn csr_pem : string) (st : IdentityState)
    : ended (result EnrollResponse Status) * IdentityState :=
  let now := su_now su in
  match csr_from_pem csr_pem with
  | Err _ => (Returned (Err BAD_REQUEST), st)
  | Ok csr =>
      if negb (bool_decide (String.length (csr_public_key csr) = 32)) then
        (Returned (Err BAD_REQUEST), st)
      else
        match is_verified_fleet st with
        | None => (Returned (Err UNAVAILABLE), st)
        | Some fleet =>
            match fr_hosts fleet !! extract_machine_id cn (sv_agent_cn_suffix sv) with
            | None => (Returned (Err UNAUTHORIZED), st)
            | Some host_decl =>
                match validate_csr_against_fleet_host (csr_public_key csr) (host_pubkey host_decl) with
                | Err _ => (Returned (Err UNAUTHORIZED), st)
                | Ok _ =>
                    match sv_ca_signer sv with
                    | None => (Returned (Err INTERNAL_SERVER_ERROR), st)
                    | Some signer =>
                        match issue_cert csr_pem signer (sv_agent_cert_validity sv) now
                                (sv_agent_cn_suffix sv) with
                        | Panicked => (Panicked, st)
                        | OutOfFuel => (OutOfFuel, st)
                        | Returned (Err _) => (Returned (Err BAD_REQUEST), st)
                        | Returned (Ok (cert_pem, not_after)) =>
                            let st :=
                              if sv_audit_log sv then
                                st <| is_audit := audit_log (su_audit_written su) now cn cn not_after
                                        (Renew "<unknown>") (is_audit st) |>
                              else st in
                            (Returned (Ok (MkEnrollResponse cert_pem not_after)), st)
                        end
                    end
                end
            end
        end
  end.

End enrollment.

(** ** The polls and the sweep *)

(** Entry by entry; [fails] tells which statements do not succeed. *)
Definition revoke_entries (fails : nat -> bool) (now : DateTime) (entries : list RevocationEntry)
    (t : gmap string RevocationRow) : gmap string RevocationRow :=
  foldl (fun t (p : nat * RevocationEntry) =>
           if fails p.1 then t else RevocationTable.revoke_cert p.2 now t)
    t (zip (seq 0 (length entries)) entries).

Definition apply_verified_revocations (fails : nat -> bool) (retain_fails : bool) (now : DateTime)
    (revs : Revocations) (st : IdentityState) : IdentityState :=
  let t := revoke_entries fails now (revs_revocations revs) (is_revocations st) in
  let keep := rv_hostname <$> revs_revocations revs in
  let t := if retain_fails then t else RevocationTable.retain_only keep t in
  st <| is_revocations := t |>.

Definition apply_verified_allowlist (bn : BootstrapNonces) (st : IdentityState) : IdentityState :=
  st <| is_allowed_nonces := AllowedNoncesView.from_artifact bn |>.

(** The token part of the hourly sweep. *)
Definition prune_tokens (now : DateTime) (st : IdentityState) : IdentityState :=
  st <| is_tokens := Tokens.prune_token_replay TOKEN_REPLAY_RETENTION_HOURS now (is_tokens st) |>.

(** The snapshot the manifest poll publishes. *)
Definition publish_fleet (fleet : FleetResolved) (st : IdentityState) : IdentityState :=
  st <| is_verified_fleet := Some fleet |>.
