(* ===== verification/EnrollmentProps.v ===== *)
(** * Enrollment, renewal and revocation: what they promise *)

From S2P Require Import Prelude RustStd Proto Gates Verify VerifyProps HostKey Issuance Enrollment.

(** ** Names *)

Lemma strip_prefix_app p s : strip_prefix p (p +:+ s) = Some s.
Proof. induction p as [|c p IH]; [done|]. simpl. by rewrite bool_decide_eq_true_2. Qed.

Lemma strip_suffix_app p s : strip_suffix p (s +:+ p) = Some s.
Proof.
  assert (Hlen : forall a b : string, String.length (a +:+ b) = String.length a + String.length b).
  { intros a b. induction a as [|c a IH]; [done|]. simpl. by rewrite IH. }
  induction s as [|c s IH].
  - destruct p; [done|]. simpl. by rewrite bool_decide_eq_true_2.
  - change (String c s +:+ p) with (String c (s +:+ p)). cbn [strip_suffix].
    rewrite bool_decide_eq_false_2, IH; [done|]. intros Heq%(f_equal String.length).
    simpl in Heq. rewrite Hlen in Heq. lia.
Qed.

Lemma extract_canonical machine_id suffix :
  extract_machine_id (canonical_agent_cn machine_id suffix) suffix = machine_id.
Proof.
  unfold extract_machine_id, canonical_agent_cn. rewrite strip_prefix_app.
  by rewrite (strip_suffix_app ("." +:+ suffix)).
Qed.

(** ** Issuing *)

Section issuing.
Context {Cr : Crypto} {B : Base64} {P : Pki}.

(** The certificate that is signed: these parameters, over the key of the CSR. *)
Definition certifies (signer : CaSigner) (csr : Csr) (cn : string) (validity : Duration) (now : DateTime)
    (pem : string) (not_after : DateTime) : Prop :=
  exists ca_key, make_key_pair signer = Ok ca_key /\
    signed_by (agent_params (csr_params csr) cn (duration_seconds (u64_wrap (timestamp now))) not_after)
      (csr_public_key csr) (issuer signer) ca_key = Ok pem /\
    not_after = (duration_seconds (u64_wrap (timestamp now)) + validity)%Z.

Lemma system_time_inv d t : system_time d = Returned t -> t = d.
Proof. unfold system_time. case_match; congruence. Qed.

(** The name of the certificate is that of the CSR, in canonical form. *)
Lemma issue_cert_ok csr_pem signer validity now suffix pem not_after :
  issue_cert csr_pem signer validity now suffix = Returned (Ok (pem, not_after)) ->
  exists csr v, csr_from_pem csr_pem = Ok csr /\
    find_cn (cp_distinguished_name (csr_params csr)) = Some v /\
    certifies signer csr (canonical_agent_cn (extract_machine_id (dn_value_text v) suffix) suffix)
      validity now pem not_after.
Proof.
  unfold issue_cert. destruct (make_key_pair signer) as [ca_key|] eqn:Ek; [|done].
  destruct (csr_from_pem csr_pem) as [csr|] eqn:Ecsr; [|done].
  destruct (find_cn _) as [v|] eqn:Ev; [|done]. cbv zeta.
  destruct (negb (is_dns_name _)); [done|].
  destruct (system_time (duration_seconds _)) as [t1| |] eqn:E1; try done. simpl.
  destruct (system_time (t1 + validity)) as [t2| |] eqn:E2; try done. simpl.
  apply system_time_inv in E1, E2. subst t1 t2.
  destruct (negb _); [done|]. destruct (signed_by _ _ _ _) as [p|] eqn:Es; [|done].
  intros [= <- <-]. exists csr, v. split_and!; [done..|]. by exists ca_key.
Qed.

Lemma issue_cert_run csr_pem signer validity now suffix csr v ca_key pem :
  let cn := canonical_agent_cn (extract_machine_id (dn_value_text v) suffix) suffix in
  let not_before := duration_seconds (u64_wrap (timestamp now)) in
  let not_after := (not_before + validity)%Z in
  csr_from_pem csr_pem = Ok csr -> find_cn (cp_distinguished_name (csr_params csr)) = Some v ->
  make_key_pair signer = Ok ca_key -> is_dns_name cn = true ->
  (not_before < duration_seconds (2 ^ 63))%Z -> (not_after < duration_seconds (2 ^ 63))%Z ->
  fits_offset_date_time not_before = true -> fits_offset_date_time not_after = true ->
  signed_by (agent_params (csr_params csr) cn not_before not_after) (csr_public_key csr)
    (issuer signer) ca_key = Ok pem ->
  issue_cert csr_pem signer validity now suffix = Returned (Ok (pem, not_after)).
Proof.
  intros cn not_before not_after Hcsr Hv Hk Hdns H1 H2 Hf1 Hf2 Hs.
  assert (Hst : forall d, (d < duration_seconds (2 ^ 63))%Z -> system_time d = Returned d).
  { intros d Hd. unfold system_time. rewrite (proj2 (Z.ltb_lt _ _)); [done|].
    apply Z.div_lt_upper_bound; [by vm_compute|]. unfold duration_seconds in Hd. lia. }
  unfold issue_cert. rewrite Hk, Hcsr, Hv. cbv zeta. fold cn. rewrite Hdns. cbn [negb].
  fold not_before. rewrite Hst by done. cbn [bind_ended]. fold not_after. rewrite Hst by done.
  cbn [bind_ended]. rewrite Hf1, Hf2. cbn [andb negb]. by rewrite Hs.
Qed.

(** ** The checks of an enrollment *)

(** One of the keys of the organisation signs the claims. *)
Definition org_signed (file : TrustFile) (token : BootstrapToken) (now : DateTime) : Prop :=
  exists trust slot k, file = TrustRead trust /\ tc_org_root_key trust = Some slot /\
    k ∈ active_keys_at slot now /\ candidate_accepts token k = true.

Lemma org_signed_ok file token now r :
  verify_bootstrap_token_against_trust file token now = Ok r <-> org_signed file token now.
Proof.
  unfold verify_bootstrap_token_against_trust, org_signed.
  destruct file as [?|?|trust]; [split; [done|by intros (? & ? & ? & ? & _)]..|].
  destruct (tc_org_root_key trust) as [slot|] eqn:Eslot.
  2: { split; [done|]. intros (? & ? & ? & [= <-] & ? & _). congruence. }
  destruct (is_empty (active_keys_at slot now)) eqn:Eempty.
  { split; [done|]. intros (? & s & k & [= <-] & Hs & Hin & _). apply is_empty_spec in Eempty.
    rewrite Eslot in Hs. injection Hs as <-. rewrite Eempty in Hin. by apply elem_of_nil in Hin. }
  destruct (existsb _ _) eqn:Eex.
  - split; [|by destruct r]. intros _. apply existsb_exists in Eex as (k & Hin & Hk).
    exists trust, slot, k. split_and!; try done. by apply list_elem_of_In.
  - split; [done|]. intros (? & s & k & [= <-] & Hs & Hin & Hk). rewrite Eslot in Hs. injection Hs as <-.
    assert (existsb (candidate_accepts token) (active_keys_at slot now) = true); [|congruence].
    apply existsb_exists. exists k. split; [by apply list_elem_of_In|done].
Qed.

(** The key of the CSR is the one the fleet declares for the host. *)
Definition bound_to (fleet : FleetResolved) (host : string) (key : string) : Prop :=
  String.length key = 32 /\
  exists h line, fr_hosts fleet !! host = Some h /\ host_pubkey h = Some line /\
    ed25519_pubkey_raw_from_openssh line = Ok key.

Lemma validate_csr_ok key declared r :
  validate_csr_against_fleet_host key declared = Ok r <->
  exists line, declared = Some line /\ ed25519_pubkey_raw_from_openssh line = Ok key.
Proof.
  unfold validate_csr_against_fleet_host. destruct declared as [line|]; [|naive_solver].
  destruct (ed25519_pubkey_raw_from_openssh line) as [raw|] eqn:E.
  - case_bool as [Hk|Hk]; simpl.
    + subst. split; [by exists line|by destruct r].
    + split; [done|]. intros (l & [= <-] & Hl). congruence.
  - split; [done|]. intros (l & [= <-] & Hl). congruence.
Qed.

Lemma check_host_key_ok fleet host csr h r :
  fr_hosts fleet !! host = Some h ->
  check_host_key csr h = Ok r <-> bound_to fleet host (csr_public_key csr).
Proof.
  intros Hh. unfold check_host_key, bound_to. case_bool as [Hl|Hl]; simpl.
  - destruct (validate_csr_against_fleet_host _ _) as [u|] eqn:E.
    + apply validate_csr_ok in E as (line & Hline & Hk). split; [|by destruct r].
      intros _. split; [done|]. by exists h, line.
    + split; [done|]. intros (_ & h' & line & Hh' & Hline & Hk). rewrite Hh in Hh'. injection Hh' as <-.
      assert (validate_csr_against_fleet_host (csr_public_key csr) (host_pubkey h) = Ok tt) by
        (apply validate_csr_ok; by exists line). congruence.
  - split; [done|]. by intros [? _].
Qed.

Context (sv : Server).

(** What an enrollment that gets as far as the recording has shown. *)
Record authorised (su : Surroundings) (st : IdentityState) (req : EnrollRequest) (csr : Csr) : Prop := {
  ok_db : sv_has_db sv = true;
  ok_fresh : is_tokens st !! cl_nonce (bt_claims (er_token req)) = None;
  ok_listed : exists entry,
    is_allowed_nonces st !! cl_nonce (bt_claims (er_token req)) = Some entry /\
    bn_hostname entry = cl_hostname (bt_claims (er_token req)) /\ (su_now su <= bn_expires_at entry)%Z;
  ok_time : (cl_issued_at (bt_claims (er_token req)) <= su_now su <
             cl_expires_at (bt_claims (er_token req)))%Z;
  ok_signed : org_signed (su_trust su) (er_token req) (su_now su);
  ok_csr : csr_from_pem (er_csr_pem req) = Ok csr;
  ok_name : exists v, find_cn (cp_distinguished_name (csr_params csr)) = Some v /\
    dn_value_text v = cl_hostname (bt_claims (er_token req));
  ok_fingerprint : fingerprint (csr_public_key csr) =
    cl_expected_pubkey_fingerprint (bt_claims (er_token req));
  ok_bound : exists fleet, is_verified_fleet st = Some fleet /\
    bound_to fleet (cl_hostname (bt_claims (er_token req))) (csr_public_key csr);
}.

Lemma check_allowlist_ok now claims st r :
  check_allowlist now claims st = Ok r <->
  exists entry, is_allowed_nonces st !! cl_nonce claims = Some entry /\
    bn_hostname entry = cl_hostname claims /\ (now <= bn_expires_at entry)%Z.
Proof.
  unfold check_allowlist. destruct (is_allowed_nonces st !! cl_nonce claims) as [entry|] eqn:E; [|naive_solver].
  case_bool as [Hh|Hh]; simpl.
  - unfold AllowedNoncesView.entry_is_live. destruct (Z.leb_spec now (bn_expires_at entry)); simpl.
    + split; [by exists entry|by destruct r].
    + split; [done|]. intros (? & [= <-] & _ & ?). lia.
  - split; [done|]. intros (? & [= <-] & ? & _). done.
Qed.

Lemma validate_token_claims_ok claims cn fp now r :
  validate_token_claims claims cn fp now = Ok r <->
  (cl_issued_at claims <= now < cl_expires_at claims)%Z /\ cn = cl_hostname claims /\
  fp = cl_expected_pubkey_fingerprint claims.
Proof.
  unfold validate_token_claims.
  destruct (Z.ltb_spec now (cl_issued_at claims)); [split; [done|lia]|].
  destruct (Z.leb_spec (cl_expires_at claims) now); [split; [done|lia]|].
  case_bool as [Hc|Hc]; simpl; [|split; [done|tauto]].
  case_bool as [Hf|Hf]; simpl; [|split; [done|tauto]].
  split; [|by destruct r]. intros _. split_and!; lia || done.
Qed.

Lemma enroll_checks_ok su st req r :
  enroll_checks sv su st req = Ok r <->
  su_token_seen_fails su = false /\ exists csr, authorised su st req csr.
Proof.
  unfold enroll_checks. destruct (sv_has_db sv) eqn:Hdb; cbn [negb];
    [|split; [done|intros (_ & csr & [])]; congruence].
  destruct (su_token_seen_fails su); [split; [done|by intros [? _]]|].
  unfold Tokens.token_seen. case_bool as [Hseen|Hseen].
  { split; [done|]. intros (_ & csr & []). destruct Hseen. congruence. }
  apply eq_None_not_Some in Hseen.
  destruct (check_allowlist _ _ st) as [u|] eqn:Eal.
  2: { split; [done|]. intros (_ & csr & []).
       assert (check_allowlist (su_now su) (bt_claims (er_token req)) st = Ok tt) by
         by apply check_allowlist_ok. congruence. }
  apply check_allowlist_ok in Eal.
  destruct (_ || _) eqn:Etime.
  { split; [done|]. intros (_ & csr & []). apply orb_true_iff in Etime as [?%Z.ltb_lt|?%Z.leb_le]; lia. }
  apply orb_false_iff in Etime as [Ht1%Z.ltb_ge Ht2%Z.leb_gt].
  destruct (verify_bootstrap_token_against_trust _ _ _) as [u'|e] eqn:Ever.
  2: { split; [by destruct e|]. intros (_ & csr & []).
       assert (verify_bootstrap_token_against_trust (su_trust su) (er_token req) (su_now su) = Ok tt) by
         by apply org_signed_ok. congruence. }
  apply org_signed_ok in Ever.
  destruct (csr_from_pem (er_csr_pem req)) as [csr|] eqn:Ecsr.
  2: { split; [done|]. intros (_ & csr & []). congruence. }
  destruct (find_cn _) as [v|] eqn:Ev.
  2: { split; [done|]. intros (_ & csr' & []). naive_solver congruence. }
  destruct (validate_token_claims _ _ _ _) as [u'' |] eqn:Eclaims.
  2: { split; [done|]. intros (_ & csr' & [? ? ? ? ? Hcsr' (v' & Hv' & Hn) ? ?]).
       rewrite Ecsr in Hcsr'. injection Hcsr' as <-. rewrite Ev in Hv'. injection Hv' as <-.
       assert (validate_token_claims (bt_claims (er_token req)) (dn_value_text v)
                 (fingerprint (csr_public_key csr)) (su_now su) = Ok tt) by
         by apply validate_token_claims_ok. congruence. }
  apply validate_token_claims_ok in Eclaims as (_ & Hname & Hfp). rewrite Hname.
  destruct (is_verified_fleet st) as [fleet|] eqn:Efleet.
  2: { split; [done|]. intros (_ & csr' & []). naive_solver congruence. }
  destruct (fr_hosts fleet !! _) as [h|] eqn:Eh.
  2: { split; [done|]. intros (_ & csr' & [? ? ? ? ? ? ? ? (f' & Hf' & _ & h & ? & Hh & _)]). congruence. }
  rewrite (check_host_key_ok fleet _ csr h r Eh). split.
  - intros Hb. split; [done|]. exists csr. split; try done; [by exists v|by exists fleet].
  - intros (_ & csr' & [? ? ? ? ? Hcsr' ? ? (f' & Hf' & Hb)]).
    rewrite Ecsr in Hcsr'. injection Hcsr' as <-. congruence.
Qed.

End issuing.

(** ** Requests side by side

    The handlers of several requests interleave: what one has checked can be
    stale when it records its nonce.  Only the recording is atomic. *)

Record EnrollSystem := MkEnrollSystem {
  es_state : IdentityState;
  es_admitted : list EnrollRequest;
  es_issued : list (EnrollRequest * EnrollResponse);
}.

Definition nonce_of (req : EnrollRequest) : string := cl_nonce (bt_claims (er_token req)).

Section system.
Context {Cr : Crypto} {B : Base64} {P : Pki} (sv : Server).

(** The response of a commit, if it issued. *)
Definition issued_by (req : EnrollRequest) (r : ended (result EnrollResponse Status))
    : list (EnrollRequest * EnrollResponse) :=
  match r with Returned (Ok resp) => [(req, resp)] | _ => [] end.

(** A request is admitted, or an admitted one is carried through, or something
    else (a poll, a renewal) changes the state but not the tokens. *)
Inductive enroll_step : EnrollSystem -> EnrollSystem -> Prop :=
| step_admit su req s :
    enroll_checks sv su (es_state s) req = Ok tt ->
    enroll_step s (MkEnrollSystem (es_state s) (es_admitted s ++ [req]) (es_issued s))
| step_commit su req before after r st' s :
    es_admitted s = before ++ req :: after ->
    enroll_commit sv su req (es_state s) = (r, st') ->
    enroll_step s (MkEnrollSystem st' (before ++ after) (es_issued s ++ issued_by req r))
| step_other st' s :
    is_tokens st' = is_tokens (es_state s) ->
    enroll_step s (MkEnrollSystem st' (es_admitted s) (es_issued s)).

Lemma enroll_commit_tokens su req st r st' :
  enroll_commit sv su req st = (r, st') ->
  (is_tokens st' = is_tokens st /\ issued_by req r = []) \/
  (is_tokens st !! nonce_of req = None /\
   is_tokens st' = <[ nonce_of req := MkTokenRow (cl_hostname (bt_claims (er_token req)))
                                        (timestamp (su_db_now su)) ]> (is_tokens st)).
Proof.
  unfold enroll_commit. destruct (su_record_fails su); [intros [= <- <-]; by left|].
  unfold Tokens.record_token_nonce. fold (nonce_of req).
  destruct (is_tokens st !! nonce_of req) as [row|] eqn:E; [intros [= <- <-]; by left|].
  intros H. right. split; [done|].
  destruct (sv_ca_signer sv) as [signer|]; [|by injection H as <- <-].
  destruct (issue_cert _ _ _ _ _) as [[[pem na]|]| |]; try by injection H as <- <-.
  injection H as <- <-. by destruct (sv_audit_log sv).
Qed.

(** The nonces of the issued certificates are recorded, each once. *)
Definition issued_ok (s : EnrollSystem) : Prop :=
  NoDup (nonce_of <$> (es_issued s).*1) /\
  Forall (fun req => is_Some (is_tokens (es_state s) !! nonce_of req)) (es_issued s).*1 /\
  Forall (fun req => exists su st, enroll_checks sv su st req = Ok tt)
    ((es_issued s).*1 ++ es_admitted s).

Lemma issued_ok_step s s' : enroll_step s s' -> issued_ok s -> issued_ok s'.
Proof.
  intros Hstep (Hnd & Hrec & Hadm).
  destruct Hstep as [su req s Hc|su req before after r st' s Ha Hc|st' s Ht].
  - split_and!; [done..|]. simpl. rewrite app_assoc. apply Forall_app. split; [done|].
    constructor; [by exists su, (es_state s)|constructor].
  - rewrite Ha in Hadm. rewrite !Forall_app, Forall_cons in Hadm.
    destruct Hadm as (Hi & Hb & Hr & Haf).
    assert (Hcase : issued_by req r = [] \/ (issued_by req r).*1 = [req])
      by (unfold issued_by; repeat case_match; by auto).
    unfold issued_ok. simpl. rewrite fmap_app.
    destruct (enroll_commit_tokens _ _ _ _ _ Hc) as [[Ht Hno]|[Hnone Ht]]; rewrite Ht.
    + rewrite Hno, app_nil_r. rewrite !Forall_app. by split_and!.
    + assert (Hold : Forall (fun r => is_Some (<[ nonce_of req := MkTokenRow
                (cl_hostname (bt_claims (er_token req))) (timestamp (su_db_now su)) ]>
                (is_tokens (es_state s)) !! nonce_of r)) (es_issued s).*1).
      { eapply Forall_impl; [exact Hrec|]. intros x Hx. by apply lookup_insert_is_Some'; right. }
      destruct Hcase as [->| ->].
      * rewrite app_nil_r. rewrite !Forall_app. by split_and!.
      * rewrite fmap_app, !Forall_app, !Forall_singleton. split_and!; try done.
        -- apply NoDup_app. split_and!; [done| |apply NoDup_singleton].
           intros x Hx ->%list_elem_of_singleton.
           apply list_elem_of_fmap in Hx as (req' & Heq & Hin). rewrite Forall_forall in Hrec.
           apply Hrec in Hin. rewrite <- Heq, Hnone in Hin. by destruct Hin.
        -- by rewrite lookup_insert_eq.
  - split_and!; [done| |done]. simpl. by rewrite Ht.
Qed.

Lemma issued_ok_steps s s' : rtc enroll_step s s' -> issued_ok s -> issued_ok s'.
Proof. induction 1; eauto using issued_ok_step. Qed.

End system.

(** ** Revocations *)

Definition last_entry (host : string) (entries : list RevocationEntry) : option RevocationEntry :=
  last (filter (fun e => rv_hostname e = host) entries).

Lemma revoke_entries_app fails now entries e t :
  revoke_entries fails now (entries ++ [e]) t =
  if fails (length entries) then revoke_entries fails now entries t
  else RevocationTable.revoke_cert e now (revoke_entries fails now entries t).
Proof.
  unfold revoke_entries. rewrite length_app, seq_app. simpl.
  rewrite zip_with_app by (by rewrite length_seq). by rewrite foldl_app.
Qed.

Lemma revoke_entries_lookup now entries t host :
  rr_not_before <$> revoke_entries (fun _ => false) now entries t !! host =
  match last_entry host entries with
  | Some e => Some (rv_not_before e)
  | None => rr_not_before <$> t !! host
  end.
Proof.
  unfold last_entry. induction entries as [|e entries IH] using rev_ind; [done|].
  rewrite revoke_entries_app, filter_app. unfold RevocationTable.revoke_cert.
  destruct (decide (rv_hostname e = host)) as [<-|Hne].
  - rewrite lookup_insert_eq, filter_cons_True, filter_nil, last_snoc by done. done.
  - rewrite lookup_insert_ne, filter_cons_False, filter_nil, app_nil_r by done. exact IH.
Qed.

Lemma last_entry_None host entries :
  last_entry host entries = None <-> host ∉ rv_hostname <$> entries.
Proof.
  unfold last_entry. rewrite last_None. split.
  - intros Hf (e & -> & Hin)%list_elem_of_fmap.
    assert (e ∈ filter (fun x => rv_hostname x = rv_hostname e) entries) as H by by apply list_elem_of_filter.
    rewrite Hf in H. by apply elem_of_nil in H.
  - intros Hn. apply list_elem_of_nil_inv || apply elem_of_nil_inv. intros e [Hh Hin]%list_elem_of_filter.
    apply Hn. apply list_elem_of_fmap. by exists e.
Qed.

Lemma retain_all now revs t host :
  rr_not_before <$> RevocationTable.retain_only (rv_hostname <$> revs)
    (revoke_entries (fun _ => false) now revs t) !! host =
  rv_not_before <$> last_entry host revs.
Proof.
  unfold RevocationTable.retain_only.
  pose proof (revoke_entries_lookup now revs t host) as Hl.
  destruct (last_entry host revs) as [e|] eqn:El; simpl.
  - destruct (revoke_entries _ _ _ _ !! host) as [row|] eqn:Er; [|done].
    rewrite (proj2 (map_lookup_filter_Some _ _ host row)); [done|]. split; [done|]. simpl.
    destruct (decide (host ∈ rv_hostname <$> revs)) as [|Hn]; [done|].
    apply last_entry_None in Hn. congruence.
  - apply last_entry_None in El. rewrite map_lookup_filter_None_2; [done|]. right. intros row _. done.
Qed.

(** ** Properties *)

(** A certificate has passed all checks. *)
Lemma enroll_ok {Cr : Crypto} {B : Base64} {P : Pki} (sv : Server) (su : Surroundings)
    (req : EnrollRequest) (st st' : IdentityState) (resp : EnrollResponse) :
  enroll sv su req st = (Returned (Ok resp), st') ->
  exists csr signer,
    authorised sv su st req csr /\ sv_ca_signer sv = Some signer /\
    certifies signer csr
      (canonical_agent_cn (extract_machine_id (cl_hostname (bt_claims (er_token req)))
                             (sv_agent_cn_suffix sv)) (sv_agent_cn_suffix sv))
      (sv_agent_cert_validity sv) (su_now su) (en_cert_pem resp) (en_not_after resp) /\
    is_tokens st' = <[ nonce_of req := MkTokenRow (cl_hostname (bt_claims (er_token req)))
                                         (timestamp (su_db_now su)) ]> (is_tokens st).
Proof.
  unfold enroll. destruct (enroll_checks sv su st req) as [[]|] eqn:Ec; [|done].
  apply enroll_checks_ok in Ec as (_ & csr & Hok). intros Hcommit.
  pose proof (ok_csr _ _ _ _ _ Hok) as Hcsr. pose proof (ok_name _ _ _ _ _ Hok) as (v & Hv & Hname).
  destruct (enroll_commit_tokens sv _ _ _ _ _ Hcommit) as [[_ Hno]|[_ Ht]]; [done|].
  unfold enroll_commit in Hcommit. destruct (su_record_fails su); [done|].
  destruct (Tokens.record_token_nonce _ _ _ _) as [[] tokens]; [|done].
  destruct (sv_ca_signer sv) as [signer|]; [|done].
  destruct (issue_cert _ _ _ _ _) as [[[pem na]|]| |] eqn:Ei; try done. injection Hcommit as <- <-.
  exists csr, signer. split_and!; [done..| |done].
  apply issue_cert_ok in Ei as (csr' & v' & Hcsr' & Hv' & Hc). rewrite Hcsr in Hcsr'. injection Hcsr' as <-.
  rewrite Hv in Hv'. injection Hv' as <-. by rewrite Hname in Hc.
Qed.

(** C3.  What a certificate of an enrollment takes.  The handler answers with a
    certificate only when the nonce has not been used, the signed allowlist has
    it for this host and for this time, the token is valid at this time and
    signed by an active key of the organisation, the CSR names the host of the
    token with the key whose fingerprint the token has, and this key is the one
    the verified fleet declares for the host; the certificate is then for
    exactly that host's canonical name and that key, and the nonce is used.
    Otherwise, or when the authority cannot sign, it answers with an error; a
    refused check changes nothing. *)
Theorem enroll_needs_everything {Cr : Crypto} {B : Base64} {P : Pki} (sv : Server) (su : Surroundings)
    (req : EnrollRequest) (st st' : IdentityState) (resp : EnrollResponse) :
  enroll sv su req st = (Returned (Ok resp), st') ->
  exists csr signer,
    authorised sv su st req csr /\ sv_ca_signer sv = Some signer /\
    certifies signer csr
      (canonical_agent_cn (extract_machine_id (cl_hostname (bt_claims (er_token req)))
                             (sv_agent_cn_suffix sv)) (sv_agent_cn_suffix sv))
      (sv_agent_cert_validity sv) (su_now su) (en_cert_pem resp) (en_not_after resp) /\
    is_tokens st' = <[ nonce_of req := MkTokenRow (cl_hostname (bt_claims (er_token req)))
                                         (timestamp (su_db_now su)) ]> (is_tokens st).
Proof. apply enroll_ok. Qed.

(** C34.  One certificate for a token.  However the handlers of any number of
    requests interleave with one another, with renewals and with the polls,
    between two sweeps of the table no nonce is issued a second certificate,
    although every handler looks for the nonce long before it records it; and
    every certificate goes to a request that passed all checks. *)
Theorem one_certificate_per_nonce {Cr : Crypto} {B : Base64} {P : Pki} (sv : Server)
    (st : IdentityState) (s : EnrollSystem) :
  rtc (enroll_step sv) (MkEnrollSystem st [] []) s ->
  NoDup (nonce_of <$> (es_issued s).*1) /\
  Forall (fun req => is_Some (is_tokens (es_state s) !! nonce_of req)) (es_issued s).*1 /\
  Forall (fun req => exists su st, enroll_checks sv su st req = Ok tt) (es_issued s).*1.
Proof.
  intros Hrun. apply issued_ok_steps in Hrun as (H1 & H2 & H3).
  - apply Forall_app in H3 as [H3 _]. done.
  - split_and!; simpl; constructor.
Qed.

(** The sweep lets a token be used again.  A token whose validity is longer
    than the 24 hours the table keeps a nonce is refused as a replay until the
    sweep, and passes every check again after it, as long as it is valid, listed
    and signed. *)
Theorem swept_token_enrols_again {Cr : Crypto} {B : Base64} {P : Pki} (sv : Server)
    (su su2 : Surroundings) (req : EnrollRequest) (st st1 : IdentityState) (resp : EnrollResponse)
    (swept_at : DateTime) :
  let claims := bt_claims (er_token req) in
  enroll sv su req st = (Returned (Ok resp), st1) ->
  (cl_issued_at claims <= su_now su2 < cl_expires_at claims)%Z ->
  (forall entry, is_allowed_nonces st !! cl_nonce claims = Some entry ->
     (su_now su2 <= bn_expires_at entry)%Z) ->
  org_signed (su_trust su2) (er_token req) (su_now su2) ->
  su_token_seen_fails su2 = false ->
  (timestamp (su_db_now su) + 24 * 3600 < timestamp swept_at)%Z ->
  enroll_checks sv su2 st1 req = Err CONFLICT /\
  enroll_checks sv su2 (prune_tokens swept_at st1) req = Ok tt.
Proof.
  intros claims Henroll Htime Hlive Hsigned Hseen Hsweep.
  unfold enroll in Henroll. destruct (enroll_checks sv su st req) as [[]|] eqn:Ec; [|done].
  apply enroll_checks_ok in Ec as (_ & csr & [Hdb Hfresh Hlisted _ _ Hcsr Hname Hfp Hbound]).
  destruct (enroll_commit_tokens sv _ _ _ _ _ Henroll) as [[_ Hno]|[_ Ht]]; [done|].
  assert (Hsame : is_allowed_nonces st1 = is_allowed_nonces st /\
                  is_verified_fleet st1 = is_verified_fleet st).
  { unfold enroll_commit in Henroll. destruct (su_record_fails su); [done|].
    destruct (Tokens.record_token_nonce _ _ _ _) as [[] tokens]; [|done].
    destruct (sv_ca_signer sv) as [signer|]; [|done].
    destruct (issue_cert _ _ _ _ _) as [[[pem na]|]| |]; try done. injection Henroll as _ <-.
    by destruct (sv_audit_log sv). }
  destruct Hsame as [Hn Hf]. split.
  - unfold enroll_checks. rewrite Hdb, Hseen. cbn [negb]. unfold Tokens.token_seen.
    rewrite Ht. fold (nonce_of req). rewrite lookup_insert_eq. by rewrite bool_decide_eq_true_2.
  - apply enroll_checks_ok. split; [done|]. exists csr. split; try done.
    + unfold prune_tokens, Tokens.prune_token_replay. simpl. rewrite Ht.
      apply map_lookup_filter_None_2. right. intros row Hrow. unfold nonce_of in Hrow.
      rewrite lookup_insert_eq in Hrow. injection Hrow as <-. simpl.
      unfold TOKEN_REPLAY_RETENTION_HOURS. lia.
    + destruct Hlisted as (entry & He & Hh & _). exists entry. simpl. rewrite Hn.
      split_and!; [done..|]. by apply Hlive.
    + simpl. by rewrite Hf.
Qed.

(** The parser of the peer certificate reads back what the authority signed. *)
Definition x509_faithful {Cr : Crypto} {P : Pki} (der_of_pem : string -> string) : Prop :=
  forall params key ca ca_key pem, signed_by params key ca ca_key = Ok pem ->
    exists cert, certificate_from_der (der_of_pem pem) = Some cert /\
      head (x_common_names cert) = Some <$> (dn_value_text <$> find_cn (cp_distinguished_name params)) /\
      x_not_before cert = timestamp (cp_not_before params).

Lemma find_cn_agent_params params cn a b :
  find_cn (cp_distinguished_name (agent_params params cn a b)) = Some (Utf8String cn).
Proof.
  unfold find_cn, agent_params. simpl. induction (cp_distinguished_name params) as [|[t v] l IH]; [done|].
  simpl. case_bool as [Ht|Ht]; simpl; [exact IH|]. rewrite bool_decide_eq_false_2 by done. exact IH.
Qed.

(** The certificate of a name authenticates it, unless a later revocation of the
    machine is in the table. *)
Lemma certified_name_accepted {Cr : Crypto} {B : Base64} {P : Pki} (sv : Server) (su : Surroundings)
    (st : IdentityState) (signer : CaSigner) (csr : Csr) (machine_id : string) (validity : Duration)
    (now not_after : DateTime) (pem : string) (der_of_pem : string -> string) :
  x509_faithful der_of_pem ->
  certifies signer csr (canonical_agent_cn machine_id (sv_agent_cn_suffix sv)) validity now pem not_after ->
  su_revocations_fail su = false -> (0 <= timestamp now <= 8210266876799)%Z ->
  (forall rb, RevocationTable.cert_revoked_before machine_id (is_revocations st) = Some rb ->
     (rb <= duration_seconds (timestamp now))%Z) ->
  require_cn sv su st [der_of_pem pem] = Ok (canonical_agent_cn machine_id (sv_agent_cn_suffix sv)).
Proof.
  intros Hx (ca_key & _ & Hs & _) Hdb Hnow Hrev. apply Hx in Hs as (cert & Hcert & Hcn & Hnb).
  rewrite find_cn_agent_params in Hcn. cbn [fmap option_fmap option_map dn_value_text] in Hcn.
  rewrite u64_wrap_small in Hnb by (unfold u64_max; lia).
  cbn [cp_not_before agent_params] in Hnb.
  unfold require_cn, leaf_cn, leaf_not_before. cbn [is_empty head option_bind mbind]. rewrite Hcert.
  cbn [mbind option_bind]. rewrite Hcn. cbn [mbind option_bind].
  destruct (sv_has_db sv); cbn [negb]; [|done]. rewrite Hdb, extract_canonical.
  assert (Ht : timestamp (duration_seconds (timestamp now)) = timestamp now).
  { unfold timestamp at 1, duration_seconds. by rewrite Z.div_mul. }
  rewrite Hnb, Ht. unfold from_timestamp.
  rewrite (proj2 (Z.leb_le _ _)), (proj2 (Z.leb_le _ _)) by lia. cbn [andb].
  destruct (RevocationTable.cert_revoked_before machine_id (is_revocations st)) as [rb|]; [|done].
  specialize (Hrev rb eq_refl). rewrite (proj2 (Z.ltb_ge _ _)); [done|]. exact Hrev.
Qed.

(** A renewal gives any name.  An agent that authenticated under one name and
    sends a CSR with its own declared key, but with another name, gets a
    certificate for that other name: the handler compares the key and never the
    name, although its comment says the authenticated name is stamped on the new
    certificate and the wire type says the names are compared.  With that
    certificate [require_cn] takes it for the other machine, even when the
    certificates that machine had are revoked, while the audit log shows its own
    name. *)
Theorem renew_gives_any_name {Cr : Crypto} {B : Base64} {P : Pki} (sv : Server) (su su2 : Surroundings)
    (cn csr_pem pem victim : string) (not_after : DateTime) (st : IdentityState) (csr : Csr) (v : DnValue)
    (fleet : FleetResolved) (signer : CaSigner) (der_of_pem : string -> string) :
  x509_faithful der_of_pem ->
  csr_from_pem csr_pem = Ok csr ->
  find_cn (cp_distinguished_name (csr_params csr)) = Some v ->
  dn_value_text v = canonical_agent_cn victim (sv_agent_cn_suffix sv) ->
  is_verified_fleet st = Some fleet ->
  bound_to fleet (extract_machine_id cn (sv_agent_cn_suffix sv)) (csr_public_key csr) ->
  sv_ca_signer sv = Some signer ->
  issue_cert csr_pem signer (sv_agent_cert_validity sv) (su_now su) (sv_agent_cn_suffix sv) =
    Returned (Ok (pem, not_after)) ->
  su_revocations_fail su2 = false ->
  (0 <= timestamp (su_now su) <= 8210266876799)%Z ->
  (forall rb, RevocationTable.cert_revoked_before victim (is_revocations st) = Some rb ->
     (rb <= duration_seconds (timestamp (su_now su)))%Z) ->
  exists st',
    renew sv su cn csr_pem st = (Returned (Ok (MkEnrollResponse pem not_after)), st') /\
    require_cn sv su2 st' [der_of_pem pem] = Ok (canonical_agent_cn victim (sv_agent_cn_suffix sv)) /\
    (sv_audit_log sv = true -> su_audit_written su = true ->
       exists r, is_audit st' = is_audit st ++ [r] /\ au_requester_cn r = cn /\ au_issued_cn r = cn).
Proof.
  intros Hx Hcsr Hv Hname Hfleet (Hlen & h & line & Hh & Hline & Hkey) Hsigner Hissue Hdb Hnow Hrev.
  assert (Hval : validate_csr_against_fleet_host (csr_public_key csr) (host_pubkey h) = Ok tt) by
    (apply validate_csr_ok; by exists line).
  unfold renew. rewrite Hcsr, bool_decide_eq_true_2 by done. cbn [negb].
  rewrite Hfleet, Hh, Hval, Hsigner, Hissue. eexists. split; [done|]. split.
  - apply issue_cert_ok in Hissue as (csr' & v' & Hcsr' & Hv' & Hc).
    rewrite Hcsr in Hcsr'. injection Hcsr' as <-. rewrite Hv in Hv'. injection Hv' as <-.
    rewrite Hname, extract_canonical in Hc.
    eapply certified_name_accepted; [done|exact Hc|done..|]. intros rb Hrb. apply Hrev. by destruct (sv_audit_log sv).
  - intros -> Hw. simpl. unfold audit_log. rewrite Hw. eexists. by split.
Qed.

Lemma require_cn_listed {Cr : Crypto} {B : Base64} {P : Pki} (sv : Server) (su : Surroundings)
    (st : IdentityState) (revs : Revocations) (now : DateTime) (peer : PeerCertificates)
    (cn : string) (not_before : DateTime) :
  sv_has_db sv = true -> su_revocations_fail su = false ->
  leaf_cn peer = Some cn -> leaf_not_before peer = Some not_before ->
  require_cn sv su (apply_verified_revocations (fun _ => false) false now revs st) peer =
  match last_entry (extract_machine_id cn (sv_agent_cn_suffix sv)) (revs_revocations revs) with
  | Some e => if Z.ltb not_before (rv_not_before e) then Err UNAUTHORIZED else Ok cn
  | None => Ok cn
  end.
Proof.
  intros Hdb Hf Hcn Hnb. unfold require_cn.
  destruct (is_empty peer) eqn:Ee; [apply is_empty_spec in Ee as ->; discriminate Hcn|].
  rewrite Hcn, Hdb, Hf, Hnb. cbn [negb]. unfold RevocationTable.cert_revoked_before, apply_verified_revocations.
  pose proof (retain_all now (revs_revocations revs) (is_revocations st)
    (extract_machine_id cn (sv_agent_cn_suffix sv))) as Hall.
  simpl in *. rewrite Hall. by destruct (last_entry _ _).
Qed.

(** The revocation table mirrors the list.  After a verified list has been
    applied, by statements that succeed, the peer certificate of a machine is
    refused exactly when the list names the machine and the certificate begins
    before the date of its last entry.  Nothing of the table before counts: a
    machine that left the list is accepted again, and an entry with an earlier
    date, in an older list that is still fresh or later in the same one, moves
    the date back. *)
Theorem revocations_mirror_list {Cr : Crypto} {B : Base64} {P : Pki} (sv : Server) (su : Surroundings)
    (st : IdentityState) (revs : Revocations) (now : DateTime) (peer : PeerCertificates)
    (cn : string) (not_before : DateTime) :
  sv_has_db sv = true -> su_revocations_fail su = false ->
  leaf_cn peer = Some cn -> leaf_not_before peer = Some not_before ->
  require_cn sv su (apply_verified_revocations (fun _ => false) false now revs st) peer =
  match last_entry (extract_machine_id cn (sv_agent_cn_suffix sv)) (revs_revocations revs) with
  | Some e => if Z.ltb not_before (rv_not_before e) then Err UNAUTHORIZED else Ok cn
  | None => Ok cn
  end.
Proof. apply require_cn_listed. Qed.

(** ** An example

    Base64 is replaced by a text of two letters for a byte, an ed25519 signature
    by the key and the message in one string, a CSR by one of two fixed texts. *)

Definition nibble (c : ascii) : nat := nat_of_ascii c - 97.

Fixpoint letters (s : string) : string :=
  match s with
  | EmptyString => EmptyString
  | String c r => String (ascii_of_nat (97 + nat_of_ascii c / 16))
                    (String (ascii_of_nat (97 + nat_of_ascii c mod 16)) (letters r))
  end.

Fixpoint unletters (s : string) : result string string :=
  match s with
  | EmptyString => Ok EmptyString
  | String _ EmptyString => Err "odd length"
  | String a (String b r) =>
      let? t := unletters r in Ok (String (ascii_of_nat (16 * nibble a + nibble b)) t)
  end.

Definition enrol_crypto : Crypto := {|
  Value := string;
  parse_value := Ok;
  jcs_to_string := Ok;
  base64_decode := unletters;
  Ed25519Key := string;
  ed25519_from_bytes := Ok;
  verify_strict := fun k m s => bool_decide (s = sample_sign k m);
  EncodedPoint := string;
  P256Key := string;
  P256Signature := string;
  encoded_point_from_bytes := Ok;
  from_encoded_point := Ok;
  p256_from_slice := Some;
  normalize_s := fun _ => None;
  p256_verify := fun _ _ _ => false;
  sha256 := pad 32;
  utf8_error := fun _ => "";
|}.

Definition letters_base64 : Base64 (Cr := enrol_crypto) := letters.

Definition web_key : string := pad 32 "the key of web-1".

Definition csr_named (name : string) : Csr :=
  MkCsr (MkCertParams [(OtherType "O", Utf8String "fleet"); (CommonName, Utf8String name)] [] [] 0 0 "")
    web_key.

(** Certificates begin five minutes in; the PEM text is the name. *)
Definition enrol_pki : Pki (Cr := enrol_crypto) :=
  @Build_Pki enrol_crypto
    (fun pem =>
       if bool_decide (pem = "csr") then Ok (csr_named "web-1")
       else if bool_decide (pem = "forged csr") then Ok (csr_named "agent-db-1.fleet")
       else Err "not a CSR")
    unit unit
    (fun params _ _ _ =>
       match dn_value_text <$> find_cn (cp_distinguished_name params) with
       | Some name => if Z.eqb (timestamp (cp_not_before params)) 300 then Ok name else Err "not now"
       | None => Err "no name"
       end)
    (fun _ => true)
    (fun _ => true)
    (fun der => Some (MkCertificate [Some der] 300))
    (fun claims => Ok (cl_hostname claims +:+ "/" +:+ cl_nonce claims))
    Some
    (fun (k : string) m s => bool_decide (s = sample_sign k m)).

Definition web_line : string :=
  "ssh-ed25519 " +:+ letters (bytes_of [0; 0; 0; 11] +:+ "ssh-ed25519" +:+ bytes_of [0; 0; 0; 32] +:+ web_key)
    +:+ " root@web-1".

Definition web_host : Host := MkHost "x86_64-linux" [] "stable" None (Some web_line) None.

Definition enrol_fleet : FleetResolved :=
  MkFleetResolved 1 {[ "web-1" := web_host ]} ∅ ∅ ∅ [] [] []
    (MkMeta 1 (Some 0%Z) (Some "abcdef0123") None).

Definition web_claims : TokenClaims :=
  MkTokenClaims "web-1" (letters web_key) 0 (duration_minutes (72 * 60)) "nonce-1".

Definition web_request : EnrollRequest :=
  MkEnrollRequest (MkBootstrapToken 1 web_claims (letters (sample_sign (pad 32 "org") "web-1/nonce-1"))) "csr".

Definition web_entry : BootstrapNonceEntry :=
  MkBootstrapNonceEntry "nonce-1" "web-1" (duration_minutes (72 * 60)) None None.

Definition enrol_state : IdentityState :=
  publish_fleet enrol_fleet
    (apply_verified_allowlist (MkBootstrapNonces 1 [web_entry] (MkMeta 1 (Some 0%Z) None None))
       (MkIdentityState ∅ ∅ ∅ None [])).

Definition enrol_server : Server (H := enrol_pki) :=
  @MkServer enrol_crypto enrol_pki true "fleet" AGENT_CERT_VALIDITY true
    (Some (@MkCaSigner enrol_crypto enrol_pki tt (Ok tt))).

Definition org_trust : TrustConfig :=
  MkTrustConfig 1 (MkKeySlot None None None None None) []
    (Some (MkKeySlot (Some (MkTrustedPubkey "ed25519" (letters (pad 32 "org")))) None None None None)) None [].

Definition at_minute (m : Z) : Surroundings :=
  MkSurroundings (duration_minutes m) (duration_minutes m) (TrustRead org_trust) false false false true.

(** The response, and the state after the enrollment. *)
Definition web_response : EnrollResponse :=
  MkEnrollResponse "agent-web-1.fleet" (duration_minutes 5 + AGENT_CERT_VALIDITY).

Definition enrolled : IdentityState :=
  enrol_state <| is_tokens := {[ "nonce-1" := MkTokenRow "web-1" 300 ]} |>
              <| is_audit := [MkAuditRecord (duration_minutes 5) "<enroll>" "agent-web-1.fleet"
                   (duration_minutes 5 + AGENT_CERT_VALIDITY) (30 * 24 * 3600) "enroll/nonce:nonce-1"] |>.

Abbreviation web_enroll := (enroll (B := letters_base64) (P := enrol_pki) enrol_server).

Lemma web_enrolls : web_enroll (at_minute 5) web_request enrol_state = (Returned (Ok web_response), enrolled).
Proof. vm_compute. reflexivity. Qed.

Lemma enroll_needs_everything_witness :
  certifies (P := enrol_pki) (@MkCaSigner enrol_crypto enrol_pki tt (Ok tt)) (csr_named "web-1")
    "agent-web-1.fleet" AGENT_CERT_VALIDITY (duration_minutes 5) "agent-web-1.fleet"
    (duration_minutes 5 + AGENT_CERT_VALIDITY).
Proof.
  destruct (enroll_needs_everything (B := letters_base64) (P := enrol_pki) enrol_server (at_minute 5)
    web_request enrol_state enrolled web_response web_enrolls) as (csr & signer & Ha & Hs & Hc & _).
  pose proof (ok_csr _ _ _ _ _ Ha) as Hcsr. vm_compute in Hcsr. injection Hcsr as <-.
  injection Hs as <-. exact Hc.
Defined.

(** Two copies of a request are admitted, and both are carried through. *)
Definition two_copies : EnrollSystem := MkEnrollSystem enrolled [] [(web_request, web_response)].

Lemma one_certificate_per_nonce_witness :
  rtc (enroll_step (B := letters_base64) (P := enrol_pki) enrol_server)
    (MkEnrollSystem enrol_state [] []) two_copies /\
  NoDup (nonce_of <$> (es_issued two_copies).*1).
Proof.
  assert (Hrun : rtc (enroll_step (B := letters_base64) (P := enrol_pki) enrol_server)
    (MkEnrollSystem enrol_state [] []) two_copies).
  { eapply rtc_l; [eapply (step_admit _ (at_minute 5) web_request); vm_compute; reflexivity|].
    eapply rtc_l; [eapply (step_admit _ (at_minute 6) web_request); vm_compute; reflexivity|].
    eapply rtc_l.
    { apply (step_commit enrol_server (at_minute 5) web_request [] [web_request]
        (Returned (Ok web_response)) enrolled); [reflexivity|vm_compute; reflexivity]. }
    apply rtc_once.
    apply (step_commit enrol_server (at_minute 6) web_request [] [] (Returned (Err CONFLICT)) enrolled);
      [reflexivity|vm_compute; reflexivity]. }
  split; [exact Hrun|]. exact (proj1 (one_certificate_per_nonce enrol_server enrol_state two_copies Hrun)).
Defined.

(** A token of three days, used again in its second one. *)
Lemma swept_token_enrols_again_witness :
  enroll_checks (B := letters_base64) (P := enrol_pki) enrol_server (at_minute 1500)
    (prune_tokens (duration_minutes 1500) enrolled) web_request = Ok tt.
Proof.
  refine (proj2 (swept_token_enrols_again (B := letters_base64) (P := enrol_pki) enrol_server (at_minute 5)
    (at_minute 1500) web_request enrol_state enrolled web_response (duration_minutes 1500) web_enrolls
    _ _ _ eq_refl _)).
  - by vm_compute.
  - intros entry He. vm_compute in He. injection He as <-. by vm_compute.
  - exists org_trust, (default (MkKeySlot None None None None None) (tc_org_root_key org_trust)),
      (MkTrustedPubkey "ed25519" (letters (pad 32 "org"))).
    split_and!; [done|done| |by vm_compute]. vm_compute. by apply list_elem_of_here.
  - by vm_compute.
Defined.

Lemma enrol_pki_faithful : x509_faithful (P := enrol_pki) id.
Proof.
  intros params key ca ca_key pem Hs. cbn in Hs.
  destruct (dn_value_text <$> find_cn (cp_distinguished_name params)) as [name|]; [|done].
  destruct (Z.eqb_spec (timestamp (cp_not_before params)) 300) as [Ht|]; [|done].
  injection Hs as <-. exists (MkCertificate [Some name] 300). by split_and!.
Qed.

(** The agent of web-1 renews itself into db-1. *)
Lemma renew_gives_any_name_witness :
  exists st',
    renew (P := enrol_pki) enrol_server (at_minute 5) "agent-web-1.fleet" "forged csr"
      enrolled = (Returned (Ok (MkEnrollResponse "agent-db-1.fleet"
        (duration_minutes 5 + AGENT_CERT_VALIDITY))), st') /\
    require_cn (P := enrol_pki) enrol_server (at_minute 6) st' ["agent-db-1.fleet"] = Ok "agent-db-1.fleet".
Proof.
  pose proof (renew_gives_any_name (B := letters_base64) (P := enrol_pki) enrol_server (at_minute 5)
    (at_minute 6) "agent-web-1.fleet" "forged csr" "agent-db-1.fleet" "db-1"
    (duration_minutes 5 + AGENT_CERT_VALIDITY) enrolled (csr_named "agent-db-1.fleet")
    (Utf8String "agent-db-1.fleet") enrol_fleet (@MkCaSigner enrol_crypto enrol_pki tt (Ok tt)) id
    enrol_pki_faithful eq_refl eq_refl eq_refl eq_refl) as H.
  destruct H as (st' & Hr & Hc & _).
  - split; [by vm_compute|]. exists web_host, web_line. split_and!; vm_compute; reflexivity.
  - reflexivity.
  - vm_compute. reflexivity.
  - reflexivity.
  - by vm_compute.
  - intros rb Hrb. vm_compute in Hrb. discriminate Hrb.
  - exists st'. split; [exact Hr|exact Hc].
Defined.

(** The second entry moves the date of the first one back. *)
Lemma revocations_mirror_list_witness :
  let revs := MkRevocations 1 [MkRevocationEntry "web-1" (duration_minutes 10) None None;
                               MkRevocationEntry "web-1" (duration_minutes 2) None None]
                (MkMeta 1 (Some 0%Z) None None) in
  require_cn (P := enrol_pki) enrol_server (at_minute 6)
    (apply_verified_revocations (fun _ => false) false (duration_minutes 6) revs enrolled)
    ["agent-web-1.fleet"] = Ok "agent-web-1.fleet".
Proof.
  intros revs.
  rewrite (revocations_mirror_list (B := letters_base64) (P := enrol_pki) enrol_server (at_minute 6) enrolled
    revs (duration_minutes 6) ["agent-web-1.fleet"] "agent-web-1.fleet" (duration_minutes 5)
    eq_refl eq_refl eq_refl eq_refl).
  vm_compute. reflexivity.
Defined.
