(* ===== verification/CpStore.v ===== *)
(** * The control plane's tables

    Models [crates/nixfleet-control-plane/src/db/]: the [rollouts],
    [host_rollout_records], [dispatch_queue], [quarantined_closures],
    [probe_failures] and [event_log] tables of [migrations/V001__schema.sql]
    and the statements that read and write them.  A table with a primary key is
    a finite map, the others are lists in insertion order.  Timestamps, stored
    as RFC 3339 text, are the instants they print, except in the row codec
    below, where printing and parsing are parameters.  Each statement is the
    branch on which SQLite succeeds: a failed statement leaves the tables as
    they are and its caller logs and returns. *)

From S2P Require Import Prelude Proto HostTypes RolloutMachine Gates.

(** ** [rollouts] ([db/rollouts.rs]) *)

Record RolloutRow := MkRolloutRow {
  row_rollout_id : RolloutId;
  row_channel : string;
  row_target_ref : string;
  row_state : RolloutState;
  row_current_wave : u32;
  row_opened_event_log_seq : option i64;
  row_last_transition_event_log_seq : option i64;
  row_opened_at : DateTime;
  row_terminal_at : option DateTime;
  row_superseded_at : option DateTime;
}.
#[export] Instance RolloutRow_eta : Etaexp RolloutRow := fun r =>
  MkRolloutRow (row_rollout_id r) (row_channel r) (row_target_ref r) (row_state r)
    (row_current_wave r) (row_opened_event_log_seq r) (row_last_transition_event_log_seq r)
    (row_opened_at r) (row_terminal_at r) (row_superseded_at r).

Abbreviation RolloutsTable := (gmap RolloutId RolloutRow).

Module Rollouts.

(** [INSERT OR IGNORE]. *)
Definition record_rollout_opened (rollout_id : RolloutId) (channel target_ref : string)
    (opened_at : DateTime) (opened_event_log_seq : option i64) (t : RolloutsTable)
    : RolloutsTable :=
  match t !! rollout_id with
  | Some _ => t
  | None =>
      <[ rollout_id := MkRolloutRow rollout_id channel target_ref RolloutState.Opening 0
           opened_event_log_seq opened_event_log_seq opened_at None None ]> t
  end.

(** [UPDATE .. WHERE rollout_id = ?1 AND state != ?2]. *)
Definition record_rollout_transition (rollout_id : RolloutId) (to : RolloutState)
    (at_ : DateTime) (event_log_seq : option i64) (t : RolloutsTable) : RolloutsTable :=
  match t !! rollout_id with
  | None => t
  | Some row =>
      if bool_decide (row_state row = to) then t
      else
        let row := row <| row_state := to |>
                       <| row_last_transition_event_log_seq := event_log_seq |> in
        let row :=
          match to with
          | RolloutState.Terminal => row <| row_terminal_at := Some at_ |>
          | RolloutState.Superseded => row <| row_superseded_at := Some at_ |>
          | _ => row
          end in
        <[ rollout_id := row ]> t
  end.

(** [UPDATE .. WHERE rollout_id = ?1 AND current_wave < ?2], with [COALESCE]. *)
Definition set_current_wave (rollout_id : RolloutId) (wave : u32) (event_log_seq : option i64)
    (t : RolloutsTable) : RolloutsTable :=
  match t !! rollout_id with
  | None => t
  | Some row =>
      if Z.ltb (row_current_wave row) wave then
        <[ rollout_id :=
             row <| row_current_wave := wave |>
                 <| row_last_transition_event_log_seq :=
                      match event_log_seq with
                      | Some s => Some s
                      | None => row_last_transition_event_log_seq row
                      end |> ]> t
      else t
  end.

Definition current_wave (rollout_id : RolloutId) (t : RolloutsTable) : option u32 :=
  row_current_wave <$> t !! rollout_id.

Definition state (rollout_id : RolloutId) (t : RolloutsTable) : option RolloutRow :=
  t !! rollout_id.

Record ActiveRollout := MkActiveRollout {
  ar_rollout_id : RolloutId;
  ar_channel : string;
  ar_current_wave : u32;
  ar_created_at : DateTime;
  ar_terminal_at : option DateTime;
}.

(** [ORDER BY opened_at DESC, rollout_id]. *)
Definition row_order (a b : RolloutRow) : Prop :=
  (row_opened_at b < row_opened_at a)%Z \/
  row_opened_at a = row_opened_at b /\
  String.leb (rid_raw (row_rollout_id a)) (rid_raw (row_rollout_id b)) = true.
#[global] Instance row_order_dec a b : Decision (row_order a b).
Proof. unfold row_order. apply _. Defined.

Definition list_filtered (exclude_terminal : bool) (t : RolloutsTable) : list ActiveRollout :=
  let keep row :=
    match row_state row with
    | RolloutState.Superseded | RolloutState.Pruned => false
    | RolloutState.Terminal => negb exclude_terminal
    | _ => true
    end in
  (fun row => MkActiveRollout (row_rollout_id row) (row_channel row) (row_current_wave row)
                (row_opened_at row) (row_terminal_at row)) <$>
  merge_sort row_order (List.filter keep (map_to_list t).*2).

Definition list_active (t : RolloutsTable) : list ActiveRollout := list_filtered false t.
Definition list_in_flight (t : RolloutsTable) : list ActiveRollout := list_filtered true t.

(** [GateRollouts::into_ui]. *)
Definition into_ui (rs : list ActiveRollout) : list ActiveRollout :=
  List.filter (fun r => match ar_terminal_at r with None => true | Some _ => false end) rs.

(** The rows both [DELETE]s of [prune_finished_rollouts] select.  The statement
    compares the columns as texts; both sides are RFC 3339 texts in UTC of the
    clock of the daemon, whose texts are ordered as the instants are. *)
Definition prunable (cutoff : DateTime) (row : RolloutRow) : bool :=
  match row_state row with
  | RolloutState.Superseded | RolloutState.Terminal | RolloutState.Failed
  | RolloutState.Reverted => true
  | _ => false
  end &&
  (match row_superseded_at row with Some t => Z.ltb t cutoff | None => false end ||
   match row_terminal_at row with Some t => Z.ltb t cutoff | None => false end).

End Rollouts.

(** ** [host_rollout_records] ([db/host_rollout_records.rs]) *)

Abbreviation RecordsTable := (gmap (RolloutId * string) HostRolloutState).

Module HostRolloutRecords.

(** The primary key is [(rollout_id, hostname)]; every other column is
    overwritten. *)
Definition upsert (s : HostRolloutState) (t : RecordsTable) : RecordsTable :=
  <[ (hs_rollout_id s, hs_hostname s) := s ]> t.

Definition load (rollout_id : RolloutId) (hostname : string) (t : RecordsTable)
    : option HostRolloutState := t !! (rollout_id, hostname).

(** [SELECT] without [ORDER BY]: rows come in any order. *)
Definition all_for_rollout {O : HashOrder} (rollout_id : RolloutId) (t : RecordsTable)
    : list HostRolloutState :=
  (filter (fun e => e.1.1 = rollout_id) (hash_iter t)).*2.

Definition is_active (s : HostState) : bool :=
  match s with
  | HostState.Pending | HostState.Activating | HostState.Deferred | HostState.Soaking
  | HostState.Failed => true
  | _ => false
  end.

Definition active_for_host {O : HashOrder} (hostname : string) (t : RecordsTable)
    : list HostRolloutState :=
  (filter (fun e => e.1.2 = hostname /\ is_active (hs_state e.2) = true) (hash_iter t)).*2.

Definition state_to_db (s : HostState) : string :=
  match s with
  | HostState.Pending => "Pending"
  | HostState.Activating => "Activating"
  | HostState.Deferred => "Deferred"
  | HostState.Soaking => "Soaking"
  | HostState.Converged => "Converged"
  | HostState.Failed => "Failed"
  | HostState.Reverted => "Reverted"
  end.

Definition state_from_db (s : string) : result HostState string :=
  if bool_decide (s = "Pending") then Ok HostState.Pending
  else if bool_decide (s = "Activating") then Ok HostState.Activating
  else if bool_decide (s = "Deferred") then Ok HostState.Deferred
  else if bool_decide (s = "Soaking") then Ok HostState.Soaking
  else if bool_decide (s = "Converged") then Ok HostState.Converged
  else if bool_decide (s = "Failed") then Ok HostState.Failed
  else if bool_decide (s = "Reverted") then Ok HostState.Reverted
  else Err s.

Definition policy_to_db (p : OnHealthFailure) : string :=
  match p with
  | OnHealthFailure.Halt => "halt"
  | OnHealthFailure.RollbackAndHalt => "rollback-and-halt"
  end.

Definition policy_from_db (s : string) : result OnHealthFailure string :=
  if bool_decide (s = "halt") then Ok OnHealthFailure.Halt
  else if bool_decide (s = "rollback-and-halt") then Ok OnHealthFailure.RollbackAndHalt
  else Err s.

(** [x as i64] of a [u64] and back. *)
Definition u64_as_i64 (z : u64) : i64 := if Z.ltb z (2 ^ 63) then z else (z - 2 ^ 64)%Z.
Definition i64_as_u64 (z : i64) : u64 := u64_wrap z.

(** A row as SQLite stores it. *)
Record HostRow := MkHostRow {
  hr_rollout_id : string;
  hr_hostname : string;
  hr_channel : string;
  hr_state : string;
  hr_target_closure : string;
  hr_current_closure_at_dispatch : option string;
  hr_current_closure : option string;
  hr_reverted_to : option string;
  hr_dispatched_at : string;
  hr_dispatch_acked_at : option string;
  hr_activation_started_at : option string;
  hr_activation_completed_at : option string;
  hr_activation_failed_at : option string;
  hr_probe_observed_first_at : option string;
  hr_probe_failure_first_at : option string;
  hr_soak_due_at : option string;
  hr_converged_at : option string;
  hr_failed_at : option string;
  hr_policy_applied : option string;
  hr_reverted_at : option string;
  hr_probes_json : string;
  hr_last_event_seq : i64;
}.

Section codec.
(** [to_rfc3339] and [parse_from_rfc3339] of chrono, and serde_json on the
    probe map. *)
Variable to_rfc3339 : DateTime -> string.
Variable parse_from_rfc3339 : string -> option DateTime.
Variable probes_to_string : gmap ProbeName ProbeRecord -> string.
Variable probes_from_str : string -> option (gmap ProbeName ProbeRecord).

(** The bound parameters of [upsert_inner]. *)
Definition state_to_row (s : HostRolloutState) : HostRow := {|
  hr_rollout_id := rid_raw (hs_rollout_id s);
  hr_hostname := hs_hostname s;
  hr_channel := hs_channel s;
  hr_state := state_to_db (hs_state s);
  hr_target_closure := hs_target_closure s;
  hr_current_closure_at_dispatch := hs_current_closure_at_dispatch s;
  hr_current_closure := hs_current_closure s;
  hr_reverted_to := hs_reverted_to s;
  hr_dispatched_at := to_rfc3339 (hs_dispatched_at s);
  hr_dispatch_acked_at := to_rfc3339 <$> hs_dispatch_acked_at s;
  hr_activation_started_at := to_rfc3339 <$> hs_activation_started_at s;
  hr_activation_completed_at := to_rfc3339 <$> hs_activation_completed_at s;
  hr_activation_failed_at := to_rfc3339 <$> hs_activation_failed_at s;
  hr_probe_observed_first_at := to_rfc3339 <$> hs_probe_observed_first_at s;
  hr_probe_failure_first_at := to_rfc3339 <$> hs_probe_failure_first_at s;
  hr_soak_due_at := to_rfc3339 <$> hs_soak_due_at s;
  hr_converged_at := to_rfc3339 <$> hs_converged_at s;
  hr_failed_at := to_rfc3339 <$> hs_failed_at s;
  hr_policy_applied := policy_to_db <$> hs_policy_applied s;
  hr_reverted_at := to_rfc3339 <$> hs_reverted_at s;
  hr_probes_json := probes_to_string (hs_probes s);
  hr_last_event_seq := u64_as_i64 (hs_last_event_seq s);
|}.

(** The errors of the decoder, by column. *)
Definition parse_rfc3339_required (s field : string) : result DateTime string :=
  match parse_from_rfc3339 s with Some t => Ok t | None => Err ("parse " +:+ field) end.

Definition parse_rfc3339_optional (s : option string) : result (option DateTime) string :=
  match s with
  | None => Ok None
  | Some s => match parse_from_rfc3339 s with Some t => Ok (Some t) | None => Err "parse rfc3339" end
  end.

Definition row_to_state (row : HostRow) : result HostRolloutState string :=
  let? probes := match probes_from_str (hr_probes_json row) with
                 | Some p => Ok p | None => Err "probes_json" end in
  let? state := match state_from_db (hr_state row) with
                | Ok s => Ok s | Err e => Err ("unknown state: " +:+ e) end in
  let? dispatched_at := parse_rfc3339_required (hr_dispatched_at row) "dispatched_at" in
  let? dispatch_acked_at := parse_rfc3339_optional (hr_dispatch_acked_at row) in
  let? activation_started_at := parse_rfc3339_optional (hr_activation_started_at row) in
  let? activation_completed_at := parse_rfc3339_optional (hr_activation_completed_at row) in
  let? activation_failed_at := parse_rfc3339_optional (hr_activation_failed_at row) in
  let? probe_observed_first_at := parse_rfc3339_optional (hr_probe_observed_first_at row) in
  let? probe_failure_first_at := parse_rfc3339_optional (hr_probe_failure_first_at row) in
  let? soak_due_at := parse_rfc3339_optional (hr_soak_due_at row) in
  let? converged_at := parse_rfc3339_optional (hr_converged_at row) in
  let? failed_at := parse_rfc3339_optional (hr_failed_at row) in
  let? policy_applied :=
    match hr_policy_applied row with
    | None => Ok None
    | Some s => match policy_from_db s with
                | Ok p => Ok (Some p)
                | Err e => Err ("unknown policy_applied: " +:+ e)
                end
    end in
  let? reverted_at := parse_rfc3339_optional (hr_reverted_at row) in
  Ok {|
    hs_rollout_id := MkRolloutId (hr_rollout_id row);
    hs_hostname := hr_hostname row;
    hs_channel := hr_channel row;
    hs_state := state;
    hs_target_closure := hr_target_closure row;
    hs_current_closure_at_dispatch := hr_current_closure_at_dispatch row;
    hs_current_closure := hr_current_closure row;
    hs_reverted_to := hr_reverted_to row;
    hs_dispatched_at := dispatched_at;
    hs_dispatch_acked_at := dispatch_acked_at;
    hs_activation_started_at := activation_started_at;
    hs_activation_completed_at := activation_completed_at;
    hs_activation_failed_at := activation_failed_at;
    hs_probe_observed_first_at := probe_observed_first_at;
    hs_probe_failure_first_at := probe_failure_first_at;
    hs_soak_due_at := soak_due_at;
    hs_converged_at := converged_at;
    hs_failed_at := failed_at;
    hs_policy_applied := policy_applied;
    hs_reverted_at := reverted_at;
    hs_probes := probes;
    hs_last_event_seq := i64_as_u64 (hr_last_event_seq row);
  |}.
End codec.

End HostRolloutRecords.

(** ** [dispatch_queue] ([db/dispatch_queue.rs]) *)

Record QueuedDispatch := MkQueuedDispatch {
  qd_hostname : string;
  qd_rollout_id : RolloutId;
  qd_target_closure : string;
  qd_soak_due_at : DateTime;
  qd_enqueued_at : DateTime;
}.

Abbreviation QueueTable := (gmap (string * RolloutId) QueuedDispatch).

Module DispatchQueue.

Definition upsert (q : QueuedDispatch) (t : QueueTable) : QueueTable :=
  <[ (qd_hostname q, qd_rollout_id q) := q ]> t.

Definition earlier (a b : QueuedDispatch) : Prop := (qd_enqueued_at a <= qd_enqueued_at b)%Z.
#[global] Instance earlier_dec a b : Decision (earlier a b).
Proof. unfold earlier. apply _. Defined.

Definition for_host {O : HashOrder} (hostname : string) (t : QueueTable) : list QueuedDispatch :=
  (filter (fun e => e.1.1 = hostname) (hash_iter t)).*2.

(** The oldest row of the host, ties in any order, removed. *)
Definition take_for_host {O : HashOrder} (hostname : string) (t : QueueTable)
    : option QueuedDispatch * QueueTable :=
  match merge_sort earlier (for_host hostname t) with
  | [] => (None, t)
  | q :: _ => (Some q, delete (qd_hostname q, qd_rollout_id q) t)
  end.

Definition peek_for_host {O : HashOrder} (hostname : string) (t : QueueTable) : bool :=
  negb (is_empty (for_host hostname t)).

End DispatchQueue.

(** ** [quarantined_closures] ([db/quarantined_closures.rs]) *)

Abbreviation QuarantineTable := (gmap (string * string) (DateTime * option i64)).

Module QuarantinedClosures.

(** [ON CONFLICT DO NOTHING]. *)
Definition insert (channel closure_hash : string) (quarantined_at : DateTime)
    (triggering_event_log_seq : option i64) (t : QuarantineTable) : QuarantineTable :=
  match t !! (channel, closure_hash) with
  | Some _ => t
  | None => <[ (channel, closure_hash) := (quarantined_at, triggering_event_log_seq) ]> t
  end.

Definition active_by_channel {O : HashOrder} (t : QuarantineTable) : QuarantineSet :=
  fold_left (fun out '((channel, closure_hash), _) =>
      <[ channel := {[ closure_hash ]} ∪ default ∅ (out !! channel) ]> out)
    (hash_iter t) ∅.

End QuarantinedClosures.

(** ** [probe_failures] ([db/probe_failures.rs]) *)

Record ProbeFailureInsert := MkProbeFailureInsert {
  pf_rollout_id : RolloutId;
  pf_host_id : string;
  pf_probe_name : string;
  pf_control_id : option string;
  pf_framework : option string;
  pf_observed_at : DateTime;
}.

Abbreviation FailuresTable := (list ProbeFailureInsert).

Module ProbeFailures.

Definition insert_many (rows : list ProbeFailureInsert) (t : FailuresTable) : FailuresTable :=
  t ++ rows.

(** [COALESCE(control_id, probe_name)]. *)
Definition failure_key (r : ProbeFailureInsert) : string :=
  default (pf_probe_name r) (pf_control_id r).

(** [COUNT(DISTINCT COALESCE(control_id, probe_name))] of one group. *)
Definition group_count (rollout_id : RolloutId) (host : string) (t : FailuresTable) : Z :=
  Z.of_nat (size (list_to_set (C := gset string)
    (failure_key <$> filter (fun r => pf_rollout_id r = rollout_id /\ pf_host_id r = host) t))).

Definition outstanding_failing_enforce_probes_by_rollout (t : FailuresTable)
    : gmap RolloutId (gmap string Z) :=
  fold_left (fun out r =>
      <[ pf_rollout_id r :=
           <[ pf_host_id r := group_count (pf_rollout_id r) (pf_host_id r) t ]>
             (default ∅ (out !! pf_rollout_id r)) ]> out)
    t ∅.

End ProbeFailures.

(** ** [event_log] ([db/event_log.rs]) *)

Module EventLogKind.
Inductive t :=
| AgentEvent | PlanAction | Effect | GateDecision | VerifyOutcome | ManifestPoll | RolloutEvent.

Definition as_db_str (k : t) : string :=
  match k with
  | AgentEvent => "agent_event"
  | PlanAction => "plan_action"
  | Effect => "effect"
  | GateDecision => "gate_decision"
  | VerifyOutcome => "verify_outcome"
  | ManifestPoll => "manifest_poll"
  | RolloutEvent => "rollout_event"
  end.
End EventLogKind.

(** The JSON payload of an entry, as the value it serialises. *)
Module LogPayload.
Inductive t :=
| Agent (payload : OutboundAgentEvent)
| Rollout (event : RolloutEvent)
| Transition (host : string) (rollout_id : RolloutId) (from to : HostState) (at_ : DateTime)
| RolloutTransition (rollout_id : RolloutId) (from to : RolloutState) (at_ : DateTime)
| Quarantine (channel closure : string)
| OpenRecord (rollout_id : RolloutId) (channel host : string)
| OpenRollout (rollout_id : RolloutId) (channel target_ref : string) (hosts : list string)
| QueueDispatch (host : string) (rollout : RolloutId) (target_closure : string)
    (soak_due_at : DateTime)
| HaltLifted (channel : string)
| Deferral (gate reason host : string) (rollout : RolloutId).
End LogPayload.

Record EventLogEntry := MkEventLogEntry {
  le_kind : EventLogKind.t;
  le_ts : DateTime;
  le_host_id : option string;
  le_rollout_id : option RolloutId;
  le_payload : LogPayload.t;
}.

(** ** The database

    [db_event_log] is the table of the log.  The applier does not write it: it
    sends each entry to the channel of the writer task, which is kept here beside
    the tables because one operation fills both.  [db_log_sent] is the history of
    what was sent, whatever became of it. *)

Record Db := MkDb {
  db_rollouts : RolloutsTable;
  db_records : RecordsTable;
  db_queue : QueueTable;
  db_quarantines : QuarantineTable;
  db_failures : FailuresTable;
  db_event_log : list EventLogEntry;
  db_log_channel : list EventLogEntry;
  db_log_sent : list EventLogEntry;
}.
#[export] Instance Db_eta : Etaexp Db := fun d =>
  MkDb (db_rollouts d) (db_records d) (db_queue d) (db_quarantines d) (db_failures d)
    (db_event_log d) (db_log_channel d) (db_log_sent d).

Definition empty_db : Db := MkDb ∅ ∅ ∅ ∅ [] [] [] [].

(** Both [DELETE]s, in one transaction; [cutoff] is [now - max_age_hours]. *)
Definition prune_finished_rollouts (now : DateTime) (max_age_hours : Z) (d : Db)
    : Db * (nat * nat) :=
  let cutoff := (now - duration_seconds (max_age_hours * 3600))%Z in
  let victims := filter (fun e => Rollouts.prunable cutoff e.2 = true) (db_rollouts d) in
  let records :=
    filter (fun e => is_Some (victims !! e.1.1)) (db_records d) in
  (d <| db_records := db_records d ∖ records |> <| db_rollouts := db_rollouts d ∖ victims |>,
   (size records, size victims)).
