(* ===== verification/CpStoreProps.v ===== *)
(** * The control plane's tables: what the statements guarantee

    The codec of the host records, the retention sweep, and the count of
    outstanding probe failures. *)

From S2P Require Import Prelude Proto HostTypes RolloutMachine Gates CpStore.

Lemma map_size_difference `{Countable K} {V} (m victims : gmap K V) :
  victims ⊆ m -> size (m ∖ victims) + size victims = size m.
Proof.
  intros Hsub. rewrite <- (map_difference_union victims m) at 2 by done.
  rewrite map_size_disj_union by (by apply map_disjoint_difference_r1). lia.
Qed.

(** ** Columns *)

Lemma state_from_to_db s : HostRolloutRecords.state_from_db (HostRolloutRecords.state_to_db s) = Ok s.
Proof. by destruct s. Qed.

Lemma policy_from_to_db p : HostRolloutRecords.policy_from_db (HostRolloutRecords.policy_to_db p) = Ok p.
Proof. by destruct p. Qed.

Lemma i64_u64_roundtrip z :
  (0 <= z <= u64_max)%Z ->
  HostRolloutRecords.i64_as_u64 (HostRolloutRecords.u64_as_i64 z) = z.
Proof.
  intros H. unfold HostRolloutRecords.i64_as_u64, HostRolloutRecords.u64_as_i64, u64_wrap, u64_max in *.
  destruct (Z.ltb_spec z (2 ^ 63)).
  - apply Z.mod_small. lia.
  - replace (z - 2 ^ 64)%Z with (z + (-1) * 2 ^ 64)%Z by lia.
    rewrite Z.mod_add by lia. apply Z.mod_small. lia.
Qed.

(** The times [chrono] writes so that it reads them again: the years it prints
    with four digits, from the epoch on. *)
Definition year_10000 : DateTime := (253402300800 * nanos_per_sec)%Z.
Definition representable (t : DateTime) : Prop := (0 <= t < year_10000)%Z.

(** The times of a record that have a column of their own, and those inside its
    probes. *)
Definition column_times (s : HostRolloutState) : list (option DateTime) :=
  [ Some (hs_dispatched_at s); hs_dispatch_acked_at s; hs_activation_started_at s;
    hs_activation_completed_at s; hs_activation_failed_at s; hs_probe_observed_first_at s;
    hs_probe_failure_first_at s; hs_soak_due_at s; hs_converged_at s; hs_failed_at s;
    hs_reverted_at s ].
Definition kept_time (o : option DateTime) : Prop := forall t, o = Some t -> representable t.
Definition probe_times_kept (p : gmap ProbeName ProbeRecord) : Prop :=
  map_Forall (fun _ r => representable (pr_last_observed_at r) /\ kept_time (pr_last_pass_at r)) p.

Section codec_lemmas.
Variable to_rfc3339 : DateTime -> string.
Variable parse_from_rfc3339 : string -> option DateTime.
Hypothesis time_roundtrip : forall t, representable t -> parse_from_rfc3339 (to_rfc3339 t) = Some t.

Lemma required_roundtrip t field :
  representable t ->
  HostRolloutRecords.parse_rfc3339_required parse_from_rfc3339 (to_rfc3339 t) field = Ok t.
Proof. intros Ht. unfold HostRolloutRecords.parse_rfc3339_required. by rewrite time_roundtrip. Qed.

Lemma optional_roundtrip o :
  kept_time o ->
  HostRolloutRecords.parse_rfc3339_optional parse_from_rfc3339 (to_rfc3339 <$> o) = Ok o.
Proof. intros Ho. destruct o as [t|]; simpl; [rewrite time_roundtrip by auto | ]; done. Qed.
End codec_lemmas.

(** ** Outstanding failures *)

Lemma group_count_app rid host t rows :
  (ProbeFailures.group_count rid host t <= ProbeFailures.group_count rid host (t ++ rows))%Z.
Proof.
  unfold ProbeFailures.group_count. apply Nat2Z.inj_le, subseteq_size.
  intros x. rewrite !elem_of_list_to_set, filter_app, fmap_app. set_solver.
Qed.

(** The map the query returns, entry by entry; the fold over [l] with the
    counts of [t] fixed. *)
Lemma outstanding_fold (count : RolloutId -> string -> Z) l rid host :
  (fold_left (fun out r =>
     <[ pf_rollout_id r := <[ pf_host_id r := count (pf_rollout_id r) (pf_host_id r) ]>
          (default ∅ (out !! pf_rollout_id r)) ]> out) l (∅ : gmap RolloutId (gmap string Z))
    !! rid) ≫= (fun m => m !! host) =
  if decide (Exists (fun r => pf_rollout_id r = rid /\ pf_host_id r = host) l)
  then Some (count rid host) else None.
Proof.
  induction l as [|r l IH] using rev_ind.
  - rewrite decide_False by (intros []%Exists_nil). cbn [fold_left]. by rewrite lookup_empty.
  - rewrite fold_left_app. simpl.
    set (m := fold_left _ l ∅) in *.
    destruct (decide (pf_rollout_id r = rid)) as [<-|Hr].
    + rewrite lookup_insert_eq. simpl.
      destruct (decide (pf_host_id r = host)) as [<-|Hh].
      * rewrite lookup_insert_eq, decide_True; [done|].
        rewrite Exists_app, Exists_cons. auto.
      * rewrite lookup_insert_ne by done.
        transitivity ((m !! pf_rollout_id r) ≫= (fun m => m !! host)).
        { by destruct (m !! pf_rollout_id r). }
        rewrite IH. apply decide_ext. rewrite Exists_app, Exists_cons, Exists_nil. naive_solver.
    + rewrite lookup_insert_ne by done. rewrite IH.
      apply decide_ext. rewrite Exists_app, Exists_cons, Exists_nil. naive_solver.
Qed.

Definition outstanding (t : FailuresTable) (rid : RolloutId) (host : string) : option Z :=
  (ProbeFailures.outstanding_failing_enforce_probes_by_rollout t !! rid) ≫= (fun m => m !! host).

Lemma outstanding_spec t rid host :
  outstanding t rid host =
  if decide (Exists (fun r => pf_rollout_id r = rid /\ pf_host_id r = host) t)
  then Some (ProbeFailures.group_count rid host t) else None.
Proof. apply (outstanding_fold (fun rid host => ProbeFailures.group_count rid host t)). Qed.

Lemma group_count_pos t rid host :
  Exists (fun r => pf_rollout_id r = rid /\ pf_host_id r = host) t ->
  (0 < ProbeFailures.group_count rid host t)%Z.
Proof.
  intros (r & Hin & Hr)%Exists_exists. unfold ProbeFailures.group_count.
  enough (size (list_to_set (C := gset string) (ProbeFailures.failure_key <$>
    filter (fun r => pf_rollout_id r = rid /\ pf_host_id r = host) t)) <> 0) by lia.
  rewrite size_non_empty_iff. intros E.
  apply (not_elem_of_empty (C := gset string) (ProbeFailures.failure_key r)).
  rewrite <- E, elem_of_list_to_set. apply list_elem_of_fmap. exists r. split; [done|].
  apply list_elem_of_filter. by split.
Qed.

(** A later table counts at least as much. *)
Lemma outstanding_app t rows rid host n :
  outstanding t rid host = Some n ->
  exists n', outstanding (t ++ rows) rid host = Some n' /\ (n <= n')%Z.
Proof.
  rewrite !outstanding_spec. intros H. destruct (decide _) as [E|]; [|done].
  injection H as <-. rewrite decide_True by (apply Exists_app; auto).
  eexists. split; [done | apply group_count_app].
Qed.

(** ** A codec that round trips *)

Fixpoint pos_to_string (p : positive) : string :=
  match p with
  | xH => "."
  | xO p => String "0" (pos_to_string p)
  | xI p => String "1" (pos_to_string p)
  end.

Fixpoint pos_from_string (s : string) : option positive :=
  match s with
  | EmptyString => None
  | String c s =>
      if bool_decide (c = "."%char) then Some xH
      else if bool_decide (c = "0"%char) then xO <$> pos_from_string s
      else xI <$> pos_from_string s
  end.

Lemma pos_string_roundtrip p : pos_from_string (pos_to_string p) = Some p.
Proof. induction p as [p IH|p IH|]; simpl; by rewrite ?IH. Qed.

#[export] Instance ProbeStatus_countable : Countable ProbeStatus.
Proof.
  refine (inj_countable' (fun s => bool_decide (s = ProbeStatus.Pass))
            (fun b : bool => if b then ProbeStatus.Pass else ProbeStatus.Fail) _).
  by intros [].
Defined.

#[export] Instance ProbeMode_countable : Countable ProbeMode.
Proof.
  refine (inj_countable'
    (fun m => (bool_decide (m = ProbeMode.Enforce), bool_decide (m = ProbeMode.Observe)))
    (fun '(e, o) => if e then ProbeMode.Enforce else if o then ProbeMode.Observe
                    else ProbeMode.Disabled) _).
  by intros [].
Defined.

#[export] Instance ProbeRecord_eq_dec : EqDecision ProbeRecord.
Proof. solve_decision. Defined.
#[export] Instance ProbeRecord_countable : Countable ProbeRecord.
Proof.
  refine (inj_countable'
    (fun r => (pr_status r, pr_mode r, pr_last_observed_at r, pr_last_pass_at r, pr_failure_reason r))
    (fun '(s, m, o, l, f) => MkProbeRecord s m o l f) _).
  by intros [].
Defined.

Definition sample_print `{Countable A} (x : A) : string := pos_to_string (encode x).
Definition sample_parse `{Countable A} (s : string) : option A := pos_from_string s ≫= decode.

Lemma sample_codec_roundtrip `{Countable A} (x : A) : sample_parse (sample_print x) = Some x.
Proof. unfold sample_parse, sample_print. rewrite pos_string_roundtrip. simpl. apply decode_encode. Qed.

(** ** Properties *)

Section host_row.
Context (to_rfc3339 : DateTime -> string) (parse_from_rfc3339 : string -> option DateTime)
  (probes_to_string : gmap ProbeName ProbeRecord -> string)
  (probes_from_str : string -> option (gmap ProbeName ProbeRecord)).
#[local] Abbreviation stored s :=
  (HostRolloutRecords.row_to_state parse_from_rfc3339 probes_from_str
    (HostRolloutRecords.state_to_row to_rfc3339 probes_to_string s)).

(** A host record survives the database: for every record whose sequence number
    fits a [u64] and whose times are representable, decoding the row [upsert]
    binds gives the record back, although the sequence number is stored through a
    signed 64-bit column. *)
Lemma host_row_roundtrip (s : HostRolloutState) :
  (forall t, representable t -> parse_from_rfc3339 (to_rfc3339 t) = Some t) ->
  (forall p, probe_times_kept p -> probes_from_str (probes_to_string p) = Some p) ->
  (0 <= hs_last_event_seq s <= u64_max)%Z -> Forall kept_time (column_times s) ->
  probe_times_kept (hs_probes s) -> stored s = Ok s.
Proof.
  intros Ht Hp Hseq Hcols Hprobes. unfold HostRolloutRecords.row_to_state. simpl.
  unfold column_times in Hcols. decompose_Forall_hyps.
  rewrite Hp, state_from_to_db, (required_roundtrip _ _ Ht) by auto.
  rewrite !(optional_roundtrip _ _ Ht) by done. rewrite i64_u64_roundtrip by done.
  destruct s as [[] ? ? ? ? ? ? ? ? ? ? ? ? ? ? ? ? ? pol ? ? ?]; simpl.
  destruct pol as [p|]; simpl; [by rewrite policy_from_to_db | done].
Qed.

(** One time that does not parse back is enough to make the row undecodable. *)
Lemma host_row_undecodable (s : HostRolloutState) (t : DateTime) :
  Some t ∈ column_times s -> parse_from_rfc3339 (to_rfc3339 t) = None ->
  exists e, stored s = Err e.
Proof.
  intros Hin Hnone. destruct (stored s) as [s'|e] eqn:E; [|by exists e]. exfalso. revert E.
  unfold HostRolloutRecords.row_to_state, HostRolloutRecords.parse_rfc3339_required. simpl.
  unfold column_times in Hin. set_unfold.
  destruct_or! Hin; simplify_eq; rewrite <- ?Hin; simpl; rewrite ?Hnone;
    repeat (case_match; simplify_eq/=; try done).
Qed.
End host_row.

(** Times of which those past the year 9999 are refused. *)
Definition sample_parse_time (s : string) : option DateTime :=
  sample_parse s ≫= fun t => if (t <? year_10000)%Z then Some t else None.

Lemma sample_time_roundtrip (t : DateTime) :
  representable t -> sample_parse_time (sample_print t) = Some t.
Proof.
  intros [_ Ht]. unfold sample_parse_time. rewrite sample_codec_roundtrip. simpl.
  by destruct (Z.ltb_spec t year_10000); [|lia].
Qed.

Lemma sample_time_refused (t : DateTime) :
  (year_10000 <= t)%Z -> sample_parse_time (sample_print t) = None.
Proof.
  intros Ht. unfold sample_parse_time. rewrite sample_codec_roundtrip. simpl.
  by destruct (Z.ltb_spec t year_10000); [lia|].
Qed.

(** The retention sweep deletes exactly the rollouts that are superseded,
    terminal, failed or reverted and carry a superseded or terminal time before
    the cutoff, deletes a host record exactly when it deletes its rollout,
    changes no other row and reports both numbers.  So a failed rollout that
    was neither completed nor superseded is kept for ever. *)
Theorem prune_finished_rollouts_spec (now : DateTime) (hours : Z) (d : Db) :
  let cutoff := (now - duration_seconds (hours * 3600))%Z in
  let '(d', (records, rollouts)) := prune_finished_rollouts now hours d in
  (forall rid row, db_rollouts d' !! rid = Some row <->
     db_rollouts d !! rid = Some row /\ Rollouts.prunable cutoff row = false) /\
  (forall rid host st, db_records d' !! (rid, host) = Some st <->
     db_records d !! (rid, host) = Some st /\
     forall row, db_rollouts d !! rid = Some row -> Rollouts.prunable cutoff row = false) /\
  rollouts = size (db_rollouts d) - size (db_rollouts d') /\
  records = size (db_records d) - size (db_records d') /\
  (forall row, row_superseded_at row = None -> row_terminal_at row = None ->
     Rollouts.prunable cutoff row = false).
Proof.
  unfold prune_finished_rollouts. simpl.
  set (cutoff := (now - _)%Z).
  set (victims := filter (fun e => Rollouts.prunable cutoff e.2 = true) (db_rollouts d)).
  set (records := filter (fun e => is_Some (victims !! e.1.1)) (db_records d)).
  split_and!.
  - intros rid row. rewrite lookup_difference_Some. unfold victims.
    split; intros [H1 H2]; split; try done.
    + apply not_true_is_false. intros Hp.
      rewrite map_lookup_filter_None in H2. destruct H2 as [H2|H2]; [congruence | by eapply H2].
    + apply map_lookup_filter_None_2. right. intros row' Hr. simpl. congruence.
  - intros rid host st. rewrite lookup_difference_Some. unfold records.
    split; intros [H1 H2]; split; try done.
    + intros row Hr. apply not_true_is_false. intros Hp.
      rewrite map_lookup_filter_None in H2. destruct H2 as [H2|H2]; [congruence|].
      apply (H2 st H1). simpl. exists row. unfold victims. by rewrite map_lookup_filter_Some.
    + apply map_lookup_filter_None_2. right. intros st' _. simpl.
      intros [row Hr]. unfold victims in Hr. rewrite map_lookup_filter_Some in Hr.
      destruct Hr as [Hr Hp]. simpl in Hp. rewrite (H2 _ Hr) in Hp. done.
  - pose proof (map_size_difference (db_rollouts d) victims (map_filter_subseteq _ _)). lia.
  - pose proof (map_size_difference (db_records d) records (map_filter_subseteq _ _)). lia.
  - intros row Hs Ht. unfold Rollouts.prunable. rewrite Hs, Ht. by destruct (row_state row).
Qed.
