(* ===== verification/CpRuntime.v ===== *)
(** * The control-plane runtime

    Models [crates/nixfleet-control-plane/src/runtime/]: the applier, which
    executes the planner's actions and the reducers' effects on the database
    ([applier.rs]), and the reducer task, which owns the host mirror
    ([reducer.rs]).  The task handles one input at a time to its end, so a run
    is a sequence of inputs.  Every statement is the branch on which SQLite
    succeeds, and the database is attached.  Entries of the
    event log go to the channel of the writer task; its turns, which move an entry to the
    table or lose it, and the loss of the channel when the daemon is killed are
    operations of their own ([write_log_entry], [lose_log_channel]). *)

From S2P Require Import Prelude Proto HostTypes HostTransitions RolloutMachine Gates Planner.
From S2P Require Import CpStore.

(** The successive readings of the [ClockHandle]. *)
Class Clock := clock_reading : nat -> DateTime.

(** What the task acts on: the database, and how often the clock was read. *)
Record World := MkWorld {
  w_db : Db;
  w_reads : nat;
}.
#[export] Instance World_eta : Etaexp World := fun w => MkWorld (w_db w) (w_reads w).

Definition on_db (f : Db -> Db) (w : World) : World := w <| w_db := f (w_db w) |>.

Definition clock_now {C : Clock} (w : World) : DateTime * World :=
  (clock_reading (w_reads w), w <| w_reads := S (w_reads w) |>).

(** ** The applier *)

Module Applier.

(** Entries are sent to the writer.  The bound of the channel, which makes the send
    wait, is in [CpLogWriter]. *)
Definition send_entries (entries : list EventLogEntry) (d : Db) : Db :=
  d <| db_log_channel := db_log_channel d ++ entries |> <| db_log_sent := db_log_sent d ++ entries |>.

Definition append_event_log (ts : DateTime) (host_id : option string)
    (rollout_id : option RolloutId) (kind : EventLogKind.t) (payload : LogPayload.t) (d : Db)
    : Db :=
  send_entries [MkEventLogEntry kind ts host_id rollout_id payload] d.

(** One turn of the writer task: it takes the oldest entry, and an entry whose
    [INSERT] fails is gone. *)
Definition write_log_entry (ok : bool) (d : Db) : Db :=
  match db_log_channel d with
  | [] => d
  | entry :: rest =>
      d <| db_log_channel := rest |>
        <| db_event_log := if ok then db_event_log d ++ [entry] else db_event_log d |>
  end.

(** A daemon that is killed takes the channel with it; one that is told to stop
    lets the writer empty it first. *)
Definition lose_log_channel (d : Db) : Db := d <| db_log_channel := [] |>.

Definition append_rollout_event (now : DateTime) (rollout_id : RolloutId) (event : RolloutEvent)
    (d : Db) : Db :=
  append_event_log now None (Some rollout_id) EventLogKind.RolloutEvent
    (LogPayload.Rollout event) d.

Definition rollout_event_rollout_id (event : RolloutEvent) : RolloutId :=
  match event with
  | RolloutEvent.RolloutOpened rollout_id _ _ _
  | RolloutEvent.HostJoined rollout_id _ _ _
  | RolloutEvent.HostStateChanged rollout_id _ _ _ _
  | RolloutEvent.WaveAdvanced rollout_id _ _ _
  | RolloutEvent.RolloutTerminal rollout_id _
  | RolloutEvent.RetentionExpired rollout_id _
  | RolloutEvent.OperatorClearance rollout_id _ _ _ => rollout_id
  | RolloutEvent.SuccessorOpened superseded_rollout_id _ _ => superseded_rollout_id
  end.

(** Every [event_log_seq] the applier writes is [None]. *)
Definition apply_rollout_effect (now : DateTime) (d : Db) (effect : RolloutEffect) : Db :=
  match effect with
  | RolloutEffect.RecordRolloutTransition rollout_id from to at_ =>
      let d := d <| db_rollouts :=
        Rollouts.record_rollout_transition rollout_id to at_ None (db_rollouts d) |> in
      append_event_log now None (Some rollout_id) EventLogKind.Effect
        (LogPayload.RolloutTransition rollout_id from to at_) d
  | RolloutEffect.UpdateCurrentWave rollout_id wave =>
      d <| db_rollouts := Rollouts.set_current_wave rollout_id wave None (db_rollouts d) |>
  | RolloutEffect.InsertQuarantineFromRollout channel closure_hash =>
      d <| db_quarantines :=
        QuarantinedClosures.insert channel closure_hash now None (db_quarantines d) |>
  | RolloutEffect.SchedulePruning _ _ => d
  end.

Definition record_of_row (row : RolloutRow) : RolloutRecord := {|
  rr_rollout_id := row_rollout_id row;
  rr_channel := row_channel row;
  rr_target_ref := row_target_ref row;
  rr_state := row_state row;
  rr_current_wave := row_current_wave row;
  rr_opened_event_log_seq := row_opened_event_log_seq row;
  rr_last_transition_event_log_seq := row_last_transition_event_log_seq row;
  rr_opened_at := row_opened_at row;
  rr_terminal_at := row_terminal_at row;
  rr_superseded_at := row_superseded_at row;
|}.

Definition process_rollout_event (now : DateTime) (event : RolloutEvent) (d : Db) : Db :=
  let rollout_id := rollout_event_rollout_id event in
  match Rollouts.state rollout_id (db_rollouts d) with
  | None => d
  | Some row =>
      let record := record_of_row row in
      let d := append_event_log now None (Some rollout_id) EventLogKind.RolloutEvent
                 (LogPayload.Rollout event) d in
      match rollout.step record event now with
      | Ok (_, effects) => fold_left (apply_rollout_effect now) effects d
      | Err _ => d
      end
  end.

Definition DEFAULT_SOAK_MINUTES : u32 := 60.

(** [channels[channel].rollout_policy], [rollout_policies[policy]],
    [waves[wave_index].soak_minutes], or the default. *)
Definition soak_minutes_of (manifests : SignedManifestSet) (channel : string) (wave_index : u32)
    : u32 :=
  let fleet := fleet manifests in
  let policy := fr_channels fleet !! channel
                  ≫= fun c => fr_rollout_policies fleet !! ch_rollout_policy c in
  default DEFAULT_SOAK_MINUTES
    (pw_soak_minutes <$> (policy ≫= fun p => rp_waves p !! Z.to_nat wave_index)).

(** One host of [host_set]: the body of the loop of [open_rollout]. *)
Definition open_host (manifests : SignedManifestSet) (now : DateTime) (rollout_id : RolloutId)
    (channel : string) (d : Db) (hw : HostWave) : Db :=
  let soak_minutes := soak_minutes_of manifests channel (hw_wave_index hw) in
  let soak_due_at := compute_soak_due_at now soak_minutes in
  let pending := new_pending rollout_id (hw_hostname hw) channel (hw_target_closure hw) now
                   soak_due_at in
  let d := d <| db_records := HostRolloutRecords.upsert pending (db_records d) |> in
  process_rollout_event now
    (RolloutEvent.HostJoined rollout_id (hw_hostname hw) (hw_wave_index hw) now) d.

Definition in_flight_predecessors (channel : string) (rollout_id : RolloutId) (t : RolloutsTable)
    : list RolloutId :=
  Rollouts.ar_rollout_id <$>
    List.filter (fun r => bool_decide (Rollouts.ar_channel r = channel) &&
                          negb (bool_decide (Rollouts.ar_rollout_id r = rollout_id)))
      (Rollouts.list_active t).

Definition open_rollout (manifests : SignedManifestSet) (now : DateTime) (rollout_id : RolloutId)
    (channel target_ref : string) (d : Db) : Db :=
  let predecessors := in_flight_predecessors channel rollout_id (db_rollouts d) in
  let d := d <| db_rollouts :=
    Rollouts.record_rollout_opened rollout_id channel target_ref now None (db_rollouts d) |> in
  let d := append_rollout_event now rollout_id
             (RolloutEvent.RolloutOpened rollout_id channel target_ref now) d in
  let d := fold_left (fun d predecessor =>
               process_rollout_event now
                 (RolloutEvent.SuccessorOpened predecessor rollout_id now) d) predecessors d in
  match inner <$> sms_rollouts manifests !! channel with
  | None => d
  | Some manifest =>
      let d := fold_left (open_host manifests now rollout_id channel) (rm_host_set manifest) d in
      append_event_log now None (Some rollout_id) EventLogKind.PlanAction
        (LogPayload.OpenRollout rollout_id channel target_ref
           (hw_hostname <$> rm_host_set manifest)) d
  end.

(** The kick that wakes the long-pollers changes no state. *)
Definition queue_dispatch (now : DateTime) (host : string) (rollout : RolloutId)
    (target_closure : ClosureHash) (soak_due_at : DateTime) (d : Db) : Db :=
  let queued := MkQueuedDispatch host rollout target_closure soak_due_at now in
  let d := d <| db_queue := DispatchQueue.upsert queued (db_queue d) |> in
  append_event_log now (Some host) (Some rollout) EventLogKind.PlanAction
    (LogPayload.QueueDispatch host rollout target_closure soak_due_at) d.

Definition record_halt_lifted (now : DateTime) (channel : string) (d : Db) : Db :=
  append_event_log now None None EventLogKind.PlanAction (LogPayload.HaltLifted channel) d.

Definition defer_dispatch (now : DateTime) (host : string) (rollout : RolloutId)
    (gate reason : string) (d : Db) : Db :=
  append_event_log now (Some host) (Some rollout) EventLogKind.GateDecision
    (LogPayload.Deferral gate reason host rollout) d.

Definition open_one_rollout_record (manifests : SignedManifestSet) (now : DateTime)
    (rollout_id : RolloutId) (channel host : string) (d : Db) : Db :=
  match inner <$> sms_rollouts manifests !! channel with
  | None => d
  | Some manifest =>
      match List.find (fun h => bool_decide (hw_hostname h = host)) (rm_host_set manifest) with
      | None => d
      | Some hw =>
          let soak_minutes := soak_minutes_of manifests channel (hw_wave_index hw) in
          let soak_due_at := compute_soak_due_at now soak_minutes in
          let pending := new_pending rollout_id host channel (hw_target_closure hw) now
                           soak_due_at in
          let d := d <| db_records := HostRolloutRecords.upsert pending (db_records d) |> in
          append_event_log now (Some host) (Some rollout_id) EventLogKind.Effect
            (LogPayload.OpenRecord rollout_id channel host) d
      end
  end.

(** The [probe_failures] rows of an agent event. *)
Definition probe_failure_rows (rollout_id : RolloutId) (host : string)
    (payload : OutboundAgentEvent) : list ProbeFailureInsert :=
  match payload with
  | OutboundAgentEvent.ProbeResult probe_name mode status observed_at _ sub_results _ =>
      match sub_results with
      | Some ((_ :: _) as srs) =>
          (fun sr => MkProbeFailureInsert rollout_id host probe_name (Some (psr_control_id sr))
                       (Some (psr_framework sr)) observed_at) <$>
          List.filter (fun sr => bool_decide (psr_status sr = ProbeStatus.Fail) &&
                                 bool_decide (psr_effective_mode sr = ProbeMode.Enforce)) srs
      | _ =>
          if bool_decide (mode = ProbeMode.Enforce) && bool_decide (status = ProbeStatus.Fail)
          then [MkProbeFailureInsert rollout_id host probe_name None None observed_at]
          else []
      end
  | _ => []
  end.

(** Metrics and logs change no state; a [Local] effect is dropped. *)
Definition apply_effect_at (manifests : SignedManifestSet) (now : DateTime) (effect : Effect)
    (d : Db) : Db :=
  match effect with
  | Effect.RemoteQueueDispatch host rollout_id target_closure soak_due_at =>
      queue_dispatch now host rollout_id target_closure soak_due_at d
  | Effect.RemoteInsertQuarantine channel closure =>
      let d := d <| db_quarantines :=
        QuarantinedClosures.insert channel closure now None (db_quarantines d) |> in
      append_event_log now None None EventLogKind.Effect (LogPayload.Quarantine channel closure) d
  | Effect.RemoteOpenRolloutRecord rollout_id channel host =>
      open_one_rollout_record manifests now rollout_id channel host d
  | Effect.RemoteAppendEventLog host rollout_id payload =>
      let d := append_event_log now (Some host) (Some rollout_id) EventLogKind.AgentEvent
                 (LogPayload.Agent payload) d in
      d <| db_failures :=
        ProbeFailures.insert_many (probe_failure_rows rollout_id host payload) (db_failures d) |>
  | Effect.RecordTransition host rollout_id from to at_ =>
      append_event_log now (Some host) (Some rollout_id) EventLogKind.Effect
        (LogPayload.Transition host rollout_id from to at_) d
  | Effect.EmitMetric _ _ _ | Effect.EmitLog _ _ _ _ => d
  | Effect.LocalFireSwitch _ _ | Effect.LocalFireRollbackTo _ _
  | Effect.LocalResetProbeCache _ | Effect.LocalEmitEvent _ _ _ => d
  end.

Definition apply_effect {C : Clock} (manifests : SignedManifestSet) (w : World) (effect : Effect)
    : World :=
  let '(now, w) := clock_now w in
  on_db (apply_effect_at manifests now effect) w.

Definition apply_plan_action {C : Clock} (manifests : SignedManifestSet) (w : World)
    (action : PlanAction) : World :=
  let '(now, w) := clock_now w in
  match action with
  | PlanAction.OpenRollout rollout_id channel target_ref =>
      on_db (open_rollout manifests now rollout_id channel target_ref) w
  | PlanAction.QueueDispatch host rollout target_closure soak_due_at =>
      on_db (queue_dispatch now host rollout target_closure soak_due_at) w
  | PlanAction.RecordHaltLifted channel => on_db (record_halt_lifted now channel) w
  | PlanAction.DeferDispatch host rollout gate reason =>
      on_db (defer_dispatch now host rollout gate reason) w
  end.

End Applier.

(** ** The reducer task *)

Record ReducerState := MkReducerState {
  rd_manifests : option SignedManifestSet;
  rd_quarantines : QuarantineSet;
  rd_last_heartbeat_at : gmap string DateTime;
}.
#[export] Instance ReducerState_eta : Etaexp ReducerState := fun r =>
  MkReducerState (rd_manifests r) (rd_quarantines r) (rd_last_heartbeat_at r).

Record HeartbeatReply := MkHeartbeatReply {
  hb_replay_from : option u64;
  hb_bootstrap_rollouts : list HostRolloutSnapshot;
}.

Module ReducerInput.
Inductive t :=
| HostEvent (host : string) (rollout_id : RolloutId) (event : Event)
| ManifestSetUpdated (set : SignedManifestSet)
| HeartbeatReceived (host : string) (rollout_id : option RolloutId)
    (current_closure : option string) (at_ : DateTime)
| PlanTick.
End ReducerInput.
Abbreviation ReducerInput := ReducerInput.t.

Module Reducer.

Definition initial : ReducerState := MkReducerState None ∅ ∅.

Definition resolve_policy (manifests : SignedManifestSet) (channel : string)
    : option RolloutPolicy :=
  let fleet := fleet manifests in
  match fr_channels fleet !! channel with
  | None => None
  | Some channel_entry => fr_rollout_policies fleet !! ch_rollout_policy channel_entry
  end.

Section reducer.
Context {O : HashOrder} {C : Clock}.

(** ** Host events *)

(** The aggregate the handler computes after a move to [Converged]. *)
Definition all_converged (rows : list HostRolloutState) : bool :=
  negb (is_empty rows) && forallb (fun r => bool_decide (hs_state r = HostState.Converged)) rows.

(** What follows the effects when the host changed state. *)
Definition compose_rollout (now : DateTime) (host : string) (rollout_id : RolloutId)
    (prior next : HostState) (d : Db) : Db :=
  if bool_decide (prior = next) then d
  else
    let d := Applier.process_rollout_event now
               (RolloutEvent.HostStateChanged rollout_id host prior next now) d in
    if bool_decide (next = HostState.Converged) &&
       all_converged (HostRolloutRecords.all_for_rollout rollout_id (db_records d))
    then Applier.process_rollout_event now (RolloutEvent.RolloutTerminal rollout_id now) d
    else d.

Definition handle_host_event (rs : ReducerState) (host : string) (rollout_id : RolloutId)
    (event : Event) (w : World) : World :=
  match HostRolloutRecords.load rollout_id host (db_records (w_db w)) with
  | None => w
  | Some prior =>
      let incoming_seq := Event.seq event in
      if Z.leb incoming_seq (hs_last_event_seq prior) then w
      else match rd_manifests rs with
      | None => w
      | Some manifests =>
          match resolve_policy manifests (hs_channel prior) with
          | None => w
          | Some policy =>
              let '(now, w) := clock_now w in
              match HostTransitions.step prior event now policy with
              | Err _ => w
              | Ok (next_state, effects) =>
                  let next_state := next_state <| hs_last_event_seq := incoming_seq |> in
                  let w := on_db (fun d => d <| db_records :=
                             HostRolloutRecords.upsert next_state (db_records d) |>) w in
                  let w := fold_left (Applier.apply_effect manifests) effects w in
                  on_db (compose_rollout now host rollout_id (hs_state prior)
                           (hs_state next_state)) w
              end
          end
      end
  end.

(** ** The planner's view *)

(** One channel of [manifests.rollouts]: the body of the loop. *)
Definition load_channel (d : Db) (acc : gmap (RolloutId * HostId) HostRolloutState *
    gmap RolloutId RolloutSummary) (entry : ChannelId * Verified RolloutManifest)
    : gmap (RolloutId * HostId) HostRolloutState * gmap RolloutId RolloutSummary :=
  let '(host_states, rollouts) := acc in
  let '(channel, vm) := entry in
  let manifest := inner vm in
  let rollout_id := rollout_id.new channel (rm_channel_ref manifest) in
  let rows := HostRolloutRecords.all_for_rollout rollout_id (db_records d) in
  let host_states :=
    fold_left (fun m row => <[ (rollout_id, hs_hostname row) := row ]> m) rows host_states in
  let rollouts :=
    match Rollouts.state rollout_id (db_rollouts d) with
    | Some row =>
        <[ rollout_id := MkRolloutSummary rollout_id channel (rm_channel_ref manifest)
             (row_opened_at row) (row_terminal_at row) (row_current_wave row)
             (rm_disruption_budgets manifest) ]> rollouts
    | None => rollouts
    end in
  (host_states, rollouts).

Definition build_fleet_state (d : Db) (manifests : SignedManifestSet) : FleetState :=
  let '(host_states, rollouts) :=
    fold_left (load_channel d) (hash_iter (sms_rollouts manifests)) (∅, ∅) in
  MkFleetState host_states rollouts
    (ProbeFailures.outstanding_failing_enforce_probes_by_rollout (db_failures d)).

(** The wave a rollout is promoted to: the body of the first loop. *)
Definition wave_bump (manifests : SignedManifestSet) (fleet_state : FleetState)
    (entry : RolloutId * RolloutSummary) : option (RolloutId * u32) :=
  let '(rollout_id, summary) := entry in
  match rs_terminal_at summary with
  | Some _ => None
  | None =>
      match fr_waves (fleet manifests) !! rs_channel summary with
      | None => None
      | Some channel_waves =>
          let current := Z.to_nat (rs_current_wave summary) in
          if Nat.leb (length channel_waves) (current + 1) then None
          else match channel_waves !! current with
          | None => None
          | Some current_wave =>
              if is_empty (wave_hosts current_wave) then None
              else
                let all_ordering_eligible :=
                  forallb (fun host =>
                    match fs_host_states fleet_state !! (rollout_id, host) with
                    | Some s => match hs_state s with
                                | HostState.Converged | HostState.Deferred => true
                                | _ => false
                                end
                    | None => false
                    end) (wave_hosts current_wave) in
                if all_ordering_eligible
                then Some (rollout_id, u32_wrap (rs_current_wave summary + 1))
                else None
          end
      end
  end.

Definition bump_one (acc : Db * FleetState) (bump : RolloutId * u32) : Db * FleetState :=
  let '(d, fleet_state) := acc in
  let '(rollout_id, next_wave) := bump in
  let d := d <| db_rollouts :=
    Rollouts.set_current_wave rollout_id next_wave None (db_rollouts d) |> in
  let fleet_state :=
    match fs_rollouts fleet_state !! rollout_id with
    | Some s => fleet_state <| fs_rollouts :=
                  <[ rollout_id := s <| rs_current_wave := next_wave |> ]>
                    (fs_rollouts fleet_state) |>
    | None => fleet_state
    end in
  (d, fleet_state).

Definition advance_current_waves (manifests : SignedManifestSet) (d : Db)
    (fleet_state : FleetState) : Db * FleetState :=
  let bumps := omap (wave_bump manifests fleet_state) (hash_iter (fs_rollouts fleet_state)) in
  fold_left bump_one bumps (d, fleet_state).

Definition run_plan (rs : ReducerState) (w : World) : World :=
  match rd_manifests rs with
  | None => w
  | Some manifests =>
      let '(now, w) := clock_now w in
      let fleet_state := build_fleet_state (w_db w) manifests in
      let '(d, fleet_state) := advance_current_waves manifests (w_db w) fleet_state in
      let w := w <| w_db := d |> in
      let actions := plan_next manifests fleet_state (rd_quarantines rs) now in
      fold_left (Applier.apply_plan_action manifests) actions w
  end.

(** ** Heartbeats *)

Definition host_rollout_state_to_snapshot (record : HostRolloutState) : HostRolloutSnapshot :=
  let wire_state :=
    match hs_state record with
    | HostState.Pending => WireState.Pending
    | HostState.Activating => WireState.Activating
    | HostState.Deferred => WireState.Deferred
    | HostState.Soaking => WireState.Soaking
    | HostState.Converged => WireState.Converged
    | HostState.Failed => WireState.Failed
    | HostState.Reverted => WireState.Reverted
    end in
  {| snap_rollout_id := hs_rollout_id record;
     snap_hostname := hs_hostname record;
     snap_channel := hs_channel record;
     snap_state := wire_state;
     snap_target_closure := hs_target_closure record;
     snap_current_closure_at_dispatch := hs_current_closure_at_dispatch record;
     snap_current_closure := hs_current_closure record;
     snap_dispatched_at := hs_dispatched_at record;
     snap_dispatch_acked_at := hs_dispatch_acked_at record;
     snap_activation_started_at := hs_activation_started_at record;
     snap_activation_completed_at := hs_activation_completed_at record;
     snap_soak_due_at := hs_soak_due_at record;
     snap_last_event_seq := hs_last_event_seq record |}.

Definition build_bootstrap_for_host (host : string) (d : Db) : list HostRolloutSnapshot :=
  host_rollout_state_to_snapshot <$> HostRolloutRecords.active_for_host host (db_records d).

(** The [Debug] text of the block is only logged. *)
Definition evaluate_synth_gates (d : Db) (manifests : SignedManifestSet)
    (quarantines : QuarantineSet) (record : HostRolloutState) : option GateBlock :=
  evaluate_for_dispatch (build_fleet_state d manifests) manifests quarantines
    (hs_rollout_id record) (hs_hostname record) (hs_target_closure record) (hs_channel record) ∅.

Definition synthesize_pending_to_converged (rs : ReducerState) (record : HostRolloutState)
    (agent_current : string) (at_ : DateTime) (w : World) : World :=
  let host := hs_hostname record in
  let rollout_id := hs_rollout_id record in
  let w := handle_host_event rs host rollout_id
             (Event.RemoteDispatchAck "" at_ (u64_wrap (hs_last_event_seq record + 1))) w in
  let w := handle_host_event rs host rollout_id
             (Event.RemoteActivationCompleted agent_current 0 at_
                (u64_wrap (hs_last_event_seq record + 2))) w in
  match HostRolloutRecords.load rollout_id host (db_records (w_db w)) with
  | None => w
  | Some post_activation =>
      let synth_converged_at :=
        match hs_soak_due_at post_activation with
        | Some soak_due => if Z.ltb at_ soak_due then soak_due else at_
        | None => at_
        end in
      handle_host_event rs host rollout_id
        (Event.RemoteConverged synth_converged_at agent_current
           (u64_wrap (hs_last_event_seq record + 3))) w
  end.

(** One record of the host: the body of the recovery loop. *)
Definition recover_record (rs : ReducerState) (host agent_current : string) (at_ : DateTime)
    (w : World) (record : HostRolloutState) : World :=
  let rollout_id := hs_rollout_id record in
  match hs_state record with
  | HostState.Activating | HostState.Deferred =>
      if bool_decide (hs_target_closure record = agent_current) then
        handle_host_event rs host rollout_id
          (Event.RemoteActivationCompleted agent_current 0 at_
             (u64_wrap (hs_last_event_seq record + 1))) w
      else w
  | HostState.Pending =>
      if bool_decide (hs_target_closure record = agent_current) then
        let gate_block :=
          match rd_manifests rs with
          | Some manifests => evaluate_synth_gates (w_db w) manifests (rd_quarantines rs) record
          | None => None
          end in
        match gate_block with
        | Some _ => w
        | None => synthesize_pending_to_converged rs record agent_current at_ w
        end
      else w
  | HostState.Failed =>
      if bool_decide (hs_current_closure_at_dispatch record = Some agent_current) then
        handle_host_event rs host rollout_id
          (Event.RemoteRollbackComplete agent_current 0 at_
             (u64_wrap (hs_last_event_seq record + 1))) w
      else w
  | _ => w
  end.

Definition maybe_synthesize_recovery_completion (rs : ReducerState) (host agent_current : string)
    (at_ : DateTime) (w : World) : World :=
  fold_left (recover_record rs host agent_current at_)
    (HostRolloutRecords.active_for_host host (db_records (w_db w))) w.

Definition compute_replay_from (host : string) (rollout_id current_closure : option string)
    (d : Db) : option u64 :=
  match rollout_id with
  | None => None
  | Some rollout_id =>
      match current_closure with
      | None => None
      | Some agent_closure =>
          match HostRolloutRecords.load (MkRolloutId rollout_id) host (db_records d) with
          | None => None
          | Some record =>
              match hs_current_closure record with
              | Some cp =>
                  if bool_decide (cp = agent_closure) then None
                  else Some (hs_last_event_seq record)
              | None => Some (hs_last_event_seq record)
              end
          end
      end
  end.

Definition handle_heartbeat (rs : ReducerState) (host : string) (rollout_id : option RolloutId)
    (current_closure : option string) (at_ : DateTime) (w : World)
    : ReducerState * World * HeartbeatReply :=
  let rs := rs <| rd_last_heartbeat_at := <[ host := at_ ]> (rd_last_heartbeat_at rs) |> in
  let w :=
    match current_closure with
    | Some agent_current => maybe_synthesize_recovery_completion rs host agent_current at_ w
    | None => w
    end in
  let replay_from := compute_replay_from host (rid_raw <$> rollout_id) current_closure (w_db w) in
  let bootstrap_rollouts :=
    match rollout_id with
    | None => build_bootstrap_for_host host (w_db w)
    | Some _ => []
    end in
  (rs, w, MkHeartbeatReply replay_from bootstrap_rollouts).

(** ** Inputs *)

Definition handle_input (rs : ReducerState) (input : ReducerInput) (w : World)
    : ReducerState * World * option HeartbeatReply :=
  match input with
  | ReducerInput.HostEvent host rollout_id event =>
      (rs, handle_host_event rs host rollout_id event w, None)
  | ReducerInput.ManifestSetUpdated set =>
      let rs := rs <| rd_manifests := Some set |> in
      (rs, run_plan rs w, None)
  | ReducerInput.HeartbeatReceived host rollout_id current_closure at_ =>
      let '(rs, w, reply) := handle_heartbeat rs host rollout_id current_closure at_ w in
      (rs, w, Some reply)
  | ReducerInput.PlanTick => (rs, run_plan rs w, None)
  end.

End reducer.

End Reducer.
