(* ===== verification/CpApplierProps.v ===== *)
(** * The applier implements the rollout reducer

    The control plane never stores the record the rollout reducer returns: it
    replays the reducer's effects as guarded updates of the [rollouts] table.
    The lemmas below turn one event into one update of that table and a known
    suffix of the log; the theorem says the updated row is the reducer's
    record. *)

From S2P Require Import Prelude Proto HostTypes HostTransitions HostProps RolloutMachine.
From S2P Require Import RolloutProps Gates Planner CpStore CpStoreProps CpRuntime.
Import Applier.

(** ** The effect of one event on the table *)

(** The row once the event has led to state [s']. *)
Definition row_after (row : RolloutRow) (e : RolloutEvent) (s' : RolloutState) : RolloutRow :=
  let r := rollout_after (record_of_row row) e s' in
  MkRolloutRow (rr_rollout_id r) (rr_channel r) (rr_target_ref r) (rr_state r)
    (rr_current_wave r) (rr_opened_event_log_seq r)
    (if bool_decide (s' = row_state row) then row_last_transition_event_log_seq row else None)
    (rr_opened_at r) (rr_terminal_at r) (rr_superseded_at r).

Definition rows_after (e : RolloutEvent) (t : RolloutsTable) : RolloutsTable :=
  match t !! rollout_event_rollout_id e with
  | None => t
  | Some row =>
      match rollout_table (row_state row) e with
      | Move s' => <[ rollout_event_rollout_id e := row_after row e s' ]> t
      | _ => t
      end
  end.

(** What the log gains. *)
Definition log_of_event (now : DateTime) (e : RolloutEvent) (t : RolloutsTable)
    : list EventLogEntry :=
  let rid := rollout_event_rollout_id e in
  match t !! rid with
  | None => []
  | Some row =>
      MkEventLogEntry EventLogKind.RolloutEvent now None (Some rid) (LogPayload.Rollout e) ::
      match rollout_table (row_state row) e with
      | Move s' =>
          if bool_decide (s' = row_state row) then []
          else [ MkEventLogEntry EventLogKind.Effect now None (Some rid)
                   (LogPayload.RolloutTransition rid (row_state row) s' (event_at e)) ]
      | _ => []
      end
  end.

(** Every row is stored under its identifier. *)
Definition rows_keyed (t : RolloutsTable) : Prop :=
  map_Forall (fun rid row => row_rollout_id row = rid) t.

Lemma rollout_wave_ge s wave e : (wave <= rollout_wave s wave e)%Z.
Proof. destruct s, e; simpl; try lia; destruct (Z.ltb _ _); lia. Qed.

(** A state change and a wave change never come with the same event, but for
    the unreachable [Converging]; the update order does not matter. *)
Lemma apply_rollout_effects now d row e s' :
  let rid := row_rollout_id row in
  db_rollouts d !! rid = Some row ->
  fold_left (apply_rollout_effect now) (rollout_effects (record_of_row row) e s') d =
  send_entries
    (if bool_decide (s' = row_state row) then []
     else [ MkEventLogEntry EventLogKind.Effect now None (Some rid)
              (LogPayload.RolloutTransition rid (row_state row) s' (event_at e)) ])
    (d <| db_rollouts := <[ rid := row_after row e s' ]> (db_rollouts d) |>).
Proof.
  intros rid Hrow. unfold rollout_effects, row_after, rollout_after. simpl.
  pose proof (rollout_wave_ge (row_state row) (row_current_wave row) e) as Hge.
  set (wave' := rollout_wave _ _ _) in *.
  destruct d as [t rec q qs f table channel log], row as [rid0 ch ref s wave o l opened term super]; simpl in *.
  subst rid. case_bool as [->|Hs]; simpl.
  - unfold send_entries. rewrite !app_nil_r. case_bool as [->|Hw]; simpl; [by rewrite insert_id|].
    unfold Rollouts.set_current_wave. rewrite Hrow. simpl.
    by destruct (Z.ltb_spec wave wave'); [|lia].
  - unfold Rollouts.record_rollout_transition. rewrite Hrow. simpl.
    rewrite (bool_decide_eq_false_2 (s = s')) by congruence.
    destruct s'; simpl;
    (case_bool as [->|Hw]; simpl; [done|]; unfold append_event_log; simpl;
     unfold Rollouts.set_current_wave; rewrite lookup_insert_eq; simpl;
     destruct (Z.ltb_spec wave wave'); [|lia]; by rewrite insert_insert_eq).
Qed.

Lemma process_rollout_event_eq now e d :
  rows_keyed (db_rollouts d) ->
  process_rollout_event now e d =
  send_entries (log_of_event now e (db_rollouts d)) (d <| db_rollouts := rows_after e (db_rollouts d) |>).
Proof.
  intros Hk. unfold process_rollout_event, rows_after, log_of_event, Rollouts.state.
  destruct (db_rollouts d !! rollout_event_rollout_id e) as [row|] eqn:Hrow.
  2:{ unfold send_entries. rewrite !app_nil_r. by destruct d. }
  pose proof (Hk _ _ Hrow) as Hid. simpl in Hid.
  pose proof (rollout_step_table (record_of_row row) e now) as Hstep.
  change (rr_state (record_of_row row)) with (row_state row) in Hstep.
  destruct (rollout_table (row_state row) e) as [s'| |]; rewrite Hstep; [|by destruct d..].
  rewrite (apply_rollout_effects now _ row e s') by (simpl; by rewrite Hid).
  rewrite Hid. destruct d; unfold append_event_log, send_entries; simpl. by rewrite <- !app_assoc.
Qed.

Lemma rows_after_keyed e t : rows_keyed t -> rows_keyed (rows_after e t).
Proof.
  intros Hk. unfold rows_after. destruct (t !! _) as [row|] eqn:Hrow; [|done].
  destruct (rollout_table _ _); [|done..].
  apply map_Forall_insert_2; [|done]. simpl. by apply (Hk _ _ Hrow).
Qed.

(** Only the event's own row changes. *)
Lemma rows_after_other e t rid :
  rid <> rollout_event_rollout_id e -> rows_after e t !! rid = t !! rid.
Proof.
  intros Hne. unfold rows_after. destruct (t !! rollout_event_rollout_id e) as [row|]; [|done].
  destruct (rollout_table _ _); [|done..]. by rewrite lookup_insert_ne.
Qed.

Lemma rows_after_own e t row :
  t !! rollout_event_rollout_id e = Some row ->
  rows_after e t !! rollout_event_rollout_id e =
  Some (match rollout_table (row_state row) e with Move s' => row_after row e s' | _ => row end).
Proof.
  intros Hrow. unfold rows_after. rewrite Hrow.
  destruct (rollout_table _ _); [by rewrite lookup_insert_eq | done..].
Qed.

Lemma row_after_state row e s' : row_state (row_after row e s') = s'.
Proof. done. Qed.

(** ** Properties *)

(** C38.  The database implements the rollout reducer.  The applier discards the
    record the reducer returns and writes its effects through guarded updates;
    yet for every event the row of the event's rollout becomes exactly that
    record (only the log reference of the last transition is cleared when the
    state changes, as the applier has no number for it), a refused event and an
    unknown rollout change no row, every other row and every other table stays
    as it is, and the writer of the log is sent the event, then the transition
    when the state changed. *)
Theorem applier_implements_rollout_reducer (now : DateTime) (e : RolloutEvent) (d : Db) :
  let rid := rollout_event_rollout_id e in
  let d' := process_rollout_event now e d in
  rows_keyed (db_rollouts d) ->
  (forall rid', rid' <> rid -> db_rollouts d' !! rid' = db_rollouts d !! rid') /\
  match db_rollouts d !! rid with
  | None => d' = d
  | Some row =>
      match rollout.step (record_of_row row) e now with
      | Ok (r', _) => exists row', db_rollouts d' !! rid = Some row' /\
          record_of_row row' =
            r' <| rr_last_transition_event_log_seq :=
                    if bool_decide (rr_state r' = row_state row)
                    then row_last_transition_event_log_seq row else None |>
      | Err _ => db_rollouts d' !! rid = Some row
      end
  end /\
  db_records d' = db_records d /\ db_queue d' = db_queue d /\
  db_quarantines d' = db_quarantines d /\ db_failures d' = db_failures d /\
  db_event_log d' = db_event_log d /\
  db_log_sent d' = db_log_sent d ++ log_of_event now e (db_rollouts d) /\
  db_log_channel d' = db_log_channel d ++ log_of_event now e (db_rollouts d).
Proof.
  intros rid d' Hk. unfold d'. rewrite process_rollout_event_eq by done. unfold send_entries. simpl.
  split_and!; [intros; by apply rows_after_other | | done..].
  unfold log_of_event. fold rid.
  destruct (db_rollouts d !! rid) as [row|] eqn:Hrow.
  2:{ unfold rows_after. fold rid. rewrite Hrow, !app_nil_r. by destruct d. }
  pose proof (rollout_step_table (record_of_row row) e now) as Hstep.
  change (rr_state (record_of_row row)) with (row_state row) in Hstep.
  pose proof (rows_after_own e _ row Hrow) as Hown. fold rid in Hown. rewrite Hown.
  destruct (rollout_table (row_state row) e) as [s'| |]; rewrite Hstep; [|done..].
  eexists; split; [done|]. by destruct row.
Qed.

Definition sample_active_row : RolloutRow :=
  MkRolloutRow (MkRolloutId "stable@r1") "stable" "r1" RolloutState.Active 0 None (Some 4%Z) 0
    None None.
Definition sample_active_db : Db :=
  empty_db <| db_rollouts := {[ MkRolloutId "stable@r1" := sample_active_row ]} |>.

Lemma applier_implements_rollout_reducer_witness :
  exists row',
    db_rollouts (process_rollout_event 9 (RolloutEvent.RolloutTerminal (MkRolloutId "stable@r1") 8)
      sample_active_db) !! MkRolloutId "stable@r1" = Some row' /\
    record_of_row row' = (record_of_row sample_active_row) <| rr_state := RolloutState.Terminal |>
      <| rr_terminal_at := Some 8%Z |> <| rr_last_transition_event_log_seq := None |>.
Proof.
  destruct (applier_implements_rollout_reducer 9
    (RolloutEvent.RolloutTerminal (MkRolloutId "stable@r1") 8) sample_active_db) as (_ & H & _).
  - unfold sample_active_db. simpl. by apply map_Forall_singleton.
  - exact H.
Defined.
