(* ===== verification/CpRuntimeProps.v ===== *)
(** * The control-plane runtime: its invariant

    The tables reached from an empty database by any sequence of inputs,
    dispatch deliveries, retention sweeps and restarts satisfy [tables_inv]:
    the rollout rows agree with the records of their hosts.  The theorems of
    [CpRuntimeSpecs] and the safety theorems at the end rest on it. *)

From S2P Require Import Prelude Proto HostTypes HostTransitions HostProps RolloutMachine.
From S2P Require Import RolloutProps Gates Planner PlannerProps CpStore CpStoreProps CpRuntime.
From S2P Require Import CpApplierProps.
Import Applier Reducer.

(** ** The invariant *)

(** What a rollout's state says about the state of each of its hosts.  The
    remaining rollout states are not reached. *)
Definition agrees (s : RolloutState) (h : HostState) : Prop :=
  match s with
  | RolloutState.Active => failure_state h = false
  | RolloutState.Terminal => h = HostState.Converged
  | RolloutState.Failed | RolloutState.Superseded => True
  | _ => False
  end.

Definition reached_state (s : RolloutState) : Prop :=
  match s with
  | RolloutState.Opening | RolloutState.Active | RolloutState.Terminal | RolloutState.Failed
  | RolloutState.Superseded => True
  | _ => False
  end.

Record row_inv (rid : RolloutId) (row : RolloutRow) : Prop := {
  rwi_key : row_rollout_id row = rid;
  rwi_stamps : rollout_inv (record_of_row row);
  rwi_state : reached_state (row_state row);
}.

Record tables_inv (t : RolloutsTable) (r : RecordsTable) : Prop := {
  tbi_rows : map_Forall row_inv t;
  tbi_records : map_Forall (fun k st => (hs_rollout_id st, hs_hostname st) = k /\ host_inv st) r;
  tbi_agree : forall rid h st, r !! (rid, h) = Some st ->
    exists row, t !! rid = Some row /\ agrees (row_state row) (hs_state st);
}.

Definition db_inv (d : Db) : Prop := tables_inv (db_rollouts d) (db_records d).

Lemma tables_inv_keyed t r : tables_inv t r -> rows_keyed t.
Proof. intros H rid row Hrow. by apply (tbi_rows _ _ H _ _ Hrow). Qed.
#[export] Hint Resolve tables_inv_keyed : nixfleet.

Lemma tables_inv_empty : tables_inv ∅ ∅.
Proof. split; [apply map_Forall_empty..|]. intros ???. by rewrite lookup_empty. Qed.

(** ** Preservation, one update at a time *)

Lemma tables_inv_row t r rid row' :
  tables_inv t r -> row_inv rid row' ->
  (forall h st, r !! (rid, h) = Some st -> agrees (row_state row') (hs_state st)) ->
  tables_inv (<[ rid := row' ]> t) r.
Proof.
  intros [Hrows Hrecs Hagree] Hrow' Hag. split; [by apply map_Forall_insert_2 | done|].
  intros rid' h st Hst. destruct (decide (rid' = rid)) as [->|Hne].
  - rewrite lookup_insert_eq. eauto.
  - rewrite lookup_insert_ne by done. by apply (Hagree _ h).
Qed.

Lemma tables_inv_record t r rid h st row :
  tables_inv t r -> t !! rid = Some row -> agrees (row_state row) (hs_state st) ->
  hs_rollout_id st = rid -> hs_hostname st = h -> host_inv st ->
  tables_inv t (<[ (rid, h) := st ]> r).
Proof.
  intros [Hrows Hrecs Hagree] Hrow Hag <- <- Hst.
  split; [done | by apply map_Forall_insert_2 |].
  intros rid' h' st' Hl. rewrite lookup_insert_Some in Hl. destruct Hl as [[[= <- <-] <-]|[_ Hl]].
  - eauto.
  - by apply (Hagree _ h').
Qed.

(** The row after an accepted event keeps its own invariant. *)
Lemma row_after_inv rid row e s' :
  row_inv rid row -> rollout_table (row_state row) e = Move s' -> reached_state s' ->
  row_inv rid (row_after row e s').
Proof.
  intros [Hkey Hst _] Ht Hs'. split; [by destruct row | | done].
  pose proof (rollout_step_table (record_of_row row) e 0) as Hstep.
  change (rr_state (record_of_row row)) with (row_state row) in Hstep. rewrite Ht in Hstep.
  apply (rollout_inv_step _ _ _ _ _ Hst) in Hstep. by destruct row.
Qed.

(** An event after which the row still agrees with every record. *)
Lemma tables_inv_event t r e :
  tables_inv t r ->
  (forall row s', t !! rollout_event_rollout_id e = Some row ->
     rollout_table (row_state row) e = Move s' ->
     reached_state s' /\
     forall h st, r !! (rollout_event_rollout_id e, h) = Some st -> agrees s' (hs_state st)) ->
  tables_inv (rows_after e t) r.
Proof.
  intros Hinv He. unfold rows_after. destruct (t !! _) as [row|] eqn:Hrow; [|done].
  destruct (rollout_table _ _) as [s'| |] eqn:Ht; [|done..].
  destruct (He _ _ eq_refl Ht) as [Hs' Hag].
  apply tables_inv_row; [done | | done].
  apply row_after_inv; [by apply (tbi_rows _ _ Hinv) | done..].
Qed.

Lemma tables_inv_agrees t r rid h st row :
  tables_inv t r -> r !! (rid, h) = Some st -> t !! rid = Some row ->
  agrees (row_state row) (hs_state st).
Proof.
  intros Hinv Hst Hrow. destruct (tbi_agree _ _ Hinv _ _ _ Hst) as (row' & Hrow' & H).
  by simplify_eq.
Qed.

Lemma tables_inv_successor t r old new at_ :
  tables_inv t r -> tables_inv (rows_after (RolloutEvent.SuccessorOpened old new at_) t) r.
Proof.
  intros Hinv. apply tables_inv_event; [done|]. intros row s' Hrow Ht.
  destruct (row_state row); simpl in Ht; by simplify_eq.
Qed.

Lemma tables_inv_terminal t r rid at_ :
  tables_inv t r ->
  (forall h st, r !! (rid, h) = Some st -> hs_state st = HostState.Converged) ->
  tables_inv (rows_after (RolloutEvent.RolloutTerminal rid at_) t) r.
Proof.
  intros Hinv Hall. apply tables_inv_event; [done|]. simpl. intros row s' Hrow Ht.
  destruct (tbi_rows _ _ Hinv _ _ Hrow) as [_ _ Hs].
  destruct (row_state row) eqn:E; simpl in *; simplify_eq; try done.
Qed.

(** A host joins a rollout that is not over. *)
Lemma tables_inv_join t r rid h st row wave at_ :
  tables_inv t r -> t !! rid = Some row -> row_state row <> RolloutState.Terminal ->
  hs_rollout_id st = rid -> hs_hostname st = h -> host_inv st ->
  failure_state (hs_state st) = false ->
  tables_inv (rows_after (RolloutEvent.HostJoined rid h wave at_) t) (<[ (rid, h) := st ]> r).
Proof.
  intros Hinv Hrow Hnt Hr Hh Hst Hf. pose proof (tbi_rows _ _ Hinv _ _ Hrow) as Hri.
  assert (Hinv' : tables_inv (rows_after (RolloutEvent.HostJoined rid h wave at_) t) r).
  { apply tables_inv_event; [done|]. simpl. intros row' s' Hrow' Ht.
    rewrite Hrow in Hrow'. injection Hrow' as <-.
    assert (Hs : forall h st', r !! (rid, h) = Some st' -> agrees (row_state row) (hs_state st'))
      by eauto using tables_inv_agrees.
    pose proof (rwi_state _ _ Hri) as Hreach.
    destruct (row_state row) eqn:E; simpl in *; simplify_eq; try done; split; try done.
    all: intros h' st' Hl; specialize (Hs _ _ Hl); done. }
  pose proof (rows_after_own (RolloutEvent.HostJoined rid h wave at_) t row Hrow) as Hown.
  simpl in Hown. eapply tables_inv_record; [done | exact Hown | | done..].
  pose proof (rwi_state _ _ Hri) as Hreach.
  destruct (row_state row) eqn:E; simpl; rewrite ?E; done.
Qed.

(** ** Host events *)

Lemma step_keeps_seq st e now policy st' effs :
  HostTransitions.step st e now policy = Ok (st', effs) ->
  st' <| hs_last_event_seq := Event.seq e |> = st'.
Proof. intros [_ <-]%step_seq. by destruct st'. Qed.

Lemma step_key st e now policy st' effs :
  HostTransitions.step st e now policy = Ok (st', effs) ->
  hs_rollout_id st' = hs_rollout_id st /\ hs_hostname st' = hs_hostname st.
Proof. intros H%step_identity. unfold identity_of in H. by injection H. Qed.

(** The effects of a step touch neither a table with a state nor the queue. *)
Definition quiet (x : Effect) : Prop :=
  match x with
  | Effect.RemoteQueueDispatch _ _ _ _ | Effect.RemoteOpenRolloutRecord _ _ _ => False
  | _ => True
  end.

Lemma step_quiet st e now policy st' effs :
  HostTransitions.step st e now policy = Ok (st', effs) -> Forall quiet effs.
Proof. intros H. step_cases H; break_matches; repeat constructor. Qed.

(** The move the rollout makes when one of its hosts changes state. *)
Definition rows_after_host (rid : RolloutId) (h : string) (from to : HostState) (at_ : DateTime)
    (t : RolloutsTable) : RolloutsTable :=
  if bool_decide (from = to) then t
  else rows_after (RolloutEvent.HostStateChanged rid h from to at_) t.

Lemma next_state_reverted s e : next_state s e = Some HostState.Reverted -> s = HostState.Failed.
Proof. by destruct s, e. Qed.

Lemma next_state_converged e s : next_state HostState.Converged e <> Some s.
Proof. by destruct e. Qed.

Lemma tables_inv_host_event t r rid h st e now at_ policy st' effs :
  tables_inv t r -> r !! (rid, h) = Some st ->
  HostTransitions.step st e now policy = Ok (st', effs) ->
  tables_inv (rows_after_host rid h (hs_state st) (hs_state st') at_ t) (<[ (rid, h) := st' ]> r).
Proof.
  intros Hinv Hst Hstep. destruct (tbi_agree _ _ Hinv _ _ _ Hst) as (row & Hrow & Hag).
  destruct (tbi_records _ _ Hinv _ _ Hst) as [[= Hr Hh] Hsti].
  pose proof (host_inv_step _ _ _ _ _ _ Hsti Hstep) as Hsti'.
  destruct (step_key _ _ _ _ _ _ Hstep) as [Hr' Hh'].
  pose proof (step_next_state _ _ _ _ _ _ Hstep) as Hnext.
  unfold rows_after_host. case_bool as [Heq|Hne].
  { rewrite Heq in Hag. eapply tables_inv_record; eauto; congruence. }
  set (ev := RolloutEvent.HostStateChanged _ _ _ _ _).
  assert (Hown := rows_after_own ev t row Hrow). simpl in Hown.
  assert (Hall : forall h st0, r !! (rid, h) = Some st0 -> agrees (row_state row) (hs_state st0))
    by eauto using tables_inv_agrees.
  destruct (row_state row) eqn:Hs; simpl in Hag; try done.
  - assert (Hnr : hs_state st' <> HostState.Reverted)
      by (intros E; rewrite E in Hnext; apply next_state_reverted in Hnext; by rewrite Hnext in Hag).
    assert (Hinv' : tables_inv (rows_after ev t) r).
    { apply tables_inv_event; [done|]. simpl. intros row0 s' Hrow0 Ht. simplify_eq.
      rewrite Hs in Ht. simpl in Ht. destruct (hs_state st'); simpl in Ht; simplify_eq; done. }
    eapply tables_inv_record; [done | exact Hown | | congruence..|done].
    destruct (hs_state st'); simpl; rewrite ?Hs; done.
  - rewrite Hag in Hnext. by apply next_state_converged in Hnext.
  - unfold rows_after. simpl. rewrite Hrow, Hs. simpl. rewrite insert_id.
    2:{ rewrite Hrow. f_equal. destruct row; simpl in *; subst. done. }
    eapply tables_inv_record; eauto; [by rewrite Hs | congruence..].
  - unfold rows_after. simpl. rewrite Hrow, Hs. simpl. rewrite insert_id.
    2:{ rewrite Hrow. f_equal. destruct row; simpl in *; subst. done. }
    eapply tables_inv_record; eauto; [by rewrite Hs | congruence..].
Qed.

(** ** What every operation only adds to *)

Record extends (d d' : Db) : Prop := {
  ext_failures : db_failures d `prefix_of` db_failures d';
  ext_log : db_log_sent d `prefix_of` db_log_sent d';
  ext_quarantines : db_quarantines d ⊆ db_quarantines d';
}.
#[export] Instance extends_preorder : PreOrder extends.
Proof.
  split; [by split|]. intros d1 d2 d3 [] []. by split; etrans.
Qed.

Lemma append_event_log_extends ts h r k p d : extends d (append_event_log ts h r k p d).
Proof. split; simpl; [done | by eexists | done]. Qed.

Lemma quarantine_insert_subseteq ch c at_ seq t : t ⊆ QuarantinedClosures.insert ch c at_ seq t.
Proof.
  unfold QuarantinedClosures.insert. destruct (t !! (ch, c)) eqn:E; [done|].
  by apply insert_subseteq.
Qed.

Lemma process_rollout_event_extends now e d :
  rows_keyed (db_rollouts d) -> extends d (process_rollout_event now e d).
Proof. intros H. rewrite process_rollout_event_eq by done. split; simpl; [done | by eexists | done]. Qed.

#[export] Hint Resolve append_event_log_extends quarantine_insert_subseteq
  process_rollout_event_extends : nixfleet.

(** ** The log entries and the failure rows of a step *)

(** The agent events in the log, with their host and rollout. *)
Definition agent_entries (log : list EventLogEntry)
    : list (option string * option RolloutId * OutboundAgentEvent) :=
  omap (fun l => match le_payload l with
                 | LogPayload.Agent p => Some (le_host_id l, le_rollout_id l, p)
                 | _ => None
                 end) log.

Definition failures_of (effs : list Effect) : list ProbeFailureInsert :=
  effs ≫= fun x => match x with
                   | Effect.RemoteAppendEventLog h r p => probe_failure_rows r h p
                   | _ => []
                   end.
Definition entries_of (effs : list Effect)
    : list (option string * option RolloutId * OutboundAgentEvent) :=
  omap (fun x => match x with
                 | Effect.RemoteAppendEventLog h r p => Some (Some h, Some r, p)
                 | _ => None
                 end) effs.

Lemma step_failures st e now policy st' effs :
  HostTransitions.step st e now policy = Ok (st', effs) ->
  failures_of effs =
    (if is_local e then []
     else probe_failure_rows (hs_rollout_id st) (hs_hostname st) (outbound_of e)) /\
  entries_of effs =
    (if is_local e then [] else [(Some (hs_hostname st), Some (hs_rollout_id st), outbound_of e)]).
Proof.
  intros H. unfold failures_of, entries_of. split; step_cases H; simpl.
  all: repeat match goal with |- context [match ?x with _ => _ end] => destruct x; simpl end.
  all: by rewrite ?app_nil_r.
Qed.

Lemma fold_left_frame {A B X} (get : A -> X) (f : A -> B -> A) (P : B -> Prop) l a :
  (forall a b, P b -> get (f a b) = get a) -> Forall P l -> get (fold_left f l a) = get a.
Proof.
  intros Hf Hl. revert a. induction Hl as [|b l Hb Hl IH]; intros a; simpl; [done|].
  by rewrite IH, Hf.
Qed.

Lemma fold_left_rel {A B} (R : A -> A -> Prop) `{!PreOrder R} (f : A -> B -> A) l a :
  (forall a b, R a (f a b)) -> R a (fold_left f l a).
Proof.
  intros Hf. revert a. induction l as [|b l IH]; intros a; simpl; [done|]. etrans; [apply Hf | apply IH].
Qed.

Section effects.
Context {C : Clock}.

Lemma apply_effect_quiet m w x :
  quiet x ->
  let w' := apply_effect m w x in
  db_rollouts (w_db w') = db_rollouts (w_db w) /\ db_records (w_db w') = db_records (w_db w) /\
  db_queue (w_db w') = db_queue (w_db w) /\
  db_failures (w_db w') = db_failures (w_db w) ++ failures_of [x] /\
  agent_entries (db_log_sent (w_db w')) =
    agent_entries (db_log_sent (w_db w)) ++ entries_of [x] /\
  extends (w_db w) (w_db w').
Proof.
  unfold failures_of, entries_of, agent_entries.
  destruct x; simpl; intros H; try done; rewrite ?omap_app, ?app_nil_r; split_and!;
    try done; try (split; simpl; [done || by eexists | by eexists | auto with nixfleet]).
Qed.

Lemma apply_effects_quiet m effs w :
  Forall quiet effs ->
  let w' := fold_left (apply_effect m) effs w in
  db_rollouts (w_db w') = db_rollouts (w_db w) /\ db_records (w_db w') = db_records (w_db w) /\
  db_queue (w_db w') = db_queue (w_db w) /\
  db_failures (w_db w') = db_failures (w_db w) ++ failures_of effs /\
  agent_entries (db_log_sent (w_db w')) =
    agent_entries (db_log_sent (w_db w)) ++ entries_of effs /\
  extends (w_db w) (w_db w').
Proof.
  intros Hq. revert w. induction Hq as [|x effs Hx Hq IH]; intros w; simpl.
  - by rewrite !app_nil_r.
  - destruct (apply_effect_quiet m w x Hx) as (E1 & E2 & E3 & E4 & E5 & E6).
    destruct (IH (apply_effect m w x)) as (F1 & F2 & F3 & F4 & F5 & F6).
    unfold failures_of, entries_of in *. simpl in *. rewrite app_nil_r in E4.
    split_and!; [congruence.. | rewrite F4, E4; by rewrite <- app_assoc | | by etrans].
    rewrite F5, E5, <- app_assoc. f_equal. by destruct x.
Qed.

End effects.

(** ** The host event handler *)

Section handler.
Context {O : HashOrder} {C : Clock}.

Lemma elem_of_all_for_rollout rid r st :
  st ∈ HostRolloutRecords.all_for_rollout rid r <-> exists h, r !! (rid, h) = Some st.
Proof.
  unfold HostRolloutRecords.all_for_rollout. rewrite list_elem_of_fmap. split.
  - intros ([[rid' h] st'] & -> & [Hk Hin]%list_elem_of_filter). simpl in *. subst.
    exists h. by apply elem_of_hash_iter.
  - intros [h Hl]. exists ((rid, h), st). split; [done|].
    apply list_elem_of_filter. split; [done|]. by apply elem_of_hash_iter.
Qed.

Lemma all_converged_spec rid r :
  all_converged (HostRolloutRecords.all_for_rollout rid r) = true <->
  (exists h, is_Some (r !! (rid, h))) /\
  forall h st, r !! (rid, h) = Some st -> hs_state st = HostState.Converged.
Proof.
  unfold all_converged. rewrite andb_true_iff, forallb_forall, negb_true_iff. f_equiv.
  - rewrite <- not_true_iff_false, is_empty_spec. split.
    + intros H. destruct (HostRolloutRecords.all_for_rollout rid r) as [|st l] eqn:E; [done|].
      assert (Hin : st ∈ HostRolloutRecords.all_for_rollout rid r) by (rewrite E; left).
      apply elem_of_all_for_rollout in Hin as [h Hl]. by exists h; eexists.
    + intros (h & st & Hl) E.
      assert (Hin : st ∈ HostRolloutRecords.all_for_rollout rid r)
        by (apply elem_of_all_for_rollout; eauto).
      rewrite E in Hin. by apply elem_of_nil in Hin.
  - split.
    + intros H h st Hl. eapply bool_decide_eq_true_1, H, list_elem_of_In, elem_of_all_for_rollout. eauto.
    + intros H st [h Hl]%list_elem_of_In%elem_of_all_for_rollout.
      by apply bool_decide_eq_true_2, (H h).
Qed.

(** Every host the table knows of this rollout has converged. *)
Definition rollout_done (rid : RolloutId) (r : RecordsTable) : Prop :=
  map_Forall (fun k st => k.1 = rid -> hs_state st = HostState.Converged) r.
#[local] Instance rollout_done_dec rid r : Decision (rollout_done rid r).
Proof. unfold rollout_done. apply _. Defined.

Lemma rollout_done_spec rid r :
  rollout_done rid r <-> forall h st, r !! (rid, h) = Some st -> hs_state st = HostState.Converged.
Proof.
  unfold rollout_done. split.
  - intros H h st Hl. by apply (H _ _ Hl).
  - intros H [rid' h] st Hl Hk. simpl in Hk. subst. by apply (H h).
Qed.

(** The rollouts table after a host went from [from] to [to], [r] being the
    records after the move. *)
Definition rollouts_after_host (now : DateTime) (rid : RolloutId) (h : string)
    (from to : HostState) (r : RecordsTable) (t : RolloutsTable) : RolloutsTable :=
  let t' := rows_after_host rid h from to now t in
  if bool_decide (from <> to /\ to = HostState.Converged /\ rollout_done rid r)
  then rows_after (RolloutEvent.RolloutTerminal rid now) t' else t'.

Lemma agent_entries_rollout now e t : agent_entries (log_of_event now e t) = [].
Proof.
  unfold log_of_event. destruct (t !! _) as [row|]; [simpl|done].
  destruct (rollout_table _ _); [|done..]. by case_bool.
Qed.

Lemma agent_entries_app l l' : agent_entries (l ++ l') = agent_entries l ++ agent_entries l'.
Proof. apply omap_app. Qed.

Lemma process_rollout_event_frame now e d :
  rows_keyed (db_rollouts d) ->
  let d' := process_rollout_event now e d in
  db_rollouts d' = rows_after e (db_rollouts d) /\ db_records d' = db_records d /\
  db_queue d' = db_queue d /\ db_failures d' = db_failures d /\
  agent_entries (db_log_sent d') = agent_entries (db_log_sent d) /\ extends d d'.
Proof.
  intros Hk d'. split_and!; try (unfold d'; rewrite process_rollout_event_eq by done; try done).
  - simpl. by rewrite agent_entries_app, agent_entries_rollout, app_nil_r.
  - simpl. split; simpl; [done | by eexists | done].
Qed.

Lemma compose_rollout_frame now h rid from to d :
  rows_keyed (db_rollouts d) -> (exists h, is_Some (db_records d !! (rid, h))) ->
  let d' := compose_rollout now h rid from to d in
  db_rollouts d' = rollouts_after_host now rid h from to (db_records d) (db_rollouts d) /\
  db_records d' = db_records d /\ db_queue d' = db_queue d /\ db_failures d' = db_failures d /\
  agent_entries (db_log_sent d') = agent_entries (db_log_sent d) /\ extends d d'.
Proof.
  intros Hk Hex. unfold compose_rollout, rollouts_after_host, rows_after_host.
  case_bool as [Heq|Hne].
  { rewrite bool_decide_eq_false_2 by (intros [? _]; done). by split_and!. }
  set (ev := RolloutEvent.HostStateChanged _ _ _ _ _).
  destruct (process_rollout_event_frame now ev d Hk) as (E1 & E2 & E3 & E4 & E5 & E6).
  set (d1 := process_rollout_event now ev d) in *.
  assert (Hdone : (bool_decide (to = HostState.Converged) &&
            all_converged (HostRolloutRecords.all_for_rollout rid (db_records d1)))%bool =
          bool_decide (from <> to /\ to = HostState.Converged /\ rollout_done rid (db_records d))).
  { apply eq_true_iff_eq. rewrite andb_true_iff, !bool_decide_eq_true, all_converged_spec, E2,
      rollout_done_spec. naive_solver. }
  simpl. rewrite Hdone. destruct (bool_decide (_ /\ _)); [|done].
  destruct (process_rollout_event_frame now (RolloutEvent.RolloutTerminal rid now) d1)
    as (F1 & F2 & F3 & F4 & F5 & F6).
  { rewrite E1. by apply rows_after_keyed. }
  split_and!; try congruence. by etrans.
Qed.

(** What the handler does with an event: the record before and after, and the
    effects; [None] when it drops the event. *)
Definition host_event_outcome (rs : ReducerState) (host : string) (rid : RolloutId) (e : Event)
    (w : World) : option (HostRolloutState * HostRolloutState * list Effect) :=
  prior ← db_records (w_db w) !! (rid, host);
  m ← rd_manifests rs;
  policy ← resolve_policy m (hs_channel prior);
  match HostTransitions.step prior e (clock_reading (w_reads w)) policy with
  | Ok (next, effs) => Some (prior, next, effs)
  | Err _ => None
  end.

Lemma handle_host_event_dropped rs host rid e w :
  host_event_outcome rs host rid e w = None ->
  w_db (handle_host_event rs host rid e w) = w_db w.
Proof.
  unfold host_event_outcome, handle_host_event, HostRolloutRecords.load.
  destruct (db_records (w_db w) !! (rid, host)) as [prior|]; simpl; [|done].
  destruct (Z.leb _ _); [done|]. destruct (rd_manifests rs) as [m|]; simpl; [|done].
  destruct (resolve_policy m _) as [policy|]; simpl; [|done].
  by destruct (HostTransitions.step _ _ _ _) as [[next effs]|err].
Qed.

(** The event's entry in the log, and its failure rows, when the agent sent it. *)
Definition event_entries (rid : RolloutId) (host : string) (e : Event)
    : list (option string * option RolloutId * OutboundAgentEvent) :=
  if is_local e then [] else [(Some host, Some rid, outbound_of e)].
Definition event_failures (rid : RolloutId) (host : string) (e : Event)
    : list ProbeFailureInsert :=
  if is_local e then [] else probe_failure_rows rid host (outbound_of e).

Lemma handle_host_event_accepted rs host rid e w prior next effs :
  db_inv (w_db w) -> host_event_outcome rs host rid e w = Some (prior, next, effs) ->
  let d := w_db w in
  let d' := w_db (handle_host_event rs host rid e w) in
  db_records d' = <[ (rid, host) := next ]> (db_records d) /\
  db_rollouts d' = rollouts_after_host (clock_reading (w_reads w)) rid host (hs_state prior)
                     (hs_state next) (db_records d') (db_rollouts d) /\
  db_queue d' = db_queue d /\
  db_failures d' = db_failures d ++ event_failures rid host e /\
  agent_entries (db_log_sent d') = agent_entries (db_log_sent d) ++ event_entries rid host e /\
  extends d d'.
Proof.
  intros Hinv. unfold host_event_outcome, handle_host_event, HostRolloutRecords.load.
  destruct (db_records (w_db w) !! (rid, host)) as [prior'|] eqn:Hl; simpl; [|done].
  destruct (rd_manifests rs) as [m|]; simpl; [|done].
  destruct (resolve_policy m _) as [policy|]; simpl; [|done].
  destruct (HostTransitions.step _ _ _ _) as [[next' effs']|err] eqn:Hstep; [|done].
  intros [= -> -> ->].
  destruct (step_seq _ _ _ _ _ _ Hstep) as [Hseq Hseq'].
  destruct (Z.leb_spec (Event.seq e) (hs_last_event_seq prior)); [lia|].
  pose proof (step_keeps_seq _ _ _ _ _ _ Hstep) as Hkeep. simpl in Hkeep. rewrite Hkeep.
  destruct (tbi_records _ _ Hinv _ _ Hl) as [[= Hr Hh] _].
  destruct (step_key _ _ _ _ _ _ Hstep) as [Hr' Hh'].
  destruct (step_failures _ _ _ _ _ _ Hstep) as [Hf He].
  unfold HostRolloutRecords.upsert. rewrite Hr', Hh', Hr, Hh in *.
  match goal with |- context [fold_left _ effs ?x] => set (w1 := x) end.
  destruct (apply_effects_quiet m effs w1) as (E1 & E2 & E3 & E4 & E5 & E6).
  { by eapply step_quiet. }
  set (w2 := fold_left _ effs w1) in *. simpl in E1, E2, E3, E4, E5.
  destruct (compose_rollout_frame (clock_reading (w_reads w)) host rid (hs_state prior)
              (hs_state next) (w_db w2)) as (F1 & F2 & F3 & F4 & F5 & F6).
  { rewrite E1. exact (tables_inv_keyed _ _ Hinv). }
  { exists host. rewrite E2, lookup_insert_eq. by eexists. }
  simpl. rewrite F1, F2, F3, F4, F5, E1, E2, E3, E4, E5, Hf, He.
  split_and!; try done. etrans; [|exact F6]. etrans; [|exact E6].
  split; simpl; done.
Qed.

Lemma rollouts_after_host_inv t r rid h st e now at_ policy st' effs :
  tables_inv t r -> r !! (rid, h) = Some st ->
  HostTransitions.step st e now policy = Ok (st', effs) ->
  tables_inv (rollouts_after_host at_ rid h (hs_state st) (hs_state st')
                (<[ (rid, h) := st' ]> r) t) (<[ (rid, h) := st' ]> r).
Proof.
  intros Hinv Hl Hstep.
  pose proof (tables_inv_host_event _ _ _ _ _ _ _ at_ _ _ _ Hinv Hl Hstep) as Hinv'.
  unfold rollouts_after_host. case_bool as [(_ & _ & Hdone)|_]; [|done].
  rewrite rollout_done_spec in Hdone. by apply tables_inv_terminal.
Qed.

Lemma handle_host_event_inv rs host rid e w :
  db_inv (w_db w) ->
  db_inv (w_db (handle_host_event rs host rid e w)) /\
  extends (w_db w) (w_db (handle_host_event rs host rid e w)).
Proof.
  intros Hinv. destruct (host_event_outcome rs host rid e w) as [[[prior next] effs]|] eqn:Ho.
  2:{ by rewrite handle_host_event_dropped. }
  destruct (handle_host_event_accepted _ _ _ _ _ _ _ _ Hinv Ho) as (E1 & E2 & _ & _ & _ & E6).
  split; [|done]. unfold db_inv. rewrite E2, E1.
  unfold host_event_outcome in Ho.
  destruct (db_records (w_db w) !! (rid, host)) as [prior'|] eqn:Hl; simpl in Ho; [|done].
  destruct (rd_manifests rs) as [m|]; simpl in Ho; [|done].
  destruct (resolve_policy m _) as [policy|]; simpl in Ho; [|done].
  destruct (HostTransitions.step _ _ _ _) as [[next' effs']|err] eqn:Hstep; [|done].
  injection Ho as -> -> ->. by eapply rollouts_after_host_inv.
Qed.

End handler.

(** ** The plan's actions *)

(** What one plan does to the rollouts: no row goes away and none becomes
    [Terminal]. *)
Record grows (d d' : Db) : Prop := {
  gr_extends : extends d d';
  gr_rows : forall rid, is_Some (db_rollouts d !! rid) -> is_Some (db_rollouts d' !! rid);
  gr_terminal : forall rid row', db_rollouts d' !! rid = Some row' ->
    row_state row' = RolloutState.Terminal ->
    exists row, db_rollouts d !! rid = Some row /\ row_state row = RolloutState.Terminal;
}.
#[export] Instance grows_preorder : PreOrder grows.
Proof.
  split.
  - split; [done | done | by eauto].
  - intros d1 d2 d3 [He Hr Ht] [He' Hr' Ht']. split; [by etrans | by auto |].
    intros rid row' Hl Hs. destruct (Ht' _ _ Hl Hs) as (row & Hl' & Hs'). eauto.
Qed.

(** Preserves the invariant and grows the database. *)
Definition safe (f : Db -> Db) : Prop := forall d, db_inv d -> db_inv (f d) /\ grows d (f d).

Lemma same_tables_safe d d' :
  db_inv d -> db_rollouts d' = db_rollouts d -> db_records d' = db_records d -> extends d d' ->
  db_inv d' /\ grows d d'.
Proof.
  intros Hinv Ht Hr He. split; [unfold db_inv; by rewrite Ht, Hr|].
  split; [done|..]; rewrite Ht; eauto.
Qed.

Lemma rows_after_is_Some e t rid : is_Some (t !! rid) -> is_Some (rows_after e t !! rid).
Proof.
  intros Hs. unfold rows_after. destruct (t !! rollout_event_rollout_id e); [|done].
  destruct (rollout_table _ _); [|done..]. rewrite lookup_insert_is_Some. 
  destruct (decide (rollout_event_rollout_id e = rid)); auto.
Qed.

Lemma rollout_table_terminal s e :
  rollout_table s e = Move RolloutState.Terminal ->
  s = RolloutState.Terminal \/ exists rid at_, e = RolloutEvent.RolloutTerminal rid at_.
Proof.
  destruct s, e; simpl; intros H; simplify_eq; eauto; try (by destruct to);
    by destruct (Z.ltb _ _).
Qed.

Lemma rows_after_terminal e t rid row' :
  (forall rid at_, e <> RolloutEvent.RolloutTerminal rid at_) ->
  rows_after e t !! rid = Some row' -> row_state row' = RolloutState.Terminal ->
  exists row, t !! rid = Some row /\ row_state row = RolloutState.Terminal.
Proof.
  intros He. unfold rows_after. destruct (t !! rollout_event_rollout_id e) as [row|] eqn:Hrow; [|eauto].
  destruct (rollout_table _ _) as [s'| |] eqn:Ht; [|eauto..].
  rewrite lookup_insert_Some. intros [[<- <-]|[_ Hl]] Hs; [|eauto]. simpl in Hs. subst.
  destruct (rollout_table_terminal _ _ Ht) as [Hs|(? & ? & ->)]; [eauto | by edestruct He].
Qed.

Lemma process_rollout_event_grows now e d :
  rows_keyed (db_rollouts d) -> (forall rid at_, e <> RolloutEvent.RolloutTerminal rid at_) ->
  grows d (process_rollout_event now e d).
Proof.
  intros Hk He. destruct (process_rollout_event_frame now e d Hk) as (E1 & _ & _ & _ & _ & E6).
  split; [done|..]; rewrite E1; [by apply rows_after_is_Some | by eauto using rows_after_terminal].
Qed.

Lemma process_successor_safe now old new at_ :
  safe (process_rollout_event now (RolloutEvent.SuccessorOpened old new at_)).
Proof.
  intros d Hinv. pose proof (tables_inv_keyed _ _ Hinv) as Hk.
  destruct (process_rollout_event_frame now (RolloutEvent.SuccessorOpened old new at_) d Hk)
    as (E1 & E2 & _).
  split; [unfold db_inv; rewrite E1, E2; by apply tables_inv_successor|].
  by apply process_rollout_event_grows.
Qed.

(** The row of a rollout that is open and not over. *)
Definition opened (rid : RolloutId) (d : Db) : Prop :=
  exists row, db_rollouts d !! rid = Some row /\ row_state row <> RolloutState.Terminal.

Lemma opened_grows rid d d' : opened rid d -> grows d d' -> opened rid d'.
Proof.
  intros (row & Hl & Hs) Hg. destruct (gr_rows _ _ Hg rid) as [row' Hl']; [by eexists|].
  exists row'. split; [done|]. intros Hs'.
  destruct (gr_terminal _ _ Hg _ _ Hl' Hs') as (? & ? & ?). by simplify_eq.
Qed.

Lemma open_host_safe m now rid ch d hw :
  db_inv d -> opened rid d ->
  db_inv (open_host m now rid ch d hw) /\ grows d (open_host m now rid ch d hw).
Proof.
  intros Hinv (row & Hl & Hs). unfold open_host, HostRolloutRecords.upsert. simpl.
  set (st := new_pending _ _ _ _ _ _). set (d1 := MkDb _ _ _ _ _ _ _ _).
  assert (Hk : rows_keyed (db_rollouts d1)) by exact (tables_inv_keyed _ _ Hinv).
  set (e := RolloutEvent.HostJoined _ _ _ _).
  destruct (process_rollout_event_frame now e d1 Hk) as (E1 & E2 & _).
  split.
  - unfold db_inv. rewrite E1, E2. unfold d1, e; simpl.
    eapply tables_inv_join; eauto. apply host_inv_new_pending.
  - transitivity d1; [|by apply process_rollout_event_grows].
    split; [by split | done | by eauto].
Qed.

Lemma fold_safe {A} (f : Db -> A -> Db) l d :
  (forall a, safe (fun d => f d a)) -> db_inv d ->
  db_inv (fold_left f l d) /\ grows d (fold_left f l d).
Proof.
  intros Hf. revert d. induction l as [|a l IH]; intros d Hinv; simpl; [done|].
  destruct (Hf a d Hinv) as [Hinv' Hg]. destruct (IH _ Hinv'). split; [done | by etrans].
Qed.

Lemma open_hosts_safe m now rid ch l d :
  db_inv d -> opened rid d ->
  db_inv (fold_left (open_host m now rid ch) l d) /\
  grows d (fold_left (open_host m now rid ch) l d).
Proof.
  revert d. induction l as [|hw l IH]; intros d Hinv Ho; simpl; [done|].
  destruct (open_host_safe m now rid ch d hw Hinv Ho) as [Hinv' Hg].
  destruct (IH _ Hinv' (opened_grows _ _ _ Ho Hg)). split; [done | by etrans].
Qed.

(** Opening a rollout whose row is absent, or not over. *)
Definition may_open (rid : RolloutId) (d : Db) : Prop :=
  db_rollouts d !! rid = None \/ opened rid d.

Lemma record_rollout_opened_safe rid ch ref now d :
  db_inv d -> may_open rid d ->
  let d' := d <| db_rollouts :=
    Rollouts.record_rollout_opened rid ch ref now None (db_rollouts d) |> in
  db_inv d' /\ grows d d' /\ opened rid d'.
Proof.
  intros Hinv Hmay. unfold Rollouts.record_rollout_opened. simpl.
  destruct (db_rollouts d !! rid) as [row|] eqn:Hl.
  - destruct Hmay as [?|Ho]; [congruence|]. by destruct d.
  - split_and!.
    + apply tables_inv_row; [done | by split |].
      intros h st Hst. destruct (tbi_agree _ _ Hinv _ _ _ Hst) as (? & ? & _). congruence.
    + split; simpl; [by split | |].
      * intros rid' Hs. rewrite lookup_insert_is_Some. destruct (decide (rid = rid')); auto.
      * intros rid' row' [[<- <-]|[_ Hl']]%lookup_insert_Some Hs; [done | eauto].
    + eexists. simpl. by rewrite lookup_insert_eq.
Qed.

Lemma open_rollout_safe m now rid ch ref d :
  db_inv d -> may_open rid d ->
  db_inv (open_rollout m now rid ch ref d) /\ grows d (open_rollout m now rid ch ref d) /\
  opened rid (open_rollout m now rid ch ref d).
Proof.
  intros Hinv Hmay. unfold open_rollout. set (preds := in_flight_predecessors _ _ _).
  destruct (record_rollout_opened_safe rid ch ref now d Hinv Hmay) as (Hinv1 & Hg1 & Ho1).
  cbv zeta in Hinv1, Hg1, Ho1. match goal with |- context [append_rollout_event _ _ _ ?x] =>
    set (d1 := x) in * end.
  set (d2 := append_rollout_event _ _ _ d1).
  destruct (same_tables_safe d1 d2) as [Hinv2 Hg2]; [done | done | done | auto with nixfleet |].
  { apply append_event_log_extends. }
  destruct (fold_safe (fun d p => process_rollout_event now
              (RolloutEvent.SuccessorOpened p rid now) d) preds d2) as [Hinv3 Hg3].
  { intros p. apply process_successor_safe. }
  { done. }
  set (d3 := fold_left _ preds d2) in *.
  assert (Hg13 : grows d d3) by (do 2 (etrans; [done|]); done).
  assert (Ho3 : opened rid d3) by (eapply opened_grows; [done | by etrans]).
  destruct (inner <$> _) as [manifest|]; [|done].
  destruct (open_hosts_safe m now rid ch (rm_host_set manifest) d3 Hinv3 Ho3) as [Hinv4 Hg4].
  set (d4 := fold_left _ _ d3) in *.
  match goal with |- db_inv ?x /\ _ => set (d5 := x) end.
  destruct (same_tables_safe d4 d5) as [Hinv5 Hg5]; [done..|apply append_event_log_extends|].
  split_and!; [done | by do 2 (etrans; [done|]) | ].
  eapply opened_grows; [exact Ho3 | by etrans].
Qed.

(** ** The planner's view of the database *)

Section view.
Context {O : HashOrder} {C : Clock}.

Definition channel_rollout (e : ChannelId * Verified RolloutManifest) : RolloutId :=
  rollout_id.new e.1 (rm_channel_ref (inner e.2)).

Lemma insert_rows_lookup (r : RecordsTable) (rid : RolloutId) (rows : list HostRolloutState)
    (m : RecordsTable) (k : RolloutId * string) :
  (forall st, st ∈ rows -> r !! (rid, hs_hostname st) = Some st) ->
  fold_left (fun m row => <[ (rid, hs_hostname row) := row ]> m) rows m !! k =
  if decide (Exists (fun st => (rid, hs_hostname st) = k) rows) then r !! k else m !! k.
Proof.
  induction rows as [|st rows IH] using rev_ind; intros Hrows.
  - by rewrite decide_False by (intros []%Exists_nil).
  - rewrite fold_left_app. cbn [fold_left].
    destruct (decide ((rid, hs_hostname st) = k)) as [<-|Hne].
    + rewrite lookup_insert_eq, decide_True by (rewrite Exists_app, Exists_cons; auto).
      symmetry. apply Hrows. set_solver.
    + rewrite lookup_insert_ne by done. rewrite IH by set_solver.
      apply decide_ext. rewrite Exists_app, Exists_cons, Exists_nil. naive_solver.
Qed.

Lemma load_channel_hosts d acc e (k : RolloutId * string) :
  tables_inv (db_rollouts d) (db_records d) ->
  (load_channel d acc e).1 !! k =
  if decide (channel_rollout e = k.1 /\ is_Some (db_records d !! k)) then db_records d !! k
  else acc.1 !! k.
Proof.
  intros Hinv. destruct acc as [hs rs], e as [ch vm], k as [rid h]. unfold load_channel, channel_rollout.
  simpl. set (rid' := rollout_id.new _ _).
  rewrite (insert_rows_lookup (db_records d)).
  - apply decide_ext. rewrite Exists_exists. split.
    + intros (st & Hin & [= <- <-]). apply elem_of_all_for_rollout in Hin as [h Hl].
      destruct (tbi_records _ _ Hinv _ _ Hl) as [[= _ <-] _]. split; [done | by eexists].
    + intros [-> [st Hl]]. exists st. destruct (tbi_records _ _ Hinv _ _ Hl) as [[= _ Hh] _].
      split; [apply elem_of_all_for_rollout; eauto | by rewrite Hh].
  - intros st [h' Hl]%elem_of_all_for_rollout.
    by destruct (tbi_records _ _ Hinv _ _ Hl) as [[= _ ->] _].
Qed.

Definition summary_of (e : ChannelId * Verified RolloutManifest) (row : RolloutRow)
    : RolloutSummary :=
  MkRolloutSummary (channel_rollout e) e.1 (rm_channel_ref (inner e.2)) (row_opened_at row)
    (row_terminal_at row) (row_current_wave row) (rm_disruption_budgets (inner e.2)).

Lemma load_channel_rollouts d acc e rid :
  (load_channel d acc e).2 !! rid =
  if decide (channel_rollout e = rid /\ is_Some (db_rollouts d !! rid))
  then summary_of e <$> db_rollouts d !! rid else acc.2 !! rid.
Proof.
  destruct acc as [hs rs], e as [ch vm]. unfold load_channel, Rollouts.state. simpl.
  change (rollout_id.new ch (rm_channel_ref (inner vm))) with (channel_rollout (ch, vm)).
  destruct (db_rollouts d !! channel_rollout (ch, vm)) as [row|] eqn:E.
  - destruct (decide (channel_rollout (ch, vm) = rid)) as [<-|Hne].
    + rewrite lookup_insert_eq, decide_True; [by rewrite E | split; [done | by eexists]].
    + rewrite lookup_insert_ne, decide_False by naive_solver. done.
  - rewrite decide_False; [done|]. intros [<- [? ?]]. congruence.
Qed.

(** The view holds exactly the records of the advertised rollouts. *)
Lemma fleet_host_states d m rid h :
  db_inv d ->
  fs_host_states (build_fleet_state d m) !! (rid, h) =
  if decide (map_Exists (fun ch vm => channel_rollout (ch, vm) = rid) (sms_rollouts m))
  then db_records d !! (rid, h) else None.
Proof.
  intros Hinv. unfold build_fleet_state.
  assert (Hl : forall l acc, (fold_left (load_channel d) l acc).1 !! (rid, h) =
    if decide (Exists (fun e => channel_rollout e = rid) l /\ is_Some (db_records d !! (rid, h)))
    then db_records d !! (rid, h) else acc.1 !! (rid, h)).
  { intros l. induction l as [|e l IH] using rev_ind; intros acc.
    - rewrite decide_False; [done|]. by intros [[]%Exists_nil _].
    - rewrite fold_left_app. cbn [fold_left]. rewrite load_channel_hosts by done. rewrite IH. simpl.
      repeat case_decide; try done; rewrite Exists_app, Exists_cons, Exists_nil in *; naive_solver. }
  destruct (fold_left _ _ _) as [hs rs] eqn:E. simpl.
  change hs with (hs, rs).1. rewrite <- E, Hl. simpl.
  assert (Hiff : Exists (fun e => channel_rollout e = rid) (hash_iter (sms_rollouts m)) <->
          map_Exists (fun ch vm => channel_rollout (ch, vm) = rid) (sms_rollouts m)).
  { rewrite Exists_exists. split.
    - intros ([ch vm] & Hin & Hr). exists ch, vm. by rewrite <- elem_of_hash_iter.
    - intros (ch & vm & Hin & Hr). exists (ch, vm). by rewrite elem_of_hash_iter. }
  case_decide as H1; case_decide as H2; rewrite <- Hiff in H2; try tauto.
  rewrite lookup_empty. symmetry. apply eq_None_not_Some. tauto.
Qed.

Lemma fleet_rollouts_Some d m rid s :
  fs_rollouts (build_fleet_state d m) !! rid = Some s ->
  exists ch vm row, sms_rollouts m !! ch = Some vm /\ channel_rollout (ch, vm) = rid /\
    db_rollouts d !! rid = Some row /\ s = summary_of (ch, vm) row.
Proof.
  unfold build_fleet_state.
  assert (Hl : forall l acc, (forall e, e ∈ l -> sms_rollouts m !! e.1 = Some e.2) ->
    acc.2 = ∅ -> (fold_left (load_channel d) l acc).2 !! rid = Some s ->
    exists ch vm row, sms_rollouts m !! ch = Some vm /\ channel_rollout (ch, vm) = rid /\
      db_rollouts d !! rid = Some row /\ s = summary_of (ch, vm) row).
  { intros l. induction l as [|e l IH] using rev_ind; intros acc Hin Hacc.
    - simpl. by rewrite Hacc, lookup_empty.
    - rewrite fold_left_app. cbn [fold_left]. rewrite load_channel_rollouts.
      case_decide as Hd; [|apply IH; set_solver].
      destruct Hd as [Hr [row Hrow]]. rewrite Hrow. simpl. intros [= <-].
      destruct e as [ch vm]. exists ch, vm, row. split_and!; try done. apply (Hin (ch, vm)). set_solver. }
  destruct (fold_left _ _ _) as [hs rs] eqn:E. simpl. intros Hs.
  apply (Hl (hash_iter (sms_rollouts m)) (∅, ∅)); [|done|by rewrite E].
  intros [ch vm]. apply elem_of_hash_iter.
Qed.

Lemma fleet_rollouts_None d m ch vm :
  sms_rollouts m !! ch = Some vm ->
  fs_rollouts (build_fleet_state d m) !! channel_rollout (ch, vm) = None ->
  db_rollouts d !! channel_rollout (ch, vm) = None.
Proof.
  intros Hvm. unfold build_fleet_state. set (rid := channel_rollout (ch, vm)).
  assert (Hl : forall l acc, (ch, vm) ∈ l -> is_Some (db_rollouts d !! rid) ->
    is_Some ((fold_left (load_channel d) l acc).2 !! rid)).
  { intros l. induction l as [|e l IH] using rev_ind; intros acc Hin Hs; [by apply elem_of_nil in Hin|].
    rewrite fold_left_app. cbn [fold_left]. rewrite load_channel_rollouts.
    case_decide as Hd; [by rewrite fmap_is_Some|].
    apply elem_of_app in Hin as [Hin|Hin%list_elem_of_singleton]; [by apply IH|].
    exfalso. apply Hd. by rewrite <- Hin. }
  destruct (fold_left _ _ _) as [hs rs] eqn:E. simpl. intros Hn.
  apply eq_None_not_Some. intros Hs.
  destruct (Hl (hash_iter (sms_rollouts m)) (∅, ∅)) as [s Hs']; [by apply elem_of_hash_iter|done|].
  rewrite E in Hs'. simpl in Hs'. congruence.
Qed.

(** ** Wave promotion *)

Lemma set_current_wave_lookup rid wave t rid' row' :
  Rollouts.set_current_wave rid wave None t !! rid' = Some row' ->
  exists row, t !! rid' = Some row /\
    row' = row <| row_current_wave :=
             if decide (rid = rid') then Z.max (row_current_wave row) wave
             else row_current_wave row |>.
Proof.
  unfold Rollouts.set_current_wave. destruct (t !! rid) as [row|] eqn:E.
  2:{ intros H. exists row'. split; [done|]. rewrite decide_False by congruence. by destruct row'. }
  destruct (Z.ltb_spec (row_current_wave row) wave).
  - intros [[<- <-]|[Hne H']]%lookup_insert_Some.
    + exists row. rewrite decide_True, Z.max_r by (done || lia). by destruct row.
    + exists row'. rewrite decide_False by done. by destruct row'.
  - intros H'. exists row'. split; [done|].
    destruct (decide (rid = rid')) as [->|]; [|by destruct row'].
    rewrite E in H'. injection H' as <-. rewrite Z.max_l by lia. by destruct row.
Qed.

Lemma set_current_wave_is_Some rid wave t rid' :
  is_Some (t !! rid') -> is_Some (Rollouts.set_current_wave rid wave None t !! rid').
Proof.
  unfold Rollouts.set_current_wave. destruct (t !! rid); [|done]. destruct (Z.ltb _ _); [|done].
  intros. apply lookup_insert_is_Some. destruct (decide (rid = rid')); auto.
Qed.

Lemma set_current_wave_safe rid wave :
  safe (fun d => d <| db_rollouts := Rollouts.set_current_wave rid wave None (db_rollouts d) |>).
Proof.
  intros d Hinv. simpl. split.
  - split; simpl.
    + intros rid' row' Hl. destruct (set_current_wave_lookup _ _ _ _ _ Hl) as (row & Hrow & ->).
      destruct (tbi_rows _ _ Hinv _ _ Hrow). by split; destruct row.
    + apply (tbi_records _ _ Hinv).
    + intros rid' h st Hst. destruct (tbi_agree _ _ Hinv _ _ _ Hst) as (row & Hrow & Hag).
      destruct (set_current_wave_is_Some rid wave (db_rollouts d) rid') as [row' Hl]; [by eexists|].
      exists row'. split; [done|].
      destruct (set_current_wave_lookup _ _ _ _ _ Hl) as (row0 & Hrow0 & ->). by simplify_eq.
  - split; simpl; [by split | apply set_current_wave_is_Some |].
    intros rid' row' Hl Hs. destruct (set_current_wave_lookup _ _ _ _ _ Hl) as (row & Hrow & ->).
    by exists row.
Qed.

Lemma bump_one_safe acc b :
  db_inv acc.1 -> db_inv (bump_one acc b).1 /\ grows acc.1 (bump_one acc b).1.
Proof. destruct acc as [d fs], b as [rid wave]. simpl. apply set_current_wave_safe. Qed.

Lemma bump_one_view acc b rid :
  is_Some (fs_rollouts (bump_one acc b).2 !! rid) <-> is_Some (fs_rollouts acc.2 !! rid).
Proof.
  destruct acc as [d fs], b as [rid' wave]. simpl.
  destruct (fs_rollouts fs !! rid') eqn:E; [|done]. simpl.
  destruct (decide (rid' = rid)) as [->|Hne].
  - rewrite lookup_insert_eq, E. split; by eexists.
  - by rewrite lookup_insert_ne.
Qed.

Lemma advance_safe m d fs :
  db_inv d ->
  let '(d', fs') := advance_current_waves m d fs in
  db_inv d' /\ grows d d' /\ db_records d' = db_records d /\
  (forall rid, is_Some (fs_rollouts fs' !! rid) <-> is_Some (fs_rollouts fs !! rid)) /\
  (forall rid, is_Some (db_rollouts d' !! rid) -> is_Some (db_rollouts d !! rid)).
Proof.
  intros Hinv. unfold advance_current_waves. generalize (omap (wave_bump m fs) (hash_iter (fs_rollouts fs))).
  intros bumps. revert d fs Hinv. induction bumps as [|b bumps IH]; intros d fs Hinv.
  - simpl. by split_and!.
  - cbn [fold_left]. destruct (bump_one_safe (d, fs) b Hinv) as [Hinv1 Hg1].
    pose proof (bump_one_view (d, fs) b) as Hv.
    assert (Hrec : db_records (bump_one (d, fs) b).1 = db_records d) by by destruct b.
    assert (Hrow : forall rid, is_Some (db_rollouts (bump_one (d, fs) b).1 !! rid) ->
              is_Some (db_rollouts d !! rid)).
    { destruct b as [rid' wave]. simpl. intros rid [row' Hl].
      destruct (set_current_wave_lookup _ _ _ _ _ Hl) as (row & Hrow & _). by eexists. }
    destruct (bump_one (d, fs) b) as [d1 fs1]. simpl in *.
    specialize (IH d1 fs1 Hinv1). destruct (fold_left _ _ _) as [d2 fs2].
    destruct IH as (? & ? & ? & H4 & H5). split_and!; [done | by etrans | congruence | |].
    + intros rid. by rewrite H4, Hv.
    + auto.
Qed.

(** ** A plan *)

Definition opens (a : PlanAction) : option RolloutId :=
  match a with PlanAction.OpenRollout rid _ _ => Some rid | _ => None end.

Lemma apply_plan_action_safe m w a :
  db_inv (w_db w) -> (forall rid, opens a = Some rid -> may_open rid (w_db w)) ->
  db_inv (w_db (apply_plan_action m w a)) /\ grows (w_db w) (w_db (apply_plan_action m w a)).
Proof.
  intros Hinv Hmay. destruct a as [rid ch ref|host rid c soak|ch|host rid g r].
  - destruct (open_rollout_safe m (clock_reading (w_reads w)) rid ch ref (w_db w) Hinv)
      as (H1 & H2 & _); [by apply Hmay | by split].
  - apply same_tables_safe; try done. split; simpl; [done | by eexists | done].
  - apply same_tables_safe; try done. apply append_event_log_extends.
  - apply same_tables_safe; try done. apply append_event_log_extends.
Qed.

Lemma may_open_grows rid d d' : may_open rid d -> grows d d' -> may_open rid d'.
Proof.
  intros [Hn|Ho] Hg; [|right; by eapply opened_grows].
  destruct (db_rollouts d' !! rid) as [row'|] eqn:E; [|by left].
  right. exists row'. split; [done|]. intros Hs.
  destruct (gr_terminal _ _ Hg _ _ E Hs) as (? & ? & _). congruence.
Qed.

Lemma apply_plan_safe m actions w :
  db_inv (w_db w) ->
  (forall a rid, a ∈ actions -> opens a = Some rid -> may_open rid (w_db w)) ->
  let w' := fold_left (apply_plan_action m) actions w in
  db_inv (w_db w') /\ grows (w_db w) (w_db w').
Proof.
  revert w. induction actions as [|a actions IH]; intros w Hinv Hmay; simpl; [done|].
  destruct (apply_plan_action_safe m w a Hinv) as [Hinv' Hg].
  { intros rid. apply Hmay. left. }
  destruct (IH (apply_plan_action m w a)) as [Hinv'' Hg']; [done | |split; [done | by etrans]].
  intros b rid Hb Ho. eapply may_open_grows; [apply (Hmay b rid); [by right | done] | done].
Qed.

(** The rollouts a plan opens have no row, [fs'] being the view of [d0] after
    wave promotion gave [d]. *)
Lemma plan_opens_absent d0 d m fs' q now a rid :
  (forall rid, is_Some (fs_rollouts fs' !! rid) <->
               is_Some (fs_rollouts (build_fleet_state d0 m) !! rid)) ->
  (forall rid, is_Some (db_rollouts d !! rid) -> is_Some (db_rollouts d0 !! rid)) ->
  a ∈ plan_next m fs' q now -> opens a = Some rid -> db_rollouts d !! rid = None.
Proof.
  intros Hview Hrow Hin Ho. pose proof (plan_justified m fs' q now) as Hj.
  rewrite Forall_forall in Hj. specialize (Hj a Hin).
  destruct a; simpl in Ho; simplify_eq. destruct Hj as (vm & Hvm & -> & -> & Hnone).
  apply eq_None_not_Some. intros Hs%Hrow.
  assert (Hn : db_rollouts d0 !! channel_rollout (channel, vm) = None).
  { apply (fleet_rollouts_None _ m); [done|]. apply eq_None_not_Some. intros Hs'%Hview.
    unfold channel_rollout in Hs'. simpl in Hs'. rewrite Hnone in Hs'. by destruct Hs'. }
  unfold channel_rollout in Hn. simpl in Hn. rewrite Hn in Hs. by destruct Hs.
Qed.

Lemma run_plan_safe rs w :
  db_inv (w_db w) -> db_inv (w_db (run_plan rs w)) /\ grows (w_db w) (w_db (run_plan rs w)).
Proof.
  intros Hinv. unfold run_plan. destruct (rd_manifests rs) as [m|]; [|done]. simpl.
  set (fs := build_fleet_state (w_db w) m).
  pose proof (advance_safe m (w_db w) fs Hinv) as Hadv.
  destruct (advance_current_waves m (w_db w) fs) as [d fs'].
  destruct Hadv as (Hinv1 & Hg1 & _ & Hview & Hrow).
  match goal with |- context [fold_left _ ?a ?x] => destruct (apply_plan_safe m a x) as [H1 H2] end.
  - done.
  - intros a rid Hin Ho. left. by eapply (plan_opens_absent (w_db w)).
  - split; [done | by etrans].
Qed.

(** ** Heartbeats and inputs *)

Lemma synthesize_safe rs record c at_ w :
  db_inv (w_db w) ->
  let w' := synthesize_pending_to_converged rs record c at_ w in
  db_inv (w_db w') /\ extends (w_db w) (w_db w').
Proof.
  intros Hinv. unfold synthesize_pending_to_converged.
  match goal with |- context [handle_host_event rs ?h ?r ?e w] =>
    destruct (handle_host_event_inv rs h r e w Hinv) as [Hinv1 Hx1];
    set (w1 := handle_host_event rs h r e w) in * end.
  match goal with |- context [handle_host_event rs ?h ?r ?e w1] =>
    destruct (handle_host_event_inv rs h r e w1 Hinv1) as [Hinv2 Hx2];
    set (w2 := handle_host_event rs h r e w1) in * end.
  assert (extends (w_db w) (w_db w2)) by by etrans.
  simpl. destruct (HostRolloutRecords.load _ _ _) as [post|]; [|done].
  match goal with |- context [handle_host_event rs ?h ?r ?e w2] =>
    destruct (handle_host_event_inv rs h r e w2 Hinv2) as [Hinv3 Hx3] end.
  split; [done | by etrans].
Qed.

Lemma recover_record_safe rs host c at_ w record :
  db_inv (w_db w) ->
  db_inv (w_db (recover_record rs host c at_ w record)) /\
  extends (w_db w) (w_db (recover_record rs host c at_ w record)).
Proof.
  intros Hinv. unfold recover_record.
  destruct (hs_state record); repeat case_bool; try done; try by apply handle_host_event_inv.
  destruct (match rd_manifests rs with Some _ => _ | None => _ end); [done|].
  by apply synthesize_safe.
Qed.

Lemma recovery_safe rs host c at_ w :
  db_inv (w_db w) ->
  let w' := maybe_synthesize_recovery_completion rs host c at_ w in
  db_inv (w_db w') /\ extends (w_db w) (w_db w').
Proof.
  intros Hinv. unfold maybe_synthesize_recovery_completion. generalize (HostRolloutRecords.active_for_host host (db_records (w_db w))).
  intros l. revert w Hinv. induction l as [|r l IH]; intros w Hinv; simpl; [done|].
  destruct (recover_record_safe rs host c at_ w r Hinv) as [Hinv' Hx].
  destruct (IH _ Hinv'). split; [done | by etrans].
Qed.

Lemma handle_input_safe rs i w :
  db_inv (w_db w) ->
  let w' := (handle_input rs i w).1.2 in
  db_inv (w_db w') /\ extends (w_db w) (w_db w').
Proof.
  intros Hinv. destruct i as [host rid e|set|host rid c at_|]; simpl.
  - by apply handle_host_event_inv.
  - destruct (run_plan_safe (rs <| rd_manifests := Some set |>) w Hinv) as [? []]. done.
  - destruct c as [c|]; [by apply recovery_safe | done].
  - destruct (run_plan_safe rs w Hinv) as [? []]. done.
Qed.

End view.

(** ** Runs of the control plane *)

Section runs.
Context {O : HashOrder} {C : Clock}.

(** One event in the life of the control plane: an input of the reducer task,
    a delivery by the dispatch route, a retention sweep, a turn of the log writer,
    whose [INSERT] may fail, or a restart, which keeps the tables and the clock and
    loses what is in the channel of the log. *)
Inductive cp_step : ReducerState * World -> ReducerState * World -> Prop :=
| cp_input rs w i :
    cp_step (rs, w) ((handle_input rs i w).1.1, (handle_input rs i w).1.2)
| cp_deliver rs w host :
    cp_step (rs, w)
      (rs, on_db (fun d => d <| db_queue := (DispatchQueue.take_for_host host (db_queue d)).2 |>) w)
| cp_prune rs w now hours :
    cp_step (rs, w) (rs, on_db (fun d => (prune_finished_rollouts now hours d).1) w)
| cp_write rs w ok : cp_step (rs, w) (rs, on_db (write_log_entry ok) w)
| cp_restart rs w : cp_step (rs, w) (initial, on_db lose_log_channel w).

Definition reachable (s : ReducerState * World) : Prop :=
  exists reads, rtc cp_step (initial, MkWorld empty_db reads) s.

Lemma prune_inv now hours d : db_inv d -> db_inv (prune_finished_rollouts now hours d).1.
Proof.
  intros Hinv. pose proof (prune_finished_rollouts_spec now hours d) as H. cbv zeta in H.
  destruct (prune_finished_rollouts now hours d) as [d' [n k]].
  destruct H as (Hrows & Hrecs & _). simpl. split.
  - intros rid row [Hl _]%Hrows. by apply (tbi_rows _ _ Hinv).
  - intros [rid h] st [Hl _]%Hrecs. by apply (tbi_records _ _ Hinv).
  - intros rid h st [Hl Hp]%Hrecs. destruct (tbi_agree _ _ Hinv _ _ _ Hl) as (row & Hrow & Hag).
    exists row. split; [|done]. apply Hrows. auto.
Qed.

(** A turn of the writer touches the log only. *)
Lemma write_log_entry_tables ok d :
  let d' := write_log_entry ok d in
  db_rollouts d' = db_rollouts d /\ db_records d' = db_records d /\ db_queue d' = db_queue d /\
  db_quarantines d' = db_quarantines d /\ db_failures d' = db_failures d /\ db_log_sent d' = db_log_sent d.
Proof. unfold write_log_entry. by destruct (db_log_channel d). Qed.

Lemma write_log_entry_inv ok d : db_inv d -> db_inv (write_log_entry ok d).
Proof. unfold write_log_entry. by destruct (db_log_channel d). Qed.

Lemma write_log_entry_extends ok d : extends d (write_log_entry ok d).
Proof. unfold write_log_entry. by destruct (db_log_channel d). Qed.

Lemma cp_step_safe s s' :
  cp_step s s' -> db_inv (w_db s.2) ->
  db_inv (w_db s'.2) /\ extends (w_db s.2) (w_db s'.2).
Proof.
  intros [rs w i|rs w host|rs w now hours|rs w ok|rs w] Hinv; simpl in *.
  - by apply handle_input_safe.
  - split; [done | by split].
  - split; [by apply prune_inv | by split].
  - split; [by apply write_log_entry_inv | by apply write_log_entry_extends].
  - split; [done | by split].
Qed.

Lemma cp_steps_safe s s' :
  rtc cp_step s s' -> db_inv (w_db s.2) ->
  db_inv (w_db s'.2) /\ extends (w_db s.2) (w_db s'.2).
Proof.
  intros Hs. induction Hs as [s|s1 s2 s3 H12 _ IH]; intros Hinv; [done|].
  destruct (cp_step_safe _ _ H12 Hinv) as [Hinv2 Hx]. destruct (IH Hinv2). split; [done | by etrans].
Qed.

Lemma reachable_inv s : reachable s -> db_inv (w_db s.2).
Proof. intros [reads H]. eapply cp_steps_safe; [done|]. apply tables_inv_empty. Qed.

End runs.
