(* ===== verification/CpRuntimeSpecs.v ===== *)
(** * The control-plane runtime: what its operations do

    Functional theorems about the handler of host events, the opening of a
    rollout, the recovery chain, the planner's view and wave promotion. *)

From S2P Require Import Prelude Proto HostTypes HostTransitions HostProps RolloutMachine.
From S2P Require Import RolloutProps Gates GateProps Planner PlannerProps CpStore CpStoreProps.
From S2P Require Import CpRuntime CpApplierProps CpRuntimeProps.
Import Applier Reducer.

#[export] Existing Instance rollout_done_dec.

(** ** Opening a rollout *)

Definition superseded_row (at_ : DateTime) (row : RolloutRow) : RolloutRow :=
  if bool_decide (row_state row = RolloutState.Superseded) then row
  else row <| row_state := RolloutState.Superseded |> <| row_superseded_at := Some at_ |>
           <| row_last_transition_event_log_seq := None |>.

Lemma superseded_row_idemp at_ row : superseded_row at_ (superseded_row at_ row) = superseded_row at_ row.
Proof.
  unfold superseded_row. destruct (bool_decide (row_state row = _)) eqn:E; [by rewrite E | done].
Qed.

(** A successor supersedes any row in a state that is reached. *)
Lemma rows_after_successor t old new at_ rid :
  map_Forall row_inv t ->
  rows_after (RolloutEvent.SuccessorOpened old new at_) t !! rid =
  if decide (rid = old) then superseded_row at_ <$> t !! rid else t !! rid.
Proof.
  intros Hinv. case_decide as Hd; [subst|by apply rows_after_other].
  set (e := RolloutEvent.SuccessorOpened old new at_).
  destruct (t !! old) as [row|] eqn:Hrow.
  - pose proof (rows_after_own e t row Hrow) as Hown. simpl in Hown. rewrite Hown. simpl. f_equal.
    destruct (Hinv _ _ Hrow) as [_ _ Hs]. unfold superseded_row, row_after, rollout_after.
    destruct row as [rid ch ref s wave o l opened term super]. simpl in *. by destruct s.
  - unfold rows_after. simpl. by rewrite Hrow.
Qed.

Lemma supersede_fold (preds : list RolloutId) new now d :
  db_inv d ->
  let d' := fold_left (fun d p => process_rollout_event now
              (RolloutEvent.SuccessorOpened p new now) d) preds d in
  db_inv d' /\ db_records d' = db_records d /\
  forall rid, db_rollouts d' !! rid =
    if decide (rid ∈ preds) then superseded_row now <$> db_rollouts d !! rid
    else db_rollouts d !! rid.
Proof.
  revert d. induction preds as [|p preds IH]; intros d Hinv; cbn [fold_left].
  { split_and!; [done..|]. intros rid. by rewrite decide_False by (by intros ?%elem_of_nil). }
  set (e := RolloutEvent.SuccessorOpened p new now).
  destruct (process_successor_safe now p new now d Hinv) as [Hinv1 _].
  destruct (process_rollout_event_frame now e d (tables_inv_keyed _ _ Hinv)) as (E1 & E2 & _).
  destruct (IH _ Hinv1) as (Hinv2 & Hrec & Hrows). cbv zeta in *. fold e in Hinv2, Hrec, Hrows |- *.
  split_and!; [done | by rewrite Hrec, E2 |].
  intros rid. rewrite Hrows, E1. unfold e.
  rewrite rows_after_successor by apply (tbi_rows _ _ Hinv).
  destruct (decide (rid = p)) as [->|Hne].
  - rewrite (decide_True (P := p ∈ p :: preds)) by left.
    case_decide; [|done]. destruct (db_rollouts d !! p); simpl; [by rewrite superseded_row_idemp|done].
  - repeat case_decide; set_solver.
Qed.

Lemma elem_of_predecessors ch rid t old :
  map_Forall row_inv t ->
  old ∈ in_flight_predecessors ch rid t <->
  exists row, t !! old = Some row /\ row_channel row = ch /\ old <> rid /\
              row_state row <> RolloutState.Superseded.
Proof.
  intros Hinv. unfold in_flight_predecessors, Rollouts.list_active, Rollouts.list_filtered.
  rewrite list_elem_of_fmap. split.
  - intros (r & -> & Hin). rewrite list_elem_of_In, filter_In, <- list_elem_of_In in Hin.
    destruct Hin as [Hin Hb]. apply list_elem_of_fmap in Hin as (row & -> & Hin).
    rewrite (merge_sort_Permutation Rollouts.row_order) in Hin.
    rewrite list_elem_of_In, filter_In, <- list_elem_of_In in Hin. destruct Hin as [Hin Hk].
    apply list_elem_of_fmap in Hin as ([rid' row'] & -> & Hin%elem_of_map_to_list). simpl in *.
    destruct (Hinv _ _ Hin) as [Hkey _ _]. apply andb_true_iff in Hb as [Hc Hn].
    apply bool_decide_eq_true in Hc. rewrite negb_true_iff, bool_decide_eq_false in Hn.
    rewrite Hkey in *. exists row'. split_and!; try done. intros E. by rewrite E in Hk.
  - intros (row & Hrow & Hch & Hne & Hs). destruct (Hinv _ _ Hrow) as [Hkey _ Hr].
    exists (Rollouts.MkActiveRollout (row_rollout_id row) (row_channel row) (row_current_wave row)
              (row_opened_at row) (row_terminal_at row)). split; [by rewrite Hkey|].
    rewrite list_elem_of_In, filter_In, <- list_elem_of_In. simpl. split.
    2:{ by rewrite (bool_decide_eq_true_2 _ Hch), bool_decide_eq_false_2 by congruence. }
    apply list_elem_of_fmap. exists row. split; [done|].
    rewrite (merge_sort_Permutation Rollouts.row_order).
    rewrite list_elem_of_In, filter_In, <- list_elem_of_In. split.
    + apply list_elem_of_fmap. exists (old, row). split; [done|]. by apply elem_of_map_to_list.
    + destruct (row_state row); done.
Qed.

Definition joined_row (row : RolloutRow) : RolloutRow :=
  if bool_decide (row_state row = RolloutState.Opening)
  then row <| row_state := RolloutState.Active |> <| row_last_transition_event_log_seq := None |>
  else row.

(** The record [open_rollout] creates for a host of the manifest. *)
Definition opening_record (m : SignedManifestSet) (now : DateTime) (rid : RolloutId) (ch : string)
    (hw : HostWave) : HostRolloutState :=
  new_pending rid (hw_hostname hw) ch (hw_target_closure hw) now
    (now + duration_minutes (soak_minutes_of m ch (hw_wave_index hw)))%Z.

Lemma open_host_spec m now rid ch d hw :
  db_inv d -> opened rid d ->
  let d' := open_host m now rid ch d hw in
  (forall rid', db_rollouts d' !! rid' =
     if decide (rid' = rid) then joined_row <$> db_rollouts d !! rid' else db_rollouts d !! rid') /\
  db_records d' = <[ (rid, hw_hostname hw) := opening_record m now rid ch hw ]> (db_records d).
Proof.
  intros Hinv (row & Hrow & Hnt). unfold open_host. cbv zeta.
  set (d1 := d <| db_records := _ |>). set (e := RolloutEvent.HostJoined _ _ _ _).
  assert (Hk : rows_keyed (db_rollouts d1)) by exact (tables_inv_keyed _ _ Hinv).
  destruct (process_rollout_event_frame now e d1 Hk) as (E1 & E2 & _). rewrite E1, E2.
  split; [|done]. intros rid'. change (db_rollouts d1) with (db_rollouts d).
  case_decide as Hd; [subst|by apply rows_after_other].
  pose proof (rows_after_own e _ row Hrow) as Hown. simpl in Hown. rewrite Hown, Hrow. simpl. f_equal.
  destruct (tbi_rows _ _ Hinv _ _ Hrow) as [_ _ Hs]. unfold joined_row, row_after, rollout_after.
  destruct row as [rid' ch' ref s wave o l opened term super]. simpl in *. by destruct s.
Qed.

Lemma joined_row_idemp row : joined_row (joined_row row) = joined_row row.
Proof.
  unfold joined_row. destruct (bool_decide (row_state row = _)) eqn:E; [done | by rewrite E].
Qed.

Lemma open_hosts_spec m now rid ch l d :
  db_inv d -> opened rid d -> NoDup (hw_hostname <$> l) ->
  let d' := fold_left (open_host m now rid ch) l d in
  (forall rid', db_rollouts d' !! rid' =
     if decide (rid' = rid /\ l <> []) then joined_row <$> db_rollouts d !! rid'
     else db_rollouts d !! rid') /\
  (forall hw, hw ∈ l -> db_records d' !! (rid, hw_hostname hw) = Some (opening_record m now rid ch hw)) /\
  (forall rid' h, rid' <> rid \/ h ∉ hw_hostname <$> l ->
     db_records d' !! (rid', h) = db_records d !! (rid', h)).
Proof.
  revert d. induction l as [|hw l IH]; intros d Hinv Ho Hnd; cbn [fold_left].
  { split_and!; [intros; by rewrite decide_False by naive_solver | by intros ? ?%elem_of_nil | done]. }
  apply NoDup_cons in Hnd as [Hni Hnd].
  destruct (open_host_safe m now rid ch d hw Hinv Ho) as [Hinv1 Hg1].
  destruct (open_host_spec m now rid ch d hw Hinv Ho) as [Hrow1 Hrec1].
  destruct (IH _ Hinv1 (opened_grows _ _ _ Ho Hg1) Hnd) as (Hrows & Hrecs & Hother).
  cbv zeta in *. split_and!.
  - intros rid'. rewrite Hrows, Hrow1.
    destruct (decide (rid' = rid)) as [->|Hne].
    + rewrite (decide_True (P := rid = rid /\ hw :: l <> [])) by done.
      case_decide; [|done]. destruct (db_rollouts d !! rid); simpl; [by rewrite joined_row_idemp|done].
    + by rewrite !decide_False by naive_solver.
  - intros hw' [->|Hin]%elem_of_cons; [|by apply Hrecs].
    rewrite (Hother rid (hw_hostname hw)) by (by right). rewrite Hrec1. by rewrite lookup_insert_eq.
  - intros rid' h Hh. rewrite Hother, Hrec1 by (set_solver).
    rewrite lookup_insert_ne; [done|]. intros [= <- <-]. set_solver.
Qed.

(** ** Properties *)

(** Opening a rollout.  When the channel's manifest is cached and the
    rollout is new, [open_rollout] adds its row ([Active] once a host has
    joined), supersedes at that instant every other rollout of the channel that
    was not superseded yet and leaves every other row alone, and gives each
    host of the manifest, and no other, a fresh [Pending] record with its
    target closure and the soak deadline of its wave. *)
Theorem open_rollout_spec (m : SignedManifestSet) (now : DateTime) (rid : RolloutId)
    (ch ref : string) (vm : Verified RolloutManifest) (d : Db) :
  db_inv d -> db_rollouts d !! rid = None -> sms_rollouts m !! ch = Some vm ->
  NoDup (hw_hostname <$> rm_host_set (inner vm)) ->
  let hosts := rm_host_set (inner vm) in
  let d' := open_rollout m now rid ch ref d in
  db_rollouts d' !! rid =
    Some (MkRolloutRow rid ch ref
            (if is_empty hosts then RolloutState.Opening else RolloutState.Active) 0
            None None now None None) /\
  (forall rid' row, rid' <> rid -> db_rollouts d !! rid' = Some row ->
     db_rollouts d' !! rid' =
       Some (if bool_decide (row_channel row = ch) then superseded_row now row else row)) /\
  (forall rid', rid' <> rid -> db_rollouts d !! rid' = None -> db_rollouts d' !! rid' = None) /\
  (forall hw, hw ∈ hosts -> db_records d' !! (rid, hw_hostname hw) =
     Some (new_pending rid (hw_hostname hw) ch (hw_target_closure hw) now
             (now + duration_minutes (soak_minutes_of m ch (hw_wave_index hw))))) /\
  (forall rid' h, rid' <> rid \/ h ∉ hw_hostname <$> hosts ->
     db_records d' !! (rid', h) = db_records d !! (rid', h)).
Proof.
  intros Hinv Hnew Hvm Hnd hosts d'.
  destruct (record_rollout_opened_safe rid ch ref now d Hinv) as (Hinv1 & _ & Ho1); [by left|].
  unfold d', open_rollout. rewrite Hvm. simpl. cbv zeta in Hinv1, Ho1.
  unfold Rollouts.record_rollout_opened in *. rewrite Hnew in *.
  set (preds := in_flight_predecessors ch rid (db_rollouts d)).
  match goal with |- context [fold_left _ preds ?x] => set (d2 := x) end.
  assert (Hinv2 : db_inv d2) by exact Hinv1.
  destruct (supersede_fold preds rid now d2 Hinv2) as (Hinv3 & Hrec3 & Hrow3).
  set (d3 := fold_left _ preds d2) in *.
  assert (Hrid : rid ∉ preds).
  { unfold preds. rewrite elem_of_predecessors by apply (tbi_rows _ _ Hinv). naive_solver. }
  assert (Ho3 : opened rid d3).
  { destruct Ho1 as (row & Hl & Hs). exists row. by rewrite Hrow3, decide_False. }
  destruct (open_hosts_spec m now rid ch hosts d3 Hinv3 Ho3 Hnd) as (Hrow4 & Hrec4 & Hother4).
  set (d4 := fold_left (open_host m now rid ch) hosts d3) in *.
  change (rm_host_set (inner vm)) with hosts. fold d4.
  assert (Hd2 : forall rid', db_rollouts d2 !! rid' = if decide (rid' = rid) then
      Some (MkRolloutRow rid ch ref RolloutState.Opening 0 None None now None None)
      else db_rollouts d !! rid').
  { intros rid'. simpl. case_decide as Hd; [by rewrite Hd, lookup_insert_eq | by rewrite lookup_insert_ne]. }
  split_and!.
  - rewrite Hrow4, Hrow3, (decide_False (P := rid ∈ preds)), Hd2,
      (decide_True (P := rid = rid)) by done.
    destruct hosts; simpl; [by rewrite decide_False by naive_solver | by rewrite decide_True].
  - intros rid' row Hne Hrow. rewrite Hrow4, Hrow3, (decide_False (P := rid' = rid /\ _)), Hd2,
      (decide_False (P := rid' = rid)), Hrow by naive_solver. simpl.
    unfold preds, superseded_row.
    destruct (bool_decide_reflect (row_channel row = ch)) as [Hc|Hc]; case_decide as Hd;
      rewrite elem_of_predecessors in Hd
      by apply (tbi_rows _ _ Hinv); try done.
    + case_bool as [Hs|Hs]; [done|]. exfalso. apply Hd. by exists row.
    + exfalso. destruct Hd as (row' & Hrow' & Hc' & _). congruence.
  - intros rid' Hne Hrow. rewrite Hrow4, Hrow3, (decide_False (P := rid' = rid /\ _)), Hd2,
      (decide_False (P := rid' = rid)), Hrow by naive_solver. by case_decide.
  - intros hw Hin. by apply Hrec4.
  - intros rid' h Hh. simpl. by rewrite Hother4, Hrec3.
Qed.

(** A database with one active rollout of three hosts, [a] failed. *)
Definition sample_row (s : RolloutState) : RolloutRow :=
  MkRolloutRow sample_rid "stable" "r1" s 0 None None 0 None None.
Definition sample_db : Db :=
  empty_db <| db_rollouts := {[ sample_rid := sample_row RolloutState.Failed ]} |>
           <| db_records := {[ (sample_rid, "b") := sample_waiting "b" ]} |>.

Lemma sample_db_inv : db_inv sample_db.
Proof.
  split.
  - apply map_Forall_singleton. by split.
  - apply map_Forall_singleton. split; [done | apply host_inv_new_pending].
  - intros rid h st Hl. unfold sample_db in Hl. simpl in Hl.
    apply lookup_singleton_Some in Hl as [[= <- <-] <-].
    exists (sample_row RolloutState.Failed). by vm_compute.
Qed.

Lemma open_rollout_spec_witness :
  let rid := rollout_id.new "stable" "r2" in
  db_rollouts (open_rollout (sample_manifests []) 50 rid "stable" "r2" sample_db) !! sample_rid =
  Some (superseded_row 50 (sample_row RolloutState.Failed)).
Proof.
  intros rid.
  destruct (open_rollout_spec (sample_manifests []) 50 rid "stable" "r2"
              (MkVerified (sample_manifest []) 0) sample_db) as (_ & H & _).
  - exact sample_db_inv.
  - by vm_compute.
  - by vm_compute.
  - by apply (bool_decide_unpack (NoDup ["a"; "b"; "c"])); vm_compute.
  - exact (H sample_rid (sample_row RolloutState.Failed) ltac:(by vm_compute) ltac:(by vm_compute)).
Defined.

(** The control plane handles a host event.  It is dropped, without a
    trace in the database, exactly when the record is missing, the manifests or
    the channel's policy are not known, or the host reducer refuses it (a stale
    sequence number among the reasons).  Otherwise the record becomes the
    reducer's, no other record and no queued dispatch changes, the rollout gets
    the host's move and, once all its hosts have converged, its end, the
    event's failing enforce-mode probes and controls are added to the failures,
    and the log gains the event, once. *)
Theorem handle_host_event_spec {O : HashOrder} {C : Clock} (rs : ReducerState) (host : string)
    (rid : RolloutId) (e : Event) (w : World) :
  db_inv (w_db w) ->
  let d := w_db w in
  let d' := w_db (handle_host_event rs host rid e w) in
  match host_event_outcome rs host rid e w with
  | None => d' = d
  | Some (prior, next, effs) =>
      db_records d !! (rid, host) = Some prior /\
      db_records d' = <[ (rid, host) := next ]> (db_records d) /\
      db_rollouts d' = rollouts_after_host (clock_reading (w_reads w)) rid host (hs_state prior)
                         (hs_state next) (db_records d') (db_rollouts d) /\
      db_queue d' = db_queue d /\
      db_failures d' = db_failures d ++ event_failures rid host e /\
      agent_entries (db_log_sent d') =
        agent_entries (db_log_sent d) ++ event_entries rid host e
  end.
Proof.
  intros Hinv d d'. destruct (host_event_outcome rs host rid e w) as [[[prior next] effs]|] eqn:Ho.
  - destruct (handle_host_event_accepted _ _ _ _ _ _ _ _ Hinv Ho) as (? & ? & ? & ? & ? & _).
    split; [|done]. unfold host_event_outcome in Ho. unfold d.
    destruct (db_records (w_db w) !! (rid, host)) as [prior'|]; simpl in Ho; [|done].
    destruct (rd_manifests rs) as [m|]; simpl in Ho; [|done].
    destruct (resolve_policy m _) as [policy|]; simpl in Ho; [|done].
    destruct (HostTransitions.step _ _ _ _) as [[]|]; [by injection Ho as -> _ _ | done].
  - by apply handle_host_event_dropped.
Qed.

Lemma handle_host_event_spec_witness :
  let rs := initial <| rd_manifests := Some (sample_manifests []) |> in
  let w := MkWorld sample_db 0 in
  let e := Event.RemoteDispatchAck "/nix/store/old" 5 1 in
  let w' := handle_host_event (O := list_order) (C := fun _ => 7%Z) rs "b" sample_rid e w in
  db_records (w_db w') = <[ (sample_rid, "b") :=
    (sample_waiting "b") <| hs_state := HostState.Activating |>
      <| hs_current_closure_at_dispatch := Some "/nix/store/old" |>
      <| hs_dispatch_acked_at := Some 5%Z |> <| hs_last_event_seq := 1%Z |> ]>
    (db_records sample_db).
Proof.
  intros rs w e w'.
  pose proof (handle_host_event_spec (O := list_order) (C := fun _ => 7%Z) rs "b" sample_rid e w
                sample_db_inv) as H.
  cbv zeta in H.
  assert (Ho : exists effs, host_event_outcome (C := fun _ => 7%Z) rs "b" sample_rid e w =
    Some (sample_waiting "b", (sample_waiting "b") <| hs_state := HostState.Activating |>
      <| hs_current_closure_at_dispatch := Some "/nix/store/old" |>
      <| hs_dispatch_acked_at := Some 5%Z |> <| hs_last_event_seq := 1%Z |>, effs))
    by (eexists; vm_compute; reflexivity).
  destruct Ho as [effs Ho]. rewrite Ho in H. apply H.
Defined.

(** ** The recovery chain *)

Lemma accepted_event {O : HashOrder} {C : Clock} rs host rid e w prior m policy next effs :
  db_inv (w_db w) -> db_records (w_db w) !! (rid, host) = Some prior ->
  rd_manifests rs = Some m -> resolve_policy m (hs_channel prior) = Some policy ->
  HostTransitions.step prior e (clock_reading (w_reads w)) policy = Ok (next, effs) ->
  let w' := handle_host_event rs host rid e w in
  db_inv (w_db w') /\ db_records (w_db w') = <[ (rid, host) := next ]> (db_records (w_db w)).
Proof.
  intros Hinv H1 H2 H3 H4.
  assert (Ho : host_event_outcome rs host rid e w = Some (prior, next, effs))
    by (unfold host_event_outcome; rewrite H1; simpl; rewrite H2; simpl; rewrite H3; simpl;
        by rewrite H4).
  split; [by apply handle_host_event_inv |].
  by destruct (handle_host_event_accepted _ _ _ _ _ _ _ _ Hinv Ho).
Qed.

(** The record after the three synthesized events. *)
Definition recovered (record : HostRolloutState) (c : string) (at_ : DateTime) : HostRolloutState :=
  record <| hs_state := HostState.Converged |>
         <| hs_current_closure_at_dispatch := Some "" |>
         <| hs_dispatch_acked_at := Some at_ |>
         <| hs_activation_completed_at := Some at_ |>
         <| hs_current_closure := Some c |>
         <| hs_probes := ∅ |>
         <| hs_converged_at := Some (match hs_soak_due_at record with
                                     | Some due => Z.max at_ due
                                     | None => at_
                                     end) |>
         <| hs_last_event_seq := (hs_last_event_seq record + 3)%Z |>.

Lemma dispatch_ack_step r c at_ seq now policy :
  hs_state r = HostState.Pending -> (hs_last_event_seq r < seq)%Z ->
  HostTransitions.step r (Event.RemoteDispatchAck c at_ seq) now policy =
  Ok (pending.remote_dispatch_ack r c at_ seq).
Proof.
  intros Hs Hseq. unfold HostTransitions.step, HostTransitions.dispatch. simpl.
  rewrite (proj2 (Z.leb_gt _ _)) by lia. by rewrite Hs.
Qed.

Lemma activation_completed_step r c x at_ seq now policy :
  hs_state r = HostState.Activating -> (hs_last_event_seq r < seq)%Z ->
  HostTransitions.step r (Event.RemoteActivationCompleted c x at_ seq) now policy =
  Ok (activating.remote_activation_completed r c x at_ seq).
Proof.
  intros Hs Hseq. unfold HostTransitions.step, HostTransitions.dispatch. simpl.
  rewrite (proj2 (Z.leb_gt _ _)) by lia. by rewrite Hs.
Qed.

Lemma converged_step r at_ seq now policy :
  hs_state r = HostState.Soaking -> hs_probes r = ∅ -> (hs_last_event_seq r < seq)%Z ->
  (forall due, hs_soak_due_at r = Some due -> (due <= at_)%Z) ->
  exists effs,
  HostTransitions.step r (Event.RemoteConverged at_ (hs_target_closure r) seq) now policy =
  Ok (r <| hs_state := HostState.Converged |> <| hs_converged_at := Some at_ |>
        <| hs_current_closure := Some (hs_target_closure r) |> <| hs_last_event_seq := seq |>, effs).
Proof.
  intros Hs Hp Hseq Hdue. unfold HostTransitions.step, HostTransitions.dispatch. simpl.
  rewrite (proj2 (Z.leb_gt _ _)) by lia. rewrite Hs. simpl. unfold soaking.remote_converged.
  rewrite (proj2 (verify_converged_spec r (hs_target_closure r) at_)); [by eexists|].
  split_and!; [done | done |]. intros name pr. by rewrite Hp, lookup_empty.
Qed.

(** Recovery of a wiped control plane: for a [Pending] record of a host
    that already runs the target, the three synthesized events are all accepted
    and the record ends [Converged] on the target, not before its soak
    deadline, three sequence numbers on; every other record is unchanged.  The
    host needs no further report. *)
Theorem recovery_chain_converges {O : HashOrder} {C : Clock} (rs : ReducerState)
    (record : HostRolloutState) (m : SignedManifestSet) (policy : RolloutPolicy) (at_ : DateTime)
    (w : World) :
  let k := (hs_rollout_id record, hs_hostname record) in
  db_inv (w_db w) -> db_records (w_db w) !! k = Some record ->
  hs_state record = HostState.Pending ->
  rd_manifests rs = Some m -> resolve_policy m (hs_channel record) = Some policy ->
  (0 <= hs_last_event_seq record)%Z -> (hs_last_event_seq record + 3 <= u64_max)%Z ->
  let w' := synthesize_pending_to_converged rs record (hs_target_closure record) at_ w in
  db_records (w_db w') =
    <[ k := recovered record (hs_target_closure record) at_ ]> (db_records (w_db w)) /\
  hs_state (recovered record (hs_target_closure record) at_) = HostState.Converged.
Proof.
  intros k Hinv Hl Hs Hm Hpol H0 Hmax w'. split; [|done]. unfold w', synthesize_pending_to_converged.
  cbv zeta. rewrite !u64_wrap_small by (unfold u64_max in *; lia).
  set (host := hs_hostname record) in *. set (rid := hs_rollout_id record) in *.
  set (c := hs_target_closure record).
  assert (Hp : hs_probes record = ∅).
  { destruct (tbi_records _ _ Hinv _ _ Hl) as [_ Hhi]. apply (inv_before_soak _ Hhi). by rewrite Hs. }
  set (e1 := Event.RemoteDispatchAck _ _ _).
  set (r1 := (pending.remote_dispatch_ack record "" at_ (hs_last_event_seq record + 1)).1).
  destruct (accepted_event rs host rid e1 w record m policy r1 _ Hinv Hl Hm Hpol
              (dispatch_ack_step record "" at_ (hs_last_event_seq record + 1) _ _ Hs ltac:(lia)))
    as [Hinv1 Hrec1].
  set (w1 := handle_host_event rs host rid e1 w) in *.
  assert (Hl1 : db_records (w_db w1) !! (rid, host) = Some r1) by by rewrite Hrec1, lookup_insert_eq.
  set (e2 := Event.RemoteActivationCompleted _ _ _ _).
  set (r2 := (activating.remote_activation_completed r1 c 0 at_ (hs_last_event_seq record + 2)).1).
  destruct (accepted_event rs host rid e2 w1 r1 m policy r2 _ Hinv1 Hl1 Hm Hpol
              (activation_completed_step r1 c 0 at_ (hs_last_event_seq record + 2) _ _ eq_refl
                 ltac:(simpl; lia))) as [Hinv2 Hrec2].
  set (w2 := handle_host_event rs host rid e2 w1) in *.
  assert (Hl2 : db_records (w_db w2) !! (rid, host) = Some r2) by by rewrite Hrec2, lookup_insert_eq.
  unfold HostRolloutRecords.load. rewrite Hl2.
  set (t := match hs_soak_due_at r2 with
            | Some soak_due => if Z.ltb at_ soak_due then soak_due else at_
            | None => at_
            end).
  assert (Ht : forall due, hs_soak_due_at r2 = Some due -> (due <= t)%Z)
    by (unfold t; intros due ->; destruct (Z.ltb_spec at_ due); lia).
  destruct (converged_step r2 t (hs_last_event_seq record + 3)
              (clock_reading (w_reads w2)) policy) as [effs3 Hstep3]; [done | done | simpl; lia | done |].
  set (e3 := Event.RemoteConverged t c _).
  destruct (accepted_event rs host rid e3 w2 r2 m policy _ _ Hinv2 Hl2 Hm Hpol Hstep3) as [_ Hrec3].
  unfold k. rewrite Hrec3, Hrec2, Hrec1, !insert_insert_eq. f_equal.
  unfold recovered, t, r2, r1. simpl. rewrite ?Hp. f_equal.
  destruct (hs_soak_due_at record) as [due|]; [|done].
  destruct (Z.ltb_spec at_ due); f_equal; lia.
Qed.

Lemma recovery_chain_converges_witness :
  let rs := initial <| rd_manifests := Some (sample_manifests []) |> in
  let w := MkWorld sample_db 0 in
  let w' := synthesize_pending_to_converged (O := list_order) (C := fun _ => 7%Z) rs
              (sample_waiting "b") "/nix/store/new" 5 w in
  (hs_converged_at <$> db_records (w_db w') !! (sample_rid, "b")) = Some (Some 600%Z).
Proof.
  intros rs w w'.
  destruct (recovery_chain_converges (O := list_order) (C := fun _ => 7%Z) rs (sample_waiting "b")
              (sample_manifests []) sample_halt_policy 5 w) as [H _].
  - exact sample_db_inv.
  - by vm_compute.
  - reflexivity.
  - reflexivity.
  - by vm_compute.
  - by vm_compute.
  - by vm_compute.
  - unfold w'. change "/nix/store/new" with (hs_target_closure (sample_waiting "b")). rewrite H.
    by vm_compute.
Defined.

(** ** The planner's view, and wave promotion *)

(** The planner sees the database.  For the rollouts the manifests
    advertise, and no other, the view holds every host record as stored and,
    once the rollout is open, a summary with the row's opening and terminal
    times and wave and the manifest's budgets; the compliance gate reads the
    count of distinct failing probes and controls. *)
Theorem planner_view_is_database {O : HashOrder} (d : Db) (m : SignedManifestSet)
    (rid : RolloutId) (h : string) :
  db_inv d ->
  let fs := build_fleet_state d m in
  fs_host_states fs !! (rid, h) =
    (if decide (map_Exists (fun ch vm => channel_rollout (ch, vm) = rid) (sms_rollouts m))
     then db_records d !! (rid, h) else None) /\
  (forall s, fs_rollouts fs !! rid = Some s ->
     exists ch vm row, sms_rollouts m !! ch = Some vm /\ channel_rollout (ch, vm) = rid /\
       db_rollouts d !! rid = Some row /\ s = summary_of (ch, vm) row) /\
  (forall ch vm, sms_rollouts m !! ch = Some vm -> channel_rollout (ch, vm) = rid ->
     (is_Some (fs_rollouts fs !! rid) <-> is_Some (db_rollouts d !! rid))) /\
  (fs_outstanding_failing_enforce_probes fs !! rid) ≫= (fun per_host => per_host !! h) =
    (if decide (Exists (fun r => pf_rollout_id r = rid /\ pf_host_id r = h) (db_failures d))
     then Some (ProbeFailures.group_count rid h (db_failures d)) else None).
Proof.
  intros Hinv fs. split_and!.
  - by apply fleet_host_states.
  - intros s. apply fleet_rollouts_Some.
  - intros ch vm Hvm <-. split.
    + intros [s Hs]. destruct (fleet_rollouts_Some _ _ _ _ Hs) as (? & ? & row & _ & _ & Hrow & _).
      by eexists.
    + intros Hs. apply not_eq_None_Some. intros Hn%fleet_rollouts_None; [|done].
      rewrite Hn in Hs. by destruct Hs.
  - unfold fs, build_fleet_state. destruct (fold_left _ _ _) as [hs rs]. simpl.
    apply outstanding_spec.
Qed.

Lemma planner_view_is_database_witness :
  fs_host_states (build_fleet_state (O := list_order) sample_db (sample_manifests []))
    !! (sample_rid, "b") = Some (sample_waiting "b").
Proof.
  destruct (planner_view_is_database (O := list_order) sample_db (sample_manifests []) sample_rid "b"
              sample_db_inv) as [H _].
  rewrite H. by vm_compute.
Defined.

(** The wave the rollout is in has a successor and all its hosts are done. *)
Definition wave_complete (fs : FleetState) (m : SignedManifestSet) (rid : RolloutId)
    (s : RolloutSummary) : Prop :=
  rs_terminal_at s = None /\
  exists waves wave, fr_waves (fleet m) !! rs_channel s = Some waves /\
    waves !! Z.to_nat (rs_current_wave s) = Some wave /\
    Z.to_nat (rs_current_wave s) + 1 < length waves /\ wave_hosts wave <> [] /\
    forall h, h ∈ wave_hosts wave -> exists st, fs_host_states fs !! (rid, h) = Some st /\
      ordering_eligible (hs_state st).

Lemma wave_bump_spec fs m rid s b :
  wave_bump m fs (rid, s) = Some b <->
  wave_complete fs m rid s /\ b = (rid, u32_wrap (rs_current_wave s + 1)).
Proof.
  unfold wave_bump, wave_complete.
  destruct (rs_terminal_at s); [naive_solver|].
  destruct (fr_waves (fleet m) !! rs_channel s) as [waves|]; [|naive_solver].
  destruct (Nat.leb_spec (length waves) (Z.to_nat (rs_current_wave s) + 1)).
  { split; [done|]. intros [(_ & ? & ? & [= <-] & _ & ? & _) _]. lia. }
  destruct (waves !! Z.to_nat (rs_current_wave s)) as [wave|] eqn:Hw; [|naive_solver].
  destruct (is_empty (wave_hosts wave)) eqn:He.
  { split; [done|]. apply is_empty_spec in He. naive_solver. }
  match goal with |- context [forallb ?f ?l] => assert (Hall : forallb f l = true <->
    forall h, h ∈ l -> exists st, fs_host_states fs !! (rid, h) = Some st /\
      ordering_eligible (hs_state st)) end.
  { rewrite forallb_forall. setoid_rewrite list_elem_of_In. unfold ordering_eligible.
    split; intros Hel h Hin; specialize (Hel h Hin);
      destruct (fs_host_states fs !! (rid, h)) as [st|]; try (by destruct Hel as (? & ? & _)); try done.
    - exists st. split; [done|]. destruct (hs_state st); auto; done.
    - destruct Hel as (st' & [= <-] & [E|E]); by rewrite E. }
  assert (Hne : wave_hosts wave <> []) by (intros E%is_empty_spec; congruence).
  destruct (forallb _ _).
  - split; [|naive_solver]. intros [= <-]. split; [|done]. split; [done|].
    exists waves, wave. split_and!; try done. by apply Hall.
  - split; [done|]. intros [(_ & ? & ? & [= <-] & ? & _ & _ & H') _]. simplify_eq.
    by apply Hall in H'.
Qed.

Lemma set_current_wave_other rid wave t rid' :
  rid' <> rid -> Rollouts.set_current_wave rid wave None t !! rid' = t !! rid'.
Proof.
  intros Hne. unfold Rollouts.set_current_wave. destruct (t !! rid); [|done].
  destruct (Z.ltb _ _); [by rewrite lookup_insert_ne | done].
Qed.

Lemma bumps_fold bumps d fs rid :
  NoDup bumps.*1 ->
  let r := fold_left bump_one bumps (d, fs) in
  (forall w, (rid, w) ∈ bumps ->
     db_rollouts r.1 !! rid =
       (fun row => row <| row_current_wave := Z.max (row_current_wave row) w |>) <$>
         db_rollouts d !! rid /\
     fs_rollouts r.2 !! rid = (fun s => s <| rs_current_wave := w |>) <$> fs_rollouts fs !! rid) /\
  (rid ∉ bumps.*1 -> db_rollouts r.1 !! rid = db_rollouts d !! rid /\
                     fs_rollouts r.2 !! rid = fs_rollouts fs !! rid).
Proof.
  revert d fs. induction bumps as [|[rid' w'] bumps IH]; intros d fs Hnd.
  { split; [by intros ? ?%elem_of_nil | done]. }
  apply NoDup_cons in Hnd as [Hni Hnd]. cbn [fold_left].
  destruct (bump_one (d, fs) (rid', w')) as [d1 fs1] eqn:E.
  assert (Hd : db_rollouts d1 = Rollouts.set_current_wave rid' w' None (db_rollouts d))
    by (simpl in E; by injection E as <- _).
  assert (Hf : forall rid, fs_rollouts fs1 !! rid =
            if decide (rid = rid') then (fun s => s <| rs_current_wave := w' |>) <$> fs_rollouts fs !! rid
            else fs_rollouts fs !! rid).
  { simpl in E. injection E as _ <-. intros r.
    destruct (fs_rollouts fs !! rid') as [s|] eqn:Es; simpl; case_decide as Hr; subst.
    - by rewrite lookup_insert_eq, Es.
    - by rewrite lookup_insert_ne.
    - by rewrite Es.
    - done. }
  destruct (IH d1 fs1 Hnd) as [Hin Hout]. cbv zeta in *. split.
  - intros w [[= -> ->]|Hw]%elem_of_cons.
    + destruct (Hout Hni) as [-> ->]. rewrite Hf, decide_True by done. split; [|done].
      rewrite Hd. unfold Rollouts.set_current_wave.
      destruct (db_rollouts d !! rid') as [row|] eqn:Er; simpl; [|by rewrite Er].
      destruct (Z.ltb_spec (row_current_wave row) w').
      * rewrite lookup_insert_eq, Z.max_r by lia. by destruct row.
      * rewrite Er, Z.max_l by lia. by destruct row.
    + destruct (Hin _ Hw) as [-> ->].
      assert (rid <> rid') by (intros ->; apply Hni, list_elem_of_fmap; by exists (rid', w)).
      rewrite Hf, decide_False, Hd by done. split; [|done]. f_equal.
      by apply set_current_wave_other.
  - intros Hni'. apply not_elem_of_cons in Hni' as [Hne Hni']. simpl in Hne.
    destruct (Hout Hni') as [-> ->]. rewrite Hf, decide_False, Hd by done. split; [|done].
    by apply set_current_wave_other.
Qed.

Section promotion.
Context {O : HashOrder}.

Lemma bumps_spec m fs rid w :
  (rid, w) ∈ omap (wave_bump m fs) (hash_iter (fs_rollouts fs)) <->
  exists s, fs_rollouts fs !! rid = Some s /\ wave_complete fs m rid s /\
            w = u32_wrap (rs_current_wave s + 1).
Proof.
  rewrite list_elem_of_omap. split.
  - intros ([rid' s] & Hin%elem_of_hash_iter & [Hc [= -> ->]]%wave_bump_spec). eauto.
  - intros (s & Hs & Hc & ->). exists (rid, s). split; [by apply elem_of_hash_iter|].
    by apply wave_bump_spec.
Qed.

Lemma NoDup_omap_fst {K A B} (f : K * A -> option (K * B)) l :
  (forall k a b, f (k, a) = Some b -> b.1 = k) -> NoDup l.*1 -> NoDup (omap f l).*1.
Proof.
  intros Hf. induction l as [|[k a] l IH]; simpl; intros Hnd; [constructor|].
  apply NoDup_cons in Hnd as [Hni Hnd].
  destruct (f (k, a)) as [b|] eqn:E; [|by apply IH].
  simpl. apply NoDup_cons. split; [|by apply IH]. rewrite (Hf _ _ _ E).
  intros (b' & Hb & Hin)%list_elem_of_fmap.
  apply list_elem_of_omap in Hin as ([k2 a2] & Hin & E2). apply Hf in E2.
  apply Hni, list_elem_of_fmap. exists (k2, a2). split; [simpl; congruence | done].
Qed.

Lemma NoDup_bumps m fs : NoDup (omap (wave_bump m fs) (hash_iter (fs_rollouts fs))).*1.
Proof.
  apply NoDup_omap_fst; [|apply NoDup_fst_hash_iter].
  by intros rid s b [_ ->]%wave_bump_spec.
Qed.

(** Wave promotion.  Before each plan, the rollouts whose current wave has
    a successor and only converged or deferred hosts, and at least one, move to
    the next wave, one wave at a time; no other row changes, no record
    changes, and the planner sees the new waves at once. *)
Theorem wave_promotion_spec (m : SignedManifestSet) (d : Db) (rid : RolloutId) (row : RolloutRow) :
  db_inv d -> db_rollouts d !! rid = Some row -> (0 <= row_current_wave row < u32_max)%Z ->
  let fs := build_fleet_state d m in
  let '(d', fs') := advance_current_waves m d fs in
  (forall s, fs_rollouts fs !! rid = Some s -> wave_complete fs m rid s ->
     db_rollouts d' !! rid = Some (row <| row_current_wave := (row_current_wave row + 1)%Z |>)) /\
  ((forall s, fs_rollouts fs !! rid = Some s -> ~ wave_complete fs m rid s) ->
     db_rollouts d' !! rid = Some row) /\
  db_records d' = db_records d /\
  (forall s', fs_rollouts fs' !! rid = Some s' -> exists row', db_rollouts d' !! rid = Some row' /\
     rs_current_wave s' = row_current_wave row').
Proof.
  intros Hinv Hrow Hw fs. pose proof (advance_safe m d fs Hinv) as Hadv.
  unfold advance_current_waves in *.
  destruct (bumps_fold (omap (wave_bump m fs) (hash_iter (fs_rollouts fs))) d fs rid
              (NoDup_bumps m fs)) as [Hin Hout].
  destruct (fold_left bump_one _ (d, fs)) as [d' fs']. simpl in Hin, Hout.
  destruct Hadv as (_ & _ & Hrec & _ & _).
  assert (Hs : forall s, fs_rollouts fs !! rid = Some s -> rs_current_wave s = row_current_wave row).
  { intros s Hs. destruct (fleet_rollouts_Some _ _ _ _ Hs) as (ch & vm & row' & _ & _ & Hr' & ->).
    simpl. by simplify_eq. }
  assert (Hyes : forall s, fs_rollouts fs !! rid = Some s -> wave_complete fs m rid s ->
    db_rollouts d' !! rid = Some (row <| row_current_wave := (row_current_wave row + 1)%Z |>) /\
    fs_rollouts fs' !! rid = Some (s <| rs_current_wave := (row_current_wave row + 1)%Z |>)).
  { intros s Hl Hc. destruct (Hin (u32_wrap (rs_current_wave s + 1))) as [-> ->].
    { apply bumps_spec. eauto. }
    rewrite Hrow, Hl, (Hs _ Hl), u32_wrap_small by lia. simpl. by rewrite Z.max_r by lia. }
  assert (Hno : (forall s, fs_rollouts fs !! rid = Some s -> ~ wave_complete fs m rid s) ->
    db_rollouts d' !! rid = Some row /\ fs_rollouts fs' !! rid = fs_rollouts fs !! rid).
  { intros Hc. destruct Hout as [-> ->]; [|done].
    intros ([rid' w] & -> & (s & Hl & Hc' & _)%bumps_spec)%list_elem_of_fmap. by apply (Hc s). }
  split_and!; [intros s Hl Hc; by apply Hyes with s | by intros Hc; apply Hno | done |].
  intros s' Hs'. destruct (fs_rollouts fs !! rid) as [s|] eqn:Hl.
  - destruct (wave_bump m fs (rid, s)) as [b|] eqn:E.
    + apply wave_bump_spec in E as [Hc _]. destruct (Hyes s eq_refl Hc) as [-> Hv].
      rewrite Hv in Hs'. injection Hs' as <-. by eexists.
    + destruct Hno as [-> Hv].
      { intros s0 [= <-] Hc.
        assert (Hb := proj2 (wave_bump_spec fs m rid s _) (conj Hc eq_refl)). congruence. }
      rewrite Hv in Hs'. injection Hs' as <-. exists row. split; [done | by apply Hs].
  - destruct Hno as [_ Hv]; [done|]. congruence.
Qed.
End promotion.

(** A rollout whose first wave is a host whose activation is deferred. *)
Definition staged_rid : RolloutId := rollout_id.new "stable" "abc".
Definition staged_manifests : SignedManifestSet :=
  MkSignedManifestSet
    (MkVerified (MkFleetResolved 1 {[ "web-1" := sample_host; "web-2" := sample_host ]}
       {[ "stable" := MkChannel "p" 5 180 60 ]} {[ "p" := sample_policy ]}
       {[ "stable" := [MkWave ["web-1"] 0; MkWave ["web-2"] 0] ]} [] [] [] sample_meta) 0)
    {[ "stable" := MkVerified (MkRolloutManifest 1 "stable@abc" "stable" "abc" "hash"
       [MkHostWave "web-1" 0 "/nix/store/new"; MkHostWave "web-2" 1 "/nix/store/new"]
       (MkHealthGate None) [] sample_meta) 0 ]}.
Definition staged_row : RolloutRow :=
  MkRolloutRow staged_rid "stable" "abc" RolloutState.Active 0 None None 0 None None.
Definition staged_db : Db :=
  empty_db <| db_rollouts := {[ staged_rid := staged_row ]} |>
           <| db_records := {[ (staged_rid, "web-1") := sample_deferred ]} |>.

Lemma staged_db_inv : db_inv staged_db.
Proof.
  split.
  - apply map_Forall_singleton. by split.
  - apply map_Forall_singleton. split; [by vm_compute|].
    replace sample_deferred with (run sample_pending sample_deferral).1 by by vm_compute.
    apply run_inv, host_inv_new_pending.
  - intros rid h st Hl. unfold staged_db in Hl. simpl in Hl.
    apply lookup_singleton_Some in Hl as [[= <- <-] <-]. exists staged_row. by vm_compute.
Qed.

Lemma wave_promotion_spec_witness :
  db_rollouts (advance_current_waves (O := list_order) staged_manifests staged_db
    (build_fleet_state (O := list_order) staged_db staged_manifests)).1 !! staged_rid =
  Some (staged_row <| row_current_wave := 1%Z |>).
Proof.
  pose proof (wave_promotion_spec (O := list_order) staged_manifests staged_db staged_rid staged_row
                staged_db_inv ltac:(by vm_compute) ltac:(by vm_compute)) as H.
  cbv zeta in H.
  destruct (advance_current_waves _ _ _) as [d' fs'] eqn:E. destruct H as (H & _). simpl.
  eapply H; [by vm_compute|].
  assert (Hb : wave_bump staged_manifests (build_fleet_state (O := list_order) staged_db staged_manifests)
    (staged_rid, MkRolloutSummary staged_rid "stable" "abc" 0 None 0 []) = Some (staged_rid, 1%Z))
    by by vm_compute.
  by apply wave_bump_spec in Hb as [Hb _].
Defined.
