(* ===== verification/CpSafety.v ===== *)
(** * The control plane: safety and progress of whole runs

    Theorems about every database reached from the empty one by inputs,
    deliveries, retention sweeps and restarts. *)

From S2P Require Import Prelude Proto HostTypes HostTransitions HostProps RolloutMachine.
From S2P Require Import RolloutProps Gates GateProps Planner PlannerProps CpStore CpStoreProps.
From S2P Require Import CpRuntime CpApplierProps CpRuntimeProps CpRuntimeSpecs.
Import Applier Reducer.

(** ** Executable runs *)

Definition cp_run {O : HashOrder} {C : Clock} (inputs : list ReducerInput)
    (s : ReducerState * World) : ReducerState * World :=
  fold_left (fun s i => ((handle_input s.1 i s.2).1.1, (handle_input s.1 i s.2).1.2)) inputs s.

Lemma cp_run_steps {O : HashOrder} {C : Clock} inputs s : rtc cp_step s (cp_run inputs s).
Proof.
  revert s. induction inputs as [|i inputs IH]; intros [rs w]; simpl; [done|].
  eapply rtc_l; [apply cp_input | apply IH].
Qed.

(** The manifests arrive; the three hosts report the target closure. *)
Definition sample_run : list ReducerInput :=
  ReducerInput.ManifestSetUpdated (sample_manifests []) ::
  ((fun h => ReducerInput.HeartbeatReceived h None (Some "/nix/store/new") 5) <$> ["a"; "b"; "c"]).
Definition sample_end : ReducerState * World :=
  cp_run (O := list_order) (C := fun _ => 0%Z) sample_run (initial, MkWorld empty_db 0).

Lemma cp_run_reachable {O : HashOrder} {C : Clock} inputs :
  let s := cp_run inputs (initial, MkWorld empty_db 0) in reachable (s.1, s.2).
Proof. intros s. rewrite <- surjective_pairing. exists 0. apply cp_run_steps. Qed.

Lemma sample_end_reachable :
  reachable (O := list_order) (C := fun _ => 0%Z) (sample_end.1, sample_end.2).
Proof. apply (cp_run_reachable (O := list_order) (C := fun _ => 0%Z) sample_run). Qed.

(** ** Records a plan creates *)

Lemma process_records now e d : db_records (process_rollout_event now e d) = db_records d.
Proof.
  unfold process_rollout_event. destruct (Rollouts.state _ _) as [row|]; [|done].
  destruct (rollout.step _ _ _) as [[r effs]|]; [|done].
  rewrite (fold_left_frame db_records (apply_rollout_effect now) (fun _ => True)); [done | |].
  - by intros d' [].
  - by apply Forall_true.
Qed.

Definition keeps (d d' : Db) : Prop :=
  forall k, is_Some (db_records d !! k) -> is_Some (db_records d' !! k).
#[export] Instance keeps_preorder : PreOrder keeps.
Proof. split; [by intros d k | intros d1 d2 d3 H1 H2 k Hk; by apply H2, H1]. Qed.

Lemma open_host_records m now rid ch d hw :
  db_records (open_host m now rid ch d hw) =
  <[ (rid, hw_hostname hw) := opening_record m now rid ch hw ]> (db_records d).
Proof. unfold open_host. cbv zeta. by rewrite process_records. Qed.

Lemma open_host_keeps m now rid ch d hw : keeps d (open_host m now rid ch d hw).
Proof. intros k Hk. rewrite open_host_records. rewrite lookup_insert_is_Some'. auto. Qed.

Lemma open_hosts_records m now rid ch l d :
  keeps d (fold_left (open_host m now rid ch) l d) /\
  forall hw, hw ∈ l ->
    is_Some (db_records (fold_left (open_host m now rid ch) l d) !! (rid, hw_hostname hw)).
Proof.
  split; [apply (fold_left_rel keeps); intros; apply open_host_keeps|].
  revert d. induction l as [|hw l IH]; intros d hw' Hin; [by apply elem_of_nil in Hin|].
  apply elem_of_cons in Hin as [->|Hin]; simpl; [|by apply IH].
  apply (fold_left_rel keeps); [intros; apply open_host_keeps|].
  rewrite open_host_records, lookup_insert_eq. by eexists.
Qed.

Lemma open_rollout_records m now rid ch ref d :
  keeps d (open_rollout m now rid ch ref d) /\
  forall vm hw, sms_rollouts m !! ch = Some vm -> hw ∈ rm_host_set (inner vm) ->
    is_Some (db_records (open_rollout m now rid ch ref d) !! (rid, hw_hostname hw)).
Proof.
  unfold open_rollout. set (preds := in_flight_predecessors _ _ _).
  match goal with |- context [fold_left _ preds ?x] => set (d2 := x) end.
  set (f := fun d p => process_rollout_event now (RolloutEvent.SuccessorOpened p rid now) d).
  assert (E : db_records (fold_left f preds d2) = db_records d).
  { rewrite (fold_left_frame db_records f (fun _ => True)); [done | | by apply Forall_true].
    intros. apply process_records. }
  set (d3 := fold_left f preds d2) in *.
  destruct (sms_rollouts m !! ch) as [vm|]; simpl.
  2:{ split; [|done]. intros k. by rewrite E. }
  destruct (open_hosts_records m now rid ch (rm_host_set (inner vm)) d3) as [Hk Hin].
  split; [|intros vm' hw [= <-]; apply Hin]. intros k Hs. apply Hk. by rewrite E.
Qed.

Section plans.
Context {O : HashOrder} {C : Clock}.

Lemma apply_plan_action_keeps m w a : keeps (w_db w) (w_db (apply_plan_action m w a)).
Proof. destruct a; simpl; [apply open_rollout_records | by intros k..]. Qed.

Lemma apply_plan_keeps m actions w :
  keeps (w_db w) (w_db (fold_left (apply_plan_action m) actions w)).
Proof.
  revert w. induction actions as [|a actions IH]; intros w; simpl; [done|].
  etrans; [apply apply_plan_action_keeps | apply IH].
Qed.

(** An opening action leaves a row, and a record per host of the manifest. *)
Lemma apply_plan_opens m actions w rid ch ref :
  db_inv (w_db w) ->
  (forall a rid, a ∈ actions -> opens a = Some rid -> may_open rid (w_db w)) ->
  PlanAction.OpenRollout rid ch ref ∈ actions ->
  let d' := w_db (fold_left (apply_plan_action m) actions w) in
  is_Some (db_rollouts d' !! rid) /\
  forall vm hw, sms_rollouts m !! ch = Some vm -> hw ∈ rm_host_set (inner vm) ->
    is_Some (db_records d' !! (rid, hw_hostname hw)).
Proof.
  revert w. induction actions as [|a actions IH]; intros w Hinv Hmay Hin; [by apply elem_of_nil in Hin|].
  cbn [fold_left]. destruct (apply_plan_action_safe m w a Hinv) as [Hinv' Hg].
  { intros rid'. apply Hmay. left. }
  assert (Hmay' : forall b rid, b ∈ actions -> opens b = Some rid ->
            may_open rid (w_db (apply_plan_action m w a))).
  { intros b rid' Hb Ho. eapply may_open_grows; [apply (Hmay b rid'); [by right | done] | done]. }
  apply elem_of_cons in Hin as [<-|Hin]; [|by apply IH].
  set (w1 := apply_plan_action m w (PlanAction.OpenRollout rid ch ref)) in *.
  destruct (apply_plan_safe m actions w1 Hinv' Hmay') as [_ Hg'].
  pose proof (apply_plan_keeps m actions w1) as Hk. split.
  - apply (gr_rows _ _ Hg').
    destruct (open_rollout_safe m (clock_reading (w_reads w)) rid ch ref (w_db w) Hinv)
      as (_ & _ & row & Hrow & _); [apply (Hmay (PlanAction.OpenRollout rid ch ref)); [left | done]|].
    by exists row.
  - intros vm hw Hvm Hhw. apply Hk. simpl. by eapply open_rollout_records.
Qed.

End plans.

(** ** Properties *)

(** A rollout's row tells the truth about its hosts.  In every reachable
    database, a host record belongs to an existing rollout that has left
    [Opening]; a [Terminal] rollout has only [Converged] hosts, and an [Active]
    one no [Failed] or [Reverted] host, so one failed host takes its rollout
    out of [Active]; and no rollout is ever [Converging], [Reverted] or
    [Pruned]. *)
Theorem rollout_state_reflects_hosts {O : HashOrder} {C : Clock} (rs : ReducerState) (w : World) :
  reachable (rs, w) ->
  (forall rid h st, db_records (w_db w) !! (rid, h) = Some st ->
     hs_rollout_id st = rid /\ hs_hostname st = h /\
     exists row, db_rollouts (w_db w) !! rid = Some row /\ row_state row <> RolloutState.Opening /\
       (row_state row = RolloutState.Terminal -> hs_state st = HostState.Converged) /\
       (failure_state (hs_state st) = true ->
          row_state row = RolloutState.Failed \/ row_state row = RolloutState.Superseded)) /\
  (forall rid row, db_rollouts (w_db w) !! rid = Some row ->
     row_rollout_id row = rid /\ reached_state (row_state row)).
Proof.
  intros H%reachable_inv. simpl in H. split.
  - intros rid h st Hl. destruct (tbi_records _ _ H _ _ Hl) as [[= Hr Hh] _].
    destruct (tbi_agree _ _ H _ _ _ Hl) as (row & Hrow & Hag).
    split_and!; [done..|]. exists row. split; [done|].
    destruct (row_state row); simpl in Hag; try done; split_and!; try done; intros; auto.
    + congruence.
    + by rewrite Hag in *.
  - intros rid row Hrow. by destruct (tbi_rows _ _ H _ _ Hrow).
Qed.

Lemma rollout_state_reflects_hosts_witness :
  row_state <$> db_rollouts (w_db sample_end.2) !! sample_rid = Some RolloutState.Terminal /\
  (hs_state <$> db_records (w_db sample_end.2) !! (sample_rid, "b")) = Some HostState.Converged.
Proof.
  destruct (rollout_state_reflects_hosts (O := list_order) (C := fun _ => 0%Z) sample_end.1
              sample_end.2 sample_end_reachable) as [H _].
  assert (Hb : exists st, db_records (w_db sample_end.2) !! (sample_rid, "b") = Some st)
    by (eexists; vm_compute; reflexivity).
  destruct Hb as [st Hst]. destruct (H _ _ _ Hst) as (_ & _ & row & Hrow & _ & Ht & _).
  assert (E : row_state <$> db_rollouts (w_db sample_end.2) !! sample_rid =
              Some RolloutState.Terminal) by by vm_compute.
  split; [done|]. rewrite Hrow in E. simpl in E. rewrite Hst. simpl. f_equal. apply Ht. congruence.
Defined.

(** C19.  The release signal is sound.  When a reachable database says a rollout
    is [Terminal] (what channel edges and the status page act on), every host
    recorded for it runs its target closure, converged no earlier than its soak
    deadline, and passed every enforce-mode probe recorded for it. *)
Theorem terminal_rollout_is_converged {O : HashOrder} {C : Clock} (rs : ReducerState) (w : World)
    (rid : RolloutId) (row : RolloutRow) (h : string) (st : HostRolloutState) :
  reachable (rs, w) ->
  db_rollouts (w_db w) !! rid = Some row -> row_state row = RolloutState.Terminal ->
  db_records (w_db w) !! (rid, h) = Some st ->
  hs_current_closure st = Some (hs_target_closure st) /\
  exists at_, hs_converged_at st = Some at_ /\
    (forall due, hs_soak_due_at st = Some due -> (due <= at_)%Z) /\
    forall name pr, hs_probes st !! name = Some pr -> pr_mode pr = ProbeMode.Enforce ->
      pr_status pr = ProbeStatus.Pass.
Proof.
  intros H%reachable_inv Hrow Ht Hl. simpl in H.
  pose proof (tables_inv_agrees _ _ _ _ _ _ H Hl Hrow) as Hag. rewrite Ht in Hag. simpl in Hag.
  destruct (tbi_records _ _ H _ _ Hl) as [_ Hst].
  destruct (proj2 (inv_converged _ Hst) Hag) as [at_ Hat].
  destruct (inv_converged_evidence _ Hst _ Hat) as [Hc (_ & Hdue & Hp)]. eauto.
Qed.

Lemma terminal_rollout_is_converged_witness :
  exists st, db_records (w_db sample_end.2) !! (sample_rid, "c") = Some st /\
             hs_current_closure st = Some (hs_target_closure st).
Proof.
  assert (Hc : exists st, db_records (w_db sample_end.2) !! (sample_rid, "c") = Some st)
    by (eexists; vm_compute; reflexivity).
  assert (Hr : exists row, db_rollouts (w_db sample_end.2) !! sample_rid = Some row /\
                           row_state row = RolloutState.Terminal)
    by (eexists; split; vm_compute; reflexivity).
  destruct Hc as [st Hst], Hr as (row & Hrow & Ht). exists st. split; [done|].
  by apply (terminal_rollout_is_converged (O := list_order) (C := fun _ => 0%Z) sample_end.1
              sample_end.2 sample_rid row "c" st sample_end_reachable Hrow Ht Hst).
Defined.

(** Outstanding failures never clear.  Once a host has an enforce-mode
    failure recorded under a rollout, every later database counts it, whatever
    passes later: the count the compliance gate reads never goes down.  So a
    transient failure in an early wave holds the later waves of that rollout. *)
Theorem outstanding_failures_never_clear {O : HashOrder} {C : Clock}
    (s s' : ReducerState * World) (m m' : SignedManifestSet) (rid : RolloutId) (h : string) (n : Z) :
  let count (s : ReducerState * World) m :=
    (fs_outstanding_failing_enforce_probes (build_fleet_state (w_db s.2) m) !! rid)
      ≫= (fun per_host => per_host !! h) in
  reachable s -> rtc cp_step s s' -> count s m = Some n ->
  exists n', count s' m' = Some n' /\ (0 < n <= n')%Z.
Proof.
  intros count Hs%reachable_inv Hss'.
  destruct (cp_steps_safe _ _ Hss' Hs) as [_ [[rows Hrows] _ _]].
  assert (Hc : forall s m, count s m = outstanding (db_failures (w_db s.2)) rid h).
  { intros s0 m0. unfold count, build_fleet_state. destruct (fold_left _ _ _). done. }
  rewrite !Hc, Hrows. intros Hn. destruct (outstanding_app _ rows _ _ _ Hn) as (n' & Hn' & Hle).
  exists n'. split; [done|]. split; [|done].
  rewrite outstanding_spec in Hn. case_decide as Hd; [|done]. injection Hn as <-.
  by apply group_count_pos.
Qed.

(** Host [a] fails a probe while it soaks and passes it one minute later. *)
Definition transient_failure : list ReducerInput :=
  ReducerInput.ManifestSetUpdated (sample_manifests []) ::
  (ReducerInput.HostEvent "a" sample_rid <$>
   [ Event.RemoteDispatchAck "/nix/store/old" 1 1;
     Event.RemoteActivationCompleted "/nix/store/new" 0 2 2;
     Event.RemoteProbeResult "http" ProbeMode.Enforce ProbeStatus.Fail 3 None None 3 ]).
Definition later_pass : list ReducerInput :=
  [ReducerInput.HostEvent "a" sample_rid
     (Event.RemoteProbeResult "http" ProbeMode.Enforce ProbeStatus.Pass 4 None None 4)].

Lemma outstanding_failures_never_clear_witness :
  let s := cp_run (O := list_order) (C := fun _ => 0%Z) transient_failure
             (initial, MkWorld empty_db 0) in
  let s' := cp_run (O := list_order) (C := fun _ => 0%Z) later_pass s in
  exists n', (fs_outstanding_failing_enforce_probes
      (build_fleet_state (O := list_order) (w_db s'.2) (sample_manifests [])) !! sample_rid)
        ≫= (fun per_host => per_host !! "a") = Some n' /\ (0 < 1 <= n')%Z.
Proof.
  intros s s'.
  apply (outstanding_failures_never_clear (O := list_order) (C := fun _ => 0%Z) s s'
           (sample_manifests []) (sample_manifests []) sample_rid "a" 1).
  - exists 0. apply cp_run_steps.
  - apply cp_run_steps.
  - by vm_compute.
Defined.

(** The history only grows: no input, delivery, sweep, turn of the log writer or
    restart drops a recorded probe failure or a quarantine, and what is sent to
    the log is added at the end of what was. *)
Theorem history_only_grows {O : HashOrder} {C : Clock} (s s' : ReducerState * World) :
  reachable s -> rtc cp_step s s' ->
  db_log_sent (w_db s.2) `prefix_of` db_log_sent (w_db s'.2) /\
  db_failures (w_db s.2) `prefix_of` db_failures (w_db s'.2) /\
  db_quarantines (w_db s.2) ⊆ db_quarantines (w_db s'.2).
Proof. intros Hs%reachable_inv Hss'. by destruct (cp_steps_safe _ _ Hss' Hs) as [_ []]. Qed.

Lemma history_only_grows_witness :
  db_quarantines empty_db ⊆ db_quarantines (w_db sample_end.2).
Proof.
  apply (history_only_grows (O := list_order) (C := fun _ => 0%Z)
           (initial, MkWorld empty_db 0) sample_end).
  - by exists 0.
  - apply cp_run_steps.
Defined.

(** The quarantine gate is inert.  The set of quarantined closures the
    planner and the recovery path are given is empty in every reachable state,
    whatever the [quarantined_closures] table holds, so no evaluation of the
    gates in the running control plane reports [Quarantined]. *)
Theorem quarantine_gate_is_inert {O : HashOrder} {C : Clock} (rs : ReducerState) (w : World)
    (m : SignedManifestSet) (fs : FleetState) (rid : RolloutId) (host target channel : string)
    (tick : gmap Selector u32) (ch c : string) :
  reachable (rs, w) ->
  rd_quarantines rs = ∅ /\
  evaluate_for_dispatch fs m (rd_quarantines rs) rid host target channel tick <>
    Some (GateBlock.Quarantined ch c).
Proof.
  intros [reads H].
  assert (E : rd_quarantines rs = ∅).
  { remember (initial, MkWorld empty_db reads) as s0 eqn:H0. change rs with (rs, w).1.
    assert (E0 : rd_quarantines s0.1 = ∅) by by rewrite H0. clear H0.
    induction H as [|s1 s2 s3 H12 _ IH]; [done|]. apply IH.
    destruct H12 as [rs1 w1 [] | | | | ]; simpl in *; done. }
  split; [done|]. rewrite E. intros Hb. unfold evaluate_for_dispatch in Hb.
  unfold quarantine.check in Hb. rewrite lookup_empty in Hb.
  destruct (channel_edges.check fs m channel) eqn:H1.
  { apply channel_edges_blocks in H1 as (? & -> & _). done. }
  destruct (wave_promotion.check fs m host rid) eqn:H2.
  { apply wave_promotion_blocks in H2 as [[[? ->] _]|(? & -> & _)]; done. }
  destruct (host_edges.check fs m host rid) eqn:H3.
  { apply host_edges_blocks in H3 as (? & -> & _). done. }
  destruct (disruption_budget.check fs rid host tick) eqn:H4.
  { apply disruption_budget_blocks in H4 as (? & ? & ? & -> & _). done. }
  by apply compliance_wave_blocks in Hb as (? & ? & Hb & _).
Qed.

(** A host that rolled back: its closure is quarantined in the database. *)
Definition rolled_back : list ReducerInput :=
  ReducerInput.ManifestSetUpdated (sample_manifests []) ::
  (ReducerInput.HostEvent "a" sample_rid <$>
   [ Event.RemoteDispatchAck "/nix/store/old" 1 1;
     Event.RemoteActivationFailed 1 "boom" 2 2;
     Event.RemoteRollbackComplete "/nix/store/old" 0 3 3 ]).

Lemma quarantine_gate_is_inert_witness :
  let s := cp_run (O := list_order) (C := fun _ => 0%Z) rolled_back (initial, MkWorld empty_db 0) in
  QuarantinedClosures.active_by_channel (O := list_order) (db_quarantines (w_db s.2)) =
    {[ "stable" := {[ "/nix/store/new" ]} ]} /\
  rd_quarantines s.1 = ∅.
Proof.
  intros s. split; [by vm_compute|].
  apply (quarantine_gate_is_inert (O := list_order) (C := fun _ => 0%Z) s.1 s.2 (sample_manifests [])
           (sample_fleet_state []) sample_rid "b" "/nix/store/new" "stable" ∅ "stable" "/nix/store/new").
  apply (cp_run_reachable (O := list_order) (C := fun _ => 0%Z) rolled_back).
Defined.

(** Every advertised rollout gets opened.  After one plan, whatever the
    database held, each channel of the cached manifests has the row of the
    rollout it advertises; and a rollout that had no row before has a record
    for every host of its manifest. *)
Theorem plan_opens_every_advertised_rollout {O : HashOrder} {C : Clock} (rs : ReducerState)
    (w : World) (m : SignedManifestSet) (ch : string) (vm : Verified RolloutManifest) :
  let rid := channel_rollout (ch, vm) in
  let d' := w_db (run_plan rs w) in
  reachable (rs, w) -> rd_manifests rs = Some m -> sms_rollouts m !! ch = Some vm ->
  is_Some (db_rollouts d' !! rid) /\
  (db_rollouts (w_db w) !! rid = None ->
   forall hw, hw ∈ rm_host_set (inner vm) -> is_Some (db_records d' !! (rid, hw_hostname hw))).
Proof.
  intros rid d' Hinv%reachable_inv Hm Hvm. simpl in Hinv.
  destruct (db_rollouts (w_db w) !! rid) as [row|] eqn:Hrow.
  { split; [|done]. apply (gr_rows _ _ (proj2 (run_plan_safe rs w Hinv))). by exists row. }
  enough (is_Some (db_rollouts d' !! rid) /\ forall hw, hw ∈ rm_host_set (inner vm) ->
            is_Some (db_records d' !! (rid, hw_hostname hw))) as []; [done|].
  unfold d', run_plan. rewrite Hm. simpl. set (fs := build_fleet_state (w_db w) m).
  pose proof (advance_safe m (w_db w) fs Hinv) as Hadv.
  destruct (advance_current_waves m (w_db w) fs) as [d fs'].
  destruct Hadv as (Hinv1 & _ & _ & Hview & Hrow1).
  set (actions := plan_next _ _ _ _). set (w1 := MkWorld d _).
  destruct (apply_plan_opens m actions w1 rid ch (rm_channel_ref (inner vm))) as [H1 H2].
  - done.
  - intros a rid' Hin Ho. left. by eapply (plan_opens_absent (w_db w)).
  - apply (plan_opens m fs' (rd_quarantines rs) (clock_reading (w_reads w)) ch vm Hvm).
    apply eq_None_not_Some. intros [s Hs]%Hview. apply fleet_rollouts_Some in Hs.
    destruct Hs as (? & ? & row & _ & _ & Hr & _). unfold rid, channel_rollout in Hrow.
    simpl in Hrow. congruence.
  - split; [done|]. intros hw. by apply H2.
Qed.

Lemma plan_opens_every_advertised_rollout_witness :
  let s := cp_run (O := list_order) (C := fun _ => 0%Z)
             [ReducerInput.ManifestSetUpdated (sample_manifests [])]
             (initial, MkWorld empty_db 0) in
  is_Some (db_rollouts (w_db (run_plan (O := list_order) (C := fun _ => 0%Z) s.1 s.2)) !! sample_rid).
Proof.
  intros s.
  apply (plan_opens_every_advertised_rollout (O := list_order) (C := fun _ => 0%Z) s.1 s.2
           (sample_manifests []) "stable" (MkVerified (sample_manifest []) 0)).
  - apply (cp_run_reachable (O := list_order) (C := fun _ => 0%Z)
             [ReducerInput.ManifestSetUpdated (sample_manifests [])]).
  - by vm_compute.
  - by vm_compute.
Defined.
