(* ===== verification/CpHistory.v ===== *)
(** * The control plane's tables and its event log

    What every operation writes, it sends to the log too: the tables that the
    schema calls derived views are the replay of what was sent, queued dispatches
    are under their keys with the log entry of a dispatch, and the sequence
    numbers stay in the range their columns can hold.  The table of the log is a
    sublist of what was sent; what follows when entries were lost is said beside.
    The times of a record are those of the agents and need not be printable. *)

From S2P Require Import Prelude Proto HostTypes HostTransitions HostProps RolloutMachine.
From S2P Require Import RolloutProps Gates Planner PlannerProps CpStore CpStoreProps CpRuntime.
From S2P Require Import CpApplierProps CpRuntimeProps CpSafety.
Import Applier Reducer.

(** ** Replaying a log *)

Definition failures_of_entry (e : EventLogEntry) : list ProbeFailureInsert :=
  match le_payload e, le_host_id e, le_rollout_id e with
  | LogPayload.Agent payload, Some host, Some rid => probe_failure_rows rid host payload
  | _, _, _ => []
  end.

Definition replay_failures (log : list EventLogEntry) : FailuresTable := log ≫= failures_of_entry.

Definition quarantine_entry (t : QuarantineTable) (e : EventLogEntry) : QuarantineTable :=
  match le_payload e with
  | LogPayload.Quarantine channel closure => QuarantinedClosures.insert channel closure (le_ts e) None t
  | _ => t
  end.

Definition replay_quarantines (log : list EventLogEntry) : QuarantineTable :=
  fold_left quarantine_entry log ∅.

(** The entry that goes with a queued row. *)
Definition dispatch_entry (q : QueuedDispatch) : EventLogEntry :=
  MkEventLogEntry EventLogKind.PlanAction (qd_enqueued_at q) (Some (qd_hostname q))
    (Some (qd_rollout_id q))
    (LogPayload.QueueDispatch (qd_hostname q) (qd_rollout_id q) (qd_target_closure q)
       (qd_soak_due_at q)).

Definition queue_key (q : QueuedDispatch) : string * RolloutId := (qd_hostname q, qd_rollout_id q).

(** Every entry was sent once: those in the table and, after them, those in the
    channel are some of the entries sent, in order. *)
Definition accounted (d : Db) : Prop :=
  db_event_log d ++ db_log_channel d `sublist_of` db_log_sent d.

(** What an operation sends to the log accounts for what it does to the three
    tables. *)
Record logged (d d' : Db) : Prop := {
  lg_failures : exists more, db_log_sent d' = db_log_sent d ++ more /\
    db_failures d' = db_failures d ++ replay_failures more /\
    db_quarantines d' = fold_left quarantine_entry more (db_quarantines d) /\
    forall k q, db_queue d' !! k = Some q ->
      db_queue d !! k = Some q \/ k = queue_key q /\ dispatch_entry q ∈ more;
  lg_accounted : accounted d -> accounted d';
  lg_table : db_event_log d `prefix_of` db_event_log d';
}.

#[export] Instance logged_preorder : PreOrder logged.
Proof.
  split.
  - intros d. split; [|done..]. exists []. rewrite !app_nil_r. split_and!; auto.
  - intros d1 d2 d3 [(m1 & L1 & F1 & Q1 & D1) A1 T1] [(m2 & L2 & F2 & Q2 & D2) A2 T2].
    split; [|auto | by etrans]. exists (m1 ++ m2). rewrite L2, L1, F2, F1, Q2, Q1, fold_left_app, <- !app_assoc. unfold replay_failures.
    rewrite bind_app. split_and!; [done..|].
    intros k q [Hq|[-> Hin]]%D2; [destruct (D1 k q Hq) as [|[-> Hin]]; [by left|]|];
      right; rewrite elem_of_app; auto.
Qed.

(** ** One operation at a time *)

(** Operations that touch none of the three tables and log nothing that
    would. *)
Definition plain_payload (p : LogPayload.t) : Prop :=
  match p with LogPayload.Agent _ | LogPayload.Quarantine _ _ => False | _ => True end.

Lemma accounted_send es d d' :
  db_event_log d' = db_event_log d -> db_log_channel d' = db_log_channel d ++ es ->
  db_log_sent d' = db_log_sent d ++ es -> accounted d -> accounted d'.
Proof.
  unfold accounted. intros -> -> -> H. rewrite app_assoc. by apply sublist_app.
Qed.

Lemma accounted_write ok d : accounted d -> accounted (write_log_entry ok d).
Proof.
  unfold accounted, write_log_entry. destruct (db_log_channel d) as [|e rest] eqn:E; [by rewrite E|].
  simpl. intros H. etrans; [|exact H]. destruct ok; [by rewrite <- app_assoc|].
  apply sublist_app; [done | by apply sublist_cons].
Qed.

Lemma write_log_entry_table ok d : db_event_log d `prefix_of` db_event_log (write_log_entry ok d).
Proof.
  unfold write_log_entry. destruct (db_log_channel d); [done|]. destruct ok; [by eexists | done].
Qed.

Lemma logged_append ts h r k p d : plain_payload p -> logged d (append_event_log ts h r k p d).
Proof.
  intros Hp. split; [|by apply (accounted_send [MkEventLogEntry k ts h r p])|done]. exists [MkEventLogEntry k ts h r p]. simpl.
  unfold replay_failures, quarantine_entry. destruct p; try done; simpl;
    rewrite ?app_nil_r; split_and!; auto.
Qed.

Lemma logged_rollouts d t : logged d (d <| db_rollouts := t |>).
Proof. split; [|done..]. exists []. simpl. rewrite !app_nil_r. split_and!; auto. Qed.

Lemma logged_records d t : logged d (d <| db_records := t |>).
Proof. split; [|done..]. exists []. simpl. rewrite !app_nil_r. split_and!; auto. Qed.

Lemma logged_queue_subset d t : t ⊆ db_queue d -> logged d (d <| db_queue := t |>).
Proof.
  intros Ht. split; [|done..]. exists []. simpl. rewrite !app_nil_r. split_and!; [done..|].
  intros k q Hq. left. by eapply lookup_weaken.
Qed.

Create HintDb history.
#[local] Hint Resolve logged_append logged_rollouts logged_records : history.

(** The rollout machine asks for no quarantine. *)
Definition tame (x : RolloutEffect) : Prop :=
  match x with RolloutEffect.InsertQuarantineFromRollout _ _ => False | _ => True end.

Lemma rollout_effects_tame r e s' : Forall tame (rollout_effects r e s').
Proof. unfold rollout_effects. apply Forall_app_2; case_match; by repeat constructor. Qed.

Lemma apply_rollout_effect_logged now d x : tame x -> logged d (apply_rollout_effect now d x).
Proof.
  destruct x; intros Hx; cbn [apply_rollout_effect]; [|by auto with history|done|done].
  etrans; [apply logged_rollouts|]. by apply logged_append.
Qed.

Lemma fold_logged {A} (P : A -> Prop) (f : Db -> A -> Db) l d :
  (forall d x, P x -> logged d (f d x)) -> Forall P l -> logged d (fold_left f l d).
Proof.
  intros Hf Hl. revert d. induction Hl as [|x l Hx Hl IH]; intros d; simpl; [done|].
  etrans; [by apply Hf | apply IH].
Qed.

Lemma process_logged now e d : logged d (process_rollout_event now e d).
Proof.
  unfold process_rollout_event. destruct (Rollouts.state _ _) as [row|]; [|done].
  pose proof (rollout_step_table (record_of_row row) e now) as T.
  destruct (rollout_table _ _) as [s'| |]; rewrite T; [|by apply logged_append..].
  etrans; [|eapply fold_logged; [apply apply_rollout_effect_logged | apply rollout_effects_tame]].
  by apply logged_append.
Qed.

Lemma open_host_logged m now rid ch d hw : logged d (open_host m now rid ch d hw).
Proof. unfold open_host. etrans; [apply logged_records | apply process_logged]. Qed.

Lemma open_rollout_logged m now rid ch ref d : logged d (open_rollout m now rid ch ref d).
Proof.
  unfold open_rollout. set (preds := in_flight_predecessors _ _ _).
  match goal with |- context [fold_left ?f preds ?x] => set (d2 := x); set (d3 := fold_left f preds d2) end.
  assert (H : logged d d3).
  { unfold d3, d2. etrans; [|apply (fold_logged (fun _ => True)); [|by apply Forall_true]].
    - etrans; [apply logged_rollouts | by apply logged_append].
    - intros. apply process_logged. }
  destruct (inner <$> _) as [vm|]; [|exact H]. etrans; [exact H|].
  etrans; [|by apply logged_append].
  apply (fold_logged (fun _ => True)); [|by apply Forall_true]. intros. apply open_host_logged.
Qed.

Lemma queue_dispatch_logged now host rid target soak d :
  logged d (queue_dispatch now host rid target soak d).
Proof.
  set (q0 := MkQueuedDispatch host rid target soak now).
  split; [|by apply (accounted_send [dispatch_entry q0])|done]. exists [dispatch_entry q0].
  unfold replay_failures. simpl. rewrite app_nil_r. split_and!; [done..|].
  unfold DispatchQueue.upsert. intros k q [[<- <-]|[_ Hq]]%lookup_insert_Some; [|by left].
  right. split; [done|]. by left.
Qed.

Lemma apply_effect_at_logged m now x d : logged d (apply_effect_at m now x d).
Proof.
  destruct x; cbn [apply_effect_at]; try done.
  - apply queue_dispatch_logged.
  - set (x := MkEventLogEntry EventLogKind.Effect now None None (LogPayload.Quarantine channel closure)).
    split; [|by apply (accounted_send [x])|done]. exists [x].
    unfold replay_failures. simpl. rewrite app_nil_r. split_and!; auto.
  - unfold open_one_rollout_record. destruct (inner <$> _) as [vm|]; [|done].
    destruct (List.find _ _) as [hw|]; [|done].
    etrans; [apply logged_records | by apply logged_append].
  - set (x := MkEventLogEntry EventLogKind.AgentEvent now (Some host) (Some rollout_id)
                (LogPayload.Agent payload)).
    split; [|by apply (accounted_send [x])|done]. exists [x].
    unfold replay_failures. simpl. rewrite app_nil_r. split_and!; auto.
  - by apply logged_append.
Qed.

Lemma compose_rollout_logged {O : HashOrder} now h rid from to d :
  logged d (compose_rollout now h rid from to d).
Proof.
  unfold compose_rollout. case_bool; [done|]. etrans; [apply process_logged|].
  case_match; [apply process_logged | done].
Qed.

(** ** Inputs and steps *)

Section inputs.
Context {O : HashOrder} {C : Clock}.

(** On worlds. *)
Definition wlogged (w w' : World) : Prop := logged (w_db w) (w_db w').
#[local] Instance wlogged_preorder : PreOrder wlogged.
Proof. unfold wlogged. split; [by intros w | intros w1 w2 w3 ??; by etrans]. Qed.

Lemma fold_wlogged {A} (f : World -> A -> World) l w :
  (forall w x, wlogged w (f w x)) -> wlogged w (fold_left f l w).
Proof. intros Hf. by apply (fold_left_rel wlogged). Qed.

Lemma handle_host_event_logged rs host rid e w : wlogged w (handle_host_event rs host rid e w).
Proof.
  unfold handle_host_event. destruct (HostRolloutRecords.load _ _ _) as [prior|]; [|done].
  destruct (Z.leb _ _); [done|]. destruct (rd_manifests rs) as [m|]; [|done].
  destruct (resolve_policy _ _) as [policy|]; [|done]. simpl.
  destruct (HostTransitions.step _ _ _ _) as [[next effs]|]; [|by unfold wlogged].
  unfold wlogged. etrans; [|apply compose_rollout_logged].
  etrans; [|apply (fold_wlogged (apply_effect m)); intros; apply apply_effect_at_logged].
  apply logged_records.
Qed.

Lemma bump_one_logged acc b : logged acc.1 (bump_one acc b).1.
Proof. destruct acc as [d fs], b as [rid wave]. apply logged_rollouts. Qed.

Lemma run_plan_logged rs w : wlogged w (run_plan rs w).
Proof.
  unfold run_plan. destruct (rd_manifests rs) as [m|]; [|done]. simpl.
  unfold advance_current_waves. generalize (omap (wave_bump m (build_fleet_state (w_db w) m))
    (hash_iter (fs_rollouts (build_fleet_state (w_db w) m)))).
  generalize (build_fleet_state (w_db w) m). intros fs bumps.
  assert (H : logged (w_db w) (fold_left bump_one bumps (w_db w, fs)).1).
  { change (w_db w) with (w_db w, fs).1 at 1.
    generalize (w_db w, fs). induction bumps as [|b bumps IH]; intros acc; [done|].
    etrans; [apply bump_one_logged | apply IH]. }
  destruct (fold_left _ _ _) as [d fs']. simpl in H. unfold wlogged.
  etrans; [exact H|].
  match goal with |- logged d (w_db (fold_left _ _ ?x)) => change d with (w_db x) end.
  apply (fold_wlogged (apply_plan_action m)).
  intros w' []; unfold wlogged; simpl; [apply open_rollout_logged | apply queue_dispatch_logged | by apply logged_append..].
Qed.

Lemma recover_record_logged rs host c at_ w r : wlogged w (recover_record rs host c at_ w r).
Proof.
  unfold recover_record. destruct (hs_state r); try done; case_bool; try done;
    try apply handle_host_event_logged.
  destruct (match rd_manifests rs with Some _ => _ | None => _ end); [done|].
  unfold synthesize_pending_to_converged. etrans; [apply handle_host_event_logged|].
  etrans; [apply handle_host_event_logged|].
  destruct (HostRolloutRecords.load _ _ _); [apply handle_host_event_logged | done].
Qed.

Lemma handle_input_logged rs i w : wlogged w (handle_input rs i w).1.2.
Proof.
  destruct i as [host rid e|set|host rid [c|] at_|]; simpl.
  - apply handle_host_event_logged.
  - apply run_plan_logged.
  - apply fold_wlogged. intros. apply recover_record_logged.
  - done.
  - apply run_plan_logged.
Qed.

Lemma take_for_host_subset host t : (DispatchQueue.take_for_host host t).2 ⊆ t.
Proof. unfold DispatchQueue.take_for_host. case_match; [done | apply delete_subseteq]. Qed.

Lemma cp_step_logged s s' : cp_step s s' -> logged (w_db s.2) (w_db s'.2).
Proof.
  intros [rs w i|rs w host|rs w now hours|rs w ok|rs w]; simpl.
  - apply handle_input_logged.
  - apply logged_queue_subset, take_for_host_subset.
  - split; [|done..]. exists []. simpl. rewrite !app_nil_r. split_and!; auto.
  - destruct (write_log_entry_tables ok (w_db w)) as (_ & _ & Q & K & F & L).
    split; [|apply accounted_write | apply write_log_entry_table]. exists []. rewrite Q, K, F, L, !app_nil_r. split_and!; auto.
  - split; [exists []; simpl; rewrite !app_nil_r; split_and!; auto| |done].
    unfold accounted. simpl. rewrite app_nil_r. intros H. etrans; [|exact H].
    by apply sublist_inserts_r.
Qed.

Lemma cp_steps_logged s s' : rtc cp_step s s' -> logged (w_db s.2) (w_db s'.2).
Proof. induction 1 as [|s1 s2 s3 H12 _ IH]; [done|]. etrans; [by apply cp_step_logged | done]. Qed.

End inputs.

(** ** Sequence numbers stay within their columns *)

Section ranges.
Context {O : HashOrder} {C : Clock}.

Definition seqs_fit (d : Db) : Prop :=
  map_Forall (fun _ st => (0 <= hs_last_event_seq st <= u64_max)%Z) (db_records d).

(** Inputs as they come off the wire: a sequence number is a [u64]. *)
Definition typed_input (i : ReducerInput) : Prop :=
  match i with
  | ReducerInput.HostEvent _ _ e => (0 <= Event.seq e <= u64_max)%Z
  | _ => True
  end.

(** The states reached by such inputs, deliveries, sweeps, turns of the log writer
    and restarts. *)
Inductive typed_reach : ReducerState * World -> Prop :=
| tr_initial reads : typed_reach (initial, MkWorld empty_db reads)
| tr_input rs w i : typed_reach (rs, w) -> typed_input i ->
    typed_reach ((handle_input rs i w).1.1, (handle_input rs i w).1.2)
| tr_deliver rs w host : typed_reach (rs, w) ->
    typed_reach (rs, on_db (fun d => d <| db_queue := (DispatchQueue.take_for_host host (db_queue d)).2 |>) w)
| tr_prune rs w now hours : typed_reach (rs, w) ->
    typed_reach (rs, on_db (fun d => (prune_finished_rollouts now hours d).1) w)
| tr_write rs w ok : typed_reach (rs, w) -> typed_reach (rs, on_db (write_log_entry ok) w)
| tr_restart rs w : typed_reach (rs, w) -> typed_reach (initial, on_db lose_log_channel w).

Lemma typed_reachable s : typed_reach s -> reachable s.
Proof.
  induction 1 as [reads|rs w i _ [r H] _|rs w host _ [r H]|rs w now hours _ [r H]|rs w ok _ [r H]|rs w _ [r H]].
  - by exists reads.
  - exists r. eapply rtc_r; [done | apply cp_input].
  - exists r. eapply rtc_r; [done | apply cp_deliver].
  - exists r. eapply rtc_r; [done | apply cp_prune].
  - exists r. eapply rtc_r; [done | apply cp_write].
  - exists r. eapply rtc_r; [done | apply cp_restart].
Qed.

Lemma handle_host_event_seqs rs host rid e w :
  db_inv (w_db w) -> (0 <= Event.seq e <= u64_max)%Z -> seqs_fit (w_db w) ->
  seqs_fit (w_db (handle_host_event rs host rid e w)).
Proof.
  intros Hinv He Hfit. destruct (host_event_outcome rs host rid e w) as [[[prior next] effs]|] eqn:Ho.
  2:{ by rewrite handle_host_event_dropped. }
  destruct (handle_host_event_accepted _ _ _ _ _ _ _ _ Hinv Ho) as (E & _).
  unfold seqs_fit. rewrite E. apply map_Forall_insert_2; [|done].
  unfold host_event_outcome in Ho.
  destruct (db_records (w_db w) !! (rid, host)) as [prior'|]; simpl in Ho; [|done].
  destruct (rd_manifests rs) as [m|]; simpl in Ho; [|done].
  destruct (resolve_policy m _) as [policy|]; simpl in Ho; [|done].
  destruct (HostTransitions.step _ _ _ _) as [[next' effs']|err] eqn:Hstep; [|done].
  injection Ho as -> -> ->. apply step_seq in Hstep as [_ Hseq]. by rewrite Hseq.
Qed.

Lemma open_host_seqs m now rid ch d hw : seqs_fit d -> seqs_fit (open_host m now rid ch d hw).
Proof.
  intros H. unfold seqs_fit. rewrite open_host_records. by apply map_Forall_insert_2.
Qed.

Lemma open_rollout_seqs m now rid ch ref d : seqs_fit d -> seqs_fit (open_rollout m now rid ch ref d).
Proof.
  intros H. unfold open_rollout. set (preds := in_flight_predecessors _ _ _).
  match goal with |- context [fold_left ?f preds ?x] => set (d2 := x); set (d3 := fold_left f preds d2) end.
  assert (Hd3 : seqs_fit d3).
  { unfold d3, seqs_fit.
    rewrite (fold_left_frame db_records _ (fun _ => True)); [done | | by apply Forall_true].
    intros. apply process_records. }
  destruct (inner <$> _) as [vm|]; [|done].
  unfold seqs_fit. simpl. generalize (rm_host_set vm) as l. intros l. clearbody d3. clear - Hd3.
  revert d3 Hd3. induction l as [|hw l IH]; intros d Hd; [done|]. by apply IH, open_host_seqs.
Qed.

Lemma run_plan_seqs rs w : seqs_fit (w_db w) -> seqs_fit (w_db (run_plan rs w)).
Proof.
  intros H. unfold run_plan. destruct (rd_manifests rs) as [m|]; [|done]. simpl.
  unfold advance_current_waves. set (bumps := omap _ _). clearbody bumps.
  generalize (build_fleet_state (w_db w) m). intros fs.
  assert (Hd : forall acc, seqs_fit acc.1 -> seqs_fit (fold_left bump_one bumps acc).1).
  { induction bumps as [|[rid wave] bumps IH]; intros [d fs'] Hd; [done|]. by apply IH. }
  specialize (Hd (w_db w, fs) H). destruct (fold_left _ _ _) as [d fs']. simpl in Hd.
  generalize (plan_next m fs' (rd_quarantines rs) (clock_reading (w_reads w))).
  intros actions.
  assert (Ha : forall w', seqs_fit (w_db w') ->
            seqs_fit (w_db (fold_left (apply_plan_action m) actions w'))).
  { induction actions as [|a actions IH]; intros w' Hw'; [done|]. apply IH.
    destruct a; simpl; [by apply open_rollout_seqs | done..]. }
  by apply Ha.
Qed.

Lemma recover_record_seqs rs host c at_ w r :
  db_inv (w_db w) -> seqs_fit (w_db w) -> seqs_fit (w_db (recover_record rs host c at_ w r)).
Proof.
  intros Hinv H. pose proof u64_wrap_range. unfold recover_record.
  destruct (hs_state r); try done; case_bool; try done; try (apply handle_host_event_seqs; simpl; done).
  destruct (match rd_manifests rs with Some _ => _ | None => _ end); [done|].
  unfold synthesize_pending_to_converged.
  set (w1 := handle_host_event _ _ _ (Event.RemoteDispatchAck _ _ _) w).
  set (w2 := handle_host_event _ _ _ (Event.RemoteActivationCompleted _ _ _ _) w1).
  assert (Hinv1 : db_inv (w_db w1)) by by apply handle_host_event_inv.
  assert (Hinv2 : db_inv (w_db w2)) by by apply handle_host_event_inv.
  assert (seqs_fit (w_db w1)) by (apply handle_host_event_seqs; simpl; done).
  assert (seqs_fit (w_db w2)) by (apply handle_host_event_seqs; simpl; done).
  destruct (HostRolloutRecords.load _ _ _); [apply handle_host_event_seqs; simpl; done | done].
Qed.

Lemma prune_seqs now hours d : seqs_fit d -> seqs_fit (prune_finished_rollouts now hours d).1.
Proof.
  intros H [rid h] st Hl. pose proof (prune_finished_rollouts_spec now hours d) as Hp.
  cbv zeta in Hp. destruct (prune_finished_rollouts now hours d) as [d' [n k]].
  destruct Hp as (_ & Hrecs & _). apply Hrecs in Hl as [Hl _]. by apply (H (rid, h)).
Qed.

Lemma typed_reach_seqs s : typed_reach s -> seqs_fit (w_db s.2).
Proof.
  induction 1 as [reads|rs w i Hr IH Hi|rs w host _ IH|rs w now hours _ IH|rs w ok _ IH|rs w _ IH]; simpl in *.
  - apply map_Forall_empty.
  - apply typed_reachable, reachable_inv in Hr. simpl in Hr.
    destruct i as [host rid e|set|host rid [c|] at_|]; simpl.
    + by apply handle_host_event_seqs.
    + by apply run_plan_seqs.
    + unfold maybe_synthesize_recovery_completion.
      generalize (HostRolloutRecords.active_for_host host (db_records (w_db w))). intros l.
      revert w Hr IH. induction l as [|r l IHl]; intros w Hr IH; [done|].
      apply IHl; [by apply recover_record_safe | by apply recover_record_seqs].
    + done.
    + by apply run_plan_seqs.
  - done.
  - by apply prune_seqs.
  - unfold seqs_fit. by rewrite (proj1 (proj2 (write_log_entry_tables ok (w_db w)))).
  - done.
Qed.

Lemma typed_run inputs s : Forall typed_input inputs -> typed_reach s -> typed_reach (cp_run inputs s).
Proof.
  intros Hi. revert s. induction Hi as [|i inputs Hi _ IH]; intros [rs w] Hs; [done|].
  apply IH. by apply tr_input.
Qed.

End ranges.

(** ** Properties *)

Lemma accounted_log d : accounted d -> db_event_log d `sublist_of` db_log_sent d.
Proof. intros A. etrans; [|exact A]. by apply sublist_inserts_r. Qed.

Lemma reachable_log_sublist {O : HashOrder} {C : Clock} s :
  reachable s -> db_event_log (w_db s.2) `sublist_of` db_log_sent (w_db s.2).
Proof. intros [reads H]. apply accounted_log, (lg_accounted _ _ (cp_steps_logged _ _ H)), (reflexivity []). Qed.

(** Replaying part of the log gives part of the failures. *)
Lemma replay_failures_sublist l k : l `sublist_of` k -> replay_failures l `sublist_of` replay_failures k.
Proof.
  unfold replay_failures. induction 1 as [|e l k _ IH|e l k _ IH]; simpl; [done| |].
  - by apply sublist_app.
  - by apply sublist_inserts_l.
Qed.

Lemma sublist_whole {A} (l k : list A) : l `sublist_of` k -> length k <= length l -> l = k.
Proof.
  induction 1 as [|x l k H IH|x l k H IH]; simpl; intros Hlen; [done|by f_equal; apply IH; lia|].
  pose proof (sublist_length _ _ H). lia.
Qed.


(** The writer takes the next [n] entries. *)
Fixpoint written {A} (n : nat) (s : A * World) : A * World :=
  match n with O => s | S n => written n (s.1, on_db (write_log_entry true) s.2) end.

Lemma written_steps {O : HashOrder} {C : Clock} n s : rtc cp_step s (written n s).
Proof.
  revert s. induction n as [|n IH]; intros [rs w]; [done|].
  eapply rtc_l; [apply cp_write | apply IH].
Qed.


(** C35.  Which records of the database read back.  After events whose sequence
    numbers are [u64]s, every host record is under its own key and has a number of
    that range, as the events the recovery path makes up wrap within it.  The row
    its last [upsert] bound decodes to the record when its times are
    representable, in years that [chrono] prints with four digits; a row with one
    time of a later year, such as an agent may send, does not decode at all. *)
Theorem every_record_reads_back {O : HashOrder} {C : Clock} (s : ReducerState * World)
    (to_rfc3339 : DateTime -> string) (parse_from_rfc3339 : string -> option DateTime)
    (probes_to_string : gmap ProbeName ProbeRecord -> string)
    (probes_from_str : string -> option (gmap ProbeName ProbeRecord))
    (time_roundtrip : forall t, representable t -> parse_from_rfc3339 (to_rfc3339 t) = Some t)
    (time_refused : forall t, (year_10000 <= t)%Z -> parse_from_rfc3339 (to_rfc3339 t) = None)
    (probes_roundtrip : forall p, probe_times_kept p -> probes_from_str (probes_to_string p) = Some p)
    (rid : RolloutId) (host : string) (st : HostRolloutState)
    (stored := HostRolloutRecords.row_to_state parse_from_rfc3339 probes_from_str
                 (HostRolloutRecords.state_to_row to_rfc3339 probes_to_string st)) :
  typed_reach s -> db_records (w_db s.2) !! (rid, host) = Some st ->
  hs_rollout_id st = rid /\ hs_hostname st = host /\ (0 <= hs_last_event_seq st <= u64_max)%Z /\
  (Forall kept_time (column_times st) -> probe_times_kept (hs_probes st) -> stored = Ok st) /\
  (forall t, Some t ∈ column_times st -> (year_10000 <= t)%Z -> exists e, stored = Err e).
Proof.
  intros Hs Hl. pose proof (typed_reach_seqs s Hs _ _ Hl) as Hseq.
  apply typed_reachable, reachable_inv in Hs.
  destruct (tbi_records _ _ Hs _ _ Hl) as [[= <- <-] _].
  split_and!; [done..| apply Hseq | apply Hseq| |].
  - by apply host_row_roundtrip.
  - intros t Hin Ht. eapply host_row_undecodable; eauto.
Qed.

(** Host [a] answers with the largest sequence number, which is stored as -1, and
    host [b] with a time in the year 10000. *)
Definition last_number : list ReducerInput :=
  [ ReducerInput.ManifestSetUpdated (sample_manifests []);
    ReducerInput.HostEvent "a" sample_rid (Event.RemoteDispatchAck "/nix/store/old" 1 u64_max);
    ReducerInput.HostEvent "b" sample_rid (Event.RemoteDispatchAck "/nix/store/old" year_10000 1) ].

Lemma every_record_reads_back_witness :
  let s := cp_run (O := list_order) (C := fun _ => 0%Z) last_number (initial, MkWorld empty_db 0) in
  (exists st, db_records (w_db s.2) !! (sample_rid, "a") = Some st /\
    HostRolloutRecords.hr_last_event_seq (HostRolloutRecords.state_to_row sample_print sample_print st) = (-1)%Z /\
    HostRolloutRecords.row_to_state sample_parse_time sample_parse
      (HostRolloutRecords.state_to_row sample_print sample_print st) = Ok st) /\
  exists st, db_records (w_db s.2) !! (sample_rid, "b") = Some st /\
    exists e, HostRolloutRecords.row_to_state sample_parse_time sample_parse
      (HostRolloutRecords.state_to_row sample_print sample_print st) = Err e.
Proof.
  intros s.
  assert (Hs : typed_reach (O := list_order) (C := fun _ => 0%Z) s).
  { apply typed_run; [|apply (tr_initial (C := fun _ => 0%Z))]. unfold last_number.
    repeat constructor; simpl; unfold u64_max; lia. }
  pose proof (fun h st => every_record_reads_back (O := list_order) (C := fun _ => 0%Z) s sample_print
    sample_parse_time sample_print sample_parse sample_time_roundtrip sample_time_refused
    (fun p _ => sample_codec_roundtrip p) sample_rid h st Hs) as H.
  split.
  - destruct (db_records (w_db s.2) !! (sample_rid, "a")) as [st|] eqn:E.
    2:{ vm_compute in E. discriminate E. }
    exists st. split; [done|]. pose proof (H _ _ E) as (_ & _ & _ & R & _).
    vm_compute in E. injection E as <-. split; [reflexivity|]. apply R.
    + unfold column_times. simpl. rewrite !Forall_cons, Forall_nil.
      unfold kept_time, representable, year_10000, nanos_per_sec.
      split_and!; try done; intros t Et; simplify_eq; lia.
    + exact (map_Forall_empty (M := gmap string) _).
  - destruct (db_records (w_db s.2) !! (sample_rid, "b")) as [st|] eqn:E.
    2:{ vm_compute in E. discriminate E. }
    exists st. split; [done|]. pose proof (H _ _ E) as (_ & _ & _ & _ & R).
    apply (R year_10000); [|done]. vm_compute in E. injection E as <-. right. by left.
Defined.
