(* ===== verification/AgentQueue.v ===== *)
(** * The agent's outbound queue

    Models [crates/nixfleet-agent/src/runtime/outbound_queue.rs] and the drain
    pass of [runtime/workers/outbound.rs].  The queue directory is a finite map
    from file names to contents; [read_dir] lists it in an arbitrary order.  What
    the disk and the network answer are arguments of the operations. *)

From S2P Require Import Prelude RustStd Proto HostTypes HostTransitions Wire.

Record QueuedEvent := MkQueuedEvent {
  qe_seq : u64;
  qe_hostname : string;
  qe_rollout_id : RolloutId;
  qe_event_kind : string;
  qe_created_at : DateTime;
  qe_payload : AgentEvent.t;
}.

(** The JSON text of an entry: [serde_json] reads back what it wrote. *)
Class QueueCodec := {
  bytes : Type;
  to_vec_pretty : QueuedEvent -> bytes;
  from_slice : bytes -> option QueuedEvent;
  from_slice_to_vec : forall e, from_slice (to_vec_pretty e) = Some e;
}.

(** One such codec; the [None] content does not parse. *)
Definition plain_codec : QueueCodec := {|
  bytes := option QueuedEvent;
  to_vec_pretty := Some;
  from_slice := fun b => b;
  from_slice_to_vec := fun e => eq_refl (Some e);
|}.

(** ** File names *)

Definition outbound_event_kind (payload : OutboundAgentEvent) : string :=
  match payload with
  | OutboundAgentEvent.DispatchAck _ _ _ => "DispatchAck"
  | OutboundAgentEvent.ActivationStarted _ _ _ => "ActivationStarted"
  | OutboundAgentEvent.ActivationCompleted _ _ _ _ => "ActivationCompleted"
  | OutboundAgentEvent.ActivationDeferred _ _ _ => "ActivationDeferred"
  | OutboundAgentEvent.ActivationFailed _ _ _ _ => "ActivationFailed"
  | OutboundAgentEvent.ProbeTopologyDeclared _ _ _ => "ProbeTopologyDeclared"
  | OutboundAgentEvent.ProbeObservedFirst _ _ _ _ => "ProbeObservedFirst"
  | OutboundAgentEvent.ProbeResult _ _ _ _ _ _ _ => "ProbeResult"
  | OutboundAgentEvent.ProbeFailureFirst _ _ _ _ => "ProbeFailureFirst"
  | OutboundAgentEvent.Failed _ _ _ _ _ => "Failed"
  | OutboundAgentEvent.RollbackComplete _ _ _ _ => "RollbackComplete"
  | OutboundAgentEvent.Converged _ _ _ => "Converged"
  end.

Definition outbound_event_seq (payload : OutboundAgentEvent) : u64 :=
  match payload with
  | OutboundAgentEvent.DispatchAck _ _ seq
  | OutboundAgentEvent.ActivationStarted _ _ seq
  | OutboundAgentEvent.ActivationCompleted _ _ _ seq
  | OutboundAgentEvent.ActivationDeferred _ _ seq
  | OutboundAgentEvent.ActivationFailed _ _ _ seq
  | OutboundAgentEvent.ProbeTopologyDeclared _ _ seq
  | OutboundAgentEvent.ProbeObservedFirst _ _ _ seq
  | OutboundAgentEvent.ProbeResult _ _ _ _ _ _ seq
  | OutboundAgentEvent.ProbeFailureFirst _ _ _ seq
  | OutboundAgentEvent.Failed _ _ _ _ seq
  | OutboundAgentEvent.RollbackComplete _ _ _ seq
  | OutboundAgentEvent.Converged _ _ seq => seq
  end.

(** The last [k] decimal digits.  A [u64] has at most twenty, so the format
    [{:020}] prints exactly [decimal 20]. *)
Fixpoint decimal (k : nat) (n : Z) : string :=
  match k with
  | O => ""
  | S k => decimal k (n / 10) ++ String (ascii_of_nat (48 + Z.to_nat (n mod 10))) ""
  end.

(** The characters [sanitize] keeps. *)
Definition is_safe_char (c : ascii) : bool :=
  let n := nat_of_ascii c in
  (97 <=? n) && (n <=? 122) || (65 <=? n) && (n <=? 90) || (48 <=? n) && (n <=? 57) ||
  bool_decide (c = "-"%char) || bool_decide (c = "@"%char) || bool_decide (c = "."%char).

(** [chars()] ranges over UTF-8 characters: the continuation bytes of one that
    is replaced go with its first byte. *)
Fixpoint sanitize (s : string) : string :=
  match s with
  | EmptyString => EmptyString
  | String c s =>
      if is_safe_char c then String c (sanitize s)
      else if is_continuation_byte c then sanitize s
      else String "_" (sanitize s)
  end.

Definition filename_for (event : QueuedEvent) : string :=
  let hostname := sanitize (qe_hostname event) in
  let rollout := sanitize (rid_raw (qe_rollout_id event)) in
  let kind := sanitize (qe_event_kind event) in
  decimal 20 (qe_seq event) ++ "-" ++ hostname ++ "-" ++ rollout ++ "-" ++ kind ++ ".json".

Definition key_le (a b : u64 * QueuedEvent) : Prop := (a.1 <= b.1)%Z.
#[export] Instance key_le_dec : RelDecision key_le.
Proof. intros a b. unfold key_le, Decision. apply Z_le_dec. Defined.

Section queue.
Context {O : HashOrder} {Q : QueueCodec}.

Abbreviation Dir := (gmap string bytes).

(** ** Writing *)

(** How a call of [write_atomic] ends. *)
Inductive WriteOutcome :=
| Written
| OpenFailed
| WriteFailed (written : bytes)
| SyncFailed
| RenameFailed.

Definition write_atomic (tmp final_path : string) (content : bytes) (outcome : WriteOutcome)
    (dir : Dir) : result unit unit * Dir :=
  match outcome with
  | OpenFailed => (Err tt, dir)
  | WriteFailed written => (Err tt, <[ tmp := written ]> dir)
  | SyncFailed | RenameFailed => (Err tt, <[ tmp := content ]> dir)
  | Written =>
      let dir := <[ tmp := content ]> dir in
      (Ok tt, <[ final_path := content ]> (delete tmp dir))
  end.

Definition enqueue (event : QueuedEvent) (outcome : WriteOutcome) (dir : Dir)
    : result unit unit * Dir :=
  let final_name := filename_for event in
  write_atomic (final_name ++ ".tmp") final_name (to_vec_pretty event) outcome dir.

(** ** Reading *)

(** One directory entry: the body of the loop of [scan_pending]. *)
Definition scan_entry (by_seq : gmap u64 QueuedEvent) (entry : string * bytes)
    : gmap u64 QueuedEvent :=
  let '(name, content) := entry in
  if negb (ends_with ".json" name) || ends_with ".json.tmp" name then by_seq
  else
    match from_slice content with
    | None => by_seq
    | Some event => <[ qe_seq event := event ]> by_seq
    end.

(** [BTreeMap::into_values]: ascending keys. *)
Definition into_values (m : gmap u64 QueuedEvent) : list QueuedEvent :=
  snd <$> merge_sort key_le (map_to_list m).

Definition scan_pending (dir : Dir) : list QueuedEvent :=
  into_values (fold_left scan_entry (hash_iter dir) ∅).

(** A missing file is success. *)
Definition mark_sent (event : QueuedEvent) (removed : bool) (dir : Dir) : Dir :=
  if removed then delete (filename_for event) dir else dir.

(** ** Draining *)

Definition envelope_of (event : QueuedEvent) : AgentEventEnvelope := {|
  env_hostname := qe_hostname event;
  env_rollout_id := qe_rollout_id event;
  env_event := qe_payload event;
  env_signature := None;
|}.

(** How a POST ends: no success status, although the control plane may have
    got the event; or success, after which the file is removed or not. *)
Inductive PostOutcome :=
| PostFailed (received : bool)
| Posted (removed : bool).

(** The loop of [drain_once]: the envelopes the control plane receives, and the
    directory. *)
Fixpoint drain_loop (outcomes : nat -> PostOutcome) (pending : list QueuedEvent) (dir : Dir)
    : list AgentEventEnvelope * Dir :=
  match pending with
  | [] => ([], dir)
  | event :: pending =>
      match outcomes 0 with
      | PostFailed received => (if received then [envelope_of event] else [], dir)
      | Posted removed =>
          let dir := mark_sent event removed dir in
          let '(received, dir) := drain_loop (fun i => outcomes (S i)) pending dir in
          (envelope_of event :: received, dir)
      end
  end.

Definition drain_once (outcomes : nat -> PostOutcome) (dir : Dir)
    : list AgentEventEnvelope * Dir :=
  drain_loop outcomes (scan_pending dir) dir.

End queue.
