(* ===== verification/AgentQueueProps.v ===== *)
(** * The agent's outbound queue: what it promises

    File names identify events, a crash never exposes a half-written entry, a
    scan is ordered, and a drain loses nothing and delivers each entry once, up
    to the first one the control plane refuses. *)

From S2P Require Import Prelude RustStd Proto HostTypes HostTransitions HostProps Wire AgentQueue.

(** ** Decimal prefixes *)

Lemma decimal_length k n : length (chars (decimal k n)) = k.
Proof.
  revert n. induction k as [|k IH]; intros n; simpl; [done|].
  rewrite chars_app, length_app, IH. simpl. lia.
Qed.

Lemma digit_inj (a b : Z) :
  (0 <= a < 10)%Z -> (0 <= b < 10)%Z ->
  ascii_of_nat (48 + Z.to_nat a) = ascii_of_nat (48 + Z.to_nat b) -> a = b.
Proof.
  intros Ha Hb H. apply (f_equal nat_of_ascii) in H.
  rewrite !nat_ascii_embedding in H by lia. lia.
Qed.

Lemma decimal_inj k n m :
  (0 <= n < 10 ^ Z.of_nat k)%Z -> (0 <= m < 10 ^ Z.of_nat k)%Z ->
  decimal k n = decimal k m -> n = m.
Proof.
  revert n m. induction k as [|k IH]; intros n m Hn Hm H; [simpl in *; lia|].
  cbn -[Z.div Z.modulo ascii_of_nat Nat.add] in H.
  apply (f_equal chars) in H. rewrite !chars_app in H. simpl in H.
  apply app_inj_tail in H as [H Hd].
  apply chars_inj in H. apply digit_inj in Hd; [|apply Z.mod_pos_bound; lia..].
  replace (10 ^ Z.of_nat (S k))%Z with (10 * 10 ^ Z.of_nat k)%Z in *
    by (rewrite Nat2Z.inj_succ, Z.pow_succ_r; lia).
  assert (n / 10 = m / 10)%Z.
  { apply IH; [| |done]; split; try (apply Z.div_pos; lia); apply Z.div_lt_upper_bound; lia. }
  rewrite (Z.div_mod n 10), (Z.div_mod m 10) by lia. congruence.
Qed.

Lemma decimal_u64_inj n m :
  (0 <= n <= u64_max)%Z -> (0 <= m <= u64_max)%Z -> decimal 20 n = decimal 20 m -> n = m.
Proof. unfold u64_max. intros Hn Hm. apply decimal_inj; simpl Z.of_nat; lia. Qed.

#[global] Arguments decimal : simpl never.

(** ** The entries of the applier *)

Definition queue_entry (hostname : string) (rid : RolloutId) (now : DateTime)
    (payload : OutboundAgentEvent) : QueuedEvent :=
  MkQueuedEvent (outbound_event_seq payload) hostname rid (outbound_event_kind payload) now
    (AgentEvent_from_outbound payload).

(** A rollout id whose characters a file name keeps. *)
Definition url_safe (rid : RolloutId) : Prop := sanitize (rid_raw rid) = rid_raw rid.

Lemma outbound_event_seq_of e : outbound_event_seq (outbound_of e) = Event.seq e.
Proof. by destruct e. Qed.

Lemma event_kind_safe payload : sanitize (outbound_event_kind payload) = outbound_event_kind payload.
Proof. by destruct payload. Qed.

Lemma event_kind_no_dash payload : "-"%char ∉ chars (outbound_event_kind payload).
Proof. destruct payload; refine (bool_decide_unpack _ _); vm_compute; exact I. Qed.

Lemma filename_chars e :
  chars (filename_for e) =
  (chars (decimal 20 (qe_seq e)) ++ "-"%char :: chars (sanitize (qe_hostname e)) ++
   "-"%char :: chars (sanitize (rid_raw (qe_rollout_id e))) ++
   "-"%char :: chars (sanitize (qe_event_kind e)) ++ chars ".json")%list.
Proof. unfold filename_for. by rewrite !chars_app. Qed.

Lemma filename_inj_entries hostname rid rid' now now' p p' :
  url_safe rid -> url_safe rid' ->
  (0 <= outbound_event_seq p <= u64_max)%Z -> (0 <= outbound_event_seq p' <= u64_max)%Z ->
  filename_for (queue_entry hostname rid now p) = filename_for (queue_entry hostname rid' now' p') ->
  outbound_event_seq p = outbound_event_seq p' /\ rid = rid' /\
  outbound_event_kind p = outbound_event_kind p'.
Proof.
  intros Hr Hr' Hp Hp' H. apply (f_equal chars) in H. rewrite !filename_chars in H.
  cbn [queue_entry qe_seq qe_hostname qe_rollout_id qe_event_kind] in H.
  rewrite Hr, Hr', !event_kind_safe in H.
  apply app_inj_1 in H as [Hd H]; [|by rewrite !decimal_length].
  apply chars_inj, decimal_u64_inj in Hd; [|done..].
  injection H as H. apply app_inv_head in H. injection H as H.
  rewrite !app_comm_cons, !app_assoc in H. apply app_inv_tail in H.
  apply last_separator_inj in H as [Hrid Hk]; [|apply event_kind_no_dash..].
  apply chars_inj in Hrid, Hk. split_and!; [done| |done].
  destruct rid, rid'; simpl in *; congruence.
Qed.

(** ** What the drainer sees *)

Definition is_queue_file (name : string) : bool :=
  ends_with ".json" name && negb (ends_with ".json.tmp" name).

Lemma filename_is_queue_file e : is_queue_file (filename_for e) = true.
Proof.
  unfold is_queue_file, filename_for.
  set (a := decimal 20 (qe_seq e)). set (h := sanitize _). set (r := sanitize _). set (k := sanitize _).
  assert (E1 : (a ++ "-" ++ h ++ "-" ++ r ++ "-" ++ k ++ ".json"
                = (a ++ "-" ++ h ++ "-" ++ r ++ "-" ++ k ++ ".jso") ++ String "n" "")%string)
    by (rewrite !append_assoc; reflexivity).
  assert (E2 : (a ++ "-" ++ h ++ "-" ++ r ++ "-" ++ k ++ ".json"
                = (a ++ "-" ++ h ++ "-" ++ r ++ "-" ++ k) ++ ".json")%string)
    by (rewrite !append_assoc; reflexivity).
  rewrite E1 at 2.
  pose proof (ends_with_other_char ".json.tm" (a ++ "-" ++ h ++ "-" ++ r ++ "-" ++ k ++ ".jso")
    "p"%char "n"%char ltac:(done)) as E3.
  change (".json.tm" ++ String "p" "")%string with ".json.tmp" in E3. rewrite E3.
  by rewrite andb_true_r, E2, ends_with_app.
Qed.

Lemma tmp_is_not_queue_file name : ends_with ".json" name = true -> is_queue_file (name ++ ".tmp")%string = false.
Proof.
  intros [k Hk]%bool_decide_eq_true. unfold is_queue_file.
  assert (ends_with ".json.tmp" (name ++ ".tmp")%string = true) as ->; [|apply andb_false_r].
  apply bool_decide_eq_true. exists k. rewrite chars_app, Hk. simpl. by rewrite <- app_assoc.
Qed.

Lemma queue_file_json e : ends_with ".json" (filename_for e) = true.
Proof.
  pose proof (filename_is_queue_file e) as H. unfold is_queue_file in H.
  by apply andb_true_iff in H as [? _].
Qed.

Section queue_lemmas.
Context {O : HashOrder} {Q : QueueCodec}.
Implicit Types dir : gmap string bytes.

(** The entries a scan reads: files with the right name that parse. *)
Definition visible (dir : gmap string bytes) : gmap string QueuedEvent :=
  map_imap (fun name b => if is_queue_file name then from_slice b else None) dir.

Lemma visible_lookup dir name :
  visible dir !! name = (if is_queue_file name then dir !! name ≫= from_slice else None).
Proof. unfold visible. rewrite map_lookup_imap. by destruct (dir !! name), (is_queue_file name). Qed.

Lemma visible_delete dir name : visible (delete name dir) = delete name (visible dir).
Proof.
  apply map_eq. intros n. rewrite visible_lookup.
  destruct (decide (n = name)) as [->|Hne]; rewrite ?lookup_delete_eq, ?lookup_delete_ne by done.
  - by destruct (is_queue_file name).
  - by rewrite visible_lookup.
Qed.

Lemma visible_insert_hidden dir name b :
  is_queue_file name = false -> visible (<[ name := b ]> dir) = visible dir.
Proof.
  intros H. apply map_eq. intros n. rewrite !visible_lookup.
  destruct (decide (n = name)) as [->|Hne]; [by rewrite H | by rewrite lookup_insert_ne].
Qed.

Lemma visible_insert dir e :
  visible (<[ filename_for e := to_vec_pretty e ]> dir) = <[ filename_for e := e ]> (visible dir).
Proof.
  apply map_eq. intros n. rewrite visible_lookup.
  destruct (decide (n = filename_for e)) as [->|Hne].
  - rewrite !lookup_insert_eq, filename_is_queue_file. apply from_slice_to_vec.
  - rewrite !lookup_insert_ne by done. by rewrite visible_lookup.
Qed.

(** Every readable entry has the name [filename_for] gives it. *)
Definition queue_wf (dir : gmap string bytes) : Prop :=
  forall name e, visible dir !! name = Some e -> name = filename_for e.

Lemma queue_wf_delete dir name : queue_wf dir -> queue_wf (delete name dir).
Proof. intros H n e. rewrite visible_delete. intros [_ ?]%lookup_delete_Some. by apply H. Qed.

(** The outcome decides between the old entries and the new one; no partial
    write is ever read. *)
Lemma enqueue_visible e outcome dir :
  visible (enqueue e outcome dir).2 =
  (if is_ok (enqueue e outcome dir).1 then <[ filename_for e := e ]> (visible dir) else visible dir).
Proof.
  unfold enqueue, write_atomic.
  pose proof (tmp_is_not_queue_file _ (queue_file_json e)) as Ht.
  destruct outcome; simpl; rewrite ?visible_insert, ?visible_insert_hidden by done; [|done..].
  rewrite visible_delete, visible_insert_hidden by done. f_equal.
  apply delete_id. by rewrite visible_lookup, Ht.
Qed.

Lemma enqueue_wf e outcome dir : queue_wf dir -> queue_wf (enqueue e outcome dir).2.
Proof.
  intros H n e'. rewrite enqueue_visible. destruct (is_ok _); [|apply H].
  intros [[<- <-]|[? ?]]%lookup_insert_Some; [done | by apply H].
Qed.

(** ** Scanning *)

Lemma scan_entry_spec by_seq name b :
  scan_entry by_seq (name, b) =
  match (if is_queue_file name then from_slice b else None) with
  | Some e => <[ qe_seq e := e ]> by_seq
  | None => by_seq
  end.
Proof.
  unfold scan_entry, is_queue_file.
  destruct (ends_with ".json" name), (ends_with ".json.tmp" name); simpl; done.
Qed.

Lemma scan_fold_spec dir (l : list (string * bytes)) :
  (forall name b, (name, b) ∈ l -> dir !! name = Some b) ->
  (forall s e, fold_left scan_entry l ∅ !! s = Some e ->
     qe_seq e = s /\ exists name, visible dir !! name = Some e /\ name ∈ l.*1) /\
  (forall name e, name ∈ l.*1 -> visible dir !! name = Some e ->
     is_Some (fold_left scan_entry l ∅ !! qe_seq e)).
Proof.
  induction l as [|[name b] l IH] using rev_ind; intros Hl.
  - split; [intros s e; simpl; by rewrite lookup_empty | intros ? ? []%elem_of_nil].
  - rewrite fold_left_app. cbn [fold_left]. rewrite scan_entry_spec.
    assert (Hb : dir !! name = Some b) by (apply Hl, elem_of_app; right; by left).
    assert (Hv : visible dir !! name = if is_queue_file name then from_slice b else None).
    { rewrite visible_lookup. by rewrite Hb. }
    destruct IH as [IH1 IH2]; [intros; apply Hl, elem_of_app; by left|].
    rewrite <- Hv. rewrite fmap_app. split.
    + intros s e. destruct (visible dir !! name) as [e0|] eqn:E0.
      * intros [[<- <-]|[? (? & n & ? & ?)%IH1]]%lookup_insert_Some.
        { split; [done|]. exists name. split; [done|]. apply elem_of_app. right. by left. }
        split; [done|]. exists n. split; [done|]. apply elem_of_app. by left.
      * intros (? & n & ? & ?)%IH1. split; [done|]. exists n. split; [done|]. apply elem_of_app. by left.
    + intros n e Hn He. apply elem_of_app in Hn as [Hn|Hn].
      * destruct (visible dir !! name); [|by eapply IH2].
        destruct (decide (qe_seq q = qe_seq e)) as [->|?];
          [by rewrite lookup_insert_eq | rewrite lookup_insert_ne by done; by eapply IH2].
      * apply list_elem_of_singleton in Hn as ->. cbn [fst] in He. rewrite He.
        by rewrite lookup_insert_eq.
Qed.

Lemma into_values_elem (m : gmap u64 QueuedEvent) e :
  e ∈ into_values m <-> exists s, m !! s = Some e.
Proof.
  unfold into_values. rewrite merge_sort_Permutation, list_elem_of_fmap. split.
  - intros ([s e'] & -> & H%elem_of_map_to_list). by exists s.
  - intros [s H]. exists (s, e). split; [done|]. by apply elem_of_map_to_list.
Qed.

Lemma key_le_total : Total key_le.
Proof. intros a b. unfold key_le. lia. Qed.
Lemma key_le_trans : Transitive key_le.
Proof. intros a b c. unfold key_le. lia. Qed.

Lemma into_values_sorted (m : gmap u64 QueuedEvent) :
  (forall s e, m !! s = Some e -> qe_seq e = s) ->
  StronglySorted (fun a b => (qe_seq a < qe_seq b)%Z) (into_values m).
Proof.
  intros Hm. unfold into_values.
  assert (Hs : StronglySorted key_le (merge_sort key_le (map_to_list m))).
  { pose proof key_le_total. pose proof key_le_trans. by apply StronglySorted_merge_sort. }
  assert (Hp := merge_sort_Permutation key_le (map_to_list m)).
  set (l := merge_sort _ _) in *.
  assert (Hk : Forall (fun p => qe_seq p.2 = p.1) l).
  { rewrite Hp. apply Forall_forall. intros [s e] H%elem_of_map_to_list. by apply Hm. }
  assert (Hn : NoDup l.*1) by (rewrite Hp; apply NoDup_fst_map_to_list).
  clearbody l. clear Hp Hm. induction Hs as [|[s e] l Hl IH HF]; simpl; [constructor|].
  apply Forall_cons in Hk as [He Hk]. apply NoDup_cons in Hn as [Hnin Hn].
  constructor; [by apply IH|]. apply Forall_fmap, Forall_forall. intros [s' e'] Hin. simpl in *.
  rewrite Forall_forall in HF, Hk. specialize (HF _ Hin). specialize (Hk _ Hin). unfold key_le in HF.
  simpl in *. assert (s <> s'); [|lia]. intros ->. apply Hnin.
  apply list_elem_of_fmap. by exists (s', e').
Qed.

(** One entry per sequence number, in ascending order. *)
Lemma scan_pending_spec dir :
  StronglySorted (fun a b => (qe_seq a < qe_seq b)%Z) (scan_pending dir) /\
  (forall e, e ∈ scan_pending dir -> exists name, visible dir !! name = Some e) /\
  (forall name e, visible dir !! name = Some e ->
     exists e', e' ∈ scan_pending dir /\ qe_seq e' = qe_seq e).
Proof.
  destruct (scan_fold_spec dir (hash_iter dir)) as [H1 H2];
    [intros name b; apply elem_of_hash_iter|].
  unfold scan_pending. split_and!.
  - apply into_values_sorted. intros s e H. by apply H1.
  - intros e [s H]%into_values_elem. apply H1 in H as (_ & name & ? & _). by exists name.
  - intros name e H. destruct (H2 name e) as [e' He']; [|done|].
    + rewrite visible_lookup in H. destruct (is_queue_file name); [|done].
      destruct (dir !! name) as [b|] eqn:E; [|done].
      apply list_elem_of_fmap. exists (name, b). split; [done|]. by apply elem_of_hash_iter.
    + exists e'. split; [|by apply H1 in He' as [? _]]. apply into_values_elem. by exists (qe_seq e).
Qed.

Lemma scan_pending_nil dir : scan_pending dir = [] -> visible dir = ∅.
Proof.
  intros H. apply map_empty. intros name. destruct (visible dir !! name) as [e|] eqn:E; [|done].
  destruct (scan_pending_spec dir) as (_ & _ & Hc). destruct (Hc _ _ E) as (e' & He' & _).
  rewrite H in He'. by apply elem_of_nil in He'.
Qed.

Lemma scan_pending_NoDup dir : NoDup (scan_pending dir).
Proof.
  destruct (scan_pending_spec dir) as (H & _). induction H as [|e l Hl IH HF]; constructor; [|done].
  intros Hin. rewrite Forall_forall in HF. specialize (HF _ Hin). lia.
Qed.

(** In a well-formed queue, each scanned entry is the file of its name. *)
Lemma scan_pending_visible dir e :
  queue_wf dir -> e ∈ scan_pending dir -> visible dir !! filename_for e = Some e.
Proof.
  intros Hwf He. destruct (scan_pending_spec dir) as (_ & Hv & _).
  destruct (Hv _ He) as [name Hn]. by rewrite <- (Hwf _ _ Hn).
Qed.

(** ** Draining *)

(** The events in the queue, in no particular order. *)
Definition queued (dir : gmap string bytes) : list QueuedEvent := (map_to_list (visible dir)).*2.

Lemma visible_mark_sent e removed dir : visible (mark_sent e removed dir) ⊆ visible dir.
Proof. destruct removed; simpl; [rewrite visible_delete; apply delete_subseteq | done]. Qed.

Lemma drain_loop_spec dir0 (pending : list QueuedEvent) (outcomes : nat -> PostOutcome) dir :
  (forall e, e ∈ pending -> visible dir0 !! filename_for e = Some e) ->
  visible dir ⊆ visible dir0 ->
  let r := drain_loop outcomes pending dir in
  (exists sent, sent `prefix_of` pending /\ r.1 = envelope_of <$> sent) /\
  visible r.2 ⊆ visible dir /\
  (forall name e, visible dir !! name = Some e ->
     visible r.2 !! name = Some e \/ envelope_of e ∈ r.1).
Proof.
  intros Hp. revert outcomes dir. induction pending as [|e pending IH]; intros outcomes dir Hsub; simpl.
  { split_and!; [by exists [] | done | by left]. }
  destruct (outcomes 0) as [received|removed]; simpl.
  { split_and!; [|done|by left]. destruct received.
    - exists [e]. split; [by exists pending | done].
    - exists []. split; [apply prefix_nil | done]. }
  pose proof (visible_mark_sent e removed dir) as Hmark.
  destruct (IH ltac:(intros; apply Hp; by right) (fun i => outcomes (S i)) (mark_sent e removed dir))
    as ((sent & Hpre & Hsent) & Hvis & Hlose); [by etrans|].
  destruct (drain_loop _ _ _) as [rec dir2]. simpl in *. split_and!.
  - exists (e :: sent). split; [by apply prefix_cons | by rewrite Hsent].
  - by etrans.
  - intros name e' He'. destruct (visible (mark_sent e removed dir) !! name) as [e2|] eqn:E2.
    + assert (e2 = e') as -> by (eapply lookup_weaken in E2; [|exact Hmark]; congruence).
      destruct (Hlose _ _ E2); [by left | right; by right].
    + right. destruct removed; simpl in E2; [|congruence]. rewrite visible_delete in E2.
      apply lookup_delete_None in E2 as [<-|?]; [|congruence].
      pose proof (lookup_weaken _ _ _ _ He' Hsub) as H0.
      pose proof (Hp e ltac:(left)) as H1. rewrite H0 in H1. injection H1 as ->. left.
Qed.

(** The pass in which every POST and every removal succeeds. *)
Definition all_posted : nat -> PostOutcome := fun _ => Posted true.

Lemma drain_all_posted (pending : list QueuedEvent) dir :
  (drain_loop all_posted pending dir).1 = envelope_of <$> pending.
Proof.
  revert dir. induction pending as [|e pending IH]; intros dir; [done|]. cbn [drain_loop all_posted].
  specialize (IH (mark_sent e true dir)). unfold all_posted in IH. rewrite fmap_cons, <- IH.
  by destruct (drain_loop _ _ _).
Qed.

(** A control plane that is reachable and answers each event with success or with
    an error, and a disk that removes what it is told to. *)
Definition answers (accepts : QueuedEvent -> bool) (pending : list QueuedEvent) (i : nat) : PostOutcome :=
  match pending !! i with
  | Some e => if accepts e then Posted true else PostFailed false
  | None => Posted true
  end.

Fixpoint drain_rounds (accepts : QueuedEvent -> bool) (n : nat) (dir : gmap string bytes)
    : list AgentEventEnvelope * gmap string bytes :=
  match n with
  | 0 => ([], dir)
  | S n =>
      let '(received, dir) := drain_once (answers accepts (scan_pending dir)) dir in
      let '(later, dir) := drain_rounds accepts n dir in
      (received ++ later, dir)
  end.

(** A pass sends the events up to the first that is refused. *)
Lemma drain_answers accepts (pending : list QueuedEvent) dir :
  NoDup pending -> (forall e, e ∈ pending -> visible dir !! filename_for e = Some e) ->
  let r := drain_loop (answers accepts pending) pending dir in
  exists sent rest, pending = sent ++ rest /\ r.1 = envelope_of <$> sent /\
    Forall (fun e => accepts e = true) sent /\
    (rest = [] \/ exists e l, rest = e :: l /\ accepts e = false) /\
    queued dir ≡ₚ sent ++ queued r.2 /\ (queue_wf dir -> queue_wf r.2) /\
    (sent = [] -> r.2 = dir).
Proof.
  revert dir. induction pending as [|e pending IH]; intros dir.
  { intros _ _. exists [], []. simpl. split_and!; try done. by left. }
  intros [Hnin Hnd]%NoDup_cons Hp. cbn [drain_loop].
  change (answers accepts (e :: pending) 0) with (if accepts e then Posted true else PostFailed false).
  destruct (accepts e) eqn:Ea.
  2:{ exists [], (e :: pending). simpl. split_and!; try done. right. by exists e, pending. }
  change (fun i => answers accepts (e :: pending) (S i)) with (answers accepts pending).
  pose proof (Hp e ltac:(left)) as He.
  destruct (IH (mark_sent e true dir)) as (sent & rest & -> & Hr & Hacc & Hrest & Hperm & Hwf & _); [done| |].
  { intros e' He'. simpl. rewrite visible_delete, lookup_delete_ne; [apply Hp; by right|].
    intros Heq. pose proof (Hp e' ltac:(by right)) as H'. rewrite <- Heq in H'. congruence. }
  destruct (drain_loop _ _ _) as [rec dir2]. cbn -[mark_sent] in *.
  exists (e :: sent), rest. split_and!; [done|by rewrite Hr|by constructor|done| | |done].
  - simpl. rewrite <- Hperm. unfold queued. simpl. rewrite visible_delete.
    by rewrite <- (map_to_list_delete (visible dir) _ _ He).
  - intros H. apply Hwf. simpl. by apply queue_wf_delete.
Qed.

(** The first event is refused: no pass gets anywhere. *)
Definition at_rest (accepts : QueuedEvent -> bool) (dir : gmap string bytes) : Prop :=
  queued dir = [] \/ exists e l, scan_pending dir = e :: l /\ accepts e = false.

Lemma scan_pending_empty dir : queued dir = [] -> scan_pending dir = [].
Proof.
  intros H. destruct (scan_pending_spec dir) as (_ & Hv & _).
  destruct (scan_pending dir) as [|e l]; [done|]. destruct (Hv e ltac:(left)) as [name Hn].
  apply elem_of_map_to_list in Hn. apply (list_elem_of_fmap_2 snd) in Hn. unfold queued in H. rewrite H in Hn.
  by apply elem_of_nil in Hn.
Qed.

Lemma drain_at_rest accepts dir :
  at_rest accepts dir -> drain_once (answers accepts (scan_pending dir)) dir = ([], dir).
Proof.
  unfold drain_once. intros [->%scan_pending_empty|(e & l & -> & Ha)]; [done|].
  cbn [drain_loop]. unfold answers. cbn [lookup list_lookup]. by rewrite Ha.
Qed.

Lemma rounds_at_rest accepts n dir : at_rest accepts dir -> drain_rounds accepts n dir = ([], dir).
Proof. intros H. induction n as [|n IH]; simpl; [done|]. by rewrite drain_at_rest, IH. Qed.

Lemma drain_rounds_spec accepts n dir :
  queue_wf dir -> length (queued dir) <= n ->
  let r := drain_rounds accepts n dir in
  at_rest accepts r.2 /\
  exists sent, r.1 = envelope_of <$> sent /\ Forall (fun e => accepts e = true) sent /\
    queued dir ≡ₚ sent ++ queued r.2.
Proof.
  revert dir. induction n as [|n IH]; intros dir Hwf Hn.
  { simpl. split; [left; by apply nil_length_inv; lia|]. by exists []. }
  cbn. destruct (drain_answers accepts (scan_pending dir) dir)
    as (sent & rest & Hscan & Hr & Hacc & Hrest & Hperm & Hwf' & Hnil);
    [apply scan_pending_NoDup | intros; by apply scan_pending_visible|].
  fold (drain_once (answers accepts (scan_pending dir)) dir) in *.
  destruct (drain_once _ dir) as [rec dir1]. simpl in *. subst rec.
  destruct sent as [|e sent].
  - rewrite (Hnil eq_refl) in *. assert (Hst : at_rest accepts dir).
    { destruct Hrest as [-> | (e & l & -> & Ha)]; [|right; by eauto].
      left. unfold queued. by rewrite (scan_pending_nil _ Hscan), map_to_list_empty. }
    rewrite rounds_at_rest by done. simpl. split; [done|]. by exists [].
  - destruct (IH dir1) as (Hst & more & Hm & Hma & Hmp); [by apply Hwf'| |].
    { pose proof (Permutation_length Hperm) as Hlen. simpl in Hlen. rewrite length_app in Hlen. lia. }
    destruct (drain_rounds accepts n dir1) as [later dir2]. simpl in *. split; [done|].
    exists (e :: sent ++ more). split_and!.
    + by rewrite Hm, fmap_cons, fmap_app.
    + inversion Hacc; subst. constructor; [done|]. by apply Forall_app_2.
    + simpl. by rewrite Hperm, Hmp, <- app_assoc.
Qed.

End queue_lemmas.

(** ** Properties *)

(** An event is queued whole or not at all.  However a write ends, a scan
    then reads what it read before, plus the new event when the write succeeded
    and nothing else when it did not: no half-written file is ever read. *)
Theorem enqueue_is_atomic `{O : HashOrder} `{Q : QueueCodec} (e : QueuedEvent)
    (outcome : WriteOutcome) (dir : gmap string bytes) :
  let r := enqueue e outcome dir in
  (is_ok r.1 = true <-> outcome = Written) /\
  visible r.2 = (if is_ok r.1 then <[ filename_for e := e ]> (visible dir) else visible dir) /\
  (queue_wf dir -> queue_wf r.2).
Proof.
  split_and!; [by destruct outcome | apply enqueue_visible | apply enqueue_wf].
Qed.

(** The file name identifies an event of the agent: under one host name,
    two events with URL-safe rollout ids share a file only if they have the same
    sequence number, rollout and kind. *)
Theorem filename_identifies_event (hostname : string) (rid rid' : RolloutId) (now now' : DateTime)
    (p p' : OutboundAgentEvent) :
  url_safe rid -> url_safe rid' ->
  (0 <= outbound_event_seq p <= u64_max)%Z -> (0 <= outbound_event_seq p' <= u64_max)%Z ->
  filename_for (queue_entry hostname rid now p) = filename_for (queue_entry hostname rid' now' p') <->
  outbound_event_seq p = outbound_event_seq p' /\ rid = rid' /\
  outbound_event_kind p = outbound_event_kind p'.
Proof.
  intros Hr Hr' Hp Hp'. split; [by apply filename_inj_entries|].
  intros (Hs & -> & Hk). unfold filename_for, queue_entry. simpl. by rewrite Hs, Hk.
Qed.

Lemma filename_identifies_event_witness :
  let p := OutboundAgentEvent.DispatchAck "/nix/store/old" 0 1 in
  filename_for (queue_entry "web-1" (MkRolloutId "stable@a") 0 p) =
    "00000000000000000001-web-1-stable@a-DispatchAck.json" /\
  filename_for (queue_entry "web-1" (MkRolloutId "stable@a") 0 p) <>
  filename_for (queue_entry "web-1" (MkRolloutId "stable@b") 0 p).
Proof.
  split; [by vm_compute|]. intros H.
  apply (filename_identifies_event "web-1" (MkRolloutId "stable@a") (MkRolloutId "stable@b") 0 0) in H;
    [by destruct H as (_ & H & _) | by vm_compute..].
Defined.

(** A drain pass loses nothing and invents nothing.  Whatever the network
    and the disk answer, what the control plane receives is an initial part of the
    scan, whose sequence numbers ascend; every entry that was queued is still
    queued or was received, and the rest of the queue is untouched. *)
Theorem drain_loses_nothing `{O : HashOrder} `{Q : QueueCodec} (outcomes : nat -> PostOutcome)
    (dir : gmap string bytes) :
  queue_wf dir ->
  let r := drain_once outcomes dir in
  (exists sent, sent `prefix_of` scan_pending dir /\ r.1 = envelope_of <$> sent) /\
  StronglySorted (fun a b => (qe_seq a < qe_seq b)%Z) (scan_pending dir) /\
  (forall e, e ∈ scan_pending dir -> visible dir !! filename_for e = Some e) /\
  visible r.2 ⊆ visible dir /\
  (forall name e, visible dir !! name = Some e ->
     visible r.2 !! name = Some e \/ envelope_of e ∈ r.1).
Proof.
  intros Hwf r.
  assert (Hscan : forall e, e ∈ scan_pending dir -> visible dir !! filename_for e = Some e)
    by (intros; by apply scan_pending_visible).
  destruct (drain_loop_spec dir (scan_pending dir) outcomes dir) as (H1 & H2 & H3); [done..|].
  destruct (scan_pending_spec dir) as (Hs & _). by split_and!.
Qed.

(** A queue with the first two events of a rollout. *)
Definition sample_queue : gmap string (@bytes plain_codec) :=
  let rid := MkRolloutId "stable@a" in
  let put e dir := (enqueue (Q := plain_codec) e (@Written plain_codec) dir).2 in
  put (queue_entry "web-1" rid 0 (OutboundAgentEvent.ActivationStarted 0 "switch" 2))
    (put (queue_entry "web-1" rid 0 (OutboundAgentEvent.DispatchAck "/nix/store/old" 0 1)) ∅).

Lemma sample_queue_wf : queue_wf (Q := plain_codec) sample_queue.
Proof.
  unfold sample_queue. apply enqueue_wf, enqueue_wf. intros name e.
  rewrite visible_lookup, lookup_empty. by destruct (is_queue_file name).
Qed.

Lemma drain_loses_nothing_witness :
  let r := drain_once (O := list_order) (Q := plain_codec)
             (fun i => match i with 0 => Posted false | _ => PostFailed true end) sample_queue in
  length r.1 = 2 /\ (exists sent, sent `prefix_of` scan_pending (O := list_order) (Q := plain_codec) sample_queue /\
    r.1 = envelope_of <$> sent).
Proof.
  split; [by vm_compute|].
  exact (proj1 (drain_loses_nothing (O := list_order) (Q := plain_codec) _ sample_queue sample_queue_wf)).
Defined.

(** C37.  Delivery.  The control plane answers every post, with success for some
    events and an error for the others, and every removal succeeds.  As many passes
    as there are entries then leave a queue at rest, which no later pass changes:
    each entry was received once or is still queued.  If no entry is refused the
    queue is empty; otherwise it is empty or begins with an entry the control plane
    refuses, and everything behind that entry is never sent again. *)
Theorem drains_deliver_everything `{O : HashOrder} `{Q : QueueCodec} (accepts : QueuedEvent -> bool)
    (n : nat) (dir : gmap string bytes) :
  queue_wf dir -> length (queued dir) <= n ->
  let r := drain_rounds accepts n dir in
  (exists sent, r.1 = envelope_of <$> sent /\ Forall (fun e => accepts e = true) sent /\
     queued dir ≡ₚ sent ++ queued r.2) /\
  (queued r.2 = [] \/ exists e behind, scan_pending r.2 = e :: behind /\ accepts e = false) /\
  (Forall (fun e => accepts e = true) (queued dir) -> queued r.2 = []) /\
  (forall m, drain_rounds accepts m r.2 = ([], r.2)).
Proof.
  intros Hwf Hn r. destruct (drain_rounds_spec accepts n dir Hwf Hn) as [Hst Hsent]. fold r in Hst, Hsent.
  split_and!; [done|done| |intros m; by apply rounds_at_rest].
  intros Hall. destruct Hst as [|(e & l & Hscan & Ha)]; [done|]. exfalso.
  destruct Hsent as (sent & _ & _ & Hp). rewrite Hp in Hall. apply Forall_app in Hall as [_ Hall].
  destruct (scan_pending_spec r.2) as (_ & Hv & _). rewrite Hscan in Hv.
  destruct (Hv e ltac:(left)) as [name Hname%elem_of_map_to_list%(list_elem_of_fmap_2 snd)].
  rewrite Forall_forall in Hall. specialize (Hall e Hname). congruence.
Qed.

(** All is accepted; and the second event of the queue is refused. *)
Lemma drains_deliver_everything_witness :
  queued (Q := plain_codec)
    (drain_rounds (O := list_order) (Q := plain_codec) (fun _ => true) 2 sample_queue).2 = [] /\
  (let r := drain_rounds (O := list_order) (Q := plain_codec) (fun e => (qe_seq e =? 1)%Z) 2 sample_queue in
   length r.1 = 1 /\ length (queued (Q := plain_codec) r.2) = 1 /\
   forall m, drain_rounds (O := list_order) (Q := plain_codec) (fun e => (qe_seq e =? 1)%Z) m r.2 = ([], r.2)).
Proof.
  assert (Hlen : length (queued (Q := plain_codec) sample_queue) <= 2) by (apply Nat.leb_le; by vm_compute).
  split.
  - apply (drains_deliver_everything (O := list_order) (Q := plain_codec) (fun _ => true) 2 sample_queue
             sample_queue_wf Hlen).
    apply Forall_forall. by intros.
  - split_and!; [by vm_compute..|].
    apply (drains_deliver_everything (O := list_order) (Q := plain_codec) _ 2 sample_queue
             sample_queue_wf Hlen).
Defined.
