(* ===== verification/AgentRuntime.v ===== *)
(** * The agent runtime: reducer task and applier

    Models [crates/nixfleet-agent/src/runtime/reducer.rs] and [applier.rs].  The
    task handles one input at a time.  What it acts on is a world: how often the
    clock was read and a file written, what was sent to the activation and probe
    workers (whose channels stay open as long as the task runs), and the
    directory of the outbound queue. *)

From S2P Require Import Prelude Proto HostTypes HostTransitions RolloutMachine Gates Wire.
From S2P Require Import AgentQueue.

(** The successive readings of the agent's clock. *)
Class AgentClock := agent_clock_reading : nat -> DateTime.

(** How the successive writes of the queue end. *)
Class Disk `{QueueCodec} := write_outcome : nat -> WriteOutcome.

(** The fields the modelled code reads; the paths name files whose contents are
    arguments. *)
Record AgentConfig := MkAgentConfig {
  cfg_control_plane_url : string;
  cfg_machine_id : string;
  cfg_manifest_freshness_window_secs : u64;
}.

Record ActivationIntent := MkActivationIntent {
  ai_rollout_id : RolloutId;
  ai_target_closure : string;
  ai_rollback : bool;
}.

Record ProbeResetCommand := MkProbeResetCommand { prc_rollout_id : RolloutId }.

Record AgentWorld `{QueueCodec} := MkAgentWorld {
  aw_reads : nat;
  aw_writes : nat;
  aw_intents : list ActivationIntent;
  aw_resets : list ProbeResetCommand;
  aw_queue : gmap string bytes;
}.
#[export] Instance AgentWorld_eta `{QueueCodec} : Etaexp AgentWorld := fun w =>
  MkAgentWorld _ (aw_reads w) (aw_writes w) (aw_intents w) (aw_resets w) (aw_queue w).

(** The local variables of [run]. *)
Record AgentState := MkAgentState {
  as_host_states : gmap RolloutId HostRolloutState;
  as_manifests : option SignedManifestSet;
}.
#[export] Instance AgentState_eta : Etaexp AgentState := fun s =>
  MkAgentState (as_host_states s) (as_manifests s).

Definition agent_initial : AgentState := MkAgentState ∅ None.

Module AgentInput.
Inductive t :=
| HostEvent (rollout_id : RolloutId) (event : Event)
| AgentAdvanceTick
| ManifestSetUpdated (set : SignedManifestSet)
| BootstrapHost (snapshot : HostRolloutSnapshot).
End AgentInput.
Abbreviation AgentInput := AgentInput.t.

Module Agent.

(** ** Pure helpers *)

Definition SUSTAINED_FAILURE_THRESHOLD_SECS : i64 := 120.

Definition merge_snapshot_into_state (existing : option HostRolloutState)
    (snapshot : HostRolloutSnapshot) : HostRolloutState :=
  let internal_state :=
    match snap_state snapshot with
    | WireState.Pending => HostState.Pending
    | WireState.Activating => HostState.Activating
    | WireState.Deferred => HostState.Deferred
    | WireState.Soaking => HostState.Soaking
    | WireState.Converged => HostState.Converged
    | WireState.Failed => HostState.Failed
    | WireState.Reverted => HostState.Reverted
    end in
  {| hs_rollout_id := snap_rollout_id snapshot;
     hs_hostname := snap_hostname snapshot;
     hs_channel := snap_channel snapshot;
     hs_state := internal_state;
     hs_target_closure := snap_target_closure snapshot;
     hs_current_closure_at_dispatch := snap_current_closure_at_dispatch snapshot;
     hs_current_closure := snap_current_closure snapshot;
     hs_dispatched_at := snap_dispatched_at snapshot;
     hs_dispatch_acked_at := snap_dispatch_acked_at snapshot;
     hs_activation_started_at := snap_activation_started_at snapshot;
     hs_activation_completed_at := snap_activation_completed_at snapshot;
     hs_soak_due_at := snap_soak_due_at snapshot;
     hs_last_event_seq := snap_last_event_seq snapshot;
     hs_probes := from_option hs_probes ∅ existing;
     hs_probe_observed_first_at := existing ≫= hs_probe_observed_first_at;
     hs_probe_failure_first_at := existing ≫= hs_probe_failure_first_at;
     hs_activation_failed_at := existing ≫= hs_activation_failed_at;
     hs_failed_at := existing ≫= hs_failed_at;
     hs_converged_at := existing ≫= hs_converged_at;
     hs_reverted_to := existing ≫= hs_reverted_to;
     hs_reverted_at := existing ≫= hs_reverted_at;
     hs_policy_applied := existing ≫= hs_policy_applied |}.

Definition bootstrap_pending_state (rollout_id : RolloutId) (target_closure : string)
    (soak_due_at now : DateTime) : HostRolloutState :=
  let channel := rollout_id.channel rollout_id in
  new_pending rollout_id "self" channel target_closure now soak_due_at.

Definition resolve_policy (manifests : option SignedManifestSet) (channel : string)
    : option RolloutPolicy :=
  match manifests with
  | None => None
  | Some m =>
      let fleet := fleet m in
      match fr_channels fleet !! channel with
      | None => None
      | Some channel_entry => fr_rollout_policies fleet !! ch_rollout_policy channel_entry
      end
  end.

Definition with_seq (event : Event) (seq : u64) : Event :=
  match event with
  | Event.LocalActivate current_closure_at_dispatch target_closure received_at soak_due_at _ =>
      Event.LocalActivate current_closure_at_dispatch target_closure received_at soak_due_at seq
  | Event.LocalActivationStarted started_at switch_method _ =>
      Event.LocalActivationStarted started_at switch_method seq
  | Event.LocalActivationCompleted observed_current_closure exit_code completed_at _ =>
      Event.LocalActivationCompleted observed_current_closure exit_code completed_at seq
  | Event.LocalActivationFailed exit_code stderr_tail failed_at _ =>
      Event.LocalActivationFailed exit_code stderr_tail failed_at seq
  | Event.LocalProbeObservedFirst probe_name mode observed_at _ =>
      Event.LocalProbeObservedFirst probe_name mode observed_at seq
  | Event.LocalProbeResult probe_name mode status observed_at failure_reason sub_results _ =>
      Event.LocalProbeResult probe_name mode status observed_at failure_reason sub_results seq
  | Event.LocalProbeFailureFirst probe_name mode first_failed_at _ =>
      Event.LocalProbeFailureFirst probe_name mode first_failed_at seq
  | Event.LocalSustainedFailureCrossed failed_at secs failing_probes policy_applied _ =>
      Event.LocalSustainedFailureCrossed failed_at secs failing_probes policy_applied seq
  | Event.LocalRollbackCompleted reverted_to_closure exit_code completed_at _ =>
      Event.LocalRollbackCompleted reverted_to_closure exit_code completed_at seq
  | Event.LocalConvergedReached converged_at current_closure _ =>
      Event.LocalConvergedReached converged_at current_closure seq
  | Event.LocalProbeTopologyDeclared probes declared_at _ =>
      Event.LocalProbeTopologyDeclared probes declared_at seq
  | other => other
  end.

Definition all_enforce_probes_pass (probes : gmap string ProbeRecord) : bool :=
  forallb (fun r => bool_decide (pr_status r = ProbeStatus.Pass))
    (List.filter (fun r => bool_decide (pr_mode r = ProbeMode.Enforce))
       (map_to_list probes).*2).

Section agent.
Context {O : HashOrder} {Q : QueueCodec} {C : AgentClock} {D : Disk} (cfg : AgentConfig).

Definition collect_failing_enforce_probes (probes : gmap string ProbeRecord) : list string :=
  fst <$> List.filter (fun p : string * ProbeRecord =>
            bool_decide (pr_status p.2 = ProbeStatus.Fail) &&
            bool_decide (pr_mode p.2 = ProbeMode.Enforce)) (hash_iter probes).

Definition clock_now (w : AgentWorld) : DateTime * AgentWorld :=
  (agent_clock_reading (aw_reads w), w <| aw_reads := S (aw_reads w) |>).

(** ** The applier *)

Definition send_intent (intent : ActivationIntent) (w : AgentWorld) : AgentWorld :=
  w <| aw_intents := aw_intents w ++ [intent] |>.

(** Traces change no state; a [Remote] effect is dropped; an event whose write
    fails is lost. *)
Definition apply_effect (w : AgentWorld) (effect : Effect) : AgentWorld :=
  match effect with
  | Effect.LocalFireSwitch rollout_id target =>
      send_intent (MkActivationIntent rollout_id target false) w
  | Effect.LocalFireRollbackTo rollout_id closure =>
      send_intent (MkActivationIntent rollout_id closure true) w
  | Effect.LocalResetProbeCache rollout_id =>
      w <| aw_resets := aw_resets w ++ [MkProbeResetCommand rollout_id] |>
  | Effect.LocalEmitEvent rollout_id payload _ =>
      let '(now, w) := clock_now w in
      let event := MkQueuedEvent (outbound_event_seq payload) (cfg_machine_id cfg) rollout_id
                     (outbound_event_kind payload) now (AgentEvent_from_outbound payload) in
      let '(_, dir) := enqueue event (write_outcome (aw_writes w)) (aw_queue w) in
      w <| aw_queue := dir |> <| aw_writes := S (aw_writes w) |>
  | Effect.RecordTransition _ _ _ _ _ | Effect.EmitMetric _ _ _ | Effect.EmitLog _ _ _ _ => w
  | Effect.RemoteQueueDispatch _ _ _ _ | Effect.RemoteInsertQuarantine _ _
  | Effect.RemoteOpenRolloutRecord _ _ _ | Effect.RemoteAppendEventLog _ _ _ => w
  end.

(** ** The inputs *)

Definition apply_bootstrap_snapshot (s : AgentState) (snapshot : HostRolloutSnapshot)
    (w : AgentWorld) : AgentState * AgentWorld :=
  let rollout_id := snap_rollout_id snapshot in
  let record := merge_snapshot_into_state (as_host_states s !! rollout_id) snapshot in
  let effects := rehydration_effects record in
  (s <| as_host_states := <[ rollout_id := record ]> (as_host_states s) |>,
   fold_left apply_effect effects w).

(** The record an event applies to; an unknown rollout starts with
    [LocalActivate] only. *)
Definition event_state (s : AgentState) (rollout_id : RolloutId) (event : Event) (w : AgentWorld)
    : option (HostRolloutState * AgentWorld) :=
  match as_host_states s !! rollout_id, event with
  | Some state, _ => Some (state, w)
  | None, Event.LocalActivate _ target_closure _ soak_due_at _ =>
      let '(now, w) := clock_now w in
      Some (bootstrap_pending_state rollout_id target_closure soak_due_at now, w)
  | None, _ => None
  end.

Definition run_host_event (s : AgentState) (rollout_id : RolloutId) (event : Event)
    (w : AgentWorld) : AgentState * AgentWorld :=
  match event_state s rollout_id event w with
  | None => (s, w)
  | Some (state, w) =>
      match resolve_policy (as_manifests s) (hs_channel state) with
      | None => (s, w)
      | Some policy =>
          let next_seq := u64_wrap (hs_last_event_seq state + 1) in
          let event := with_seq event next_seq in
          let '(now, w) := clock_now w in
          match HostTransitions.step state event now policy with
          | Err _ => (s, w)
          | Ok (next_state, effects) =>
              (s <| as_host_states := <[ rollout_id := next_state ]> (as_host_states s) |>,
               fold_left apply_effect effects w)
          end
      end
  end.

(** One iteration of the fail-gate loop. *)
Definition fail_gate (manifests : option SignedManifestSet) (now : DateTime)
    (entry : RolloutId * HostRolloutState) : option (RolloutId * Event) :=
  let '(rollout_id, state) := entry in
  if negb (bool_decide (hs_state state = HostState.Soaking)) then None
  else
    match hs_probe_failure_first_at state with
    | None => None
    | Some first_failed =>
        if Z.ltb (num_seconds (now - first_failed)) SUSTAINED_FAILURE_THRESHOLD_SECS then None
        else
          let failing_probes := collect_failing_enforce_probes (hs_probes state) in
          if is_empty failing_probes then None
          else
            let policy_applied :=
              from_option rp_on_health_failure OnHealthFailure.Halt
                (resolve_policy manifests (hs_channel state)) in
            Some (rollout_id,
                  Event.LocalSustainedFailureCrossed now
                    (u64_wrap (num_seconds (now - first_failed))) failing_probes policy_applied 0)
    end.

(** One iteration of the pass-gate loop. *)
Definition pass_gate (now : DateTime) (entry : RolloutId * HostRolloutState)
    : option (RolloutId * Event) :=
  let '(rollout_id, state) := entry in
  if negb (bool_decide (hs_state state = HostState.Soaking)) then None
  else
    match hs_soak_due_at state with
    | None => None
    | Some soak_due_at =>
        if Z.ltb now soak_due_at then None
        else
          match hs_current_closure state with
          | None => None
          | Some current =>
              if negb (bool_decide (current = hs_target_closure state)) then None
              else if negb (all_enforce_probes_pass (hs_probes state)) then None
              else Some (rollout_id, Event.LocalConvergedReached now current 0)
          end
    end.

Definition advance_events (s : AgentState) (now : DateTime) : list (RolloutId * Event) :=
  omap (fail_gate (as_manifests s) now) (hash_iter (as_host_states s)) ++
  omap (pass_gate now) (hash_iter (as_host_states s)).

Definition run_advance_tick (s : AgentState) (w : AgentWorld) : AgentState * AgentWorld :=
  let '(now, w) := clock_now w in
  fold_left (fun '(s, w) '(rollout_id, event) => run_host_event s rollout_id event w)
    (advance_events s now) (s, w).

Definition handle_input (s : AgentState) (input : AgentInput) (w : AgentWorld)
    : AgentState * AgentWorld :=
  match input with
  | AgentInput.HostEvent rollout_id event => run_host_event s rollout_id event w
  | AgentInput.AgentAdvanceTick => run_advance_tick s w
  | AgentInput.ManifestSetUpdated set => (s <| as_manifests := Some set |>, w)
  | AgentInput.BootstrapHost snapshot => apply_bootstrap_snapshot s snapshot w
  end.

Fixpoint agent_run (s : AgentState) (inputs : list AgentInput) (w : AgentWorld)
    : AgentState * AgentWorld :=
  match inputs with
  | [] => (s, w)
  | input :: inputs =>
      let '(s, w) := handle_input s input w in
      agent_run s inputs w
  end.

End agent.

End Agent.
