(* ===== verification/AgentProps.v ===== *)
(** * The agent runtime: its invariant and its inputs

    Lemmas on the reducer task: the invariant of its records, what an event, an
    advance tick and a snapshot do to each record and send to the workers, and a
    sample agent.  The theorems are in [AgentSpecs]. *)

From S2P Require Import Prelude Proto HostTypes HostTransitions HostProps RolloutMachine Gates.
From S2P Require Import Wire CpStore CpRuntime CpRuntimeSpecs AgentQueue AgentQueueProps AgentRuntime.
Import Agent.

(** ** One event *)

Definition intent_of (x : Effect) : option ActivationIntent :=
  match x with
  | Effect.LocalFireSwitch rid target => Some (MkActivationIntent rid target false)
  | Effect.LocalFireRollbackTo rid closure => Some (MkActivationIntent rid closure true)
  | _ => None
  end.

Definition reset_of (x : Effect) : option ProbeResetCommand :=
  match x with
  | Effect.LocalResetProbeCache rid => Some (MkProbeResetCommand rid)
  | _ => None
  end.

(** What the reducer makes of an event for a known record. *)
Definition event_outcome (manifests : option SignedManifestSet) (st : HostRolloutState)
    (event : Event) (now : DateTime) : HostRolloutState * list Effect :=
  match resolve_policy manifests (hs_channel st) with
  | None => (st, [])
  | Some policy =>
      match step st (with_seq event (u64_wrap (hs_last_event_seq st + 1))) now policy with
      | Ok r => r
      | Err _ => (st, [])
      end
  end.

(** A record stands under its own rollout, with a [u64] sequence number. *)
Definition agent_wf (s : AgentState) : Prop :=
  map_Forall (fun rid st => hs_rollout_id st = rid /\ (0 <= hs_last_event_seq st <= u64_max)%Z)
    (as_host_states s).

Lemma step_effect_ids st e now policy st' effs :
  step st e now policy = Ok (st', effs) ->
  Forall (fun x => match x with
                   | Effect.LocalFireSwitch rid _ | Effect.LocalFireRollbackTo rid _
                   | Effect.LocalResetProbeCache rid | Effect.LocalEmitEvent rid _ _ =>
                       rid = hs_rollout_id st
                   | _ => True
                   end) effs.
Proof. intros H. step_cases H; simpl; break_matches; by repeat constructor. Qed.

Lemma event_outcome_wf manifests st event now :
  (0 <= hs_last_event_seq st <= u64_max)%Z -> (Event.seq event <= u64_max)%Z ->
  hs_rollout_id (event_outcome manifests st event now).1 = hs_rollout_id st /\
  (0 <= hs_last_event_seq (event_outcome manifests st event now).1 <= u64_max)%Z.
Proof.
  intros Hst Hev. unfold event_outcome. destruct (resolve_policy _ _) as [policy|]; [|done].
  destruct (step _ _ _ _) as [[st' effs]|] eqn:E; [|done]. simpl.
  pose proof (step_identity _ _ _ _ _ _ E) as [= Hid _ _ _ _ _].
  apply step_seq in E as [Hlt ->]. split; [done|].
  pose proof (u64_wrap_range (hs_last_event_seq st + 1)).
  destruct event; simpl in *; lia.
Qed.

Section agent_lemmas.
Context {O : HashOrder} {Q : QueueCodec} {C : AgentClock} {D : Disk} (cfg : AgentConfig).
Implicit Types w : AgentWorld.

Lemma apply_effects_outputs effs w :
  let w' := fold_left (apply_effect cfg) effs w in
  aw_intents w' = aw_intents w ++ omap intent_of effs /\
  aw_resets w' = aw_resets w ++ omap reset_of effs.
Proof.
  revert w. induction effs as [|x effs IH]; intros w; simpl; [by rewrite !app_nil_r|].
  destruct (IH (apply_effect cfg w x)) as [-> ->].
  destruct x; simpl; rewrite <- ?app_assoc; try done.
  destruct (enqueue _ _ _); done.
Qed.

(** An event for a known record: the record is replaced by the outcome, whose
    effects are executed. *)
Lemma run_known s rid event w st :
  as_host_states s !! rid = Some st ->
  exists now,
    let r := event_outcome (as_manifests s) st event now in
    let r' := run_host_event cfg s rid event w in
    r'.1 = s <| as_host_states := <[ rid := r.1 ]> (as_host_states s) |> /\
    aw_intents r'.2 = aw_intents w ++ omap intent_of r.2 /\
    aw_resets r'.2 = aw_resets w ++ omap reset_of r.2.
Proof.
  intros Hst. exists (agent_clock_reading (aw_reads w)).
  unfold run_host_event, event_state, event_outcome. rewrite Hst.
  destruct (resolve_policy _ _) as [policy|]; simpl.
  - destruct (step _ _ _ _) as [[st' effs]|]; simpl.
    + pose proof (apply_effects_outputs effs (w <| aw_reads := S (aw_reads w) |>)) as [H1 H2].
      simpl in *. by rewrite H1, H2.
    + rewrite insert_id, !app_nil_r by done. by destruct s.
  - rewrite insert_id, !app_nil_r by done. by destruct s.
Qed.

(** ** A list of events for different rollouts *)

Definition intents_for (rid : RolloutId) (w : AgentWorld) : list ActivationIntent :=
  List.filter (fun i => bool_decide (ai_rollout_id i = rid)) (aw_intents w).

Definition run_events (evs : list (RolloutId * Event)) (s : AgentState) (w : AgentWorld)
    : AgentState * AgentWorld :=
  fold_left (fun '(s, w) '(rid, event) => run_host_event cfg s rid event w) evs (s, w).

Lemma filter_own_intents rid (effs : list Effect) :
  Forall (fun x => match x with
                   | Effect.LocalFireSwitch r _ | Effect.LocalFireRollbackTo r _
                   | Effect.LocalResetProbeCache r | Effect.LocalEmitEvent r _ _ => r = rid
                   | _ => True
                   end) effs ->
  List.filter (fun i => bool_decide (ai_rollout_id i = rid)) (omap intent_of effs)
    = omap intent_of effs /\
  (forall rid', rid' <> rid ->
     List.filter (fun i => bool_decide (ai_rollout_id i = rid')) (omap intent_of effs) = []).
Proof.
  induction 1 as [|x effs Hx _ [IH1 IH2]]; [done|].
  destruct x; simpl in *; subst; try done.
  all: split; [rewrite bool_decide_eq_true_2 by done; f_equal; exact IH1|].
  all: intros rid' Hne; rewrite bool_decide_eq_false_2 by done; exact (IH2 _ Hne).
Qed.

Lemma event_outcome_effect_ids manifests st event now :
  Forall (fun x => match x with
                   | Effect.LocalFireSwitch r _ | Effect.LocalFireRollbackTo r _
                   | Effect.LocalResetProbeCache r | Effect.LocalEmitEvent r _ _ =>
                       r = hs_rollout_id st
                   | _ => True
                   end) (event_outcome manifests st event now).2.
Proof.
  unfold event_outcome. destruct (resolve_policy _ _); [|constructor].
  destruct (step _ _ _ _) as [[st' effs]|] eqn:E; [|constructor]. by eapply step_effect_ids.
Qed.

Lemma run_known_intents s rid event w st :
  as_host_states s !! rid = Some st -> hs_rollout_id st = rid ->
  exists now,
    let r := event_outcome (as_manifests s) st event now in
    let r' := run_host_event cfg s rid event w in
    r'.1 = s <| as_host_states := <[ rid := r.1 ]> (as_host_states s) |> /\
    intents_for rid r'.2 = intents_for rid w ++ omap intent_of r.2 /\
    (forall rid', rid' <> rid -> intents_for rid' r'.2 = intents_for rid' w).
Proof.
  intros Hst Hid. destruct (run_known s rid event w st Hst) as (now & H1 & H2 & _).
  exists now. simpl in *. split; [done|]. unfold intents_for. rewrite H2.
  destruct (filter_own_intents rid (event_outcome (as_manifests s) st event now).2) as [F1 F2];
    [rewrite <- Hid; apply event_outcome_effect_ids|].
  rewrite List.filter_app, F1. split; [done|]. intros rid' Hne. by rewrite List.filter_app, F2, app_nil_r.
Qed.

(** Each rollout with an event gets that event's outcome, the others keep
    their records. *)
Lemma run_events_spec evs s w :
  agent_wf s -> NoDup evs.*1 ->
  (forall rid ev, (rid, ev) ∈ evs -> is_Some (as_host_states s !! rid)) ->
  let r := run_events evs s w in
  as_manifests r.1 = as_manifests s /\
  (forall rid, rid ∉ evs.*1 ->
     as_host_states r.1 !! rid = as_host_states s !! rid /\ intents_for rid r.2 = intents_for rid w) /\
  (forall rid ev st, (rid, ev) ∈ evs -> as_host_states s !! rid = Some st ->
     exists now, let o := event_outcome (as_manifests s) st ev now in
     as_host_states r.1 !! rid = Some o.1 /\
     intents_for rid r.2 = intents_for rid w ++ omap intent_of o.2).
Proof.
  intros Hwf Hnd Hex. induction evs as [|[rid ev] evs IH] using rev_ind.
  { split_and!; [done..|]. intros ? ? ? []%elem_of_nil. }
  rewrite fmap_app in Hnd. apply NoDup_app in Hnd as (Hnd & Hdis & _).
  destruct IH as (IHm & IHo & IHe); [done|intros; eapply Hex, elem_of_app; by left|].
  unfold run_events in *. rewrite fold_left_app. simpl.
  destruct (fold_left _ evs (s, w)) as [s1 w1]. simpl in *.
  assert (Hnin : rid ∉ evs.*1) by (intros Hin; apply (Hdis _ Hin); by left).
  destruct (IHo _ Hnin) as [Hs1 Hi1].
  destruct (Hex rid ev) as [st Hst]; [apply elem_of_app; right; by left|].
  rewrite Hst in Hs1.
  destruct (run_known_intents s1 rid ev w1 st Hs1) as (now & E1 & E2 & E3); [by apply (Hwf _ _ Hst)|].
  rewrite IHm in E1, E2. destruct (run_host_event cfg s1 rid ev w1) as [s2 w2]. simpl in *. subst s2.
  split_and!; [done| |].
  - intros rid' Hn. rewrite fmap_app, not_elem_of_app in Hn. destruct Hn as [Hn Hn2].
    assert (rid' <> rid) by (intros ->; apply Hn2; by left). destruct (IHo _ Hn) as [? ?].
    simpl. rewrite lookup_insert_ne by done. split; [done|]. by rewrite E3.
  - intros rid' ev' st' Hin Hst'. apply elem_of_app in Hin as [Hin|Hin].
    + assert (rid' <> rid) by (intros ->; apply Hnin, list_elem_of_fmap; by exists (rid, ev')).
      destruct (IHe _ _ _ Hin Hst') as (now' & ? & ?). exists now'. simpl.
      rewrite lookup_insert_ne by done. split; [done|]. by rewrite E3.
    + apply list_elem_of_singleton in Hin as [= -> ->].
      assert (st' = st) as -> by congruence. exists now. simpl. rewrite lookup_insert_eq. split; [done|].
      by rewrite E2, Hi1.
Qed.

(** ** The gates of the advance tick *)

(** A soaking record whose failure timer ran past the threshold, while an
    enforce-mode probe fails. *)
Definition sustained (now : DateTime) (st : HostRolloutState) : Prop :=
  hs_state st = HostState.Soaking /\
  (exists first, hs_probe_failure_first_at st = Some first /\
     (SUSTAINED_FAILURE_THRESHOLD_SECS <= num_seconds (now - first))%Z) /\
  (exists name pr, hs_probes st !! name = Some pr /\
     pr_mode pr = ProbeMode.Enforce /\ pr_status pr = ProbeStatus.Fail).

(** A soaking record that may converge. *)
Definition ready (now : DateTime) (st : HostRolloutState) : Prop :=
  hs_state st = HostState.Soaking /\
  (exists due, hs_soak_due_at st = Some due /\ (due <= now)%Z) /\
  hs_current_closure st = Some (hs_target_closure st) /\
  (forall name pr, hs_probes st !! name = Some pr ->
     pr_mode pr = ProbeMode.Enforce -> pr_status pr = ProbeStatus.Pass).

Lemma sustained_not_ready now st : sustained now st -> ready now st -> False.
Proof.
  intros (_ & _ & name & pr & Hp & Hm & Hs) (_ & _ & _ & Hall). specialize (Hall _ _ Hp Hm). congruence.
Qed.

Lemma collect_failing_spec (probes : gmap string ProbeRecord) :
  collect_failing_enforce_probes probes <> [] <->
  exists name pr, probes !! name = Some pr /\
    pr_mode pr = ProbeMode.Enforce /\ pr_status pr = ProbeStatus.Fail.
Proof.
  unfold collect_failing_enforce_probes. split.
  - destruct (List.filter _ _) as [|[name pr] l] eqn:E; [done|]. intros _.
    assert (Hin : In (name, pr) (List.filter (fun p : string * ProbeRecord =>
              bool_decide (pr_status p.2 = ProbeStatus.Fail) &&
              bool_decide (pr_mode p.2 = ProbeMode.Enforce)) (hash_iter probes)))
      by (rewrite E; by left).
    apply filter_In in Hin as [Hin [H1 H2]%andb_true_iff].
    apply bool_decide_eq_true in H1, H2. exists name, pr. split_and!; [|done..].
    by apply elem_of_hash_iter, list_elem_of_In.
  - intros (name & pr & Hp & Hm & Hs) E. apply fmap_nil_inv in E.
    assert (Hin : In (name, pr) (hash_iter probes)) by by apply list_elem_of_In, elem_of_hash_iter.
    pose proof (proj2 (filter_In (fun p : string * ProbeRecord =>
              bool_decide (pr_status p.2 = ProbeStatus.Fail) &&
              bool_decide (pr_mode p.2 = ProbeMode.Enforce)) (name, pr) (hash_iter probes))) as Hf.
    rewrite E in Hf. apply Hf. split; [done|]. simpl. by rewrite !bool_decide_eq_true_2.
Qed.

Lemma all_enforce_probes_pass_spec (probes : gmap string ProbeRecord) :
  all_enforce_probes_pass probes = true <->
  (forall name pr, probes !! name = Some pr ->
     pr_mode pr = ProbeMode.Enforce -> pr_status pr = ProbeStatus.Pass).
Proof.
  unfold all_enforce_probes_pass. rewrite forallb_forall. split.
  - intros H name pr Hp Hm. eapply bool_decide_eq_true, H. apply filter_In.
    split; [|by apply bool_decide_eq_true].
    apply list_elem_of_In, list_elem_of_fmap. exists (name, pr). split; [done|].
    by apply elem_of_map_to_list.
  - intros H pr [Hin Hm]%filter_In. apply bool_decide_eq_true in Hm. apply bool_decide_eq_true.
    apply list_elem_of_In, list_elem_of_fmap in Hin as ([name pr'] & -> & Hin).
    by eapply H; [apply elem_of_map_to_list|].
Qed.

Lemma fail_gate_spec manifests now rid st :
  match fail_gate manifests now (rid, st) with
  | Some (rid', ev) => rid' = rid /\ sustained now st /\ exists secs failing,
      ev = Event.LocalSustainedFailureCrossed now secs failing
             (from_option rp_on_health_failure OnHealthFailure.Halt
                (resolve_policy manifests (hs_channel st))) 0
  | None => ~ sustained now st
  end.
Proof.
  unfold fail_gate, sustained.
  destruct (bool_decide_reflect (hs_state st = HostState.Soaking)) as [Hs|Hs]; simpl; [|tauto].
  destruct (hs_probe_failure_first_at st) as [first|]; [|naive_solver].
  destruct (Z.ltb_spec (num_seconds (now - first)) SUSTAINED_FAILURE_THRESHOLD_SECS) as [Hlt|Hge].
  { intros (_ & (? & [= <-] & ?) & _). lia. }
  pose proof (collect_failing_spec (hs_probes st)) as Hc.
  destruct (collect_failing_enforce_probes _) as [|n l]; simpl.
  { intros (_ & _ & H). by apply Hc in H. }
  split_and!; [done..|by exists first| |by repeat eexists]. by apply Hc.
Qed.

Lemma pass_gate_spec now rid st :
  match pass_gate now (rid, st) with
  | Some (rid', ev) => rid' = rid /\ ready now st /\
      ev = Event.LocalConvergedReached now (hs_target_closure st) 0
  | None => ~ ready now st
  end.
Proof.
  unfold pass_gate, ready.
  destruct (bool_decide_reflect (hs_state st = HostState.Soaking)) as [Hs|Hs]; simpl; [|tauto].
  destruct (hs_soak_due_at st) as [due|]; [|naive_solver].
  destruct (Z.ltb_spec now due) as [Hlt|Hge].
  { intros (_ & (? & [= <-] & ?) & _). lia. }
  destruct (hs_current_closure st) as [cur|]; [|naive_solver].
  destruct (bool_decide_reflect (cur = hs_target_closure st)) as [->|Hne]; simpl; [|naive_solver].
  pose proof (all_enforce_probes_pass_spec (hs_probes st)) as Hc.
  destruct (all_enforce_probes_pass _); simpl.
  - split_and!; [done..|by exists due|done|by apply Hc|done].
  - intros (_ & _ & _ & H). apply Hc in H. done.
Qed.

Lemma omap_keys_sublist {V} (f : RolloutId * V -> option (RolloutId * Event))
    (l : list (RolloutId * V)) :
  (forall k v r, f (k, v) = Some r -> r.1 = k) -> (omap f l).*1 `sublist_of` l.*1.
Proof.
  intros Hf. induction l as [|[k v] l IH]; simpl; [constructor|].
  destruct (f (k, v)) as [r|] eqn:E; simpl; [|by apply sublist_cons].
  rewrite (Hf _ _ _ E). by apply sublist_skip.
Qed.

Lemma fail_gate_key manifests now rid st r : fail_gate manifests now (rid, st) = Some r -> r.1 = rid.
Proof. intros H. pose proof (fail_gate_spec manifests now rid st) as Hs. rewrite H in Hs. by destruct r, Hs. Qed.

Lemma pass_gate_key now rid st r : pass_gate now (rid, st) = Some r -> r.1 = rid.
Proof. intros H. pose proof (pass_gate_spec now rid st) as Hs. rewrite H in Hs. by destruct r, Hs. Qed.

(** What the tick sends, per record. *)
Definition advance_event (manifests : option SignedManifestSet) (now : DateTime)
    (st : HostRolloutState) (ev : Event) : Prop :=
  (sustained now st /\ exists secs failing,
     ev = Event.LocalSustainedFailureCrossed now secs failing
            (from_option rp_on_health_failure OnHealthFailure.Halt
               (resolve_policy manifests (hs_channel st))) 0) \/
  (ready now st /\ ev = Event.LocalConvergedReached now (hs_target_closure st) 0).

Lemma advance_events_elem s now rid ev :
  (rid, ev) ∈ advance_events s now ->
  exists st, as_host_states s !! rid = Some st /\ advance_event (as_manifests s) now st ev.
Proof.
  unfold advance_events, advance_event.
  intros [([k st] & Hin%elem_of_hash_iter & H)%list_elem_of_omap
         |([k st] & Hin%elem_of_hash_iter & H)%list_elem_of_omap]%elem_of_app.
  - pose proof (fail_gate_spec (as_manifests s) now k st) as Hs. rewrite H in Hs.
    destruct Hs as (-> & ? & ?). exists st. split; [done|]. by left.
  - pose proof (pass_gate_spec now k st) as Hs. rewrite H in Hs.
    destruct Hs as (-> & ? & ?). exists st. split; [done|]. by right.
Qed.

Lemma advance_events_complete s now rid st :
  as_host_states s !! rid = Some st -> sustained now st \/ ready now st ->
  exists ev, (rid, ev) ∈ advance_events s now /\ advance_event (as_manifests s) now st ev.
Proof.
  intros Hst [Hsus|Hready]; unfold advance_events.
  - pose proof (fail_gate_spec (as_manifests s) now rid st) as Hs.
    destruct (fail_gate _ _ _) as [[rid' ev]|] eqn:E; [|done]. destruct Hs as (-> & ? & ?).
    exists ev. split; [|by left]. apply elem_of_app. left. apply list_elem_of_omap.
    exists (rid, st). split; [by apply elem_of_hash_iter|done].
  - pose proof (pass_gate_spec now rid st) as Hs.
    destruct (pass_gate _ _) as [[rid' ev]|] eqn:E; [|done]. destruct Hs as (-> & ? & ?).
    exists ev. split; [|by right]. apply elem_of_app. right. apply list_elem_of_omap.
    exists (rid, st). split; [by apply elem_of_hash_iter|done].
Qed.

Lemma advance_events_NoDup s now : NoDup (advance_events s now).*1.
Proof.
  unfold advance_events. rewrite fmap_app. apply NoDup_app. split_and!.
  - eapply sublist_NoDup; [apply (NoDup_fst_hash_iter (as_host_states s))|].
    apply omap_keys_sublist, fail_gate_key.
  - intros rid ([r1 e1] & -> & ([k1 st1] & Hk1%elem_of_hash_iter & H1)%list_elem_of_omap)%list_elem_of_fmap
             ([r2 e2] & Heq & ([k2 st2] & Hk2%elem_of_hash_iter & H2)%list_elem_of_omap)%list_elem_of_fmap.
    simpl in Heq. subst r2.
    pose proof (fail_gate_spec (as_manifests s) now k1 st1) as Hs1. rewrite H1 in Hs1.
    pose proof (pass_gate_spec now k2 st2) as Hs2. rewrite H2 in Hs2.
    destruct Hs1 as (-> & ? & _), Hs2 as (-> & ? & _).
    assert (st1 = st2) as -> by congruence. by eapply sustained_not_ready.
  - eapply sublist_NoDup; [apply (NoDup_fst_hash_iter (as_host_states s))|].
    apply omap_keys_sublist, pass_gate_key.
Qed.

(** ** What the two synthesized events do *)

Definition failed_record (st : HostRolloutState) (now : DateTime) (policy : OnHealthFailure)
    : HostRolloutState :=
  st <| hs_state := HostState.Failed |> <| hs_failed_at := Some now |>
     <| hs_policy_applied := Some policy |>
     <| hs_last_event_seq := (hs_last_event_seq st + 1)%Z |>.

Definition converged_record (st : HostRolloutState) (now : DateTime) : HostRolloutState :=
  st <| hs_state := HostState.Converged |> <| hs_converged_at := Some now |>
     <| hs_current_closure := Some (hs_target_closure st) |>
     <| hs_last_event_seq := (hs_last_event_seq st + 1)%Z |>.

(** The rollback a failed record asks for. *)
Definition rollback_intents (rid : RolloutId) (st : HostRolloutState) (policy : OnHealthFailure)
    : list ActivationIntent :=
  match policy, hs_current_closure_at_dispatch st with
  | OnHealthFailure.RollbackAndHalt, Some prior => [MkActivationIntent rid prior true]
  | _, _ => []
  end.

Lemma sustained_outcome manifests now now' policy st secs failing :
  (0 <= hs_last_event_seq st < u64_max)%Z -> sustained now st ->
  resolve_policy manifests (hs_channel st) = Some policy ->
  let o := event_outcome manifests st
             (Event.LocalSustainedFailureCrossed now secs failing (rp_on_health_failure policy) 0)
             now' in
  o.1 = failed_record st now (rp_on_health_failure policy) /\
  omap intent_of o.2 = rollback_intents (hs_rollout_id st) st (rp_on_health_failure policy).
Proof.
  intros Hseq (Hs & _) Hp. unfold event_outcome. rewrite Hp. cbn [with_seq].
  rewrite u64_wrap_small by lia. unfold step, dispatch. cbn [Event.seq].
  rewrite (proj2 (Z.leb_gt _ _)), Hs by lia. cbn. split; [done|].
  unfold rollback_intents. cbn. by destruct (rp_on_health_failure policy), (hs_current_closure_at_dispatch st).
Qed.

Lemma ready_outcome manifests now now' policy st :
  (0 <= hs_last_event_seq st < u64_max)%Z -> ready now st ->
  resolve_policy manifests (hs_channel st) = Some policy ->
  let o := event_outcome manifests st
             (Event.LocalConvergedReached now (hs_target_closure st) 0) now' in
  o.1 = converged_record st now /\ omap intent_of o.2 = [].
Proof.
  intros Hseq (Hs & (due & Hdue & Hle) & Hcur & Hall) Hp. unfold event_outcome. rewrite Hp.
  cbn [with_seq]. rewrite u64_wrap_small by lia. unfold step, dispatch. cbn [Event.seq].
  rewrite (proj2 (Z.leb_gt _ _)), Hs by lia. cbn -[verify_converged_invariants].
  unfold soaking.local_converged_reached.
  assert (verify_converged_invariants st (hs_target_closure st) now = Ok tt) as ->; [|done].
  apply verify_converged_spec. split_and!; [done| |done]. intros d Hd. congruence.
Qed.

Lemma tick_records s w :
  agent_wf s ->
  let now := agent_clock_reading (aw_reads w) in
  let r := run_advance_tick cfg s w in
  as_manifests r.1 = as_manifests s /\
  (forall rid, as_host_states s !! rid = None -> as_host_states r.1 !! rid = None) /\
  forall rid st, as_host_states s !! rid = Some st ->
  exists st', as_host_states r.1 !! rid = Some st' /\
  match resolve_policy (as_manifests s) (hs_channel st) with
  | None => st' = st /\ intents_for rid r.2 = intents_for rid w
  | Some policy =>
      (hs_last_event_seq st < u64_max)%Z ->
      (sustained now st ->
         st' = failed_record st now (rp_on_health_failure policy) /\
         intents_for rid r.2 =
           intents_for rid w ++ rollback_intents rid st (rp_on_health_failure policy)) /\
      (ready now st ->
         st' = converged_record st now /\ intents_for rid r.2 = intents_for rid w) /\
      (~ sustained now st -> ~ ready now st ->
         st' = st /\ intents_for rid r.2 = intents_for rid w)
  end.
Proof.
  intros Hwf now r.
  destruct (run_events_spec (advance_events s now) s (w <| aw_reads := S (aw_reads w) |>))
    as (Hm & Hother & Hev); [done|apply advance_events_NoDup| |].
  { intros rid ev (st & ? & _)%advance_events_elem. by exists st. }
  change (run_events _ _ _) with r in Hm, Hother, Hev.
  split; [done|]. split.
  { intros rid Hn. destruct (Hother rid) as [-> _]; [|done].
    intros ([? ev] & -> & (st & ? & _)%advance_events_elem)%list_elem_of_fmap. simpl in *. congruence. }
  intros rid st Hst. destruct (Hwf _ _ Hst) as [Hid Hseq].
  destruct (decide (rid ∈ (advance_events s now).*1)) as [Hin|Hnin].
  - apply list_elem_of_fmap in Hin as ([rid' ev] & -> & Hin). simpl in *.
    destruct (advance_events_elem _ _ _ _ Hin) as (st0 & Hst0 & Hcase).
    assert (st0 = st) as -> by congruence.
    destruct (Hev _ _ _ Hin Hst) as (now' & Hs' & Hi'). eexists. split; [exact Hs'|].
    change (intents_for rid' (w <| aw_reads := _ |>)) with (intents_for rid' w) in Hi'.
    destruct (resolve_policy _ _) as [policy|] eqn:Hp.
    + intros Hlt. destruct Hcase as [(Hsus & secs & failing & ->)|(Hready & ->)].
      * rewrite Hp in Hs', Hi' |- *. cbn [from_option] in *.
        destruct (sustained_outcome (as_manifests s) now now' policy st secs failing) as [E1 E2];
          [lia|done..|]. rewrite Hi', E1, E2, Hid.
        split_and!; [done|intros Hr; by destruct (sustained_not_ready now st)|done].
      * destruct (ready_outcome (as_manifests s) now now' policy st) as [E1 E2]; [lia|done..|].
        rewrite Hi', E1, E2, app_nil_r.
        split_and!; [intros Hr; by destruct (sustained_not_ready now st)|done|done].
    + rewrite Hi'. unfold event_outcome. rewrite Hp. by rewrite app_nil_r.
  - destruct (Hother _ Hnin) as [Hs' Hi'].
    change (intents_for rid (w <| aw_reads := _ |>)) with (intents_for rid w) in Hi'.
    exists st. rewrite Hs', Hst, Hi'. split; [done|].
    assert (Hno : sustained now st \/ ready now st -> False).
    { intros H. destruct (advance_events_complete s now rid st Hst H) as (ev & Hin & _).
      apply Hnin, list_elem_of_fmap. by exists (rid, ev). }
    destruct (resolve_policy _ _); [|done]. intros _. split_and!; [tauto..|done].
Qed.

(** ** What no input changes *)

Lemma run_other s rid rid' event w :
  rid' <> rid ->
  as_host_states (run_host_event cfg s rid event w).1 !! rid' = as_host_states s !! rid'.
Proof.
  intros Hne. unfold run_host_event. destruct (event_state _ _ _ _) as [[st w1]|]; [|done].
  destruct (resolve_policy _ _); [|done]. simpl. destruct (step _ _ _ _) as [[st' effs]|]; [|done].
  simpl. by rewrite lookup_insert_ne.
Qed.

(** A property of records that every step and merge keeps is kept by every
    input. *)
Lemma handle_input_preserves (P : HostRolloutState -> Prop) s input w rid st :
  (forall st e now policy st' effs, P st -> step st e now policy = Ok (st', effs) -> P st') ->
  (forall st snap, P st -> P (merge_snapshot_into_state (Some st) snap)) ->
  as_host_states s !! rid = Some st -> P st ->
  exists st', as_host_states (handle_input cfg s input w).1 !! rid = Some st' /\ P st'.
Proof.
  intros Hstep Hmerge Hst HP.
  assert (Hrun : forall s w rid' ev, (exists st, as_host_states s !! rid = Some st /\ P st) ->
            exists st', as_host_states (run_host_event cfg s rid' ev w).1 !! rid = Some st' /\ P st').
  { intros s' w' rid' ev (st0 & Hst0 & HP0).
    destruct (decide (rid = rid')) as [<-|Hne]; [|rewrite run_other by done; by exists st0].
    destruct (run_known s' rid ev w' st0 Hst0) as (now & -> & _). simpl.
    rewrite lookup_insert_eq. eexists. split; [done|]. unfold event_outcome.
    destruct (resolve_policy _ _); [|done]. destruct (step _ _ _ _) as [[st' effs]|] eqn:E; [|done].
    by eapply Hstep. }
  assert (Hevs : forall evs s w, (exists st, as_host_states s !! rid = Some st /\ P st) ->
            exists st', as_host_states (run_events evs s w).1 !! rid = Some st' /\ P st').
  { induction evs as [|[rid' ev] evs IH]; intros s0 w0 Hex; [done|].
    pose proof (Hrun s0 w0 rid' ev Hex) as H. unfold run_events in *. simpl.
    destruct (run_host_event cfg s0 rid' ev w0) as [s1 w1]. by apply IH. }
  destruct input as [rid' ev| |set|snap].
  - apply Hrun. by exists st.
  - apply (Hevs (advance_events s (agent_clock_reading (aw_reads w))) s
             (w <| aw_reads := S (aw_reads w) |>)). by exists st.
  - by exists st.
  - simpl. destruct (decide (rid = snap_rollout_id snap)) as [->|Hne].
    + rewrite lookup_insert_eq, Hst. eexists. split; [done|]. by apply Hmerge.
    + rewrite lookup_insert_ne by done. by exists st.
Qed.

(** ** The invariant, and the clock *)

Definition input_ok (input : AgentInput) : Prop :=
  match input with
  | AgentInput.HostEvent _ event => (Event.seq event <= u64_max)%Z
  | AgentInput.BootstrapHost snap => (0 <= snap_last_event_seq snap <= u64_max)%Z
  | _ => True
  end.

Lemma agent_wf_run_host_event s rid event w :
  agent_wf s -> (Event.seq event <= u64_max)%Z -> agent_wf (run_host_event cfg s rid event w).1.
Proof.
  intros Hwf Hev. destruct (as_host_states s !! rid) as [st|] eqn:Hst.
  - destruct (run_known s rid event w st Hst) as (now & -> & _).
    destruct (Hwf _ _ Hst) as [Hid Hseq]. unfold agent_wf. simpl.
    apply map_Forall_insert_2; [|done].
    destruct (event_outcome_wf (as_manifests s) st event now) as [-> ?]; done.
  - unfold run_host_event, event_state. rewrite Hst. destruct event; try done. simpl.
    destruct (resolve_policy _ _); [|done]. simpl.
    apply map_Forall_insert_2; [|done]. simpl. split; [done|]. by vm_compute.
Qed.

Lemma agent_wf_run_events evs s w :
  agent_wf s -> Forall (fun p : RolloutId * Event => (Event.seq p.2 <= u64_max)%Z) evs ->
  agent_wf (run_events evs s w).1.
Proof.
  intros Hwf H. revert s w Hwf. induction H as [|[rid ev] evs Hev _ IH]; intros s w Hwf; [done|].
  unfold run_events in *. simpl. pose proof (agent_wf_run_host_event s rid ev w Hwf Hev) as H1.
  destruct (run_host_event cfg s rid ev w). by apply IH.
Qed.

Lemma agent_wf_handle_input s input w :
  agent_wf s -> input_ok input -> agent_wf (handle_input cfg s input w).1.
Proof.
  intros Hwf Hok. destruct input as [rid ev| |set|snap]; simpl in Hok.
  - by apply agent_wf_run_host_event.
  - apply (agent_wf_run_events (advance_events s (agent_clock_reading (aw_reads w))) s
             (w <| aw_reads := S (aw_reads w) |>)); [done|].
    apply Forall_forall. intros [rid ev] (st & _ & Hev)%advance_events_elem.
    simpl. assert (Event.seq ev = 0%Z) as -> by (by destruct Hev as [(_ & ? & ? & ->)|(_ & ->)]). by vm_compute.
  - done.
  - unfold handle_input, apply_bootstrap_snapshot. simpl. unfold agent_wf. simpl.
    by apply map_Forall_insert_2.
Qed.

Lemma agent_wf_run inputs s w :
  agent_wf s -> Forall input_ok inputs -> agent_wf (agent_run cfg s inputs w).1.
Proof.
  intros Hwf H. revert s w Hwf. induction H as [|input inputs Hi _ IH]; intros s w Hwf; [exact Hwf|].
  simpl. pose proof (agent_wf_handle_input s input w Hwf Hi).
  destruct (handle_input cfg s input w). by apply IH.
Qed.

Lemma apply_effects_reads effs w : aw_reads w <= aw_reads (fold_left (apply_effect cfg) effs w).
Proof.
  revert w. induction effs as [|x effs IH]; intros w; simpl; [done|].
  etrans; [|apply IH]. destruct x; simpl; try done. destruct (enqueue _ _ _). simpl. lia.
Qed.

Lemma run_host_event_reads s rid event w : aw_reads w <= aw_reads (run_host_event cfg s rid event w).2.
Proof.
  unfold run_host_event. destruct (event_state _ _ _ _) as [[st w1]|] eqn:E; [|done].
  assert (aw_reads w <= aw_reads w1).
  { unfold event_state in E. destruct (_ !! _); [by injection E as <- <-|].
    destruct event; try discriminate. injection E as <- <-. simpl. lia. }
  destruct (resolve_policy _ _); [|done]. simpl. destruct (step _ _ _ _) as [[st' effs]|]; simpl; [|lia].
  etrans; [|apply apply_effects_reads]. simpl. lia.
Qed.

Lemma run_events_reads evs s w : aw_reads w <= aw_reads (run_events evs s w).2.
Proof.
  revert s w. induction evs as [|[rid ev] evs IH]; intros s w; [done|].
  unfold run_events in *. simpl. pose proof (run_host_event_reads s rid ev w).
  destruct (run_host_event cfg s rid ev w) as [s1 w1]. etrans; [|apply IH]. done.
Qed.

(** A tick on a sustained failure, under rollback-and-halt. *)
Lemma tick_rolls_back s w rid st policy prior :
  agent_wf s -> as_host_states s !! rid = Some st ->
  resolve_policy (as_manifests s) (hs_channel st) = Some policy ->
  rp_on_health_failure policy = OnHealthFailure.RollbackAndHalt ->
  hs_current_closure_at_dispatch st = Some prior -> (hs_last_event_seq st < u64_max)%Z ->
  sustained (agent_clock_reading (aw_reads w)) st ->
  let r := run_advance_tick cfg s w in
  agent_wf r.1 /\ as_manifests r.1 = as_manifests s /\ aw_reads w <= aw_reads r.2 /\
  as_host_states r.1 !! rid =
    Some (failed_record st (agent_clock_reading (aw_reads w)) OnHealthFailure.RollbackAndHalt) /\
  intents_for rid r.2 = intents_for rid w ++ [MkActivationIntent rid prior true].
Proof.
  intros Hwf Hst Hp Hpol Hprior Hlt Hsus r.
  pose proof (tick_records s w Hwf) as (Hm & _ & H).
  destruct (H _ _ Hst) as (st' & Hst' & Hcase). rewrite Hp in Hcase.
  destruct (Hcase Hlt) as (Hf & _). destruct (Hf Hsus) as [-> Hi].
  unfold rollback_intents in Hi. rewrite Hpol, Hprior in Hi. rewrite Hpol in Hst'.
  split_and!; [|done| |done|done].
  - by apply (agent_wf_handle_input s AgentInput.AgentAdvanceTick w).
  - etrans; [|apply (run_events_reads (advance_events s _) s (w <| aw_reads := S (aw_reads w) |>))].
    simpl. lia.
Qed.

(** A snapshot sends nothing to the activation worker. *)
Lemma snapshot_outputs s snap w :
  let r := apply_bootstrap_snapshot cfg s snap w in
  aw_intents r.2 = aw_intents w /\ aw_reads w <= aw_reads r.2.
Proof.
  unfold apply_bootstrap_snapshot. simpl. set (record := merge_snapshot_into_state _ _).
  destruct (apply_effects_outputs (rehydration_effects record) w) as [-> _].
  split; [|apply apply_effects_reads].
  unfold rehydration_effects. by destruct (hs_state record); rewrite ?app_nil_r.
Qed.

End agent_lemmas.

Lemma step_failure_timer st e now policy st' effs t :
  hs_probe_failure_first_at st = Some t -> step st e now policy = Ok (st', effs) ->
  hs_probe_failure_first_at st' = Some t.
Proof. intros Ht H. step_cases H; simpl; rewrite ?Ht; try done; by break_matches. Qed.

(** ** Snapshots *)

Lemma snapshot_of_merge existing snap :
  Reducer.host_rollout_state_to_snapshot (merge_snapshot_into_state existing snap) = snap.
Proof. destruct snap as [? ? ? []]; reflexivity. Qed.

Lemma merge_own_snapshot st :
  merge_snapshot_into_state (Some st) (Reducer.host_rollout_state_to_snapshot st) = st.
Proof. destruct st as [? ? ? []]; reflexivity. Qed.

(** A failed record put back by a snapshot taken before the failure. *)
Definition resumed_record (st : HostRolloutState) (failed_at : DateTime) (policy : OnHealthFailure)
    : HostRolloutState :=
  st <| hs_failed_at := Some failed_at |> <| hs_policy_applied := Some policy |>.

Lemma merge_over_failed st now policy :
  merge_snapshot_into_state (Some (failed_record st now policy))
    (Reducer.host_rollout_state_to_snapshot st) = resumed_record st now policy.
Proof. destruct st as [? ? ? []]; reflexivity. Qed.

Lemma num_seconds_mono a b : (a <= b)%Z -> (num_seconds a <= num_seconds b)%Z.
Proof. intros H. apply Z.quot_le_mono; [unfold nanos_per_sec; lia | done]. Qed.

(** ** A sample agent

    One rollout under rollback-and-halt, a disk that writes, and a clock that
    moves a minute at each reading. *)

Definition sample_disk : @Disk plain_codec := fun _ => @Written plain_codec.
Definition sample_agent_clock : AgentClock := fun n => (Z.of_nat n * duration_minutes 1)%Z.
Definition sample_cfg : AgentConfig := MkAgentConfig "https://cp" "web-1" 3600.
Definition sample_world : @AgentWorld plain_codec := @MkAgentWorld plain_codec 0 0 [] [] ∅.

Definition sample_agent_run (inputs : list AgentInput) : AgentState * @AgentWorld plain_codec :=
  agent_run (O := list_order) (Q := plain_codec) (C := sample_agent_clock) (D := sample_disk)
    sample_cfg agent_initial inputs sample_world.

Definition to_soaking : list AgentInput :=
  [ AgentInput.ManifestSetUpdated staged_manifests;
    AgentInput.HostEvent staged_rid
      (Event.LocalActivate "/nix/store/old" "/nix/store/new" 0 (duration_minutes 600) 0);
    AgentInput.HostEvent staged_rid (Event.LocalActivationStarted 0 "switch-to-configuration" 0);
    AgentInput.HostEvent staged_rid (Event.LocalActivationCompleted "/nix/store/new" 0 0 0) ].

Definition probe_event (status : ProbeStatus) (at_ : DateTime) : AgentInput :=
  AgentInput.HostEvent staged_rid
    (Event.LocalProbeResult "http" ProbeMode.Enforce status at_ None None 0).

Definition to_failing : list AgentInput :=
  to_soaking ++
  [ AgentInput.HostEvent staged_rid (Event.LocalProbeFailureFirst "http" ProbeMode.Enforce 0 0);
    probe_event ProbeStatus.Fail 0 ].

Lemma sample_agent_run_wf inputs : Forall input_ok inputs -> agent_wf (sample_agent_run inputs).1.
Proof. intros H. by apply agent_wf_run; [apply map_Forall_empty|]. Qed.

Ltac solve_inputs_ok :=
  repeat apply Forall_cons_2; try apply Forall_nil_2; simpl; unfold u64_max; done || lia.

Definition sample_failing : HostRolloutState :=
  Eval vm_compute in
    default sample_pending (as_host_states (sample_agent_run to_failing).1 !! staged_rid).

Lemma to_failing_state :
  (sample_agent_run to_failing).1 =
  MkAgentState {[ staged_rid := sample_failing ]} (Some staged_manifests).
Proof. by vm_compute. Qed.

Lemma sample_failing_wf m : agent_wf (MkAgentState {[ staged_rid := sample_failing ]} m).
Proof. apply map_Forall_singleton. by vm_compute. Qed.

Lemma sample_failing_sustained now : (duration_minutes 2 <= now)%Z -> sustained now sample_failing.
Proof.
  intros Hnow. split_and!.
  - reflexivity.
  - exists 0%Z. split; [reflexivity|]. rewrite Z.sub_0_r.
    apply (num_seconds_mono (duration_minutes 2)). done.
  - exists "http". eexists. by split; [vm_compute; reflexivity|].
Qed.
