(* ===== verification/AgentSpecs.v ===== *)
(** * The agent runtime: what it promises

    What an advance tick does to every record, when a switch or a rollback is
    requested, what a snapshot from the control plane keeps and overwrites, and
    which events are refused. *)

From S2P Require Import Prelude Proto HostTypes HostTransitions HostProps RolloutMachine Gates.
From S2P Require Import Wire CpStore CpRuntime CpRuntimeSpecs AgentQueue AgentQueueProps AgentRuntime.
From S2P Require Import AgentProps.
Import Agent.

(** ** Switches *)

(** The switch requests, as opposed to rollbacks. *)
Definition switch_intents `{QueueCodec} (w : AgentWorld) : list ActivationIntent :=
  List.filter (fun i => negb (ai_rollback i)) (aw_intents w).

(** The switch an event asks for: a dispatch of an unknown rollout, or of one
    that is still [Pending], under a cached policy. *)
Definition switch_of (s : AgentState) (rid : RolloutId) (event : Event) : list ActivationIntent :=
  match event with
  | Event.LocalActivate _ target _ _ _ =>
      match as_host_states s !! rid with
      | None =>
          match resolve_policy (as_manifests s) (rollout_id.channel rid) with
          | Some _ => [MkActivationIntent rid target false]
          | None => []
          end
      | Some st =>
          match resolve_policy (as_manifests s) (hs_channel st) with
          | Some _ =>
              if bool_decide (hs_state st = HostState.Pending) && Z.ltb (hs_last_event_seq st) u64_max
              then [MkActivationIntent rid (hs_target_closure st) false] else []
          | None => []
          end
      end
  | _ => []
  end.

Section switch_lemmas.
Context {O : HashOrder} {Q : QueueCodec} {C : AgentClock} {D : Disk} (cfg : AgentConfig).

Lemma filter_switches rid (effs : list Effect) :
  Forall (fun x => match x with
                   | Effect.LocalFireSwitch r _ | Effect.LocalFireRollbackTo r _
                   | Effect.LocalResetProbeCache r | Effect.LocalEmitEvent r _ _ => r = rid
                   | _ => True
                   end) effs ->
  List.filter (fun i => negb (ai_rollback i)) (omap intent_of effs) =
  (fun c => MkActivationIntent rid c false) <$> switches effs.
Proof.
  induction 1 as [|x effs Hx _ IH]; [done|].
  destruct x; simpl in *; try exact IH. subst. by f_equal.
Qed.

Lemma step_outcome_switches st event now policy :
  (0 <= hs_last_event_seq st <= u64_max)%Z ->
  match step st (with_seq event (u64_wrap (hs_last_event_seq st + 1))) now policy with
  | Ok (_, effs) =>
      switches effs = match event with
                      | Event.LocalActivate _ _ _ _ _ => [hs_target_closure st]
                      | _ => []
                      end /\
      (forall a b c d e, event = Event.LocalActivate a b c d e ->
         hs_state st = HostState.Pending /\ (hs_last_event_seq st < u64_max)%Z)
  | Err _ => forall a b c d e, event = Event.LocalActivate a b c d e ->
      hs_state st <> HostState.Pending \/ (u64_max <= hs_last_event_seq st)%Z
  end.
Proof.
  intros Hseq. set (seq' := u64_wrap _).
  destruct (step _ _ _ _) as [[st' effs]|] eqn:E.
  - pose proof (step_switches _ _ _ _ _ _ E) as ->.
    pose proof (step_next_state _ _ _ _ _ _ E) as Hn.
    pose proof (step_seq _ _ _ _ _ _ E) as [Hlt _]. split; [by destruct event|].
    intros a b c d e0 ->. simpl in Hn, Hlt.
    split; [by destruct (hs_state st)|].
    destruct (Z.eq_dec (hs_last_event_seq st) u64_max) as [Hm|]; [|lia].
    unfold seq' in Hlt. rewrite Hm in Hlt. by vm_compute in Hlt.
  - intros a b c d e0 ->. destruct (decide (hs_state st = HostState.Pending)) as [Hp|]; [|by left].
    right. destruct (Z.le_gt_cases u64_max (hs_last_event_seq st)) as [?|Hlt]; [done|].
    unfold step, dispatch, seq' in E. cbn [with_seq Event.seq] in E.
    rewrite u64_wrap_small, (proj2 (Z.leb_gt _ _)), Hp in E by lia. discriminate E.
Qed.

Lemma run_host_event_switches s rid event w :
  agent_wf s ->
  switch_intents (run_host_event cfg s rid event w).2 = switch_intents w ++ switch_of s rid event.
Proof.
  intros Hwf. unfold run_host_event, event_state.
  assert (Hrun : forall st w1 policy now, (0 <= hs_last_event_seq st <= u64_max)%Z ->
    aw_intents w1 = aw_intents w -> hs_rollout_id st = rid ->
    switch_intents (match step st (with_seq event (u64_wrap (hs_last_event_seq st + 1))) now policy with
     | Ok (st', effs) => (s <| as_host_states := <[ rid := st' ]> (as_host_states s) |>,
                          fold_left (apply_effect cfg) effs (w1 <| aw_reads := S (aw_reads w1) |>))
     | Err _ => (s, w1 <| aw_reads := S (aw_reads w1) |>) end).2
    = switch_intents w ++ match event with
        | Event.LocalActivate _ _ _ _ _ =>
            if bool_decide (hs_state st = HostState.Pending) && Z.ltb (hs_last_event_seq st) u64_max
            then [MkActivationIntent rid (hs_target_closure st) false] else []
        | _ => []
        end).
  { intros st w1 policy now Hseq Hw Hid.
    pose proof (step_outcome_switches st event now policy Hseq) as Hs. unfold switch_intents.
    destruct (step _ _ _ _) as [[st' effs]|] eqn:E; cbn [snd].
    - destruct (apply_effects_outputs cfg effs (w1 <| aw_reads := S (aw_reads w1) |>)) as [-> _].
      change (aw_intents (w1 <| aw_reads := _ |>)) with (aw_intents w1).
      rewrite Hw, List.filter_app. f_equal.
      rewrite (filter_switches rid) by (rewrite <- Hid; by eapply step_effect_ids).
      destruct Hs as [-> Hp]. destruct event; try done.
      destruct (Hp _ _ _ _ _ eq_refl) as [-> Hlt]. apply Z.ltb_lt in Hlt. by rewrite Hlt.
    - change (aw_intents (w1 <| aw_reads := _ |>)) with (aw_intents w1).
      rewrite Hw. destruct event; rewrite ?app_nil_r; try done.
      destruct (Hs _ _ _ _ _ eq_refl) as [Hne|Hge].
      + rewrite bool_decide_eq_false_2 by done. by rewrite app_nil_r.
      + apply Z.ltb_ge in Hge. rewrite Hge, andb_false_r. by rewrite app_nil_r. }
  unfold switch_of. destruct (as_host_states s !! rid) as [st|] eqn:Hst.
  - destruct (Hwf _ _ Hst) as [Hid Hseq].
    destruct (resolve_policy _ _) as [policy|]; [|destruct event; by rewrite app_nil_r].
    apply Hrun; done.
  - destruct event; try (by rewrite app_nil_r). simpl.
    destruct (resolve_policy _ _) as [policy|]; [|by rewrite app_nil_r].
    exact (Hrun (bootstrap_pending_state rid target_closure soak_due_at (agent_clock_reading (aw_reads w)))
             (w <| aw_reads := S (aw_reads w) |>) policy (agent_clock_reading (S (aw_reads w)))
             ltac:(by vm_compute) eq_refl eq_refl).
Qed.

Lemma run_events_switches evs s w :
  agent_wf s ->
  Forall (fun p : RolloutId * Event => (Event.seq p.2 <= u64_max)%Z /\
            forall a b c d e, p.2 <> Event.LocalActivate a b c d e) evs ->
  switch_intents (run_events cfg evs s w).2 = switch_intents w.
Proof.
  intros Hwf H. revert s w Hwf. induction H as [|[rid ev] evs [Hseq Hev] _ IH]; intros s w Hwf; [done|].
  pose proof (run_host_event_switches s rid ev w Hwf) as Hs.
  pose proof (agent_wf_run_host_event cfg s rid ev w Hwf Hseq) as Hwf'.
  unfold run_events in *. simpl. destruct (run_host_event cfg s rid ev w) as [s1 w1]. simpl in *.
  rewrite IH, Hs by done. destruct ev; simpl; rewrite ?app_nil_r; try done. by edestruct Hev.
Qed.

Lemma handle_input_switches s input w :
  agent_wf s ->
  switch_intents (handle_input cfg s input w).2 =
  switch_intents w ++ match input with
                      | AgentInput.HostEvent rid event => switch_of s rid event
                      | _ => []
                      end.
Proof.
  intros Hwf. destruct input as [rid ev| |set|snap].
  - by apply run_host_event_switches.
  - rewrite app_nil_r.
    refine (run_events_switches (advance_events s (agent_clock_reading (aw_reads w))) s
              (w <| aw_reads := S (aw_reads w) |>) Hwf _).
    apply Forall_forall. intros [rid ev] (st & _ & Hev)%advance_events_elem.
    by destruct Hev as [(_ & ? & ? & ->)|(_ & ->)].
  - by rewrite app_nil_r.
  - rewrite app_nil_r. unfold switch_intents, handle_input.
    by destruct (snapshot_outputs cfg s snap w) as [-> _].
Qed.

End switch_lemmas.

(** ** Properties *)

(** What an advance tick does to each record, whatever the order in which
    the two gates visit the map.  Without a cached policy for its channel a
    record stays as it is.  A soaking record whose failure timer has run for 120
    seconds while an enforce-mode probe fails becomes [Failed] under the channel's
    policy, and under rollback-and-halt exactly one rollback to the closure it
    ran at dispatch is requested; one whose soak deadline has passed, which runs
    its target and whose enforce-mode probes all pass, becomes [Converged]; every
    other record stays as it is and asks for nothing. *)
Theorem advance_tick_spec `{O : HashOrder} `{Q : QueueCodec} `{C : AgentClock} `{D : @Disk Q}
    (cfg : AgentConfig) (s : AgentState) (w : AgentWorld) :
  agent_wf s ->
  let now := agent_clock_reading (aw_reads w) in
  let r := run_advance_tick cfg s w in
  as_manifests r.1 = as_manifests s /\
  (forall rid, as_host_states s !! rid = None -> as_host_states r.1 !! rid = None) /\
  forall rid st, as_host_states s !! rid = Some st ->
  exists st', as_host_states r.1 !! rid = Some st' /\
  match resolve_policy (as_manifests s) (hs_channel st) with
  | None => st' = st /\ intents_for rid r.2 = intents_for rid w
  | Some policy =>
      (hs_last_event_seq st < u64_max)%Z ->
      (sustained now st ->
         st' = failed_record st now (rp_on_health_failure policy) /\
         intents_for rid r.2 =
           intents_for rid w ++ rollback_intents rid st (rp_on_health_failure policy)) /\
      (ready now st ->
         st' = converged_record st now /\ intents_for rid r.2 = intents_for rid w) /\
      (~ sustained now st -> ~ ready now st ->
         st' = st /\ intents_for rid r.2 = intents_for rid w)
  end.
Proof. apply tick_records. Qed.

Lemma advance_tick_spec_witness :
  let '(s, w) := sample_agent_run to_failing in
  let r := run_advance_tick (O := list_order) (Q := plain_codec) (C := sample_agent_clock)
             (D := sample_disk) sample_cfg s w in
  hs_state <$> as_host_states r.1 !! staged_rid = Some HostState.Failed.
Proof.
  destruct (sample_agent_run to_failing) as [s w] eqn:E.
  assert (Es : s = MkAgentState {[ staged_rid := sample_failing ]} (Some staged_manifests))
    by (rewrite <- to_failing_state, E; reflexivity).
  assert (Hnow : (duration_minutes 2 <= @agent_clock_reading sample_agent_clock (aw_reads w))%Z)
    by (replace w with (sample_agent_run to_failing).2 by (rewrite E; reflexivity); by vm_compute).
  destruct (advance_tick_spec (O := list_order) (Q := plain_codec) (C := sample_agent_clock)
              (D := sample_disk) sample_cfg s w) as (_ & _ & H);
    [rewrite Es; apply sample_failing_wf|].
  destruct (H staged_rid sample_failing) as (st' & Hst' & Hcase); [rewrite Es; apply lookup_singleton_eq|].
  assert (Hp : resolve_policy (as_manifests s) (hs_channel sample_failing) = Some sample_policy)
    by (rewrite Es; reflexivity).
  rewrite Hp in Hcase. destruct (Hcase ltac:(by vm_compute)) as (Hf & _).
  destruct (Hf (sample_failing_sustained _ Hnow)) as [-> _].
  cbv zeta. by rewrite Hst'.
Defined.

(** Whatever the agent is told, the time of a record's first probe failure
    never changes once it is set: neither a passing result nor a snapshot clears
    it.  The failure the tick measures against its threshold is therefore the
    time since the first failure, not the time the probe has been failing. *)
Theorem failure_timer_never_restarts `{O : HashOrder} `{Q : QueueCodec} `{C : AgentClock}
    `{D : @Disk Q} (cfg : AgentConfig) (inputs : list AgentInput) (s : AgentState)
    (w : AgentWorld) (rid : RolloutId) (st : HostRolloutState) (t : DateTime) :
  as_host_states s !! rid = Some st -> hs_probe_failure_first_at st = Some t ->
  exists st', as_host_states (agent_run cfg s inputs w).1 !! rid = Some st' /\
    hs_probe_failure_first_at st' = Some t.
Proof.
  revert s w st. induction inputs as [|input inputs IH]; intros s w st Hst Ht; [by exists st|].
  destruct (handle_input_preserves cfg (fun st => hs_probe_failure_first_at st = Some t)
              s input w rid st) as (st1 & Hst1 & Ht1); [|done..|].
  { intros. by eapply step_failure_timer. }
  simpl. destruct (handle_input cfg s input w) as [s1 w1]. by eapply IH.
Qed.

(** The probe passes for hours; its next failure ends the soak at once. *)
Lemma failure_timer_never_restarts_witness :
  let later := [ probe_event ProbeStatus.Pass (duration_minutes 1);
                 probe_event ProbeStatus.Fail (duration_minutes 500);
                 AgentInput.AgentAdvanceTick ] in
  (exists st', as_host_states (sample_agent_run (to_failing ++ later)).1 !! staged_rid = Some st' /\
     hs_probe_failure_first_at st' = Some 0%Z) /\
  hs_state <$> as_host_states (sample_agent_run (to_failing ++ later)).1 !! staged_rid
    = Some HostState.Failed.
Proof.
  split; [|by vm_compute].
  assert (Hsplit : forall inputs1 inputs2 s w,
    agent_run (O := list_order) (Q := plain_codec) (C := sample_agent_clock) (D := sample_disk)
      sample_cfg s (inputs1 ++ inputs2) w =
    let '(s, w) := agent_run (O := list_order) (Q := plain_codec) (C := sample_agent_clock)
                     (D := sample_disk) sample_cfg s inputs1 w in
    agent_run (O := list_order) (Q := plain_codec) (C := sample_agent_clock) (D := sample_disk)
      sample_cfg s inputs2 w).
  { induction inputs1 as [|i inputs1 IH]; intros inputs2 s w; simpl; [done|].
    destruct (handle_input _ _ _ _). apply IH. }
  unfold sample_agent_run. rewrite Hsplit.
  pose proof to_failing_state as E. unfold sample_agent_run in E.
  destruct (agent_run _ _ to_failing _) as [s w]. simpl in E. subst s.
  apply (failure_timer_never_restarts (O := list_order) (Q := plain_codec) (C := sample_agent_clock)
           (D := sample_disk) sample_cfg _ _ w staged_rid sample_failing 0);
    [apply lookup_singleton_eq | reflexivity].
Defined.

(** A late snapshot repeats a rollback.  The control plane answers every
    heartbeat with its view of the host; when that view is still the soaking one
    after the agent has failed the rollout and asked for the rollback, the merge
    puts the record back to [Soaking] and keeps the failing probes and the timer,
    so the next tick fails it again and asks for a second rollback. *)
Theorem stale_snapshot_repeats_rollback `{O : HashOrder} `{Q : QueueCodec} `{C : AgentClock}
    `{D : @Disk Q} (cfg : AgentConfig) (s : AgentState) (w : AgentWorld) (rid : RolloutId)
    (st : HostRolloutState) (policy : RolloutPolicy) (prior : ClosureHash) :
  agent_wf s -> (forall i j : nat, i <= j -> (agent_clock_reading i <= agent_clock_reading j)%Z) ->
  as_host_states s !! rid = Some st ->
  resolve_policy (as_manifests s) (hs_channel st) = Some policy ->
  rp_on_health_failure policy = OnHealthFailure.RollbackAndHalt ->
  hs_current_closure_at_dispatch st = Some prior ->
  (hs_last_event_seq st < u64_max)%Z ->
  sustained (agent_clock_reading (aw_reads w)) st ->
  intents_for rid (agent_run cfg s
    [ AgentInput.AgentAdvanceTick;
      AgentInput.BootstrapHost (Reducer.host_rollout_state_to_snapshot st);
      AgentInput.AgentAdvanceTick ] w).2
  = intents_for rid w ++ [ MkActivationIntent rid prior true; MkActivationIntent rid prior true ].
Proof.
  intros Hwf Hmono Hst Hp Hpol Hprior Hlt Hsus. destruct (Hwf _ _ Hst) as [Hid Hseq].
  unfold agent_run, handle_input.
  destruct (tick_rolls_back cfg s w rid st policy prior) as (Hwf1 & Hm1 & Hr1 & Hst1 & Hi1); [done..|].
  destruct (run_advance_tick cfg s w) as [s1 w1]. simpl in Hwf1, Hm1, Hr1, Hst1, Hi1.
  set (snap := Reducer.host_rollout_state_to_snapshot st).
  destruct (snapshot_outputs cfg s1 snap w1) as [Hi2 Hr2].
  pose proof (agent_wf_handle_input cfg s1 (AgentInput.BootstrapHost snap) w1 Hwf1 Hseq) as Hwf2.
  unfold handle_input in Hwf2.
  set (st2 := resumed_record st (agent_clock_reading (aw_reads w)) OnHealthFailure.RollbackAndHalt).
  assert (Hs2 : (apply_bootstrap_snapshot cfg s1 snap w1).1 =
    MkAgentState (<[ rid := st2 ]> (as_host_states s1)) (as_manifests s1)).
  { unfold apply_bootstrap_snapshot. change (snap_rollout_id snap) with (hs_rollout_id st).
    rewrite Hid, Hst1. unfold snap. rewrite merge_over_failed. reflexivity. }
  destruct (apply_bootstrap_snapshot cfg s1 snap w1) as [s2 w2]. cbn [fst snd] in *. subst s2.
  set (s2 := MkAgentState _ _) in *.
  destruct (tick_rolls_back cfg s2 w2 rid st2 policy prior) as (_ & _ & _ & _ & Hi3); try done.
  - apply lookup_insert_eq.
  - unfold s2, st2. simpl. by rewrite Hm1.
  - destruct Hsus as (Hs & (first & Hfirst & Hge) & Hprobe).
    split_and!; [exact Hs| |exact Hprobe]. exists first. split; [exact Hfirst|].
    etrans; [exact Hge|]. apply num_seconds_mono.
    assert (Hle := Hmono (aw_reads w) (aw_reads w2) ltac:(lia)). lia.
  - assert (Hw2 : intents_for rid w2 = intents_for rid w1) by (unfold intents_for; by rewrite Hi2).
    destruct (run_advance_tick cfg s2 w2) as [s3 w3]. simpl in Hi3 |- *.
    by rewrite Hi3, Hw2, Hi1, <- app_assoc.
Qed.

Lemma stale_snapshot_repeats_rollback_witness :
  intents_for staged_rid (agent_run (O := list_order) (Q := plain_codec) (C := sample_agent_clock)
    (D := sample_disk) sample_cfg (sample_agent_run to_failing).1
    [ AgentInput.AgentAdvanceTick;
      AgentInput.BootstrapHost (Reducer.host_rollout_state_to_snapshot sample_failing);
      AgentInput.AgentAdvanceTick ] (sample_agent_run to_failing).2).2
  = [ MkActivationIntent staged_rid "/nix/store/new" false;
      MkActivationIntent staged_rid "/nix/store/old" true;
      MkActivationIntent staged_rid "/nix/store/old" true ].
Proof.
  rewrite (stale_snapshot_repeats_rollback (O := list_order) (Q := plain_codec)
    (C := sample_agent_clock) (D := sample_disk) sample_cfg _ _ staged_rid sample_failing sample_policy
    "/nix/store/old"); rewrite ?to_failing_state.
  - by vm_compute.
  - apply sample_failing_wf.
  - intros i j Hij. apply Z.mul_le_mono_nonneg_r; [by vm_compute|lia].
  - apply lookup_singleton_eq.
  - reflexivity.
  - reflexivity.
  - reflexivity.
  - by vm_compute.
  - apply sample_failing_sustained. by vm_compute.
Defined.

(** A snapshot from the control plane: the agent's record then shows the
    control plane exactly the snapshot it sent, whatever was there before; what
    the snapshot does not carry is kept from the record the agent had, or empty
    when it had none; in every state but [Pending] the probe worker is reset;
    and nothing else changes.  A record's own snapshot changes nothing. *)
Theorem bootstrap_snapshot_spec `{O : HashOrder} `{Q : QueueCodec} `{C : AgentClock}
    `{D : @Disk Q} (cfg : AgentConfig) (s : AgentState) (w : AgentWorld)
    (snap : HostRolloutSnapshot) :
  let rid := snap_rollout_id snap in
  let old := as_host_states s !! rid in
  let r := handle_input cfg s (AgentInput.BootstrapHost snap) w in
  (exists st, as_host_states r.1 = <[ rid := st ]> (as_host_states s) /\
     Reducer.host_rollout_state_to_snapshot st = snap /\
     (hs_probes st, hs_probe_observed_first_at st, hs_probe_failure_first_at st,
      hs_activation_failed_at st, hs_failed_at st, hs_converged_at st, hs_reverted_to st,
      hs_reverted_at st, hs_policy_applied st) =
     match old with
     | Some e => (hs_probes e, hs_probe_observed_first_at e, hs_probe_failure_first_at e,
                  hs_activation_failed_at e, hs_failed_at e, hs_converged_at e, hs_reverted_to e,
                  hs_reverted_at e, hs_policy_applied e)
     | None => (∅, None, None, None, None, None, None, None, None)
     end /\
     (forall e, old = Some e -> snap = Reducer.host_rollout_state_to_snapshot e -> st = e)) /\
  as_manifests r.1 = as_manifests s /\
  r.2 = w <| aw_resets := aw_resets w ++
              (if decide (snap_state snap = WireState.Pending) then [] else [MkProbeResetCommand rid]) |>.
Proof.
  simpl. split_and!; [| done |].
  - eexists. split; [done|]. split; [apply snapshot_of_merge|]. split.
    + by destruct (as_host_states s !! _).
    + intros e -> ->. apply merge_own_snapshot.
  - destruct snap as [rid ? ? []]; simpl; try done. rewrite app_nil_r. by destruct w.
Qed.

(** The agent never defers.  The event the activation worker sends when a
    component can only be swapped by a reboot keeps its sequence number 0, so the
    reducer refuses it: no record changes, and nothing is queued, switched or
    reset. *)
Theorem agent_never_defers `{O : HashOrder} `{Q : QueueCodec} `{C : AgentClock} `{D : @Disk Q}
    (cfg : AgentConfig) (s : AgentState) (w : AgentWorld) (rid : RolloutId) (component : string)
    (deferred_at : DateTime) :
  agent_wf s ->
  let r := handle_input cfg s (AgentInput.HostEvent rid
             (Event.LocalActivationDeferred component deferred_at 0)) w in
  r.1 = s /\ aw_intents r.2 = aw_intents w /\ aw_resets r.2 = aw_resets w /\
  aw_queue r.2 = aw_queue w.
Proof.
  intros Hwf. simpl. unfold run_host_event, event_state.
  destruct (as_host_states s !! rid) as [st|] eqn:Hst; [|done].
  destruct (resolve_policy _ _) as [policy|]; [|done]. simpl.
  destruct (Hwf _ _ Hst) as [_ Hseq]. by rewrite step_regression by (simpl; lia).
Qed.

Lemma agent_never_defers_witness :
  let r := sample_agent_run (take 3 to_soaking) in
  (handle_input (O := list_order) (Q := plain_codec) (C := sample_agent_clock) (D := sample_disk)
     sample_cfg r.1 (AgentInput.HostEvent staged_rid (Event.LocalActivationDeferred "dbus" 0 0)) r.2).1
  = r.1 /\ hs_state <$> as_host_states r.1 !! staged_rid = Some HostState.Activating.
Proof.
  set (r := sample_agent_run (take 3 to_soaking)). cbv zeta. split; [|by vm_compute].
  apply (agent_never_defers (O := list_order) (Q := plain_codec) (C := sample_agent_clock)
           (D := sample_disk) sample_cfg).
  apply sample_agent_run_wf. solve_inputs_ok.
Defined.

(** When the agent asks for a switch.  Only a dispatch does, for a rollout
    the agent does not know or that is still [Pending], and then exactly one, to
    the target; no tick, snapshot, manifest or worker event ever does.  So an
    activation that a restart interrupts is not started again: its record comes
    back from the control plane as [Activating], from which no dispatch fires. *)
Theorem switch_only_from_pending `{O : HashOrder} `{Q : QueueCodec} `{C : AgentClock}
    `{D : @Disk Q} (cfg : AgentConfig) (s : AgentState) (w : AgentWorld) (input : AgentInput) :
  agent_wf s ->
  switch_intents (handle_input cfg s input w).2 =
  switch_intents w ++ match input with
                      | AgentInput.HostEvent rid event => switch_of s rid event
                      | _ => []
                      end.
Proof. apply handle_input_switches. Qed.

(** After a restart in mid-activation the dispatch is delivered again. *)
Lemma switch_only_from_pending_witness :
  let snap := Reducer.host_rollout_state_to_snapshot
    (default sample_pending
       (as_host_states (sample_agent_run (take 3 to_soaking)).1 !! staged_rid)) in
  let r := sample_agent_run [ AgentInput.ManifestSetUpdated staged_manifests;
                              AgentInput.BootstrapHost snap ] in
  switch_intents (handle_input (O := list_order) (Q := plain_codec) (C := sample_agent_clock)
    (D := sample_disk) sample_cfg r.1
    (AgentInput.HostEvent staged_rid
      (Event.LocalActivate "/nix/store/old" "/nix/store/new" 0 (duration_minutes 600) 0)) r.2).2 = [].
Proof.
  cbv zeta.
  rewrite (switch_only_from_pending (O := list_order) (Q := plain_codec) (C := sample_agent_clock)
    (D := sample_disk) sample_cfg).
  - by vm_compute.
  - apply sample_agent_run_wf. repeat apply Forall_cons_2; try apply Forall_nil_2; by vm_compute.
Defined.
