(* ===== verification/CpRoutes.v ===== *)
(** * The control plane's event route

    Models [crates/nixfleet-control-plane/src/server/routes/events.rs]: how a
    posted envelope becomes an input of the reducer task.  The machine id that
    the client certificate proves and the state of the task's bounded channel
    are arguments. *)

From S2P Require Import Prelude Proto HostTypes Wire CpStore CpRuntime.

Inductive StatusCode := NO_CONTENT | FORBIDDEN | SERVICE_UNAVAILABLE.

Definition is_success (s : StatusCode) : bool :=
  match s with NO_CONTENT => true | _ => false end.

(** The channel to the reducer task: not created yet, or how [try_send] ends. *)
Inductive RuntimeChannel := NotSpunUp | Accepts | Full | Closed.

(** The duplicate test reads the record's sequence number; the task makes the
    same test again when it gets to the input. *)
Definition events (machine_id : string) (channel : RuntimeChannel) (envelope : AgentEventEnvelope)
    (d : Db) : StatusCode * option ReducerInput :=
  if negb (bool_decide (machine_id = env_hostname envelope)) then (FORBIDDEN, None)
  else
    let seq := AgentEvent.seq (env_event envelope) in
    let duplicate :=
      match HostRolloutRecords.load (env_rollout_id envelope) (env_hostname envelope)
              (db_records d) with
      | Some record => Z.leb seq (hs_last_event_seq record)
      | None => false
      end in
    if duplicate then (NO_CONTENT, None)
    else
      match channel with
      | NotSpunUp => (SERVICE_UNAVAILABLE, None)
      | Accepts =>
          (NO_CONTENT,
           Some (ReducerInput.HostEvent (env_hostname envelope) (env_rollout_id envelope)
                   (Event_from_wire (env_event envelope))))
      | Full | Closed => (SERVICE_UNAVAILABLE, None)
      end.

(** A post, and the task's handling of the input it sends. *)
Definition post_event {O : HashOrder} {C : Clock} (machine_id : string) (channel : RuntimeChannel)
    (rs : ReducerState) (w : World) (envelope : AgentEventEnvelope) : World :=
  match (events machine_id channel envelope (w_db w)).2 with
  | Some input => (Reducer.handle_input rs input w).1.2
  | None => w
  end.
