(* ===== verification/EndToEnd.v ===== *)
(** * Agent and control plane together

    The two runtimes joined by the outbound queue and the event route: what the
    agent's reducer task accepts reaches the control plane's record of the host,
    in order and once.  The mirror theorem of [Wire] is about the reducer alone;
    this one is about the tasks, the queue directory and the route. *)

From S2P Require Import Prelude RustStd Proto HostTypes HostTransitions HostProps RolloutMachine Gates.
From S2P Require Import Wire CpStore CpRuntime CpRuntimeProps CpRuntimeSpecs CpRoutes.
From S2P Require Import AgentQueue AgentQueueProps AgentRuntime AgentProps.
Import Agent.

(** ** The same record under another name *)

(** The agent knows itself as ["self"] and stamps its own dispatch time. *)
Definition rename (host : string) (dispatched_at : DateTime) (st : HostRolloutState)
    : HostRolloutState :=
  st <| hs_hostname := host |> <| hs_dispatched_at := dispatched_at |>.

Lemma step_now st e now now' policy : step st e now policy = step st e now' policy.
Proof. unfold step, dispatch. by destruct (Z.leb _ _), (hs_state st). Qed.

Lemma verify_rename host t st c at_ :
  verify_converged_invariants (rename host t st) c at_ = verify_converged_invariants st c at_.
Proof. done. Qed.

Lemma step_rename host t st e now policy :
  match step st e now policy, step (rename host t st) e now policy with
  | Ok (st1, _), Ok (st2, _) => st2 = rename host t st1
  | Err _, Err _ => True
  | _, _ => False
  end.
Proof.
  unfold step, dispatch. change (hs_last_event_seq (rename host t st)) with (hs_last_event_seq st).
  change (hs_state (rename host t st)) with (hs_state st).
  destruct (Z.leb _ _); [done|].
  destruct (hs_state st), e; cbn -[verify_converged_invariants]; try done.
  all: unfold soaking.local_converged_reached, soaking.remote_converged, soaking.local_probe_observed_first,
    soaking.remote_probe_observed_first, soaking.local_probe_failure_first,
    soaking.remote_probe_failure_first; rewrite ?verify_rename; try (by destruct (verify_converged_invariants _ _ _)).
  all: cbn; by break_matches.
Qed.

Lemma run_rename host t st ins : (run (rename host t st) ins).1 = rename host t (run st ins).1.
Proof.
  revert st. induction ins as [|i ins IH]; intros st; [done|]. simpl. unfold run_one.
  pose proof (step_rename host t st (in_event i) (in_now i) (in_policy i)) as Hs.
  destruct (step st _ _ _) as [[st1 e1]|], (step (rename host t st) _ _ _) as [[st2 e2]|]; try done.
  - subst st2. specialize (IH st1). by destruct (run st1 ins), (run (rename host t st1) ins).
  - specialize (IH st). by destruct (run st ins), (run (rename host t st) ins).
Qed.

Lemma run_cons st i ins : (run st (i :: ins)).1 = (run (run_one st i).1 ins).1.
Proof. simpl. destruct (run_one st i) as [st1 e1]. simpl. by destruct (run st1 ins). Qed.

(** ** The queue holds the log *)

Section queue_log.
Context {O : HashOrder} {Q : QueueCodec}.

Definition entries_match (host : string) (rid : RolloutId) (log : list OutboundAgentEvent)
    (entries : list QueuedEvent) : Prop :=
  Forall2 (fun p e => exists now, e = queue_entry host rid now p) log entries.

(** The readable entries of [dir] are those of [log], whose numbers ascend up
    to [last]. *)
Record queue_holds (host : string) (rid : RolloutId) (log : list OutboundAgentEvent) (last : Z)
    (dir : gmap string bytes) (entries : list QueuedEvent) : Prop := {
  qh_match : entries_match host rid log entries;
  qh_wf : queue_wf dir;
  qh_sorted : StronglySorted (fun a b => (qe_seq a < qe_seq b)%Z) entries;
  qh_bound : Forall (fun e => (0 <= qe_seq e <= last)%Z) entries;
  qh_visible : forall e, e ∈ entries <-> visible dir !! filename_for e = Some e;
}.

Lemma filename_seq_inj e e' :
  (0 <= qe_seq e <= u64_max)%Z -> (0 <= qe_seq e' <= u64_max)%Z ->
  filename_for e = filename_for e' -> qe_seq e = qe_seq e'.
Proof.
  intros He He' H. apply (f_equal chars) in H. rewrite !filename_chars in H.
  apply app_inj_1 in H as [H _]; [|by rewrite !decimal_length].
  by apply decimal_u64_inj; [..|apply chars_inj].
Qed.

Lemma queue_holds_empty host rid last : queue_holds host rid [] last ∅ [].
Proof.
  split; try constructor.
  - intros n e. by rewrite visible_lookup, lookup_empty; destruct (is_queue_file n).
  - by intros H%elem_of_nil.
  - rewrite visible_lookup, lookup_empty. by destruct (is_queue_file _).
Qed.

Lemma queue_holds_enqueue host rid log last dir entries now p :
  queue_holds host rid log last dir entries ->
  (last < outbound_event_seq p <= u64_max)%Z -> (0 <= last)%Z ->
  let e := queue_entry host rid now p in
  queue_holds host rid (log ++ [p]) (outbound_event_seq p) (enqueue e Written dir).2 (entries ++ [e]).
Proof.
  intros [Hm Hwf Hs Hb Hv] Hseq Hlast e. rewrite Forall_forall in Hb. split.
  - apply Forall2_app; [done|]. constructor; [by exists now|constructor].
  - by apply enqueue_wf.
  - assert (Hlt : Forall (fun a => (qe_seq a < qe_seq e)%Z) entries).
    { apply Forall_forall. intros a Ha. specialize (Hb _ Ha). simpl. lia. }
    clear -Hs Hlt. induction Hs as [|a l Hl IH HF]; simpl; [repeat constructor|].
    apply Forall_cons in Hlt as [Ha Hlt]. constructor; [by apply IH|].
    apply Forall_app. split; [done|]. by constructor.
  - apply Forall_app. split; [|constructor; [simpl; lia|constructor]].
    apply Forall_forall. intros a Ha. specialize (Hb _ Ha). lia.
  - intros e'. rewrite enqueue_visible. simpl. rewrite elem_of_app, list_elem_of_singleton. split.
    + intros [Hin| ->]; [|apply lookup_insert_eq]. pose proof (Hb _ Hin).
      rewrite lookup_insert_ne; [by apply Hv|].
      intros Heq%filename_seq_inj; simpl in *; lia.
    + intros [[_ <-]|[_ ?]]%lookup_insert_Some; [by right|left; by apply Hv].
Qed.

(** Two strictly ascending lists with the same elements are equal. *)
Lemma sorted_by_seq_unique (l l' : list QueuedEvent) :
  StronglySorted (fun a b => (qe_seq a < qe_seq b)%Z) l ->
  StronglySorted (fun a b => (qe_seq a < qe_seq b)%Z) l' ->
  (forall e, e ∈ l <-> e ∈ l') -> l = l'.
Proof.
  intros Hl Hl' Hsame. eapply (StronglySorted_unique_strong _ l l'); [|done..|].
  - intros a b _ _ H1 H2. exfalso. cbv beta in H1, H2. lia.
  - assert (Hnd : forall k : list QueuedEvent,
              StronglySorted (fun a b => (qe_seq a < qe_seq b)%Z) k -> NoDup k).
    { intros k. induction 1 as [|a k Hk IH HF]; constructor; [|done].
      intros Hin. rewrite Forall_forall in HF. specialize (HF _ Hin). lia. }
    apply NoDup_Permutation; auto.
Qed.

Lemma scan_of_queue_holds host rid log last dir entries :
  queue_holds host rid log last dir entries -> scan_pending dir = entries.
Proof.
  intros [Hm Hwf Hs Hb Hv]. destruct (scan_pending_spec dir) as (Hs' & Hvis & Hcov).
  apply sorted_by_seq_unique; [done..|]. intros e. split.
  - intros He. apply Hv. by apply scan_pending_visible.
  - intros He. apply Hv in He as He'. destruct (Hcov _ _ He') as (e' & Hin & Hseq).
    assert (e' ∈ entries) as He2 by (apply Hv; by apply scan_pending_visible).
    assert (Huniq : forall a b, a ∈ entries -> b ∈ entries -> qe_seq a = qe_seq b -> a = b).
    { clear -Hs. induction Hs as [|x l Hl IH HF]; [by intros a b Ha%elem_of_nil|].
      rewrite Forall_forall in HF.
      intros a b [->|Ha]%elem_of_cons [->|Hb]%elem_of_cons Heq; [done|..|by apply IH].
      - specialize (HF _ Hb). lia.
      - specialize (HF _ Ha). lia. }
    by rewrite (Huniq e e').
Qed.

End queue_log.

(** ** The agent's run, as a run of the reducer *)

Lemma with_seq_bound e n : (n <= u64_max)%Z -> (Event.seq e <= u64_max)%Z ->
  (Event.seq (with_seq e n) <= u64_max)%Z.
Proof. by destruct e. Qed.

Lemma with_seq_local e n : is_local (with_seq e n) = is_local e.
Proof. by destruct e. Qed.

Lemma local_emits_snoc effs effs' : local_emits (effs ++ effs') = local_emits effs ++ local_emits effs'.
Proof. apply omap_app. Qed.

Section tracking.
Context {O : HashOrder} {Q : QueueCodec} {C : AgentClock} {D : Disk} (cfg : AgentConfig).
Hypothesis disk_writes : forall n, write_outcome n = Written.
Variables (rid : RolloutId) (policy : RolloutPolicy) (st0 : HostRolloutState).
Hypothesis st0_key : hs_rollout_id st0 = rid.
Hypothesis st0_seq : (0 <= hs_last_event_seq st0)%Z.

(** The agent follows one rollout: its record is the outcome of [ins], and the
    queue holds what they emitted. *)
Record tracks (s : AgentState) (w : AgentWorld) (ins : list input) (entries : list QueuedEvent)
    : Prop := {
  tk_ins : Forall (fun i => is_local (in_event i) = true /\ in_policy i = policy) ins;
  tk_states : as_host_states s = {[ rid := (run st0 ins).1 ]};
  tk_policy : resolve_policy (as_manifests s) (hs_channel st0) = Some policy;
  tk_queue : queue_holds (cfg_machine_id cfg) rid (local_emits (run st0 ins).2)
               (hs_last_event_seq (run st0 ins).1) (aw_queue w) entries;
}.

Lemma run_keeps_identity ins :
  hs_rollout_id (run st0 ins).1 = rid /\ hs_channel (run st0 ins).1 = hs_channel st0.
Proof. pose proof (run_identity st0 ins) as [= -> _ -> _ _ _]. done. Qed.

Lemma apply_effects_queue effs w :
  Forall (fun x => match x with Effect.LocalEmitEvent r _ _ => r = rid | _ => True end) effs ->
  match local_emits effs with
  | [] => aw_queue (fold_left (apply_effect cfg) effs w) = aw_queue w
  | [p] => exists now, aw_queue (fold_left (apply_effect cfg) effs w) =
             (enqueue (queue_entry (cfg_machine_id cfg) rid now p) Written (aw_queue w)).2
  | _ => True
  end.
Proof.
  intros H. revert w. induction H as [|x effs Hx _ IH]; intros w; [done|]. simpl.
  specialize (IH (apply_effect cfg w x)).
  destruct x; simpl in IH |- *; try exact IH. subst.
  fold (local_emits effs) in IH |- *. destruct (local_emits effs); [|done].
  exists (agent_clock_reading (aw_reads w)). unfold queue_entry. rewrite IH, disk_writes.
  by destruct (enqueue _ _ _).
Qed.

Lemma track_event s w ins entries ev :
  tracks s w ins entries -> is_local ev = true -> (Event.seq ev <= u64_max)%Z ->
  exists ins' entries',
    tracks (run_host_event cfg s rid ev w).1 (run_host_event cfg s rid ev w).2 ins' entries'.
Proof.
  intros [Hins Hst Hpol Hq] Hloc Hseq. destruct (run_keeps_identity ins) as [Hid Hch].
  pose proof (run_seq st0 ins) as Hge.
  unfold run_host_event, event_state. rewrite Hst, lookup_singleton_eq, Hch, Hpol.
  set (st := (run st0 ins).1) in *. set (e := with_seq ev _). cbn [clock_now].
  destruct (step st e _ policy) as [[st' effs]|] eqn:E; [|by exists ins, entries].
  set (i := MkInput e (agent_clock_reading (aw_reads w)) policy).
  assert (Hrun : run st0 (ins ++ [i]) = (st', (run st0 ins).2 ++ effs)).
  { rewrite run_app. fold st. simpl. unfold run_one. simpl. by rewrite E, app_nil_r. }
  destruct (step_logs _ _ _ _ _ _ E) as [Hlog _].
  assert (Hle : is_local e = true) by (unfold e; by rewrite with_seq_local). rewrite Hle in Hlog.
  pose proof (step_seq _ _ _ _ _ _ E) as [Hlt Hst'].
  pose proof (apply_effects_queue effs (w <| aw_reads := S (aw_reads w) |>)) as Hqueue.
  rewrite Hlog in Hqueue. destruct Hqueue as [now Hqueue].
  { apply (Forall_impl _ _ _ (step_effect_ids _ _ _ _ _ _ E)). intros []; simpl; try done; congruence. }
  exists (ins ++ [i]), (entries ++ [queue_entry (cfg_machine_id cfg) rid now (outbound_of e)]).
  split; rewrite ?Hrun; cbn [fst snd].
  - apply Forall_app. split; [done|]. by repeat constructor.
  - simpl. by rewrite insert_singleton_eq.
  - done.
  - rewrite local_emits_snoc, Hlog, Hqueue, Hst', <- outbound_event_seq_of.
    apply (queue_holds_enqueue _ _ _ (hs_last_event_seq st)); [done| |lia].
    rewrite outbound_event_seq_of. split; [done|].
    apply with_seq_bound; [apply u64_wrap_range|done].
Qed.

Lemma track_events evs s w ins entries :
  tracks s w ins entries ->
  Forall (fun p : RolloutId * Event => p.1 = rid /\ is_local p.2 = true /\
            (Event.seq p.2 <= u64_max)%Z) evs ->
  exists ins' entries', tracks (run_events cfg evs s w).1 (run_events cfg evs s w).2 ins' entries'.
Proof.
  intros Ht H. revert s w ins entries Ht.
  induction H as [|[r ev] evs (Hr & Hl & Hs) _ IH]; intros s w ins entries Ht; [by exists ins, entries|].
  simpl in Hr, Hl, Hs. subst r. unfold run_events in *. simpl.
  destruct (track_event s w ins entries ev Ht Hl Hs) as (ins1 & entries1 & Ht1).
  destruct (run_host_event cfg s rid ev w) as [s1 w1]. by eapply IH.
Qed.

(** The inputs of the rollout: worker events, ticks, and manifests that keep
    its policy. *)
Definition own_input (input : AgentInput) : Prop :=
  match input with
  | AgentInput.HostEvent r ev => r = rid /\ is_local ev = true /\ (Event.seq ev <= u64_max)%Z
  | AgentInput.AgentAdvanceTick => True
  | AgentInput.ManifestSetUpdated set => resolve_policy (Some set) (hs_channel st0) = Some policy
  | AgentInput.BootstrapHost _ => False
  end.

Lemma track_input s w ins entries input :
  tracks s w ins entries -> own_input input ->
  exists ins' entries',
    tracks (handle_input cfg s input w).1 (handle_input cfg s input w).2 ins' entries'.
Proof.
  intros Ht Hown. destruct input as [r ev| |set|snap]; simpl in Hown.
  - destruct Hown as (-> & ? & ?). by eapply track_event.
  - refine (track_events (advance_events s (agent_clock_reading (aw_reads w))) s
              (w <| aw_reads := S (aw_reads w) |>) ins entries _ _).
    + by destruct Ht.
    + apply Forall_forall. intros [r ev] (st & Hst & Hev)%advance_events_elem. simpl.
      rewrite (tk_states _ _ _ _ Ht) in Hst. apply lookup_singleton_Some in Hst as [<- _].
      by destruct Hev as [(_ & ? & ? & ->)|(_ & ->)].
  - exists ins, entries. destruct Ht. by split.
  - done.
Qed.

Lemma track_run inputs s w ins entries :
  tracks s w ins entries -> Forall own_input inputs ->
  exists ins' entries', tracks (agent_run cfg s inputs w).1 (agent_run cfg s inputs w).2 ins' entries'.
Proof.
  intros Ht H. revert s w ins entries Ht. induction H as [|i inputs Hi _ IH]; intros s w ins entries Ht;
    [by exists ins, entries|].
  destruct (track_input s w ins entries i Ht Hi) as (ins1 & entries1 & Ht1). simpl.
  destruct (handle_input cfg s i w) as [s1 w1]. by eapply IH.
Qed.

End tracking.

(** ** The control plane's side *)

Section control_plane.
Context {O : HashOrder} {C : Clock}.

(** A post for a known record, under a known policy: the record becomes what
    the reducer makes of it. *)
Lemma post_event_record rs manifests policy w rid host st o :
  db_inv (w_db w) -> rd_manifests rs = Some manifests ->
  Reducer.resolve_policy manifests (hs_channel st) = Some policy ->
  db_records (w_db w) !! (rid, host) = Some st ->
  let w' := post_event host Accepts rs w
              (MkAgentEventEnvelope host rid (AgentEvent_from_outbound o) None) in
  db_inv (w_db w') /\
  db_records (w_db w') !! (rid, host) = Some (run_one st (MkInput (received o) 0%Z policy)).1.
Proof.
  intros Hinv Hm Hp Hst. unfold post_event, events. cbn [env_hostname env_rollout_id env_event].
  rewrite bool_decide_eq_true_2 by done. cbn [negb]. unfold HostRolloutRecords.load. rewrite Hst.
  assert (Hseq : AgentEvent.seq (AgentEvent_from_outbound o) = Event.seq (received o)) by by destruct o.
  rewrite Hseq. unfold run_one. cbn [in_event in_now in_policy].
  destruct (Z.leb_spec (Event.seq (received o)) (hs_last_event_seq st)) as [Hle|Hlt].
  { cbn [snd]. split; [done|]. by rewrite step_regression. }
  cbn [snd Reducer.handle_input fst]. fold (received o).
  split; [by apply handle_host_event_inv|].
  destruct (host_event_outcome rs host rid (received o) w) as [[[prior next] effs]|] eqn:Ho.
  - destruct (handle_host_event_accepted _ _ _ _ _ _ _ _ Hinv Ho) as (E & _).
    rewrite E, lookup_insert_eq. unfold host_event_outcome in Ho. rewrite Hst, Hm in Ho. simpl in Ho.
    rewrite Hp in Ho. simpl in Ho. rewrite (step_now _ _ _ 0%Z) in Ho.
    destruct (step st _ _ _) as [[st' effs']|]; [by injection Ho as _ -> _|done].
  - rewrite handle_host_event_dropped by done. unfold host_event_outcome in Ho.
    rewrite Hst, Hm in Ho. simpl in Ho. rewrite Hp in Ho. simpl in Ho.
    rewrite (step_now _ _ _ 0%Z) in Ho. by destruct (step st _ _ _) as [[st' effs']|].
Qed.

Lemma post_events_record rs manifests policy rid host log w st :
  db_inv (w_db w) -> rd_manifests rs = Some manifests ->
  Reducer.resolve_policy manifests (hs_channel st) = Some policy ->
  db_records (w_db w) !! (rid, host) = Some st ->
  db_records (w_db (fold_left (post_event host Accepts rs)
    ((fun o => MkAgentEventEnvelope host rid (AgentEvent_from_outbound o) None) <$> log) w))
    !! (rid, host) = Some (run st (deliver 0 policy log)).1.
Proof.
  revert w st. induction log as [|o log IH]; intros w st Hinv Hm Hp Hst; [done|].
  destruct (post_event_record rs manifests policy w rid host st o Hinv Hm Hp Hst) as [Hinv' Hst'].
  simpl in *. erewrite IH; [|done..| |exact Hst'].
  - f_equal. symmetry. exact (run_cons st (MkInput (received o) 0%Z policy) (deliver 0 policy log)).
  - unfold run_one. destruct (step st _ _ _) as [[st1 e1]|] eqn:E; [|done].
    cbn [fst]. pose proof (step_identity _ _ _ _ _ _ E) as Hid. unfold identity_of in Hid.
    cbn [in_event in_now in_policy] in Hid. injection Hid as _ _ -> _ _ _. done.
Qed.

End control_plane.

Lemma entries_match_envelopes host rid log entries :
  entries_match host rid log entries ->
  envelope_of <$> entries =
  (fun o => MkAgentEventEnvelope host rid (AgentEvent_from_outbound o) None) <$> log.
Proof. induction 1 as [|o e log entries [now ->] _ IH]; [done|]. rewrite !fmap_cons, IH. done. Qed.

(** ** Properties *)

(** C2.  End to end: the control plane's record follows the agent's, for one rollout
    and without snapshots.  An agent that is dispatched a single rollout, on a disk
    that always writes and with an empty queue, handles any worker events, ticks and
    manifest refreshes for it that leave its policy as it is; no [BootstrapHost]
    snapshot replaces its record and no other rollout shares its queue.  One pass of
    the drainer, in which every post succeeds, posts what is queued, and posts may be
    repeated afterwards in any order.  The control plane, which opened the same
    rollout with the same target, soak deadline and policy, ends with the agent's
    record, up to the name the agent gives itself and the time at which each side
    stamped the dispatch. *)
Theorem control_plane_follows_agent `{O : HashOrder} `{Q : QueueCodec} `{AC : AgentClock}
    `{D : @Disk Q} `{C : Clock} (cfg : AgentConfig) (rid : RolloutId) (target prior : ClosureHash)
    (received_at soak_due_at dispatched_at : DateTime) (policy : RolloutPolicy)
    (agent_manifests : option SignedManifestSet) (cp_manifests : SignedManifestSet)
    (inputs : list AgentInput) (w : AgentWorld) (rs : ReducerState) (wc : World)
    (again : list AgentEventEnvelope) :
  (forall n, write_outcome n = Written) -> aw_queue w = ∅ ->
  let host := cfg_machine_id cfg in
  let channel := rollout_id.channel rid in
  let opened := new_pending rid host channel target dispatched_at soak_due_at in
  Agent.resolve_policy agent_manifests channel = Some policy ->
  Reducer.resolve_policy cp_manifests channel = Some policy ->
  rd_manifests rs = Some cp_manifests -> db_inv (w_db wc) ->
  db_records (w_db wc) !! (rid, host) = Some opened ->
  Forall (own_input rid policy opened) inputs ->
  let dispatch := AgentInput.HostEvent rid
                    (Event.LocalActivate prior target received_at soak_due_at 0) in
  let r := agent_run cfg (MkAgentState ∅ agent_manifests) (dispatch :: inputs) w in
  let posted := (drain_once all_posted (aw_queue r.2)).1 in
  again ⊆ posted ->
  exists a, as_host_states r.1 !! rid = Some a /\
    db_records (w_db (fold_left (post_event host Accepts rs) (posted ++ again) wc)) !! (rid, host)
      = Some (rename host dispatched_at a).
Proof.
  intros Hdisk Hempty host channel opened Hpa Hpc Hrs Hinv Hrec Hown dispatch r posted Hagain.
  set (st0 := bootstrap_pending_state rid target soak_due_at (agent_clock_reading (aw_reads w))).
  assert (Hstart : exists ins entries, tracks cfg rid policy st0
            (handle_input cfg (MkAgentState ∅ agent_manifests) dispatch w).1
            (handle_input cfg (MkAgentState ∅ agent_manifests) dispatch w).2 ins entries).
  { assert (Ht0 : tracks cfg rid policy st0 (MkAgentState {[ rid := st0 ]} agent_manifests)
              (w <| aw_reads := S (aw_reads w) |>) [] []).
    { split; [constructor|done|done|]. simpl. rewrite Hempty. apply queue_holds_empty. }
    destruct (track_event cfg Hdisk rid policy st0 eq_refl ltac:(done) _ _ _ _
                (Event.LocalActivate prior target received_at soak_due_at 0) Ht0 eq_refl ltac:(done))
      as (ins & entries & Ht).
    exists ins, entries. revert Ht. simpl. unfold run_host_event, event_state. simpl.
    rewrite lookup_singleton_eq, lookup_empty. simpl.
    change (rollout_id.channel rid) with channel. rewrite Hpa. simpl. by rewrite insert_singleton_eq. }
  destruct Hstart as (ins0 & entries0 & Ht0).
  assert (Htrack : exists ins entries, tracks cfg rid policy st0 r.1 r.2 ins entries).
  { unfold r. cbn [agent_run]. destruct (handle_input cfg _ dispatch w) as [s1 w1].
    by eapply track_run. }
  destruct Htrack as (ins & entries & [Hins Hst _ Hq]).
  set (log := local_emits (run st0 ins).2) in *.
  assert (Hposted : posted = (fun o => MkAgentEventEnvelope host rid (AgentEvent_from_outbound o) None) <$> log).
  { unfold posted, drain_once. rewrite (scan_of_queue_holds _ _ _ _ _ _ Hq).
    rewrite drain_all_posted. apply entries_match_envelopes, (qh_match _ _ _ _ _ _ Hq). }
  exists (run st0 ins).1. split; [rewrite Hst; apply lookup_singleton_eq|].
  rewrite Hposted in Hagain |- *.
  assert (Hex : exists again', again' ⊆ log /\
    again = (fun o => MkAgentEventEnvelope host rid (AgentEvent_from_outbound o) None) <$> again').
  { clear -Hagain. induction again as [|e again IH]; [by exists []; split; [apply list_subseteq_nil|]|].
    apply list_subseteq_cons_iff in Hagain as [He Hag]. destruct (IH Hag) as (again' & Hsub & ->).
    apply list_elem_of_fmap in He as (o & -> & Ho). exists (o :: again').
    split; [by apply list_subseteq_cons_iff|done]. }
  destruct Hex as (again' & Hsub & ->). rewrite <- fmap_app.
  rewrite (post_events_record rs cp_manifests policy rid host _ wc opened Hinv Hrs Hpc Hrec).
  change opened with (rename host dispatched_at st0). rewrite run_rename. do 2 f_equal.
  destruct (mirror_run st0 ins 0%Z policy Hins) as [Hrun Hacc]. fold log in Hrun, Hacc.
  unfold deliver in *. rewrite fmap_app, run_app. simpl. rewrite run_regression; [done|].
  apply Forall_fmap, Forall_forall. intros o Ho. simpl.
  pose proof (accepted_seqs _ _ Hacc) as HS. rewrite Forall_fmap, Forall_forall in HS.
  by apply HS, Hsub.
Qed.

(** A control plane that opened rollouts for host [web-1]. *)
Definition web_opened (rid : RolloutId) : HostRolloutState :=
  new_pending rid "web-1" "stable" "/nix/store/new" 5 (duration_minutes 600).
Definition web_row (rid : RolloutId) : RolloutRow :=
  MkRolloutRow rid "stable" (rollout_id.channel_ref rid) RolloutState.Active 0 None None 0 None None.
Definition web_db : Db :=
  empty_db <| db_rollouts := {[ staged_rid := web_row staged_rid ]} |>
           <| db_records := {[ (staged_rid, "web-1") := web_opened staged_rid ]} |>.
Definition web_reducer : ReducerState :=
  Reducer.initial <| rd_manifests := Some staged_manifests |>.

Lemma web_db_inv : db_inv web_db.
Proof.
  split.
  - apply map_Forall_singleton. by split.
  - apply map_Forall_singleton. split; [by vm_compute|]. apply host_inv_new_pending.
  - intros rid h st Hl. unfold web_db in Hl. simpl in Hl.
    apply lookup_singleton_Some in Hl as [[= <- <-] <-]. exists (web_row staged_rid). by vm_compute.
Qed.

Lemma control_plane_follows_agent_witness :
  let inputs := drop 2 to_failing ++ [AgentInput.AgentAdvanceTick] in
  let r := agent_run (O := list_order) (Q := plain_codec) (C := sample_agent_clock) (D := sample_disk)
    sample_cfg (MkAgentState ∅ (Some staged_manifests))
    (AgentInput.HostEvent staged_rid
      (Event.LocalActivate "/nix/store/old" "/nix/store/new" 0 (duration_minutes 600) 0) :: inputs)
    sample_world in
  let posted := (drain_once (O := list_order) (Q := plain_codec) all_posted (aw_queue r.2)).1 in
  exists a, as_host_states r.1 !! staged_rid = Some a /\ hs_state a = HostState.Failed /\
    db_records (w_db (fold_left (post_event (O := list_order) (C := fun _ => 0%Z) "web-1" Accepts
      web_reducer) (posted ++ posted) (MkWorld web_db 0))) !! (staged_rid, "web-1")
    = Some (rename "web-1" 5 a).
Proof.
  cbv zeta.
  destruct (control_plane_follows_agent (O := list_order) (Q := plain_codec) (AC := sample_agent_clock)
    (D := sample_disk) (C := fun _ => 0%Z) sample_cfg staged_rid "/nix/store/new" "/nix/store/old"
    0 (duration_minutes 600) 5 sample_policy (Some staged_manifests) staged_manifests
    (drop 2 to_failing ++ [AgentInput.AgentAdvanceTick]) sample_world web_reducer (MkWorld web_db 0)
    (drain_once (O := list_order) (Q := plain_codec) all_posted
       (aw_queue (agent_run (O := list_order) (Q := plain_codec) (C := sample_agent_clock)
          (D := sample_disk) sample_cfg (MkAgentState ∅ (Some staged_manifests))
          (AgentInput.HostEvent staged_rid
             (Event.LocalActivate "/nix/store/old" "/nix/store/new" 0 (duration_minutes 600) 0)
           :: drop 2 to_failing ++ [AgentInput.AgentAdvanceTick]) sample_world).2)).1)
    as (a & Ha & Hr).
  - done.
  - done.
  - by vm_compute.
  - by vm_compute.
  - done.
  - exact web_db_inv.
  - by vm_compute.
  - repeat apply Forall_cons_2; try apply Forall_nil_2; simpl; unfold u64_max; done || lia || (split_and!; done || lia).
  - done.
  - exists a. split; [exact Ha|]. split; [|exact Hr].
    assert (Hs : hs_state <$> as_host_states (agent_run (O := list_order) (Q := plain_codec)
      (C := sample_agent_clock) (D := sample_disk) sample_cfg (MkAgentState ∅ (Some staged_manifests))
      (AgentInput.HostEvent staged_rid
        (Event.LocalActivate "/nix/store/old" "/nix/store/new" 0 (duration_minutes 600) 0)
       :: drop 2 to_failing ++ [AgentInput.AgentAdvanceTick]) sample_world).1 !! staged_rid
      = Some HostState.Failed) by by vm_compute.
    rewrite Ha in Hs. by injection Hs.
Defined.

(** ** Two rollouts in the queue *)

Definition other_rid : RolloutId := rollout_id.new "stable" "abd".

Definition activation_inputs (rid : RolloutId) : list AgentInput :=
  [ AgentInput.HostEvent rid
      (Event.LocalActivate "/nix/store/old" "/nix/store/new" 0 (duration_minutes 600) 0);
    AgentInput.HostEvent rid (Event.LocalActivationStarted 0 "switch-to-configuration" 0);
    AgentInput.HostEvent rid (Event.LocalActivationCompleted "/nix/store/new" 0 0 0) ].

Definition two_rollouts_run : AgentState * @AgentWorld plain_codec :=
  sample_agent_run (AgentInput.ManifestSetUpdated staged_manifests :: activation_inputs staged_rid ++ activation_inputs other_rid).

Definition two_rollouts_db : Db :=
  empty_db <| db_rollouts := {[ staged_rid := web_row staged_rid; other_rid := web_row other_rid ]} |>
           <| db_records := {[ (staged_rid, "web-1") := web_opened staged_rid;
                               (other_rid, "web-1") := web_opened other_rid ]} |>.

(** The listing order of [map_to_list], one place further. *)
Definition rotated_order : HashOrder.
Proof.
  refine {| hash_iter := fun K _ _ V m => rotate 1 (map_to_list m) |}.
  intros K ? ? V m. unfold rotate. rewrite Permutation_app_comm. by rewrite take_drop.
Defined.

(** With two rollouts in the queue an event can be lost though every post
    succeeds.  The scan keeps one entry per sequence number, so a drain may post
    the second event of a rollout in its first pass and the first one later; the
    control plane answers 204 to an event that is not legal yet and drops it.
    Here, for one listing order of the directory, three passes empty the queue,
    the agent soaks and the control plane believes that it still activates. *)
Theorem shadowed_event_is_lost :
  exists O : HashOrder,
  let drained := drain_rounds (O := O) (Q := plain_codec) (fun _ => true) 3 (aw_queue two_rollouts_run.2) in
  let cp := fold_left (post_event (O := list_order) (C := fun _ => 0%Z) "web-1" Accepts web_reducer)
              drained.1 (MkWorld two_rollouts_db 0) in
  visible drained.2 = ∅ /\
  hs_state <$> as_host_states two_rollouts_run.1 !! staged_rid = Some HostState.Soaking /\
  hs_state <$> db_records (w_db cp) !! (staged_rid, "web-1") = Some HostState.Activating.
Proof. exists rotated_order. by vm_compute. Qed.
