(* ===== verification/AgentActivation.v ===== *)
(** * The agent's activation pipeline and its worker

    Models [crates/nixfleet-agent/src/activation/] ([types.rs], [realise.rs],
    [profile.rs], [verify_poll.rs], [linux.rs], [darwin.rs], [pipeline.rs],
    [rollback.rs]) and [runtime/workers/activation.rs].  What the commands, the
    links of the file system and the clock answer is the record [Machine]; each
    function returns, besides its result, the commands it ran, in order.  The
    trait [ActivationBackend] is a type class with an instance per platform. *)

From S2P Require Import Prelude RustStd Proto HostTypes AgentRuntime.
From stdpp Require Import pretty.

(** ** Types ([activation/types.rs]) *)

Record ActivationTarget := MkActivationTarget {
  at_closure_hash : string;
  at_channel_ref : string;
}.

Definition POLL_BUDGET : Duration := duration_seconds 300.
Definition POLL_INTERVAL : Duration := duration_seconds 2.

Module ActivationOutcome.
Inductive t :=
| FiredAndPolled
| RealiseFailed (reason : string)
| SignatureMismatch (closure_hash stderr_tail : string)
| SwitchFailed (phase : string) (exit_code : option i32)
| VerifyMismatch (expected actual : string)
| DeferredPendingReboot (component : string).
End ActivationOutcome.
Abbreviation ActivationOutcome := ActivationOutcome.t.

Module RollbackOutcome.
Inductive t :=
| FiredAndPolled (reverted_to_closure : string)
| Failed (phase : string) (exit_code : option i32).
End RollbackOutcome.
Abbreviation RollbackOutcome := RollbackOutcome.t.

(** ** Commands and their answers *)

Inductive Command :=
| NixStoreRealise (store_path : string)
| NixEnvSet (store_path : string)
| NixEnvRollback
| SwitchBoot (switch_bin : string)
| ResetFailed (unit_name : string)
| RunUnit (unit_name switch_bin : string)
| SpawnDetached (program : string).

(** A finished process: its exit code, absent when a signal ended it. *)
Record Output := MkOutput {
  out_code : option i32;
  out_stdout : result string string;   (* [from_utf8] *)
  out_stderr : string;                 (* [from_utf8_lossy] *)
}.

Definition code_success (code : option i32) : bool := bool_decide (code = Some 0%Z).

(** [{:?}] of an exit code. *)
Definition debug_code (code : option i32) : string :=
  match code with Some z => "Some(" ++ pretty z ++ ")" | None => "None" end.

(** What the host answers.  A command that cannot be spawned answers [None]; so
    does a link that cannot be read. *)
Record Machine := MkMachine {
  m_exists : string -> bool;
  m_flock : option (option i32);
  m_realise : string -> option Output;
  m_nix_env_set : string -> option (option i32);
  m_nix_env_rollback : option (option i32);
  m_switch_boot : option (option i32);
  m_run_unit : option (option i32);
  m_systemctl_show : string -> option Output;
  m_spawn_detached : string -> bool;
  m_read_link : string -> option string;     (* the profile links, after the switch *)
  m_current_link : option string;            (* [/run/current-system] before the switch *)
  m_poll_link : nat -> option string;        (* and at each reading of the loop *)
  m_canonicalize : string -> option string;
  m_instant : nat -> Z;
  m_to_str : string -> option string;        (* the UTF-8 check of a file name *)
  m_to_string_lossy : string -> string;
  m_to_lowercase : string -> string;
}.

(** ** [realise.rs] *)

Definition signature_phrases : list string :=
  [ "lacks a valid signature"; "no signature is trusted"; "is not signed by any of the keys";
    "no signatures matched"; "signature mismatch"; "untrusted signature" ].

Module RealiseError.
Inductive t :=
| SignatureMismatch (stderr_tail : string)
| Other (err : string).
End RealiseError.

Section machine.
Variable M : Machine.

Definition looks_like_signature_error (stderr : string) : bool :=
  let lower := m_to_lowercase M stderr in
  existsb (fun needle => contains needle lower) signature_phrases.

(** [err.to_string()] is the outermost context of the error. *)
Definition realise (store_path : string) : ended (result string RealiseError.t) :=
  match m_realise M store_path with
  | None => Returned (Err (RealiseError.Other ("spawn nix-store --realise " ++ store_path)))
  | Some output =>
      if negb (code_success (out_code output)) then
        let stderr := out_stderr output in
        if looks_like_signature_error stderr then
          match slice_from (String.length stderr - 500) stderr with
          | Returned tail => Returned (Err (RealiseError.SignatureMismatch tail))
          | Panicked => Panicked
          | OutOfFuel => OutOfFuel
          end
        else Returned (Err (RealiseError.Other
               ("nix-store --realise " ++ store_path ++ " exited " ++ debug_code (out_code output)
                ++ ": " ++ stderr)))
      else
        match out_stdout output with
        | Err e =>
            Returned (Err (RealiseError.Other ("nix-store --realise stdout not utf-8: " ++ e)))
        | Ok stdout =>
            match first_line stdout with
            | None => Returned (Err (RealiseError.Other "nix-store --realise produced no output"))
            | Some line => Returned (Ok (trim line))
            end
        end
  end.

(** ** [profile.rs] *)

(** The generation link the profile points to. *)
Definition gen_link (profile parent : string) : option string :=
  gen_link ← m_read_link M profile;
  Some (if is_relative gen_link then parent ++ "/" ++ gen_link else gen_link)%string.

Definition profile_matches (expected_store_path : string) : bool :=
  match gen_link "/nix/var/nix/profiles/system" "/nix/var/nix/profiles" with
  | None => false
  | Some abs_gen_link =>
      let final_target := default abs_gen_link (m_read_link M abs_gen_link) in
      bool_decide (m_to_string_lossy M final_target = expected_store_path)
  end.

(** Its failure is only logged. *)
Definition self_correct_profile (expected_store_path : string) : list Command :=
  if profile_matches expected_store_path then [] else [NixEnvSet expected_store_path].

Definition resolve_profile_target : result string string :=
  match gen_link "/nix/var/nix/profiles/system" "/nix/var/nix/profiles" with
  | None => Err "readlink /nix/var/nix/profiles/system"
  | Some abs_gen_link =>
      match m_read_link M abs_gen_link with
      | None => Err ("readlink " ++ m_to_string_lossy M abs_gen_link)%string
      | Some store_path =>
          match file_name store_path ≫= m_to_str M with
          | None => Err ("non-utf8 basename: " ++ m_to_string_lossy M store_path)%string
          | Some basename => Ok basename
          end
      end
  end.

(** ** [verify_poll.rs] *)

Inductive PollOutcome :=
| Settled
| Timeout (last_observed : string)
| FlippedToUnexpected (observed : string).

Definition read_current_system_basename (link : option string) : result string string :=
  match link with
  | None => Err "readlink /run/current-system"
  | Some target =>
      match file_name target ≫= m_to_str M with
      | None => Err ("/run/current-system target has no utf-8 basename: "
                     ++ m_to_string_lossy M target)%string
      | Some basename => Ok basename
      end
  end.

(** The loop of [until_settled] at its [i]-th reading. *)
Fixpoint poll_loop (fuel : nat) (i : nat) (deadline : Z) (expected : string)
    (previous : option string) : ended PollOutcome :=
  match fuel with
  | O => OutOfFuel
  | S fuel =>
      let next (last_observed : string) :=
        if Z.leb deadline (m_instant M (S i)) then Returned (Timeout last_observed)
        else poll_loop fuel (S i) deadline expected previous in
      match read_current_system_basename (m_poll_link M i) with
      | Ok basename =>
          if bool_decide (basename = expected) then Returned Settled
          else
            match previous with
            | Some prev =>
                if negb (bool_decide (basename = prev)) then Returned (FlippedToUnexpected basename)
                else next basename
            | None => next basename
            end
      | Err err => next ("<read-error: " ++ err ++ ">")%string
      end
  end.

(** One reading per interval of the budget, one at the start and one at the
    end. *)
Definition poll_fuel : nat := Z.to_nat (POLL_BUDGET / POLL_INTERVAL) + 2.

Definition until_settled (expected : string) (previous : option string) : ended PollOutcome :=
  poll_loop poll_fuel 0 (m_instant M 0 + POLL_BUDGET) expected previous.

End machine.

(** ** The backends ([types.rs]) *)

(** What a platform provides. *)
Class ActivationBackend := {
  is_switch_in_progress : bool;
  read_unit_exit_code : string -> option i32;
  fire_switch : ActivationTarget -> string -> result (option ActivationOutcome) string * list Command;
  fire_rollback : string -> result (option RollbackOutcome) string * list Command;
}.

(** ** [linux.rs] *)

Module linux.
Section linux.
Variable M : Machine.

Definition SWITCH_LOCK_PATH : string := "/run/nixos/switch-to-configuration.lock".

Definition is_switch_in_progress_at (lock_path : string) : bool :=
  if negb (m_exists M lock_path) then false
  else
    match m_flock M with
    | Some code => negb (code_success code)
    | None => false
    end.

Definition read_unit_exit_code (unit_name : string) : option i32 :=
  output ← m_systemctl_show M unit_name;
  if negb (code_success (out_code output)) then None
  else
    match out_stdout output with
    | Err _ => None
    | Ok stdout =>
        let trimmed := trim stdout in
        if bool_decide (trimmed = "") then None else parse_i32 trimmed
    end.

Definition SWITCH_INHIBITORS : list (string * string) :=
  [ ("dbus", "etc/systemd/system/dbus.service"); ("systemd", "sw/lib/systemd/systemd");
    ("kernel", "kernel") ].

Definition detect_switch_inhibitors (current_system new_store_path : string) : option string :=
  fst <$> List.find (fun p : string * string =>
    match m_canonicalize M (current_system ++ "/" ++ p.2),
          m_canonicalize M (new_store_path ++ "/" ++ p.2) with
    | Some c, Some n => negb (bool_decide (c = n))
    | _, _ => false
    end) SWITCH_INHIBITORS.

Definition fire_switch (target : ActivationTarget) (store_path : string)
    : result (option ActivationOutcome) string * list Command :=
  let switch_bin := (store_path ++ "/bin/switch-to-configuration")%string in
  match detect_switch_inhibitors "/run/current-system" store_path with
  | Some component =>
      match m_switch_boot M with
      | None => (Err ("spawn " ++ switch_bin ++ " boot")%string, [])
      | Some code =>
          if negb (code_success code) then
            (Ok (Some (ActivationOutcome.SwitchFailed "defer-bootloader-update" code)),
             [SwitchBoot switch_bin])
          else (Ok (Some (ActivationOutcome.DeferredPendingReboot component)),
                [SwitchBoot switch_bin])
      end
  | None =>
      match m_run_unit M with
      | None => (Err "spawn systemd-run --unit=nixfleet-switch",
                 [ResetFailed "nixfleet-switch.service"])
      | Some code =>
          let ran := [ResetFailed "nixfleet-switch.service"; RunUnit "nixfleet-switch" switch_bin] in
          if negb (code_success code) then
            (Ok (Some (ActivationOutcome.SwitchFailed "systemd-run-fire" code)), ran)
          else (Ok None, ran)
      end
  end.

Definition rollback_switch_bin (target_basename : string) : string :=
  "/nix/store/" ++ target_basename ++ "/bin/switch-to-configuration".

Definition fire_rollback (target_basename : string)
    : result (option RollbackOutcome) string * list Command :=
  match m_run_unit M with
  | None => (Err "spawn systemd-run --unit=nixfleet-rollback",
             [ResetFailed "nixfleet-rollback.service"])
  | Some code =>
      let ran := [ResetFailed "nixfleet-rollback.service";
                  RunUnit "nixfleet-rollback" (rollback_switch_bin target_basename)] in
      if negb (code_success code) then
        (Ok (Some (RollbackOutcome.Failed "systemd-run-fire" code)), ran)
      else (Ok None, ran)
  end.

End linux.
End linux.

Definition LinuxBackend (M : Machine) : ActivationBackend := {|
  is_switch_in_progress := linux.is_switch_in_progress_at M linux.SWITCH_LOCK_PATH;
  read_unit_exit_code := linux.read_unit_exit_code M;
  fire_switch := linux.fire_switch M;
  fire_rollback := linux.fire_rollback M;
|}.

(** ** [darwin.rs] *)

Module darwin.
Section darwin.
Variable M : Machine.

Definition fire_switch (target : ActivationTarget) (store_path : string)
    : result (option ActivationOutcome) string * list Command :=
  let activate_user := (store_path ++ "/activate-user")%string in
  let ran :=
    if m_exists M activate_user && m_spawn_detached M activate_user
    then [SpawnDetached activate_user] else [] in
  let activate := (store_path ++ "/activate")%string in
  if m_spawn_detached M activate then (Ok None, ran ++ [SpawnDetached activate])
  else (Ok (Some (ActivationOutcome.SwitchFailed "darwin-activate-spawn" None)), ran).

Definition fire_rollback (target_basename : string)
    : result (option RollbackOutcome) string * list Command :=
  let store_path := ("/nix/store/" ++ target_basename)%string in
  let activate := (store_path ++ "/activate")%string in
  if negb (m_exists M activate) then
    (Ok (Some (RollbackOutcome.Failed "darwin-activate-missing" None)), [])
  else if m_spawn_detached M activate then (Ok None, [SpawnDetached activate])
  else (Ok (Some (RollbackOutcome.Failed "darwin-activate-spawn" None)), []).

End darwin.
End darwin.

Definition DarwinBackend (M : Machine) : ActivationBackend := {|
  is_switch_in_progress := false;
  read_unit_exit_code := fun _ => None;
  fire_switch := darwin.fire_switch M;
  fire_rollback := darwin.fire_rollback M;
|}.

(** The platform a binary is compiled for. *)
Inductive Os := Linux | Macos.

Definition DEFAULT_BACKEND (target_os : Os) (M : Machine) : ActivationBackend :=
  match target_os with Linux => LinuxBackend M | Macos => DarwinBackend M end.

(** ** [pipeline.rs] *)

Section pipeline.
Variables (M : Machine) (B : ActivationBackend).

Definition activate_with (target : ActivationTarget)
    : ended (result ActivationOutcome string) * list Command :=
  if is_switch_in_progress then
    (Returned (Ok (ActivationOutcome.RealiseFailed
       "switch-to-configuration lock held by another process; will retry on next tick")), [])
  else
    let store_path := ("/nix/store/" ++ at_closure_hash target)%string in
    let ran := [NixStoreRealise store_path] in
    match realise M store_path with
    | Panicked => (Panicked, ran)
    | OutOfFuel => (OutOfFuel, ran)
    | Returned (Err (RealiseError.SignatureMismatch stderr_tail)) =>
        (Returned (Ok (ActivationOutcome.SignatureMismatch (at_closure_hash target) stderr_tail)), ran)
    | Returned (Err (RealiseError.Other err)) =>
        (Returned (Ok (ActivationOutcome.RealiseFailed err)), ran)
    | Returned (Ok realised) =>
        if negb (bool_decide (realised = store_path)) then
          (Returned (Ok (ActivationOutcome.RealiseFailed
             ("realised path " ++ realised ++ " does not match requested " ++ store_path))), ran)
        else
          match m_nix_env_set M store_path with
          | None => (Returned (Err "spawn nix-env --set"), ran)
          | Some code =>
              let ran := ran ++ [NixEnvSet store_path] in
              if negb (code_success code) then
                (Returned (Ok (ActivationOutcome.SwitchFailed "nix-env-set" code)), ran)
              else
                match read_current_system_basename M (m_current_link M) with
                | Err err =>
                    (Returned (Ok (ActivationOutcome.RealiseFailed
                       ("pre-switch /run/current-system read failed: " ++ err))), ran)
                | Ok previous_basename =>
                    let '(fired, cmds) := fire_switch target store_path in
                    let ran := ran ++ cmds in
                    match fired with
                    | Err err => (Returned (Err err), ran)
                    | Ok (Some outcome) => (Returned (Ok outcome), ran)
                    | Ok None =>
                        match until_settled M (at_closure_hash target) (Some previous_basename) with
                        | Returned Settled =>
                            (Returned (Ok ActivationOutcome.FiredAndPolled),
                             ran ++ self_correct_profile M store_path)
                        | Returned (Timeout _) =>
                            (Returned (Ok (ActivationOutcome.SwitchFailed "switch-poll-timeout"
                               (read_unit_exit_code "nixfleet-switch.service"))), ran)
                        | Returned (FlippedToUnexpected observed) =>
                            (Returned (Ok (ActivationOutcome.VerifyMismatch (at_closure_hash target)
                               observed)), ran)
                        | Panicked => (Panicked, ran)
                        | OutOfFuel => (OutOfFuel, ran)
                        end
                    end
                end
          end
    end.

(** ** [rollback.rs] *)

(** The [unreachable!] of the last arm is a panic. *)
Definition rollback_with : ended (result RollbackOutcome string) * list Command :=
  match m_nix_env_rollback M with
  | None => (Returned (Err "spawn nix-env --rollback"), [])
  | Some code =>
      let ran := [NixEnvRollback] in
      if negb (code_success code) then
        (Returned (Ok (RollbackOutcome.Failed "nix-env-rollback" code)), ran)
      else
        match resolve_profile_target M with
        | Err _ => (Returned (Ok (RollbackOutcome.Failed "discover-target" None)), ran)
        | Ok target_basename =>
            let '(fired, cmds) := fire_rollback target_basename in
            let ran := ran ++ cmds in
            match fired with
            | Err err => (Returned (Err err), ran)
            | Ok (Some failure) => (Returned (Ok failure), ran)
            | Ok None =>
                match until_settled M target_basename None with
                | Returned Settled =>
                    (Returned (Ok (RollbackOutcome.FiredAndPolled target_basename)), ran)
                | Returned (Timeout _) =>
                    (Returned (Ok (RollbackOutcome.Failed "rollback-poll-timeout"
                       (read_unit_exit_code "nixfleet-rollback.service"))), ran)
                | Returned (FlippedToUnexpected _) => (Panicked, ran)
                | Panicked => (Panicked, ran)
                | OutOfFuel => (OutOfFuel, ran)
                end
            end
        end
  end.

End pipeline.

(** ** [mod.rs] *)

Section worker.
Variables (target_os : Os) (M : Machine).

Definition activate (target : ActivationTarget) : ended (result ActivationOutcome string) * list Command :=
  activate_with M (DEFAULT_BACKEND target_os M) target.

Definition rollback : ended (result RollbackOutcome string) * list Command :=
  rollback_with M (DEFAULT_BACKEND target_os M).

(** ** The worker ([runtime/workers/activation.rs]) *)

Definition activation_event (intent : ActivationIntent) (now : DateTime)
    (outcome : result ActivationOutcome string) : Event :=
  match outcome with
  | Ok ActivationOutcome.FiredAndPolled =>
      Event.LocalActivationCompleted (ai_target_closure intent) 0 now 0
  | Ok (ActivationOutcome.DeferredPendingReboot component) =>
      Event.LocalActivationDeferred component now 0
  | Ok (ActivationOutcome.SignatureMismatch closure_hash stderr_tail) =>
      Event.LocalActivationFailed (-2)
        ("signature mismatch on " ++ closure_hash ++ ": " ++ stderr_tail) now 0
  | Ok (ActivationOutcome.RealiseFailed reason) =>
      Event.LocalActivationFailed (-1) ("realise failed: " ++ reason) now 0
  | Ok (ActivationOutcome.SwitchFailed phase exit_code) =>
      Event.LocalActivationFailed (default (-1)%Z exit_code) ("switch failed at phase " ++ phase)
        now 0
  | Ok (ActivationOutcome.VerifyMismatch expected actual) =>
      Event.LocalActivationFailed (-3)
        ("verify mismatch: expected=" ++ expected ++ " actual=" ++ actual) now 0
  | Err err => Event.LocalActivationFailed (-1) ("activation pipeline error: " ++ err) now 0
  end.

Definition rollback_event (now : DateTime) (outcome : result RollbackOutcome string) : Event :=
  match outcome with
  | Ok (RollbackOutcome.FiredAndPolled reverted_to_closure) =>
      Event.LocalRollbackCompleted reverted_to_closure 0 now 0
  | Ok (RollbackOutcome.Failed phase exit_code) =>
      Event.LocalActivationFailed (default (-1)%Z exit_code) ("rollback failed at phase " ++ phase)
        now 0
  | Err err => Event.LocalActivationFailed (-1) ("rollback pipeline error: " ++ err) now 0
  end.

(** The inputs the worker sends for an intent, and the commands it runs.  Both
    times are read before the pipeline runs; a panic ends the worker. *)
Definition handle_intent (test_mode : bool) (started_at now : DateTime) (intent : ActivationIntent)
    : list AgentInput * list Command :=
  let send event := AgentInput.HostEvent (ai_rollout_id intent) event in
  let started :=
    if ai_rollback intent then []
    else [send (Event.LocalActivationStarted started_at "switch-to-configuration" 0)] in
  if test_mode then
    (started ++
     [send (if ai_rollback intent
            then Event.LocalRollbackCompleted (ai_target_closure intent) 0 now 0
            else Event.LocalActivationCompleted (ai_target_closure intent) 0 now 0)], [])
  else if ai_rollback intent then
    let '(outcome, ran) := rollback in
    match outcome with
    | Returned r => (started ++ [send (rollback_event now r)], ran)
    | Panicked | OutOfFuel => (started, ran)
    end
  else
    let '(outcome, ran) := activate (MkActivationTarget (ai_target_closure intent)
                             (rollout_id.channel_ref (ai_rollout_id intent))) in
    match outcome with
    | Returned r => (started ++ [send (activation_event intent now r)], ran)
    | Panicked | OutOfFuel => (started, ran)
    end.

End worker.
