(* ===== verification/AgentActivationProps.v ===== *)
(** * The agent's activation: what it promises

    The polling loop ends, the pipeline switches only what it verified, and the
    each outcome is backed by the answers of the machine, and the worker reports what
    the pipeline found. *)

From S2P Require Import Prelude RustStd Proto HostTypes HostTransitions HostProps Gates Wire CpStore.
From S2P Require Import CpRuntime CpRuntimeSpecs AgentQueue AgentRuntime AgentProps AgentActivation.
Import Agent.

(** ** Polling *)

Section polling.
Variable M : Machine.

Lemma poll_loop_fuel fuel i deadline expected previous :
  poll_loop M fuel i deadline expected previous = OutOfFuel ->
  forall k, 1 <= k <= fuel -> (m_instant M (i + k) < deadline)%Z.
Proof.
  revert i. induction fuel as [|fuel IH]; intros i H k Hk; [lia|]. simpl in H.
  assert (Hnext : forall last,
    (if Z.leb deadline (m_instant M (S i)) then Returned (Timeout last)
     else poll_loop M fuel (S i) deadline expected previous) = OutOfFuel ->
    (m_instant M (i + k) < deadline)%Z).
  { intros last. destruct (Z.leb_spec deadline (m_instant M (S i))) as [|Hlt]; [done|].
    intros Hrest. destruct (decide (k = 1)) as [->|Hne].
    - by replace (i + 1) with (S i) by lia.
    - replace (i + k) with (S i + (k - 1)) by lia. apply IH; [done|lia]. }
  destruct (read_current_system_basename M (m_poll_link M i)) as [basename|err]; [|by apply (Hnext _ H)].
  destruct (bool_decide _); [done|]. destruct previous as [prev|]; [|by apply (Hnext _ H)].
  destruct (negb _); [done|]. by apply (Hnext _ H).
Qed.

Lemma poll_loop_not_panicked fuel i deadline expected previous :
  poll_loop M fuel i deadline expected previous <> Panicked.
Proof.
  revert i. induction fuel as [|fuel IH]; intros i; simpl; [done|].
  destruct (read_current_system_basename M (m_poll_link M i)) as [basename|err]; repeat case_match; done || apply IH.
Qed.

(** What the loop's answer says of the readings. *)
Definition poll_answer_ok (expected : string) (previous : option string) (o : PollOutcome) : Prop :=
  match o with
  | Settled => exists i, read_current_system_basename M (m_poll_link M i) = Ok expected
  | FlippedToUnexpected observed =>
      exists i prev, previous = Some prev /\ read_current_system_basename M (m_poll_link M i) = Ok observed /\
        observed <> expected /\ observed <> prev
  | Timeout _ => True
  end.

Lemma poll_loop_answer fuel i deadline expected previous o :
  poll_loop M fuel i deadline expected previous = Returned o -> poll_answer_ok expected previous o.
Proof.
  revert i. induction fuel as [|fuel IH]; intros i; simpl; [done|].
  assert (Hnext : forall last,
    (if Z.leb deadline (m_instant M (S i)) then Returned (Timeout last)
     else poll_loop M fuel (S i) deadline expected previous) = Returned o ->
    poll_answer_ok expected previous o).
  { intros last. destruct (Z.leb _ _); [by intros [= <-]|apply IH]. }
  destruct (read_current_system_basename M (m_poll_link M i)) as [basename|err] eqn:E; [|apply Hnext].
  destruct (bool_decide_reflect (basename = expected)) as [->|Hne]; [intros [= <-]; by exists i|].
  destruct previous as [prev|]; [|apply Hnext].
  destruct (bool_decide_reflect (basename = prev)) as [->|Hnp]; simpl; [apply Hnext|].
  intros [= <-]. by exists i, prev.
Qed.

(** A loop that times out never read what it waited for, up to the deadline. *)
Lemma poll_loop_timeout fuel i deadline expected previous last :
  poll_loop M fuel i deadline expected previous = Returned (Timeout last) ->
  exists n, i <= n /\ (deadline <= m_instant M (S n))%Z /\
    forall j, i <= j <= n -> read_current_system_basename M (m_poll_link M j) <> Ok expected.
Proof.
  revert i. induction fuel as [|fuel IH]; intros i; simpl; [done|].
  assert (Hnext : forall seen,
    read_current_system_basename M (m_poll_link M i) <> Ok expected ->
    (if Z.leb deadline (m_instant M (S i)) then Returned (Timeout seen)
     else poll_loop M fuel (S i) deadline expected previous) = Returned (Timeout last) ->
    exists n, i <= n /\ (deadline <= m_instant M (S n))%Z /\
      forall j, i <= j <= n -> read_current_system_basename M (m_poll_link M j) <> Ok expected).
  { intros seen Hi. destruct (Z.leb_spec deadline (m_instant M (S i))) as [Hd|].
    - intros _. exists i. split_and!; [lia|done|]. intros j Hj. by replace j with i by lia.
    - intros (n & Hn & Hd & Hr)%IH. exists n. split_and!; [lia|done|]. intros j Hj.
      destruct (decide (j = i)) as [->|]; [done | apply Hr; lia]. }
  destruct (read_current_system_basename M (m_poll_link M i)) as [basename|err] eqn:E.
  2:{ apply Hnext. done. }
  destruct (bool_decide_reflect (basename = expected)) as [|Hne]; [done|].
  destruct previous as [prev|]; [|apply Hnext; congruence].
  destruct (bool_decide (basename = prev)); simpl; [apply Hnext; congruence|done].
Qed.

(** The clock moves on, by at least the interval each time the loop sleeps. *)
Definition sleeps : Prop :=
  (m_instant M 0 <= m_instant M 1)%Z /\
  forall i, (m_instant M (S i) + POLL_INTERVAL <= m_instant M (S (S i)))%Z.

Lemma sleeps_instant k : sleeps -> (m_instant M 0 + Z.of_nat k * POLL_INTERVAL <= m_instant M (S k))%Z.
Proof.
  intros [H0 HS]. induction k as [|k IH]; [simpl; lia|]. specialize (HS k). lia.
Qed.

Lemma until_settled_returns expected previous :
  sleeps -> exists o, until_settled M expected previous = Returned o.
Proof.
  intros Hs. unfold until_settled.
  destruct (poll_loop _ _ _ _ _ _) as [o| |] eqn:E; [by exists o| |].
  - by apply poll_loop_not_panicked in E.
  - pose proof (poll_loop_fuel _ _ _ _ _ E poll_fuel ltac:(vm_compute; lia)) as H.
    pose proof (sleeps_instant (poll_fuel - 1) Hs) as H'.
    replace (S (poll_fuel - 1)) with poll_fuel in H' by by vm_compute.
    change (0 + poll_fuel) with poll_fuel in H.
    assert (Hb : (POLL_BUDGET <= Z.of_nat (poll_fuel - 1) * POLL_INTERVAL)%Z) by by vm_compute.
    lia.
Qed.

Lemma until_settled_answer expected previous o :
  until_settled M expected previous = Returned o -> poll_answer_ok expected previous o.
Proof. apply poll_loop_answer. Qed.

Lemma until_settled_not_panicked expected previous : until_settled M expected previous <> Panicked.
Proof. apply poll_loop_not_panicked. Qed.

End polling.

(** ** What a backend promises *)

Definition switch_bin (p : string) : string := p ++ "/bin/switch-to-configuration".

Definition switches_live (p : string) (c : Command) : Prop :=
  (exists unit_name, c = RunUnit unit_name (switch_bin p)) \/ c = SpawnDetached (p ++ "/activate").

Definition writes_boot_entry (p : string) (c : Command) : Prop := c = SwitchBoot (switch_bin p).

Definition activates (p : string) (c : Command) : Prop :=
  switches_live p c \/ writes_boot_entry p c \/ c = SpawnDetached (p ++ "/activate-user").

Definition is_reset (c : Command) : Prop := exists unit_name, c = ResetFailed unit_name.

(** A backend runs only programs of the store path it is given; it says "fired"
    only after a live switch of it, and "deferred" only after it wrote the boot
    entry, for the component [needs_reboot] names, with no live switch; it reports
    a failed switch only when [refuses] tells it of one, and an error only before
    it ran anything that switches. *)
Class BackendLaws (B : ActivationBackend) (needs_reboot : string -> option string)
    (refuses : string -> string -> option i32 -> Prop) : Prop := {
  fire_switch_commands t p c : c ∈ (fire_switch t p).2 -> activates p c \/ is_reset c;
  fire_switch_done t p : (fire_switch t p).1 = Ok None ->
    needs_reboot p = None /\ Exists (switches_live p) (fire_switch t p).2;
  fire_switch_outcome t p o : (fire_switch t p).1 = Ok (Some o) ->
    match o with
    | ActivationOutcome.SwitchFailed phase code => refuses p phase code
    | ActivationOutcome.DeferredPendingReboot component =>
        needs_reboot p = Some component /\ Exists (writes_boot_entry p) (fire_switch t p).2 /\
        forall q, Forall (fun c => ~ switches_live q c) (fire_switch t p).2
    | _ => False
    end;
  fire_switch_error t p err : (fire_switch t p).1 = Err err -> Forall is_reset (fire_switch t p).2;
  fire_rollback_commands b c : c ∈ (fire_rollback b).2 -> activates ("/nix/store/" ++ b) c \/ is_reset c;
  fire_rollback_done b : (fire_rollback b).1 = Ok None ->
    Exists (switches_live ("/nix/store/" ++ b)) (fire_rollback b).2;
  fire_rollback_outcome b o : (fire_rollback b).1 = Ok (Some o) ->
    exists phase code, o = RollbackOutcome.Failed phase code;
}.

Definition needs_reboot (target_os : Os) (M : Machine) (p : string) : option string :=
  match target_os with
  | Linux => linux.detect_switch_inhibitors M "/run/current-system" p
  | Macos => None
  end.

(** What the platform answered when it would not switch: the exit code of the boot
    entry's writer or of [systemd-run]; on macOS a program that did not start. *)
Definition refuses (target_os : Os) (M : Machine) (p phase : string) (code : option i32) : Prop :=
  match target_os with
  | Linux =>
      phase = "defer-bootloader-update" /\ is_Some (needs_reboot Linux M p) /\
        m_switch_boot M = Some code /\ code <> Some 0%Z \/
      phase = "systemd-run-fire" /\ needs_reboot Linux M p = None /\
        m_run_unit M = Some code /\ code <> Some 0%Z
  | Macos =>
      phase = "darwin-activate-spawn" /\ code = None /\ m_spawn_detached M (p ++ "/activate") = false
  end.

Lemma code_success_spec code : code_success code = true <-> code = Some 0%Z.
Proof. apply bool_decide_eq_true. Qed.
Lemma code_failure_spec code : code_success code = false <-> code <> Some 0%Z.
Proof. apply bool_decide_eq_false. Qed.

Ltac split_elems :=
  repeat match goal with
  | H : _ ∈ _ :: _ |- _ => apply elem_of_cons in H as [->|H]
  | H : _ ∈ [] |- _ => by apply elem_of_nil in H
  end.

#[global] Instance linux_laws M : BackendLaws (LinuxBackend M) (needs_reboot Linux M) (refuses Linux M).
Proof.
  split; cbn [fire_switch fire_rollback LinuxBackend needs_reboot];
    unfold linux.fire_switch, linux.fire_rollback,
    activates, switches_live, writes_boot_entry, is_reset, switch_bin; intros.
  - repeat case_match; simpl in *; split_elems; eauto 6.
  - repeat case_match; simplify_eq/=. split; [done|]. apply Exists_cons_tl, Exists_cons_hd. eauto.
  - repeat case_match; simplify_eq/=; try done.
    + left. rewrite <- code_failure_spec, <- negb_true_iff. by split_and!; [|eexists| |].
    + split_and!; [done|by apply Exists_cons_hd|].
      intros q. apply Forall_singleton. by intros [[u [=]]|[=]].
    + right. rewrite <- code_failure_spec, <- negb_true_iff. by split_and!.
  - repeat case_match; simplify_eq/=; [done|]. apply Forall_singleton. eauto.
  - repeat case_match; simpl in *; split_elems; eauto 6.
  - repeat case_match; simplify_eq/=.
    apply Exists_cons_tl, Exists_cons_hd. eauto.
  - repeat case_match; simplify_eq/=; eauto.
Qed.

#[global] Instance darwin_laws M : BackendLaws (DarwinBackend M) (needs_reboot Macos M) (refuses Macos M).
Proof.
  split; cbn [fire_switch fire_rollback DarwinBackend needs_reboot];
    unfold darwin.fire_switch, darwin.fire_rollback,
    activates, switches_live, writes_boot_entry, is_reset, switch_bin; intros.
  - repeat case_match; simpl in *; split_elems; eauto 6.
  - repeat case_match; simplify_eq/=; (split; [done|]); rewrite ?Exists_app, ?Exists_cons; eauto 6.
  - repeat case_match; by simplify_eq/=.
  - repeat case_match; by simplify_eq/=.
  - repeat case_match; simpl in *; split_elems; eauto 6.
  - repeat case_match; simplify_eq/=. apply Exists_cons_hd. eauto.
  - repeat case_match; simplify_eq/=; eauto.
Qed.

#[global] Instance default_laws os M : BackendLaws (DEFAULT_BACKEND os M) (needs_reboot os M) (refuses os M).
Proof. destruct os; apply _. Qed.

(** ** The pipeline *)

Section pipeline.
Context (M : Machine) (B : ActivationBackend) (reboot : string -> option string).
Context (refused : string -> string -> option i32 -> Prop) `{!BackendLaws B reboot refused}.
Context (target : ActivationTarget).
Let p := ("/nix/store/" ++ at_closure_hash target)%string.

(** A preparation command of the pipeline. *)
Definition prepares (c : Command) : Prop := c = NixStoreRealise p \/ c = NixEnvSet p \/ is_reset c.

(** What the machine answered, and which commands had run, when the pipeline
    reports an outcome. *)
Definition backed (r : ended (result ActivationOutcome string)) (ran : list Command) : Prop :=
  match r with
  | Returned (Ok ActivationOutcome.FiredAndPolled) =>
      reboot p = None /\ Exists (switches_live p) ran /\
      exists i, read_current_system_basename M (m_poll_link M i) = Ok (at_closure_hash target)
  | Returned (Ok (ActivationOutcome.DeferredPendingReboot component)) =>
      reboot p = Some component /\ Exists (writes_boot_entry p) ran /\
      forall q, Forall (fun c => ~ switches_live q c) ran
  | Returned (Ok (ActivationOutcome.VerifyMismatch expected actual)) =>
      expected = at_closure_hash target /\ actual <> expected /\
      Exists (switches_live p) ran /\
      exists i, read_current_system_basename M (m_poll_link M i) = Ok actual
  | Returned (Ok (ActivationOutcome.RealiseFailed reason)) =>
      is_switch_in_progress = true /\ ran = [] \/
      ran = [NixStoreRealise p] /\
        (realise M p = Returned (Err (RealiseError.Other reason)) \/
         exists q, realise M p = Returned (Ok q) /\ q <> p) \/
      ran = [NixStoreRealise p; NixEnvSet p] /\
        exists err, read_current_system_basename M (m_current_link M) = Err err
  | Returned (Ok (ActivationOutcome.SignatureMismatch closure_hash stderr_tail)) =>
      closure_hash = at_closure_hash target /\ ran = [NixStoreRealise p] /\
      exists output, m_realise M p = Some output /\ out_code output <> Some 0%Z /\
        looks_like_signature_error M (out_stderr output) = true
  | Returned (Ok (ActivationOutcome.SwitchFailed phase code)) =>
      phase = "nix-env-set" /\ m_nix_env_set M p = Some code /\ code <> Some 0%Z /\
        ran = [NixStoreRealise p; NixEnvSet p] \/
      refused p phase code \/
      phase = "switch-poll-timeout" /\ Exists (switches_live p) ran /\
        exists n, (m_instant M 0 + POLL_BUDGET <= m_instant M (S n))%Z /\
          forall i, i <= n ->
            read_current_system_basename M (m_poll_link M i) <> Ok (at_closure_hash target)
  | Returned (Err _) => Forall prepares ran
  | Panicked | OutOfFuel => True
  end.

(** The pipeline once the switch is fired. *)
Definition after_fire (previous : string) : ended (result ActivationOutcome string) * list Command :=
  let '(fired, cmds) := fire_switch target p in
  let ran := [NixStoreRealise p; NixEnvSet p] ++ cmds in
  match fired with
  | Err err => (Returned (Err err), ran)
  | Ok (Some outcome) => (Returned (Ok outcome), ran)
  | Ok None =>
      match until_settled M (at_closure_hash target) (Some previous) with
      | Returned Settled =>
          (Returned (Ok ActivationOutcome.FiredAndPolled), ran ++ self_correct_profile M p)
      | Returned (Timeout _) =>
          (Returned (Ok (ActivationOutcome.SwitchFailed "switch-poll-timeout"
             (read_unit_exit_code "nixfleet-switch.service"))), ran)
      | Returned (FlippedToUnexpected observed) =>
          (Returned (Ok (ActivationOutcome.VerifyMismatch (at_closure_hash target) observed)), ran)
      | Panicked => (Panicked, ran)
      | OutOfFuel => (OutOfFuel, ran)
      end
  end.

Definition early_commands : list (list Command) :=
  [[]; [NixStoreRealise p]; [NixStoreRealise p; NixEnvSet p]].

Lemma realise_signature tail :
  realise M p = Returned (Err (RealiseError.SignatureMismatch tail)) ->
  exists output, m_realise M p = Some output /\ out_code output <> Some 0%Z /\
    looks_like_signature_error M (out_stderr output) = true.
Proof.
  unfold realise. destruct (m_realise M p) as [output|]; [|done]. intros H. exists output.
  split; [done|]. rewrite <- code_failure_spec, <- negb_true_iff.
  destruct (negb _); [|by repeat case_match]. split; [done|].
  destruct (looks_like_signature_error _ _); done.
Qed.

Lemma activate_cases :
  (exists r ran, activate_with M B target = (r, ran) /\ backed r ran /\ ran ∈ early_commands) \/
  (realise M p = Returned (Ok p) /\ m_nix_env_set M p = Some (Some 0%Z) /\
   exists previous, read_current_system_basename M (m_current_link M) = Ok previous /\
     activate_with M B target = after_fire previous).
Proof.
  unfold activate_with. fold p.
  assert (Hearly : forall r ran, backed r ran -> ran ∈ early_commands ->
    exists r' ran', (r, ran) = (r', ran') /\ backed r' ran' /\ ran' ∈ early_commands) by eauto.
  destruct is_switch_in_progress eqn:Eb; [left; apply Hearly; [left; by rewrite Eb|by left]|].
  assert (H1 : [NixStoreRealise p] ∈ early_commands) by (right; left).
  assert (H2 : [NixStoreRealise p; NixEnvSet p] ∈ early_commands) by (right; right; left).
  destruct (realise M p) as [[realised|[tail|err]]| |] eqn:Er.
  2:{ left. apply Hearly; [|done]. split_and!; [done..|]. by eapply realise_signature. }
  2:{ left. apply Hearly; [|done]. right. left. by split; [|left]. }
  2,3: left; by apply Hearly.
  destruct (bool_decide_reflect (realised = p)) as [->|Hne]; simpl.
  2:{ left. apply Hearly; [|done]. right. left. split; [done|]. right. by exists realised. }
  destruct (m_nix_env_set M p) as [code|] eqn:En.
  2:{ left. apply Hearly; [|done]. apply Forall_singleton. by left. }
  destruct (code_success code) eqn:Ec; simpl.
  2:{ apply code_failure_spec in Ec. left. apply Hearly; [|done]. left. by split_and!. }
  apply code_success_spec in Ec as ->.
  destruct (read_current_system_basename M _) as [previous|err] eqn:Es.
  2:{ left. apply Hearly; [|done]. right. right. split; [done|]. by exists err. }
  right. split_and!; [done..|]. by exists previous.
Qed.

(** The commands of a fired pipeline. *)
Lemma after_fire_commands previous :
  exists tail, (after_fire previous).2 =
    [NixStoreRealise p; NixEnvSet p] ++ (fire_switch target p).2 ++ tail /\
    (tail = [] \/ tail = [NixEnvSet p]).
Proof.
  unfold after_fire. destruct (fire_switch target p) as [fired cmds].
  assert (Hnil : exists tail, [NixStoreRealise p; NixEnvSet p] ++ cmds =
            [NixStoreRealise p; NixEnvSet p] ++ cmds ++ tail /\ (tail = [] \/ tail = [NixEnvSet p])).
  { exists []. rewrite app_nil_r. by split; [|left]. }
  destruct fired as [[outcome|]|err]; [exact Hnil| |exact Hnil].
  destruct (until_settled _ _ _) as [[|last|observed]| |]; try exact Hnil. simpl.
  exists (self_correct_profile M p). split; [done|].
  unfold self_correct_profile. destruct (profile_matches M p); [by left|by right].
Qed.

Lemma early_prepares ran c : ran ∈ early_commands -> c ∈ ran -> prepares c.
Proof. unfold prepares, early_commands. intros Hran Hc. split_elems; eauto. Qed.

Lemma after_fire_elem previous c :
  c ∈ (after_fire previous).2 ->
  prepares c \/ activates p c /\ [NixStoreRealise p; NixEnvSet p] `prefix_of` (after_fire previous).2.
Proof.
  unfold prepares. destruct (after_fire_commands previous) as (tail & -> & Htail).
  intros [Hc|[Hc|Hc]%elem_of_app]%elem_of_app; [split_elems; eauto| |].
  - apply fire_switch_commands in Hc as [Hc|Hc]; [right|eauto]. split; [done|]. by eexists.
  - destruct Htail as [->| ->]; split_elems; eauto.
Qed.

Lemma after_fire_backed previous : backed (after_fire previous).1 (after_fire previous).2.
Proof.
  pose proof (fire_switch_done (B := B) target p) as Hdone.
  pose proof (fire_switch_outcome (B := B) target p) as Hout.
  pose proof (fire_switch_error (B := B) target p) as Herr.
  unfold after_fire. destruct (fire_switch target p) as [[[o|]|err] cmds]; simpl in Hdone, Hout, Herr.
  - specialize (Hout o eq_refl). destruct o; try done; cbn [backed fst snd].
    + right. by left.
    + destruct Hout as (Hr & Hb & Hl). split_and!; [done|by do 2 apply Exists_cons_tl|].
      intros q. by repeat apply Forall_cons_2; [intros [[u [=]]|[=]]..|].
  - destruct (Hdone eq_refl) as [Hr Hl].
    assert (Hran : forall tail, Exists (switches_live p) ([NixStoreRealise p; NixEnvSet p] ++ cmds ++ tail)).
    { intros tail. do 2 apply Exists_cons_tl. apply Exists_app. by left. }
    destruct (until_settled _ _ _) as [[|last|observed]| |] eqn:Eu; cbn [backed fst snd]; try done.
    + apply until_settled_answer in Eu. split_and!; [done| |done]. rewrite <- app_assoc. apply Hran.
    + apply poll_loop_timeout in Eu as (n & _ & Hd & Hn). do 2 right. split_and!; [done| |].
      * specialize (Hran []). by rewrite app_nil_r in Hran.
      * exists n. split; [done|]. intros i Hi. apply Hn. lia.
    + apply until_settled_answer in Eu as (i & prev & _ & Hi & Hne & _).
      split_and!; [done|done| |by exists i]. specialize (Hran []). by rewrite app_nil_r in Hran.
  - specialize (Herr err eq_refl). unfold prepares. apply Forall_cons_2; [by left|].
    apply Forall_cons_2; [by right; left|]. eapply Forall_impl; [exact Herr|].
    intros c Hc. by right; right.
Qed.

(** A rollback that says it succeeded switched to, and read, what it says. *)
Lemma rollback_success c :
  (rollback_with M B).1 = Returned (Ok (RollbackOutcome.FiredAndPolled c)) ->
  resolve_profile_target M = Ok c /\
  (exists i, read_current_system_basename M (m_poll_link M i) = Ok c) /\
  NixEnvRollback ∈ (rollback_with M B).2 /\
  Exists (switches_live ("/nix/store/" ++ c)) (rollback_with M B).2.
Proof.
  unfold rollback_with.
  destruct (m_nix_env_rollback M) as [code|]; [|done]. destruct (negb _); [done|].
  destruct (resolve_profile_target M) as [b|]; [|done].
  pose proof (fire_rollback_done (B := B) b) as Hdone.
  pose proof (fire_rollback_outcome (B := B) b) as Hout.
  destruct (fire_rollback b) as [[[o|]|err] cmds]; simpl in *; [| |done].
  { destruct (Hout o eq_refl) as (? & ? & ->). done. }
  destruct (until_settled _ _ _) as [[]| |] eqn:Eu; simpl; try done. intros [= ->].
  apply until_settled_answer in Eu.
  split_and!; [done..|by left|by apply Exists_cons_tl, Hdone].
Qed.

End pipeline.

(** ** The worker and the reducer *)

Section worker.
Context {O : HashOrder} {Q : QueueCodec} {C : AgentClock} {D : Disk} (cfg : AgentConfig).
Implicit Types (s : AgentState) (w : AgentWorld).

(** An accepted event for a record whose policy resolves and whose sequence
    number does not wrap. *)
Lemma event_outcome_accepted manifests st event policy :
  resolve_policy manifests (hs_channel st) = Some policy ->
  (0 <= hs_last_event_seq st < u64_max)%Z ->
  forall now, event_outcome manifests st event now =
    match step st (with_seq event (hs_last_event_seq st + 1)) now policy with
    | Ok r => r
    | Err _ => (st, [])
    end.
Proof. intros Hp Hseq now. unfold event_outcome. by rewrite Hp, u64_wrap_small by lia. Qed.

Lemma run_record s rid event w st :
  as_host_states s !! rid = Some st ->
  exists now, as_host_states (run_host_event cfg s rid event w).1 !! rid =
                Some (event_outcome (as_manifests s) st event now).1 /\
              as_manifests (run_host_event cfg s rid event w).1 = as_manifests s.
Proof.
  intros Hst. destruct (run_known cfg s rid event w st Hst) as (now & -> & _ & _).
  exists now. cbn. by rewrite lookup_insert_eq.
Qed.

(** The state a record in [Activating] reaches with the pipeline's outcome. *)
Definition activation_result (r : result ActivationOutcome string) : HostState :=
  match r with
  | Ok ActivationOutcome.FiredAndPolled => HostState.Soaking
  | Ok (ActivationOutcome.DeferredPendingReboot _) => HostState.Activating
  | _ => HostState.Failed
  end.

Lemma started_record manifests st policy started_at now :
  resolve_policy manifests (hs_channel st) = Some policy ->
  (0 <= hs_last_event_seq st < u64_max)%Z -> hs_state st = HostState.Activating ->
  (event_outcome manifests st (Event.LocalActivationStarted started_at "switch-to-configuration" 0)
     now).1 = st <| hs_activation_started_at := Some started_at |>
                 <| hs_last_event_seq := (hs_last_event_seq st + 1)%Z |>.
Proof.
  intros Hp Hseq Hs. rewrite (event_outcome_accepted _ _ _ _ Hp Hseq).
  unfold step, dispatch. cbn [with_seq Event.seq]. rewrite (proj2 (Z.leb_gt _ _)) by lia.
  by rewrite Hs.
Qed.

Lemma finished_record manifests st policy intent at_ now r :
  resolve_policy manifests (hs_channel st) = Some policy ->
  (0 <= hs_last_event_seq st < u64_max)%Z -> hs_state st = HostState.Activating ->
  let st' := (event_outcome manifests st (activation_event intent at_ r) now).1 in
  hs_state st' = activation_result r /\
  (r = Ok ActivationOutcome.FiredAndPolled -> hs_current_closure st' = Some (ai_target_closure intent)).
Proof.
  intros Hp Hseq Hs st'. unfold st'. rewrite (event_outcome_accepted _ _ _ _ Hp Hseq).
  destruct r as [[]|]; cbn [activation_event with_seq activation_result];
    unfold step, dispatch; cbn [Event.seq];
    try (rewrite (proj2 (Z.leb_gt _ _)) by lia; by rewrite Hs).
  rewrite (proj2 (Z.leb_le _ _)) by lia. by rewrite <- Hs.
Qed.

(** A record in [Failed] refuses what a rollback that did not succeed sends. *)
Lemma failed_refuses s w rid st at_ r :
  as_host_states s !! rid = Some st -> hs_state st = HostState.Failed ->
  (forall c, r <> Ok (RollbackOutcome.FiredAndPolled c)) ->
  let x := run_host_event cfg s rid (rollback_event at_ r) w in
  x.1 = s /\ aw_queue x.2 = aw_queue w /\ aw_intents x.2 = aw_intents w /\ aw_resets x.2 = aw_resets w.
Proof.
  intros Hst Hs Hne. unfold run_host_event, event_state. rewrite Hst.
  destruct (resolve_policy _ _) as [policy|]; [|done]. simpl.
  unfold step, dispatch. destruct (Z.leb _ _); [done|]. rewrite Hs.
  destruct r as [[c|]|]; [by destruct (Hne c)|done..].
Qed.

(** What a rollback that succeeded makes of it. *)
Definition reverted_record (st : HostRolloutState) (closure : string) (at_ : DateTime)
    : HostRolloutState :=
  st <| hs_state := HostState.Reverted |> <| hs_reverted_at := Some at_ |>
     <| hs_reverted_to := Some closure |> <| hs_current_closure := Some closure |>
     <| hs_last_event_seq := (hs_last_event_seq st + 1)%Z |>.

Lemma failed_reverts manifests st policy at_ now c :
  resolve_policy manifests (hs_channel st) = Some policy ->
  (0 <= hs_last_event_seq st < u64_max)%Z -> hs_state st = HostState.Failed ->
  (event_outcome manifests st (rollback_event at_ (Ok (RollbackOutcome.FiredAndPolled c))) now).1 =
  reverted_record st c at_.
Proof.
  intros Hp Hseq Hs. rewrite (event_outcome_accepted _ _ _ _ Hp Hseq).
  unfold step, dispatch. cbn [rollback_event with_seq Event.seq].
  rewrite (proj2 (Z.leb_gt _ _)) by lia. by rewrite Hs.
Qed.

End worker.

(** ** Properties *)

(** The polling loop ends: on a clock that does not go back and on which a
    sleep takes its time, [until_settled] returns, for every sequence of
    readings, and never panics; it says [Settled] only after it read the expected
    closure, and reports a flip only to a third one. *)
Theorem polling_terminates (M : Machine) (expected : string) (previous : option string) :
  sleeps M ->
  exists o, until_settled M expected previous = Returned o /\ poll_answer_ok M expected previous o.
Proof.
  intros Hs. destruct (until_settled_returns M expected previous Hs) as [o Ho].
  exists o. split; [done|]. by apply until_settled_answer.
Qed.

(** A machine on which everything succeeds; [/run/current-system] points to
    [before], then to [reads]. *)
Definition sample_machine (before : string) (reads : nat -> string) : Machine := {|
  m_exists := fun _ => true;
  m_flock := Some (Some 0%Z);
  m_realise := fun p => Some (MkOutput (Some 0%Z) (Ok p) "");
  m_nix_env_set := fun _ => Some (Some 0%Z);
  m_nix_env_rollback := Some (Some 0%Z);
  m_switch_boot := Some (Some 0%Z);
  m_run_unit := Some (Some 0%Z);
  m_systemctl_show := fun _ => Some (MkOutput (Some 0%Z) (Ok "4") "");
  m_spawn_detached := fun _ => true;
  m_read_link := fun l =>
    if bool_decide (l = "/nix/var/nix/profiles/system") then Some "system-7-link"
    else Some "/nix/store/old";
  m_current_link := Some ("/nix/store/" ++ before)%string;
  m_poll_link := fun i => Some ("/nix/store/" ++ reads i)%string;
  m_canonicalize := fun _ => None;
  m_instant := fun n => (Z.of_nat n * POLL_INTERVAL)%Z;
  m_to_str := fun s => Some s;
  m_to_string_lossy := fun s => s;
  m_to_lowercase := fun s => s;
|}.

Lemma sample_machine_sleeps before reads : sleeps (sample_machine before reads).
Proof. split; [by vm_compute|]. intros i. cbn [m_instant sample_machine]. lia. Qed.

(** A switch that never lands: the loop gives up after its budget. *)
Lemma polling_terminates_witness :
  until_settled (sample_machine "old" (fun _ => "old")) "new" (Some "old") = Returned (Timeout "old").
Proof.
  destruct (polling_terminates (sample_machine "old" (fun _ => "old")) "new" (Some "old")
              (sample_machine_sleeps _ _)) as (o & Ho & _).
  rewrite Ho. vm_compute in Ho. by injection Ho as <-.
Defined.


(** What the pipeline found is what the record says.  The inputs the worker
    sends for a switch take a record in [Activating] to [Soaking], on the target
    closure, exactly when the pipeline reported success, and to [Failed] when it
    reported a failure, whatever the failure; when the pipeline deferred the
    switch the record stays [Activating]. *)
Theorem worker_drives_record `{O : HashOrder} `{Q : QueueCodec} `{C : AgentClock} `{D : @Disk Q}
    (cfg : AgentConfig) (target_os : Os) (M : Machine) (s : AgentState) (w : AgentWorld) (intent : ActivationIntent)
    (st : HostRolloutState) (policy : RolloutPolicy) (started_at now : DateTime)
    (r : result ActivationOutcome string) :
  as_host_states s !! ai_rollout_id intent = Some st ->
  hs_state st = HostState.Activating ->
  (0 <= hs_last_event_seq st /\ hs_last_event_seq st + 2 <= u64_max)%Z ->
  resolve_policy (as_manifests s) (hs_channel st) = Some policy ->
  ai_rollback intent = false ->
  (activate target_os M (MkActivationTarget (ai_target_closure intent)
     (rollout_id.channel_ref (ai_rollout_id intent)))).1 = Returned r ->
  exists st',
    as_host_states (agent_run cfg s (handle_intent target_os M false started_at now intent).1 w).1
      !! ai_rollout_id intent = Some st' /\
    hs_state st' = activation_result r /\
    (r = Ok ActivationOutcome.FiredAndPolled ->
     hs_current_closure st' = Some (ai_target_closure intent)).
Proof.
  intros Hst Hs Hseq Hp Hi Hr. unfold handle_intent. rewrite Hi.
  destruct (activate _ _ _) as [outcome ran]. simpl in Hr. subst outcome.
  cbn [app fst agent_run handle_input].
  destruct (run_record cfg s (ai_rollout_id intent)
    (Event.LocalActivationStarted started_at "switch-to-configuration" 0) w st Hst) as (n1 & H1 & Hm).
  destruct (run_host_event _ _ _ _ _) as [s1 w1]. simpl in H1, Hm.
  rewrite (started_record _ _ _ _ _ Hp) in H1 by (done || lia).
  destruct (run_record cfg s1 (ai_rollout_id intent) (activation_event intent now r) w1 _ H1)
    as (n2 & H2 & _).
  destruct (run_host_event _ _ _ _ _) as [s2 w2]. simpl in H2. eexists. split; [exact H2|].
  apply (finished_record _ _ policy); cbn; [by rewrite Hm|lia|done].
Qed.

(** A switch that lands at the second reading. *)
Lemma worker_drives_record_witness :
  let r := sample_agent_run (take 3 to_soaking) in
  let M := sample_machine "old" (fun n => if n is 0 then "old" else "new") in
  let intent := MkActivationIntent staged_rid "new" false in
  exists st',
    as_host_states (agent_run (O := list_order) (Q := plain_codec) (C := sample_agent_clock)
      (D := sample_disk) sample_cfg r.1 (handle_intent Linux M false 5 6 intent).1 r.2).1 !! staged_rid
      = Some st' /\ hs_state st' = HostState.Soaking.
Proof.
  intros r M intent.
  edestruct (worker_drives_record (O := list_order) (Q := plain_codec) (C := sample_agent_clock)
    (D := sample_disk) sample_cfg Linux M r.1 r.2 intent) as (st' & Hst' & Hs' & _).
  6: { vm_compute. reflexivity. }
  - vm_compute. reflexivity.
  - by vm_compute.
  - by vm_compute.
  - by vm_compute.
  - by vm_compute.
  - exists st'. split; [exact Hst'|exact Hs'].
Defined.

(** A rollback is reported only when it succeeded.  The inputs the worker
    sends for a rollback take a record in [Failed] to [Reverted], to the closure
    the profile and the running system then read as, when the pipeline reported
    success.  Any other end of the pipeline changes no record and queues no
    event: the failure the worker sends is not an event [Failed] accepts, so the
    control plane never hears of it. *)
Theorem failed_rollback_is_not_reported `{O : HashOrder} `{Q : QueueCodec} `{C : AgentClock}
    `{D : @Disk Q} (cfg : AgentConfig) (target_os : Os) (M : Machine) (s : AgentState) (w : AgentWorld)
    (intent : ActivationIntent) (st : HostRolloutState) (policy : RolloutPolicy)
    (started_at now : DateTime) :
  as_host_states s !! ai_rollout_id intent = Some st ->
  hs_state st = HostState.Failed ->
  (0 <= hs_last_event_seq st < u64_max)%Z ->
  resolve_policy (as_manifests s) (hs_channel st) = Some policy ->
  ai_rollback intent = true ->
  let x := agent_run cfg s (handle_intent target_os M false started_at now intent).1 w in
  match (rollback target_os M).1 with
  | Returned (Ok (RollbackOutcome.FiredAndPolled c)) =>
      as_host_states x.1 !! ai_rollout_id intent = Some (reverted_record st c now) /\
      resolve_profile_target M = Ok c /\ exists i, read_current_system_basename M (m_poll_link M i) = Ok c
  | _ => x.1 = s /\ aw_queue x.2 = aw_queue w /\ aw_intents x.2 = aw_intents w /\
         aw_resets x.2 = aw_resets w
  end.
Proof.
  intros Hst Hs Hseq Hp Hi x. unfold x, handle_intent. rewrite Hi.
  pose proof (rollback_success M (DEFAULT_BACKEND target_os M) (needs_reboot target_os M)
    (refuses target_os M)) as Hok.
  fold (rollback target_os M) in Hok.
  destruct (rollback _ _) as [[r| |] ran]; [|done..]. cbn [app fst snd agent_run handle_input] in *.
  assert (Hbad : (forall c, r <> Ok (RollbackOutcome.FiredAndPolled c)) ->
    let y := let '(s', w') := run_host_event cfg s (ai_rollout_id intent) (rollback_event now r) w in
             (s', w') in
    y.1 = s /\ aw_queue y.2 = aw_queue w /\ aw_intents y.2 = aw_intents w /\ aw_resets y.2 = aw_resets w).
  { intros Hne. pose proof (failed_refuses cfg s w _ st now r Hst Hs Hne).
    by destruct (run_host_event _ _ _ _ _). }
  destruct r as [[c|phase code]|err]; [|by apply Hbad..].
  destruct (Hok c eq_refl) as (Htarget & Hread & _). split; [|done].
  destruct (run_record cfg s (ai_rollout_id intent)
    (rollback_event now (Ok (RollbackOutcome.FiredAndPolled c))) w st Hst) as (n1 & H1 & _).
  destruct (run_host_event _ _ _ _ _) as [s1 w1]. cbn [fst] in *.
  by rewrite (failed_reverts _ _ _ _ _ _ Hp Hseq Hs) in H1.
Qed.

(** A rollback whose switch never lands leaves the failed record as it is. *)
Lemma failed_rollback_is_not_reported_witness :
  let r := sample_agent_run (to_failing ++ [AgentInput.AgentAdvanceTick]) in
  let M := sample_machine "new" (fun _ => "new") in
  let intent := MkActivationIntent staged_rid "/nix/store/old" true in
  (rollback Linux M).1 = Returned (Ok (RollbackOutcome.Failed "rollback-poll-timeout" (Some 4%Z))) /\
  (agent_run (O := list_order) (Q := plain_codec) (C := sample_agent_clock) (D := sample_disk)
     sample_cfg r.1 (handle_intent Linux M false 5 6 intent).1 r.2).1 = r.1.
Proof.
  intros r M intent.
  assert (Hr : (rollback Linux M).1 = Returned (Ok (RollbackOutcome.Failed "rollback-poll-timeout" (Some 4%Z))))
    by (vm_compute; reflexivity).
  split; [exact Hr|].
  epose proof (failed_rollback_is_not_reported (O := list_order) (Q := plain_codec)
    (C := sample_agent_clock) (D := sample_disk) sample_cfg Linux M r.1 r.2 intent _ _ 5 6
    ltac:(vm_compute; reflexivity) ltac:(by vm_compute) ltac:(by vm_compute)
    ltac:(vm_compute; reflexivity) eq_refl) as H.
  cbv zeta in H. rewrite Hr in H. exact (proj1 H).
Defined.

(** A host whose [nix-store] reports an unsigned path, with names it cannot spell
    in ASCII. *)
Fixpoint accents (n : nat) : string :=
  match n with
  | 0 => ""
  | S n => String (ascii_of_nat 195) (String (ascii_of_nat 169) (accents n))
  end.

Definition accented_machine : Machine :=
  let stderr := ("untrusted signature " ++ accents 300 ++ ".")%string in
  {| m_exists := fun _ => false;
     m_flock := None;
     m_realise := fun _ => Some (MkOutput (Some 1%Z) (Ok "") stderr);
     m_nix_env_set := fun _ => None;
     m_nix_env_rollback := None;
     m_switch_boot := None;
     m_run_unit := None;
     m_systemctl_show := fun _ => None;
     m_spawn_detached := fun _ => false;
     m_read_link := fun _ => None;
     m_current_link := None;
     m_poll_link := fun _ => None;
     m_canonicalize := fun _ => None;
     m_instant := fun n => (Z.of_nat n * POLL_INTERVAL)%Z;
     m_to_str := fun s => Some s;
     m_to_string_lossy := fun s => s;
     m_to_lowercase := fun s => s |}.

(** A signature error can end the worker.  On some host, with an error text
    that is valid UTF-8, cutting its last 500 bytes falls inside a character: the
    task panics after it announced the activation, and no outcome is ever sent. *)
Theorem signature_error_can_panic :
  exists M : Machine,
    (exists stderr, m_realise M "/nix/store/new" = Some (MkOutput (Some 1%Z) (Ok "") stderr) /\
       looks_like_signature_error M stderr = true) /\
    forall target_os started_at now,
      handle_intent target_os M false started_at now (MkActivationIntent staged_rid "new" false) =
      ([AgentInput.HostEvent staged_rid
          (Event.LocalActivationStarted started_at "switch-to-configuration" 0)],
       [NixStoreRealise "/nix/store/new"]).
Proof.
  exists accented_machine. split; [eexists; split; [done|by vm_compute]|]. intros target_os started_at now.
  unfold handle_intent. cbn [ai_rollback ai_target_closure].
  set (r := activate _ _ _).
  assert (Hr : r = (Panicked, [NixStoreRealise "/nix/store/new"])) by by destruct target_os; vm_compute.
  by rewrite Hr.
Qed.
