(* ===== verification/AgentHost.v ===== *)
(** * What an agent's worker does to its host

    The wire types of [crates/nixfleet-agent/src/runtime/wire.rs] and the monad
    of the workers.  The file system, the control plane's answers, the trust
    file and the clock are the class [HostEnv]: each question is answered by the
    number of questions asked before it, so no two answers need agree.  The
    cache directories and that number are the state of [HostM]. *)

From S2P Require Import Prelude RustStd Proto HostTypes Wire Verify.

(** The body of [GET /v1/agent/dispatch] ([runtime/wire.rs]). *)
Record DispatchResponse := MkDispatchResponse {
  dr_hostname : string;
  dr_rollout_id : RolloutId;
  dr_target_closure : string;
  dr_soak_due_at : DateTime;
  dr_enqueued_at : DateTime;
}.

(** [POST /v1/agent/heartbeat]. *)
Record HeartbeatRequest := MkHeartbeatRequest {
  hb_hostname : string;
  hb_rollout_id : option RolloutId;
  hb_current_closure : option string;
  hb_at : DateTime;
}.

Record HeartbeatResponse := MkHeartbeatResponse {
  hbr_received_at : option DateTime;
  hbr_bootstrap_rollouts : list HostRolloutSnapshot;
}.

(** ** The host *)

(** The header is [X-Nixfleet-Replay-From], when it is visible ASCII; the body
    is decoded. *)
Inductive HeartbeatAnswer :=
| HeartbeatSendFailed (err : string)
| HeartbeatReply (status : Z) (replay_from : option string) (body : result HeartbeatResponse string).

(** How [std::fs::write] ends: a failure may leave part of the text. *)
Inductive FileWrite :=
| FileWritten
| FileFailed (part : option string).

Class HostEnv := {
  env_now : nat -> DateTime;
  env_trust_file : nat -> result TrustConfig string;   (* read and parsed; the error's text *)
  env_get : nat -> string -> HttpAnswer;
  env_post_heartbeat : nat -> string -> HeartbeatRequest -> HeartbeatAnswer;
  env_write : nat -> FileWrite;
  env_current_system : nat -> option string;           (* the link's target *)
  status_text : Z -> string;
  body_text : string -> string;                        (* [Response::text] *)
  display_time : DateTime -> string;
  debug_str : string -> string;                        (* [{:?}] *)
  debug_verify_error : VerifyError -> string;
}.

(** The decoding of a dispatch ([serde_json], derived). *)
Class DispatchJson {Cr : Crypto} := {
  is_null : Value -> bool;
  from_value : Value -> result DispatchResponse string;
}.

Record HostWorld := MkHostWorld {
  ho_rollouts : gmap string string;    (* [state_dir/rollouts/] *)
  ho_fleet : gmap string string;       (* [state_dir/fleet/] *)
  ho_asked : nat;
}.
#[export] Instance HostWorld_eta : Etaexp HostWorld := fun w =>
  MkHostWorld (ho_rollouts w) (ho_fleet w) (ho_asked w).

Definition HostM (A : Type) : Type := HostWorld -> ended A * HostWorld.

#[export] Instance HostM_ret : MRet HostM := fun A a w => (Returned a, w).
#[export] Instance HostM_bind : MBind HostM := fun A B k m w =>
  match m w with
  | (Returned a, w) => k a w
  | (Panicked, w) => (Panicked, w)
  | (OutOfFuel, w) => (OutOfFuel, w)
  end.

(** Asking the host a question. *)
Definition ask {A} (answer : nat -> A) : HostM A := fun w =>
  (Returned (answer (ho_asked w)), w <| ho_asked := S (ho_asked w) |>).

Definition lift_ended {A} (r : ended A) : HostM A := fun w => (r, w).
Definition get_rollouts : HostM (gmap string string) := fun w => (Returned (ho_rollouts w), w).
Definition get_fleet : HostM (gmap string string) := fun w => (Returned (ho_fleet w), w).
Definition put_rollouts (d : gmap string string) : HostM unit := fun w =>
  (Returned tt, w <| ho_rollouts := d |>).
Definition put_fleet (d : gmap string string) : HostM unit := fun w =>
  (Returned tt, w <| ho_fleet := d |>).
