(* ===== verification/AgentManifests.v ===== *)
(** * The agent's manifest cache

    Models [crates/nixfleet-agent/src/manifest_cache.rs], [freshness.rs] and the
    tick of [runtime/workers/manifest_poll.rs]. *)

From S2P Require Import Prelude RustStd Proto HostTypes Gates Verify Manifest AgentHost.
From stdpp Require Import pretty.

(** ** Freshness ([freshness.rs]) *)

Module freshness.

Definition CLOCK_SKEW_SLACK_SECS : i64 := 60.

Inductive FreshnessCheck :=
| Fresh
| Stale (signed_at : DateTime) (freshness_window_secs : u32) (age_secs : i64).

Definition check_signed_at (signed_at : DateTime) (freshness_window_secs : u32) (now : DateTime)
    : FreshnessCheck :=
  let age_secs := num_seconds (now - signed_at) in
  let limit := (freshness_window_secs + CLOCK_SKEW_SLACK_SECS)%Z in
  if Z.ltb limit age_secs then Stale signed_at freshness_window_secs age_secs else Fresh.

End freshness.

(** ** The cache ([manifest_cache.rs]) *)

Module ManifestError.
Inductive t :=
| Missing (s : string)
| VerifyFailed (s : string)
| Mismatch (s : string).

Definition reason (e : t) : string :=
  match e with Missing s | VerifyFailed s | Mismatch s => s end.
End ManifestError.
Abbreviation ManifestError := ManifestError.t.

Section cache.
Context {O : HashOrder} {Cr : Crypto} {E : HostEnv}.
Context {Dm : DeserializeOwned RolloutManifest} {Df : DeserializeOwned FleetResolved}.

Definition validate_rollout_id_for_path (rollout_id : string) : result unit ManifestError :=
  if contains "/" rollout_id || contains ".." rollout_id then
    Err (ManifestError.Mismatch
      ("rollout_id " +:+ debug_str rollout_id +:+ " contains path-traversal characters"))
  else Ok tt.

Definition manifest_file (rollout_id : string) : string := rollout_id +:+ ".json".
Definition signature_file (rollout_id : string) : string := rollout_id +:+ ".json.sig".

Definition read_cached_bytes (rollout_id : string) (d : gmap string string) : option (string * string) :=
  manifest ← d !! manifest_file rollout_id;
  sig ← d !! signature_file rollout_id;
  Some (manifest, sig).

Definition load_trust_roots (now : DateTime)
    : HostM (result (list TrustedPubkey * option DateTime) string) :=
  trust ← ask env_trust_file;
  mret match trust with
  | Err e => Err e
  | Ok trust =>
      Ok (active_keys_at (tc_ci_release_key trust) now, ks_reject_before (tc_ci_release_key trust))
  end.

Definition assert_rollout_id_matches (manifest : RolloutManifest) (advertised_rollout_id : string)
    : result unit ManifestError :=
  let parsed := rollout_id.new (rm_channel manifest) (rm_channel_ref manifest) in
  if negb (bool_decide (rid_raw parsed = advertised_rollout_id)) then
    Err (ManifestError.Mismatch
      ("advertised rolloutId " +:+ advertised_rollout_id +:+ " != parsed RolloutId " +:+ rid_raw parsed))
  else Ok tt.

Definition assert_membership (manifest : RolloutManifest) (hostname : string) (wave_index : u32)
    : result unit ManifestError :=
  let in_set :=
    existsb (fun h => bool_decide (hw_hostname h = hostname) &&
                      bool_decide (hw_wave_index h = wave_index)) (rm_host_set manifest) in
  if negb in_set then
    Err (ManifestError.Mismatch 
      ("(hostname=" +:+ hostname +:+ ", wave_index=" +:+ pretty wave_index +:+
       ") not in manifest.host_set"))
  else Ok tt.

(** The first entry of the host decides. *)
Definition assert_target_closure (manifest : RolloutManifest) (hostname expected_target_closure : string)
    : result unit ManifestError :=
  match List.find (fun h => bool_decide (hw_hostname h = hostname)) (rm_host_set manifest) with
  | None =>
      Err (ManifestError.Mismatch
        ("hostname " +:+ debug_str hostname +:+ " not in manifest.host_set"))
  | Some host =>
      if negb (bool_decide (hw_target_closure host = expected_target_closure)) then
        Err (ManifestError.Mismatch
          ("dispatch target_closure " +:+ debug_str expected_target_closure +:+
           " != manifest target_closure " +:+ debug_str (hw_target_closure host) +:+
           " for hostname " +:+ debug_str hostname))
      else Ok tt
  end.

Definition verify_bytes (window : Duration) (manifest_bytes signature_bytes advertised_rollout_id : string)
    : HostM (result (Verified RolloutManifest) ManifestError) :=
  now ← ask env_now;
  roots ← load_trust_roots now;
  match roots with
  | Err err => mret (Err (ManifestError.VerifyFailed ("load trust roots: " +:+ err)))
  | Ok (trusted_keys, reject_before) =>
      verified ← lift_ended (verify_rollout_manifest manifest_bytes signature_bytes trusted_keys now
                               window reject_before);
      mret match verified with
      | Err err => Err (ManifestError.VerifyFailed (debug_verify_error err))
      | Ok verified =>
          let? _ := assert_rollout_id_matches (inner verified) advertised_rollout_id in
          Ok verified
      end
  end.

(** Writing one file of a directory; [true] when it succeeded. *)
Definition write_file (name content : string) (d : gmap string string) : HostM (bool * gmap string string) :=
  answer ← ask env_write;
  mret match answer with
  | FileWritten => (true, <[ name := content ]> d)
  | FileFailed None => (false, d)
  | FileFailed (Some part) => (false, <[ name := part ]> d)
  end.

(** The manifest, then its signature; the second is not written when the first
    fails.  A failure to create the directory leaves it as it is. *)
Definition write_pair (name sig_name content sig : string) (d : gmap string string)
    : HostM (gmap string string) :=
  created ← ask env_write;
  match created with
  | FileFailed _ => mret d
  | FileWritten =>
      '(written, d) ← write_file name content d;
      if written : bool then '(_, d) ← write_file sig_name sig d; mret d else mret d
  end.

Definition write_cache (rollout_id manifest_bytes sig_bytes : string) : HostM unit :=
  d ← get_rollouts;
  d ← write_pair (manifest_file rollout_id) (signature_file rollout_id) manifest_bytes sig_bytes d;
  put_rollouts d.

Definition fetch (url : string) : HostM (result string ManifestError) :=
  resp ← ask (fun n => env_get n url);
  mret match resp with
  | SendFailed err => Err (ManifestError.Missing ("GET " +:+ url +:+ ": " +:+ err))
  | Response status body =>
      if bool_decide (status = 404%Z) then Err (ManifestError.Missing ("404 from " +:+ url))
      else if negb (is_success status) then
        Err (ManifestError.Missing (url +:+ ": " +:+ status_text status))
      else
        match body with
        | Err err => Err (ManifestError.Missing ("read body " +:+ url +:+ ": " +:+ err))
        | Ok bytes => Ok bytes
        end
  end.

(** The request, the check and the write-through of [fetch_or_load]. *)
Definition fetch_rollout (window : Duration) (cp_url rollout_id : string)
    : HostM (result (Verified RolloutManifest) ManifestError) :=
  let base := strip_slashes cp_url in
  let manifest_url := base +:+ "/v1/rollouts/" +:+ rollout_id in
  let sig_url := base +:+ "/v1/rollouts/" +:+ rollout_id +:+ "/sig" in
  try manifest_bytes := fetch manifest_url in
  try sig_bytes := fetch sig_url in
  try verified := verify_bytes window manifest_bytes sig_bytes rollout_id in
  (_ ← write_cache rollout_id manifest_bytes sig_bytes; mret (Ok verified)).

Definition fetch_or_load (window : Duration) (cp_url rollout_id : string)
    : HostM (result (Verified RolloutManifest) ManifestError) :=
  match validate_rollout_id_for_path rollout_id with
  | Err e => mret (Err e)
  | Ok _ =>
      d ← get_rollouts;
      match read_cached_bytes rollout_id d with
      | Some (manifest_bytes, sig_bytes) =>
          cached ← verify_bytes window manifest_bytes sig_bytes rollout_id;
          match cached with
          | Ok verified => mret (Ok verified)
          | Err _ => fetch_rollout window cp_url rollout_id
          end
      | None => fetch_rollout window cp_url rollout_id
      end
  end.

Definition ensure (window : Duration) (cp_url rollout_id hostname : string) (wave_index : u32)
    : HostM (result (Verified RolloutManifest) ManifestError) :=
  try verified := fetch_or_load window cp_url rollout_id in
  mret (let? _ := assert_membership (inner verified) hostname wave_index in Ok verified).

Definition ensure_for_dispatch (window : Duration)
    (cp_url rollout_id hostname expected_target_closure : string)
    : HostM (result (Verified RolloutManifest) ManifestError) :=
  try verified := fetch_or_load window cp_url rollout_id in
  mret (let? _ := assert_target_closure (inner verified) hostname expected_target_closure in
        Ok verified).

(** ** The fleet *)

Definition fleet_file : string := "fleet.resolved.json".
Definition fleet_sig_file : string := "fleet.resolved.json.sig".

Definition read_cached_fleet_bytes (d : gmap string string) : option (string * string) :=
  artifact ← d !! fleet_file;
  sig ← d !! fleet_sig_file;
  Some (artifact, sig).

Definition write_fleet_cache (artifact_bytes sig_bytes : string) : HostM unit :=
  d ← get_fleet;
  d ← write_pair fleet_file fleet_sig_file artifact_bytes sig_bytes d;
  put_fleet d.

Definition verify_fleet_bytes (window : Duration) (artifact_bytes signature_bytes : string)
    : HostM (result (Verified FleetResolved) ManifestError) :=
  now ← ask env_now;
  roots ← load_trust_roots now;
  match roots with
  | Err err => mret (Err (ManifestError.VerifyFailed ("load trust roots: " +:+ err)))
  | Ok (trusted_keys, reject_before) =>
      verified ← lift_ended (verify_artifact artifact_bytes signature_bytes trusted_keys now
                               window reject_before);
      mret match verified with
      | Err err => Err (ManifestError.VerifyFailed (debug_verify_error err))
      | Ok verified => Ok verified
      end
  end.

Definition fetch_fleet (window : Duration) (cp_url : string)
    : HostM (result (Verified FleetResolved * string) ManifestError) :=
  let base := strip_slashes cp_url in
  try artifact_bytes := fetch (base +:+ "/v1/fleet.resolved") in
  try sig_bytes := fetch (base +:+ "/v1/fleet.resolved/sig") in
  try verified := verify_fleet_bytes window artifact_bytes sig_bytes in
  match canonical_hash_from_bytes artifact_bytes with
  | Err err => mret (Err (ManifestError.Mismatch ("hash fetched fleet: " +:+ debug_verify_error err)))
  | Ok hash => _ ← write_fleet_cache artifact_bytes sig_bytes; mret (Ok (verified, hash))
  end.

Definition fetch_or_load_fleet (window : Duration) (cp_url : string)
    : HostM (result (Verified FleetResolved * string) ManifestError) :=
  d ← get_fleet;
  match read_cached_fleet_bytes d with
  | Some (artifact_bytes, sig_bytes) =>
      cached ← verify_fleet_bytes window artifact_bytes sig_bytes;
      match cached with
      | Ok verified =>
          mret match canonical_hash_from_bytes artifact_bytes with
          | Err err => Err (ManifestError.Mismatch ("hash cached fleet: " +:+ debug_verify_error err))
          | Ok hash => Ok (verified, hash)
          end
      | Err _ => fetch_fleet window cp_url
      end
  | None => fetch_fleet window cp_url
  end.

(** ** The poll of the signed set ([runtime/workers/manifest_poll.rs]) *)

(** One channel of the loop of [tick_once]. *)
Definition poll_channel (window : Duration) (cp_url : string) (verified_fleet : FleetResolved)
    (fleet_hash : string) (rollouts : gmap string (Verified RolloutManifest)) (channel : string)
    : HostM (gmap string (Verified RolloutManifest)) :=
  match compute_rollout_id_for_channel verified_fleet fleet_hash channel with
  | Ok None => mret rollouts
  | Err _ => mret rollouts
  | Ok (Some rollout_id) =>
      fetched ← fetch_or_load window cp_url rollout_id;
      match fetched with
      | Err _ => mret rollouts
      | Ok verified_rollout =>
          if negb (bool_decide (rm_fleet_resolved_hash (inner verified_rollout) = fleet_hash)) then
            mret rollouts
          else mret (<[ channel := verified_rollout ]> rollouts)
      end
  end.

Fixpoint poll_channels (window : Duration) (cp_url : string) (verified_fleet : FleetResolved)
    (fleet_hash : string) (rollouts : gmap string (Verified RolloutManifest))
    (channels : list string) : HostM (gmap string (Verified RolloutManifest)) :=
  match channels with
  | [] => mret rollouts
  | channel :: channels =>
      rollouts ← poll_channel window cp_url verified_fleet fleet_hash rollouts channel;
      poll_channels window cp_url verified_fleet fleet_hash rollouts channels
  end.

Definition tick_once (window : Duration) (cp_url : string)
    : HostM (result SignedManifestSet string) :=
  fetched ← fetch_or_load_fleet window cp_url;
  match fetched with
  | Err err => mret (Err ("fetch fleet: " +:+ ManifestError.reason err))
  | Ok (verified_fleet, fleet_hash) =>
      rollouts ← poll_channels window cp_url (inner verified_fleet) fleet_hash ∅
                   (hash_iter (fr_channels (inner verified_fleet))).*1;
      mret (Ok (MkSignedManifestSet verified_fleet rollouts))
  end.

End cache.
