(* ===== verification/AgentManifestsProps.v ===== *)
(** * The agent's manifest cache: what it promises

    Whatever the cache holds and whatever the control plane answers, a manifest
    that leaves the cache was accepted by the verifier during the call. *)

From S2P Require Import Prelude RustStd Proto HostTypes Gates Verify VerifyProps Manifest.
From S2P Require Import AgentHost AgentManifests.

(** ** The monad *)

Section monad.
Context {E : HostEnv}.

Lemma host_ret {A} (a : A) w : (mret a : HostM A) w = (Returned a, w).
Proof. done. Qed.

Lemma host_bind_inv {A B} (m : HostM A) (k : A -> HostM B) w b w' :
  (m ≫= k) w = (Returned b, w') ->
  exists a w1, m w = (Returned a, w1) /\ k a w1 = (Returned b, w').
Proof.
  unfold mbind, HostM_bind. destruct (m w) as [[a| |] w1]; [|done..]. intros H. by exists a, w1.
Qed.

Lemma host_bind_ok {A B} (m : HostM A) (k : A -> HostM B) w a w1 :
  m w = (Returned a, w1) -> (m ≫= k) w = k a w1.
Proof. unfold mbind, HostM_bind. by intros ->. Qed.

Lemma host_bind_panicked {A B} (m : HostM A) (k : A -> HostM B) w w' :
  (m ≫= k) w = (Panicked, w') ->
  m w = (Panicked, w') \/ exists a w1, m w = (Returned a, w1) /\ k a w1 = (Panicked, w').
Proof.
  unfold mbind, HostM_bind. destruct (m w) as [[a| |] w1]; [|by intros [= ->]; left|done]. intros H. right. eauto.
Qed.

Lemma ask_inv {A} (answer : nat -> A) w a w' :
  ask answer w = (Returned a, w') -> a = answer (ho_asked w) /\ w' = w <| ho_asked := S (ho_asked w) |>.
Proof. by intros [= <- <-]. Qed.

Lemma try_inv {A B Er} (e : HostM (result A Er)) (k : A -> HostM (result B Er)) w r w' :
  (try x := e in k x) w = (r, w') ->
  (exists x w1, e w = (Returned (Ok x), w1) /\ k x w1 = (r, w')) \/
  (w' = (e w).2 /\ forall v, r <> Returned (Ok v)).
Proof.
  unfold mbind, HostM_bind. destruct (e w) as [[[x|err]| |] w1].
  - intros H. left. by exists x, w1.
  - intros [= <- <-]. by right.
  - intros [= <- <-]. by right.
  - intros [= <- <-]. by right.
Qed.

(** The caches are as before; questions may have been asked. *)
Definition only_asked (w w' : HostWorld) : Prop :=
  ho_rollouts w' = ho_rollouts w /\ ho_fleet w' = ho_fleet w /\ ho_asked w <= ho_asked w'.

#[global] Instance only_asked_preorder : PreOrder only_asked.
Proof.
  split; [done|]. intros w1 w2 w3 (H1 & H2 & H3) (H1' & H2' & H3').
  split_and!; [congruence..|lia].
Qed.

Definition silent {A} (m : HostM A) : Prop := forall w, only_asked w (m w).2.

Lemma silent_ret {A} (a : A) : silent (mret a).
Proof. intros w. reflexivity. Qed.

Lemma silent_ask {A} (answer : nat -> A) : silent (ask answer).
Proof. intros w. split_and!; simpl; lia || done. Qed.

Lemma silent_lift {A} (r : ended A) : silent (lift_ended r).
Proof. intros w. reflexivity. Qed.

Lemma silent_get_rollouts : silent get_rollouts.
Proof. intros w. reflexivity. Qed.

Lemma silent_get_fleet : silent get_fleet.
Proof. intros w. reflexivity. Qed.

Lemma silent_bind {A B} (m : HostM A) (k : A -> HostM B) :
  silent m -> (forall a, silent (k a)) -> silent (m ≫= k).
Proof.
  intros Hm Hk w. unfold mbind, HostM_bind. specialize (Hm w).
  destruct (m w) as [[a| |] w1]; [|done..]. etransitivity; [exact Hm|apply Hk].
Qed.

End monad.

Create HintDb silent.
#[export] Hint Resolve silent_ret silent_ask silent_lift silent_get_rollouts silent_get_fleet
  silent_bind : silent.
Ltac silent := repeat (apply silent_bind || intros || auto with silent || case_match).

(** Splits the first step off a run that returned. *)
Ltac host_step H a w :=
  let Ha := fresh "H" in
  apply host_bind_inv in H as (a & w & Ha & H);
  try (apply ask_inv in Ha as [-> ->]).

(** ** A verified manifest *)

Section authentic.
Context {Cr : Crypto} {E : HostEnv}.

(** What the trust file and the clock said at questions between [lo] and [hi]
    makes [v] an authentic payload. *)
Definition authentic {T} {De : DeserializeOwned T} {Si : SignedSidecar T}
    (lo hi : nat) (window : Duration) (bytes : string) (v : Verified T) : Prop :=
  exists n trust signature canonical,
    lo <= n /\ n < hi /\ env_trust_file (S n) = Ok trust /\
    let slot := tc_ci_release_key trust in
    let now := env_now n in
    canonical_form bytes canonical /\
    Exists (key_accepts canonical signature) (active_keys_at slot now) /\
    payload_ok canonical (ks_reject_before slot) v /\ in_window window now (v_signed_at v).

Context {Dm : DeserializeOwned RolloutManifest} {Df : DeserializeOwned FleetResolved}.

Definition identifies (rollout_id : string) (m : RolloutManifest) : Prop :=
  rid_raw (rollout_id.new (rm_channel m) (rm_channel_ref m)) = rollout_id.

Lemma assert_rollout_id_ok m rollout_id r :
  assert_rollout_id_matches m rollout_id = Ok r <-> identifies rollout_id m.
Proof.
  unfold assert_rollout_id_matches, identifies. case_bool as [H|H]; simpl; [|done].
  by destruct r.
Qed.

Lemma verify_bytes_silent window m s id : silent (verify_bytes window m s id).
Proof. unfold verify_bytes, load_trust_roots. silent. Qed.

Lemma verify_bytes_ok window m s id w v w' :
  (0 <= window)%Z -> verify_bytes window m s id w = (Returned (Ok v), w') ->
  authentic (ho_asked w) (ho_asked w') window m v /\ identifies id (inner v).
Proof.
  intros Hwin H. unfold verify_bytes, load_trust_roots in H.
  host_step H now w1. host_step H roots w2. host_step H0 trust w3.
  injection H0 as <- <-. destruct (env_trust_file _) as [trust|] eqn:Htrust; [|done].
  host_step H ver w4. injection H0 as Hver <-. destruct ver as [v'|]; [|done].
  injection H as H <-. destruct (assert_rollout_id_matches _ _) as [r|] eqn:Hid; [|done].
  injection H as <-. apply assert_rollout_id_ok in Hid. split; [|done].
  apply sidecar_ok in Hver as (_ & c & Hc & Hk & Hp & Hi); [|done].
  exists (ho_asked w), trust, s, c. simpl in *. split_and!; try done; lia.
Qed.

(** ** Fetching *)

Lemma fetch_silent url : silent (fetch url).
Proof. unfold fetch. silent. Qed.

(** Only the two files of this rollout differ. *)
Definition touched (id : string) (w w' : HostWorld) : Prop :=
  ho_fleet w' = ho_fleet w /\ ho_asked w <= ho_asked w' /\
  forall name, name <> manifest_file id -> name <> signature_file id ->
    ho_rollouts w' !! name = ho_rollouts w !! name.

Lemma only_asked_touched id w w' : only_asked w w' -> touched id w w'.
Proof. intros (H1 & H2 & H3). split_and!; [done..|]. by rewrite H1. Qed.

Lemma touched_trans id w1 w2 w3 : touched id w1 w2 -> touched id w2 w3 -> touched id w1 w3.
Proof.
  intros (H1 & H2 & H3) (H1' & H2' & H3'). split_and!; [congruence|lia|].
  intros name Hn Hn'. by rewrite H3', H3.
Qed.

Lemma write_pair_spec name sig_name content sig d w :
  exists d' w', write_pair name sig_name content sig d w = (Returned d', w') /\ only_asked w w' /\
    (forall n, n <> name -> n <> sig_name -> d' !! n = d !! n) /\
    ((forall n, env_write n = FileWritten) -> d' = <[ sig_name := sig ]> (<[ name := content ]> d)).
Proof.
  unfold write_pair, write_file, mbind, HostM_bind, ask, mret, HostM_ret. simpl.
  destruct (env_write _) as [|part] eqn:E0; simpl;
    [destruct (env_write (S _)) as [|[part|]] eqn:E1; simpl;
     [destruct (env_write (S (S _))) as [|[part|]] eqn:E2; simpl|..]|].
  all: eexists _, _; split; [done|]; split; [by split_and!; simpl; try lia|].
  all: split; [intros n Hn Hn'; by rewrite ?lookup_insert_ne|].
  all: intros Hok; first [done|by rewrite Hok in E0|by rewrite Hok in E1|by rewrite Hok in E2].
Qed.

Lemma write_cache_spec id m s w :
  exists w', write_cache id m s w = (Returned tt, w') /\ touched id w w' /\
    ((forall n, env_write n = FileWritten) ->
     ho_rollouts w' = <[ signature_file id := s ]> (<[ manifest_file id := m ]> (ho_rollouts w))).
Proof.
  destruct (write_pair_spec (manifest_file id) (signature_file id) m s (ho_rollouts w) w)
    as (d & w1 & Hw & (H1 & H2 & H3) & Hother & Hok).
  exists (w1 <| ho_rollouts := d |>). unfold write_cache.
  rewrite (host_bind_ok _ _ _ (ho_rollouts w) w) by done. rewrite (host_bind_ok _ _ _ _ _ Hw).
  split; [done|]. split; [|done]. split_and!; simpl; [done|lia|done].
Qed.

(** What a call that takes the result from [verify_bytes] leaves behind. *)
Definition load_post (window : Duration) (id : string) (w : HostWorld)
    (r : ended (result (Verified RolloutManifest) ManifestError)) (w' : HostWorld) : Prop :=
  match r with
  | Returned (Ok v) =>
      touched id w w' /\
      exists bytes, authentic (ho_asked w) (ho_asked w') window bytes v /\ identifies id (inner v)
  | _ => only_asked w w'
  end.

Lemma authentic_weaken {T} {De : DeserializeOwned T} {Si : SignedSidecar T} lo lo' hi hi' window bytes
    (v : Verified T) :
  lo' <= lo -> hi <= hi' -> authentic lo hi window bytes v -> authentic lo' hi' window bytes v.
Proof. intros Hl Hh (n & t & s & c & H1 & H2 & H). exists n, t, s, c. split_and!; try lia; apply H. Qed.

Lemma silent_run {A} (m : HostM A) w r w' : silent m -> m w = (r, w') -> only_asked w w'.
Proof. intros Hs H. specialize (Hs w). by rewrite H in Hs. Qed.

Lemma load_post_after window id w w1 r w' :
  only_asked w w1 -> load_post window id w1 r w' -> load_post window id w r w'.
Proof.
  intros Hw. unfold load_post. destruct r as [[v|]| |]; try (intros; by etransitivity).
  intros (Ht & bytes & Ha & Hid). split; [by eapply touched_trans; [apply only_asked_touched|]|].
  exists bytes. split; [|done]. eapply authentic_weaken; [|done|exact Ha]. by destruct Hw as (_ & _ & ?).
Qed.

Lemma load_post_failed window id w r w' :
  (forall v, r <> Returned (Ok v)) -> only_asked w w' -> load_post window id w r w'.
Proof. intros Hr H. unfold load_post. destruct r as [[v|]| |]; [by destruct (Hr v)|done..]. Qed.

Lemma load_post_try {A} window id (e : HostM (result A ManifestError))
    (k : A -> HostM (result (Verified RolloutManifest) ManifestError)) w r w' :
  silent e ->
  (forall x w1, e w = (Returned (Ok x), w1) -> only_asked w w1 -> k x w1 = (r, w') ->
                load_post window id w1 r w') ->
  (try x := e in k x) w = (r, w') -> load_post window id w r w'.
Proof.
  intros Hs Hk H. apply try_inv in H as [(x & w1 & He & H)|[-> Hr]].
  - pose proof (silent_run _ _ _ _ Hs He) as S1. apply (load_post_after _ _ _ w1); [done|]. by eapply Hk.
  - apply load_post_failed; [done|apply Hs].
Qed.

Lemma fetch_rollout_post window url id w r w' :
  (0 <= window)%Z -> fetch_rollout window url id w = (r, w') -> load_post window id w r w'.
Proof.
  intros Hwin. unfold fetch_rollout. cbv zeta.
  apply load_post_try; [apply fetch_silent|]. intros m w1 _ _.
  apply load_post_try; [apply fetch_silent|]. intros s w2 _ _.
  intros H. apply try_inv in H as [(v & w3 & E3 & H)|[-> Hr]];
    [|apply load_post_failed; [done|apply verify_bytes_silent]].
  pose proof (silent_run _ _ _ _ (verify_bytes_silent _ _ _ _) E3) as S3.
  destruct (write_cache_spec id m s w3) as (w4 & E4 & Ht & _).
  rewrite (host_bind_ok _ _ _ _ _ E4) in H. injection H as <- <-.
  apply verify_bytes_ok in E3 as [Ha Hid]; [|done]. split.
  - by eapply touched_trans; [apply only_asked_touched|].
  - exists m. split; [|done]. eapply authentic_weaken; [done| |exact Ha]. apply Ht.
Qed.

Lemma fetch_or_load_post window url id w r w' :
  (0 <= window)%Z -> fetch_or_load window url id w = (r, w') ->
  load_post window id w r w' /\
  forall v, r = Returned (Ok v) -> contains "/" id = false /\ contains ".." id = false.
Proof.
  intros Hwin. unfold fetch_or_load, validate_rollout_id_for_path.
  destruct (contains "/" id || contains ".." id) eqn:Hpath.
  { intros [= <- <-]. split; [|done]. by apply load_post_failed. }
  apply orb_false_iff in Hpath. intros H. split; [|done]. revert H.
  rewrite (host_bind_ok _ _ _ (ho_rollouts w) w) by done.
  destruct (read_cached_bytes id (ho_rollouts w)) as [[m s]|]; [|by apply fetch_rollout_post].
  unfold mbind at 1, HostM_bind at 1. destruct (verify_bytes window m s id w) as [r1 w1] eqn:E1.
  pose proof (silent_run _ _ _ _ (verify_bytes_silent _ _ _ _) E1) as S1.
  destruct r1 as [[v|e]| |]; try (intros [= <- <-]; exact S1).
  - intros [= <- <-]. apply verify_bytes_ok in E1 as [Ha Hid]; [|done]. split; [by apply only_asked_touched|].
    by exists m.
  - intros H. apply (load_post_after _ _ _ w1); [done|]. by eapply fetch_rollout_post.
Qed.

(** ** The fleet *)

(** The fleet that is handed out is normalised after the check. *)
Definition fleet_authentic (lo hi : nat) (window : Duration) (bytes : string)
    (v : Verified FleetResolved) : Prop :=
  exists raw, authentic lo hi window bytes raw /\
    v = MkVerified (normalize_rollout_policies (inner raw)) (v_signed_at raw).

Lemma verify_fleet_bytes_silent window a s : silent (verify_fleet_bytes window a s).
Proof. unfold verify_fleet_bytes, load_trust_roots. silent. Qed.

Lemma verify_fleet_bytes_ok window a s w v w' :
  (0 <= window)%Z -> verify_fleet_bytes window a s w = (Returned (Ok v), w') ->
  fleet_authentic (ho_asked w) (ho_asked w') window a v.
Proof.
  intros Hwin H. unfold verify_fleet_bytes, load_trust_roots in H.
  host_step H now w1. host_step H roots w2. host_step H0 trust w3.
  injection H0 as <- <-. destruct (env_trust_file _) as [trust|] eqn:Htrust; [|done].
  host_step H ver w4. injection H0 as Hver <-. destruct ver as [v'|]; [|done].
  injection H as <- <-. unfold verify_artifact, bind_ended in Hver.
  destruct (verify_signed_sidecar _ _ _ _ _ _) as [[raw|]| |] eqn:Eraw; try done.
  injection Hver as <-. exists raw. split; [|done].
  apply sidecar_ok in Eraw as (_ & c & Hc & Hk & Hp & Hi); [|done].
  exists (ho_asked w), trust, s, c. simpl in *. split_and!; try done; lia.
Qed.

Lemma write_fleet_cache_spec a s w :
  exists w', write_fleet_cache a s w = (Returned tt, w') /\ ho_rollouts w' = ho_rollouts w /\
    ho_asked w <= ho_asked w'.
Proof.
  destruct (write_pair_spec fleet_file fleet_sig_file a s (ho_fleet w) w)
    as (d & w1 & Hw & (H1 & H2 & H3) & _).
  exists (w1 <| ho_fleet := d |>). unfold write_fleet_cache.
  rewrite (host_bind_ok _ _ _ (ho_fleet w) w) by done. rewrite (host_bind_ok _ _ _ _ _ Hw).
  by split_and!.
Qed.

(** A fleet that was accepted, with the hash of its bytes; the rollout cache is
    as before. *)
Definition fleet_post (window : Duration) (w : HostWorld) (v : Verified FleetResolved)
    (hash : string) (w' : HostWorld) : Prop :=
  ho_rollouts w' = ho_rollouts w /\ ho_asked w <= ho_asked w' /\
  exists bytes, fleet_authentic (ho_asked w) (ho_asked w') window bytes v /\
    canonical_hash_from_bytes bytes = Ok hash.

Lemma fleet_authentic_weaken lo lo' hi hi' window bytes v :
  lo' <= lo -> hi <= hi' -> fleet_authentic lo hi window bytes v ->
  fleet_authentic lo' hi' window bytes v.
Proof. intros Hl Hh (raw & Ha & ->). exists raw. split; [by eapply authentic_weaken|done]. Qed.

Lemma fleet_post_after window w w1 v hash w' :
  only_asked w w1 -> fleet_post window w1 v hash w' -> fleet_post window w v hash w'.
Proof.
  intros (H1 & _ & H3) (H1' & H2' & bytes & Ha & Hh). split_and!; [congruence|lia|].
  exists bytes. split; [|done]. by apply (fleet_authentic_weaken (ho_asked w1) _ (ho_asked w')).
Qed.

Lemma fetch_fleet_ok window url w v hash w' :
  (0 <= window)%Z -> fetch_fleet window url w = (Returned (Ok (v, hash)), w') ->
  fleet_post window w v hash w'.
Proof.
  intros Hwin H. unfold fetch_fleet in H. cbv zeta in H.
  apply try_inv in H as [(a & w1 & E1 & H)|[_ Hno]]; [|by destruct (Hno (v, hash))].
  apply (fleet_post_after _ _ w1); [by eapply silent_run; [apply fetch_silent|]|].
  apply try_inv in H as [(s & w2 & E2 & H)|[_ Hno]]; [|by destruct (Hno (v, hash))].
  apply (fleet_post_after _ _ w2); [by eapply silent_run; [apply fetch_silent|]|].
  apply try_inv in H as [(v' & w3 & E3 & H)|[_ Hno]]; [|by destruct (Hno (v, hash))].
  pose proof (silent_run _ _ _ _ (verify_fleet_bytes_silent _ _ _) E3) as (S1 & _ & S3).
  apply verify_fleet_bytes_ok in E3; [|done].
  destruct (canonical_hash_from_bytes a) as [h|] eqn:Eh; [|done].
  destruct (write_fleet_cache_spec a s w3) as (w4 & E4 & W1 & W2).
  rewrite (host_bind_ok _ _ _ _ _ E4) in H. injection H as <- <- <-.
  split_and!; [congruence|lia|]. exists a. split; [|done]. by apply (fleet_authentic_weaken (ho_asked w2) _ (ho_asked w3)).
Qed.

Lemma fetch_or_load_fleet_ok window url w v hash w' :
  (0 <= window)%Z -> fetch_or_load_fleet window url w = (Returned (Ok (v, hash)), w') ->
  fleet_post window w v hash w'.
Proof.
  intros Hwin. unfold fetch_or_load_fleet. rewrite (host_bind_ok _ _ _ (ho_fleet w) w) by done.
  destruct (read_cached_fleet_bytes (ho_fleet w)) as [[a s]|]; [|by apply fetch_fleet_ok].
  intros H. host_step H cached w1.
  pose proof (silent_run _ _ _ _ (verify_fleet_bytes_silent _ _ _) H0) as S1.
  destruct cached as [v'|e].
  - destruct (canonical_hash_from_bytes a) as [h|] eqn:Eh; [|done]. injection H as <- <- <-.
    apply verify_fleet_bytes_ok in H0; [|done]. destruct S1 as (? & _ & ?). split_and!; [done..|].
    by exists a.
  - apply (fleet_post_after _ _ w1); [done|]. by apply fetch_fleet_ok in H.
Qed.

(** ** The poll *)

Context {O : HashOrder}.

(** One entry of the polled set. *)
Definition entry_ok (lo hi : nat) (window : Duration) (f : FleetResolved) (hash : string)
    (channel : string) (v : Verified RolloutManifest) : Prop :=
  is_Some (fr_channels f !! channel) /\ rm_fleet_resolved_hash (inner v) = hash /\
  exists id bytes, compute_rollout_id_for_channel f hash channel = Ok (Some id) /\
    identifies id (inner v) /\ authentic lo hi window bytes v.

Definition entries_ok (lo hi : nat) (window : Duration) (f : FleetResolved) (hash : string)
    (rollouts : gmap string (Verified RolloutManifest)) : Prop :=
  map_Forall (entry_ok lo hi window f hash) rollouts.

Lemma entries_ok_weaken lo hi hi' window f hash rollouts :
  hi <= hi' -> entries_ok lo hi window f hash rollouts -> entries_ok lo hi' window f hash rollouts.
Proof.
  intros Hh H ch v Hv. destruct (H ch v Hv) as (Hc & Hp & id & bytes & Hid & Hi & Ha).
  split_and!; [done..|]. exists id, bytes. split_and!; [done..|].
  by apply (authentic_weaken lo _ hi).
Qed.

Lemma poll_channel_ok lo window url f hash rollouts channel w rollouts' w' :
  (0 <= window)%Z -> lo <= ho_asked w -> is_Some (fr_channels f !! channel) ->
  entries_ok lo (ho_asked w) window f hash rollouts ->
  poll_channel window url f hash rollouts channel w = (Returned rollouts', w') ->
  ho_asked w <= ho_asked w' /\ entries_ok lo (ho_asked w') window f hash rollouts'.
Proof.
  intros Hwin Hlo Hch Hok H. unfold poll_channel in H.
  destruct (compute_rollout_id_for_channel f hash channel) as [[id|]|] eqn:Eid;
    [|by injection H as <- <-..].
  host_step H fetched w1. apply fetch_or_load_post in H0 as [Hpost _]; [|done].
  assert (Hle : ho_asked w <= ho_asked w1).
  { destruct fetched; simpl in Hpost; [by destruct Hpost as [(_ & ? & _) _]|by destruct Hpost as (_ & _ & ?)]. }
  apply (entries_ok_weaken _ _ (ho_asked w1)) in Hok; [|done].
  destruct fetched as [v|e]; [|by injection H as <- <-].
  destruct Hpost as (_ & bytes & Ha & Hi). case_bool as [Hh|Hh]; simpl in H; injection H as <- <-; [|done].
  split; [done|]. apply map_Forall_insert_2; [|done]. split_and!; [done..|]. exists id, bytes.
  split_and!; [done..|]. by apply (authentic_weaken (ho_asked w) _ (ho_asked w1)).
Qed.

Lemma poll_channels_ok lo window url f hash channels rollouts w rollouts' w' :
  (0 <= window)%Z -> lo <= ho_asked w ->
  Forall (fun ch => is_Some (fr_channels f !! ch)) channels ->
  entries_ok lo (ho_asked w) window f hash rollouts ->
  poll_channels window url f hash rollouts channels w = (Returned rollouts', w') ->
  ho_asked w <= ho_asked w' /\ entries_ok lo (ho_asked w') window f hash rollouts'.
Proof.
  intros Hwin Hlo Hch. revert rollouts w Hlo.
  induction Hch as [|ch channels Hch _ IH]; intros rollouts w Hlo Hok H.
  - by injection H as <- <-.
  - simpl in H. host_step H r1 w1. apply (poll_channel_ok lo) in H0 as [Hle Hok1]; [|done..].
    apply IH in H as [Hle' Hok2]; [|lia|done]. split; [lia|done].
Qed.

End authentic.

(** ** Running the cache forward *)

Section forward.
Context {Cr : Crypto} {E : HostEnv}.
Context {Dm : DeserializeOwned RolloutManifest} {Df : DeserializeOwned FleetResolved}.

(** Two questions were asked. *)
Definition asked_twice (w : HostWorld) : HostWorld := w <| ho_asked := S (S (ho_asked w)) |>.

(** What the host says of a payload at the time of the call. *)
Definition accepted {T} {De : DeserializeOwned T} {Si : SignedSidecar T}
    (window : Duration) (bytes signature : string) (w : HostWorld) (v : Verified T) : Prop :=
  exists trust canonical,
    env_trust_file (S (ho_asked w)) = Ok trust /\
    let slot := tc_ci_release_key trust in
    let now := env_now (ho_asked w) in
    canonical_form bytes canonical /\
    Exists (key_accepts canonical signature) (active_keys_at slot now) /\
    payload_ok canonical (ks_reject_before slot) v /\ in_window window now (v_signed_at v).

Lemma verify_bytes_accepted window m s id w v :
  window_fits window -> accepted window m s w v -> identifies id (inner v) ->
  verify_bytes window m s id w = (Returned (Ok v), asked_twice w).
Proof.
  intros Hfit (trust & c & Ht & Hc & Hk & Hp & Hi) Hid.
  unfold verify_bytes, load_trust_roots, mbind, HostM_bind, ask, mret, HostM_ret, lift_ended. simpl.
  rewrite Ht. simpl.
  assert (Hok : verify_rollout_manifest m s (active_keys_at (tc_ci_release_key trust) (env_now (ho_asked w)))
                  (env_now (ho_asked w)) window (ks_reject_before (tc_ci_release_key trust)) = Returned (Ok v)).
  { apply sidecar_ok; [by destruct Hfit|]. split; [done|]. by exists c. }
  rewrite Hok. by rewrite (proj2 (assert_rollout_id_ok _ _ tt) Hid).
Qed.

Lemma verify_fleet_bytes_accepted window a s w raw :
  window_fits window -> accepted window a s w raw ->
  verify_fleet_bytes window a s w =
    (Returned (Ok (MkVerified (normalize_rollout_policies (inner raw)) (v_signed_at raw))), asked_twice w).
Proof.
  intros Hfit (trust & c & Ht & Hc & Hk & Hp & Hi).
  unfold verify_fleet_bytes, load_trust_roots, mbind, HostM_bind, ask, mret, HostM_ret, lift_ended. simpl.
  rewrite Ht. simpl. unfold verify_artifact.
  assert (Hok : verify_signed_sidecar a s (active_keys_at (tc_ci_release_key trust) (env_now (ho_asked w)))
                  (env_now (ho_asked w)) window (ks_reject_before (tc_ci_release_key trust)) = Returned (Ok raw)).
  { apply sidecar_ok; [by destruct Hfit|]. split; [done|]. by exists c. }
  by rewrite Hok.
Qed.

Lemma cached_rollout window url id w m s v :
  window_fits window -> contains "/" id = false -> contains ".." id = false ->
  read_cached_bytes id (ho_rollouts w) = Some (m, s) -> accepted window m s w v ->
  identifies id (inner v) ->
  fetch_or_load window url id w = (Returned (Ok v), asked_twice w).
Proof.
  intros Hfit H1 H2 Hcache Hacc Hid. unfold fetch_or_load, validate_rollout_id_for_path.
  rewrite H1, H2. simpl. rewrite (host_bind_ok _ _ _ (ho_rollouts w) w), Hcache by done.
  by rewrite (host_bind_ok _ _ _ _ _ (verify_bytes_accepted _ _ _ _ _ _ Hfit Hacc Hid)).
Qed.

Lemma canonical_hash_ok bytes c :
  canonical_form bytes c -> canonical_hash_from_bytes bytes = Ok (hex_lowercase (sha256 c)).
Proof.
  intros [Hu Hc]. unfold canonical_hash_from_bytes. rewrite Hu.
  apply canonicalize_ok in Hc. by rewrite Hc.
Qed.

Lemma cached_fleet window url w a s raw hash :
  window_fits window -> read_cached_fleet_bytes (ho_fleet w) = Some (a, s) ->
  accepted window a s w raw -> canonical_hash_from_bytes a = Ok hash ->
  fetch_or_load_fleet window url w =
    (Returned (Ok (MkVerified (normalize_rollout_policies (inner raw)) (v_signed_at raw), hash)),
     asked_twice w).
Proof.
  intros Hfit Hcache Hacc Hh. unfold fetch_or_load_fleet.
  rewrite (host_bind_ok _ _ _ (ho_fleet w) w), Hcache by done.
  rewrite (host_bind_ok _ _ _ _ _ (verify_fleet_bytes_accepted _ _ _ _ _ Hfit Hacc)). by rewrite Hh.
Qed.

(** What a successful fetch leaves on a disk that writes. *)
Lemma fetched_rollout_cached window url id w v w' :
  (0 <= window)%Z -> (forall n, env_write n = FileWritten) ->
  fetch_rollout window url id w = (Returned (Ok v), w') ->
  exists m s w1, read_cached_bytes id (ho_rollouts w') = Some (m, s) /\
    window_fits window /\ accepted window m s w1 v /\ identifies id (inner v).
Proof.
  intros Hwin Hdisk H. unfold fetch_rollout in H. cbv zeta in H.
  apply try_inv in H as [(m & w1 & E1 & H)|[_ Hno]]; [|by destruct (Hno v)].
  apply try_inv in H as [(s & w2 & E2 & H)|[_ Hno]]; [|by destruct (Hno v)].
  apply try_inv in H as [(v' & w3 & E3 & H)|[_ Hno]]; [|by destruct (Hno v)].
  destruct (write_cache_spec id m s w3) as (w4 & E4 & _ & Hw4).
  rewrite (host_bind_ok _ _ _ _ _ E4) in H. injection H as <- <-.
  exists m, s, w2. rewrite (Hw4 Hdisk). unfold read_cached_bytes.
  assert (Hne : signature_file id <> manifest_file id).
  { unfold signature_file, manifest_file. clear. induction id as [|c id IH];
      [intros Heq; vm_compute in Heq; discriminate Heq|].
    simpl. intros Heq. injection Heq as Heq. exact (IH Heq). }
  rewrite lookup_insert_eq, lookup_insert_ne, lookup_insert_eq by exact Hne. split; [done|].
  unfold verify_bytes, load_trust_roots in E3.
  host_step E3 now wa. host_step E3 roots wb. host_step H trust wc.
  injection H as <- <-. destruct (env_trust_file _) as [trust|] eqn:Htrust; [|done].
  host_step E3 ver wd. injection H as Hver <-. destruct ver as [v''|]; [|done].
  injection E3 as E3 <-. destruct (assert_rollout_id_matches _ _) as [r|] eqn:Hid; [|done].
  injection E3 as <-. apply assert_rollout_id_ok in Hid.
  apply sidecar_ok in Hver as (Hfit & c & Hc & Hk & Hp & Hi); [|done].
  split_and!; [done| |done]. by exists trust, c.
Qed.

End forward.

(** ** A sample host

    Its control plane serves one channel with one host; the disk writes. *)

Definition served_fleet : FleetResolved :=
  MkFleetResolved 1 {[ "web-1" := MkHost "x86_64-linux" [] "stable" (Some "new") None None ]}
    {[ "stable" := MkChannel "p" 5 180 60 ]}
    {[ "p" := MkRolloutPolicy "waves" [] (MkHealthGate None) OnHealthFailure.Halt ]} ∅ [] [] []
    (MkMeta 1 (Some 0%Z) (Some "abc") None).

Definition served_manifest : RolloutManifest :=
  MkRolloutManifest 1 "stable@abc" "stable" "abc" (hex_lowercase (pad 32 "fleet"))
    [MkHostWave "web-1" 0 "new"] (MkHealthGate None) [] (MkMeta 1 (Some 0%Z) (Some "abc") None).

Definition served_decoder : DeserializeOwned RolloutManifest := fun s =>
  if bool_decide (s = "manifest") then Ok served_manifest else Err "unexpected".

Definition fleet_decoder : DeserializeOwned FleetResolved := fun s =>
  if bool_decide (s = "fleet") then Ok served_fleet else Err "unexpected".

Definition ci_trust : TrustConfig :=
  MkTrustConfig 1 (MkKeySlot (Some (sample_key "ci")) None None None None) [] None None [].

(** The answers of a control plane that serves [body url] signed by the release
    key. *)
Definition serves (body : string -> string) (n : nat) (url : string) : HttpAnswer :=
  Response 200 (Ok (if ends_with "/sig" url then sample_sign (pad 32 "ci") (body url) else body url)).

Definition served (url : string) : string :=
  if contains "fleet.resolved" url then "fleet"
  else if contains "/dispatch" url then "dispatch" else "manifest".

Definition sample_host (get : nat -> string -> HttpAnswer) (now : DateTime) : HostEnv := {|
  env_now := fun _ => now;
  env_trust_file := fun _ => Ok ci_trust;
  env_get := get;
  env_post_heartbeat := fun _ _ _ => HeartbeatSendFailed "unreachable";
  env_write := fun _ => FileWritten;
  env_current_system := fun _ => Some "/nix/store/old";
  status_text := fun _ => "";
  body_text := fun s => s;
  display_time := fun _ => "";
  debug_str := fun s => s;
  debug_verify_error := fun _ => "";
|}.

Definition empty_host : HostWorld := MkHostWorld ∅ ∅ 0.

Definition sample_load (get : nat -> string -> HttpAnswer) (now : DateTime) (w : HostWorld) :=
  fetch_or_load (Cr := sample_crypto) (E := sample_host get now) (Dm := served_decoder)
    (duration_minutes 60) "https://cp/" "stable@abc" w.

Definition sample_tick (get : nat -> string -> HttpAnswer) (now : DateTime) (w : HostWorld) :=
  tick_once (O := list_order) (Cr := sample_crypto) (E := sample_host get now) (Dm := served_decoder)
    (Df := fleet_decoder) (duration_minutes 60) "https://cp/" w.

(** ** Properties *)

(** C33.  What leaves the cache is authentic.  Whatever the two directories held,
    with whatever bytes, and whatever the control plane answered, a manifest that
    [fetch_or_load] returns was accepted under the keys, the switch and the clock
    the host gave during this very call, and names the rollout that was asked
    for, whose identifier cannot leave the directory.  When the call fails
    nothing is written, and a successful one writes at most the two files of the
    rollout. *)
Theorem cached_manifest_is_authentic {Cr : Crypto} {E : HostEnv} {Dm : DeserializeOwned RolloutManifest}
    (window : Duration) (url id : string) (w w' : HostWorld)
    (r : ended (result (Verified RolloutManifest) ManifestError)) :
  (0 <= window)%Z ->
  fetch_or_load window url id w = (r, w') ->
  (forall v, r = Returned (Ok v) ->
     identifies id (inner v) /\ contains "/" id = false /\ contains ".." id = false /\
     exists bytes, authentic (ho_asked w) (ho_asked w') window bytes v) /\
  ((forall v, r <> Returned (Ok v)) -> ho_rollouts w' = ho_rollouts w) /\
  ho_fleet w' = ho_fleet w /\
  (forall name, name <> manifest_file id -> name <> signature_file id ->
     ho_rollouts w' !! name = ho_rollouts w !! name).
Proof.
  intros Hwin H. apply fetch_or_load_post in H as [Hpost Hpath]; [|done].
  assert (Ht : touched id w w').
  { destruct r as [[v|]| |]; simpl in Hpost; [apply Hpost|by apply only_asked_touched..]. }
  destruct Ht as (Hf & Hle & Ho). split_and!; [..|done|done].
  - intros v ->. destruct Hpost as (_ & bytes & Ha & Hi). destruct (Hpath v eq_refl).
    split_and!; eauto.
  - intros Hno. destruct r as [[v|]| |]; [by destruct (Hno v)|apply Hpost..].
Qed.

(** A first fetch, over a cache that holds something else. *)
Lemma cached_manifest_is_authentic_witness :
  let w := MkHostWorld {[ "stable@abc.json" := "forged"; "stable@abc.json.sig" := "forged" ]} ∅ 0 in
  (sample_load (serves served) (duration_minutes 5) w).1 = Returned (Ok (MkVerified served_manifest 0%Z)) /\
  identifies "stable@abc" served_manifest.
Proof.
  intros w. assert (Hr : (sample_load (serves served) (duration_minutes 5) w).1 =
                         Returned (Ok (MkVerified served_manifest 0%Z))) by by vm_compute.
  split; [done|].
  refine (proj1 (proj1 (cached_manifest_is_authentic (Cr := sample_crypto)
    (E := sample_host (serves served) (duration_minutes 5)) (Dm := served_decoder) (duration_minutes 60)
    "https://cp/" "stable@abc" w (sample_load (serves served) (duration_minutes 5) w).2
    (sample_load (serves served) (duration_minutes 5) w).1 _ _) _ Hr)).
  - by vm_compute.
  - unfold sample_load. apply surjective_pairing.
Defined.

(** The cache makes the control plane dispensable.  After a first successful
    fetch on a disk that writes, any later call for the rollout, in another
    process, against another control plane or none, returns the same manifest
    from the disk without a request, as long as the trust file is the same, no
    rotation is pending and the signing time is within the window. *)
Theorem cached_manifest_served_offline {Cr : Crypto} {Dm : DeserializeOwned RolloutManifest}
    (E1 E2 : HostEnv) (window : Duration) (url1 url2 id : string) (trust : TrustConfig)
    (w w' w2 : HostWorld) (v : Verified RolloutManifest) :
  (0 <= window)%Z ->
  (forall n, env_write (HostEnv := E1) n = FileWritten) ->
  (forall n, env_trust_file (HostEnv := E1) n = Ok trust) ->
  (forall n, env_trust_file (HostEnv := E2) n = Ok trust) ->
  ks_successor (tc_ci_release_key trust) = None ->
  read_cached_bytes id (ho_rollouts w) = None ->
  fetch_or_load (E := E1) window url1 id w = (Returned (Ok v), w') ->
  ho_rollouts w2 = ho_rollouts w' ->
  in_window window (env_now (HostEnv := E2) (ho_asked w2)) (v_signed_at v) ->
  fetch_or_load (E := E2) window url2 id w2 = (Returned (Ok v), asked_twice w2).
Proof.
  intros Hwin Hdisk Ht1 Ht2 Hs Hnone H Hd Hi.
  pose proof (fetch_or_load_post _ _ _ _ _ _ Hwin H) as [_ Hpath].
  destruct (Hpath v eq_refl) as [H1 H2].
  unfold fetch_or_load, validate_rollout_id_for_path in H. rewrite H1, H2 in H. simpl in H.
  rewrite (host_bind_ok _ _ _ (ho_rollouts w) w), Hnone in H by done.
  apply (fetched_rollout_cached (E := E1)) in H as (m & s & w1 & Hc & Hfit & Hacc & Hid); [|done..].
  apply (cached_rollout (E := E2) window url2 id w2 m s v); [done..|by rewrite Hd| |done].
  destruct Hacc as (trust' & c & Htr & Hcf & Hk & Hp & _). rewrite Ht1 in Htr. injection Htr as <-.
  exists trust, c. unfold active_keys_at in *. rewrite Hs in *. by split_and!.
Qed.

(** Half an hour later the control plane is gone. *)
Lemma cached_manifest_served_offline_witness :
  let down := fun _ _ => SendFailed "connection refused" in
  let w' := (sample_load (serves served) (duration_minutes 5) empty_host).2 in
  (sample_load down (duration_minutes 35) (w' <| ho_asked := 0 |>)).1 =
    Returned (Ok (MkVerified served_manifest 0%Z)).
Proof.
  intros down w'. unfold sample_load.
  rewrite (cached_manifest_served_offline (Cr := sample_crypto) (Dm := served_decoder)
    (sample_host (serves served) (duration_minutes 5)) (sample_host down (duration_minutes 35))
    (duration_minutes 60) "https://cp/" "https://cp/" "stable@abc" ci_trust empty_host w'
    (w' <| ho_asked := 0 |>) (MkVerified served_manifest 0%Z)); try done.
Defined.

(** A fresh cache hides the control plane.  While the cached fleet passes
    the check, which it does for an hour and a minute after its signing whatever
    the release keys have signed since, the poll answers from the disk alone: the
    set it hands to the reducer has the cached fleet, whatever the control plane
    serves.  The poll runs every 30 seconds to see a new fleet, and sees it only
    once the old one has expired. *)
Theorem fresh_cache_hides_new_fleet {O : HashOrder} {Cr : Crypto} {E : HostEnv}
    {Dm : DeserializeOwned RolloutManifest} {Df : DeserializeOwned FleetResolved}
    (window : Duration) (url : string) (w w' : HostWorld) (a s c : string) (trust : TrustConfig)
    (raw : Verified FleetResolved) (set : SignedManifestSet) :
  let slot := tc_ci_release_key trust in
  let now := env_now (ho_asked w) in
  window_fits window ->
  read_cached_fleet_bytes (ho_fleet w) = Some (a, s) ->
  env_trust_file (S (ho_asked w)) = Ok trust ->
  canonical_form a c ->
  Exists (key_accepts c s) (active_keys_at slot now) ->
  payload_ok c (ks_reject_before slot) raw ->
  in_window window now (v_signed_at raw) ->
  tick_once window url w = (Returned (Ok set), w') ->
  sms_fleet set = MkVerified (normalize_rollout_policies (inner raw)) (v_signed_at raw) /\
  forall ch v, sms_rollouts set !! ch = Some v ->
    rm_fleet_resolved_hash (inner v) = hex_lowercase (sha256 c).
Proof.
  intros slot now Hfit Hcache Ht Hc Hk Hp Hi H.
  assert (Hacc : accepted window a s w raw) by by exists trust, c.
  unfold tick_once in H.
  rewrite (host_bind_ok _ _ _ _ _ (cached_fleet window url w a s raw _ Hfit Hcache Hacc
             (canonical_hash_ok _ _ Hc))) in H.
  host_step H rollouts w1. injection H as <- <-. split; [done|].
  apply (poll_channels_ok 0) in H0 as [_ Hok]; [|by destruct Hfit|lia| |done].
  - intros ch v Hv. by destruct (Hok ch v Hv) as (_ & -> & _).
  - apply Forall_forall. intros ch (e & -> & He)%list_elem_of_fmap. destruct e as [ch d].
    apply elem_of_hash_iter in He. by exists d.
Qed.

(** The control plane serves nothing any more; the set is the old one. *)
Lemma fresh_cache_hides_new_fleet_witness :
  let w := (sample_tick (serves served) (duration_minutes 5) empty_host).2 in
  let r := sample_tick (serves (fun _ => "new fleet")) (duration_minutes 50) w in
  exists set, r.1 = Returned (Ok set) /\ sms_fleet set = MkVerified served_fleet 0%Z.
Proof.
  intros w r. destruct r as [[[set|]| |] w'] eqn:Er; try (vm_compute in Er; discriminate Er).
  exists set. split; [done|].
  refine (proj1 (fresh_cache_hides_new_fleet (O := list_order) (Cr := sample_crypto)
    (E := sample_host (serves (fun _ => "new fleet")) (duration_minutes 50)) (Dm := served_decoder)
    (Df := fleet_decoder) (duration_minutes 60) "https://cp/" w w' "fleet"
    (sample_sign (pad 32 "ci") "fleet") "fleet" ci_trust (MkVerified served_fleet 0%Z) set _ _ _ _ _ _ _ Er)); clear Er.
  - by split; vm_compute.
  - by vm_compute.
  - done.
  - split; [by vm_compute|]. by exists "fleet".
  - apply Exists_cons_hd. left. by split; vm_compute.
  - by split_and!; vm_compute.
  - by split; vm_compute.
Defined.

(** The polled set is consistent.  A tick that succeeds hands out a fleet
    accepted during the tick, and for some of its channels a manifest, accepted
    during the tick as well, that bears the identifier projected from that very
    fleet and pins the hash of its canonical form; a channel of another fleet, of
    another hash or without a host never appears. *)
Theorem polled_set_is_consistent {O : HashOrder} {Cr : Crypto} {E : HostEnv}
    {Dm : DeserializeOwned RolloutManifest} {Df : DeserializeOwned FleetResolved}
    (window : Duration) (url : string) (w w' : HostWorld) (set : SignedManifestSet) :
  (0 <= window)%Z ->
  tick_once window url w = (Returned (Ok set), w') ->
  exists bytes hash,
    fleet_authentic (ho_asked w) (ho_asked w') window bytes (sms_fleet set) /\
    canonical_hash_from_bytes bytes = Ok hash /\
    forall channel v, sms_rollouts set !! channel = Some v ->
      is_Some (fr_channels (fleet set) !! channel) /\ rm_fleet_resolved_hash (inner v) = hash /\
      exists id rollout_bytes,
        compute_rollout_id_for_channel (fleet set) hash channel = Ok (Some id) /\
        identifies id (inner v) /\
        authentic (ho_asked w) (ho_asked w') window rollout_bytes v.
Proof.
  intros Hwin H. unfold tick_once in H. host_step H fetched w1.
  destruct fetched as [[f hash]|]; [|done].
  apply fetch_or_load_fleet_ok in H0 as (_ & Hle & bytes & Hf & Hh); [|done].
  host_step H rollouts w2. injection H as <- <-.
  apply (poll_channels_ok (ho_asked w)) in H0 as [Hle' Hok]; [..|done]; try done.
  - exists bytes, hash. split_and!; [by apply (fleet_authentic_weaken (ho_asked w) _ (ho_asked w1))|done|].
    intros ch v Hv. exact (Hok ch v Hv).
  - apply Forall_forall. intros ch (e & -> & He)%list_elem_of_fmap. destruct e as [ch d].
    apply elem_of_hash_iter in He. by exists d.
Qed.

Lemma polled_set_is_consistent_witness :
  exists set, (sample_tick (serves served) (duration_minutes 5) empty_host).1 = Returned (Ok set) /\
    sms_rollouts set = {[ "stable" := MkVerified served_manifest 0%Z ]} /\
    exists hash, rm_fleet_resolved_hash served_manifest = hash.
Proof.
  destruct (sample_tick (serves served) (duration_minutes 5) empty_host) as [[[set|]| |] w'] eqn:Er;
    try (vm_compute in Er; discriminate Er).
  exists set. split; [done|].
  assert (Hs : sms_rollouts set = {[ "stable" := MkVerified served_manifest 0%Z ]}).
  { vm_compute in Er. by injection Er as <- _. }
  split; [done|].
  destruct (polled_set_is_consistent (O := list_order) (Cr := sample_crypto)
    (E := sample_host (serves served) (duration_minutes 5)) (Dm := served_decoder) (Df := fleet_decoder)
    (duration_minutes 60) "https://cp/" empty_host w' set) as (bytes & hash & _ & _ & H);
    [by vm_compute|exact Er|].
  exists hash. apply (H "stable" (MkVerified served_manifest 0%Z)). by rewrite Hs.
Defined.
