(* ===== verification/AgentWorkers.v ===== *)
(** * The agent's workers that talk to the control plane

    Models [poll_once] and [handle_dispatch] of
    [crates/nixfleet-agent/src/runtime/workers/longpoll.rs], the heartbeat of
    [runtime/workers/heartbeat.rs] and of the boot ([runtime/recovery.rs]), and
    what one turn of each worker sends to the reducer. *)

From S2P Require Import Prelude RustStd Proto HostTypes Gates Wire Verify Manifest AgentRuntime.
From S2P Require Import AgentHost AgentManifests.
From stdpp Require Import pretty.

Section workers.
Context {O : HashOrder} {Cr : Crypto} {E : HostEnv}.
Context {Dm : DeserializeOwned RolloutManifest} {Df : DeserializeOwned FleetResolved}.
Context {J : DispatchJson}.

(** ** The long poll ([runtime/workers/longpoll.rs]) *)

Definition poll_once (url : string) : HostM (result (option DispatchResponse) string) :=
  resp ← ask (fun n => env_get n url);
  mret match resp with
  | SendFailed err => Err err
  | Response status body =>
      if bool_decide (status = 204%Z) then Ok None
      else if negb (is_success status) then Err ("CP returned " +:+ status_text status)
      else
        let? body := body in
        let trimmed := trim (body_text body) in
        if bool_decide (trimmed = "") || bool_decide (trimmed = "null") then Ok None
        else
          let? parsed := parse_value trimmed in
          if is_null parsed then Ok None
          else let? dispatch := from_value parsed in Ok (Some dispatch)
  end.

Definition read_current_closure (link : option string) : option string :=
  target ← link;
  n ← file_name target;
  from_utf8 n.

Definition cache_window (cfg : AgentConfig) : Duration :=
  duration_seconds (cfg_manifest_freshness_window_secs cfg).

(** What reaches the reducer: it holds its end of the channel as long as it
    runs. *)
Definition handle_dispatch (cfg : AgentConfig) (dispatch : DispatchResponse)
    : HostM (result AgentInput string) :=
  if negb (bool_decide (dr_hostname dispatch = cfg_machine_id cfg)) then
    mret (Err ("dispatch hostname=" +:+ dr_hostname dispatch +:+ " != agent machine_id=" +:+
               cfg_machine_id cfg))
  else
    ensured ← ensure_for_dispatch (cache_window cfg) (cfg_control_plane_url cfg)
                (rid_raw (dr_rollout_id dispatch)) (cfg_machine_id cfg) (dr_target_closure dispatch);
    match ensured with
    | Err err =>
        mret (Err ("manifest verify (rollout=" +:+ rid_raw (dr_rollout_id dispatch) +:+ "): " +:+
                   ManifestError.reason err))
    | Ok verified =>
        now ← ask env_now;
        match freshness.check_signed_at (v_signed_at verified) 3600 now with
        | freshness.Stale signed_at freshness_window_secs age_secs =>
            mret (Err ("dispatch refused: per-rollout manifest stale at dispatch time (rollout=" +:+
                       rid_raw (dr_rollout_id dispatch) +:+ ", signed_at=" +:+ display_time signed_at
                       +:+ ", window=" +:+ pretty freshness_window_secs +:+ "s, age=" +:+
                       pretty age_secs +:+ "s)"))
        | freshness.Fresh =>
            link ← ask env_current_system;
            let current_closure_at_dispatch := default "" (read_current_closure link) in
            mret (Ok (AgentInput.HostEvent (dr_rollout_id dispatch)
              (Event.LocalActivate current_closure_at_dispatch (dr_target_closure dispatch)
                 (dr_enqueued_at dispatch) (dr_soak_due_at dispatch) 0)))
        end
    end.

(** ** The heartbeat ([runtime/workers/heartbeat.rs]) *)

Definition heartbeat_url (cfg : AgentConfig) : string :=
  strip_slashes (cfg_control_plane_url cfg) +:+ "/v1/agent/heartbeat".

(** What is sent to the reducer, in order.  The replay header is only logged. *)
Definition heartbeat_once (cfg : AgentConfig) : HostM (result (list AgentInput) string) :=
  link ← ask env_current_system;
  now ← ask env_now;
  let req := MkHeartbeatRequest (cfg_machine_id cfg) None (read_current_closure link) now in
  resp ← ask (fun n => env_post_heartbeat n (heartbeat_url cfg) req);
  mret match resp with
  | HeartbeatSendFailed err => Err err
  | HeartbeatReply status _ body =>
      if negb (is_success status) then Err ("CP returned " +:+ status_text status)
      else let? body := body in Ok (AgentInput.BootstrapHost <$> hbr_bootstrap_rollouts body)
  end.

(** ** The handshake at boot ([runtime/recovery.rs]) *)

Record RecoveryOutcome := MkRecoveryOutcome {
  ro_current_closure : option string;
  ro_replay_from : option u64;
  ro_heartbeat_sent_at : DateTime;
  ro_bootstrap_rollouts : list HostRolloutSnapshot;
}.

(** The status of the answer is not looked at. *)
Definition handshake (cfg : AgentConfig) : HostM RecoveryOutcome :=
  link ← ask env_current_system;
  let current_closure := read_current_closure link in
  now ← ask env_now;
  let req := MkHeartbeatRequest (cfg_machine_id cfg) None current_closure now in
  resp ← ask (fun n => env_post_heartbeat n (heartbeat_url cfg) req);
  mret match resp with
  | HeartbeatSendFailed _ => MkRecoveryOutcome current_closure None now []
  | HeartbeatReply _ replay_from body =>
      MkRecoveryOutcome current_closure (replay_from ≫= parse_u64) now
        (match body with Ok body => hbr_bootstrap_rollouts body | Err _ => [] end)
  end.

(** ** One turn of each worker: what it sends to the reducer *)

Definition manifest_poll_turn (cfg : AgentConfig) : HostM (list AgentInput) :=
  set ← tick_once (cache_window cfg) (cfg_control_plane_url cfg);
  mret match set with
  | Ok set => [AgentInput.ManifestSetUpdated set]
  | Err _ => []
  end.

Definition WAIT_SECS : u64 := 60.

Definition longpoll_turn (cfg : AgentConfig) : HostM (list AgentInput) :=
  let url := strip_slashes (cfg_control_plane_url cfg) +:+ "/v1/agent/dispatch?wait=" +:+
             pretty WAIT_SECS in
  res ← poll_once url;
  match res with
  | Ok (Some dispatch) =>
      sent ← handle_dispatch cfg dispatch;
      mret match sent with Ok input => [input] | Err _ => [] end
  | Ok None => mret []
  | Err _ => mret []
  end.

(** The heartbeat's snapshots, which are sent one by one. *)
Definition heartbeat_turn (cfg : AgentConfig) : HostM (list AgentInput) :=
  sent ← heartbeat_once cfg;
  mret match sent with Ok inputs => inputs | Err _ => [] end.

(** At boot, before the reducer has seen anything ([main.rs]). *)
Definition boot_turn (cfg : AgentConfig) : HostM (list AgentInput) :=
  recovery_outcome ← handshake cfg;
  mret (AgentInput.BootstrapHost <$> ro_bootstrap_rollouts recovery_outcome).

End workers.
