(* ===== verification/AgentWorkersProps.v ===== *)
(** * The agent's workers: what they promise

    What reaches the reducer from the control plane, and what that makes of the
    closures it asks to switch to. *)

From S2P Require Import Prelude RustStd Proto HostTypes HostTransitions HostProps RolloutMachine Gates.
From S2P Require Import Wire CpStore CpRuntime CpRuntimeSpecs Verify VerifyProps Manifest AgentQueue AgentRuntime.
From S2P Require Import AgentProps AgentSpecs.
From S2P Require Import AgentHost AgentManifests AgentManifestsProps AgentWorkers.
Import Agent.

Section workers.
Context {O : HashOrder} {Cr : Crypto} {E : HostEnv}.
Context {Dm : DeserializeOwned RolloutManifest} {Df : DeserializeOwned FleetResolved}.
Context {J : DispatchJson}.

(** The first entry of the host is the one that counts. *)
Definition assigns (m : RolloutManifest) (hostname closure : string) : Prop :=
  exists h, List.find (fun h => bool_decide (hw_hostname h = hostname)) (rm_host_set m) = Some h /\
            hw_target_closure h = closure.

Lemma assert_target_closure_ok m hostname closure r :
  assert_target_closure m hostname closure = Ok r <-> assigns m hostname closure.
Proof.
  unfold assert_target_closure, assigns. destruct (List.find _ _) as [h|].
  - case_bool as [Hc|Hc]; simpl.
    + split; [by exists h|by destruct r].
    + split; [done|]. intros (h' & [= <-] & ?). done.
  - split; [done|]. by intros (h' & [=] & _).
Qed.

(** A signed manifest of the rollout gives this host the closure. *)
Definition declared (cfg : AgentConfig) (rid : RolloutId) (closure : string) : Prop :=
  exists lo hi bytes v, authentic lo hi (cache_window cfg) bytes v /\
    identifies (rid_raw rid) (inner v) /\ assigns (inner v) (cfg_machine_id cfg) closure.

Lemma ensure_for_dispatch_ok window url id host closure w v w' :
  (0 <= window)%Z ->
  ensure_for_dispatch window url id host closure w = (Returned (Ok v), w') ->
  touched id w w' /\ assigns (inner v) host closure /\
  exists bytes, authentic (ho_asked w) (ho_asked w') window bytes v /\ identifies id (inner v).
Proof.
  intros Hwin H. unfold ensure_for_dispatch in H.
  apply try_inv in H as [(v' & w1 & E1 & H)|[_ Hno]]; [|by destruct (Hno v)].
  apply fetch_or_load_post in E1 as [[Ht Ha] _]; [|done]. rewrite host_ret in H.
  destruct (assert_target_closure _ _ _) as [r|] eqn:Er; [|done]. injection H as <- <-.
  by apply assert_target_closure_ok in Er.
Qed.

(** The event a dispatch turns into. *)
Definition dispatch_event (d : DispatchResponse) (prior : string) : AgentInput :=
  AgentInput.HostEvent (dr_rollout_id d)
    (Event.LocalActivate prior (dr_target_closure d) (dr_enqueued_at d) (dr_soak_due_at d) 0).

Lemma check_signed_at_fresh signed window now :
  freshness.check_signed_at signed window now = freshness.Fresh <->
  (num_seconds (now - signed) <= window + freshness.CLOCK_SKEW_SLACK_SECS)%Z.
Proof. unfold freshness.check_signed_at. cbv zeta. destruct (Z.ltb_spec (window + freshness.CLOCK_SKEW_SLACK_SECS) (num_seconds (now - signed))); split; done || lia. Qed.

Lemma handle_dispatch_ok cfg d w input w' :
  (0 <= cache_window cfg)%Z -> handle_dispatch cfg d w = (Returned (Ok input), w') ->
  (exists prior, input = dispatch_event d prior) /\ dr_hostname d = cfg_machine_id cfg /\
  touched (rid_raw (dr_rollout_id d)) w w' /\
  exists bytes v n, ho_asked w <= n /\ n < ho_asked w' /\
    authentic (ho_asked w) n (cache_window cfg) bytes v /\
    identifies (rid_raw (dr_rollout_id d)) (inner v) /\
    assigns (inner v) (cfg_machine_id cfg) (dr_target_closure d) /\
    (num_seconds (env_now n - v_signed_at v) <= 3660)%Z.
Proof.
  intros Hwin H. unfold handle_dispatch in H. case_bool as [Hh|Hh]; simpl in H; [|done].
  host_step H ensured w1. destruct ensured as [v|]; [|done].
  apply ensure_for_dispatch_ok in H0 as (Ht & Has & bytes & Ha & Hid); [|done].
  host_step H now w2. destruct (freshness.check_signed_at _ _ _) eqn:Ef; [|done].
  apply check_signed_at_fresh in Ef. host_step H link w3. injection H as <- <-.
  pose proof Ht as (Hf & Hle & Ho). split_and!; [by eexists|done|by split_and!; simpl; lia || done|].
  exists bytes, v, (ho_asked w1). simpl. split_and!; try done; lia.
Qed.

(** ** Inputs of the reducer *)

(** What the workers and the control plane can hand to the reducer: the turns of
    the manifest poll and of the long poll, the advance ticker, the reports of
    the activation and probe workers, and snapshots.  [snapshots] is what is
    assumed of the last. *)
Inductive worker_input (cfg : AgentConfig) (snapshots : HostRolloutSnapshot -> Prop)
    : AgentInput -> Prop :=
| from_manifest_poll w inputs w' input :
    manifest_poll_turn cfg w = (Returned inputs, w') -> input ∈ inputs ->
    worker_input cfg snapshots input
| from_longpoll w inputs w' input :
    longpoll_turn cfg w = (Returned inputs, w') -> input ∈ inputs ->
    worker_input cfg snapshots input
| from_ticker : worker_input cfg snapshots AgentInput.AgentAdvanceTick
| from_worker rid event :
    (forall a b c d e, event <> Event.LocalActivate a b c d e) -> (Event.seq event <= u64_max)%Z ->
    worker_input cfg snapshots (AgentInput.HostEvent rid event)
| from_snapshot snap :
    snapshots snap -> (0 <= snap_last_event_seq snap <= u64_max)%Z ->
    worker_input cfg snapshots (AgentInput.BootstrapHost snap).

(** The closure of a snapshot is one a signed manifest gives this host. *)
Definition snapshot_declared (cfg : AgentConfig) (snap : HostRolloutSnapshot) : Prop :=
  declared cfg (snap_rollout_id snap) (snap_target_closure snap).

(** The closures an input can put in a record. *)
Definition input_declared (cfg : AgentConfig) (input : AgentInput) : Prop :=
  match input with
  | AgentInput.HostEvent rid (Event.LocalActivate _ target _ _ _) => declared cfg rid target
  | AgentInput.BootstrapHost snap => snapshot_declared cfg snap
  | _ => True
  end.

Lemma worker_input_ok cfg snapshots input :
  (0 <= cache_window cfg)%Z -> (forall snap, snapshots snap -> snapshot_declared cfg snap) ->
  worker_input cfg snapshots input -> input_ok input /\ input_declared cfg input.
Proof.
  intros Hwin Hsnap H. destruct H as [w inputs w' input H Hin|w inputs w' input H Hin| |rid ev Hev Hs|snap Hs Hb].
  - unfold manifest_poll_turn in H. host_step H set w1. injection H as <- <-.
    destruct set; [by apply list_elem_of_singleton in Hin as ->|by apply elem_of_nil in Hin].
  - unfold longpoll_turn in H. cbv zeta in H. host_step H res w1.
    destruct res as [[d|]|]; [|by injection H as <- <-; apply elem_of_nil in Hin..].
    host_step H sent w2. injection H as <- <-.
    destruct sent as [i|]; [|by apply elem_of_nil in Hin]. apply list_elem_of_singleton in Hin as ->.
    apply handle_dispatch_ok in H1 as ((prior & ->) & _ & _ & bytes & v & n & _ & _ & Ha & Hi & Has & _); [|done].
    split; [by vm_compute|]. by exists (ho_asked w1), n, bytes, v.
  - done.
  - split; [done|]. destruct ev; try done. by edestruct Hev.
  - split; [done|]. by apply Hsnap.
Qed.

End workers.

(** ** Records *)

Section records.
Context {O : HashOrder} {Q : QueueCodec} {C : AgentClock} {D : Disk} (cfg : AgentConfig).
Context (P : RolloutId -> string -> Prop).

(** Every record's closure has the property. *)
Definition targets_ok (s : AgentState) : Prop :=
  map_Forall (fun rid st => P rid (hs_target_closure st)) (as_host_states s).

Definition input_target_ok (input : AgentInput) : Prop :=
  match input with
  | AgentInput.HostEvent rid (Event.LocalActivate _ target _ _ _) => P rid target
  | AgentInput.BootstrapHost snap => P (snap_rollout_id snap) (snap_target_closure snap)
  | _ => True
  end.

Lemma targets_ok_event s rid event w :
  targets_ok s -> input_target_ok (AgentInput.HostEvent rid event) ->
  targets_ok (run_host_event cfg s rid event w).1.
Proof.
  intros Hs Hev. unfold run_host_event.
  destruct (event_state s rid event w) as [[st w1]|] eqn:Est; [|done].
  assert (HP : P rid (hs_target_closure st)).
  { unfold event_state in Est. destruct (as_host_states s !! rid) as [st'|] eqn:Hst.
    - injection Est as <- _. by apply Hs.
    - destruct event; try done. by injection Est as <- _. }
  destruct (resolve_policy _ _) as [policy|]; [|done]. simpl.
  destruct (step _ _ _ _) as [[st' effs]|] eqn:E; [|done]. simpl.
  pose proof (step_identity _ _ _ _ _ _ E) as [= _ _ _ Ht _ _].
  apply map_Forall_insert_2; [by rewrite Ht|done].
Qed.

Lemma targets_ok_events evs s w :
  targets_ok s -> Forall (fun p : RolloutId * Event => input_target_ok (AgentInput.HostEvent p.1 p.2)) evs ->
  targets_ok (run_events cfg evs s w).1.
Proof.
  intros Hs H. revert s w Hs. induction H as [|[rid ev] evs Hev _ IH]; intros s w Hs; [done|].
  unfold run_events in *. simpl. pose proof (targets_ok_event s rid ev w Hs Hev) as H1.
  destruct (run_host_event cfg s rid ev w). by apply IH.
Qed.

Lemma targets_ok_input s input w :
  targets_ok s -> input_target_ok input -> targets_ok (handle_input cfg s input w).1.
Proof.
  intros Hs Hin. destruct input as [rid ev| |set|snap]; [by apply targets_ok_event| |done|].
  - apply (targets_ok_events (advance_events s (agent_clock_reading (aw_reads w))) s
             (w <| aw_reads := S (aw_reads w) |>)); [done|].
    apply Forall_forall. intros [rid ev] (st & _ & Hev)%advance_events_elem.
    by destruct Hev as [(_ & ? & ? & ->)|(_ & ->)].
  - by apply map_Forall_insert_2.
Qed.

(** Every switch of a run is to such a closure. *)
Lemma run_switches_ok inputs s w :
  agent_wf s -> targets_ok s -> Forall (fun i => P (ai_rollout_id i) (ai_target_closure i)) (switch_intents w) ->
  Forall (fun input => input_ok input /\ input_target_ok input) inputs ->
  Forall (fun i => P (ai_rollout_id i) (ai_target_closure i))
    (switch_intents (agent_run cfg s inputs w).2).
Proof.
  intros Hwf Hs Hw Hin. revert s w Hwf Hs Hw.
  induction Hin as [|input inputs [Hok Ht] _ IH]; intros s w Hwf Hs Hw; [done|]. simpl.
  pose proof (agent_wf_handle_input cfg s input w Hwf Hok) as Hwf'.
  pose proof (targets_ok_input s input w Hs Ht) as Hs'.
  pose proof (handle_input_switches cfg s input w Hwf) as Hsw.
  destruct (handle_input cfg s input w) as [s1 w1]. apply IH; [done..|]. simpl in *. rewrite Hsw.
  apply Forall_app. split; [done|]. destruct input as [rid ev| | |]; [|by constructor..].
  destruct ev; try (by constructor). simpl. destruct (as_host_states s !! rid) as [st|] eqn:Hst.
  - destruct (resolve_policy _ _); [|constructor]. destruct (_ && _); [|constructor].
    constructor; [|constructor]. by apply Hs.
  - destruct (resolve_policy _ _); [|constructor]. by constructor; [|constructor].
Qed.

End records.

(** ** Properties *)

(** A dispatch is only advice.  What the long poll hands to the reducer for a
    dispatch is a [LocalActivate] for this host and for exactly the rollout and
    closure of the dispatch, and then only if a manifest of that rollout,
    accepted during the call, gives this host, by its first entry, exactly that
    closure and was signed at most an hour and a minute before, whatever the
    window the agent is configured with. *)
Theorem dispatch_is_authorised {O : HashOrder} {Cr : Crypto} {E : HostEnv}
    {Dm : DeserializeOwned RolloutManifest} (cfg : AgentConfig) (d : DispatchResponse)
    (w w' : HostWorld) (input : AgentInput) :
  (0 <= cache_window cfg)%Z ->
  handle_dispatch cfg d w = (Returned (Ok input), w') ->
  (exists prior, input = dispatch_event d prior) /\ dr_hostname d = cfg_machine_id cfg /\
  exists bytes v n, ho_asked w <= n /\ n < ho_asked w' /\
    authentic (ho_asked w) n (cache_window cfg) bytes v /\
    identifies (rid_raw (dr_rollout_id d)) (inner v) /\
    assigns (inner v) (cfg_machine_id cfg) (dr_target_closure d) /\
    (num_seconds (env_now n - v_signed_at v) <= 3660)%Z.
Proof. intros Hwin H. apply handle_dispatch_ok in H as (? & ? & _ & ?); [|done]. by split_and!. Qed.

(** C1.  Only signed closures are switched to.  Start the reducer with nothing and
    give it, in any order and number, turns of the manifest poll and of the long
    poll against a control plane that answers anything, ticks of the timer, and
    reports of the other workers; let the snapshots the control plane sends name
    only closures a signed manifest gives this host.  Then every switch that is
    ever requested is to a closure that a manifest of its rollout, accepted by
    this host, gives to this host. *)
Theorem switches_are_signed {O : HashOrder} {Q : QueueCodec} {C : AgentClock} {D : Disk}
    {Cr : Crypto} {E : HostEnv} {Dm : DeserializeOwned RolloutManifest}
    {Df : DeserializeOwned FleetResolved} {J : DispatchJson}
    (cfg : AgentConfig) (inputs : list AgentInput) (w : AgentWorld) :
  (0 <= cache_window cfg)%Z ->
  aw_intents w = [] ->
  Forall (worker_input cfg (snapshot_declared cfg)) inputs ->
  Forall (fun i => declared cfg (ai_rollout_id i) (ai_target_closure i))
    (switch_intents (agent_run cfg agent_initial inputs w).2).
Proof.
  intros Hwin Hw Hin. apply (run_switches_ok cfg (declared cfg)).
  - apply map_Forall_empty.
  - apply map_Forall_empty.
  - unfold switch_intents. rewrite Hw. constructor.
  - eapply Forall_impl; [exact Hin|]. intros input H.
    apply worker_input_ok in H as [H1 H2]; [|done..]. split; [done|].
    by destruct input as [rid ev| | |]; [destruct ev|..].
Qed.

(** A snapshot overrides the dispatch.  A [Pending] snapshot of a rollout the
    agent does not know is taken as it comes, and the dispatch that follows is
    checked against the signed manifest but executed against the record: the
    switch goes to the snapshot's closure, whatever closure the dispatch names
    and the manifest declares. *)
Theorem snapshot_overrides_dispatch {O : HashOrder} {Q : QueueCodec} {C : AgentClock} {D : Disk}
    (cfg : AgentConfig) (s : AgentState) (w : AgentWorld) (snap : HostRolloutSnapshot)
    (policy : RolloutPolicy) (prior target : string) (received_at soak_due_at : DateTime) :
  agent_wf s ->
  snap_state snap = WireState.Pending ->
  (0 <= snap_last_event_seq snap < u64_max)%Z ->
  resolve_policy (as_manifests s) (snap_channel snap) = Some policy ->
  let r := handle_input cfg s (AgentInput.BootstrapHost snap) w in
  let dispatch := AgentInput.HostEvent (snap_rollout_id snap)
    (Event.LocalActivate prior target received_at soak_due_at 0) in
  switch_intents (handle_input cfg r.1 dispatch r.2).2 =
  switch_intents w ++ [MkActivationIntent (snap_rollout_id snap) (snap_target_closure snap) false].
Proof.
  intros Hwf Hst Hseq Hp r dispatch.
  assert (Hr : agent_wf r.1) by (apply agent_wf_handle_input; [done|simpl; lia]).
  rewrite (handle_input_switches cfg r.1 dispatch r.2 Hr).
  unfold r. rewrite (handle_input_switches cfg s (AgentInput.BootstrapHost snap) w Hwf), app_nil_r.
  f_equal. simpl. rewrite lookup_insert_eq. cbn [hs_channel merge_snapshot_into_state].
  rewrite Hp. unfold merge_snapshot_into_state. cbn [hs_state hs_last_event_seq hs_target_closure].
  rewrite Hst.
  by rewrite bool_decide_eq_true_2, (proj2 (Z.ltb_lt _ _)) by (done || lia).
Qed.

(** ** Witnesses *)

Definition served_dispatch : DispatchResponse :=
  MkDispatchResponse "web-1" (rollout_id.new "stable" "abc") "new" (duration_minutes 5) 0.

Definition dispatch_from_value (s : string) : result DispatchResponse string :=
  if bool_decide (s = "dispatch") then Ok served_dispatch else Err "unexpected".

Definition dispatch_json : @DispatchJson sample_crypto :=
  @Build_DispatchJson sample_crypto (fun _ => false) dispatch_from_value.

(** The control plane serves the dispatch unsigned. *)
Definition sample_env : HostEnv := sample_host (serves served) (duration_minutes 5).

Definition sample_handle (w : HostWorld) :=
  handle_dispatch (Cr := sample_crypto) (E := sample_env) (Dm := served_decoder)
    sample_cfg served_dispatch w.

Lemma dispatch_is_authorised_witness :
  (sample_handle empty_host).1 = Returned (Ok (dispatch_event served_dispatch "old")) /\
  dr_hostname served_dispatch = "web-1".
Proof.
  assert (Hr : (sample_handle empty_host).1 = Returned (Ok (dispatch_event served_dispatch "old")))
    by by vm_compute.
  split; [done|].
  refine (proj1 (proj2 (dispatch_is_authorised (O := list_order) (Cr := sample_crypto) (E := sample_env)
    (Dm := served_decoder) sample_cfg served_dispatch empty_host (sample_handle empty_host).2
    (dispatch_event served_dispatch "old") _ _))).
  - by vm_compute.
  - rewrite <- Hr. apply surjective_pairing.
Defined.

Definition sample_poll (w : HostWorld) :=
  manifest_poll_turn (O := list_order) (Cr := sample_crypto) (E := sample_env) (Dm := served_decoder)
    (Df := fleet_decoder) sample_cfg w.
Definition sample_longpoll (w : HostWorld) :=
  longpoll_turn (Cr := sample_crypto) (E := sample_env) (Dm := served_decoder)
    (J := dispatch_json) sample_cfg w.

Definition inputs_of (r : ended (list AgentInput)) : list AgentInput :=
  match r with Returned inputs => inputs | _ => [] end.

(** One turn of each, then the reducer. *)
Lemma switches_are_signed_witness :
  let inputs := inputs_of (sample_poll empty_host).1 ++ inputs_of (sample_longpoll empty_host).1 in
  let r := sample_agent_run inputs in
  switch_intents r.2 = [MkActivationIntent (rollout_id.new "stable" "abc") "new" false] /\
  Forall (fun i => declared (Cr := sample_crypto) (E := sample_env) (Dm := served_decoder) sample_cfg
                     (ai_rollout_id i) (ai_target_closure i)) (switch_intents r.2).
Proof.
  intros inputs r. split; [by vm_compute|].
  refine (switches_are_signed (O := list_order) (Q := plain_codec) (C := sample_agent_clock)
    (D := sample_disk) (Cr := sample_crypto) (E := sample_env) (Dm := served_decoder)
    (Df := fleet_decoder) (J := dispatch_json) sample_cfg inputs sample_world _ _ _).
  - by vm_compute.
  - done.
  - apply Forall_forall. intros input Hin. apply elem_of_app in Hin as [Hin|Hin].
    + eapply (from_manifest_poll _ _ empty_host (inputs_of (sample_poll empty_host).1)
               (sample_poll empty_host).2); [|exact Hin]. by vm_compute.
    + eapply (from_longpoll _ _ empty_host (inputs_of (sample_longpoll empty_host).1)
               (sample_longpoll empty_host).2); [|exact Hin]. by vm_compute.
Defined.

(** The control plane's record names another closure than the release. *)
Lemma snapshot_overrides_dispatch_witness :
  let snap := Reducer.host_rollout_state_to_snapshot
    (new_pending (rollout_id.new "stable" "abc") "web-1" "stable" "/nix/store/evil" 0 0) in
  let s := MkAgentState ∅ (Some staged_manifests) in
  let r := handle_input (O := list_order) (Q := plain_codec) (C := sample_agent_clock)
             (D := sample_disk) sample_cfg s (AgentInput.BootstrapHost snap) sample_world in
  switch_intents (handle_input (O := list_order) (Q := plain_codec) (C := sample_agent_clock)
    (D := sample_disk) sample_cfg r.1 (dispatch_event served_dispatch "old") r.2).2 =
  [MkActivationIntent (rollout_id.new "stable" "abc") "/nix/store/evil" false].
Proof.
  intros snap s r.
  refine (snapshot_overrides_dispatch (O := list_order) (Q := plain_codec) (C := sample_agent_clock)
    (D := sample_disk) sample_cfg s sample_world snap
    sample_policy "old" "new" 0 (duration_minutes 5) _ _ _ _).
  - apply map_Forall_empty.
  - done.
  - by split; vm_compute.
  - by vm_compute.
Defined.
