(* ===== verification/CpDispatch.v ===== *)
(** * The long poll of the control plane

    Models [crates/nixfleet-control-plane/src/server/routes/dispatch.rs] beside
    the applier that fills the queue ([runtime/applier.rs], [queue_dispatch]).
    The handler is a phase that moves at its awaits and table accesses; any
    number of handlers, the applier and the clock interleave in [hub_step].  The
    watch channel is a version and what each receiver has seen of it. *)

From S2P Require Import Prelude Proto CpStore.

Definition MAX_WAIT_SECS : u64 := 60.

Module dispatch.

Record DispatchResponse := MkDispatchResponse {
  hostname : string;
  rollout_id : RolloutId;
  target_closure : string;
  soak_due_at : DateTime;
  enqueued_at : DateTime;
}.

(** The four ways a handler ends; the first carries a body. *)
Inductive Reply :=
| OK (resp : DispatchResponse)
| NO_CONTENT
| SERVICE_UNAVAILABLE
| INTERNAL_SERVER_ERROR.

Definition deliver (q : QueuedDispatch) : Reply :=
  OK (MkDispatchResponse (qd_hostname q) (qd_rollout_id q) (qd_target_closure q) (qd_soak_due_at q)
        (qd_enqueued_at q)).

(** [q.wait.unwrap_or(MAX_WAIT_SECS).min(MAX_WAIT_SECS)]. *)
Definition wait_window (wait : option u64) : Duration :=
  duration_seconds (Z.min (default MAX_WAIT_SECS wait) MAX_WAIT_SECS).

(** Where a handler is: before the fast path, between the fast path and the
    subscription, at the head of the loop, at the [select!], between a wake and
    the next take, ended. *)
Inductive Phase :=
| Arrived
| Unsubscribed
| Looping (seen : nat) (deadline : Z)
| Parked (seen : nat) (deadline : Z)
| Woken (seen : nat) (deadline : Z)
| Answered (r : Reply).

Definition subscribed (p : Phase) : bool :=
  match p with Looping _ _ | Parked _ _ | Woken _ _ => true | _ => false end.

Record Poll := MkPoll {
  poll_host : string;                                  (* the machine of the certificate *)
  poll_wait : option u64;
  poll_phase : Phase;
}.

(** [hub_owed] counts the rows whose kick is still to be sent. *)
Record Hub := MkHub {
  hub_queue : QueueTable;
  hub_version : nat;
  hub_closed : bool;
  hub_now : Z;
  hub_owed : nat;
  hub_polls : gmap nat Poll;
  hub_enqueued : list QueuedDispatch;
  hub_delivered : list QueuedDispatch;
}.
#[global] Instance Hub_eta : Etaexp Hub := fun h =>
  MkHub (hub_queue h) (hub_version h) (hub_closed h) (hub_now h) (hub_owed h) (hub_polls h)
    (hub_enqueued h) (hub_delivered h).

(** Without a database there is no queue. *)
Definition without_db : Reply := NO_CONTENT.

Definition goto (id : nat) (p : Poll) (phase : Phase) (h : Hub) : Hub :=
  h <| hub_polls := <[ id := MkPoll (poll_host p) (poll_wait p) phase ]> (hub_polls h) |>.

(** [take_for_host], and the phase it leads to: an answer, or [otherwise].  A
    statement that [fails] takes nothing. *)
Definition take {O : HashOrder} (fails : bool) (id : nat) (p : Poll) (otherwise : Phase) (h : Hub)
    : Hub :=
  if fails then goto id p (Answered INTERNAL_SERVER_ERROR) h
  else
    match DispatchQueue.take_for_host (poll_host p) (hub_queue h) with
    | (Some q, t) =>
        goto id p (Answered (deliver q))
          (h <| hub_queue := t |> <| hub_delivered := hub_delivered h ++ [q] |>)
    | (None, _) => goto id p otherwise h
    end.

(** [send]: without a receiver the value stays. *)
Definition kick (h : Hub) : Hub :=
  if existsb (fun e => subscribed (poll_phase e.2)) (map_to_list (hub_polls h)) then
    h <| hub_version := S (hub_version h) |>
  else h.

Section steps.
Context {O : HashOrder}.

(** A handler's own moves.  At the [select!] whichever branch is ready may win. *)
Inductive poll_step (id : nat) (p : Poll) (h : Hub) : Hub -> Prop :=
| fast_path fails :
    poll_phase p = Arrived ->
    poll_step id p h (take fails id p Unsubscribed h)
| subscribe :
    poll_phase p = Unsubscribed ->
    poll_step id p h (goto id p (Looping (hub_version h) (hub_now h + wait_window (poll_wait p))) h)
| loop_head seen deadline :
    poll_phase p = Looping seen deadline ->
    poll_step id p h
      (goto id p (if Z.leb deadline (hub_now h) then Answered NO_CONTENT else Parked seen deadline) h)
| expired seen deadline :
    poll_phase p = Parked seen deadline -> (deadline <= hub_now h)%Z ->
    poll_step id p h (goto id p (Answered NO_CONTENT) h)
| changed seen deadline :
    poll_phase p = Parked seen deadline -> seen <> hub_version h ->
    poll_step id p h (goto id p (Woken (hub_version h) deadline) h)
| sender_dropped seen deadline :
    poll_phase p = Parked seen deadline -> seen = hub_version h -> hub_closed h = true ->
    poll_step id p h (goto id p (Answered SERVICE_UNAVAILABLE) h)
| retake fails seen deadline :
    poll_phase p = Woken seen deadline ->
    poll_step id p h (take fails id p (Looping seen deadline) h).

Inductive hub_step (h : Hub) : Hub -> Prop :=
| step_poll id p h' :
    hub_polls h !! id = Some p -> poll_step id p h h' -> hub_step h h'
| step_request id host wait :
    hub_polls h !! id = None ->
    hub_step h (h <| hub_polls := <[ id := MkPoll host wait Arrived ]> (hub_polls h) |>)
| step_enqueue q :
    hub_step h (h <| hub_queue := DispatchQueue.upsert q (hub_queue h) |>
                  <| hub_owed := S (hub_owed h) |>
                  <| hub_enqueued := hub_enqueued h ++ [q] |>)
| step_kick n :
    hub_owed h = S n -> hub_step h (kick (h <| hub_owed := n |>))
| step_time t :
    (hub_now h <= t)%Z -> hub_step h (h <| hub_now := t |>)
| step_shutdown :
    hub_step h (h <| hub_closed := true |>).

End steps.

(** One move of a handler, the statements succeeding; a wake goes before the
    deadline. *)
Definition poll_next {O : HashOrder} (id : nat) (h : Hub) : option Hub :=
  p ← hub_polls h !! id;
  match poll_phase p with
  | Arrived => Some (take false id p Unsubscribed h)
  | Unsubscribed =>
      Some (goto id p (Looping (hub_version h) (hub_now h + wait_window (poll_wait p))) h)
  | Looping seen deadline =>
      Some (goto id p (if Z.leb deadline (hub_now h) then Answered NO_CONTENT else Parked seen deadline) h)
  | Parked seen deadline =>
      if negb (bool_decide (seen = hub_version h)) then Some (goto id p (Woken (hub_version h) deadline) h)
      else if Z.leb deadline (hub_now h) then Some (goto id p (Answered NO_CONTENT) h)
      else if hub_closed h then Some (goto id p (Answered SERVICE_UNAVAILABLE) h)
      else None
  | Woken seen deadline => Some (take false id p (Looping seen deadline) h)
  | Answered _ => None
  end.

Definition hub_initial (now : Z) : Hub := MkHub ∅ 0 false now 0 ∅ [] [].

End dispatch.
