(* ===== verification/CpDispatchProps.v ===== *)
(** * The long poll: what it promises *)

From S2P Require Import Prelude Proto CpStore CpDispatch.
Import dispatch.

Definition key_of (q : QueuedDispatch) : string * RolloutId := (qd_hostname q, qd_rollout_id q).

(** The row the last upsert of a key left. *)
Definition latest (k : string * RolloutId) (l : list QueuedDispatch) : option QueuedDispatch :=
  last (filter (fun q => key_of q = k) l).

(** A host has a row waiting. *)
Definition waiting (host : string) (t : QueueTable) : Prop :=
  exists rollout q, t !! (host, rollout) = Some q.

Definition keyed (t : QueueTable) : Prop := forall k q, t !! k = Some q -> key_of q = k.

(** ** Taking a row *)

Section taking.
Context {O : HashOrder}.

Lemma elem_of_for_host host q t :
  q ∈ DispatchQueue.for_host host t <-> exists rollout, t !! (host, rollout) = Some q.
Proof.
  unfold DispatchQueue.for_host. rewrite list_elem_of_fmap. split.
  - intros ([[h r] q'] & -> & Hin). apply list_elem_of_filter in Hin as [Hh Hin].
    simpl in Hh. subst h. exists r. by apply elem_of_hash_iter in Hin.
  - intros (r & Hr). exists ((host, r), q). split; [done|]. apply list_elem_of_filter.
    split; [done|]. by apply elem_of_hash_iter.
Qed.

Lemma take_for_host_Some host t q t' :
  keyed t -> DispatchQueue.take_for_host host t = (Some q, t') ->
  qd_hostname q = host /\ t !! key_of q = Some q /\ t' = delete (key_of q) t.
Proof.
  intros Hk. unfold DispatchQueue.take_for_host.
  destruct (merge_sort _ _) as [|q' l] eqn:E; [done|]. intros [= -> <-].
  assert (Hin : q ∈ DispatchQueue.for_host host t).
  { rewrite <- (merge_sort_Permutation DispatchQueue.earlier). rewrite E. left. }
  apply elem_of_for_host in Hin as (r & Hr). pose proof (Hk _ _ Hr) as Hkey. unfold key_of in *.
  injection Hkey as <- <-. done.
Qed.

Lemma take_for_host_None host t t' :
  DispatchQueue.take_for_host host t = (None, t') -> ~ waiting host t.
Proof.
  unfold DispatchQueue.take_for_host. destruct (merge_sort _ _) as [|q l] eqn:E; [|done].
  intros _ (r & q & Hr). assert (Hin : q ∈ DispatchQueue.for_host host t)
    by (apply elem_of_for_host; by exists r).
  rewrite <- (merge_sort_Permutation DispatchQueue.earlier), E in Hin. by apply elem_of_nil in Hin.
Qed.

Lemma take_for_host_waiting host t :
  keyed t -> waiting host t -> exists q t', DispatchQueue.take_for_host host t = (Some q, t').
Proof.
  intros Hk Hw. destruct (DispatchQueue.take_for_host host t) as [[q|] t'] eqn:E; [by exists q, t'|].
  by apply take_for_host_None in E.
Qed.

End taking.

(** ** The queue and the answers *)

(** The rows that went out in answers. *)
Definition reply_of (p : Poll) : option DispatchResponse :=
  match poll_phase p with Answered (OK resp) => Some resp | _ => None end.

Definition replies (polls : gmap nat Poll) : list DispatchResponse :=
  omap reply_of (map_to_list polls).*2.

Definition response_of (q : QueuedDispatch) : DispatchResponse :=
  MkDispatchResponse (qd_hostname q) (qd_rollout_id q) (qd_target_closure q) (qd_soak_due_at q)
    (qd_enqueued_at q).

Record hub_ok (h : Hub) : Prop := {
  ok_keyed : keyed (hub_queue h);
  ok_queue : forall k q, hub_queue h !! k = Some q -> latest k (hub_enqueued h) = Some q;
  ok_latest : forall k q, latest k (hub_enqueued h) = Some q ->
    hub_queue h !! k = Some q \/ hub_queue h !! k = None /\ q ∈ hub_delivered h;
  ok_once : hub_delivered h ++ (map_to_list (hub_queue h)).*2 ⊆+ hub_enqueued h;
  ok_replies : replies (hub_polls h) ≡ₚ response_of <$> hub_delivered h;
  ok_hosts : forall id p resp, hub_polls h !! id = Some p -> reply_of p = Some resp ->
    hostname resp = poll_host p;
}.

Lemma replies_insert_quiet polls id p p' :
  polls !! id = Some p -> reply_of p = None -> reply_of p' = None ->
  replies (<[ id := p' ]> polls) ≡ₚ replies polls.
Proof.
  intros Hp Hr Hr'. unfold replies.
  rewrite <- (map_to_list_delete polls id p), <- insert_delete_eq by done.
  rewrite map_to_list_insert by apply lookup_delete_eq. simpl. by rewrite Hr, Hr'.
Qed.

Lemma replies_insert_new polls id p :
  polls !! id = None -> reply_of p = None -> replies (<[ id := p ]> polls) ≡ₚ replies polls.
Proof. intros Hp Hr. unfold replies. rewrite map_to_list_insert by done. simpl. by rewrite Hr. Qed.

Lemma replies_insert_answer polls id p p' resp :
  polls !! id = Some p -> reply_of p = None -> reply_of p' = Some resp ->
  replies (<[ id := p' ]> polls) ≡ₚ resp :: replies polls.
Proof.
  intros Hp Hr Hr'. unfold replies.
  rewrite <- (map_to_list_delete polls id p), <- insert_delete_eq by done.
  rewrite map_to_list_insert by apply lookup_delete_eq. simpl. by rewrite Hr, Hr'.
Qed.

Lemma latest_snoc k l q :
  latest k (l ++ [q]) = if decide (key_of q = k) then Some q else latest k l.
Proof.
  unfold latest. rewrite filter_app. case_decide as Hk.
  - rewrite filter_cons_True, filter_nil by done. apply last_snoc.
  - by rewrite filter_cons_False, filter_nil, app_nil_r.
Qed.

(** A move of a handler that takes nothing. *)
Lemma hub_ok_goto h id p phase :
  hub_polls h !! id = Some p -> reply_of p = None ->
  (forall resp, phase <> Answered (OK resp)) -> hub_ok h -> hub_ok (goto id p phase h).
Proof.
  intros Hp Hr Hphase [Hk Hq Hl Ho Hrep Hh].
  assert (Hr' : reply_of (MkPoll (poll_host p) (poll_wait p) phase) = None).
  { unfold reply_of. simpl. destruct phase as [| | | | |[]]; naive_solver. }
  split; simpl; [done..| |].
  - by rewrite (replies_insert_quiet _ _ p).
  - intros i p' resp [[<- <-]|[_ Hi]]%lookup_insert_Some; [congruence|by eapply Hh].
Qed.

Lemma hub_ok_take {O : HashOrder} fails h id p otherwise :
  hub_polls h !! id = Some p -> reply_of p = None ->
  (forall r, otherwise <> Answered r) -> hub_ok h -> hub_ok (take fails id p otherwise h).
Proof.
  intros Hp Hr Ho Hok. unfold take. destruct fails; [by apply hub_ok_goto|].
  destruct (DispatchQueue.take_for_host _ _) as [[q|] t] eqn:E; [|apply hub_ok_goto; naive_solver].
  destruct Hok as [Hk Hq Hl Hon Hrep Hh].
  apply take_for_host_Some in E as (Hhost & Hin & ->); [|done]. split; simpl.
  - intros k q' [_ Hk']%lookup_delete_Some. by apply Hk.
  - intros k q' [_ Hk']%lookup_delete_Some. by apply Hq.
  - intros k q' Hlk. destruct (decide (k = key_of q)) as [->|Hne].
    + right. rewrite lookup_delete_eq. apply Hq in Hin. rewrite Hin in Hlk. injection Hlk as <-.
      split; [done|]. apply elem_of_app. right. left.
    + rewrite lookup_delete_ne by done. destruct (Hl _ _ Hlk) as [?|[? ?]]; [by left|].
      right. split; [done|]. apply elem_of_app. by left.
  - transitivity (hub_delivered h ++ (map_to_list (hub_queue h)).*2); [|done].
    rewrite <- app_assoc. apply submseteq_app; [done|]. simpl.
    by rewrite <- (map_to_list_delete (hub_queue h) (key_of q) q).
  - rewrite (replies_insert_answer _ _ p _ (response_of q)) by done.
    rewrite Hrep, fmap_app, (Permutation_app_comm (response_of <$> hub_delivered h)). done.
  - intros i p' resp [[<- <-]|[_ Hi]]%lookup_insert_Some; [|by eapply Hh].
    intros [= <-]. done.
Qed.

Lemma hub_ok_step {O : HashOrder} h h' : hub_step h h' -> hub_ok h -> hub_ok h'.
Proof.
  intros Hs Hok. destruct Hs as [id p h' Hp Hs|id host wait Hid|q|n _|t _|].
  - destruct Hs as [fails Hph|Hph|seen dl Hph|seen dl Hph _|seen dl Hph _|seen dl Hph _ _|fails seen dl Hph];
      (apply hub_ok_take || apply hub_ok_goto); unfold reply_of; rewrite ?Hph; try done.
    destruct (Z.leb dl (hub_now h)); done.
  - destruct Hok as [Hk Hq Hl Ho Hrep Hh]. split; simpl; [done..| |].
    + by rewrite replies_insert_new.
    + intros i p' resp [[<- <-]|[_ Hi]]%lookup_insert_Some; [done|by eapply Hh].
  - destruct Hok as [Hk Hq Hl Ho Hrep Hh].
    unfold DispatchQueue.upsert. fold (key_of q). split; simpl.
    + intros k q' [[<- <-]|[_ Hi]]%lookup_insert_Some; [done|by apply Hk].
    + intros k q' [[<- <-]|[Hne Hi]]%lookup_insert_Some; rewrite latest_snoc.
      * by rewrite decide_True.
      * rewrite decide_False by done. by apply Hq.
    + intros k q'. rewrite latest_snoc. case_decide as Hkey.
      * intros [= <-]. subst k. left. apply lookup_insert_eq.
      * intros Hlk. rewrite lookup_insert_ne by done. by apply Hl.
    + destruct (hub_queue h !! key_of q) as [old|] eqn:E.
      * rewrite <- insert_delete_eq, map_to_list_insert by apply lookup_delete_eq. simpl.
        transitivity (q :: (hub_delivered h ++ (map_to_list (hub_queue h)).*2)).
        -- rewrite <- Permutation_middle. apply submseteq_skip, submseteq_app; [done|].
           rewrite <- (map_to_list_delete (hub_queue h) (key_of q) old) by done. simpl.
           by apply submseteq_cons.
        -- rewrite <- Permutation_cons_append. by apply submseteq_skip.
      * rewrite map_to_list_insert by done. simpl.
        rewrite <- Permutation_middle, <- Permutation_cons_append. by apply submseteq_skip.
    + done.
    + done.
  - unfold kick. destruct (existsb _ _); destruct Hok; by split.
  - destruct Hok; by split.
  - destruct Hok; by split.
Qed.

Lemma hub_ok_initial now : hub_ok (hub_initial now).
Proof. by split. Qed.

Lemma hub_ok_rtc {O : HashOrder} h h' : rtc hub_step h h' -> hub_ok h -> hub_ok h'.
Proof. induction 1; eauto using hub_ok_step. Qed.

(** ** Wakes *)

(** What a handler at its loop has seen of the watch channel. *)
Definition at_loop (p : Poll) : option nat :=
  match poll_phase p with Looping seen _ | Parked seen _ => Some seen | _ => None end.

Definition versions_ok (h : Hub) : Prop :=
  forall id p, hub_polls h !! id = Some p ->
    match poll_phase p with
    | Looping seen _ | Parked seen _ | Woken seen _ => seen <= hub_version h
    | _ => True
    end.

(** No row waits unnoticed for the handler [id]: a kick is owed, or there is a
    version it has not seen. *)
Definition alert (id : nat) (h : Hub) : Prop :=
  exists p, hub_polls h !! id = Some p /\
    match poll_phase p with
    | Looping seen _ | Parked seen _ =>
        waiting (poll_host p) (hub_queue h) -> 0 < hub_owed h \/ seen < hub_version h
    | Woken _ _ | Answered _ => True
    | Arrived | Unsubscribed => False
    end.

Section wakes.
Context {O : HashOrder}.

(** A move of one handler leaves the others and the rows of other hosts. *)
Lemma poll_step_frame id p h h' :
  hub_polls h !! id = Some p -> keyed (hub_queue h) -> poll_step id p h h' ->
  hub_version h' = hub_version h /\ hub_owed h' = hub_owed h /\ hub_enqueued h' = hub_enqueued h /\
  hub_queue h' ⊆ hub_queue h /\
  exists phase, hub_polls h' = <[ id := MkPoll (poll_host p) (poll_wait p) phase ]> (hub_polls h).
Proof.
  intros Hp Hk Hs.
  assert (Htake : forall fails otherwise,
    let h' := take fails id p otherwise h in
    hub_version h' = hub_version h /\ hub_owed h' = hub_owed h /\ hub_enqueued h' = hub_enqueued h /\
    hub_queue h' ⊆ hub_queue h /\
    exists phase, hub_polls h' = <[ id := MkPoll (poll_host p) (poll_wait p) phase ]> (hub_polls h)).
  { intros fails otherwise. unfold take. destruct fails; [split_and!; try done; by eexists|].
    destruct (DispatchQueue.take_for_host _ _) as [[q|] t] eqn:E; split_and!; try done; try by eexists.
    apply take_for_host_Some in E as (_ & _ & ->); [|done]. apply delete_subseteq. }
  destruct Hs; apply Htake || (split_and!; try done; by eexists).
Qed.

Lemma waiting_subseteq host t t' : t' ⊆ t -> waiting host t' -> waiting host t.
Proof. intros Hsub (r & q & Hr). exists r, q. by eapply lookup_weaken. Qed.

Lemma poll_step_phase id p h h' :
  keyed (hub_queue h) -> poll_step id p h h' ->
  match poll_phase p with
  | Looping seen dl => hub_polls h' !! id =
      Some (MkPoll (poll_host p) (poll_wait p)
        (if Z.leb dl (hub_now h) then Answered NO_CONTENT else Parked seen dl))
  | Parked seen dl => exists phase, hub_polls h' !! id = Some (MkPoll (poll_host p) (poll_wait p) phase) /\
      ((exists r, phase = Answered r) \/ phase = Woken (hub_version h) dl)
  | Woken seen dl => exists phase, hub_polls h' !! id = Some (MkPoll (poll_host p) (poll_wait p) phase) /\
      ((exists r, phase = Answered r) \/
       phase = Looping seen dl /\ ~ waiting (poll_host p) (hub_queue h'))
  | Arrived => exists phase, hub_polls h' !! id = Some (MkPoll (poll_host p) (poll_wait p) phase) /\
      ((exists r, phase = Answered r) \/ phase = Unsubscribed)
  | Unsubscribed => hub_polls h' !! id = Some (MkPoll (poll_host p) (poll_wait p)
      (Looping (hub_version h) (hub_now h + wait_window (poll_wait p))))
  | Answered _ => False
  end.
Proof.
  intros Hk Hs.
  assert (Htake : forall fails otherwise, let h' := take fails id p otherwise h in
    exists phase, hub_polls h' !! id = Some (MkPoll (poll_host p) (poll_wait p) phase) /\
      ((exists r, phase = Answered r) \/ phase = otherwise /\ ~ waiting (poll_host p) (hub_queue h'))).
  { intros fails otherwise. unfold take, goto.
    destruct fails; [eexists; simpl; rewrite lookup_insert_eq; split; [done|]; left; by eexists|].
    destruct (DispatchQueue.take_for_host _ _) as [[q|] t] eqn:E;
      (eexists; simpl; rewrite lookup_insert_eq; split; [done|]); [left; by eexists|].
    right. split; [done|]. by apply take_for_host_None in E. }
  destruct Hs as [fails Hph|Hph|seen dl Hph|seen dl Hph _|seen dl Hph _|seen dl Hph _ _|fails seen dl Hph];
    rewrite Hph.
  - destruct (Htake fails Unsubscribed) as (ph & Hl & [?|[-> _]]); eauto 6.
  - simpl. by rewrite lookup_insert_eq.
  - simpl. by rewrite lookup_insert_eq.
  - simpl. rewrite lookup_insert_eq. eauto 6.
  - simpl. rewrite lookup_insert_eq. eauto 6.
  - simpl. rewrite lookup_insert_eq. eauto 6.
  - apply Htake.
Qed.

Lemma versions_ok_step h h' :
  keyed (hub_queue h) -> hub_step h h' -> versions_ok h -> versions_ok h'.
Proof.
  intros Hk Hs Hv. destruct Hs as [id p h' Hp Hs|id host wait Hid|q|n _|t _|].
  - destruct (poll_step_frame _ _ _ _ Hp Hk Hs) as (Hver & _ & _ & _ & phase & Hpolls).
    pose proof (poll_step_phase _ _ _ _ Hk Hs) as Hph. pose proof (Hv _ _ Hp) as Hvp.
    intros i p' Hp'. rewrite Hver. destruct (decide (i = id)) as [->|Hne].
    + destruct (poll_phase p) eqn:E; try done.
      * destruct Hph as (ph & Hl & [[r ->]| ->]); rewrite Hp' in Hl; by injection Hl as ->.
      * rewrite Hp' in Hph. injection Hph as ->. simpl. lia.
      * rewrite Hp' in Hph. injection Hph as ->. simpl. by destruct (Z.leb _ _).
      * destruct Hph as (ph & Hl & [[r ->]| ->]); rewrite Hp' in Hl; injection Hl as ->; simpl; [done|lia].
      * destruct Hph as (ph & Hl & [[r ->]|[-> _]]); rewrite Hp' in Hl; by injection Hl as ->.
    + rewrite Hpolls, lookup_insert_ne in Hp' by done. by apply (Hv i).
  - intros i p' Hi. simpl in Hi.
    apply lookup_insert_Some in Hi as [[<- <-]|[_ Hi]]; [done|by apply (Hv i)].
  - exact Hv.
  - intros i p' Hi. unfold kick in *. destruct (existsb _ _); simpl in *; specialize (Hv i p' Hi);
      [destruct (poll_phase p'); lia || done|done].
  - exact Hv.
  - exact Hv.
Qed.

Lemma alert_enqueue id h q p seen :
  hub_polls h !! id = Some p -> at_loop p = Some seen ->
  alert id (h <| hub_queue := DispatchQueue.upsert q (hub_queue h) |>
              <| hub_owed := S (hub_owed h) |> <| hub_enqueued := hub_enqueued h ++ [q] |>).
Proof.
  intros Hp Hl. exists p. split; [done|]. unfold at_loop in Hl. destruct (poll_phase p); try done;
    intros _; left; simpl; lia.
Qed.

Lemma kick_alert id h :
  alert id h -> versions_ok h -> forall n, hub_owed h = S n -> alert id (kick (h <| hub_owed := n |>)).
Proof.
  intros (p & Hp & Ha) Hv n Hn. specialize (Hv _ _ Hp).
  assert (Hsub : subscribed (poll_phase p) = true ->
    existsb (fun e : nat * Poll => subscribed (poll_phase e.2)) (map_to_list (hub_polls h)) = true).
  { intros Hs. apply existsb_exists. exists (id, p). split; [|done].
    apply list_elem_of_In. by apply elem_of_map_to_list. }
  exists p. unfold kick. simpl. destruct (existsb _ _) eqn:E; (split; [done|]); simpl;
    destruct (poll_phase p) eqn:Ep; try done; try (intros _; right; lia);
    specialize (Hsub eq_refl); congruence.
Qed.

Lemma alert_step id h h' :
  keyed (hub_queue h) -> versions_ok h -> hub_step h h' -> alert id h -> alert id h'.
Proof.
  intros Hk Hv Hs Ha. destruct Hs as [id' p' h' Hp' Hs|id' host wait Hid|q|n Hn|t _|].
  - destruct (poll_step_frame _ _ _ _ Hp' Hk Hs) as (Hver & How & _ & Hsub & phase & Hpolls).
    destruct Ha as (p & Hp & Ha). destruct (decide (id = id')) as [<-|Hne].
    + rewrite Hp in Hp'. injection Hp' as <-. pose proof (poll_step_phase _ _ _ _ Hk Hs) as Hph.
      destruct (poll_phase p) eqn:E; try done.
      * eexists. split; [exact Hph|]. simpl. destruct (Z.leb _ _); [done|].
        rewrite Hver, How. intros Hw. apply Ha. by eapply waiting_subseteq.
      * destruct Hph as (ph & Hl & [[r ->]| ->]); eexists; (split; [exact Hl|done]).
      * destruct Hph as (ph & Hl & [[r ->]|[-> Hno]]); eexists; (split; [exact Hl|]); simpl; [done|].
        intros Hw. by destruct Hno.
    + exists p. rewrite Hpolls, lookup_insert_ne, Hver, How by done. split; [done|].
      destruct (poll_phase p); try done; intros Hw; apply Ha; by eapply waiting_subseteq.
  - destruct Ha as (p & Hp & Ha). exists p. simpl.
    rewrite lookup_insert_ne; [done|]. intros ->. congruence.
  - destruct Ha as (p & Hp & Ha). destruct (at_loop p) as [seen|] eqn:E; [by eapply alert_enqueue|].
    exists p. split; [done|]. unfold at_loop in E. by destruct (poll_phase p).
  - by apply kick_alert.
  - exact Ha.
  - exact Ha.
Qed.

Lemma alert_steps id h h' :
  hub_ok h -> versions_ok h -> rtc hub_step h h' -> alert id h -> alert id h' /\ hub_ok h'.
Proof.
  intros Hok Hv Hs. induction Hs as [|h0 h1 h2 H01 _ IH]; [done|]. intros Ha.
  pose proof (ok_keyed _ Hok) as Hk. apply IH.
  - by eapply hub_ok_step.
  - by eapply versions_ok_step.
  - by eapply alert_step.
Qed.

Lemma versions_ok_rtc h h' : rtc hub_step h h' -> hub_ok h -> versions_ok h -> versions_ok h'.
Proof.
  induction 1 as [|h0 h1 h2 H01 _ IH]; intros Hok Hv; [done|]. pose proof (ok_keyed _ Hok).
  apply IH; [by eapply hub_ok_step|by eapply versions_ok_step].
Qed.

Lemma versions_ok_initial now : versions_ok (hub_initial now).
Proof. done. Qed.

End wakes.

Lemma enqueue_step_alerts {O : HashOrder} h1 h2 id p q seen :
  hub_ok h1 -> hub_step h1 h2 -> hub_enqueued h2 = hub_enqueued h1 ++ [q] ->
  hub_polls h1 !! id = Some p -> at_loop p = Some seen -> alert id h2.
Proof.
  intros Hok Hs Henq Hp Hl.
  assert (Hlen : length (hub_enqueued h2) = S (length (hub_enqueued h1)))
    by (rewrite Henq, length_app; simpl; lia).
  destruct Hs as [id' p' h2 Hp' Hs|? ? ? ?|q'|n Hn|t Ht|]; simpl in Hlen; try lia.
  - destruct (poll_step_frame _ _ _ _ Hp' (ok_keyed _ Hok) Hs) as (_ & _ & He & _). rewrite He in Hlen. lia.
  - by eapply alert_enqueue.
  - unfold kick in Hlen. destruct (existsb _ _); simpl in Hlen; lia.
Qed.

Lemma parked_poll_takes {O : HashOrder} h id p seen deadline :
  hub_ok h -> hub_polls h !! id = Some p -> poll_phase p = Parked seen deadline ->
  seen < hub_version h -> waiting (poll_host p) (hub_queue h) ->
  exists h4 h5 p5 resp, hub_step h h4 /\ hub_step h4 h5 /\
    hub_polls h5 !! id = Some p5 /\ poll_phase p5 = Answered (OK resp) /\
    hostname resp = poll_host p.
Proof.
  intros Hok Hp Hph Hlt Hw.
  destruct (take_for_host_waiting _ _ (ok_keyed _ Hok) Hw) as (row & t & Ht).
  destruct (take_for_host_Some _ _ _ _ (ok_keyed _ Hok) Ht) as (Hhost & _ & _).
  set (h4 := goto id p (Woken (hub_version h) deadline) h).
  set (p4 := MkPoll (poll_host p) (poll_wait p) (Woken (hub_version h) deadline)).
  exists h4, (take false id p4 (Looping (hub_version h) deadline) h4),
    (MkPoll (poll_host p) (poll_wait p) (Answered (deliver row))), (response_of row).
  split_and!; [| | |reflexivity|exact Hhost].
  - eapply step_poll; [exact Hp|]. eapply changed; [exact Hph|lia].
  - eapply (step_poll h4 id p4); [apply lookup_insert_eq|]. by eapply retake.
  - unfold take. simpl. rewrite Ht. simpl. apply lookup_insert_eq.
Qed.

(** ** Properties *)

(** C24.  Each queued dispatch goes out once.  However any number of long polls
    interleave with the applier, the answers that have gone out and the rows
    that are still queued are, together, among the rows that were queued, each
    counted once: no row answers two polls, and none is both answered and kept.
    Every answer goes to a poll of the machine the row is for, and the last row
    queued for a machine and rollout is never lost: it is still queued or has
    gone out. *)
Theorem each_dispatch_delivered_once {O : HashOrder} (now : Z) (h : Hub) :
  rtc hub_step (hub_initial now) h ->
  replies (hub_polls h) ++ (response_of <$> (map_to_list (hub_queue h)).*2) ⊆+
    response_of <$> hub_enqueued h /\
  (forall id p resp, hub_polls h !! id = Some p -> poll_phase p = Answered (OK resp) ->
     hostname resp = poll_host p) /\
  (forall k q, latest k (hub_enqueued h) = Some q ->
     hub_queue h !! k = Some q \/ response_of q ∈ replies (hub_polls h)).
Proof.
  intros Hs. destruct (hub_ok_rtc _ _ Hs (hub_ok_initial now)) as [_ _ Hl Ho Hrep Hh]. split_and!.
  - rewrite Hrep, <- fmap_app. by apply fmap_submseteq.
  - intros id p resp Hp Hph. eapply Hh; [done|]. unfold reply_of. by rewrite Hph.
  - intros k q Hk. destruct (Hl _ _ Hk) as [?|[_ Hin]]; [by left|]. right. rewrite Hrep.
    by apply list_elem_of_fmap_2.
Qed.

(** A parked poll is woken.  Once a poll has subscribed, any row that is
    queued later reaches it or another poll of the same machine: in every later
    state in which the applier has sent the kicks it owes, if the poll is still
    parked while a row for its machine waits, it has a step, and after the take
    that follows, when that statement succeeds, it has answered with a row of
    its machine. *)
Theorem parked_poll_is_woken {O : HashOrder} (now : Z) (h1 h2 h3 : Hub) (id : nat) (p1 p3 : Poll)
    (q : QueuedDispatch) (seen : nat) (deadline : Z) :
  rtc hub_step (hub_initial now) h1 ->
  hub_polls h1 !! id = Some p1 -> is_Some (at_loop p1) ->
  hub_step h1 h2 -> hub_enqueued h2 = hub_enqueued h1 ++ [q] ->
  rtc hub_step h2 h3 -> hub_owed h3 = 0 ->
  hub_polls h3 !! id = Some p3 -> poll_phase p3 = Parked seen deadline ->
  waiting (poll_host p3) (hub_queue h3) ->
  exists h4 h5 p5 resp, hub_step h3 h4 /\ hub_step h4 h5 /\
    hub_polls h5 !! id = Some p5 /\ poll_phase p5 = Answered (OK resp) /\
    hostname resp = poll_host p3.
Proof.
  intros Hs1 Hp1 [s1 Hl1] Hs2 Henq Hs3 Howed Hp3 Hph3 Hw.
  pose proof (hub_ok_rtc _ _ Hs1 (hub_ok_initial now)) as Hok1.
  pose proof (versions_ok_rtc _ _ Hs1 (hub_ok_initial now) (versions_ok_initial now)) as Hv1.
  pose proof (enqueue_step_alerts _ _ _ _ _ _ Hok1 Hs2 Henq Hp1 Hl1) as Ha2.
  destruct (alert_steps _ _ _ (hub_ok_step _ _ Hs2 Hok1)
    (versions_ok_step _ _ (ok_keyed _ Hok1) Hs2 Hv1) Hs3 Ha2) as [(p & Hp & Ha) Hok3].
  rewrite Hp3 in Hp. injection Hp as <-. rewrite Hph3 in Ha. destruct (Ha Hw) as [?|Hlt]; [lia|].
  by eapply parked_poll_takes.
Qed.

(** ** The window between the look and the subscription *)

(** Nothing is queued. *)
Definition quiet_step {O : HashOrder} (h h' : Hub) : Prop :=
  hub_step h h' /\ hub_enqueued h' = hub_enqueued h.

(** A poll that has seen the last version, with no kick owed. *)
Definition asleep (id : nat) (host : string) (deadline : Z) (h : Hub) : Prop :=
  hub_owed h = 0 /\ exists p, hub_polls h !! id = Some p /\ poll_host p = host /\
    match poll_phase p with
    | Looping seen d | Parked seen d => seen = hub_version h /\ d = deadline
    | Answered NO_CONTENT => (deadline <= hub_now h)%Z
    | Answered SERVICE_UNAVAILABLE => hub_closed h = true
    | _ => False
    end.

Lemma asleep_step {O : HashOrder} id host deadline h h' :
  hub_ok h -> quiet_step h h' -> asleep id host deadline h -> asleep id host deadline h'.
Proof.
  intros Hok [Hs Henq] (How & p & Hp & Hhost & Hph). pose proof (ok_keyed _ Hok) as Hk.
  destruct Hs as [id' p' h' Hp' Hs|id' host' wait Hid|q|n Hn|t Ht|].
  - destruct (decide (id = id')) as [<-|Hne].
    + rewrite Hp in Hp'. injection Hp' as <-.
      destruct Hs as [fails E|E|seen dl E|seen dl E Hdl|seen dl E Hne|seen dl E _ Hcl|fails seen dl E];
        rewrite E in Hph; try done.
      * split; [done|]. eexists. split; [apply lookup_insert_eq|]. split; [done|]. simpl.
        destruct Hph as [-> ->]. by destruct (Z.leb_spec deadline (hub_now h)).
      * split; [done|]. eexists. split; [apply lookup_insert_eq|]. split; [done|]. simpl.
        by destruct Hph as [_ <-].
      * by destruct Hph.
      * split; [done|]. eexists. split; [apply lookup_insert_eq|]. by split.
    + pose proof (poll_step_frame _ _ _ _ Hp' Hk Hs) as (Hver & How' & _ & _ & phase & Hpolls).
      assert (hub_now h' = hub_now h /\ hub_closed h' = hub_closed h) as [Hnow Hclosed].
      { destruct Hs; try done; unfold take; destruct fails; try done;
          by destruct (DispatchQueue.take_for_host _ _) as [[]]. }
      split; [congruence|]. exists p.
      rewrite Hpolls, lookup_insert_ne, Hver, Hnow, Hclosed by done. by split_and!.
  - split; [done|]. exists p. simpl. rewrite lookup_insert_ne by congruence. by split_and!.
  - simpl in Henq. apply (f_equal length) in Henq. rewrite length_app in Henq. simpl in Henq. lia.
  - congruence.
  - split; [done|]. exists p. split; [done|]. split; [done|]. simpl.
    destruct (poll_phase p) as [| | | | |[]]; try done. lia.
  - split; [done|]. exists p. split; [done|]. split; [done|]. simpl.
    by destruct (poll_phase p) as [| | | | |[]].
Qed.

(** A row queued between the look and the subscription is not noticed.  The
    handler looks for a row before it subscribes to the kicks, and a receiver
    starts out having seen the last one: when a row for its machine is queued
    and its kick sent in between, the poll does not answer with it.  As long as
    nothing else is queued, however the others move, it stays in its loop until
    its whole window has passed and then says that there is no content, although
    the row is there; only the next poll gets it. *)
Theorem row_before_subscription_waits {O : HashOrder} (now : Z) (h h' : Hub) (id : nat) (p p' : Poll) :
  rtc hub_step (hub_initial now) h ->
  hub_polls h !! id = Some p -> poll_phase p = Unsubscribed ->
  waiting (poll_host p) (hub_queue h) -> hub_owed h = 0 ->
  let deadline := (hub_now h + wait_window (poll_wait p))%Z in
  let subscribed := goto id p (Looping (hub_version h) deadline) h in
  hub_step h subscribed /\ waiting (poll_host p) (hub_queue subscribed) /\
  (rtc quiet_step subscribed h' -> hub_polls h' !! id = Some p' ->
   match poll_phase p' with
   | Looping _ _ | Parked _ _ => True
   | Answered NO_CONTENT => (deadline <= hub_now h')%Z
   | Answered SERVICE_UNAVAILABLE => hub_closed h' = true
   | _ => False
   end).
Proof.
  intros Hs Hp Hph Hw How deadline subscribed.
  pose proof (hub_ok_rtc _ _ Hs (hub_ok_initial now)) as Hok.
  assert (Hstep : hub_step h subscribed) by (eapply step_poll; [exact Hp|by apply subscribe]).
  split; [exact Hstep|]. split; [exact Hw|]. intros Hq Hp'.
  assert (Ha : asleep id (poll_host p) deadline subscribed).
  { split; [done|]. eexists. split; [apply lookup_insert_eq|]. by split_and!. }
  assert (asleep id (poll_host p) deadline h') as (_ & p'' & Hp'' & _ & Hph').
  { apply (hub_ok_step _ _ Hstep) in Hok. clear -Hq Ha Hok.
    induction Hq as [|h0 h1 h2 H01 _ IH]; [done|]. apply IH; [|by eapply asleep_step].
    destruct H01. by eapply hub_ok_step. }
  rewrite Hp' in Hp''. injection Hp'' as <-. by destruct (poll_phase p') as [| | | | |[]].
Qed.

(** ** An example *)

Lemma poll_next_step {O : HashOrder} id h h' : poll_next id h = Some h' -> hub_step h h'.
Proof.
  unfold poll_next. destruct (hub_polls h !! id) as [p|] eqn:Hp; [|done]. simpl.
  assert (Hgo : forall h', poll_step id p h h' -> hub_step h h') by (intros; by eapply step_poll).
  destruct (poll_phase p) as [| |seen dl|seen dl|seen dl|r] eqn:E; try done.
  - intros [= <-]. by apply Hgo, (fast_path id p h false).
  - intros [= <-]. by apply Hgo, subscribe.
  - intros [= <-]. by apply Hgo, loop_head.
  - case_bool as [Hs|Hs]; simpl; [|intros [= <-]; by eapply Hgo, changed].
    destruct (Z.leb_spec dl (hub_now h)); [intros [= <-]; by eapply Hgo, expired|].
    destruct (hub_closed h) eqn:Hc; [|done]. intros [= <-]. by eapply Hgo, sender_dropped.
  - intros [= <-]. by eapply Hgo, (retake id p h false).
Qed.

Definition web_row : QueuedDispatch :=
  MkQueuedDispatch "web-1" (rollout_id.new "stable" "abc") "new" 0 0.

(** Requests, rows, kicks and moves, in this order. *)
Inductive Move := Request (id : nat) (host : string) | Row (q : QueuedDispatch) | Kick | Moves (id : nat).

Definition play_one {O : HashOrder} (m : Move) (h : Hub) : option Hub :=
  match m with
  | Request id host =>
      match hub_polls h !! id with
      | None => Some (h <| hub_polls := <[ id := MkPoll host None Arrived ]> (hub_polls h) |>)
      | Some _ => None
      end
  | Row q => Some (h <| hub_queue := DispatchQueue.upsert q (hub_queue h) |>
                     <| hub_owed := S (hub_owed h) |>
                     <| hub_enqueued := hub_enqueued h ++ [q] |>)
  | Kick => match hub_owed h with S n => Some (kick (h <| hub_owed := n |>)) | 0 => None end
  | Moves id => poll_next id h
  end.

Fixpoint play {O : HashOrder} (moves : list Move) (h : Hub) : option Hub :=
  match moves with [] => Some h | m :: moves => h ← play_one m h; play moves h end.

Lemma play_one_step {O : HashOrder} m h h' : play_one m h = Some h' -> hub_step h h'.
Proof.
  destruct m as [id host|q| |id]; simpl.
  - destruct (hub_polls h !! id) eqn:E; [done|]. intros [= <-]. by apply step_request.
  - intros [= <-]. apply step_enqueue.
  - destruct (hub_owed h) as [|n] eqn:E; [done|]. intros [= <-]. by apply step_kick.
  - apply poll_next_step.
Qed.

Lemma play_steps {O : HashOrder} moves h h' : play moves h = Some h' -> rtc hub_step h h'.
Proof.
  revert h. induction moves as [|m moves IH]; intros h; simpl; [intros [= <-]; apply rtc_refl|].
  destruct (play_one m h) as [h1|] eqn:E; [|done]. intros Hp. eapply rtc_l; [by eapply play_one_step|].
  by apply IH.
Qed.

Abbreviation play_web := (play (O := list_order)).
Abbreviation hub_after := (fun moves => default (hub_initial 0) (play_web moves (hub_initial 0))).

(** Two polls of one machine park, and a row comes. *)
Definition two_parked : list Move :=
  [Request 0 "web-1"; Request 1 "web-1"; Moves 0; Moves 1; Moves 0; Moves 1; Moves 0; Moves 1].

Lemma each_dispatch_delivered_once_witness :
  let h := hub_after (two_parked ++ [Row web_row; Kick; Moves 1; Moves 0; Moves 0; Moves 1]) in
  replies (hub_polls h) = [response_of web_row] /\
  replies (hub_polls h) ++ (response_of <$> (map_to_list (hub_queue h)).*2) ⊆+
    response_of <$> hub_enqueued h.
Proof.
  intros h. split; [vm_compute; reflexivity|].
  apply (each_dispatch_delivered_once (O := list_order) 0 h),
    (play_steps (O := list_order) (two_parked ++ [Row web_row; Kick; Moves 1; Moves 0; Moves 0; Moves 1])).
  vm_compute. reflexivity.
Defined.

Lemma parked_poll_is_woken_witness :
  exists h5 p5 resp, hub_polls h5 !! 0 = Some p5 /\ poll_phase p5 = Answered (OK resp) /\
    hostname resp = "web-1".
Proof.
  destruct (parked_poll_is_woken (O := list_order) 0 (hub_after two_parked)
    (hub_after (two_parked ++ [Row web_row])) (hub_after (two_parked ++ [Row web_row; Kick])) 0
    (MkPoll "web-1" None (Parked 0 (duration_minutes 1))) (MkPoll "web-1" None (Parked 0 (duration_minutes 1)))
    web_row 0 (duration_minutes 1)) as (h4 & h5 & p5 & resp & _ & _ & Hp & Hph & Hh).
  - apply (play_steps (O := list_order) two_parked). vm_compute. reflexivity.
  - vm_compute. reflexivity.
  - by exists 0.
  - apply (play_one_step (O := list_order) (Row web_row)). vm_compute. reflexivity.
  - vm_compute. reflexivity.
  - apply (play_steps (O := list_order) [Kick]). vm_compute. reflexivity.
  - vm_compute. reflexivity.
  - vm_compute. reflexivity.
  - reflexivity.
  - exists (rollout_id.new "stable" "abc"), web_row. vm_compute. reflexivity.
  - by exists h5, p5, resp.
Defined.

(** The row comes between the look and the subscription. *)
Lemma row_before_subscription_waits_witness :
  waiting "web-1" (hub_queue (hub_after [Request 0 "web-1"; Moves 0; Row web_row; Kick; Moves 0; Moves 0])) /\
  forall h', rtc (quiet_step (O := list_order))
    (hub_after [Request 0 "web-1"; Moves 0; Row web_row; Kick; Moves 0]) h' ->
  forall resp p', hub_polls h' !! 0 = Some p' -> poll_phase p' <> Answered (OK resp).
Proof.
  split; [exists (rollout_id.new "stable" "abc"), web_row; vm_compute; reflexivity|].
  intros h' Hq resp p' Hp' Hph'.
  destruct (row_before_subscription_waits (O := list_order) 0
    (hub_after [Request 0 "web-1"; Moves 0; Row web_row; Kick]) h' 0 (MkPoll "web-1" None Unsubscribed) p')
    as (_ & _ & H).
  - apply (play_steps (O := list_order) [Request 0 "web-1"; Moves 0; Row web_row; Kick]).
    vm_compute. reflexivity.
  - vm_compute. reflexivity.
  - reflexivity.
  - exists (rollout_id.new "stable" "abc"), web_row. vm_compute. reflexivity.
  - vm_compute. reflexivity.
  - specialize (H Hq Hp'). by rewrite Hph' in H.
Defined.
