(* ===== verification/CpServe.v ===== *)
(** * The routes that read and the router

    Models, of [crates/nixfleet-control-plane/src/server/]: the layers and the
    route table of [mod.rs] ([build_router]), and the handlers of
    [routes/{heartbeat,rollouts,fleet,status,deferrals}.rs].  The bodies are the
    values that are serialised; a time they print is the instant.  A statement
    that fails is an argument of the handler that executes it. *)

From S2P Require Import Prelude RustStd Proto HostTypes RolloutMachine Gates CpStore CpRuntime.
From S2P Require Import Verify HostKey Issuance Enrollment CpRoutes.

Definition FORBIDDEN : Status := 403.
Definition NOT_FOUND : Status := 404.
Definition BAD_GATEWAY : Status := 502.
Definition NOT_IMPLEMENTED : Status := 501.

(** A statement: its rows, unless it [fails]. *)
Definition query {A} (fails : bool) (rows : A) : result A Status :=
  if fails then Err INTERNAL_SERVER_ERROR else Ok rows.

Definition database (db : option Db) : result Db Status :=
  match db with Some d => Ok d | None => Err UNAVAILABLE end.

(** ** [routes/rollouts.rs] *)

Module rollouts.

Definition looks_like_rollout_id (s : string) : bool :=
  match split_once "@" s with
  | None => false
  | Some (channel, channel_ref) =>
      if bool_decide (channel = "") || bool_decide (channel_ref = "") then false
      else if contains "@" channel_ref then false
      else if negb (all_chars (fun c => is_ascii_lowercase c || is_ascii_digit c ||
                                 bool_decide (c = "_"%char) || bool_decide (c = "-"%char)) channel)
      then false
      else all_chars (fun c => is_ascii_hexdigit c && negb (is_ascii_uppercase c)) channel_ref
  end.

(** How reading a file of the directory ends. *)
Inductive FileRead := FileBytes (bytes : string) | FileNotFound | FileError.

Definition manifest_paths (rollout_id : string) : string * string :=
  (rollout_id +:+ ".json", rollout_id +:+ ".json.sig").

Definition try_load_from_dir (dir : string -> FileRead) (rollout_id : string)
    : result (option (string * string)) Status :=
  let '(manifest_path, sig_path) := manifest_paths rollout_id in
  match dir manifest_path with
  | FileNotFound => Ok None
  | FileError => Err INTERNAL_SERVER_ERROR
  | FileBytes manifest_bytes =>
      match dir sig_path with
      | FileNotFound | FileError => Err INTERNAL_SERVER_ERROR
      | FileBytes sig_bytes => Ok (Some (manifest_bytes, sig_bytes))
      end
  end.

(** The directory and the upstream source, where configured. *)
Definition load_pair (rollouts_dir : option (string -> FileRead))
    (rollouts_source : option (string -> result (string * string) string)) (rollout_id : string)
    : result (string * string) Status :=
  match rollouts_dir, rollouts_source with
  | None, None => Err UNAVAILABLE
  | _, _ =>
      if negb (looks_like_rollout_id rollout_id) then Err NOT_FOUND
      else
        let? local :=
          match rollouts_dir with
          | Some dir => try_load_from_dir dir rollout_id
          | None => Ok None
          end in
        match local with
        | Some found => Ok found
        | None =>
            match rollouts_source with
            | Some fetch_pair =>
                match fetch_pair rollout_id with
                | Ok found => Ok found
                | Err _ => Err BAD_GATEWAY
                end
            | None => Err NOT_FOUND
            end
        end
  end.

Definition manifest rollouts_dir rollouts_source rollout_id : result string Status :=
  let? (manifest_bytes, _) := load_pair rollouts_dir rollouts_source rollout_id in Ok manifest_bytes.

Definition signature rollouts_dir rollouts_source rollout_id : result string Status :=
  let? (_, sig_bytes) := load_pair rollouts_dir rollouts_source rollout_id in Ok sig_bytes.

Record Summary := MkSummary {
  su_rollout_id : string;
  su_channel : string;
  su_current_wave : u32;
  su_created_at : DateTime;
  su_host_states : gmap string string;
}.

Record Lifecycle := MkLifecycle {
  lc_rollout_id : string;
  lc_state : string;
  lc_superseded_at : option DateTime;
  lc_terminal_at : option DateTime;
}.

Record RolloutHostEntry := MkRolloutHostEntry {
  rhe_host : string;
  rhe_channel : string;
  rhe_wave : u32;
  rhe_target_closure_hash : string;
  rhe_target_channel_ref : string;
  rhe_dispatched_at : DateTime;
  rhe_terminal_state : option string;
  rhe_terminal_at : option DateTime;
}.

Record RolloutHosts := MkRolloutHosts {
  rh_rollout_id : RolloutId;
  rh_hosts : list RolloutHostEntry;
}.

(** A row of the log with the number the table gave it: rows are only appended. *)
Record EventLogRow := MkEventLogRow {
  elr_seq : i64;
  elr_entry : EventLogEntry;
}.

Definition event_rows (log : list EventLogEntry) : list EventLogRow :=
  imap (fun i e => MkEventLogRow (Z.of_nat i + 1) e) log.

(** [LIMIT]: a negative one is none. *)
Definition sql_limit {A} (limit : i64) (l : list A) : list A :=
  if Z.ltb limit 0 then l else take (Z.to_nat limit) l.

Definition query_by_rollout (rollout_id : string) (limit : i64) (log : list EventLogEntry)
    : list EventLogRow :=
  sql_limit limit
    (filter (fun r => rid_raw <$> le_rollout_id (elr_entry r) = Some rollout_id) (event_rows log)).

Definition query_by_kind (kind : string) (limit : i64) (log : list EventLogEntry)
    : list EventLogRow :=
  sql_limit limit
    (filter (fun r => EventLogKind.as_db_str (le_kind (elr_entry r)) = kind) (event_rows log)).

Record RolloutEventEntry := MkRolloutEventEntry {
  ree_seq : i64;
  ree_ts : DateTime;
  ree_kind : string;
  ree_host : option string;
  ree_payload : LogPayload.t;
}.

Record RolloutEvents := MkRolloutEvents {
  rv_rollout_id : RolloutId;
  rv_events : list RolloutEventEntry;
}.

(** [format!("{:?}", row.state)]. *)
Definition debug_state (s : HostState) : string :=
  match s with
  | HostState.Pending => "Pending"
  | HostState.Activating => "Activating"
  | HostState.Deferred => "Deferred"
  | HostState.Soaking => "Soaking"
  | HostState.Converged => "Converged"
  | HostState.Failed => "Failed"
  | HostState.Reverted => "Reverted"
  end.

(** A query of host records that fails gives a rollout without hosts. *)
Definition list_active {O : HashOrder} (db : option Db) (list_fails : bool) (records_fail : RolloutId -> bool)
    : result (list Summary) Status :=
  let? d := database db in
  let? rollouts_meta := query list_fails (Rollouts.list_in_flight (db_rollouts d)) in
  Ok ((fun r =>
         let records :=
           if records_fail (Rollouts.ar_rollout_id r) then []
           else HostRolloutRecords.all_for_rollout (Rollouts.ar_rollout_id r) (db_records d) in
         let host_states :=
           fold_left (fun m row => <[ hs_hostname row := debug_state (hs_state row) ]> m) records ∅ in
         MkSummary (rid_raw (Rollouts.ar_rollout_id r)) (Rollouts.ar_channel r)
           (Rollouts.ar_current_wave r) (Rollouts.ar_created_at r) host_states)
      <$> rollouts_meta).

Definition lifecycle (db : option Db) (fails : bool) (rollout_id : string) : result Lifecycle Status :=
  if negb (looks_like_rollout_id rollout_id) then Err BAD_REQUEST
  else
    let? d := database db in
    let? row := query fails (Rollouts.state (MkRolloutId rollout_id) (db_rollouts d)) in
    match row with
    | None => Err NOT_FOUND
    | Some row =>
        Ok (MkLifecycle rollout_id (RolloutState.as_db_str (row_state row)) (row_superseded_at row)
              (row_terminal_at row))
    end.

Definition derive_terminal (r : HostRolloutState) : option string * option DateTime :=
  match hs_state r with
  | HostState.Converged => (Some "converged", hs_converged_at r)
  | HostState.Reverted => (Some "rolled-back", hs_reverted_at r)
  | HostState.Failed => (Some "failed", hs_failed_at r)
  | HostState.Pending | HostState.Activating | HostState.Deferred | HostState.Soaking => (None, None)
  end.

(** [sort_by] wave, then name. *)
Definition entry_le (a b : RolloutHostEntry) : Prop :=
  (rhe_wave a < rhe_wave b)%Z \/
  rhe_wave a = rhe_wave b /\ (rhe_host a ≤ rhe_host b)%string.
#[global] Instance entry_le_dec : RelDecision entry_le.
Proof. intros a b. unfold entry_le. apply _. Defined.

(** The rollout identifier of the path, which has one separator. *)
Definition parsed_id (rollout_id : string) : RolloutId :=
  match split_once "@" rollout_id with
  | Some (channel, channel_ref) => rollout_id.new channel channel_ref
  | None => MkRolloutId rollout_id
  end.

(** Either outcome of the query of the rollout gives an empty map of waves. *)
Definition wave_by_host (row : option RolloutRow) : gmap string u32 :=
  match row with Some _ => ∅ | None => ∅ end.

Definition hosts {O : HashOrder} (db : option Db) (fails : bool) (rollout_id : string)
    : result RolloutHosts Status :=
  if negb (looks_like_rollout_id rollout_id) then Err BAD_REQUEST
  else
    let? d := database db in
    let? records :=
      query fails (HostRolloutRecords.all_for_rollout (MkRolloutId rollout_id) (db_records d)) in
    if is_empty records then Err NOT_FOUND
    else
      let waves := wave_by_host (Rollouts.state (MkRolloutId rollout_id) (db_rollouts d)) in
      let entry r :=
        let '(terminal_state, terminal_at) := derive_terminal r in
        MkRolloutHostEntry (hs_hostname r) (hs_channel r) (default 0%Z (waves !! hs_hostname r))
          (hs_target_closure r) (rid_raw (hs_rollout_id r)) (hs_dispatched_at r) terminal_state
          terminal_at in
      Ok (MkRolloutHosts (parsed_id rollout_id) (merge_sort entry_le (entry <$> records))).

Definition events (db : option Db) (fails : bool) (limit : option i64) (rollout_id : string)
    : result RolloutEvents Status :=
  if negb (looks_like_rollout_id rollout_id) then Err BAD_REQUEST
  else
    let? d := database db in
    let limit := Z.max (default 1000%Z limit) 1 in
    let? rows := query fails (query_by_rollout rollout_id limit (db_event_log d)) in
    Ok (MkRolloutEvents (parsed_id rollout_id)
      ((fun row =>
          let e := elr_entry row in
          MkRolloutEventEntry (elr_seq row) (le_ts e) (EventLogKind.as_db_str (le_kind e)) (le_host_id e)
            (le_payload e)) <$> rows)).

End rollouts.

(** ** [routes/fleet.rs] and [routes/status.rs] *)

Record VerifiedFleetSnapshot := MkVerifiedFleetSnapshot {
  vs_fleet : FleetResolved;
  vs_fleet_resolved_hash : string;
  vs_artifact_bytes : string;
  vs_signature_bytes : string;
}.

Module fleet.

Definition artifact (verified_fleet : option VerifiedFleetSnapshot) : result string Status :=
  match verified_fleet with Some s => Ok (vs_artifact_bytes s) | None => Err UNAVAILABLE end.

Definition signature (verified_fleet : option VerifiedFleetSnapshot) : result string Status :=
  match verified_fleet with Some s => Ok (vs_signature_bytes s) | None => Err UNAVAILABLE end.

End fleet.

Module status.

Definition host_state_to_wire (s : HostState) : WireState.t :=
  match s with
  | HostState.Pending => WireState.Pending
  | HostState.Activating => WireState.Activating
  | HostState.Deferred => WireState.Deferred
  | HostState.Soaking => WireState.Soaking
  | HostState.Converged => WireState.Converged
  | HostState.Failed => WireState.Failed
  | HostState.Reverted => WireState.Reverted
  end.

Record ChannelStatusResponse := MkChannelStatusResponse {
  cs_name : string;
  cs_declared_ci_commit : option string;
  cs_signed_at : option DateTime;
  cs_freshness_window_minutes : u32;
}.

Definition channel_status (verified_fleet : option VerifiedFleetSnapshot) (name : string)
    : result ChannelStatusResponse Status :=
  match verified_fleet with
  | None => Err UNAVAILABLE
  | Some snap =>
      let fleet := vs_fleet snap in
      match fr_channels fleet !! name with
      | None => Err NOT_FOUND
      | Some channel =>
          Ok (MkChannelStatusResponse name (meta_ci_commit (fr_meta fleet)) (meta_signed_at (fr_meta fleet))
                (ch_freshness_window channel))
      end
  end.

Record HostStatusEntry := MkHostStatusEntry {
  hse_hostname : string;
  hse_channel : string;
  hse_declared_closure_hash : option string;
  hse_current_closure_hash : option string;
  hse_pending_closure_hash : option string;
  hse_last_checkin_at : option DateTime;
  hse_last_rollout_id : option string;
  hse_converged : bool;
  hse_outstanding_compliance_failures : Z;
  hse_outstanding_runtime_gate_errors : Z;
  hse_verified_event_count : Z;
  hse_last_uptime_secs : option u64;
  hse_rollout_state : option WireState.t;
  hse_pending_reboot : bool;
  hse_quarantined_closure : option string;
  hse_pin : option Pin;
  hse_outstanding_health_failures : Z;
}.

(** The entry of one record. *)
Definition host_status_entry (verified : option VerifiedFleetSnapshot) (compliance_count : Z)
    (row : HostRolloutState) : HostStatusEntry :=
  let declared := s ← verified; fr_hosts (vs_fleet s) !! hs_hostname row in
  {| hse_hostname := hs_hostname row;
     hse_channel := hs_channel row;
     hse_declared_closure_hash := declared ≫= host_closure_hash;
     hse_current_closure_hash := hs_current_closure row;
     hse_pending_closure_hash := hs_current_closure_at_dispatch row;
     hse_last_checkin_at := None;
     hse_last_rollout_id := Some (rid_raw (hs_rollout_id row));
     hse_converged := bool_decide (hs_state row = HostState.Converged);
     hse_outstanding_compliance_failures := compliance_count;
     hse_outstanding_runtime_gate_errors := 0;
     hse_verified_event_count := hs_last_event_seq row;
     hse_last_uptime_secs := None;
     hse_rollout_state := Some (host_state_to_wire (hs_state row));
     hse_pending_reboot := false;
     hse_quarantined_closure := None;
     hse_pin := declared ≫= host_pin;
     hse_outstanding_health_failures := 0 |}.

Definition hosts_status {O : HashOrder} (db : option Db) (verified : option VerifiedFleetSnapshot)
    (failures_fail list_fails : bool) (records_fail : RolloutId -> bool)
    : result (list HostStatusEntry) Status :=
  match db with
  | None => Ok []
  | Some d =>
      let outstanding :=
        if failures_fail then ∅
        else ProbeFailures.outstanding_failing_enforce_probes_by_rollout (db_failures d) in
      let? rollouts := query list_fails (Rollouts.list_active (db_rollouts d)) in
      Ok (r ← rollouts;
          if records_fail (Rollouts.ar_rollout_id r) then []
          else
            row ← HostRolloutRecords.all_for_rollout (Rollouts.ar_rollout_id r) (db_records d);
            let compliance_count :=
              default 0%Z (per_host ← outstanding !! Rollouts.ar_rollout_id r;
                           per_host !! hs_hostname row) in
            [host_status_entry verified compliance_count row])
  end.

(** What the upstream cache answers. *)
Inductive UpstreamAnswer :=
| Unreachable (error : string)
| BodyUnreadable
| Answered (status : Status) (body : string).

Inductive ProxyBody :=
| NotConfigured (closure : string)
| UpstreamError (error : string)
| Narinfo (bytes : string).

Definition closure_proxy (upstream : option string) (closure_hash : string)
    (get : string -> UpstreamAnswer) : result (Status * ProxyBody) Status :=
  match upstream with
  | None => Ok (NOT_IMPLEMENTED, NotConfigured closure_hash)
  | Some base_url =>
      match get (strip_slashes base_url +:+ "/" +:+ closure_hash +:+ ".narinfo") with
      | Unreachable error => Ok (BAD_GATEWAY, UpstreamError error)
      | BodyUnreadable => Err BAD_GATEWAY
      | Answered status body => Ok (status, Narinfo body)
      end
  end.

End status.

(** ** [routes/deferrals.rs] *)

Module deferrals.

Definition SCAN_LIMIT : i64 := 1024.

Record Deferral := MkDeferral {
  df_host : string;
  df_rollout : string;
  df_blocked_by : string;
  df_reason : string;
  df_observed_at : DateTime;
}.

(** The four fields of a row; a gate decision is written with no other payload. *)
Definition decision_of (e : EventLogEntry) : option Deferral :=
  match le_payload e with
  | LogPayload.Deferral gate reason host rollout =>
      if bool_decide (host = "") || bool_decide (rid_raw rollout = "") then None
      else Some (MkDeferral host (rid_raw rollout) gate reason (le_ts e))
  | _ => None
  end.

(** The loop over the rows, newest first. *)
Fixpoint dedup (seen : gset (string * string)) (rows : list rollouts.EventLogRow) : list Deferral :=
  match rows with
  | [] => []
  | row :: rows =>
      match decision_of (rollouts.elr_entry row) with
      | None => dedup seen rows
      | Some d =>
          if bool_decide ((df_host d, df_rollout d) ∈ seen) then dedup seen rows
          else d :: dedup ({[ (df_host d, df_rollout d) ]} ∪ seen) rows
      end
  end.

Definition project_deferrals (db : option Db) (fails : bool) : result (list Deferral) Status :=
  match db with
  | None => Ok []
  | Some d =>
      let? rows :=
        query fails (rollouts.query_by_kind (EventLogKind.as_db_str EventLogKind.GateDecision) SCAN_LIMIT
                       (db_event_log d)) in
      Ok (dedup ∅ (reverse rows))
  end.

End deferrals.

(** ** [routes/heartbeat.rs] *)

Module heartbeat.

Record HeartbeatRequest := MkHeartbeatRequest {
  hostname : string;
  rollout_id : option RolloutId;
  current_closure : option string;
  at_ : DateTime;
}.

Record HeartbeatResponse := MkHeartbeatResponse {
  received_at : option DateTime;
  bootstrap_rollouts : list HostRolloutSnapshot;
}.

(** What comes of the reply channel within the five seconds. *)
Inductive Awaited := Replied (r : HeartbeatReply) | ReplyDropped | TimedOut.

(** The input that is sent, if any. *)
Definition accept_request (machine_id : string) (channel : RuntimeChannel) (req : HeartbeatRequest)
    : result ReducerInput Status :=
  if negb (bool_decide (machine_id = hostname req)) then Err FORBIDDEN
  else
    match channel with
    | Accepts =>
        Ok (ReducerInput.HeartbeatReceived (hostname req) (rollout_id req) (current_closure req)
              (at_ req))
    | NotSpunUp | Full | Closed => Err UNAVAILABLE
    end.

(** The header and the body. *)
Definition respond (req : HeartbeatRequest) (awaited : Awaited)
    : result (option u64 * HeartbeatResponse) Status :=
  match awaited with
  | Replied reply =>
      Ok (hb_replay_from reply,
          MkHeartbeatResponse (Some (at_ req)) (hb_bootstrap_rollouts reply))
  | ReplyDropped | TimedOut => Err UNAVAILABLE
  end.

(** A heartbeat whose input the task handles in time. *)
Definition post {O : HashOrder} {C : Clock} (machine_id : string) (channel : RuntimeChannel)
    (rs : ReducerState) (w : World) (req : HeartbeatRequest)
    : ReducerState * World * result (option u64 * HeartbeatResponse) Status :=
  match accept_request machine_id channel req with
  | Err status => (rs, w, Err status)
  | Ok input =>
      let '(rs, w, reply) := Reducer.handle_input rs input w in
      (rs, w, respond req (match reply with Some r => Replied r | None => ReplyDropped end))
  end.

End heartbeat.

(** ** The router ([build_router] of [server/mod.rs]) *)

Inductive Method := GET | POST.
#[export] Instance Method_eq_dec : EqDecision Method.
Proof. solve_decision. Defined.

Inductive Route :=
| Healthz
| EnrollRoute
| Whoami
| AgentEvents
| AgentHeartbeat
| AgentDispatch
| AgentClosure (hash : string)
| AgentRenew
| ChannelRoute (name : string)
| HostsRoute
| Metrics
| Rollouts_
| Deferrals
| FleetArtifact
| FleetSignature
| RolloutManifestRoute (rollout_id : string)
| RolloutSignature (rollout_id : string)
| RolloutLifecycle (rollout_id : string)
| RolloutHostsRoute (rollout_id : string)
| RolloutEventsRoute (rollout_id : string).

(** The table of routes, by the segments of a path; a parameter is one segment,
    never empty. *)
Definition route_of (segments : list string) : option (Method * Route) :=
  match segments with
  | ["healthz"] => Some (GET, Healthz)
  | ["v1"; "enroll"] => Some (POST, EnrollRoute)
  | ["v1"; "whoami"] => Some (GET, Whoami)
  | ["v1"; "agent"; "events"] => Some (POST, AgentEvents)
  | ["v1"; "agent"; "heartbeat"] => Some (POST, AgentHeartbeat)
  | ["v1"; "agent"; "dispatch"] => Some (GET, AgentDispatch)
  | ["v1"; "agent"; "closure"; hash] => if bool_decide (hash = "") then None else Some (GET, AgentClosure hash)
  | ["v1"; "agent"; "renew"] => Some (POST, AgentRenew)
  | ["v1"; "channels"; name] => if bool_decide (name = "") then None else Some (GET, ChannelRoute name)
  | ["v1"; "hosts"] => Some (GET, HostsRoute)
  | ["metrics"] => Some (GET, Metrics)
  | ["v1"; "rollouts"] => Some (GET, Rollouts_)
  | ["v1"; "deferrals"] => Some (GET, Deferrals)
  | ["v1"; "fleet.resolved"] => Some (GET, FleetArtifact)
  | ["v1"; "fleet.resolved"; "sig"] => Some (GET, FleetSignature)
  | ["v1"; "rollouts"; id] => if bool_decide (id = "") then None else Some (GET, RolloutManifestRoute id)
  | ["v1"; "rollouts"; id; "sig"] => if bool_decide (id = "") then None else Some (GET, RolloutSignature id)
  | ["v1"; "rollouts"; id; "lifecycle"] =>
      if bool_decide (id = "") then None else Some (GET, RolloutLifecycle id)
  | ["v1"; "rollouts"; id; "hosts"] =>
      if bool_decide (id = "") then None else Some (GET, RolloutHostsRoute id)
  | ["v1"; "rollouts"; id; "events"] =>
      if bool_decide (id = "") then None else Some (GET, RolloutEventsRoute id)
  | _ => None
  end.

Definition anonymous (r : Route) : bool :=
  match r with Healthz | EnrollRoute => true | _ => false end.

(** The layers of a route, the outermost first: readiness, protocol version,
    authentication.  What comes through is the authenticated name, if any. *)
Definition guard {Cr : Crypto} {P : Pki} (sv : Server) (strict : bool)
    (primed : Primed) (su : Surroundings) (st : IdentityState) (header : option (option string))
    (peer_certs : PeerCertificates) (route : Route) : result (option string) Status :=
  match route with
  | Healthz => Ok None
  | _ =>
      match require_ready_layer primed with
      | Some status => Err status
      | None =>
          match protocol_version_middleware strict header with
          | Some status => Err status
          | None =>
              if anonymous route then Ok None
              else let? cn := require_cn sv su st peer_certs in Ok (Some cn)
          end
      end
  end.
