(* ===== verification/CpServeProps.v ===== *)
(** * The routes that read: theorems

    Which rollout identifiers the manifest routes accept, what the deferrals and
    the hosts of a rollout come out as, and what a request in the name of one
    machine can change. *)

From S2P Require Import Prelude RustStd Proto HostTypes HostProps RolloutMachine Gates Planner.
From S2P Require Import PlannerProps CpStore CpRuntime CpApplierProps CpRuntimeProps CpSafety CpHistory.
From S2P Require Import Verify.
From S2P Require Import Manifest HostKey.
From S2P Require Import Issuance Enrollment EnrollmentProps AgentHost AgentManifests CpRoutes CpServe.
Import Applier Reducer.

(** ** Strings *)

Lemma contains_cons p b s :
  contains p (String b s) = String.prefix p (String b s) || contains p s.
Proof.
  unfold contains. cbn [String.index]. destruct (String.prefix p (String b s)); [done|].
  by destruct (String.index 0 p s).
Qed.

Lemma contains_head_absent a p s :
  contains_char a s = false -> contains (String a p) s = false.
Proof.
  induction s as [|b s IH]; [done|]. intros [Hb Hs]%orb_false_iff.
  rewrite contains_cons, IH by done. simpl.
  destruct (ascii_dec a b) as [->|]; [|done]. by rewrite bool_decide_eq_true_2 in Hb.
Qed.

Lemma contains_char_one a s : contains (String a "") s = contains_char a s.
Proof.
  induction s as [|b s IH]; [done|]. rewrite contains_cons, IH. simpl. f_equal.
  destruct (ascii_dec a b) as [->|Hne].
  - rewrite bool_decide_eq_true_2 by done. by destruct s.
  - by rewrite bool_decide_eq_false_2.
Qed.

Lemma contains_char_app a s t : contains_char a (s +:+ t) = contains_char a s || contains_char a t.
Proof. induction s as [|b s IH]; simpl; [done|]. by rewrite IH, orb_assoc. Qed.

Lemma all_chars_absent p a s : p a = false -> all_chars p s = true -> contains_char a s = false.
Proof.
  intros Ha. induction s as [|b s IH]; simpl; [done|]. intros [Hb Hs]%andb_true_iff.
  rewrite IH by done. rewrite orb_false_r. apply bool_decide_eq_false. congruence.
Qed.

(** ** Rollout identifiers of a path *)

Definition channel_char (c : ascii) : bool :=
  is_ascii_lowercase c || is_ascii_digit c || bool_decide (c = "_"%char) || bool_decide (c = "-"%char).
Definition ref_char (c : ascii) : bool := is_ascii_hexdigit c && negb (is_ascii_uppercase c).

(** The identifiers the routes accept. *)
Record servable (id channel channel_ref : string) : Prop := {
  sb_id : id = rid_raw (rollout_id.new channel channel_ref);
  sb_channel : channel <> "" /\ all_chars channel_char channel = true;
  sb_ref : channel_ref <> "" /\ all_chars ref_char channel_ref = true;
}.

Lemma looks_like_rollout_id_spec s :
  rollouts.looks_like_rollout_id s = true <-> exists channel channel_ref, servable s channel channel_ref.
Proof.
  unfold rollouts.looks_like_rollout_id. fold channel_char ref_char. split.
  - destruct (split_once "@" s) as [[channel ref]|] eqn:Hs; [|done].
    apply split_once_spec in Hs as [-> Hat].
    destruct (bool_decide_reflect (channel = "")) as [|Hc]; [done|].
    destruct (bool_decide_reflect (ref = "")) as [|Hr]; [done|]. simpl.
    destruct (contains "@" ref); [done|].
    destruct (all_chars channel_char channel) eqn:Ec; [|done]. simpl. intros Er.
    by exists channel, ref.
  - intros (channel & ref & [-> [Hc Ec] [Hr Er]]).
    change "@"%char with at_sign. rewrite split_once_new by (by eapply all_chars_absent; [|done]).
    rewrite (bool_decide_eq_false_2 _ Hc), (bool_decide_eq_false_2 _ Hr), contains_char_one. simpl.
    rewrite (all_chars_absent ref_char at_sign ref) by done.
    rewrite Ec. exact Er.
Qed.

Lemma servable_confined {E : HostEnv} id channel channel_ref :
  servable id channel channel_ref -> validate_rollout_id_for_path id = Ok tt.
Proof.
  intros [-> [_ Ec] [_ Er]]. unfold validate_rollout_id_for_path, rollout_id.new. simpl.
  rewrite contains_char_one, contains_head_absent; rewrite ?contains_char_app; simpl;
    rewrite ?(all_chars_absent channel_char _ channel), ?(all_chars_absent ref_char _ channel_ref) by done;
    done.
Qed.

Lemma at_unique c r c' r' :
  contains_char at_sign c = false -> contains_char at_sign r = false ->
  c +:+ String at_sign r = c' +:+ String at_sign r' -> c = c' /\ r = r'.
Proof.
  intros Hc Hr. revert c' Hc. induction c as [|a c IH]; intros [|a' c'] Hc; simpl.
  - by intros [= ->].
  - intros [= <- ->]. rewrite contains_char_app in Hr. simpl in Hr. by rewrite orb_true_r in Hr.
  - intros [= -> _]. done.
  - intros [= <- E]. apply orb_false_iff in Hc as [_ Hc]. destruct (IH c' Hc E). by subst.
Qed.

Lemma servable_new channel channel_ref :
  rollouts.looks_like_rollout_id (rid_raw (rollout_id.new channel channel_ref)) = true <->
  (channel <> "" /\ all_chars channel_char channel = true) /\
  (channel_ref <> "" /\ all_chars ref_char channel_ref = true).
Proof.
  rewrite looks_like_rollout_id_spec. split.
  - intros (c & r & [E [Hc Ec] [Hr Er]]). symmetry in E.
    apply (at_unique c r) in E as [-> ->]; [done | by eapply all_chars_absent; [|done]..].
  - intros [Hc Hr]. by exists channel, channel_ref.
Qed.

Lemma rollout_id_of_channel {O : HashOrder} fleet hash channel id :
  compute_rollout_id_for_channel fleet hash channel = Ok (Some id) ->
  id = rid_raw (rollout_id.new channel (default "" (meta_ci_commit (fr_meta fleet)))).
Proof.
  unfold compute_rollout_id_for_channel, project_manifest.
  destruct (meta_signed_at (fr_meta fleet)) as [t|]; [|done].
  destruct (fr_channels fleet !! channel) as [ch|]; [|done].
  destruct (fr_rollout_policies fleet !! _) as [policy|]; [|done].
  destruct (is_empty _); [done|]. simpl. by intros [= <-].
Qed.

(** The manifest routes serve exactly the pairs of a well-formed identifier:
    one lower-case channel name and one hexadecimal reference around a single
    [@].  Both files come from the directory when the manifest is there, a
    manifest without its signature is not served, and the upstream source is
    asked only when the directory has no manifest.  No identifier that is
    served can leave the directory: it has no [/] and no [..], so it also
    passes the agent's check. *)
Theorem manifest_route_serves {E : HostEnv} (dir : option (string -> rollouts.FileRead))
    (source : option (string -> result (string * string) string)) (id m s : string) :
  (rollouts.load_pair dir source id = Ok (m, s) <->
   (exists channel channel_ref, servable id channel channel_ref) /\
   ((exists d, dir = Some d /\ d (id +:+ ".json") = rollouts.FileBytes m /\
               d (id +:+ ".json.sig") = rollouts.FileBytes s) \/
    ((forall d, dir = Some d -> d (id +:+ ".json") = rollouts.FileNotFound) /\
     exists f, source = Some f /\ f id = Ok (m, s)))) /\
  ((exists channel channel_ref, servable id channel channel_ref) ->
   contains "/" id = false /\ contains ".." id = false /\ validate_rollout_id_for_path id = Ok tt).
Proof.
  split.
  2:{ intros (c & r & H). pose proof (servable_confined _ _ _ H) as Hv. revert Hv.
      unfold validate_rollout_id_for_path. by destruct (contains "/" id), (contains ".." id). }
  rewrite <- looks_like_rollout_id_spec.
  unfold rollouts.load_pair, rollouts.try_load_from_dir, rollouts.manifest_paths.
  destruct (rollouts.looks_like_rollout_id id); simpl; [|destruct dir, source; naive_solver].
  assert (Hsource : forall f : string -> result (string * string) string, f id = Ok (m, s) <->
    match f id with Ok found => Ok found | Err _ => Err BAD_GATEWAY end = Ok (m, s)).
  { intros f. destruct (f id) as [[]|]; naive_solver. }
  destruct dir as [d|]; [destruct (d (id +:+ ".json")) eqn:E1|].
  - split.
    + destruct (d (id +:+ ".json.sig")) eqn:E2; [|done..]. intros [= <- <-].
      split; [done|]. left. eauto.
    + intros [_ [(d' & [= <-] & Em & Es)|[H _]]]; [|specialize (H d eq_refl); congruence].
      rewrite Es. congruence.
  - destruct source as [f|]; [rewrite <- Hsource|]; split.
    + intros H. split; [done|]. right. split; [by intros ? [= <-] | by exists f].
    + intros [_ [(? & [= <-] & ? & _)|[_ (? & [= <-] & H)]]]; congruence.
    + done.
    + intros [_ [(? & [= <-] & ? & _)|[_ (? & ? & _)]]]; congruence.
  - split; [done|]. intros [_ [(d' & [= <-] & Em & _)|[H _]]]; [|specialize (H d eq_refl)]; congruence.
  - destruct source as [f|]; [rewrite <- Hsource|]; naive_solver.
Qed.

(** The identifier of the manifest a channel publishes is accepted by the routes
    exactly when the channel has a lower-case name and the fleet was built from
    a commit, in lower-case hexadecimal; the agent's own check asks for neither,
    so an agent can ask for a published manifest that is not served to it. *)
Theorem published_id_servable {O : HashOrder} (fleet : FleetResolved) (hash channel id : string) :
  compute_rollout_id_for_channel fleet hash channel = Ok (Some id) ->
  (rollouts.looks_like_rollout_id id = true <->
   (channel <> "" /\ all_chars channel_char channel = true) /\
   exists commit, meta_ci_commit (fr_meta fleet) = Some commit /\ commit <> "" /\
     all_chars ref_char commit = true).
Proof.
  intros ->%rollout_id_of_channel. rewrite servable_new.
  destruct (meta_ci_commit (fr_meta fleet)) as [commit|]; simpl; naive_solver.
Qed.

Lemma published_id_servable_witness :
  rollouts.looks_like_rollout_id "stable@abcdef0123" = true.
Proof.
  apply (published_id_servable (O := list_order) projected_fleet "hash" "stable"); [by vm_compute|].
  split; [by vm_compute|]. by exists "abcdef0123".
Defined.

(** ** Deferrals *)

Definition deferral_key (d : deferrals.Deferral) : string * string :=
  (deferrals.df_host d, deferrals.df_rollout d).

#[export] Instance EventLogKind_eq_dec : EqDecision EventLogKind.t.
Proof. solve_decision. Defined.

(** The gate decisions of a log, oldest first. *)
Definition gate_decisions (log : list EventLogEntry) : list EventLogEntry :=
  filter (fun e => le_kind e = EventLogKind.GateDecision) log.

(** The newest decision of each host and rollout. *)
Definition latest (ds : list deferrals.Deferral) (d : deferrals.Deferral) : Prop :=
  exists before after, ds = before ++ d :: after /\ deferral_key d ∉ (deferral_key <$> after).

Lemma kind_is_gate_decision k :
  EventLogKind.as_db_str k = EventLogKind.as_db_str EventLogKind.GateDecision <->
  k = EventLogKind.GateDecision.
Proof. split; [by destruct k | by intros ->]. Qed.

Lemma filter_imap_entries {A} (f : nat -> EventLogEntry -> A) (entry : A -> EventLogEntry)
    (P : EventLogEntry -> Prop) `{!forall e, Decision (P e)} log :
  (forall i e, entry (f i e) = e) ->
  entry <$> filter (fun r => P (entry r)) (imap f log) = filter P log.
Proof.
  revert f. induction log as [|e log IH]; intros f Hf; [done|].
  rewrite imap_cons, !filter_cons, Hf. destruct (decide (P e)); simpl; rewrite ?Hf, IH; try done.
  all: intros i e'; apply Hf.
Qed.

(** The rows of a kind, without their numbers, are the entries of the kind. *)
Lemma query_gate_decisions log :
  rollouts.elr_entry <$>
    rollouts.query_by_kind (EventLogKind.as_db_str EventLogKind.GateDecision) deferrals.SCAN_LIMIT log =
  take 1024 (gate_decisions log).
Proof.
  unfold rollouts.query_by_kind, rollouts.sql_limit, rollouts.event_rows.
  change (Z.to_nat deferrals.SCAN_LIMIT) with 1024. change (Z.ltb deferrals.SCAN_LIMIT 0) with false.
  cbv iota. rewrite fmap_take. f_equal. unfold gate_decisions.
  etrans.
  { exact (filter_imap_entries (fun i e => rollouts.MkEventLogRow (Z.of_nat i + 1) e) rollouts.elr_entry
             (fun e => EventLogKind.as_db_str (le_kind e) = EventLogKind.as_db_str EventLogKind.GateDecision)
             log (fun _ _ => eq_refl)). }
  apply list_filter_iff. intros e. apply kind_is_gate_decision.
Qed.

(** The loop on the decisions alone. *)
Fixpoint dedup_keys (seen : gset (string * string)) (ds : list deferrals.Deferral)
    : list deferrals.Deferral :=
  match ds with
  | [] => []
  | d :: ds =>
      if bool_decide (deferral_key d ∈ seen) then dedup_keys seen ds
      else d :: dedup_keys ({[ deferral_key d ]} ∪ seen) ds
  end.

Lemma dedup_entries seen rows :
  deferrals.dedup seen rows =
  dedup_keys seen (omap deferrals.decision_of (rollouts.elr_entry <$> rows)).
Proof.
  revert seen. induction rows as [|row rows IH]; intros seen; [done|]. rewrite fmap_cons. simpl.
  destruct (deferrals.decision_of _) as [d|]; [|done]. simpl. unfold deferral_key at 1.
  by rewrite !IH.
Qed.

Lemma dedup_spec seen rows (ds := omap deferrals.decision_of (rollouts.elr_entry <$> rows)) d :
  d ∈ deferrals.dedup seen rows <->
  (deferral_key d ∉ seen) /\
  exists newer older, ds = newer ++ d :: older /\ deferral_key d ∉ (deferral_key <$> newer).
Proof.
  rewrite dedup_entries. fold ds. generalize ds as l. clear ds rows. intros l. revert seen.
  induction l as [|x l IH]; intros seen; simpl.
  - split; [by intros ?%elem_of_nil | by intros [_ ([] & ? & [=] & _)]].
  - case_bool as [Hx|Hx]; [rewrite IH | rewrite elem_of_cons, IH].
    + split; intros [Hd (newer & older & E & Hn)].
      * split; [done|]. exists (x :: newer), older. rewrite E. split; [done|].
        rewrite fmap_cons, not_elem_of_cons. split; [congruence | done].
      * split; [done|]. destruct newer as [|y newer]; injection E as -> ->; [done|].
        rewrite fmap_cons, not_elem_of_cons in Hn. destruct Hn as [_ Hn]. by exists newer, older.
    + split.
      * intros [->|[Hd (newer & older & -> & Hn)]].
        -- split; [done|]. exists [], l. split; [done|]. apply not_elem_of_nil.
        -- apply not_elem_of_union in Hd as [Hk Hd]. rewrite not_elem_of_singleton in Hk.
           split; [done|]. exists (x :: newer), older. split; [done|].
           by rewrite fmap_cons, not_elem_of_cons.
      * intros [Hd (newer & older & E & Hn)].
        destruct newer as [|y newer]; injection E as -> ->; [by left|]. right.
        rewrite fmap_cons, not_elem_of_cons in Hn. destruct Hn as [Hy Hn].
        split; [by rewrite not_elem_of_union, not_elem_of_singleton | by exists newer, older].
Qed.

Lemma dedup_NoDup seen rows :
  NoDup (deferral_key <$> deferrals.dedup seen rows) /\
  (forall d, d ∈ deferrals.dedup seen rows -> deferral_key d ∉ seen).
Proof.
  split; [|by intros d [? _]%dedup_spec].
  revert seen. induction rows as [|row rows IH]; intros seen; simpl; [constructor|].
  destruct (deferrals.decision_of _) as [d|]; [|done]. case_bool; [done|].
  rewrite fmap_cons. constructor; [|done].
  intros (d' & Hk & [Hd' _]%dedup_spec)%list_elem_of_fmap. rewrite not_elem_of_union, not_elem_of_singleton in Hd'.
  destruct Hd' as [[] _]. by symmetry.
Qed.

Lemma omap_reverse {A B} (f : A -> option B) l : omap f (reverse l) = reverse (omap f l).
Proof.
  induction l as [|x l IH]; [done|]. rewrite reverse_cons, omap_app, IH. simpl.
  destruct (f x); simpl; [by rewrite reverse_cons | by rewrite app_nil_r].
Qed.

(** What the deferrals of a database come out as. *)
Lemma project_deferrals_spec d out :
  deferrals.project_deferrals (Some d) false = Ok out ->
  NoDup (deferral_key <$> out) /\
  (forall x, x ∈ out <->
     latest (omap deferrals.decision_of (take 1024 (gate_decisions (db_event_log d)))) x).
Proof.
  unfold deferrals.project_deferrals, query. simpl. intros [= <-].
  split; [apply dedup_NoDup|]. intros x. rewrite dedup_spec, <- query_gate_decisions.
  change (EventLogKind.as_db_str EventLogKind.GateDecision) with "gate_decision".
  rewrite fmap_reverse. generalize (rollouts.elr_entry <$> rollouts.query_by_kind "gate_decision"
    deferrals.SCAN_LIMIT (db_event_log d)) as l.
  intros l. rewrite omap_reverse. unfold latest. split.
  - intros [_ (newer & older & E & Hn)]. exists (reverse older), (reverse newer).
    apply (f_equal reverse) in E. rewrite reverse_involutive in E. rewrite E.
    rewrite reverse_app, reverse_cons, <- app_assoc. split; [done|].
    by rewrite fmap_reverse, elem_of_reverse.
  - intros (before & after & -> & Hn). split; [set_solver|]. exists (reverse after), (reverse before).
    rewrite reverse_app, reverse_cons, <- app_assoc. split; [done|].
    by rewrite fmap_reverse, elem_of_reverse.
Qed.

Lemma take_decisions_full log log' n :
  log `prefix_of` log' -> n <= length (gate_decisions log) ->
  take n (gate_decisions log') = take n (gate_decisions log).
Proof.
  intros [more ->] Hlen. unfold gate_decisions in *. rewrite filter_app. by apply take_app_le.
Qed.

(** The deferrals list holds one entry per host and rollout, the newest of the
    decisions it looks at, and those are the first 1024 of the log, not the last
    ones.  Since the log only grows, once it holds 1024 gate decisions the
    answer never changes again, whatever the gates decide later. *)
Theorem deferrals_freeze {O : HashOrder} {C : Clock} (s s' : ReducerState * World)
    (out out' : list deferrals.Deferral) :
  reachable s -> rtc cp_step s s' ->
  1024 <= length (gate_decisions (db_event_log (w_db s.2))) ->
  deferrals.project_deferrals (Some (w_db s.2)) false = Ok out ->
  deferrals.project_deferrals (Some (w_db s'.2)) false = Ok out' ->
  out' = out /\ NoDup (deferral_key <$> out') /\
  forall x, x ∈ out' <->
    latest (omap deferrals.decision_of (take 1024 (gate_decisions (db_event_log (w_db s.2))))) x.
Proof.
  intros _ Hss' Hlen E E'.
  pose proof (lg_table _ _ (cp_steps_logged _ _ Hss')) as Hx.
  assert (E2 : out' = out).
  { unfold deferrals.project_deferrals, query in E, E'. injection E as <-. injection E' as <-.
    rewrite !dedup_entries, !fmap_reverse, !query_gate_decisions.
    by rewrite (take_decisions_full _ _ 1024 Hx Hlen). }
  split; [done|]. rewrite E2. by apply project_deferrals_spec.
Qed.

(** No host may go: each evaluation of the plan defers all three.  After the
    evaluations the writer empties its channel. *)
Definition no_slot : RolloutBudget := MkRolloutBudget sample_selector ["a"; "b"; "c"] (Some 0%Z) None.
Definition run_and_write (inputs : list ReducerInput) (s : ReducerState * World) : ReducerState * World :=
  written 1500 (cp_run (O := list_order) (C := fun n => Z.of_nat n) inputs s).
Definition deferring (ticks : nat) : ReducerState * World :=
  run_and_write
    (ReducerInput.ManifestSetUpdated (sample_manifests [no_slot]) :: replicate ticks ReducerInput.PlanTick)
    (initial, MkWorld empty_db 0).
Definition still_deferring (ticks : nat) : ReducerState * World -> ReducerState * World :=
  run_and_write (replicate ticks ReducerInput.PlanTick).
Definition deferrals_of (s : ReducerState * World) : list deferrals.Deferral :=
  match deferrals.project_deferrals (Some (w_db s.2)) false with Ok out => out | Err _ => [] end.

Lemma deferrals_of_ok s : deferrals.project_deferrals (Some (w_db s.2)) false = Ok (deferrals_of s).
Proof. done. Qed.

Lemma run_and_write_steps inputs s :
  rtc (cp_step (O := list_order) (C := fun n => Z.of_nat n)) s (run_and_write inputs s).
Proof. etrans; [apply cp_run_steps | apply written_steps]. Qed.

Lemma deferrals_freeze_witness :
  deferrals_of (still_deferring 55 (deferring 345)) = deferrals_of (deferring 345) /\
  length (gate_decisions (db_event_log (w_db (still_deferring 55 (deferring 345)).2))) = 1200 /\
  length (deferrals_of (deferring 345)) = 3 /\ length (deferrals_of (deferring 3)) = 3 /\
  deferrals_of (deferring 3) <> deferrals_of (deferring 4).
Proof.
  split; [|split_and!; [vm_compute; reflexivity..|]].
  2:{ intros E. apply (f_equal (fmap deferrals.df_observed_at)) in E. vm_compute in E. discriminate E. }
  apply (deferrals_freeze (O := list_order) (C := fun n => Z.of_nat n) (deferring 345)
           (still_deferring 55 (deferring 345))).
  - exists 0. exact (run_and_write_steps _ _).
  - exact (run_and_write_steps _ _).
  - apply Nat.leb_le. vm_compute. reflexivity.
  - exact (deferrals_of_ok (deferring 345)).
  - exact (deferrals_of_ok (still_deferring 55 (deferring 345))).
Defined.

(** ** One machine's requests *)

(** What may change in the name of [h]: its own records and queued dispatches,
    and failures and agent events under its name are added. *)
Record only_host (h : string) (d d' : Db) : Prop := {
  oh_records : forall rid h', h' <> h -> db_records d' !! (rid, h') = db_records d !! (rid, h');
  oh_queue : forall h' rid, h' <> h -> db_queue d' !! (h', rid) = db_queue d !! (h', rid);
  oh_failures : exists more, db_failures d' = db_failures d ++ more /\
    Forall (fun r => pf_host_id r = h) more;
  oh_entries : exists more, agent_entries (db_log_sent d') = agent_entries (db_log_sent d) ++ more /\
    Forall (fun e => e.1.1 = Some h) more;
}.

#[export] Instance only_host_preorder h : PreOrder (only_host h).
Proof.
  split.
  - intros d. by split; try done; exists []; rewrite app_nil_r.
  - intros d1 d2 d3 [R1 Q1 (f1 & F1 & P1) (e1 & E1 & A1)] [R2 Q2 (f2 & F2 & P2) (e2 & E2 & A2)].
    split; [intros; by rewrite R2, R1 | intros; by rewrite Q2, Q1 |..].
    + exists (f1 ++ f2). rewrite F2, F1, app_assoc. split; [done | by apply Forall_app_2].
    + exists (e1 ++ e2). rewrite E2, E1, app_assoc. split; [done | by apply Forall_app_2].
Qed.

Lemma probe_failure_rows_host rid h payload :
  Forall (fun r => pf_host_id r = h) (probe_failure_rows rid h payload).
Proof.
  unfold probe_failure_rows. repeat case_match; try by repeat constructor.
  by rewrite Forall_fmap, Forall_forall.
Qed.

Section requests.
Context {O : HashOrder} {C : Clock}.

Lemma handle_host_event_only rs host rid e w :
  db_inv (w_db w) -> only_host host (w_db w) (w_db (handle_host_event rs host rid e w)).
Proof.
  intros Hinv. destruct (host_event_outcome rs host rid e w) as [[[prior next] effs]|] eqn:Ho.
  2:{ by rewrite handle_host_event_dropped. }
  destruct (handle_host_event_accepted _ _ _ _ _ _ _ _ Hinv Ho) as (E1 & _ & E3 & E4 & E5 & _).
  split.
  - intros rid' h' Hne. rewrite E1. by rewrite lookup_insert_ne by congruence.
  - intros h' rid' _. by rewrite E3.
  - eexists. split; [exact E4|]. unfold event_failures. case_match; [done | apply probe_failure_rows_host].
  - eexists. split; [exact E5|]. unfold event_entries. case_match; by repeat constructor.
Qed.

Lemma recover_record_only rs host c at_ w r :
  hs_hostname r = host -> db_inv (w_db w) ->
  only_host host (w_db w) (w_db (recover_record rs host c at_ w r)).
Proof.
  intros Hr Hinv. unfold recover_record.
  destruct (hs_state r); try done; case_bool; try done; try by apply handle_host_event_only.
  destruct (match rd_manifests rs with Some _ => _ | None => _ end); [done|].
  unfold synthesize_pending_to_converged. rewrite Hr.
  set (w1 := handle_host_event _ _ _ (Event.RemoteDispatchAck _ _ _) w).
  set (w2 := handle_host_event _ _ _ (Event.RemoteActivationCompleted _ _ _ _) w1).
  assert (Hinv1 : db_inv (w_db w1)) by by apply handle_host_event_inv.
  assert (Hinv2 : db_inv (w_db w2)) by by apply handle_host_event_inv.
  transitivity (w_db w1); [by apply handle_host_event_only|].
  transitivity (w_db w2); [by apply handle_host_event_only|].
  destruct (HostRolloutRecords.load _ _ _); [by apply handle_host_event_only | done].
Qed.

Lemma recovery_only rs host c at_ w :
  db_inv (w_db w) ->
  only_host host (w_db w) (w_db (maybe_synthesize_recovery_completion rs host c at_ w)).
Proof.
  intros Hinv. unfold maybe_synthesize_recovery_completion.
  assert (Hl : Forall (fun r => hs_hostname r = host)
                 (HostRolloutRecords.active_for_host host (db_records (w_db w)))).
  { apply Forall_forall. intros r ([[rid h] r'] & -> & [[Hh _] Hin]%list_elem_of_filter)%list_elem_of_fmap.
    apply elem_of_hash_iter in Hin. simpl in *. subst h.
    by destruct (tbi_records _ _ Hinv _ _ Hin) as [[= _ ->] _]. }
  revert Hl. generalize (HostRolloutRecords.active_for_host host (db_records (w_db w))) as l.
  intros l Hl. revert w Hinv.
  induction Hl as [|r l Hr _ IH]; intros w Hinv; [done|]. cbn [fold_left].
  etrans; [by apply recover_record_only | apply IH; by apply recover_record_safe].
Qed.

(** What a machine can send, and what the handlers make of it. *)
Inductive Request :=
| PostEvent (envelope : AgentEventEnvelope)
| PostHeartbeat (req : heartbeat.HeartbeatRequest)
| TakeDispatch.

Definition serve (machine : string) (channel : RuntimeChannel) (rs : ReducerState) (w : World)
    (r : Request) : ReducerState * World :=
  match r with
  | PostEvent envelope => (rs, post_event machine channel rs w envelope)
  | PostHeartbeat req => (heartbeat.post machine channel rs w req).1
  | TakeDispatch =>
      (rs, on_db (fun d => d <| db_queue := (DispatchQueue.take_for_host machine (db_queue d)).2 |>) w)
  end.

Lemma post_event_only machine channel rs w envelope :
  db_inv (w_db w) -> only_host machine (w_db w) (w_db (post_event machine channel rs w envelope)).
Proof.
  intros Hinv. unfold post_event, events.
  case_bool as [->|]; [|done]. simpl. destruct (match HostRolloutRecords.load _ _ _ with Some _ => _ | None => _ end);
    [done|]. destruct channel; try done. simpl. by apply handle_host_event_only.
Qed.

Lemma post_heartbeat_only machine channel rs w req :
  db_inv (w_db w) ->
  let s' := (heartbeat.post machine channel rs w req).1 in
  only_host machine (w_db w) (w_db s'.2) /\ rd_manifests s'.1 = rd_manifests rs /\
  forall h, h <> machine -> rd_last_heartbeat_at s'.1 !! h = rd_last_heartbeat_at rs !! h.
Proof.
  intros Hinv. unfold heartbeat.post, heartbeat.accept_request. case_bool as [->|]; [|done]. simpl.
  destruct channel; try done. simpl. split_and!; [|done|].
  - destruct (heartbeat.current_closure req); [by apply recovery_only | done].
  - intros h Hne. by rewrite lookup_insert_ne.
Qed.

Lemma take_for_host_only machine d :
  (forall k q, db_queue d !! k = Some q -> k = queue_key q) ->
  only_host machine d (d <| db_queue := (DispatchQueue.take_for_host machine (db_queue d)).2 |>).
Proof.
  intros Hk. split; simpl; [done| |by exists []; rewrite app_nil_r..].
  intros h rid Hne. unfold DispatchQueue.take_for_host.
  destruct (merge_sort _ _) as [|q l] eqn:E; [done|]. simpl. apply lookup_delete_ne. intros [= <- <-].
  assert (Hq : q ∈ DispatchQueue.for_host machine (db_queue d)).
  { rewrite <- (merge_sort_Permutation DispatchQueue.earlier), E. left. }
  apply list_elem_of_fmap in Hq as ([[h rid] q'] & -> & [Hh Hin]%list_elem_of_filter).
  apply elem_of_hash_iter in Hin. simpl in *. subst h. apply Hk in Hin. injection Hin. done.
Qed.

End requests.

(** C21.  A machine's requests change nothing that belongs to another machine.  Whatever
    it posts in a reachable state, however the channel to the reducer task
    stands, the records and the queued dispatches of every other machine stay as
    they are, the failures and agent events that are added are under its own
    name, and neither the manifests nor the other machines' heartbeats change.
    In particular an envelope or heartbeat with another's name is refused. *)
Theorem machine_changes_only_itself {O : HashOrder} {C : Clock} (machine : string)
    (channel : RuntimeChannel) (rs : ReducerState) (w : World) (r : Request) :
  reachable (rs, w) ->
  let s' := serve machine channel rs w r in
  only_host machine (w_db w) (w_db s'.2) /\ rd_manifests s'.1 = rd_manifests rs /\
  forall h, h <> machine -> rd_last_heartbeat_at s'.1 !! h = rd_last_heartbeat_at rs !! h.
Proof.
  intros Hr. pose proof (reachable_inv _ Hr) as Hinv. simpl in Hinv. destruct r as [envelope|req|]; simpl.
  - split; [by apply post_event_only | done].
  - by apply post_heartbeat_only.
  - split; [|done]. apply take_for_host_only. intros k q Hq. destruct Hr as [reads Hr].
    destruct (cp_steps_logged _ _ Hr) as [(more & _ & _ & _ & D)].
    destruct (D k q Hq) as [H|[]]; [simpl in H; by rewrite lookup_empty in H | done].
Qed.

(** The control plane has opened the rollout on its three hosts; [a] reports its
    acknowledgement. *)
Definition opened_world : ReducerState * World :=
  cp_run (O := list_order) (C := fun n => Z.of_nat n) [ReducerInput.ManifestSetUpdated (sample_manifests [])]
    (initial, MkWorld empty_db 0).
Definition ack_of (host : string) : AgentEventEnvelope :=
  MkAgentEventEnvelope host sample_rid (AgentEvent.DispatchAck "/nix/store/old" 1 1) None.
Definition state_of (host : string) (s : ReducerState * World) : option HostState :=
  hs_state <$> db_records (w_db s.2) !! (sample_rid, host).

Lemma machine_changes_only_itself_witness :
  let post machine envelope :=
    serve (O := list_order) (C := fun n => Z.of_nat n) machine Accepts opened_world.1 opened_world.2
      (PostEvent envelope) in
  state_of "a" (post "a" (ack_of "a")) = Some HostState.Activating /\
  state_of "b" (post "a" (ack_of "b")) = Some HostState.Pending /\
  db_records (w_db (post "a" (ack_of "a")).2) !! (sample_rid, "b") =
    db_records (w_db opened_world.2) !! (sample_rid, "b").
Proof.
  intros post. split; [by vm_compute|]. split; [by vm_compute|].
  apply (machine_changes_only_itself (O := list_order) (C := fun n => Z.of_nat n) "a" Accepts
           opened_world.1 opened_world.2 (PostEvent (ack_of "a"))); [|done].
  apply (cp_run_reachable (O := list_order) (C := fun n => Z.of_nat n)).
Defined.

(** ** The hosts of a rollout *)

#[local] Instance entry_le_total : Total rollouts.entry_le.
Proof.
  intros a b. unfold rollouts.entry_le.
  destruct (Z.lt_trichotomy (rollouts.rhe_wave a) (rollouts.rhe_wave b)) as [|[E|]]; auto.
  destruct (total String.le (rollouts.rhe_host a) (rollouts.rhe_host b)); auto.
Qed.
#[local] Instance entry_le_trans : Transitive rollouts.entry_le.
Proof.
  intros a b c. unfold rollouts.entry_le. intros [Hab|[Eab Hab]] [Hbc|[Ebc Hbc]]; try (left; lia).
  right. split; [lia | by etrans].
Qed.

Lemma all_for_rollout_hosts {O : HashOrder} rid r :
  map_Forall (fun k st => k = (hs_rollout_id st, hs_hostname st)) r ->
  NoDup (hs_hostname <$> HostRolloutRecords.all_for_rollout rid r).
Proof.
  intros Hk. unfold HostRolloutRecords.all_for_rollout.
  assert (H : forall l : list (RolloutId * string * HostRolloutState), NoDup l.*1 ->
            Forall (fun e => e.1 = (hs_rollout_id e.2, hs_hostname e.2)) l ->
            NoDup (hs_hostname <$> (filter (fun e => e.1.1 = rid) l).*2)).
  { induction l as [|[[rid' h] st] l IH]; intros Hnd Hl; [constructor|].
    apply Forall_cons in Hl as [[= -> ->] Hl]. apply NoDup_cons in Hnd as [Hn Hnd]. simpl in Hn.
    rewrite filter_cons. case_decide as E; [|by apply IH]. csimpl. constructor; [|by apply IH].
    intros (st' & Hst & ([k st''] & -> & [Hk' Hin]%list_elem_of_filter)%list_elem_of_fmap)%list_elem_of_fmap.
    rewrite Forall_forall in Hl. pose proof (Hl _ Hin) as Ek. simpl in *. subst k. apply Hn.
    apply list_elem_of_fmap. exists (hs_rollout_id st'', hs_hostname st'', st''). split; [|done].
    cbn [fst] in *. congruence. }
  apply H; [apply NoDup_fst_hash_iter|]. apply Forall_forall. intros [k st] Hin%elem_of_hash_iter.
  by apply Hk.
Qed.

Lemma NoDup_fmap_elem {A B} (f : A -> B) l x y :
  NoDup (f <$> l) -> x ∈ l -> y ∈ l -> f x = f y -> x = y.
Proof.
  intros Hnd [i Hi]%list_elem_of_lookup_1 [j Hj]%list_elem_of_lookup_1 E.
  assert (i = j) as ->; [|congruence].
  apply (NoDup_lookup (f <$> l) i j (f x)); [done | by rewrite list_lookup_fmap, Hi |].
  by rewrite list_lookup_fmap, Hj, E.
Qed.

Lemma entries_by_name l :
  Forall (fun e => rollouts.rhe_wave e = 0%Z) l -> Sorted rollouts.entry_le l ->
  Sorted String.le (rollouts.rhe_host <$> l).
Proof.
  intros Hw Hs. induction Hs as [|e l Hs IH Hd]; csimpl; [constructor|].
  apply Forall_cons in Hw as [He Hw]. constructor; [by apply IH|].
  destruct Hd as [|e' l Hle]; csimpl; constructor. apply Forall_cons in Hw as [He' _].
  destruct Hle as [|[_ ?]]; [lia | done].
Qed.

(** The entry of a record: the wave is that of a map that is never filled. *)
Definition entry_of (st : HostRolloutState) : rollouts.RolloutHostEntry :=
  let '(terminal_state, terminal_at) := rollouts.derive_terminal st in
  rollouts.MkRolloutHostEntry (hs_hostname st) (hs_channel st) 0 (hs_target_closure st)
    (rid_raw (hs_rollout_id st)) (hs_dispatched_at st) terminal_state terminal_at.

Lemma entry_of_host st : rollouts.rhe_host (entry_of st) = hs_hostname st.
Proof. unfold entry_of. by destruct (rollouts.derive_terminal st). Qed.
Lemma entry_of_wave st : rollouts.rhe_wave (entry_of st) = 0%Z.
Proof. unfold entry_of. by destruct (rollouts.derive_terminal st). Qed.

Lemma hosts_eq {O : HashOrder} d id :
  rollouts.looks_like_rollout_id id = true ->
  rollouts.hosts (Some d) false id =
  let records := HostRolloutRecords.all_for_rollout (MkRolloutId id) (db_records d) in
  if is_empty records then Err NOT_FOUND
  else Ok (rollouts.MkRolloutHosts (rollouts.parsed_id id)
             (merge_sort rollouts.entry_le (entry_of <$> records))).
Proof.
  intros Hid. unfold rollouts.hosts. rewrite Hid. simpl.
  destruct (is_empty _); [done|]. do 3 f_equal. apply list_fmap_ext. intros _ st _.
  unfold entry_of. destruct (rollouts.derive_terminal st). f_equal.
  unfold rollouts.wave_by_host. by case_match; rewrite lookup_empty.
Qed.

Lemma all_for_rollout_orders (O1 O2 : HashOrder) rid r :
  HostRolloutRecords.all_for_rollout (O := O1) rid r ≡ₚ HostRolloutRecords.all_for_rollout (O := O2) rid r.
Proof. unfold HostRolloutRecords.all_for_rollout. by rewrite !hash_iter_perm. Qed.

(** A rollout of two hosts in two waves. *)
Definition twowaves : ReducerState * World :=
  let manifest := MkRolloutManifest 1 "stable@abc" "stable" "abc" "hash"
    [MkHostWave "b" 1 "/nix/store/new"; MkHostWave "a" 0 "/nix/store/new"] (MkHealthGate None) [] sample_meta in
  cp_run (O := list_order) (C := fun n => Z.of_nat n)
    [ReducerInput.ManifestSetUpdated (MkSignedManifestSet (MkVerified sample_fleet 0)
       {[ "stable" := MkVerified manifest 0 ]})] (initial, MkWorld empty_db 0).

(** The hosts of a rollout are listed once each, in the order of their names,
    one entry per record, whatever order the table gives its rows in; and each
    of them is reported in wave 0, whatever wave its manifest puts it in. *)
Theorem rollout_hosts_spec {O O' : HashOrder} {C : Clock} (rs : ReducerState) (w : World) (id : string) :
  reachable (O := O) (rs, w) -> rollouts.looks_like_rollout_id id = true ->
  let answer := rollouts.hosts (O := O) (Some (w_db w)) false id in
  rollouts.hosts (O := O') (Some (w_db w)) false id = answer /\
  match answer with
  | Ok r =>
      (forall e, e ∈ rollouts.rh_hosts r <->
         exists h st, db_records (w_db w) !! (MkRolloutId id, h) = Some st /\ e = entry_of st) /\
      NoDup (rollouts.rhe_host <$> rollouts.rh_hosts r) /\
      Sorted String.le (rollouts.rhe_host <$> rollouts.rh_hosts r) /\
      Forall (fun e => rollouts.rhe_wave e = 0%Z) (rollouts.rh_hosts r)
  | Err status => status = NOT_FOUND /\ forall h, db_records (w_db w) !! (MkRolloutId id, h) = None
  end.
Proof.
  intros Hr%reachable_inv Hid answer. unfold answer. rewrite !hosts_eq by done. cbv zeta. simpl in Hr.
  assert (Hk : map_Forall (fun k st => k = (hs_rollout_id st, hs_hostname st)) (db_records (w_db w))).
  { intros k st Hl. symmetry. by apply (tbi_records _ _ Hr). }
  set (l := HostRolloutRecords.all_for_rollout (O := O) _ _).
  set (l' := HostRolloutRecords.all_for_rollout (O := O') _ _).
  assert (Hp : l' ≡ₚ l) by apply all_for_rollout_orders.
  assert (Hnd : NoDup (hs_hostname <$> l)) by by apply all_for_rollout_hosts.
  assert (Hhosts : forall k : list HostRolloutState,
            rollouts.rhe_host <$> (entry_of <$> k) = hs_hostname <$> k).
  { intros k. rewrite <- list_fmap_compose. apply list_fmap_ext. intros _ st _. apply entry_of_host. }
  rewrite (is_empty_perm l' l Hp). destruct (is_empty l) eqn:El.
  - split; [done|]. split; [done|]. apply is_empty_spec in El. intros h. apply eq_None_not_Some.
    intros [st Hst]. assert (Hin : st ∈ l) by (apply elem_of_all_for_rollout; eauto).
    rewrite El in Hin. by apply elem_of_nil in Hin.
  - set (s := merge_sort rollouts.entry_le (entry_of <$> l)).
    assert (Hs : s ≡ₚ entry_of <$> l) by apply merge_sort_Permutation.
    assert (Hwave : Forall (fun e => rollouts.rhe_wave e = 0%Z) s).
    { rewrite Hs. apply Forall_fmap, Forall_true. apply entry_of_wave. }
    split; [do 2 f_equal; apply (merge_sort_perm_unique rollouts.entry_le); [|by rewrite Hp]|].
    + intros x y (sx & -> & Hx)%list_elem_of_fmap (sy & -> & Hy)%list_elem_of_fmap Hxy Hyx.
      rewrite Hp in Hx, Hy.
      unfold rollouts.entry_le in Hxy, Hyx. rewrite !entry_of_wave, !entry_of_host in Hxy, Hyx.
      f_equal. apply (NoDup_fmap_elem hs_hostname l); [done..|].
      apply (anti_symm String.le); [by destruct Hxy as [|[_ ?]] | by destruct Hyx as [|[_ ?]]].
    + simpl. split_and!; [| | |done].
      * intros e. rewrite Hs, list_elem_of_fmap. split.
        -- intros (st & -> & [h Hst]%elem_of_all_for_rollout). by exists h, st.
        -- intros (h & st & Hst & ->). exists st. split; [done|]. apply elem_of_all_for_rollout. by exists h.
      * by rewrite Hs, Hhosts.
      * assert (Hsort : Sorted rollouts.entry_le s) by apply (Sorted_merge_sort rollouts.entry_le).
        by apply entries_by_name.
Qed.

Lemma rollout_hosts_spec_witness :
  let answer := rollouts.hosts (O := list_order) (Some (w_db twowaves.2)) false "stable@abc" in
  match answer with
  | Ok r => (rollouts.rhe_host <$> rollouts.rh_hosts r) = ["a"; "b"] /\
      Forall (fun e => rollouts.rhe_wave e = 0%Z) (rollouts.rh_hosts r)
  | Err _ => False
  end.
Proof.
  intros answer.
  pose proof (rollout_hosts_spec (O := list_order) (O' := list_order) (C := fun n => Z.of_nat n)
    twowaves.1 twowaves.2 "stable@abc" (cp_run_reachable (O := list_order) (C := fun n => Z.of_nat n) _)
    eq_refl) as [_ H].
  fold answer in H. destruct answer as [r|s] eqn:E; [|vm_compute in E; discriminate E].
  split; [vm_compute in E; injection E as <-; reflexivity | apply H].
Defined.

(** ** The layers of the router *)

(** A revoked certificate reaches no data.  Once a verified list with a later date
    for the machine has been applied, a request under its certificate, for
    whatever route and with whatever header, comes through the layers at the
    health check and at enrolment only, and there without a name. *)
Theorem revoked_certificate_reaches_no_data {Cr : Crypto} {B : Base64} {P : Pki} (sv : Server)
    (strict : bool) (primed : Primed) (su : Surroundings) (st : IdentityState) (revs : Revocations)
    (now : DateTime) (header : option (option string)) (peer : PeerCertificates) (cn : string)
    (not_before : DateTime) (e : RevocationEntry) (route : Route) (who : option string) :
  sv_has_db sv = true -> su_revocations_fail su = false ->
  leaf_cn peer = Some cn -> leaf_not_before peer = Some not_before ->
  last_entry (extract_machine_id cn (sv_agent_cn_suffix sv)) (revs_revocations revs) = Some e ->
  (not_before < rv_not_before e)%Z ->
  guard sv strict primed su (apply_verified_revocations (fun _ => false) false now revs st) header peer
    route = Ok who ->
  (route = Healthz \/ route = EnrollRoute) /\ who = None.
Proof.
  intros Hdb Hf Hcn Hnb He Hlt. unfold guard.
  rewrite (require_cn_listed sv su st revs now peer cn not_before) by done.
  rewrite He, (proj2 (Z.ltb_lt _ _) Hlt).
  destruct (require_ready_layer primed), (protocol_version_middleware strict header), route; simpl;
    intros [=]; auto.
Qed.

Lemma revoked_certificate_reaches_no_data_witness :
  let revs := MkRevocations 1 [MkRevocationEntry "web-1" (duration_minutes 10) None None]
                (MkMeta 1 (Some 0%Z) None None) in
  let through route :=
    guard (P := enrol_pki) enrol_server false (MkPrimed true true true true true) (at_minute 6)
      (apply_verified_revocations (fun _ => false) false (duration_minutes 6) revs enrolled) None
      ["agent-web-1.fleet"] route in
  through Whoami = Err UNAUTHORIZED /\ through EnrollRoute = Ok None /\
  (EnrollRoute = Healthz \/ EnrollRoute = EnrollRoute).
Proof.
  intros revs through. split; [by vm_compute|]. split; [by vm_compute|].
  apply (revoked_certificate_reaches_no_data (B := letters_base64) (P := enrol_pki) enrol_server false
    (MkPrimed true true true true true) (at_minute 6) enrolled revs (duration_minutes 6) None
    ["agent-web-1.fleet"] "agent-web-1.fleet" (duration_minutes 5)
    (MkRevocationEntry "web-1" (duration_minutes 10) None None) EnrollRoute None);
    vm_compute; reflexivity.
Defined.
