(* ===== verification/CpLog.v ===== *)
(** * The event log as it is stored

    [CpStore] keeps an entry of the log as the value it carries.  Here is the
    row: the JSON document the applier builds for each payload
    ([runtime/applier.rs]), the columns it is stored in and read back from
    ([db/event_log.rs]), and the projection of the gate decisions that reads the
    documents again ([server/routes/deferrals.rs]).

    The text of a JSON value is [serde_json]'s and the text of a time is
    [chrono]'s ([TimeText]).  The last section is the reader a replay of the log
    needs: it is not in the program, and the theorems of [CpLogProps] say that it
    gives back every entry. *)

From S2P Require Import Prelude Proto HostTypes RolloutMachine Gates CpStore CpRuntime Issuance Enrollment CpRoutes CpServe.
Import rollouts status.

(** ** JSON values *)

Module Json.
#[local] Set Warnings "-register-all".
Inductive t :=
| Null
| Bool (b : bool)
| Number (n : Z)
| Str (s : string)
| Arr (l : list t)
| Obj (m : gmap string t).

(** [Value::get], [Value::as_str]. *)
Definition get (k : string) (v : t) : option t :=
  match v with Obj m => m !! k | _ => None end.
Definition as_str (v : t) : option string :=
  match v with Str s => Some s | _ => None end.

Definition obj (fields : list (string * t)) : t := Obj (list_to_map fields).
End Json.
Abbreviation Json := Json.t.

(** What [json!] makes of an expression. *)
Class Serialize (A : Type) := to_value : A -> Json.

#[export] Instance json_serialize : Serialize Json := fun v => v.
#[export] Instance string_serialize : Serialize string := Json.Str.
#[export] Instance number_serialize : Serialize Z := Json.Number.
#[export] Instance option_serialize `{Serialize A} : Serialize (option A) := fun o =>
  match o with None => Json.Null | Some a => to_value a end.
#[export] Instance list_serialize `{Serialize A} : Serialize (list A) := fun l =>
  Json.Arr (to_value <$> l).
(** [#[serde(transparent)]]. *)
#[export] Instance rollout_id_serialize : Serialize RolloutId := fun r => Json.Str (rid_raw r).

(** A field of a [json!] object. *)
Notation "k ~> v" := (k%string, to_value v) (at level 60) : nixfleet_scope.

(** [DateTime::to_rfc3339] and [DateTime::parse_from_rfc3339]. *)
Class TimeText := {
  to_rfc3339 : DateTime -> string;
  parse_from_rfc3339 : string -> option DateTime;
}.

(** ** The documents *)

Definition host_state_str (s : HostState) : string :=
  match s with
  | HostState.Pending => "Pending"
  | HostState.Activating => "Activating"
  | HostState.Deferred => "Deferred"
  | HostState.Soaking => "Soaking"
  | HostState.Converged => "Converged"
  | HostState.Failed => "Failed"
  | HostState.Reverted => "Reverted"
  end.

Definition probe_status_str (s : ProbeStatus) : string :=
  match s with ProbeStatus.Pass => "pass" | ProbeStatus.Fail => "fail" end.

Definition probe_mode_str (m : ProbeMode) : string :=
  match m with
  | ProbeMode.Enforce => "enforce"
  | ProbeMode.Observe => "observe"
  | ProbeMode.Disabled => "disabled"
  end.

(** [Display] of [OnHealthFailure]. *)
Definition policy_display (p : OnHealthFailure) : string :=
  match p with
  | OnHealthFailure.Halt => "halt"
  | OnHealthFailure.RollbackAndHalt => "rollback-and-halt"
  end.

Section documents.
Context {T : TimeText}.

Definition rollout_event_to_json (event : RolloutEvent) : Json :=
  match event with
  | RolloutEvent.RolloutOpened rollout_id channel target_ref at_ => Json.obj
      ["kind" ~> "RolloutOpened"; "rolloutId" ~> rollout_id; "channel" ~> channel;
       "targetRef" ~> target_ref; "at" ~> to_rfc3339 at_]
  | RolloutEvent.HostJoined rollout_id host_id wave at_ => Json.obj
      ["kind" ~> "HostJoined"; "rolloutId" ~> rollout_id; "hostId" ~> host_id; "wave" ~> wave;
       "at" ~> to_rfc3339 at_]
  | RolloutEvent.HostStateChanged rollout_id host_id from to at_ => Json.obj
      ["kind" ~> "HostStateChanged"; "rolloutId" ~> rollout_id; "hostId" ~> host_id;
       "from" ~> host_state_str from; "to" ~> host_state_str to; "at" ~> to_rfc3339 at_]
  | RolloutEvent.WaveAdvanced rollout_id from_wave to_wave at_ => Json.obj
      ["kind" ~> "WaveAdvanced"; "rolloutId" ~> rollout_id; "fromWave" ~> from_wave;
       "toWave" ~> to_wave; "at" ~> to_rfc3339 at_]
  | RolloutEvent.RolloutTerminal rollout_id at_ => Json.obj
      ["kind" ~> "RolloutTerminal"; "rolloutId" ~> rollout_id; "at" ~> to_rfc3339 at_]
  | RolloutEvent.SuccessorOpened superseded_rollout_id successor_rollout_id at_ => Json.obj
      ["kind" ~> "SuccessorOpened"; "supersededRolloutId" ~> superseded_rollout_id;
       "successorRolloutId" ~> successor_rollout_id; "at" ~> to_rfc3339 at_]
  | RolloutEvent.RetentionExpired rollout_id at_ => Json.obj
      ["kind" ~> "RetentionExpired"; "rolloutId" ~> rollout_id; "at" ~> to_rfc3339 at_]
  | RolloutEvent.OperatorClearance rollout_id operator reason at_ => Json.obj
      ["kind" ~> "OperatorClearance"; "rolloutId" ~> rollout_id; "operator" ~> operator;
       "reason" ~> reason; "at" ~> to_rfc3339 at_]
  end.

Definition probe_entry_to_json (e : ProbeTopologyEntry) : Json := Json.obj
  ["probeName" ~> pte_probe_name e; "kind" ~> pte_kind e; "mode" ~> probe_mode_str (pte_mode e)].

Definition sub_result_to_json (sr : ProbeSubResult) : Json := Json.obj
  ["controlId" ~> psr_control_id sr; "status" ~> probe_status_str (psr_status sr);
   "framework" ~> psr_framework sr; "article" ~> psr_article sr;
   "effectiveMode" ~> probe_mode_str (psr_effective_mode sr);
   "overrideReason" ~> psr_override_reason sr].

Definition outbound_event_to_json (payload : OutboundAgentEvent) : Json :=
  match payload with
  | OutboundAgentEvent.DispatchAck current_closure_at_dispatch received_at seq => Json.obj
      ["kind" ~> "DispatchAck"; "currentClosureAtDispatch" ~> current_closure_at_dispatch;
       "receivedAt" ~> to_rfc3339 received_at; "seq" ~> seq]
  | OutboundAgentEvent.ActivationStarted started_at switch_method seq => Json.obj
      ["kind" ~> "ActivationStarted"; "startedAt" ~> to_rfc3339 started_at;
       "switchMethod" ~> switch_method; "seq" ~> seq]
  | OutboundAgentEvent.ActivationCompleted observed_current_closure exit_code completed_at seq =>
      Json.obj
      ["kind" ~> "ActivationCompleted"; "observedCurrentClosure" ~> observed_current_closure;
       "exitCode" ~> exit_code; "completedAt" ~> to_rfc3339 completed_at; "seq" ~> seq]
  | OutboundAgentEvent.ActivationFailed exit_code stderr_tail failed_at seq => Json.obj
      ["kind" ~> "ActivationFailed"; "exitCode" ~> exit_code; "stderrTail" ~> stderr_tail;
       "failedAt" ~> to_rfc3339 failed_at; "seq" ~> seq]
  | OutboundAgentEvent.ActivationDeferred component deferred_at seq => Json.obj
      ["kind" ~> "ActivationDeferred"; "component" ~> component;
       "deferredAt" ~> to_rfc3339 deferred_at; "seq" ~> seq]
  | OutboundAgentEvent.ProbeTopologyDeclared probes declared_at seq => Json.obj
      ["kind" ~> "ProbeTopologyDeclared"; "probes" ~> (probe_entry_to_json <$> probes);
       "declaredAt" ~> to_rfc3339 declared_at; "seq" ~> seq]
  | OutboundAgentEvent.ProbeObservedFirst probe_name mode observed_at seq => Json.obj
      ["kind" ~> "ProbeObservedFirst"; "probeName" ~> probe_name; "mode" ~> probe_mode_str mode;
       "observedAt" ~> to_rfc3339 observed_at; "seq" ~> seq]
  | OutboundAgentEvent.ProbeResult probe_name mode status observed_at failure_reason sub_results seq =>
      Json.obj
      ["kind" ~> "ProbeResult"; "probeName" ~> probe_name; "mode" ~> probe_mode_str mode;
       "status" ~> probe_status_str status; "observedAt" ~> to_rfc3339 observed_at;
       "failureReason" ~> failure_reason;
       "subResults" ~> (fmap (M := list) sub_result_to_json <$> sub_results);
       "seq" ~> seq]
  | OutboundAgentEvent.ProbeFailureFirst probe_name mode first_failed_at seq => Json.obj
      ["kind" ~> "ProbeFailureFirst"; "probeName" ~> probe_name; "mode" ~> probe_mode_str mode;
       "firstFailedAt" ~> to_rfc3339 first_failed_at; "seq" ~> seq]
  | OutboundAgentEvent.Failed failed_at sustained_duration_secs failing_probes policy_applied seq =>
      Json.obj
      ["kind" ~> "Failed"; "failedAt" ~> to_rfc3339 failed_at;
       "sustainedDurationSecs" ~> sustained_duration_secs; "failingProbes" ~> failing_probes;
       "policyApplied" ~> policy_display policy_applied; "seq" ~> seq]
  | OutboundAgentEvent.RollbackComplete reverted_to_closure exit_code completed_at seq => Json.obj
      ["kind" ~> "RollbackComplete"; "revertedToClosure" ~> reverted_to_closure;
       "exitCode" ~> exit_code; "completedAt" ~> to_rfc3339 completed_at; "seq" ~> seq]
  | OutboundAgentEvent.Converged converged_at current_closure seq => Json.obj
      ["kind" ~> "Converged"; "convergedAt" ~> to_rfc3339 converged_at;
       "currentClosure" ~> current_closure; "seq" ~> seq]
  end.

(** The documents of the applier's own entries. *)
Definition transition_json (host : string) (rollout_id : RolloutId) (from to : HostState)
    (at_ : DateTime) : Json := Json.obj
  ["effect" ~> "RecordTransition"; "host" ~> host; "rollout_id" ~> rollout_id;
   "from" ~> host_state_str from; "to" ~> host_state_str to; "at" ~> to_rfc3339 at_].

Definition rollout_transition_json (rollout_id : RolloutId) (from to : RolloutState)
    (at_ : DateTime) : Json := Json.obj
  ["effect" ~> "RecordRolloutTransition"; "rolloutId" ~> rollout_id;
   "from" ~> RolloutState.as_db_str from; "to" ~> RolloutState.as_db_str to;
   "at" ~> to_rfc3339 at_].

Definition quarantine_json (channel closure : string) : Json := Json.obj
  ["effect" ~> "RemoteInsertQuarantine"; "channel" ~> channel; "closure" ~> closure].

Definition open_record_json (rollout_id : RolloutId) (channel host : string) : Json := Json.obj
  ["effect" ~> "RemoteOpenRolloutRecord"; "rollout_id" ~> rollout_id; "channel" ~> channel;
   "host" ~> host].

Definition open_rollout_json (rollout_id : RolloutId) (channel target_ref : string)
    (hosts : list string) : Json := Json.obj
  ["action" ~> "OpenRollout"; "rollout_id" ~> rollout_id; "channel" ~> channel;
   "target_ref" ~> target_ref; "hosts" ~> hosts].

Definition queue_dispatch_json (host : string) (rollout : RolloutId) (target_closure : string)
    (soak_due_at : DateTime) : Json := Json.obj
  ["action" ~> "QueueDispatch"; "host" ~> host; "rollout" ~> rollout;
   "target_closure" ~> target_closure; "soak_due_at" ~> to_rfc3339 soak_due_at].

Definition halt_lifted_json (channel : string) : Json := Json.obj
  ["action" ~> "RecordHaltLifted"; "channel" ~> channel].

Definition deferral_json (gate reason host : string) (rollout : RolloutId) : Json := Json.obj
  ["gate" ~> gate; "reason" ~> reason; "host" ~> host; "rollout" ~> rollout].

(** The document of an entry. *)
Definition payload_json (p : LogPayload.t) : Json :=
  match p with
  | LogPayload.Agent payload => outbound_event_to_json payload
  | LogPayload.Rollout event => rollout_event_to_json event
  | LogPayload.Transition host rollout_id from to at_ => transition_json host rollout_id from to at_
  | LogPayload.RolloutTransition rollout_id from to at_ =>
      rollout_transition_json rollout_id from to at_
  | LogPayload.Quarantine channel closure => quarantine_json channel closure
  | LogPayload.OpenRecord rollout_id channel host => open_record_json rollout_id channel host
  | LogPayload.OpenRollout rollout_id channel target_ref hosts =>
      open_rollout_json rollout_id channel target_ref hosts
  | LogPayload.QueueDispatch host rollout target_closure soak_due_at =>
      queue_dispatch_json host rollout target_closure soak_due_at
  | LogPayload.HaltLifted channel => halt_lifted_json channel
  | LogPayload.Deferral gate reason host rollout => deferral_json gate reason host rollout
  end.

(** ** The rows of [event_log] *)

Record StoredRow := MkStoredRow {
  sr_seq : i64;
  sr_ts : string;
  sr_kind : string;
  sr_host_id : option string;
  sr_rollout_id : option string;
  sr_payload : Json;
}.

(** The [INSERT]: the sequence number is the next one, since rows are only
    appended.  The check that the payload is JSON passes: it is the text of a
    value. *)
Definition append (entry : EventLogEntry) (t : list StoredRow) : list StoredRow * i64 :=
  let seq := (Z.of_nat (length t) + 1)%Z in
  (t ++ [MkStoredRow seq (to_rfc3339 (le_ts entry)) (EventLogKind.as_db_str (le_kind entry))
           (le_host_id entry) (rid_raw <$> le_rollout_id entry) (payload_json (le_payload entry))],
   seq).

Definition append_all (log : list EventLogEntry) (t : list StoredRow) : list StoredRow :=
  fold_left (fun t e => (append e t).1) log t.

(** [SELECT MAX(seq)], or 0. *)
Definition last_seq (t : list StoredRow) : i64 := foldr Z.max 0%Z (sr_seq <$> t).

Record ReadRow := MkReadRow {
  rw_seq : i64;
  rw_ts : DateTime;
  rw_kind : string;
  rw_host_id : option string;
  rw_rollout_id : option string;
  rw_payload : Json;
}.

Definition row_to_entry (r : StoredRow) : result ReadRow string :=
  match parse_from_rfc3339 (sr_ts r) with
  | None => Err "parse ts"
  | Some ts => Ok (MkReadRow (sr_seq r) ts (sr_kind r) (sr_host_id r) (sr_rollout_id r) (sr_payload r))
  end.

(** [for r in rows { out.push(r?) }]. *)
Fixpoint read_rows (rows : list StoredRow) : result (list ReadRow) string :=
  match rows with
  | [] => Ok []
  | r :: rows =>
      let? x := row_to_entry r in
      let? out := read_rows rows in
      Ok (x :: out)
  end.

Definition query_by_host (host_id : string) (limit : i64) (t : list StoredRow)
    : result (list ReadRow) string :=
  read_rows (sql_limit limit (filter (fun r => sr_host_id r = Some host_id) t)).

Definition query_by_rollout (rollout_id : string) (limit : i64) (t : list StoredRow)
    : result (list ReadRow) string :=
  read_rows (sql_limit limit (filter (fun r => sr_rollout_id r = Some rollout_id) t)).

Definition query_by_kind (kind : EventLogKind.t) (limit : i64) (t : list StoredRow)
    : result (list ReadRow) string :=
  read_rows (sql_limit limit (filter (fun r => sr_kind r = EventLogKind.as_db_str kind) t)).

(** ** [routes/deferrals.rs], over the rows *)

(** [payload.get(k).and_then(Value::as_str).unwrap_or(d)]. *)
Definition str_field (d k : string) (payload : Json) : string :=
  default d (Json.get k payload ≫= Json.as_str).

(** The key of a row, and the entry of the response it gives if it is the first. *)
Definition decision_of_row (row : ReadRow) : option deferrals.Deferral :=
  let payload := rw_payload row in
  let host := str_field "" "host" payload in
  let rollout := str_field "" "rollout" payload in
  if bool_decide (host = "") || bool_decide (rollout = "") then None
  else
    let gate := str_field "unknown" "gate" payload in
    let reason := str_field "" "reason" payload in
    Some (deferrals.MkDeferral host rollout gate reason (rw_ts row)).

Fixpoint dedup_rows (seen : gset (string * string)) (rows : list ReadRow)
    : list deferrals.Deferral :=
  match rows with
  | [] => []
  | row :: rows =>
      match decision_of_row row with
      | None => dedup_rows seen rows
      | Some d =>
          let key := (deferrals.df_host d, deferrals.df_rollout d) in
          if bool_decide (key ∈ seen) then dedup_rows seen rows
          else d :: dedup_rows ({[ key ]} ∪ seen) rows
      end
  end.

Definition project_deferrals (db : option (list StoredRow)) : result (list deferrals.Deferral) Status :=
  match db with
  | None => Ok []
  | Some t =>
      match query_by_kind EventLogKind.GateDecision deferrals.SCAN_LIMIT t with
      | Ok rows => Ok (dedup_rows ∅ (reverse rows))
      | Err _ => Err INTERNAL_SERVER_ERROR
      end
  end.

End documents.
