(* ===== verification/CpLogProps.v ===== *)
(** * The stored log reads back

    A reader of the rows of [CpLog] — the one a replay of the log needs — and
    the proofs that it gives back every entry the control plane writes: each
    document determines its event, the columns are those of the document, and
    the deferrals the server projects from the documents are those of the
    entries. *)

From S2P Require Import Prelude Proto HostTypes HostTransitions HostProps RolloutMachine.
From S2P Require Import RolloutProps Gates Planner PlannerProps CpStore CpStoreProps CpRuntime.
From S2P Require Import CpApplierProps CpRuntimeProps CpSafety CpHistory.
From S2P Require Import Issuance Enrollment CpRoutes CpServe CpServeProps CpLog.
From Stdlib Require DecimalString DecimalPos DecimalZ.
Import Applier Reducer.

(** ** Reading values *)

Class Deserialize (A : Type) := from_value : Json -> option A.
Class Reads (A : Type) `{Serialize A, Deserialize A} :=
  from_to_value : forall a : A, from_value (to_value a) = Some a.

#[export] Instance string_deserialize : Deserialize string := Json.as_str.
#[export] Instance number_deserialize : Deserialize Z := fun v =>
  match v with Json.Number n => Some n | _ => None end.
#[export] Instance rollout_id_deserialize : Deserialize RolloutId := fun v =>
  MkRolloutId <$> Json.as_str v.
#[export] Instance option_string_deserialize : Deserialize (option string) := fun v =>
  match v with Json.Null => Some None | v => Some <$> Json.as_str v end.
#[export] Instance list_deserialize `{Deserialize A} : Deserialize (list A) := fun v =>
  match v with Json.Arr l => mapM from_value l | _ => None end.

#[export] Instance string_reads : Reads string.
Proof. done. Qed.
#[export] Instance number_reads : Reads Z.
Proof. done. Qed.
#[export] Instance rollout_id_reads : Reads RolloutId.
Proof. by intros []. Qed.
#[export] Instance option_string_reads : Reads (option string).
Proof. by intros []. Qed.

#[export] Instance list_reads `{Reads A} : Reads (list A).
Proof. intros l. apply mapM_fmap_Some, from_to_value. Qed.

(** A name of an enumeration, by its members. *)
Definition named {A} (members : list A) (name : A -> string) (s : string) : option A :=
  List.find (fun a => bool_decide (name a = s)) members.

Definition host_state_of : string -> option HostState :=
  named [HostState.Pending; HostState.Activating; HostState.Deferred; HostState.Soaking;
         HostState.Converged; HostState.Failed; HostState.Reverted] host_state_str.
Definition probe_status_of : string -> option ProbeStatus :=
  named [ProbeStatus.Pass; ProbeStatus.Fail] probe_status_str.
Definition probe_mode_of : string -> option ProbeMode :=
  named [ProbeMode.Enforce; ProbeMode.Observe; ProbeMode.Disabled] probe_mode_str.
Definition policy_of : string -> option OnHealthFailure :=
  named [OnHealthFailure.Halt; OnHealthFailure.RollbackAndHalt] policy_display.

Lemma host_state_of_str s : host_state_of (host_state_str s) = Some s.
Proof. by destruct s. Qed.
Lemma probe_status_of_str s : probe_status_of (probe_status_str s) = Some s.
Proof. by destruct s. Qed.
Lemma probe_mode_of_str m : probe_mode_of (probe_mode_str m) = Some m.
Proof. by destruct m. Qed.
Lemma policy_of_display p : policy_of (policy_display p) = Some p.
Proof. by destruct p. Qed.
Lemma rollout_state_of_db_str s : RolloutState.from_db_str (RolloutState.as_db_str s) = Some s.
Proof. by destruct s. Qed.

(** A field of an object. *)
Definition field {A} `{Deserialize A} (k : string) (v : Json) : option A :=
  Json.get k v ≫= from_value.
Definition named_field {A} (parse : string -> option A) (k : string) (v : Json) : option A :=
  field k v ≫= parse.

Lemma get_here k v fs : Json.get k (Json.obj ((k, v) :: fs)) = Some v.
Proof. apply lookup_insert_eq. Qed.
Lemma get_there k k' v fs : k <> k' -> Json.get k (Json.obj ((k', v) :: fs)) = Json.get k (Json.obj fs).
Proof. intros H. by apply lookup_insert_ne. Qed.

Class TimeReads `{TimeText} :=
  parse_to_rfc3339 : forall t, representable t -> parse_from_rfc3339 (to_rfc3339 t) = Some t.

Section reader.
Context {T : TimeText}.

Definition time_field (k : string) (v : Json) : option DateTime := named_field parse_from_rfc3339 k v.

Definition read_probe_entry (v : Json) : option ProbeTopologyEntry :=
  name ← field "probeName" v; kind ← field "kind" v; mode ← named_field probe_mode_of "mode" v;
  Some (MkProbeTopologyEntry name kind mode).

Definition read_sub_result (v : Json) : option ProbeSubResult :=
  control ← field "controlId" v; status ← named_field probe_status_of "status" v;
  framework ← field "framework" v; article ← field "article" v;
  mode ← named_field probe_mode_of "effectiveMode" v; reason ← field "overrideReason" v;
  Some (MkProbeSubResult control status framework article mode reason).

Definition list_field {A} (r : Json -> option A) (k : string) (v : Json) : option (list A) :=
  l ← Json.get k v; match l with Json.Arr l => mapM r l | _ => None end.

Definition optional_list_field {A} (r : Json -> option A) (k : string) (v : Json)
    : option (option (list A)) :=
  l ← Json.get k v;
  match l with Json.Null => Some None | Json.Arr l => Some <$> mapM r l | _ => None end.

(** The readers of the agent events, by the name in [kind]. *)
Definition agent_readers : list (string * (Json -> option OutboundAgentEvent)) := [
  ("DispatchAck", fun v =>
     c ← field "currentClosureAtDispatch" v; t ← time_field "receivedAt" v; n ← field "seq" v;
     Some (OutboundAgentEvent.DispatchAck c t n));
  ("ActivationStarted", fun v =>
     t ← time_field "startedAt" v; m ← field "switchMethod" v; n ← field "seq" v;
     Some (OutboundAgentEvent.ActivationStarted t m n));
  ("ActivationCompleted", fun v =>
     c ← field "observedCurrentClosure" v; x ← field "exitCode" v; t ← time_field "completedAt" v;
     n ← field "seq" v; Some (OutboundAgentEvent.ActivationCompleted c x t n));
  ("ActivationFailed", fun v =>
     x ← field "exitCode" v; e ← field "stderrTail" v; t ← time_field "failedAt" v;
     n ← field "seq" v; Some (OutboundAgentEvent.ActivationFailed x e t n));
  ("ActivationDeferred", fun v =>
     c ← field "component" v; t ← time_field "deferredAt" v; n ← field "seq" v;
     Some (OutboundAgentEvent.ActivationDeferred c t n));
  ("ProbeTopologyDeclared", fun v =>
     p ← list_field read_probe_entry "probes" v; t ← time_field "declaredAt" v; n ← field "seq" v;
     Some (OutboundAgentEvent.ProbeTopologyDeclared p t n));
  ("ProbeObservedFirst", fun v =>
     p ← field "probeName" v; m ← named_field probe_mode_of "mode" v; t ← time_field "observedAt" v;
     n ← field "seq" v; Some (OutboundAgentEvent.ProbeObservedFirst p m t n));
  ("ProbeResult", fun v =>
     p ← field "probeName" v; m ← named_field probe_mode_of "mode" v;
     s ← named_field probe_status_of "status" v; t ← time_field "observedAt" v;
     r ← field "failureReason" v; rs ← optional_list_field read_sub_result "subResults" v;
     n ← field "seq" v; Some (OutboundAgentEvent.ProbeResult p m s t r rs n));
  ("ProbeFailureFirst", fun v =>
     p ← field "probeName" v; m ← named_field probe_mode_of "mode" v;
     t ← time_field "firstFailedAt" v; n ← field "seq" v;
     Some (OutboundAgentEvent.ProbeFailureFirst p m t n));
  ("Failed", fun v =>
     t ← time_field "failedAt" v; d ← field "sustainedDurationSecs" v; p ← field "failingProbes" v;
     o ← named_field policy_of "policyApplied" v; n ← field "seq" v;
     Some (OutboundAgentEvent.Failed t d p o n));
  ("RollbackComplete", fun v =>
     c ← field "revertedToClosure" v; x ← field "exitCode" v; t ← time_field "completedAt" v;
     n ← field "seq" v; Some (OutboundAgentEvent.RollbackComplete c x t n));
  ("Converged", fun v =>
     t ← time_field "convergedAt" v; c ← field "currentClosure" v; n ← field "seq" v;
     Some (OutboundAgentEvent.Converged t c n)) ]%string.

Definition rollout_readers : list (string * (Json -> option RolloutEvent)) := [
  ("RolloutOpened", fun v =>
     r ← field "rolloutId" v; c ← field "channel" v; f ← field "targetRef" v; t ← time_field "at" v;
     Some (RolloutEvent.RolloutOpened r c f t));
  ("HostJoined", fun v =>
     r ← field "rolloutId" v; h ← field "hostId" v; w ← field "wave" v; t ← time_field "at" v;
     Some (RolloutEvent.HostJoined r h w t));
  ("HostStateChanged", fun v =>
     r ← field "rolloutId" v; h ← field "hostId" v; a ← named_field host_state_of "from" v;
     b ← named_field host_state_of "to" v; t ← time_field "at" v;
     Some (RolloutEvent.HostStateChanged r h a b t));
  ("WaveAdvanced", fun v =>
     r ← field "rolloutId" v; a ← field "fromWave" v; b ← field "toWave" v; t ← time_field "at" v;
     Some (RolloutEvent.WaveAdvanced r a b t));
  ("RolloutTerminal", fun v =>
     r ← field "rolloutId" v; t ← time_field "at" v; Some (RolloutEvent.RolloutTerminal r t));
  ("SuccessorOpened", fun v =>
     r ← field "supersededRolloutId" v; s ← field "successorRolloutId" v; t ← time_field "at" v;
     Some (RolloutEvent.SuccessorOpened r s t));
  ("RetentionExpired", fun v =>
     r ← field "rolloutId" v; t ← time_field "at" v; Some (RolloutEvent.RetentionExpired r t));
  ("OperatorClearance", fun v =>
     r ← field "rolloutId" v; o ← field "operator" v; x ← field "reason" v; t ← time_field "at" v;
     Some (RolloutEvent.OperatorClearance r o x t)) ]%string.

Definition effect_readers : list (string * (Json -> option LogPayload.t)) := [
  ("RecordTransition", fun v =>
     h ← field "host" v; r ← field "rollout_id" v; a ← named_field host_state_of "from" v;
     b ← named_field host_state_of "to" v; t ← time_field "at" v;
     Some (LogPayload.Transition h r a b t));
  ("RecordRolloutTransition", fun v =>
     r ← field "rolloutId" v; a ← named_field RolloutState.from_db_str "from" v;
     b ← named_field RolloutState.from_db_str "to" v; t ← time_field "at" v;
     Some (LogPayload.RolloutTransition r a b t));
  ("RemoteInsertQuarantine", fun v =>
     c ← field "channel" v; x ← field "closure" v; Some (LogPayload.Quarantine c x));
  ("RemoteOpenRolloutRecord", fun v =>
     r ← field "rollout_id" v; c ← field "channel" v; h ← field "host" v;
     Some (LogPayload.OpenRecord r c h)) ]%string.

Definition action_readers : list (string * (Json -> option LogPayload.t)) := [
  ("OpenRollout", fun v =>
     r ← field "rollout_id" v; c ← field "channel" v; f ← field "target_ref" v; hs ← field "hosts" v;
     Some (LogPayload.OpenRollout r c f hs));
  ("QueueDispatch", fun v =>
     h ← field "host" v; r ← field "rollout" v; c ← field "target_closure" v;
     t ← time_field "soak_due_at" v; Some (LogPayload.QueueDispatch h r c t));
  ("RecordHaltLifted", fun v => c ← field "channel" v; Some (LogPayload.HaltLifted c)) ]%string.

(** A document whose shape a field names. *)
Definition read_by {A} (k : string) (readers : list (string * (Json -> option A))) (v : Json)
    : option A :=
  name ← field k v;
  r ← snd <$> List.find (fun x => bool_decide (x.1 = name)) readers;
  r v.

(** The columns and the document of a row. *)
Definition read_payload (kind : string) (v : Json) : option LogPayload.t :=
  let tagged k := bool_decide (kind = EventLogKind.as_db_str k) in
  if tagged EventLogKind.AgentEvent then LogPayload.Agent <$> read_by "kind" agent_readers v
  else if tagged EventLogKind.RolloutEvent then LogPayload.Rollout <$> read_by "kind" rollout_readers v
  else if tagged EventLogKind.Effect then read_by "effect" effect_readers v
  else if tagged EventLogKind.PlanAction then read_by "action" action_readers v
  else if tagged EventLogKind.GateDecision then
    g ← field "gate" v; x ← field "reason" v; h ← field "host" v; r ← field "rollout" v;
    Some (LogPayload.Deferral g x h r)
  else None.

Definition kind_of : string -> option EventLogKind.t :=
  named [EventLogKind.AgentEvent; EventLogKind.PlanAction; EventLogKind.Effect;
         EventLogKind.GateDecision; EventLogKind.VerifyOutcome; EventLogKind.ManifestPoll;
         EventLogKind.RolloutEvent] EventLogKind.as_db_str.

Definition entry_of_row (r : ReadRow) : option EventLogEntry :=
  kind ← kind_of (rw_kind r); payload ← read_payload (rw_kind r) (rw_payload r);
  Some (MkEventLogEntry kind (rw_ts r) (rw_host_id r) (MkRolloutId <$> rw_rollout_id r) payload).

End reader.

(** ** The documents read back *)

(** The time of an agent event. *)
Definition outbound_time (p : OutboundAgentEvent) : DateTime :=
  match p with
  | OutboundAgentEvent.DispatchAck _ t _
  | OutboundAgentEvent.ActivationStarted t _ _
  | OutboundAgentEvent.ActivationCompleted _ _ t _
  | OutboundAgentEvent.ActivationFailed _ _ t _
  | OutboundAgentEvent.ActivationDeferred _ t _
  | OutboundAgentEvent.ProbeTopologyDeclared _ t _
  | OutboundAgentEvent.ProbeObservedFirst _ _ t _
  | OutboundAgentEvent.ProbeResult _ _ _ t _ _ _
  | OutboundAgentEvent.ProbeFailureFirst _ _ t _
  | OutboundAgentEvent.Failed t _ _ _ _
  | OutboundAgentEvent.RollbackComplete _ _ t _
  | OutboundAgentEvent.Converged t _ _ => t
  end.

Definition payload_time (p : LogPayload.t) : option DateTime :=
  match p with
  | LogPayload.Agent p => Some (outbound_time p)
  | LogPayload.Rollout e => Some (event_at e)
  | LogPayload.Transition _ _ _ _ t | LogPayload.RolloutTransition _ _ _ t
  | LogPayload.QueueDispatch _ _ _ t => Some t
  | _ => None
  end.

(** Its times are among those the text keeps. *)
Definition entry_times (e : EventLogEntry) : Prop :=
  representable (le_ts e) /\ from_option representable True (payload_time (le_payload e)).
#[export] Instance entry_times_dec e : Decision (entry_times e).
Proof. unfold entry_times, representable. destruct (payload_time _); simpl; apply _. Defined.

(** One field after the other of a document. *)
Ltac read_fields :=
  cbn [mbind option_bind snd fst fmap option_fmap option_map List.find];
  repeat first
    [ progress cbn [mbind option_bind snd fst fmap option_fmap option_map List.find]
    | rewrite get_here | rewrite get_there by done
    | rewrite bool_decide_eq_true_2 by done | rewrite bool_decide_eq_false_2 by done
    | rewrite from_to_value
    | rewrite host_state_of_str | rewrite probe_status_of_str | rewrite probe_mode_of_str
    | rewrite policy_of_display | rewrite rollout_state_of_db_str
    | rewrite parse_to_rfc3339 by done ].

Section documents.
Context {T : TimeText} {Tr : TimeReads}.

Lemma read_probe_entry_document e : read_probe_entry (probe_entry_to_json e) = Some e.
Proof.
  destruct e. unfold read_probe_entry, probe_entry_to_json, named_field, field. by read_fields.
Qed.

Lemma read_sub_result_document sr : read_sub_result (sub_result_to_json sr) = Some sr.
Proof.
  destruct sr. unfold read_sub_result, sub_result_to_json, named_field, field. by read_fields.
Qed.

Lemma list_field_document {A} (r : Json -> option A) (f : A -> Json) k v l :
  (forall a, r (f a) = Some a) -> Json.get k v = Some (to_value (f <$> l)) ->
  list_field r k v = Some l.
Proof.
  intros Hf Hg. unfold list_field. rewrite Hg. cbn. rewrite list_fmap_id. by apply mapM_fmap_Some.
Qed.

Lemma optional_list_field_document {A} (r : Json -> option A) (f : A -> Json) k v o :
  (forall a, r (f a) = Some a) -> Json.get k v = Some (to_value (fmap (M := list) f <$> o)) ->
  optional_list_field r k v = Some o.
Proof.
  intros Hf Hg. unfold optional_list_field. rewrite Hg. destruct o as [l|]; [|done].
  cbn. rewrite list_fmap_id. by rewrite mapM_fmap_Some.
Qed.

Lemma read_agent_document p : representable (outbound_time p) ->
  read_by "kind" agent_readers (outbound_event_to_json p) = Some p.
Proof.
  intros Ht. unfold read_by, agent_readers, time_field, named_field, field.
  destruct p; simpl in Ht; cbn [outbound_event_to_json]; read_fields; try done.
  - erewrite (list_field_document _ probe_entry_to_json);
      [by read_fields | apply read_probe_entry_document | by read_fields].
  - erewrite (optional_list_field_document _ sub_result_to_json);
      [by read_fields | apply read_sub_result_document | by read_fields].
Qed.

Lemma read_rollout_document e : representable (event_at e) ->
  read_by "kind" rollout_readers (rollout_event_to_json e) = Some e.
Proof.
  intros Ht. unfold read_by, rollout_readers, time_field, named_field, field.
  destruct e; simpl in Ht; cbn [rollout_event_to_json]; by read_fields.
Qed.

(** The kind of row each payload is written in, with its columns. *)
Inductive columns : EventLogKind.t -> option string -> option RolloutId -> LogPayload.t -> Prop :=
| columns_agent h r p :
    columns EventLogKind.AgentEvent (Some h) (Some r) (LogPayload.Agent p)
| columns_rollout e :
    columns EventLogKind.RolloutEvent None (Some (rollout_event_rollout_id e)) (LogPayload.Rollout e)
| columns_transition h r a b t :
    columns EventLogKind.Effect (Some h) (Some r) (LogPayload.Transition h r a b t)
| columns_rollout_transition r a b t :
    columns EventLogKind.Effect None (Some r) (LogPayload.RolloutTransition r a b t)
| columns_quarantine c x : columns EventLogKind.Effect None None (LogPayload.Quarantine c x)
| columns_open_record r c h :
    columns EventLogKind.Effect (Some h) (Some r) (LogPayload.OpenRecord r c h)
| columns_open_rollout r c f hs :
    columns EventLogKind.PlanAction None (Some r) (LogPayload.OpenRollout r c f hs)
| columns_dispatch h r x t :
    columns EventLogKind.PlanAction (Some h) (Some r) (LogPayload.QueueDispatch h r x t)
| columns_halt c : columns EventLogKind.PlanAction None None (LogPayload.HaltLifted c)
| columns_deferral g x h r :
    columns EventLogKind.GateDecision (Some h) (Some r) (LogPayload.Deferral g x h r).

Definition in_columns (e : EventLogEntry) : Prop :=
  columns (le_kind e) (le_host_id e) (le_rollout_id e) (le_payload e).

Lemma read_payload_document k h r p : columns k h r p ->
  from_option representable True (payload_time p) ->
  read_payload (EventLogKind.as_db_str k) (payload_json p) = Some p.
Proof.
  intros Hc Ht. unfold read_payload.
  destruct Hc; cbn [payload_json EventLogKind.as_db_str]; read_fields; simpl in Ht;
    [by rewrite (read_agent_document p Ht) | by rewrite (read_rollout_document e Ht) |
     unfold transition_json, rollout_transition_json, quarantine_json, open_record_json,
       open_rollout_json, queue_dispatch_json, halt_lifted_json, deferral_json, read_by,
       effect_readers, action_readers, time_field, named_field, field; by read_fields..].
Qed.

End documents.

(** ** Every entry is in its columns *)

(** What an operation sends to the log is in its columns. *)
Definition writes (d d' : Db) : Prop :=
  exists more, db_log_sent d' = db_log_sent d ++ more /\ Forall in_columns more.

#[export] Instance writes_preorder : PreOrder writes.
Proof.
  split.
  - intros d. exists []. by rewrite app_nil_r.
  - intros d1 d2 d3 (m1 & L1 & C1) (m2 & L2 & C2). exists (m1 ++ m2).
    rewrite L2, L1, app_assoc. split; [done|]. by apply Forall_app_2.
Qed.

Lemma writes_append ts h r k p d : columns k h r p -> writes d (append_event_log ts h r k p d).
Proof. intros Hc. exists [MkEventLogEntry k ts h r p]. split; [done|]. by constructor. Qed.

Lemma writes_nothing d d' : db_log_sent d' = db_log_sent d -> writes d d'.
Proof. intros E. exists []. by rewrite app_nil_r. Qed.

Create HintDb columns.
#[local] Hint Constructors columns : columns.
#[local] Hint Resolve writes_append : columns.
#[local] Hint Extern 2 (writes _ _) => apply writes_nothing; reflexivity : columns.

Lemma fold_writes {A} (f : Db -> A -> Db) l d :
  (forall d x, writes d (f d x)) -> writes d (fold_left f l d).
Proof. intros Hf. by apply (fold_left_rel writes). Qed.

Lemma apply_rollout_effect_writes now d x : writes d (apply_rollout_effect now d x).
Proof.
  destruct x; cbn [apply_rollout_effect]; auto with columns.
  etrans; [|apply writes_append; constructor]. by apply writes_nothing.
Qed.

Lemma process_writes now e d : writes d (process_rollout_event now e d).
Proof.
  unfold process_rollout_event. destruct (Rollouts.state _ _) as [row|]; [|done].
  destruct (rollout.step _ _ _) as [[r effects]|]; [|auto with columns].
  etrans; [|apply fold_writes, apply_rollout_effect_writes]. apply writes_append. constructor.
Qed.

Lemma open_host_writes m now rid ch d hw : writes d (open_host m now rid ch d hw).
Proof. unfold open_host. etrans; [|apply process_writes]. by apply writes_nothing. Qed.

Lemma open_rollout_writes m now rid ch ref d : writes d (open_rollout m now rid ch ref d).
Proof.
  unfold open_rollout, append_rollout_event.
  match goal with |- writes _ (match _ with Some _ => _ | None => ?x end) => assert (H : writes d x) end.
  { etrans; [|apply fold_writes; intros; apply process_writes].
    etrans; [|apply writes_append, (columns_rollout (RolloutEvent.RolloutOpened rid ch ref now))].
    by apply writes_nothing. }
  destruct (inner <$> _) as [vm|]; [|exact H]. etrans; [exact H|].
  etrans; [|apply writes_append; constructor].
  apply fold_writes. intros. apply open_host_writes.
Qed.

Lemma queue_dispatch_writes now host rid target soak d :
  writes d (queue_dispatch now host rid target soak d).
Proof. unfold queue_dispatch. etrans; [|apply writes_append; constructor]. by apply writes_nothing. Qed.

Lemma apply_effect_at_writes m now x d : writes d (apply_effect_at m now x d).
Proof.
  destruct x; cbn [apply_effect_at]; auto with columns.
  - apply queue_dispatch_writes.
  - etrans; [|apply writes_append; constructor]. by apply writes_nothing.
  - unfold open_one_rollout_record. destruct (inner <$> _) as [vm|]; [|done].
    destruct (List.find _ _) as [hw|]; [|done]. etrans; [|apply writes_append; constructor]. by apply writes_nothing.
  - etrans; [apply writes_append; constructor|]. by apply writes_nothing.
Qed.

Section inputs.
Context {O : HashOrder} {C : Clock}.

Definition wwrites (w w' : World) : Prop := writes (w_db w) (w_db w').
#[local] Instance wwrites_preorder : PreOrder wwrites.
Proof. unfold wwrites. split; [by intros w | intros w1 w2 w3 ??; by etrans]. Qed.

Lemma fold_wwrites {A} (f : World -> A -> World) l w :
  (forall w x, wwrites w (f w x)) -> wwrites w (fold_left f l w).
Proof. intros Hf. by apply (fold_left_rel wwrites). Qed.

Lemma compose_rollout_writes now h rid from to d : writes d (compose_rollout now h rid from to d).
Proof.
  unfold compose_rollout. case_bool; [done|]. etrans; [apply process_writes|].
  case_match; [apply process_writes | done].
Qed.

Lemma handle_host_event_writes rs host rid e w : wwrites w (handle_host_event rs host rid e w).
Proof.
  unfold handle_host_event. destruct (HostRolloutRecords.load _ _ _) as [prior|]; [|done].
  destruct (Z.leb _ _); [done|]. destruct (rd_manifests rs) as [m|]; [|done].
  destruct (resolve_policy _ _) as [policy|]; [|done]. simpl.
  destruct (HostTransitions.step _ _ _ _) as [[next effs]|]; [|by unfold wwrites].
  unfold wwrites. etrans; [|apply compose_rollout_writes].
  etrans; [|apply (fold_wwrites (apply_effect m)); intros; apply apply_effect_at_writes].
  by apply writes_nothing.
Qed.

Lemma run_plan_writes rs w : wwrites w (run_plan rs w).
Proof.
  unfold run_plan. destruct (rd_manifests rs) as [m|]; [|done]. simpl.
  unfold advance_current_waves. generalize (omap (wave_bump m (build_fleet_state (w_db w) m))
    (hash_iter (fs_rollouts (build_fleet_state (w_db w) m)))).
  generalize (build_fleet_state (w_db w) m). intros fs bumps.
  assert (H : db_log_sent (fold_left bump_one bumps (w_db w, fs)).1 = db_log_sent (w_db w)).
  { change (w_db w) with (w_db w, fs).1 at 2.
    generalize (w_db w, fs). induction bumps as [|[rid wave] bumps IH]; intros [d f]; [done|].
    simpl. by rewrite IH. }
  destruct (fold_left _ _ _) as [d fs']. simpl in H. unfold wwrites.
  etrans; [by apply writes_nothing, H|].
  match goal with |- writes d (w_db (fold_left _ _ ?x)) => change d with (w_db x) end.
  apply (fold_wwrites (apply_plan_action m)).
  intros w' []; unfold wwrites; simpl;
    [apply open_rollout_writes | apply queue_dispatch_writes | by apply writes_append; constructor..].
Qed.

Lemma recover_record_writes rs host c at_ w r : wwrites w (recover_record rs host c at_ w r).
Proof.
  unfold recover_record. destruct (hs_state r); try done; case_bool; try done;
    try apply handle_host_event_writes.
  destruct (match rd_manifests rs with Some _ => _ | None => _ end); [done|].
  unfold synthesize_pending_to_converged. etrans; [apply handle_host_event_writes|].
  etrans; [apply handle_host_event_writes|].
  destruct (HostRolloutRecords.load _ _ _); [apply handle_host_event_writes | done].
Qed.

Lemma handle_input_writes rs i w : wwrites w (handle_input rs i w).1.2.
Proof.
  destruct i as [host rid e|set|host rid [c|] at_|]; simpl.
  - apply handle_host_event_writes.
  - apply run_plan_writes.
  - apply fold_wwrites. intros. apply recover_record_writes.
  - done.
  - apply run_plan_writes.
Qed.

Lemma cp_steps_write s s' : rtc cp_step s s' -> writes (w_db s.2) (w_db s'.2).
Proof.
  induction 1 as [|s1 s2 s3 H12 _ IH]; [done|]. etrans; [|exact IH].
  destruct H12 as [rs w i|rs w host|rs w now hours|rs w ok|rs w]; simpl;
    [apply handle_input_writes | by apply writes_nothing.. | | by apply writes_nothing].
  apply writes_nothing. apply (write_log_entry_tables ok (w_db w)).
Qed.

(** In every reachable database the log is made of such entries. *)
Lemma reachable_sent_in_columns s : reachable s -> Forall in_columns (db_log_sent (w_db s.2)).
Proof. intros [r (more & E & Hm)%cp_steps_write]. simpl in E. by rewrite E. Qed.

Lemma reachable_in_columns s : reachable s -> Forall in_columns (db_event_log (w_db s.2)).
Proof.
  intros Hs. pose proof (reachable_sent_in_columns s Hs) as H. rewrite Forall_forall in H.
  apply Forall_forall. intros e He. by apply H, (sublist_subseteq _ _ (reachable_log_sublist s Hs)).
Qed.
End inputs.

(** ** The rows of a log *)

Section rows.
Context {T : TimeText}.

Definition stored_row (e : EventLogEntry) (seq : i64) : StoredRow :=
  MkStoredRow seq (to_rfc3339 (le_ts e)) (EventLogKind.as_db_str (le_kind e)) (le_host_id e)
    (rid_raw <$> le_rollout_id e) (payload_json (le_payload e)).

(** The table of a log: its entries, numbered from one. *)
Definition stored (log : list EventLogEntry) : list StoredRow :=
  (fun r => stored_row (rollouts.elr_entry r) (rollouts.elr_seq r)) <$> rollouts.event_rows log.

Lemma length_stored log : length (stored log) = length log.
Proof. unfold stored, rollouts.event_rows. by rewrite length_fmap, length_imap. Qed.

Lemma stored_snoc log e : stored (log ++ [e]) = (append e (stored log)).1.
Proof.
  unfold append. simpl. rewrite length_stored. unfold stored, rollouts.event_rows.
  rewrite imap_app, fmap_app. simpl. rewrite Nat.add_0_r. done.
Qed.

Lemma append_all_stored log log' : append_all log' (stored log) = stored (log ++ log').
Proof.
  unfold append_all. revert log. induction log' as [|e log' IH]; intros log; cbn [fold_left].
  - by rewrite app_nil_r.
  - by rewrite <- stored_snoc, IH, <- app_assoc.
Qed.

Lemma last_seq_append e t : (last_seq t <= Z.of_nat (length t))%Z ->
  last_seq (append e t).1 = (Z.of_nat (length t) + 1)%Z.
Proof.
  unfold last_seq, append. cbn [fst]. rewrite fmap_app, foldr_app. simpl.
  generalize (Zle_0_nat (length t)). generalize (sr_seq <$> t) as l, (Z.of_nat (length t)) as n.
  intros l n Hn. induction l as [|x l IH]; simpl; intros H; lia.
Qed.

Lemma last_seq_stored log : last_seq (stored log) = Z.of_nat (length log).
Proof.
  induction log as [|e log IH] using rev_ind; [done|].
  rewrite stored_snoc, last_seq_append, length_app, length_stored; simpl; rewrite ?IH, ?length_stored; lia.
Qed.

(** A row as it is read. *)
Definition read_row (r : rollouts.EventLogRow) : ReadRow :=
  let e := rollouts.elr_entry r in
  MkReadRow (rollouts.elr_seq r) (le_ts e) (EventLogKind.as_db_str (le_kind e)) (le_host_id e)
    (rid_raw <$> le_rollout_id e) (payload_json (le_payload e)).

Context {Tr : TimeReads}.

Lemma row_to_entry_stored r : representable (le_ts (rollouts.elr_entry r)) ->
  row_to_entry (stored_row (rollouts.elr_entry r) (rollouts.elr_seq r)) = Ok (read_row r).
Proof. intros H. unfold row_to_entry. simpl. by rewrite (parse_to_rfc3339 _ H). Qed.

Lemma read_rows_stored rows : Forall (fun r => representable (le_ts (rollouts.elr_entry r))) rows ->
  read_rows ((fun r => stored_row (rollouts.elr_entry r) (rollouts.elr_seq r)) <$> rows)
  = Ok (read_row <$> rows).
Proof.
  induction 1 as [|r rows Hr _ IH]; [done|]. cbn [fmap list_fmap read_rows].
  rewrite (row_to_entry_stored r Hr). change (list_fmap _ _ ?f rows) with (f <$> rows). by rewrite IH.
Qed.

(** What the reader makes of a row is the entry. *)
Lemma entry_of_read_row r : in_columns (rollouts.elr_entry r) -> entry_times (rollouts.elr_entry r) ->
  entry_of_row (read_row r) = Some (rollouts.elr_entry r).
Proof.
  intros Hc [_ Ht]. destruct r as [seq [k ts h rid p]]. unfold in_columns in Hc. simpl in *.
  unfold entry_of_row, read_row. cbn [rw_kind rw_payload rw_ts rw_host_id rw_rollout_id
    rollouts.elr_entry le_kind le_payload le_ts le_host_id le_rollout_id].
  rewrite (read_payload_document _ _ _ _ Hc Ht).
  assert (Hk : kind_of (EventLogKind.as_db_str k) = Some k) by (by destruct k).
  rewrite Hk. cbn. f_equal. f_equal. by destruct rid as [[]|].
Qed.

(** The decision a row holds is that of the entry. *)
Lemma decision_of_read_row r :
  in_columns (rollouts.elr_entry r) -> le_kind (rollouts.elr_entry r) = EventLogKind.GateDecision ->
  decision_of_row (read_row r) = deferrals.decision_of (rollouts.elr_entry r).
Proof.
  destruct r as [seq [k ts h rid p]]. unfold in_columns. simpl. intros Hc ->.
  inversion Hc; subst. done.
Qed.


Lemma sql_limit_fmap {A B} (f : A -> B) limit l :
  rollouts.sql_limit limit (f <$> l) = f <$> rollouts.sql_limit limit l.
Proof. unfold rollouts.sql_limit. destruct (Z.ltb _ _); [done|]. by rewrite fmap_take. Qed.

Lemma sql_limit_sublist {A} limit (l : list A) x : x ∈ rollouts.sql_limit limit l -> x ∈ l.
Proof.
  unfold rollouts.sql_limit. destruct (Z.ltb _ _); [done|]. intros H. eapply elem_of_prefix; [done|].
  by exists (drop (Z.to_nat limit) l); rewrite take_drop.
Qed.

Lemma filter_fmap_rows {A B} (f : A -> B) (P : B -> Prop) `{!forall b, Decision (P b)} (l : list A) :
  filter P (f <$> l) = f <$> filter (fun a => P (f a)) l.
Proof.
  induction l as [|a l IH]; [done|]. rewrite fmap_cons, !filter_cons, IH. by destruct (decide _).
Qed.

Lemma event_row_entry log r : r ∈ rollouts.event_rows log -> rollouts.elr_entry r ∈ log.
Proof. intros (i & e & -> & Hi)%elem_of_lookup_imap. by eapply list_elem_of_lookup_2. Qed.

(** The rows of a query: those of the entries that satisfy its condition. *)
Lemma query_stored log limit (P : StoredRow -> Prop) (Q : EventLogEntry -> Prop)
    `{!forall r, Decision (P r)} `{!forall e, Decision (Q e)} :
  Forall entry_times log -> (forall e n, P (stored_row e n) <-> Q e) ->
  exists rows,
    read_rows (rollouts.sql_limit limit (filter P (stored log))) = Ok (read_row <$> rows) /\
    rollouts.elr_entry <$> rows = rollouts.sql_limit limit (filter Q log) /\
    rows = rollouts.sql_limit limit
             (filter (fun r => Q (rollouts.elr_entry r)) (rollouts.event_rows log)).
Proof.
  intros Ht HPQ.
  exists (rollouts.sql_limit limit (filter (fun r => Q (rollouts.elr_entry r)) (rollouts.event_rows log))).
  assert (Hrows : forall r, r ∈ rollouts.event_rows log -> rollouts.elr_entry r ∈ log).
  { intros r Hr. by apply event_row_entry. }
  assert (Hf : rollouts.elr_entry <$> filter (fun r => Q (rollouts.elr_entry r)) (rollouts.event_rows log)
               = filter Q log) by (by apply filter_imap_entries).
  split_and!; [|by rewrite <- sql_limit_fmap, Hf|done].
  unfold stored. rewrite filter_fmap_rows, sql_limit_fmap.
  rewrite (list_filter_iff _ (fun r => Q (rollouts.elr_entry r))) by (intros r; apply HPQ).
  apply read_rows_stored, Forall_forall. intros r Hr%sql_limit_sublist.
  apply list_elem_of_filter in Hr as [_ Hr%Hrows]. rewrite Forall_forall in Ht. by apply Ht.
Qed.

Lemma entries_of_rows rows log :
  Forall in_columns log -> Forall entry_times log ->
  (forall r, r ∈ rows -> rollouts.elr_entry r ∈ log) ->
  mapM entry_of_row (read_row <$> rows) = Some (rollouts.elr_entry <$> rows).
Proof.
  rewrite !Forall_forall. intros Hc Ht. induction rows as [|r rows IH]; intros Hin; [done|].
  rewrite !fmap_cons. cbn [mapM]. rewrite entry_of_read_row.
  - cbn [mbind option_bind]. change (list_fmap _ _ read_row rows) with (read_row <$> rows).
    rewrite IH; [done|]. intros r' Hr'. apply Hin. by right.
  - apply Hc, Hin. by left.
  - apply Ht, Hin. by left.
Qed.

(** A query and its reading, together. *)
Lemma query_reads_back log limit (P : StoredRow -> Prop) (Q : EventLogEntry -> Prop)
    `{!forall r, Decision (P r)} `{!forall e, Decision (Q e)} :
  Forall in_columns log -> Forall entry_times log -> (forall e n, P (stored_row e n) <-> Q e) ->
  exists rows, read_rows (rollouts.sql_limit limit (filter P (stored log))) = Ok rows /\
    mapM entry_of_row rows = Some (rollouts.sql_limit limit (filter Q log)).
Proof.
  intros Hc Ht HPQ. destruct (query_stored log limit P Q Ht HPQ) as (rows & E & Er & Ex).
  exists (read_row <$> rows). split; [done|]. rewrite <- Er. apply (entries_of_rows rows log Hc Ht).
  intros r Hr. rewrite Ex in Hr. apply sql_limit_sublist, list_elem_of_filter in Hr as [_ Hr].
  by apply event_row_entry.
Qed.

(** The query by rollout, of a table that starts empty. *)
Lemma query_rollout_reads_back log limit rid : Forall in_columns log -> Forall entry_times log ->
  exists rows, query_by_rollout (rid_raw rid) limit (append_all log []) = Ok rows /\
    mapM entry_of_row rows =
      Some (rollouts.sql_limit limit (filter (fun e => le_rollout_id e = Some rid) log)).
Proof.
  intros Hc Ht. change (append_all log []) with (append_all log (stored [])).
  rewrite append_all_stored, app_nil_l. apply query_reads_back; try done.
  intros [k ts h r p] n. simpl. destruct r as [[r]|], rid as [x]; simpl; split; by intros [= ->].
Qed.

(** The loops over the rows and over the entries. *)
Lemma dedup_read_rows seen rows :
  Forall (fun r => in_columns (rollouts.elr_entry r) /\
                   le_kind (rollouts.elr_entry r) = EventLogKind.GateDecision) rows ->
  dedup_rows seen (read_row <$> rows) = deferrals.dedup seen rows.
Proof.
  intros H. revert seen. induction H as [|r rows [Hc Hk] _ IH]; intros seen; [done|].
  rewrite fmap_cons. cbn [dedup_rows deferrals.dedup]. rewrite (decision_of_read_row r Hc Hk).
  destruct (deferrals.decision_of _) as [d|]; [|done]. by rewrite !IH.
Qed.

End rows.

(** C15.  The stored log loses nothing.  In every reachable database whose times
    the text of a time can hold, the three queries of the log succeed, and what
    they return -- rows with a document, a kind, a time as text, two columns --
    decodes back to the very entries the control plane wrote, in the order of
    their numbers, up to the limit; the last number is the number of entries. *)
Theorem stored_log_reads_back {O : HashOrder} {C : Clock} {T : TimeText} {Tr : TimeReads}
    (s : ReducerState * World) (limit : i64) (log := db_event_log (w_db s.2)) :
  reachable s -> Forall entry_times log ->
  last_seq (append_all log []) = Z.of_nat (length log) /\
  (forall host, exists rows, query_by_host host limit (append_all log []) = Ok rows /\
     mapM entry_of_row rows =
       Some (rollouts.sql_limit limit (filter (fun e => le_host_id e = Some host) log))) /\
  (forall rollout, exists rows, query_by_rollout (rid_raw rollout) limit (append_all log []) = Ok rows /\
     mapM entry_of_row rows =
       Some (rollouts.sql_limit limit (filter (fun e => le_rollout_id e = Some rollout) log))) /\
  (forall k, exists rows, query_by_kind k limit (append_all log []) = Ok rows /\
     mapM entry_of_row rows =
       Some (rollouts.sql_limit limit (filter (fun e => le_kind e = k) log))).
Proof.
  intros Hs%reachable_in_columns Ht. fold log in Hs. split_and!.
  - change [] with (stored []). rewrite append_all_stored. apply last_seq_stored.
  - intros host. change [] with (stored []). rewrite append_all_stored. by apply query_reads_back.
  - intros rollout. by apply query_rollout_reads_back.
  - intros k. change [] with (stored []). rewrite append_all_stored. apply query_reads_back; try done.
    intros [k' ts h rid p] n. simpl. split; [by destruct k, k' | by intros ->].
Qed.

(** A text of times: their decimal numerals. *)
Definition decimal_time : TimeText := {|
  to_rfc3339 := fun t => DecimalString.NilZero.string_of_int (Z.to_int t);
  parse_from_rfc3339 := fun s => Z.of_int <$> DecimalString.NilZero.int_of_string s;
|}.

Lemma decimal_time_reads : @TimeReads decimal_time.
Proof.
  intros t _. cbn. rewrite DecimalString.NilZero.isi; cbn.
  - by rewrite DecimalZ.of_to.
  - by destruct t as [|p|p]; simpl; intros [= H]; apply (DecimalPos.Unsigned.to_uint_nonnil p).
  - by destruct t as [|p|p]; simpl; intros [= H]; apply (DecimalPos.Unsigned.to_uint_nonnil p).
Qed.

Lemma stored_log_reads_back_witness :
  let d := w_db (run_and_write rolled_back (initial, MkWorld empty_db 0)).2 in
  10 < length (db_event_log d) /\
  last_seq (append_all (T := decimal_time) (db_event_log d) []) = Z.of_nat (length (db_event_log d)).
Proof.
  intros d. split; [apply Nat.ltb_lt; by vm_compute|].
  apply (stored_log_reads_back (O := list_order) (C := fun n => Z.of_nat n) (T := decimal_time)
           (Tr := decimal_time_reads) (run_and_write rolled_back (initial, MkWorld empty_db 0)) 5).
  - exists 0. exact (run_and_write_steps _ _).
  - apply (bool_decide_unpack _). by vm_compute.
Defined.

(** The deferrals the server answers with are projected from the documents of the
    log, with defaults for the fields a document lacks.  In every reachable
    database they are the projection of the gate decisions themselves: no
    default is ever taken, and no decision is dropped that names a host and a
    rollout. *)
Theorem deferrals_from_documents {O : HashOrder} {C : Clock} {T : TimeText} {Tr : TimeReads}
    (s : ReducerState * World) :
  reachable s -> Forall entry_times (db_event_log (w_db s.2)) ->
  project_deferrals (Some (append_all (db_event_log (w_db s.2)) [])) =
  deferrals.project_deferrals (Some (w_db s.2)) false.
Proof.
  intros Hs%reachable_in_columns Ht. change [] with (stored []). rewrite append_all_stored, app_nil_l.
  unfold project_deferrals, deferrals.project_deferrals, query. generalize dependent (db_event_log (w_db s.2)). intros log Hc Ht.
  destruct (query_stored log deferrals.SCAN_LIMIT
    (fun r => sr_kind r = EventLogKind.as_db_str EventLogKind.GateDecision)
    (fun e => EventLogKind.as_db_str (le_kind e) = EventLogKind.as_db_str EventLogKind.GateDecision) Ht)
    as (rows & E & _ & Ex); [done|].
  change (query_by_kind _ _ _) with (read_rows (rollouts.sql_limit deferrals.SCAN_LIMIT
    (filter (fun r => sr_kind r = EventLogKind.as_db_str EventLogKind.GateDecision) (stored log)))).
  rewrite E. f_equal. unfold rollouts.query_by_kind. rewrite <- Ex, <- fmap_reverse.
  apply dedup_read_rows, Forall_forall. intros r Hr. rewrite elem_of_reverse, Ex in Hr.
  apply sql_limit_sublist, list_elem_of_filter in Hr as [Hk%kind_is_gate_decision Hr%event_row_entry].
  split; [|done]. rewrite Forall_forall in Hc. by apply Hc.
Qed.

Lemma deferrals_from_documents_witness :
  let s := deferring 4 in
  project_deferrals (T := decimal_time) (Some (append_all (T := decimal_time) (db_event_log (w_db s.2)) [])) =
    Ok (deferrals_of s) /\ length (deferrals_of s) = 3.
Proof.
  split; [|by vm_compute]. rewrite <- deferrals_of_ok.
  apply (deferrals_from_documents (O := list_order) (C := fun n => Z.of_nat n) (T := decimal_time)
           (Tr := decimal_time_reads)).
  - exists 0. exact (run_and_write_steps _ _).
  - apply (bool_decide_unpack _). by vm_compute.
Defined.
