(* ===== verification/CpReplay.v ===== *)
(** * Records from the log

    The log is meant to be the only store of truth about the hosts: their
    records are to follow from it.  Here is the replay that derives a record, and
    the proof that in every database the daemon reaches each record is what the
    replay makes of the entries sent to its log, as long as the events are those of
    agents; the table gives the same when none of them was lost.  What the log does
    not hold -- the closure and the soak deadline a record opens with,
    and the policy in force -- is an argument of the replay. *)

From S2P Require Import Prelude Proto HostTypes HostTransitions HostProps Wire RolloutMachine.
From S2P Require Import RolloutProps Gates Planner PlannerProps CpStore CpStoreProps CpRuntime.
From S2P Require Import CpApplierProps CpRuntimeProps CpRuntimeSpecs CpSafety CpHistory.
From S2P Require Import Issuance Enrollment CpRoutes CpServe CpServeProps CpLog CpLogProps.
Import Applier Reducer.

(** ** The replay *)

(** What the log says of one host in one rollout. *)
Inductive signal :=
| Joined (rid : RolloutId) (host : string)
| Sent (rid : RolloutId) (host : string) (p : OutboundAgentEvent).

Definition event_signals (e : RolloutEvent) : list signal :=
  match e with RolloutEvent.HostJoined rid host _ _ => [Joined rid host] | _ => [] end.

Definition entry_signals (e : EventLogEntry) : list signal :=
  match le_payload e, le_host_id e, le_rollout_id e with
  | LogPayload.Rollout ev, _, _ => event_signals ev
  | LogPayload.Agent p, Some host, Some rid => [Sent rid host p]
  | _, _, _ => []
  end.

Definition signals (log : list EventLogEntry) : list signal := log ≫= entry_signals.

(** The agent events of a host since it joined the rollout last. *)
Definition heard (rid : RolloutId) (host : string) (acc : list OutboundAgentEvent) (s : signal)
    : list OutboundAgentEvent :=
  match s with
  | Joined r h => if bool_decide ((r, h) = (rid, host)) then [] else acc
  | Sent r h p => if bool_decide ((r, h) = (rid, host)) then acc ++ [p] else acc
  end.
Definition since_joined (rid : RolloutId) (host : string) (l : list signal) : list OutboundAgentEvent :=
  fold_left (heard rid host) l [].

(** [st] is what the host machine makes of a fresh record and the events [ps]. *)
Definition replays (rid : RolloutId) (host : string) (ps : list OutboundAgentEvent)
    (st : HostRolloutState) : Prop :=
  exists channel target dispatched_at soak_due_at inputs,
    let opened := new_pending rid host channel target dispatched_at soak_due_at in
    in_event <$> inputs = received <$> ps /\ accepted opened inputs = true /\ (run opened inputs).1 = st.

Definition rederivable (d : Db) : Prop := forall rid host st,
  db_records d !! (rid, host) = Some st -> replays rid host (since_joined rid host (signals (db_log_sent d))) st.

(** ** What operations add *)

Lemma signals_app l l' : signals (l ++ l') = signals l ++ signals l'.
Proof. apply bind_app. Qed.

(** [d'] adds [sg] to what [d] says. *)
Definition says (sg : list signal) (d d' : Db) : Prop :=
  signals (db_log_sent d') = signals (db_log_sent d) ++ sg.

Lemma says_nothing d : says [] d d.
Proof. unfold says. by rewrite app_nil_r. Qed.
Lemma says_log sg d d' t : db_log_sent d' = db_log_sent t -> says sg d t -> says sg d d'.
Proof. unfold says. by intros ->. Qed.
Lemma says_trans sg sg' d1 d2 d3 : says sg d1 d2 -> says sg' d2 d3 -> says (sg ++ sg') d1 d3.
Proof. unfold says. intros H ->. by rewrite H, app_assoc. Qed.
Lemma says_append ts h r k p d :
  says (entry_signals (MkEventLogEntry k ts h r p)) d (append_event_log ts h r k p d).
Proof.
  unfold says, append_event_log, send_entries. cbn [db_log_sent update_field field_setter]. rewrite signals_app. f_equal.
  apply app_nil_r.
Qed.

Lemma says_fold {A} (f : Db -> A -> Db) (sg : A -> list signal) l d :
  (forall d x, says (sg x) d (f d x)) -> says (l ≫= sg) d (fold_left f l d).
Proof.
  intros Hf. revert d. induction l as [|x l IH]; intros d; simpl; [apply says_nothing|].
  eapply says_trans; [apply Hf | apply IH].
Qed.

Lemma says_fold_nothing {A} (f : Db -> A -> Db) l d :
  (forall d x, says [] d (f d x)) -> says [] d (fold_left f l d).
Proof.
  intros Hf. revert d. induction l as [|x l IH]; intros d; simpl; [apply says_nothing|].
  apply (says_trans [] []) with (f d x); [apply Hf | apply IH].
Qed.

Lemma apply_rollout_effect_says now d x : says [] d (apply_rollout_effect now d x).
Proof.
  destruct x; cbn [apply_rollout_effect]; try (unfold says; simpl; by rewrite app_nil_r).
  unfold says. simpl. by rewrite signals_app.
Qed.

Lemma process_says now e d : is_Some (db_rollouts d !! rollout_event_rollout_id e) ->
  says (event_signals e) d (process_rollout_event now e d).
Proof.
  intros [row Hrow]. unfold process_rollout_event, Rollouts.state. rewrite Hrow.
  set (d1 := append_event_log _ _ _ _ _ d). assert (H1 : says (event_signals e) d d1) by apply says_append.
  destruct (rollout.step _ _ _) as [[r effects]|]; [|done].
  rewrite <- (app_nil_r (event_signals e)). eapply says_trans; [exact H1|].
  apply says_fold_nothing. intros. apply apply_rollout_effect_says.
Qed.

Lemma process_silent now e d : event_signals e = [] -> says [] d (process_rollout_event now e d).
Proof.
  intros He. destruct (db_rollouts d !! rollout_event_rollout_id e) as [row|] eqn:E.
  - rewrite <- He. apply process_says. by eexists.
  - unfold process_rollout_event, Rollouts.state. rewrite E. apply says_nothing.
Qed.

(** Rows of rollouts stay. *)
Definition row_kept (rid : RolloutId) (d d' : Db) : Prop :=
  is_Some (db_rollouts d !! rid) -> is_Some (db_rollouts d' !! rid).
#[export] Instance row_kept_preorder rid : PreOrder (row_kept rid).
Proof. unfold row_kept. split; [by intros d | intros d1 d2 d3 H1 H2 H; auto]. Qed.

Lemma apply_rollout_effect_row rid now d x : row_kept rid d (apply_rollout_effect now d x).
Proof.
  unfold row_kept. destruct x; cbn [apply_rollout_effect]; try done; simpl.
  - unfold Rollouts.record_rollout_transition. destruct (db_rollouts d !! rollout_id); [|done].
    destruct (bool_decide _); [done|]. rewrite lookup_insert_is_Some'. auto.
  - unfold Rollouts.set_current_wave. destruct (db_rollouts d !! rollout_id); [|done].
    destruct (Z.ltb _ _); [|done]. rewrite lookup_insert_is_Some'. auto.
Qed.

Lemma process_row rid now e d : row_kept rid d (process_rollout_event now e d).
Proof.
  unfold process_rollout_event. destruct (Rollouts.state _ _) as [row|]; [|done].
  destruct (rollout.step _ _ _) as [[r effects]|]; [|by unfold row_kept].
  etrans; [|apply (fold_left_rel (row_kept rid)); intros; apply apply_rollout_effect_row]. by unfold row_kept.
Qed.

(** ** One operation at a time *)

Lemma since_joined_snoc rid host l s : since_joined rid host (l ++ [s]) = heard rid host (since_joined rid host l) s.
Proof. unfold since_joined. by rewrite fold_left_app. Qed.

(** Operations that change no record and say nothing. *)
Lemma rederivable_silent d d' :
  db_records d' = db_records d -> says [] d d' -> rederivable d -> rederivable d'.
Proof. unfold says. intros Er Es H rid host st. rewrite Er, Es, app_nil_r. apply H. Qed.

Lemma process_rederivable now e d : event_signals e = [] -> rederivable d ->
  rederivable (process_rollout_event now e d).
Proof. intros He. apply rederivable_silent; [apply process_records | by apply process_silent]. Qed.

Lemma open_host_rederivable m now rid ch d hw :
  is_Some (db_rollouts d !! rid) -> rederivable d -> rederivable (open_host m now rid ch d hw).
Proof.
  intros Hrow H r h st. rewrite open_host_records.
  assert (Hs : says [Joined rid (hw_hostname hw)] d (open_host m now rid ch d hw)).
  { unfold open_host. match goal with |- says _ _ (process_rollout_event _ ?e ?x) =>
      exact (process_says now e x Hrow) end. }
  rewrite Hs, since_joined_snoc. cbn [heard].
  destruct (decide ((rid, hw_hostname hw) = (r, h))) as [E|Hne].
  - rewrite bool_decide_eq_true_2 by done. injection E as <- <-. rewrite lookup_insert_eq. intros [= <-].
    unfold opening_record. eexists _, _, _, _, []. by split_and!.
  - rewrite bool_decide_eq_false_2, lookup_insert_ne by done. apply H.
Qed.

Lemma open_host_row rid0 m now rid ch d hw : row_kept rid0 d (open_host m now rid ch d hw).
Proof. unfold open_host. etrans; [|apply process_row]. by unfold row_kept. Qed.

Lemma open_hosts_rederivable m now rid ch l d :
  is_Some (db_rollouts d !! rid) -> rederivable d -> rederivable (fold_left (open_host m now rid ch) l d).
Proof.
  revert d. induction l as [|hw l IH]; intros d Hrow H; [done|]. cbn [fold_left]. apply IH.
  - by apply open_host_row.
  - by apply open_host_rederivable.
Qed.

Lemma open_rollout_rederivable m now rid ch ref d :
  rederivable d -> rederivable (open_rollout m now rid ch ref d).
Proof.
  intros H. unfold open_rollout. set (preds := in_flight_predecessors _ _ _).
  set (d1 := append_rollout_event _ _ _ _).
  assert (H1 : rederivable d1 /\ is_Some (db_rollouts d1 !! rid)).
  { split.
    - apply (rederivable_silent d); [done | | done]. unfold says. simpl. by rewrite signals_app.
    - simpl. unfold Rollouts.record_rollout_opened. destruct (db_rollouts d !! rid) eqn:E; [by rewrite E|].
      by rewrite lookup_insert_eq. }
  match goal with |- context [fold_left ?f preds d1] => set (d2 := fold_left f preds d1) end.
  assert (H2 : rederivable d2 /\ is_Some (db_rollouts d2 !! rid)).
  { unfold d2. clearbody d1. clear -H1. revert d1 H1. induction preds as [|p preds IH]; intros d1 [H1 Hr]; [done|].
    cbn [fold_left]. apply IH. split; [by apply process_rederivable | by apply process_row]. }
  destruct H2 as [H2 Hr2]. destruct (inner <$> _) as [vm|]; [|done].
  apply (rederivable_silent (fold_left (open_host m now rid ch) (rm_host_set vm) d2)); [done| |].
  - unfold says. simpl. by rewrite signals_app.
  - by apply open_hosts_rederivable.
Qed.

Lemma queue_dispatch_rederivable now host rid target soak d :
  rederivable d -> rederivable (queue_dispatch now host rid target soak d).
Proof. apply rederivable_silent; [done|]. unfold says. simpl. by rewrite signals_app. Qed.

(** The effects of an accepted event. *)
Definition effect_signals (x : Effect) : list signal :=
  match x with Effect.RemoteAppendEventLog h r p => [Sent r h p] | _ => [] end.

Lemma apply_effect_at_says m now x d : quiet x -> says (effect_signals x) d (apply_effect_at m now x d).
Proof.
  destruct x; intros Hq; cbn [apply_effect_at effect_signals]; try done; try apply says_nothing;
    unfold says; simpl; by rewrite signals_app.
Qed.

(** ** Host events *)

Lemma accepted_snoc st ins i st' effs :
  accepted st ins = true -> step (run st ins).1 (in_event i) (in_now i) (in_policy i) = Ok (st', effs) ->
  accepted st (ins ++ [i]) = true /\ (run st (ins ++ [i])).1 = st'.
Proof.
  intros Ha Hs. split.
  - revert st Ha Hs. induction ins as [|j ins IH]; intros st; cbn [accepted app].
    + intros _ Hs. cbn [run fst] in Hs. by rewrite Hs.
    + cbn [run]. unfold run_one. destruct (step st _ _ _) as [[st1 e1]|]; [|done].
      intros Ha Hs. apply IH; [done|]. by destruct (run st1 ins).
  - rewrite run_app. cbn [fst run]. unfold run_one. by rewrite Hs.
Qed.

Lemma replays_step rid host ps st e now policy st' effs :
  is_local e = false -> replays rid host ps st -> step st e now policy = Ok (st', effs) ->
  replays rid host (ps ++ [outbound_of e]) st'.
Proof.
  intros Hl (ch & t & at_ & due & ins & He & Ha & Hr) Hs.
  exists ch, t, at_, due, (ins ++ [MkInput e now policy]). cbv zeta in *. rewrite <- Hr in Hs.
  destruct (accepted_snoc _ ins (MkInput e now policy) _ _ Ha Hs) as [Ha' Hr'].
  split_and!; [|done..]. rewrite !fmap_app, He. f_equal. simpl. f_equal. symmetry.
  by apply received_unique.
Qed.

(** The signals of a list of effects, from the entries they write. *)
Definition sent_entry (x : option string * option RolloutId * OutboundAgentEvent) : list signal :=
  match x with (Some h, Some r, p) => [Sent r h p] | _ => [] end.

Lemma effects_signals effs : effs ≫= effect_signals = entries_of effs ≫= sent_entry.
Proof.
  unfold entries_of. induction effs as [|x effs IH]; [done|]. cbn [mbind list_bind omap list_omap] in *.
  rewrite IH. by destruct x.
Qed.

Section host_events.
Context {O : HashOrder} {C : Clock}.

Lemma apply_effects_say m effs w : Forall quiet effs ->
  says (effs ≫= effect_signals) (w_db w) (w_db (fold_left (apply_effect m) effs w)).
Proof.
  intros Hq. revert w. induction Hq as [|x effs Hx Hq IH]; intros w; [apply says_nothing|].
  cbn [mbind list_bind fold_left]. eapply says_trans; [|apply IH]. by apply apply_effect_at_says.
Qed.

Lemma compose_rollout_says now h rid from to d : says [] d (compose_rollout now h rid from to d).
Proof.
  unfold compose_rollout. case_bool; [apply says_nothing|].
  destruct (_ && _); [|by apply process_silent].
  apply (says_trans [] []) with (process_rollout_event now (RolloutEvent.HostStateChanged rid h from to now) d);
    by apply process_silent.
Qed.

Lemma handle_host_event_says rs host rid e w prior next effs :
  db_inv (w_db w) -> is_local e = false -> host_event_outcome rs host rid e w = Some (prior, next, effs) ->
  says [Sent rid host (outbound_of e)] (w_db w) (w_db (handle_host_event rs host rid e w)).
Proof.
  intros Hinv Hlocal. unfold host_event_outcome, handle_host_event, HostRolloutRecords.load.
  destruct (db_records (w_db w) !! (rid, host)) as [prior'|] eqn:Hl; simpl; [|done].
  destruct (rd_manifests rs) as [m|]; simpl; [|done].
  destruct (resolve_policy m _) as [policy|]; simpl; [|done].
  destruct (HostTransitions.step _ _ _ _) as [[next' effs']|err] eqn:Hstep; [|done].
  intros [= -> -> ->].
  destruct (step_seq _ _ _ _ _ _ Hstep) as [Hseq Hseq'].
  destruct (Z.leb_spec (Event.seq e) (hs_last_event_seq prior)); [lia|].
  destruct (tbi_records _ _ Hinv _ _ Hl) as [[= Hr Hh] _].
  destruct (step_failures _ _ _ _ _ _ Hstep) as [_ He]. unfold event_entries in He.
  rewrite Hr, Hh, Hlocal in He.
  match goal with |- context [fold_left _ effs ?x] => set (w1 := x) end.
  pose proof (apply_effects_say m effs w1 (step_quiet _ _ _ _ _ _ Hstep)) as H1.
  rewrite effects_signals, He in H1. simpl in H1. cbn [w_db on_db].
  rewrite <- (app_nil_r [_]). eapply says_trans; [|apply compose_rollout_says].
  exact H1.
Qed.

Lemma handle_host_event_rederivable rs host rid e w :
  db_inv (w_db w) -> is_local e = false -> rederivable (w_db w) ->
  rederivable (w_db (handle_host_event rs host rid e w)).
Proof.
  intros Hinv Hlocal H. destruct (host_event_outcome rs host rid e w) as [[[prior next] effs]|] eqn:Ho.
  2:{ by rewrite handle_host_event_dropped. }
  destruct (handle_host_event_accepted _ _ _ _ _ _ _ _ Hinv Ho) as (E & _).
  pose proof (handle_host_event_says _ _ _ _ _ _ _ _ Hinv Hlocal Ho) as Hs.
  intros r h st. rewrite E, Hs, since_joined_snoc. cbn [heard].
  destruct (decide ((rid, host) = (r, h))) as [Ek|Hne].
  - rewrite bool_decide_eq_true_2 by done. injection Ek as <- <-. rewrite lookup_insert_eq. intros [= <-].
    unfold host_event_outcome in Ho.
    destruct (db_records (w_db w) !! (rid, host)) as [prior'|] eqn:Hl; simpl in Ho; [|done].
    destruct (rd_manifests rs) as [m|]; simpl in Ho; [|done].
    destruct (resolve_policy m _) as [policy|]; simpl in Ho; [|done].
    destruct (HostTransitions.step _ _ _ _) as [[next' effs']|err] eqn:Hstep; [|done].
    injection Ho as -> -> ->. eapply replays_step; [done | by apply H | exact Hstep].
  - rewrite bool_decide_eq_false_2, lookup_insert_ne by done. apply H.
Qed.

End host_events.

(** ** Runs *)

Section served.
Context {O : HashOrder} {C : Clock}.

Lemma apply_plan_action_rederivable m w a :
  rederivable (w_db w) -> rederivable (w_db (apply_plan_action m w a)).
Proof.
  intros H. destruct a; simpl.
  - by apply open_rollout_rederivable.
  - by apply queue_dispatch_rederivable.
  - apply (rederivable_silent (w_db w)); [done | | done]. unfold says. simpl. by rewrite signals_app.
  - apply (rederivable_silent (w_db w)); [done | | done]. unfold says. simpl. by rewrite signals_app.
Qed.

Lemma run_plan_rederivable rs w : rederivable (w_db w) -> rederivable (w_db (run_plan rs w)).
Proof.
  intros H. unfold run_plan. destruct (rd_manifests rs) as [m|]; [|done]. simpl.
  unfold advance_current_waves. generalize (omap (wave_bump m (build_fleet_state (w_db w) m))
    (hash_iter (fs_rollouts (build_fleet_state (w_db w) m)))).
  generalize (build_fleet_state (w_db w) m). intros fs bumps.
  assert (Hb : rederivable (fold_left bump_one bumps (w_db w, fs)).1).
  { change (rederivable (w_db w, fs).1) in H. revert H. generalize (w_db w, fs).
    induction bumps as [|[rid wave] bumps IH]; intros [d f] H; [done|]. cbn [fold_left]. apply IH.
    apply (rederivable_silent d); [done | | done]. unfold says. simpl. by rewrite app_nil_r. }
  destruct (fold_left _ _ _) as [d fs']. simpl in Hb.
  match goal with |- rederivable (w_db (fold_left _ _ ?x)) => change d with (w_db x) in Hb; revert Hb; generalize x end.
  generalize (plan_next m fs' (rd_quarantines rs) (clock_reading (w_reads w))). intros actions.
  induction actions as [|a actions IH]; intros w' Hw'; [done|]. cbn [fold_left].
  by apply IH, apply_plan_action_rederivable.
Qed.

Lemma recover_record_rederivable rs host c at_ w r :
  db_inv (w_db w) -> rederivable (w_db w) -> rederivable (w_db (recover_record rs host c at_ w r)).
Proof.
  intros Hinv H. unfold recover_record.
  destruct (hs_state r); try done; case_bool; try done; try (by apply handle_host_event_rederivable).
  destruct (match rd_manifests rs with Some _ => _ | None => _ end); [done|].
  unfold synthesize_pending_to_converged.
  set (w1 := handle_host_event _ _ _ (Event.RemoteDispatchAck _ _ _) w).
  set (w2 := handle_host_event _ _ _ (Event.RemoteActivationCompleted _ _ _ _) w1).
  assert (Hinv1 : db_inv (w_db w1)) by by apply handle_host_event_inv.
  assert (Hinv2 : db_inv (w_db w2)) by by apply handle_host_event_inv.
  assert (rederivable (w_db w1)) by by apply handle_host_event_rederivable.
  assert (rederivable (w_db w2)) by by apply handle_host_event_rederivable.
  destruct (HostRolloutRecords.load _ _ _); [by apply handle_host_event_rederivable | done].
Qed.

(** Inputs as the routes make them: an agent's event is never one of its own
    reducer. *)
Definition wire_input (i : ReducerInput) : Prop :=
  match i with ReducerInput.HostEvent _ _ e => is_local e = false | _ => True end.

(** The states reached by such inputs, deliveries, sweeps, turns of the log writer
    and restarts. *)
Inductive wire_reach : ReducerState * World -> Prop :=
| wr_initial reads : wire_reach (initial, MkWorld empty_db reads)
| wr_input rs w i : wire_reach (rs, w) -> wire_input i ->
    wire_reach ((handle_input rs i w).1.1, (handle_input rs i w).1.2)
| wr_deliver rs w host : wire_reach (rs, w) ->
    wire_reach (rs, on_db (fun d => d <| db_queue := (DispatchQueue.take_for_host host (db_queue d)).2 |>) w)
| wr_prune rs w now hours : wire_reach (rs, w) ->
    wire_reach (rs, on_db (fun d => (prune_finished_rollouts now hours d).1) w)
| wr_write rs w ok : wire_reach (rs, w) -> wire_reach (rs, on_db (write_log_entry ok) w)
| wr_restart rs w : wire_reach (rs, w) -> wire_reach (initial, on_db lose_log_channel w).

Lemma wire_reachable s : wire_reach s -> reachable s.
Proof.
  induction 1 as [reads|rs w i _ [r H] _|rs w host _ [r H]|rs w now hours _ [r H]|rs w ok _ [r H]|rs w _ [r H]].
  - by exists reads.
  - exists r. eapply rtc_r; [done | apply cp_input].
  - exists r. eapply rtc_r; [done | apply cp_deliver].
  - exists r. eapply rtc_r; [done | apply cp_prune].
  - exists r. eapply rtc_r; [done | apply cp_write].
  - exists r. eapply rtc_r; [done | apply cp_restart].
Qed.

Lemma handle_input_rederivable rs i w :
  db_inv (w_db w) -> wire_input i -> rederivable (w_db w) -> rederivable (w_db (handle_input rs i w).1.2).
Proof.
  intros Hinv Hi H. destruct i as [host rid e|set|host rid [c|] at_|]; simpl.
  - by apply handle_host_event_rederivable.
  - by apply run_plan_rederivable.
  - unfold maybe_synthesize_recovery_completion.
    generalize (HostRolloutRecords.active_for_host host (db_records (w_db w))). intros l.
    revert w Hinv H. induction l as [|r l IHl]; intros w Hinv H; [done|].
    apply IHl; [by apply recover_record_safe | by apply recover_record_rederivable].
  - done.
  - by apply run_plan_rederivable.
Qed.

Lemma prune_rederivable now hours d : rederivable d -> rederivable (prune_finished_rollouts now hours d).1.
Proof.
  intros H rid h st Hl. pose proof (prune_finished_rollouts_spec now hours d) as Hp.
  pose proof (eq_refl (db_log_sent (prune_finished_rollouts now hours d).1)) as Hlog.
  cbv zeta in Hp. change (db_log_sent (prune_finished_rollouts now hours d).1) with (db_log_sent d) in Hlog at 1.
  rewrite <- Hlog. destruct (prune_finished_rollouts now hours d) as [d' [n k]].
  destruct Hp as (_ & Hrecs & _). apply Hrecs in Hl as [Hl _]. by apply H.
Qed.

Lemma wire_reach_rederivable s : wire_reach s -> rederivable (w_db s.2).
Proof.
  induction 1 as [reads|rs w i Hr IH Hi|rs w host _ IH|rs w now hours _ IH|rs w ok _ IH|rs w _ IH]; simpl in *.
  - by intros rid host st.
  - apply wire_reachable, reachable_inv in Hr. by apply handle_input_rederivable.
  - apply (rederivable_silent (w_db w)); [done | | done]. unfold says. simpl. by rewrite app_nil_r.
  - by apply prune_rederivable.
  - destruct (write_log_entry_tables ok (w_db w)) as (_ & Er & _ & _ & _ & El).
    apply (rederivable_silent (w_db w)); [done | | done]. unfold says. by rewrite El, app_nil_r.
  - done.
Qed.

Lemma wire_run inputs s : Forall wire_input inputs -> wire_reach s -> wire_reach (cp_run inputs s).
Proof.
  intros Hi. revert s. induction Hi as [|i inputs Hi _ IH]; intros [rs w] Hs; [done|].
  apply IH. by apply wr_input.
Qed.

Lemma wire_written n s : wire_reach s -> wire_reach (written n s).
Proof. revert s. induction n as [|n IH]; intros [rs w] Hs; [done|]. by apply IH, wr_write. Qed.

Lemma wire_killed s : wire_reach s -> wire_reach (initial, on_db lose_log_channel s.2).
Proof. destruct s. apply wr_restart. Qed.

End served.

(** ** From the stored rows *)

(** Entries of other rollouts say nothing of a host in this one. *)
Lemma entry_elsewhere rid host acc e : in_columns e -> le_rollout_id e <> Some rid ->
  fold_left (heard rid host) (entry_signals e) acc = acc.
Proof.
  destruct e as [k ts h r p]. unfold in_columns. simpl. intros Hc Hne. inversion Hc; subst; try done.
  - simpl. rewrite bool_decide_eq_false_2; [done|]. by intros [= -> ->].
  - unfold entry_signals. simpl. destruct e; try done. simpl in *.
    rewrite bool_decide_eq_false_2; [done|]. by intros [= -> ->].
Qed.

Lemma since_joined_rollout rid host log : Forall in_columns log ->
  since_joined rid host (signals (filter (fun e => le_rollout_id e = Some rid) log)) =
  since_joined rid host (signals log).
Proof.
  intros H. unfold since_joined, signals. generalize ([] : list OutboundAgentEvent).
  induction H as [|e log He _ IH]; intros acc; [done|].
  rewrite filter_cons. destruct (decide _) as [Hr|Hr]; cbn [mbind list_bind]; rewrite !fold_left_app.
  - apply IH.
  - rewrite (entry_elsewhere _ _ _ _ He Hr). apply IH.
Qed.

Lemma killed_records w : db_records (w_db (on_db lose_log_channel w)) = db_records (w_db w).
Proof. done. Qed.

(** A record that left [Pending] is the replay of some event. *)
Lemma replays_nothing rid host st : replays rid host [] st -> hs_state st = HostState.Pending.
Proof.
  intros (ch & t & at_ & due & [|i ins] & He & _ & Hr); [|done]. by rewrite <- Hr.
Qed.


