(* ===== verification/CpLogWriter.v ===== *)
(** * The writer of the event log

    Models [runtime/event_log_writer.rs], the fallback writer and the shutdown
    tokens of [runtime/mod.rs] and [append_event_log] of [runtime/applier.rs]:
    the reducer task sends the entries of the log to a bounded channel, another
    task appends them to the table.  [CpRuntime] has the channel and the turns of
    the writer too, but its operations send all their entries in one step; here
    each send and each turn is a step, with the bound of the channel, the waiting
    and the shutdown.

    The reducer task is the only sender, and it leaves its loop only between two
    inputs, so that an operation always sends all its entries.  When it ends,
    the tokens it holds are dropped and the writer drains what is in the
    channel. *)

From S2P Require Import Prelude Proto HostTypes RolloutMachine Gates CpStore CpRuntime Issuance.
From S2P Require Import Enrollment CpRoutes CpServe CpLog.

Definition EVENT_LOG_CHANNEL_CAPACITY : nat := 1024.

(** Where the task is: in its [select!], in [drain_pending], returned. *)
Inductive WriterPhase := Listening | Draining | Exited.

#[export] Instance WriterPhase_eq_dec : EqDecision WriterPhase.
Proof. solve_decision. Defined.

(** [pipe_table] is [None] when the daemon has no database.  [pipe_done] is what
    the task took from the channel and whether the [INSERT] went through;
    [pipe_emitted] is everything the reducer task was to write. *)
Record Pipe := MkPipe {
  pipe_pending : list EventLogEntry;                   (* of the operation under way *)
  pipe_channel : list EventLogEntry;
  pipe_reducer_runs : bool;                            (* it holds the shutdown tokens *)
  pipe_writer : WriterPhase;
  pipe_table : option (list StoredRow);
  pipe_done : list (EventLogEntry * bool);
  pipe_emitted : list EventLogEntry;
}.
#[export] Instance Pipe_eta : Etaexp Pipe := fun p =>
  MkPipe (pipe_pending p) (pipe_channel p) (pipe_reducer_runs p) (pipe_writer p) (pipe_table p)
    (pipe_done p) (pipe_emitted p).

Definition pipe_initial (table : option (list StoredRow)) : Pipe :=
  MkPipe [] [] true Listening table [] [].

Section writer.
Context {T : TimeText}.

(** [db.event_log().append(&entry)], which may fail; an error is logged. *)
Definition write_entry (ok : bool) (e : EventLogEntry) (p : Pipe) : Pipe :=
  p <| pipe_table := (fun t => if ok then (append e t).1 else t) <$> pipe_table p |>
    <| pipe_done := pipe_done p ++ [(e, ok)] |>.

(** [event_log_tx.send(entry).await]: the next state, or [None] while it waits.
    On a closed channel the entry is dropped. *)
Definition send (e : EventLogEntry) (p : Pipe) : option Pipe :=
  match pipe_writer p with
  | Exited => Some p
  | _ =>
      if length (pipe_channel p) <? EVENT_LOG_CHANNEL_CAPACITY
      then Some (p <| pipe_channel := pipe_channel p ++ [e] |>) else None
  end.

(** One turn of the loop of [spawn]: the biased [select!].  [None]: it waits.
    The server keeps a sender for as long as it runs, so the channel never
    closes from that side. *)
Definition listen (ok : bool) (p : Pipe) : option Pipe :=
  if negb (pipe_reducer_runs p) then Some (p <| pipe_writer := Draining |>)
  else
    match pipe_channel p with
    | [] => None
    | e :: rest => Some (write_entry ok e (p <| pipe_channel := rest |>))
    end.

(** One turn of the loop of [drain_pending]. *)
Definition drain_pending (ok : bool) (p : Pipe) : Pipe :=
  match pipe_channel p with
  | [] => p <| pipe_writer := Exited |>
  | e :: rest => write_entry ok e (p <| pipe_channel := rest |>)
  end.

(** One turn of [spawn_drain_only_writer]: when both arms are ready, either. *)
Definition drain_only (shutdown_first : bool) (p : Pipe) : option Pipe :=
  if negb (pipe_reducer_runs p) && (shutdown_first || is_empty (pipe_channel p))
  then Some (p <| pipe_writer := Exited |>)
  else
    match pipe_channel p with
    | [] => None
    | e :: rest => Some (p <| pipe_channel := rest |> <| pipe_done := pipe_done p ++ [(e, false)] |>)
    end.

(** One turn of the task that was spawned. *)
Definition writer_turn (choice : bool) (p : Pipe) : option Pipe :=
  match pipe_writer p, pipe_table p with
  | Listening, Some _ => listen choice p
  | Draining, _ => Some (drain_pending choice p)
  | Listening, None => drain_only choice p
  | Exited, _ => None
  end.

(** What the two tasks do once an operation has started ... *)
Inductive task_step (p : Pipe) : Pipe -> Prop :=
| task_send e rest p' :
    pipe_pending p = e :: rest -> send e p = Some p' ->
    task_step p (p' <| pipe_pending := rest |>)
| task_write choice p' :
    writer_turn choice p = Some p' -> task_step p p'
| task_stop :
    pipe_reducer_runs p = true -> pipe_pending p = [] ->
    task_step p (p <| pipe_reducer_runs := false |>).

(** ... and the operations of the reducer task, with the entries they write. *)
Inductive pipe_step (p : Pipe) : Pipe -> Prop :=
| pipe_operation es :
    pipe_reducer_runs p = true -> pipe_pending p = [] ->
    pipe_step p (p <| pipe_pending := es |> <| pipe_emitted := pipe_emitted p ++ es |>)
| pipe_task p' :
    task_step p p' -> pipe_step p p'.

End writer.
