(* ===== verification/CpLogWriterProps.v ===== *)
(** * What reaches the table of the log

    The entries the reducer task writes reach the table in their order; at every
    moment the table misses those of the channel and of the operation under
    way, and those whose [INSERT] failed.  The two tasks never block each other,
    and end. *)

From S2P Require Import Prelude Proto HostTypes HostTransitions RolloutMachine Gates Planner PlannerProps.
From S2P Require Import CpStore CpRuntime CpRuntimeProps CpSafety CpHistory.
From S2P Require Import Issuance Enrollment CpRoutes CpServe CpServeProps CpLog CpLogProps CpLogWriter.
Import Applier Reducer.

Section pipe.
Context {T : TimeText}.

(** The entries that were inserted. *)
Definition inserted (done : list (EventLogEntry * bool)) : list EventLogEntry :=
  fst <$> filter (fun x => x.2 = true) done.

Lemma inserted_snoc done e ok :
  inserted (done ++ [(e, ok)]) = inserted done ++ (if ok then [e] else []).
Proof. unfold inserted. rewrite filter_app, fmap_app. f_equal. by destruct ok. Qed.

Record pipe_inv (t0 : list StoredRow) (p : Pipe) : Prop := {
  pi_order : pipe_emitted p = (pipe_done p).*1 ++ pipe_channel p ++ pipe_pending p;
  pi_bound : length (pipe_channel p) <= EVENT_LOG_CHANNEL_CAPACITY;
  pi_table : pipe_table p = Some (append_all (inserted (pipe_done p)) t0);
  pi_stopped : pipe_reducer_runs p = false -> pipe_pending p = [];
  pi_phase : pipe_writer p <> Listening -> pipe_reducer_runs p = false;
  pi_exited : pipe_writer p = Exited -> pipe_channel p = [];
}.

Lemma write_entry_inv t0 ok e rest p :
  pipe_inv t0 p -> pipe_writer p <> Exited -> pipe_channel p = e :: rest ->
  pipe_inv t0 (write_entry ok e (p <| pipe_channel := rest |>)).
Proof.
  intros [Ho Hb Ht Hs Hp He] Hw Hc. rewrite Hc in Ho, Hb. split; simpl; try done.
  - by rewrite Ho, fmap_app, <- app_assoc.
  - simpl in Hb. lia.
  - rewrite Ht. simpl. f_equal. rewrite inserted_snoc. unfold append_all.
    destruct ok; [by rewrite fold_left_app | by rewrite app_nil_r].
Qed.

Lemma task_step_inv t0 p p' : pipe_inv t0 p -> task_step p p' -> pipe_inv t0 p'.
Proof.
  intros H Hstep. pose proof H as [Ho Hb Ht Hs Hp He]. destruct Hstep as [e rest p' Hpe Hsend|choice p' Hw|Hr Hpe].
  - unfold send in Hsend. destruct (pipe_writer p) eqn:Ew.
    + destruct (Nat.ltb_spec (length (pipe_channel p)) EVENT_LOG_CHANNEL_CAPACITY); [|done].
      injection Hsend as <-. split; simpl; try done.
      * by rewrite Ho, Hpe, <- app_assoc.
      * rewrite length_app. simpl. lia.
      * intros Hrun. by rewrite (Hs Hrun) in Hpe.
      * by rewrite Ew.
    + rewrite Hs in Hpe by (by apply Hp). done.
    + rewrite Hs in Hpe by (by apply Hp). done.
  - unfold writer_turn in Hw. destruct (pipe_writer p) eqn:Ew; [rewrite Ht in Hw| |done].
    + unfold listen in Hw. destruct (pipe_reducer_runs p) eqn:Er; simpl in Hw.
      * destruct (pipe_channel p) as [|e rest] eqn:Ec; [done|]. injection Hw as <-.
        by apply write_entry_inv; [|rewrite Ew|].
      * injection Hw as <-. split; simpl; try done. intros _. by apply Hs.
    + injection Hw as <-. unfold drain_pending. destruct (pipe_channel p) as [|e rest] eqn:Ec.
      * split; simpl; rewrite ?Ec; try done. intros _. by apply Hp.
      * by apply write_entry_inv; [|rewrite Ew|].
  - split; simpl; try done. 
Qed.

Lemma pipe_step_inv t0 p p' : pipe_inv t0 p -> pipe_step p p' -> pipe_inv t0 p'.
Proof.
  intros H [es Hr Hpe|q Hq]; [|by eapply task_step_inv].
  destruct H as [Ho Hb Ht Hs Hp He]. split; simpl; try done.
  - rewrite Ho, Hpe, !app_nil_r. by rewrite <- app_assoc.
  - by rewrite Hr.
Qed.

Lemma pipe_reach_inv t0 p : rtc pipe_step (pipe_initial (Some t0)) p -> pipe_inv t0 p.
Proof.
  intros H. assert (H0 : pipe_inv t0 (pipe_initial (Some t0))) by (split; simpl; try done; lia).
  revert H0. induction H as [|p1 p2 p3 H12 _ IH]; [done|]. intros H1. by eapply IH, pipe_step_inv.
Qed.

(** What is left to do for the tasks, when no operation starts. *)
Definition work (p : Pipe) : nat :=
  2 * length (pipe_pending p) + length (pipe_channel p) +
  (if pipe_reducer_runs p then 1 else 0) +
  match pipe_writer p with Listening => 2 | Draining => 1 | Exited => 0 end.

Lemma task_step_work t0 p p' : pipe_inv t0 p -> task_step p p' -> work p' < work p.
Proof.
  intros [Ho Hb Ht Hs Hp He] [e rest q Hpe Hsend|choice q Hw|Hr Hpe]; unfold work.
  - unfold send in Hsend. rewrite Hpe. destruct (pipe_writer p) eqn:Ew;
      [|by rewrite Hs in Hpe by (by apply Hp)..].
    destruct (_ <? _); [|done]. injection Hsend as <-. simpl. rewrite length_app, Ew. simpl. lia.
  - unfold writer_turn in Hw. destruct (pipe_writer p) eqn:Ew; [rewrite Ht in Hw| |done].
    + unfold listen in Hw. destruct (pipe_reducer_runs p) eqn:Er; simpl in Hw.
      * destruct (pipe_channel p) as [|e rest] eqn:Ec; [done|]. injection Hw as <-. simpl.
        rewrite Ew, Er. lia.
      * injection Hw as <-. simpl. rewrite Er. lia.
    + injection Hw as <-. unfold drain_pending. destruct (pipe_channel p) as [|e rest] eqn:Ec; simpl.
      * rewrite Ec. simpl. lia.
      * rewrite Ew. lia.
  - simpl. rewrite Hr. lia.
Qed.

(** Until the writer has returned one of the tasks can go on. *)
Lemma task_progress t0 p : pipe_inv t0 p -> pipe_writer p <> Exited -> exists p', task_step p p'.
Proof.
  intros [Ho Hb Ht Hs Hp He] Hw. destruct (pipe_writer p) eqn:Ew; [| |done].
  - destruct (pipe_reducer_runs p) eqn:Er.
    + destruct (pipe_channel p) as [|e rest] eqn:Ec.
      * destruct (pipe_pending p) as [|e rest] eqn:Ep; [by eexists; apply task_stop|].
        eexists. eapply task_send; [done|]. unfold send. by rewrite Ew, Ec.
      * eexists. apply (task_write _ true). unfold writer_turn, listen. by rewrite Ew, Ht, Er, Ec.
    + eexists. apply (task_write _ true). unfold writer_turn, listen. by rewrite Ew, Ht, Er.
  - eexists. apply (task_write _ true). unfold writer_turn. by rewrite Ew.
Qed.

Lemma task_step_emitted p p' : task_step p p' -> pipe_emitted p' = pipe_emitted p.
Proof.
  intros [e rest q _ Hsend|choice q Hw|_ _]; [| |done].
  - unfold send in Hsend. destruct (pipe_writer p); [..|by injection Hsend as <-];
      (destruct (_ <? _); [by injection Hsend as <- | done]).
  - unfold writer_turn, listen, drain_only, drain_pending in Hw.
    repeat case_match; simplify_eq; done.
Qed.

(** C16.  The log on the disk.  However the reducer task, the writer and the failures of
    its inserts interleave, the channel never holds more than its capacity, the
    channel of the writer is never closed while the reducer has an entry to
    send, and the table is always that of the entries that were inserted, where
    the entries written so far are, in order, those the writer took, those of
    the channel and those of the operation under way.  So a daemon that is
    killed leaves a log that misses a suffix and the failed inserts, and one
    whose writer has returned only the failed inserts. *)
Theorem log_misses_a_suffix (t0 : list StoredRow) (p : Pipe) :
  rtc pipe_step (pipe_initial (Some t0)) p ->
  length (pipe_channel p) <= EVENT_LOG_CHANNEL_CAPACITY /\
  (pipe_pending p <> [] -> pipe_writer p = Listening) /\
  pipe_table p = Some (append_all (inserted (pipe_done p)) t0) /\
  pipe_emitted p = (pipe_done p).*1 ++ pipe_channel p ++ pipe_pending p /\
  (pipe_writer p = Exited -> pipe_emitted p = (pipe_done p).*1).
Proof.
  intros [Ho Hb Ht Hs Hp He]%pipe_reach_inv. split_and!; try done.
  - intros Hpe. destruct (pipe_writer p) eqn:Ew; [done|..]; by rewrite Hs in Hpe by (by apply Hp).
  - intros Ew. rewrite Ho, (He Ew), Hs, !app_nil_r; [done|]. apply Hp. by rewrite Ew.
Qed.

(** C17.  The two tasks end.  From every reachable state, when no further operation
    starts, neither waits for the other: as long as the writer has not returned
    one of them can go on, only so many turns are left, and when it has returned
    every entry was handed to an insert. *)
Theorem shutdown_drains (t0 : list StoredRow) (p p' : Pipe) (n : nat) :
  rtc pipe_step (pipe_initial (Some t0)) p -> nsteps task_step n p p' ->
  n <= work p /\
  (pipe_writer p' <> Exited -> exists p'', task_step p' p'') /\
  (pipe_writer p' = Exited -> (pipe_done p').*1 = pipe_emitted p).
Proof.
  intros Hp%pipe_reach_inv Hn.
  assert (H : n + work p' <= work p /\ pipe_inv t0 p' /\ pipe_emitted p' = pipe_emitted p).
  { induction Hn as [|n p1 p2 p3 H12 _ IH]; [done|].
    destruct (IH (task_step_inv _ _ _ Hp H12)) as (Hw & Hi & He).
    pose proof (task_step_work _ _ _ Hp H12). rewrite He, (task_step_emitted _ _ H12).
    split_and!; [lia|done..]. }
  destruct H as (Hw & Hi & <-). split_and!; [lia|..].
  - by apply task_progress with t0.
  - intros Ew. pose proof Hi as [Ho _ _ Hs Hph He]. rewrite Ho, (He Ew), Hs, !app_nil_r; [done|].
    apply Hph. by rewrite Ew.
Qed.

End pipe.

(** ** A schedule *)

Inductive turn := Sends | Writes (ok : bool) | Stops.

Definition take_turn `{TimeText} (a : turn) (p : Pipe) : option Pipe :=
  match a with
  | Sends =>
      match pipe_pending p with
      | e :: rest => (fun p' => p' <| pipe_pending := rest |>) <$> send e p
      | [] => None
      end
  | Writes ok => writer_turn ok p
  | Stops =>
      match pipe_pending p with
      | [] => if pipe_reducer_runs p then Some (p <| pipe_reducer_runs := false |>) else None
      | _ :: _ => None
      end
  end.

Definition take_turns `{TimeText} (l : list turn) (p : Pipe) : option Pipe :=
  fold_left (fun p a => p ≫= take_turn a) l (Some p).

Lemma take_turn_step `{TimeText} a p p' : take_turn a p = Some p' -> task_step p p'.
Proof.
  destruct a as [|ok|]; simpl.
  - destruct (pipe_pending p) as [|e rest] eqn:Ep; [done|]. destruct (send e p) as [q|] eqn:Es; [|done].
    intros [= <-]. by eapply task_send.
  - apply task_write.
  - intros Ht. assert (Hc : pipe_pending p = [] /\ pipe_reducer_runs p = true /\
      p' = p <| pipe_reducer_runs := false |>).
    { destruct (pipe_pending p) eqn:Ep; [|done]. destruct (pipe_reducer_runs p) eqn:Er; [|done].
      injection Ht as <-. split_and!; [done..|]. simpl. by rewrite Ep. }
    destruct Hc as (Ep & Er & ->). by apply task_stop.
Qed.

Lemma take_turns_steps `{TimeText} l p p' :
  take_turns l p = Some p' -> nsteps task_step (length l) p p'.
Proof.
  unfold take_turns. revert p. induction l as [|a l IH]; intros p; simpl.
  - intros [= <-]. constructor.
  - destruct (take_turn a p) as [q|] eqn:Ea; simpl.
    + intros Hr. econstructor; [by eapply take_turn_step | by apply IH].
    + intros Hr. exfalso. clear -Hr. induction l as [|b l IH]; [done | by apply IH].
Qed.

(** The entries of a rollout that opens, on their way. *)
Definition opening_entries : list EventLogEntry :=
  take 3 (db_log_sent (w_db (cp_run (O := list_order) (C := fun n => Z.of_nat n)
    [ReducerInput.ManifestSetUpdated (sample_manifests [no_slot]); ReducerInput.PlanTick]
    (initial, MkWorld empty_db 0)).2)).
Definition opening_pipe : Pipe :=
  (pipe_initial (Some [])) <| pipe_pending := opening_entries |> <| pipe_emitted := opening_entries |>.

Lemma opening_reached `{TimeText} : rtc pipe_step (pipe_initial (Some [])) opening_pipe.
Proof. apply rtc_once. by apply (pipe_operation (pipe_initial (Some [])) opening_entries). Qed.

Lemma log_misses_a_suffix_witness :
  exists p, take_turns (H := decimal_time) [Sends; Sends; Writes false; Writes true] opening_pipe = Some p /\
    length (pipe_done p) = 2 /\ length (pipe_emitted p) = 3 /\
    pipe_table p = Some (append_all (T := decimal_time) (inserted (pipe_done p)) []) /\
    pipe_emitted p = (pipe_done p).*1 ++ pipe_channel p ++ pipe_pending p.
Proof.
  destruct (take_turns (H := decimal_time) [Sends; Sends; Writes false; Writes true] opening_pipe)
    as [p|] eqn:E; [|by vm_compute in E].
  exists p. split; [done|].
  assert (Hr : rtc (pipe_step (T := decimal_time)) (pipe_initial (Some [])) p).
  { etrans; [apply opening_reached|]. apply take_turns_steps, rtc_nsteps_2 in E.
    induction E as [|p1 p2 p3 H12 _ IH]; [done|]. eapply rtc_l; [by apply pipe_task | done]. }
  destruct (log_misses_a_suffix (T := decimal_time) [] p Hr) as (_ & _ & Ht & Ho & _).
  split_and!; [..|exact Ht|exact Ho]; clear - E; vm_compute in E; injection E as <-; by vm_compute.
Defined.

Lemma shutdown_drains_witness :
  let turns := [Sends; Sends; Writes true; Sends; Stops; Writes true; Writes true; Writes false; Writes true] in
  exists p, take_turns (H := decimal_time) turns opening_pipe = Some p /\ pipe_writer p = Exited /\
    work opening_pipe = length turns /\ (pipe_done p).*1 = opening_entries.
Proof.
  intros turns. destruct (take_turns (H := decimal_time) turns opening_pipe) as [p|] eqn:E;
    [|by vm_compute in E].
  assert (Hw : pipe_writer p = Exited) by (clear - E; vm_compute in E; injection E as <-; by vm_compute).
  exists p. split_and!; [done..|by vm_compute|].
  destruct (shutdown_drains (T := decimal_time) [] opening_pipe p (length turns) opening_reached)
    as (_ & _ & He); [by apply take_turns_steps | by apply He].
Defined.
