(* ===== verification/CpSweep.v ===== *)
(** * The hourly sweep of the control plane

    Models [crates/nixfleet-control-plane/src/timers/prune_timer.rs]: the three
    deletions of a tick -- used nonces, finished rollouts, old backups of the
    database file -- each of which may fail without stopping the others.  The
    first two are the statements of [Enrollment] and [CpStore]; which calls of the
    file system fail is the record [Trouble], and the order in which a
    directory is read is [HashOrder]. *)

From S2P Require Import Prelude RustStd Proto HostTypes RolloutMachine Gates CpStore.
From S2P Require Import Verify HostKey Issuance Enrollment.

Definition FINISHED_ROLLOUTS_RETENTION_HOURS : i64 := 24 * 90.
Definition BACKUP_RETENTION_DAYS : u64 := 14.
Definition BACKUP_FILENAME_PREFIX : string := "state.db.pre-".

(** A directory: its entries by name.  [SystemTime] counts nanoseconds from the
    epoch, backwards too. *)
Record FileMeta := MkFileMeta { fm_is_file : bool; fm_modified : Z }.
Abbreviation Directory := (gmap string FileMeta) (only parsing).

Record Trouble := MkTrouble {
  tr_tokens_fail : bool;                               (* the statements *)
  tr_rollouts_fail : bool;
  tr_read_dir_fails : bool;
  tr_entry_fails : string -> bool;                     (* by file name *)
  tr_metadata_fails : string -> bool;
  tr_modified_fails : string -> bool;
  tr_remove_fails : string -> bool;
}.

(** The earliest time a [SystemTime] holds. *)
Definition system_time_min : Z := (- 2 ^ 63 * nanos_per_sec)%Z.

Definition checked_sub (t d : Z) : option Z :=
  if Z.leb system_time_min (t - d) then Some (t - d)%Z else None.

Section sweep.
Context {O : HashOrder}.

(** One turn of the loop over the directory. *)
Definition prune_entry (tr : Trouble) (prefix : string) (cutoff : Z) (acc : Directory * nat)
    (entry : string * FileMeta) : Directory * nat :=
  let '(dir, deleted) := acc in
  let '(name, metadata) := entry in
  if tr_entry_fails tr name then acc
  else match from_utf8 name with
  | None => acc
  | Some name_str =>
      if negb (starts_with prefix name_str) then acc
      else if tr_metadata_fails tr name then acc
      else if negb (fm_is_file metadata) then acc
      else if tr_modified_fails tr name then acc
      else if Z.leb cutoff (fm_modified metadata) then acc
      else if tr_remove_fails tr name then acc
      else (delete name dir, deleted + 1)
  end.

Definition prune_backup_files (tr : Trouble) (now : Z) (parent prefix : string) (retention_days : u64)
    (dirs : gmap string Directory) : result nat string * gmap string Directory :=
  let cutoff := default 0%Z
    (checked_sub now (duration_seconds (u64_wrap (retention_days * 24 * 60 * 60)))) in
  match dirs !! parent with
  | None => (Ok 0, dirs)
  | Some dir =>
      if tr_read_dir_fails tr then (Err "read_dir", dirs)
      else
        let '(dir', deleted) := fold_left (prune_entry tr prefix cutoff) (hash_iter dir) (dir, 0) in
        (Ok deleted, <[ parent := dir' ]> dirs)
  end.

(** An error is logged. *)
Definition try_prune (r : result nat string) : nat := match r with Ok n => n | Err _ => 0 end.

Record SweepState := MkSweepState {
  sw_tokens : gmap string TokenRow;
  sw_db : Db;
  sw_dirs : gmap string Directory;
}.

Record Swept := MkSwept {
  swept_token_replay : nat;
  swept_rollouts : nat;
  swept_backups : nat;
}.

(** One tick.  The two clocks are read at about the same time. *)
Definition sweep (tr : Trouble) (now : DateTime) (db_path : option string) (s : SweepState)
    : SweepState * Swept :=
  let tokens := if tr_tokens_fail tr then sw_tokens s
    else Tokens.prune_token_replay TOKEN_REPLAY_RETENTION_HOURS now (sw_tokens s) in
  let token_pruned := try_prune
    (if tr_tokens_fail tr then Err "token_replay" else Ok (size (sw_tokens s) - size tokens)) in
  let '(db, rollouts_pruned) :=
    if tr_rollouts_fail tr then (sw_db s, 0)
    else
      let '(db, (_, rollouts_pruned)) :=
        prune_finished_rollouts now FINISHED_ROLLOUTS_RETENTION_HOURS (sw_db s) in
      (db, rollouts_pruned) in
  let '(dirs, backups_pruned) :=
    match db_path ≫= parent with
    | None => (sw_dirs s, 0)
    | Some dir =>
        let '(r, dirs) := prune_backup_files tr now dir BACKUP_FILENAME_PREFIX BACKUP_RETENTION_DAYS
                            (sw_dirs s) in
        (dirs, try_prune r)
    end in
  (MkSweepState tokens db dirs, MkSwept token_pruned rollouts_pruned backups_pruned).

End sweep.
