(* ===== verification/CpSweepProps.v ===== *)
(** * The sweep deletes what is past its retention, and nothing else

    The loop over the directory is a filter, whatever the order in which the
    directory is read; the three deletions do not depend on each other. *)

From S2P Require Import Prelude RustStd Proto HostTypes RolloutMachine Gates CpStore CpStoreProps.
From S2P Require Import Verify HostKey Issuance Enrollment CpSweep.

Section loop.
Context {O : HashOrder}.

(** The entries the loop deletes. *)
Definition stale (tr : Trouble) (prefix : string) (cutoff : Z) (name : string) (m : FileMeta) : bool :=
  negb (tr_entry_fails tr name) && utf8_valid [] name && starts_with prefix name &&
  negb (tr_metadata_fails tr name) && fm_is_file m && negb (tr_modified_fails tr name) &&
  Z.ltb (fm_modified m) cutoff && negb (tr_remove_fails tr name).

Lemma prune_entry_stale tr prefix cutoff dir n name m :
  prune_entry tr prefix cutoff (dir, n) (name, m) =
  if stale tr prefix cutoff name m then (delete name dir, n + 1) else (dir, n).
Proof.
  unfold prune_entry, stale, from_utf8. rewrite Z.ltb_antisym.
  destruct (tr_entry_fails tr name), (utf8_valid [] name), (starts_with prefix name),
    (tr_metadata_fails tr name), (fm_is_file m), (tr_modified_fails tr name),
    (Z.leb cutoff (fm_modified m)), (tr_remove_fails tr name); reflexivity.
Qed.

(** The entries of a directory that stay. *)
Definition kept (tr : Trouble) (prefix : string) (cutoff : Z) (dir : gmap string FileMeta)
    : gmap string FileMeta :=
  filter (fun e => stale tr prefix cutoff e.1 e.2 = false) dir.

(** The loop over [l] deletes the stale ones of [l]. *)
Lemma prune_loop tr prefix cutoff l dir n :
  fold_left (prune_entry tr prefix cutoff) l (dir, n) =
  (foldr (fun e d => delete e.1 d) dir (reverse (filter (fun e => stale tr prefix cutoff e.1 e.2 = true) l)),
   n + length (filter (fun e => stale tr prefix cutoff e.1 e.2 = true) l)).
Proof.
  revert dir n. induction l as [|[name m] l IH]; intros dir n; cbn [fold_left].
  - by rewrite filter_nil, Nat.add_0_r.
  - rewrite prune_entry_stale, filter_cons. cbn [fst snd]. destruct (stale _ _ _ name m) eqn:Es.
    + rewrite decide_True by done. rewrite IH, reverse_cons, foldr_app. cbn [length foldr]. f_equal. lia.
    + rewrite decide_False by done. apply IH.
Qed.

Lemma delete_entries (l : list (string * FileMeta)) (dir : gmap string FileMeta) name :
  foldr (fun e d => delete e.1 d) dir l !! name =
  if decide (name ∈ l.*1) then None else dir !! name.
Proof.
  induction l as [|[x m] l IH]; [by rewrite decide_False by apply not_elem_of_nil|]. cbn [foldr fst].
  destruct (decide (x = name)) as [->|Hx].
  - rewrite lookup_delete_eq, decide_True; [done|]. by left.
  - rewrite lookup_delete_ne, IH by done. apply decide_ext.
    rewrite fmap_cons, elem_of_cons. naive_solver.
Qed.

(** The whole loop is a filter. *)
Lemma prune_directory tr prefix cutoff dir :
  fold_left (prune_entry tr prefix cutoff) (hash_iter dir) (dir, 0) =
  (kept tr prefix cutoff dir, size dir - size (kept tr prefix cutoff dir)).
Proof.
  rewrite prune_loop. cbn [Nat.add]. f_equal.
  - apply map_eq. intros name. rewrite delete_entries. unfold kept. rewrite map_lookup_filter.
    destruct (decide _) as [Hin|Hout]; destruct (dir !! name) as [m|] eqn:Ed; simpl; try done.
    + apply list_elem_of_fmap in Hin as ([x m'] & Ex & Hin). simpl in Ex. subst x.
      apply elem_of_reverse, list_elem_of_filter in Hin as [Hs Hin%elem_of_hash_iter]. simpl in Hs.
      rewrite Ed in Hin. injection Hin as ->. by rewrite option_guard_False by congruence.
    + rewrite option_guard_True; [done|]. apply not_true_is_false. intros Hs. apply Hout.
      apply list_elem_of_fmap. exists (name, m). split; [done|].
      apply elem_of_reverse, list_elem_of_filter. split; [done | by apply elem_of_hash_iter].
  - set (P := fun e : string * FileMeta => stale tr prefix cutoff e.1 e.2 = true).
    assert (Hperm : filter P (hash_iter dir) ≡ₚ map_to_list (filter P dir)).
    { apply NoDup_Permutation; [apply NoDup_filter, NoDup_hash_iter | apply NoDup_map_to_list|].
      intros [name m]. rewrite list_elem_of_filter, elem_of_hash_iter, elem_of_map_to_list,
        map_lookup_filter_Some. tauto. }
    assert (Hkept : kept tr prefix cutoff dir = filter (fun e => ~ P e) dir).
    { unfold kept, P. apply map_filter_ext. intros name m _. simpl. by destruct (stale _ _ _ _ _). }
    assert (Hsize : size dir = size (filter P dir) + size (kept tr prefix cutoff dir)).
    { rewrite Hkept. pose proof (map_size_disj_union _ _ (map_disjoint_filter_complement P dir)) as Hu.
      by rewrite map_filter_union_complement in Hu. }
    rewrite Hperm, length_map_to_list. lia.
Qed.

(** The directories after the third deletion, and what it counts. *)
Lemma sweep_directories tr now db_path (dirs : gmap string (gmap string FileMeta))
    (cutoff := default 0%Z (checked_sub now (duration_seconds (14 * 24 * 60 * 60)))) :
  let '(dirs', n) :=
    match db_path ≫= parent with
    | None => (dirs, 0)
    | Some dir =>
        let '(r, dirs) := prune_backup_files tr now dir BACKUP_FILENAME_PREFIX BACKUP_RETENTION_DAYS dirs in
        (dirs, try_prune r)
    end in
  (forall dir, dirs' !! dir =
     if decide (db_path ≫= parent = Some dir /\ tr_read_dir_fails tr = false)
     then kept tr BACKUP_FILENAME_PREFIX cutoff <$> dirs !! dir else dirs !! dir) /\
  n = default 0 (dir ← db_path ≫= parent; files ← dirs !! dir; files' ← dirs' !! dir;
                 Some (size files - size files')).
Proof.
  destruct (db_path ≫= parent) as [dir|]; cbv iota.
  2:{ split; [|done]. intros dir. by destruct (decide _) as [[[=] _]|]. }
  unfold prune_backup_files. change (u64_wrap _) with (14 * 24 * 60 * 60)%Z. fold cutoff.
  destruct (dirs !! dir) as [files|] eqn:Ed; cbv iota beta.
  2:{ split; [|simpl; by rewrite Ed]. intros dir'. destruct (decide _) as [[[= <-] _]|]; [by rewrite Ed | done]. }
  destruct (tr_read_dir_fails tr); cbv iota beta.
  - split; [|simpl; rewrite Ed; simpl; lia]. intros dir'. by destruct (decide _) as [[_ [=]]|].
  - rewrite prune_directory. cbv iota beta. split.
    + intros dir'. destruct (decide _) as [[[= <-] _]|Hne].
      * by rewrite lookup_insert_eq, Ed.
      * rewrite lookup_insert_ne; [done|]. intros ->. by apply Hne.
    + simpl. by rewrite Ed, lookup_insert_eq.
Qed.

End loop.

(** ** What is past its retention *)

Definition hours (n : Z) : Z := duration_seconds (n * 3600).

(** A rollout that reached a final state and carries a superseded or terminal time
    more than 90 days old. *)
Definition expired_rollout (now : DateTime) (row : RolloutRow) : Prop :=
  row_state row ∈ [RolloutState.Superseded; RolloutState.Terminal; RolloutState.Failed;
                   RolloutState.Reverted] /\
  exists t, (row_superseded_at row = Some t \/ row_terminal_at row = Some t) /\
    (t < now - hours (90 * 24))%Z.

Lemma prunable_expired now row :
  Rollouts.prunable (now - duration_seconds (FINISHED_ROLLOUTS_RETENTION_HOURS * 3600)) row = true <->
  expired_rollout now row.
Proof.
  unfold expired_rollout, hours. change (90 * 24)%Z with FINISHED_ROLLOUTS_RETENTION_HOURS.
  set (cutoff := (now - _)%Z). unfold Rollouts.prunable.
  rewrite andb_true_iff, orb_true_iff. split.
  - intros [Hs Ht]. split; [destruct (row_state row); by (done || set_solver)|].
    destruct Ht as [Ht|Ht]; case_match; try done; apply Z.ltb_lt in Ht; eauto.
  - intros [Hs (t & Ht & Hlt%Z.ltb_lt)]. split.
    + rewrite !elem_of_cons, elem_of_nil in Hs. by destruct_or! Hs; rewrite ?Hs.
    + destruct Ht as [-> | ->]; [by left | by right].
Qed.

Lemma prunable_kept now row :
  Rollouts.prunable (now - duration_seconds (FINISHED_ROLLOUTS_RETENTION_HOURS * 3600)) row = false <->
  ~ expired_rollout now row.
Proof. rewrite <- prunable_expired. by destruct (Rollouts.prunable _ row). Qed.

(** A backup of the database, a regular file on which no call fails, last modified
    more than 14 days ago. *)
Definition expired_backup (tr : Trouble) (cutoff : Z) (name : string) (m : FileMeta) : Prop :=
  starts_with "state.db.pre-" name = true /\ fm_is_file m = true /\ (fm_modified m < cutoff)%Z /\
  utf8_valid [] name = true /\ tr_entry_fails tr name = false /\ tr_metadata_fails tr name = false /\
  tr_modified_fails tr name = false /\ tr_remove_fails tr name = false.

Lemma stale_expired tr cutoff name m :
  stale tr BACKUP_FILENAME_PREFIX cutoff name m = false <-> ~ expired_backup tr cutoff name m.
Proof.
  rewrite <- not_true_iff_false. unfold stale, expired_backup, BACKUP_FILENAME_PREFIX.
  rewrite !andb_true_iff, !negb_true_iff, Z.ltb_lt. tauto.
Qed.

(** ** One deletion at a time *)

Section deletions.
Context {O : HashOrder} (tr : Trouble) (now : DateTime) (db_path : option string) (s : SweepState).

Lemma sweep_tokens_exact :
  let '(s', swept) := sweep tr now db_path s in
  (forall nonce r, sw_tokens s' !! nonce = Some r <-> sw_tokens s !! nonce = Some r /\
     ~ (tr_tokens_fail tr = false /\ tr_first_seen r < timestamp now - 24 * 3600)%Z) /\
  swept_token_replay swept = size (sw_tokens s) - size (sw_tokens s').
Proof.
  unfold sweep. destruct (if tr_rollouts_fail tr then _ else _) as [d n].
  destruct (match db_path ≫= parent with Some _ => _ | None => _ end) as [dirs backups]. simpl.
  destruct (tr_tokens_fail tr); simpl; (split; [|lia || done]); intros nonce r; [naive_solver|].
  unfold Tokens.prune_token_replay. rewrite map_lookup_filter_Some. simpl.
  change TOKEN_REPLAY_RETENTION_HOURS with 24%Z. split; intros [H Hr]; (split; [done|]); [lia|].
  apply Z.nlt_ge. intros Hlt. by apply Hr.
Qed.

Lemma sweep_rollouts_exact :
  let '(s', swept) := sweep tr now db_path s in
  (forall rid row, db_rollouts (sw_db s') !! rid = Some row <-> db_rollouts (sw_db s) !! rid = Some row /\
     ~ (tr_rollouts_fail tr = false /\ expired_rollout now row)) /\
  (forall rid host st, db_records (sw_db s') !! (rid, host) = Some st <->
     db_records (sw_db s) !! (rid, host) = Some st /\
     ~ (tr_rollouts_fail tr = false /\
        exists row, db_rollouts (sw_db s) !! rid = Some row /\ expired_rollout now row)) /\
  (sw_db s' = (sw_db s) <| db_rollouts := db_rollouts (sw_db s') |> <| db_records := db_records (sw_db s') |>) /\
  swept_rollouts swept = size (db_rollouts (sw_db s)) - size (db_rollouts (sw_db s')).
Proof.
  unfold sweep.
  pose proof (prune_finished_rollouts_spec now FINISHED_ROLLOUTS_RETENTION_HOURS (sw_db s)) as H.
  assert (Hrest : (prune_finished_rollouts now FINISHED_ROLLOUTS_RETENTION_HOURS (sw_db s)).1 =
    (sw_db s) <| db_rollouts := db_rollouts (prune_finished_rollouts now FINISHED_ROLLOUTS_RETENTION_HOURS (sw_db s)).1 |>
            <| db_records := db_records (prune_finished_rollouts now FINISHED_ROLLOUTS_RETENTION_HOURS (sw_db s)).1 |>)
    by done.
  cbv zeta in H.
  destruct (match db_path ≫= parent with Some _ => _ | None => _ end) as [dirs backups].
  destruct (prune_finished_rollouts _ _ _) as [d [n k]]. destruct H as (Hrows & Hrecs & Hn & _).
  destruct (tr_rollouts_fail tr); simpl.
  - split_and!; [naive_solver | naive_solver | by destruct s as [? [] ?] | lia].
  - split_and!; [| |exact Hrest|exact Hn].
    + intros rid row. rewrite Hrows, prunable_kept. naive_solver.
    + intros rid host st. rewrite Hrecs. setoid_rewrite prunable_kept. naive_solver.
Qed.

Lemma sweep_dirs_exact (cutoff := default 0%Z (checked_sub now (hours (14 * 24)))) :
  let '(s', swept) := sweep tr now db_path s in
  (forall dir files, sw_dirs s !! dir = Some files ->
     exists files', sw_dirs s' !! dir = Some files' /\
       forall name m, files' !! name = Some m <-> files !! name = Some m /\
         ~ (db_path ≫= parent = Some dir /\ tr_read_dir_fails tr = false /\
            expired_backup tr cutoff name m)) /\
  (forall dir, sw_dirs s !! dir = None -> sw_dirs s' !! dir = None) /\
  swept_backups swept =
    default 0 (dir ← db_path ≫= parent; files ← sw_dirs s !! dir; files' ← sw_dirs s' !! dir;
               Some (size files - size files')).
Proof.
  unfold sweep. destruct (if tr_rollouts_fail tr then _ else _) as [d n].
  pose proof (sweep_directories tr now db_path (sw_dirs s)) as Hdirs. cbv zeta in Hdirs.
  change (duration_seconds (14 * 24 * 60 * 60)) with (hours (14 * 24)) in Hdirs. fold cutoff in Hdirs.
  destruct (match db_path ≫= parent with Some _ => _ | None => _ end) as [dirs backups].
  destruct Hdirs as [Hdirs Hcount]. simpl. split_and!; [| |done].
  - intros dir files Hf. rewrite Hdirs, Hf. destruct (decide _) as [Hd|Hd]; eexists; (split; [done|]); intros name m.
    + unfold kept. rewrite map_lookup_filter_Some. simpl. rewrite stale_expired. naive_solver.
    + naive_solver.
  - intros dir Hf. rewrite Hdirs, Hf. by destruct (decide _).
Qed.

End deletions.

(** C18.  A tick of the hourly sweep does its three deletions independently of each
    other, whatever fails of the others.  A nonce goes exactly when its statement
    goes through and it was first seen more than 24 hours ago.  A rollout goes, and
    with it its host records, exactly when the statement goes through and it is in
    a final state and carries a superseded or terminal time more than 90 days old;
    so a failed or reverted rollout, which is stamped with neither time unless a
    successor opened, stays.  In the directory of the database exactly the
    regular files go whose name starts with [state.db.pre-], on which no call
    fails and that were modified more than 14 days ago, in whatever order it is
    read; a database path without a directory has none.  Every other table,
    directory and file stays, the database file among them, and the counts are
    those of what went. *)
Theorem sweep_is_exact {O : HashOrder} (tr : Trouble) (now : DateTime) (db_path : option string)
    (s : SweepState)
    (cutoff := default 0%Z (checked_sub now (hours (14 * 24)))) :
  let '(s', swept) := sweep tr now db_path s in
  (forall nonce r, sw_tokens s' !! nonce = Some r <-> sw_tokens s !! nonce = Some r /\
     ~ (tr_tokens_fail tr = false /\ tr_first_seen r < timestamp now - 24 * 3600)%Z) /\
  (forall rid row, db_rollouts (sw_db s') !! rid = Some row <-> db_rollouts (sw_db s) !! rid = Some row /\
     ~ (tr_rollouts_fail tr = false /\ expired_rollout now row)) /\
  (forall rid host st, db_records (sw_db s') !! (rid, host) = Some st <->
     db_records (sw_db s) !! (rid, host) = Some st /\
     ~ (tr_rollouts_fail tr = false /\
        exists row, db_rollouts (sw_db s) !! rid = Some row /\ expired_rollout now row)) /\
  (sw_db s' = (sw_db s) <| db_rollouts := db_rollouts (sw_db s') |> <| db_records := db_records (sw_db s') |>) /\
  (forall dir files, sw_dirs s !! dir = Some files ->
     exists files', sw_dirs s' !! dir = Some files' /\
       forall name m, files' !! name = Some m <-> files !! name = Some m /\
         ~ (db_path ≫= parent = Some dir /\ tr_read_dir_fails tr = false /\
            expired_backup tr cutoff name m)) /\
  (forall dir, sw_dirs s !! dir = None -> sw_dirs s' !! dir = None) /\
  swept_token_replay swept = size (sw_tokens s) - size (sw_tokens s') /\
  swept_rollouts swept = size (db_rollouts (sw_db s)) - size (db_rollouts (sw_db s')) /\
  swept_backups swept =
    default 0 (dir ← db_path ≫= parent; files ← sw_dirs s !! dir; files' ← sw_dirs s' !! dir;
               Some (size files - size files')).
Proof.
  pose proof (sweep_dirs_exact tr now db_path s) as Hdirs.
  pose proof (sweep_rollouts_exact tr now db_path s) as Hrollouts.
  pose proof (sweep_tokens_exact tr now db_path s) as Htokens.
  destruct (sweep tr now db_path s) as [s' swept].
  destruct Hdirs as (? & ? & ?), Hrollouts as (? & ? & ? & ?), Htokens as [? ?]. by split_and!.
Qed.

(** A database path without a directory has the empty path as its parent, which
    no directory has: its backups are never swept. *)
Lemma bare_path_never_sweeps {O : HashOrder} tr now s :
  sw_dirs s !! "" = None -> sw_dirs (sweep tr now (Some "state.db") s).1 = sw_dirs s.
Proof.
  intros H. unfold sweep. destruct (if tr_rollouts_fail tr then _ else _) as [d n].
  change (Some "state.db" ≫= parent) with (Some ""). cbv iota beta. unfold prune_backup_files. by rewrite H.
Qed.
