(* ===== verification/CpFetch.v ===== *)
(** * What the control plane fetches

    Models, of [crates/nixfleet-control-plane/src/]: [polling/signed_fetch.rs],
    [polling/poller.rs] and both of its polls, [rollouts_source.rs],
    [runtime/workers/manifest_poll.rs], and the start of [server/mod.rs]: the
    strict check, the prime of the verified fleet, and the tasks that are
    spawned.  The clock, the files and the forge are the class [FetchEnv]; each
    question is answered by the number of questions asked before it. *)

From S2P Require Import Prelude RustStd Proto HostTypes Gates Verify Manifest HostKey Issuance Enrollment.
From S2P Require Import CpStore CpRuntime CpServe.

Class FetchEnv := {
  fe_now : nat -> DateTime;
  fe_trust_file : nat -> string -> result TrustConfig string;   (* read and parsed *)
  fe_read_to_string : nat -> string -> result string string;
  fe_read : nat -> string -> option string;                     (* [std::fs::read] *)
  fe_get : nat -> string -> option string -> HttpAnswer;        (* url and bearer token *)
  fe_status_text : Z -> string;
  fe_debug : VerifyError -> string;
}.

Abbreviation FetchM := AskM.

(** ** [polling/signed_fetch.rs] *)

Module signed_fetch.
Section fetch.
Context {E : FetchEnv}.

Definition read_trust_roots (path : string) (now : DateTime)
    : FetchM (result (list TrustedPubkey * option DateTime) string) :=
  trust ← question (fun n => fe_trust_file n path);
  mret match trust with
  | Err e => Err e
  | Ok trust =>
      Ok (active_keys_at (tc_ci_release_key trust) now, ks_reject_before (tc_ci_release_key trust))
  end.

Definition read_token (path : option string) : FetchM (result (option string) string) :=
  match path with
  | Some p =>
      raw ← question (fun n => fe_read_to_string n p);
      mret match raw with
      | Err e => Err ("read token file " +:+ p +:+ ": " +:+ e)
      | Ok raw => Ok (Some (trim raw))
      end
  | None => mret (Ok None)
  end.

Definition fetch_url (url : string) (token : option string) : FetchM (result string string) :=
  resp ← question (fun n => fe_get n url token);
  mret match resp with
  | SendFailed err => Err ("GET " +:+ url +:+ ": " +:+ err)
  | Response status body =>
      if negb (is_success status) then
        Err (url +:+ ": " +:+ fe_status_text status +:+ ": " +:+
             match body with Ok text => text | Err _ => "" end)
      else
        match body with
        | Err err => Err ("read body " +:+ url +:+ ": " +:+ err)
        | Ok bytes => Ok bytes
        end
  end.

Definition fetch_signed_pair (artifact_url signature_url : string) (token : option string)
    : FetchM (result (string * string) string) :=
  try artifact := fetch_url artifact_url token in
  try signature := fetch_url signature_url token in
  mret (Ok (artifact, signature)).

End fetch.
End signed_fetch.

(** The three sources have the same fields. *)
Record SignedSource := MkSignedSource {
  src_artifact_url : string;
  src_signature_url : string;
  src_token_file : option string;
  src_trust_path : string;
  src_freshness_window : Duration;
}.

(** ** [rollouts_source.rs] *)

Module RolloutsSource.

Definition ROLLOUT_ID_PLACEHOLDER : string := "{rolloutId}".

Record t := MkRolloutsSource {
  artifact_url_template : string;
  signature_url_template : string;
  token_file : option string;
}.

Definition new (artifact_url_template signature_url_template : string) (token_file : option string)
    : result t string :=
  if negb (contains ROLLOUT_ID_PLACEHOLDER artifact_url_template) then
    Err ("rollouts source: artifact_url_template must contain " +:+ ROLLOUT_ID_PLACEHOLDER)
  else if negb (contains ROLLOUT_ID_PLACEHOLDER signature_url_template) then
    Err ("rollouts source: signature_url_template must contain " +:+ ROLLOUT_ID_PLACEHOLDER)
  else Ok (MkRolloutsSource artifact_url_template signature_url_template token_file).

Definition fetch_pair {E : FetchEnv} (s : t) (rollout_id : string)
    : FetchM (result (string * string) string) :=
  let artifact_url := replace ROLLOUT_ID_PLACEHOLDER rollout_id (artifact_url_template s) in
  let signature_url := replace ROLLOUT_ID_PLACEHOLDER rollout_id (signature_url_template s) in
  try token := signed_fetch.read_token (token_file s) in
  fetched ← signed_fetch.fetch_signed_pair artifact_url signature_url token;
  mret match fetched with
  | Err e => Err ("fetch rollout pair for " +:+ rollout_id +:+ ": " +:+ e)
  | Ok found => Ok found
  end.

End RolloutsSource.

(** ** The state the polls write *)

Record AppState := MkAppState {
  ap_identity : IdentityState;
  ap_verified_fleet : option VerifiedFleetSnapshot;
  ap_primed : Primed;
}.
#[export] Instance AppState_eta : Etaexp AppState := fun s =>
  MkAppState (ap_identity s) (ap_verified_fleet s) (ap_primed s).
#[export] Instance Primed_eta : Etaexp Primed := fun p =>
  MkPrimed (pm_artifact p) (pm_revocations p) (pm_revocations_required p) (pm_bootstrap_nonces p)
    (pm_bootstrap_nonces_required p).

Section polls.
Context {O : HashOrder} {Cr : Crypto} {E : FetchEnv}.

(** What both polls have in common: the clock is read for the keys and again for
    the check. *)
Definition poll_signed {T} {De : DeserializeOwned T} {Si : SignedSidecar T} (label : string)
    (config : SignedSource) : FetchM (result T string) :=
  try token := signed_fetch.read_token (src_token_file config) in
  try pair_ := signed_fetch.fetch_signed_pair (src_artifact_url config) (src_signature_url config) token in
  let '(artifact_bytes, signature_bytes) := pair_ in
  now ← question fe_now;
  try roots := signed_fetch.read_trust_roots (src_trust_path config) now in
  let '(trusted_keys, reject_before) := roots in
  now ← question fe_now;
  verified ← settle (verify_signed_sidecar artifact_bytes signature_bytes trusted_keys now
                       (src_freshness_window config) reject_before);
  mret match verified with
  | Err e => Err (label +:+ ": " +:+ fe_debug e)
  | Ok v => Ok (inner v)
  end.

(** ** [polling/revocations_poll.rs] and [polling/bootstrap_nonces_poll.rs] *)

Definition revocations_poll_once {De : DeserializeOwned Revocations} (config : SignedSource)
    : FetchM (result Revocations string) :=
  poll_signed "verify_revocations (revocations poll)" config.

(** One turn; what the statements do is an argument. *)
Definition revocations_tick {De : DeserializeOwned Revocations} (config : SignedSource)
    (fails : nat -> bool) (retain_fails : bool) (st : AppState) : FetchM (result AppState string) :=
  try revs := revocations_poll_once config in
  now ← question fe_now;
  mret (Ok (st <| ap_identity := apply_verified_revocations fails retain_fails now revs (ap_identity st) |>
               <| ap_primed := (ap_primed st) <| pm_revocations := true |> |>)).

Definition bootstrap_nonces_poll_once {De : DeserializeOwned BootstrapNonces} (config : SignedSource)
    : FetchM (result BootstrapNonces string) :=
  poll_signed "verify_bootstrap_nonces (bootstrap-nonces poll)" config.

Definition bootstrap_nonces_tick {De : DeserializeOwned BootstrapNonces} (config : SignedSource)
    (st : AppState) : FetchM (result AppState string) :=
  try bn := bootstrap_nonces_poll_once config in
  mret (Ok (st <| ap_identity := apply_verified_allowlist bn (ap_identity st) |>
               <| ap_primed := (ap_primed st) <| pm_bootstrap_nonces := true |> |>)).

(** ** [runtime/workers/manifest_poll.rs] *)

Section manifest_poll.
Context {Df : DeserializeOwned FleetResolved} {Dm : DeserializeOwned RolloutManifest}.

Definition check_rollout_id_discriminator (manifest_channel manifest_channel_ref requested : string)
    : result unit string :=
  let parsed := rollout_id.new manifest_channel manifest_channel_ref in
  if negb (bool_decide (rid_raw parsed = requested)) then
    Err ("rollout_id discriminator failed: requested " +:+ requested +:+
         " but signed manifest declares " +:+ rid_raw parsed)
  else Ok tt.

Definition fetch_and_verify_channel_manifest (rollouts_source : RolloutsSource.t)
    (fleet : FleetResolved) (fleet_hash channel : string) (trusted_keys : list TrustedPubkey)
    (now : DateTime) (freshness_window : Duration) (reject_before : option DateTime)
    : FetchM (result (option (Verified RolloutManifest)) string) :=
  match compute_rollout_id_for_channel fleet fleet_hash channel with
  | Err e => mret (Err e)
  | Ok None => mret (Ok None)
  | Ok (Some rollout_id) =>
      try pair_ := RolloutsSource.fetch_pair rollouts_source rollout_id in
      let '(manifest_bytes, signature_bytes) := pair_ in
      verified ← settle (verify_rollout_manifest manifest_bytes signature_bytes trusted_keys now
                           freshness_window reject_before);
      mret match verified with
      | Err e => Err ("verify_rollout_manifest(" +:+ channel +:+ "): " +:+ fe_debug e)
      | Ok verified =>
          match check_rollout_id_discriminator (rm_channel (inner verified))
                  (rm_channel_ref (inner verified)) rollout_id with
          | Err e => Err (channel +:+ ": " +:+ e)
          | Ok _ => Ok (Some verified)
          end
      end
  end.

(** The loop over the channels; one that fails is left out. *)
Fixpoint fetch_channels (rollouts_source : RolloutsSource.t) (fleet : FleetResolved)
    (fleet_hash : string) (trusted_keys : list TrustedPubkey) (now : DateTime)
    (freshness_window : Duration) (reject_before : option DateTime)
    (rollouts : gmap string (Verified RolloutManifest)) (channels : list string)
    : FetchM (gmap string (Verified RolloutManifest)) :=
  match channels with
  | [] => mret rollouts
  | channel :: channels =>
      fetched ← fetch_and_verify_channel_manifest rollouts_source fleet fleet_hash channel trusted_keys
                  now freshness_window reject_before;
      let rollouts :=
        match fetched with
        | Ok (Some verified) => <[ channel := verified ]> rollouts
        | Ok None | Err _ => rollouts
        end in
      fetch_channels rollouts_source fleet fleet_hash trusted_keys now freshness_window reject_before
        rollouts channels
  end.

Definition manifest_poll_once (channel_refs_source : option SignedSource)
    (rollouts_source : option RolloutsSource.t)
    : FetchM (result (option (SignedManifestSet * VerifiedFleetSnapshot)) string) :=
  match channel_refs_source with
  | None => mret (Ok None)
  | Some source =>
      now ← question fe_now;
      try roots := signed_fetch.read_trust_roots (src_trust_path source) now in
      let '(trusted_keys, reject_before) := roots in
      try token := signed_fetch.read_token (src_token_file source) in
      try pair_ := signed_fetch.fetch_signed_pair (src_artifact_url source) (src_signature_url source) token in
      let '(artifact_bytes, signature_bytes) := pair_ in
      verified ← settle (verify_artifact artifact_bytes signature_bytes trusted_keys now
                           (src_freshness_window source) reject_before);
      match verified with
      | Err e => mret (Err ("verify_artifact: " +:+ fe_debug e))
      | Ok fleet =>
          match canonical_hash_from_bytes artifact_bytes with
          | Err e => mret (Err ("canonical_hash_from_bytes: " +:+ fe_debug e))
          | Ok fleet_hash =>
              rollouts ← match rollouts_source with
                         | Some rollouts_source =>
                             fetch_channels rollouts_source (inner fleet) fleet_hash trusted_keys now
                               (src_freshness_window source) reject_before ∅
                               (hash_iter (fr_channels (inner fleet))).*1
                         | None => mret ∅
                         end;
              let snapshot :=
                MkVerifiedFleetSnapshot (inner fleet) fleet_hash artifact_bytes signature_bytes in
              mret (Ok (Some (MkSignedManifestSet fleet rollouts, snapshot)))
          end
      end
  end.

Definition publish_verified_fleet (snapshot : VerifiedFleetSnapshot) (st : AppState) : AppState :=
  st <| ap_verified_fleet := Some snapshot |>
     <| ap_identity := publish_fleet (vs_fleet snapshot) (ap_identity st) |>
     <| ap_primed := (ap_primed st) <| pm_artifact := true |> |>.

(** One turn of the worker: the state, and the set it sends. *)
Definition manifest_tick (channel_refs_source : option SignedSource)
    (rollouts_source : option RolloutsSource.t) (st : AppState)
    : FetchM (AppState * option SignedManifestSet) :=
  polled ← manifest_poll_once channel_refs_source rollouts_source;
  mret match polled with
  | Ok (Some (set, snapshot)) => (publish_verified_fleet snapshot st, Some set)
  | Ok None | Err _ => (st, None)
  end.

Definition prime_blocking (channel_refs_source : option SignedSource)
    (rollouts_source : option RolloutsSource.t) (st : AppState) : FetchM (AppState * result bool string) :=
  match channel_refs_source with
  | None => mret (st, Ok false)
  | Some _ =>
      polled ← manifest_poll_once channel_refs_source rollouts_source;
      mret match polled with
      | Ok (Some (_, snapshot)) => (publish_verified_fleet snapshot st, Ok true)
      | Ok None => (st, Ok false)
      | Err e => (st, Err e)
      end
  end.

(** ** The start ([serve] of [server/mod.rs]) *)

Record ServeArgs := MkServeArgs {
  sa_strict : bool;
  sa_client_ca : bool;                                  (* whether it is given *)
  sa_revocations : option SignedSource;
  sa_bootstrap_nonces : option SignedSource;
  sa_tpm_ca_pubkey_raw : bool;
  sa_tpm_ca_sign_wrapper : bool;
  sa_fleet_ca_key : bool;
  sa_allow_file_ca_key : bool;
  sa_db_path : bool;
  sa_channel_refs : option SignedSource;
  sa_rollouts_source : option RolloutsSource.t;
  sa_artifact_path : string;
  sa_signature_path : string;
  sa_trust_path : string;
  sa_freshness_window : Duration;
  sa_mark_ready_at_startup : bool;                      (* both for tests *)
  sa_initial_nonces : option (gmap string BootstrapNonceEntry);
}.

(** The flags the strict mode misses, by name. *)
Definition missing_flags (args : ServeArgs) : list string :=
  let tpm_configured := sa_tpm_ca_pubkey_raw args && sa_tpm_ca_sign_wrapper args in
  let file_only := sa_fleet_ca_key args && negb tpm_configured in
  (if sa_client_ca args then [] else ["--client-ca"]) ++
  (match sa_revocations args with Some _ => [] | None => ["--revocations-{artifact,signature}-url"] end) ++
  (match sa_bootstrap_nonces args with
   | Some _ => [] | None => ["--bootstrap-nonces-{artifact,signature}-url"] end) ++
  (if file_only && negb (sa_allow_file_ca_key args) then ["--tpm-ca-pubkey-raw + --tpm-ca-sign-wrapper"]
   else []).

Definition strict_check (args : ServeArgs) : result unit (list string) :=
  if sa_strict args && negb (is_empty (missing_flags args)) then Err (missing_flags args) else Ok tt.

Definition prime_from_artifact_files (artifact_path signature_path trust_path : string)
    (freshness_window : Duration) : FetchM (option VerifiedFleetSnapshot) :=
  artifact ← question (fun n => fe_read n artifact_path);
  match artifact with
  | None => mret None
  | Some artifact =>
      signature ← question (fun n => fe_read n signature_path);
      match signature with
      | None => mret None
      | Some signature =>
          trust ← question (fun n => fe_trust_file n trust_path);
          match trust with
          | Err _ => mret None
          | Ok trust =>
              now ← question fe_now;
              let slot := tc_ci_release_key trust in
              verified ← settle (verify_artifact artifact signature (active_keys_at slot now) now
                                   freshness_window (ks_reject_before slot));
              mret match verified with
              | Err _ => None
              | Ok verified =>
                  match canonical_hash_from_bytes artifact with
                  | Err _ => None
                  | Ok fleet_hash =>
                      Some (MkVerifiedFleetSnapshot (inner verified) fleet_hash artifact signature)
                  end
              end
          end
      end
  end.

(** The tasks that poll, while they live. *)
Record Daemon := MkDaemon {
  dm_state : AppState;
  dm_asked : nat;
  dm_manifest_poll : bool;
  dm_revocations_poll : bool;
  dm_nonces_poll : bool;
  dm_sent : list SignedManifestSet;                     (* to the reducer *)
}.

Definition given {A} (o : option A) : bool := match o with Some _ => true | None => false end.

(** The revocations poll needs a database. *)
Definition spawn_polls (args : ServeArgs) (st : AppState) : FetchM Daemon := fun n =>
  (Returned (MkDaemon st n (given (sa_channel_refs args))
               (given (sa_revocations args) && sa_db_path args)
               (given (sa_bootstrap_nonces args)) []), n).

(** The state before the listener opens.  [identity] is what the database holds;
    the poll of the prime is dropped when it [timed_out].  A panic ends the
    process. *)
Definition serve_start (args : ServeArgs) (identity : IdentityState) (timed_out : bool)
    : FetchM (result Daemon (list string)) :=
  match strict_check args with
  | Err missing => mret (Err missing)
  | Ok _ =>
      let ready := sa_mark_ready_at_startup args in
      let identity :=
        match sa_initial_nonces args with
        | Some nonces => identity <| is_allowed_nonces := nonces |>
        | None => identity
        end in
      let st := MkAppState identity None
                  (MkPrimed ready ready (given (sa_revocations args)) ready
                     (given (sa_bootstrap_nonces args))) in
      '(st, _) ← (if timed_out then mret (st, Ok false)
                  else prime_blocking (sa_channel_refs args) (sa_rollouts_source args) st);
      st ← match ap_verified_fleet st with
           | Some _ => mret st
           | None =>
               primed ← prime_from_artifact_files (sa_artifact_path args) (sa_signature_path args)
                          (sa_trust_path args) (sa_freshness_window args);
               mret match primed with
               | Some snapshot => publish_verified_fleet snapshot st
               | None => st
               end
           end;
      d ← spawn_polls args st;
      mret (Ok d)
  end.

End manifest_poll.

(** ** The running daemon

    Each live task takes a turn at any time; a turn that panics is its last.  The
    manifest poll also ends when the channel to the reducer is closed. *)
Section daemon.
Context {Df : DeserializeOwned FleetResolved} {Dm : DeserializeOwned RolloutManifest}.
Context {Dr : DeserializeOwned Revocations} {Db_ : DeserializeOwned BootstrapNonces}.
Context (args : ServeArgs).

#[global] Instance Daemon_eta : Etaexp Daemon := fun d =>
  MkDaemon (dm_state d) (dm_asked d) (dm_manifest_poll d) (dm_revocations_poll d) (dm_nonces_poll d)
    (dm_sent d).

Definition manifest_turn (closed : bool) (d : Daemon) : Daemon :=
  match manifest_tick (sa_channel_refs args) (sa_rollouts_source args) (dm_state d) (dm_asked d) with
  | (Returned (st, set), n) =>
      let d := d <| dm_state := st |> <| dm_asked := n |> in
      match set with
      | Some set =>
          if closed then d <| dm_manifest_poll := false |> else d <| dm_sent := dm_sent d ++ [set] |>
      | None => d
      end
  | (Panicked, n) | (OutOfFuel, n) => d <| dm_asked := n |> <| dm_manifest_poll := false |>
  end.

Definition revocations_turn (source : SignedSource) (fails : nat -> bool) (retain_fails : bool)
    (d : Daemon) : Daemon :=
  match revocations_tick source fails retain_fails (dm_state d) (dm_asked d) with
  | (Returned (Ok st), n) => d <| dm_state := st |> <| dm_asked := n |>
  | (Returned (Err _), n) => d <| dm_asked := n |>
  | (Panicked, n) | (OutOfFuel, n) => d <| dm_asked := n |> <| dm_revocations_poll := false |>
  end.

Definition nonces_turn (source : SignedSource) (d : Daemon) : Daemon :=
  match bootstrap_nonces_tick source (dm_state d) (dm_asked d) with
  | (Returned (Ok st), n) => d <| dm_state := st |> <| dm_asked := n |>
  | (Returned (Err _), n) => d <| dm_asked := n |>
  | (Panicked, n) | (OutOfFuel, n) => d <| dm_asked := n |> <| dm_nonces_poll := false |>
  end.

(** The requests and the sweep change the identity tables only. *)
Inductive daemon_step (d : Daemon) : Daemon -> Prop :=
| step_manifest closed : dm_manifest_poll d = true -> daemon_step d (manifest_turn closed d)
| step_revocations source fails retain_fails :
    dm_revocations_poll d = true -> sa_revocations args = Some source ->
    daemon_step d (revocations_turn source fails retain_fails d)
| step_nonces source :
    dm_nonces_poll d = true -> sa_bootstrap_nonces args = Some source ->
    daemon_step d (nonces_turn source d)
| step_tokens tokens audit :
    daemon_step d (d <| dm_state := (dm_state d) <| ap_identity :=
      (ap_identity (dm_state d)) <| is_tokens := tokens |> <| is_audit := audit |> |> |>).

End daemon.
End polls.
