(* ===== verification/CpFetchProps.v ===== *)
(** * What the control plane fetches: theorems

    Everything the polls put into the state or send to the reducer was accepted
    by the verifier, under the keys and the clock of that very turn. *)

From S2P Require Import Prelude RustStd Proto HostTypes Gates Verify VerifyProps Manifest HostKey.
From S2P Require Import Issuance Enrollment EnrollmentProps AgentHost AgentManifests AgentManifestsProps.
From S2P Require Import CpStore CpRuntime CpServe CpFetch.

(** ** What the verifier accepts *)

Section vetted.
Context {Cr : Crypto} {E : FetchEnv}.

(** The release keys of [slot] at [now] accept [bytes] as [v]. *)
Definition vetted {T} {De : DeserializeOwned T} {Si : SignedSidecar T} (slot : KeySlot)
    (now : DateTime) (window : Duration) (bytes signature : string) (v : Verified T) : Prop :=
  exists canonical, canonical_form bytes canonical /\
    Exists (key_accepts canonical signature) (active_keys_at slot now) /\
    payload_ok canonical (ks_reject_before slot) v /\ in_window window now (v_signed_at v).

Lemma sidecar_vetted {T} {De : DeserializeOwned T} {Si : SignedSidecar T} bytes signature slot now window v :
  (0 <= window)%Z ->
  verify_signed_sidecar bytes signature (active_keys_at slot now) now window (ks_reject_before slot) =
    Returned (Ok v) -> vetted slot now window bytes signature v.
Proof. intros Hw H. by apply sidecar_ok in H as [_ H]. Qed.

Context {Df : DeserializeOwned FleetResolved}.

(** The fleet is normalised after the check. *)
Definition fleet_vetted (slot : KeySlot) (now : DateTime) (window : Duration) (bytes signature : string)
    (f : Verified FleetResolved) : Prop :=
  exists raw, vetted slot now window bytes signature raw /\
    f = MkVerified (normalize_rollout_policies (inner raw)) (v_signed_at raw).

Lemma artifact_vetted bytes signature slot now window f :
  (0 <= window)%Z ->
  verify_artifact bytes signature (active_keys_at slot now) now window (ks_reject_before slot) =
    Returned (Ok f) -> fleet_vetted slot now window bytes signature f.
Proof.
  intros Hw H. unfold verify_artifact in H.
  destruct (verify_signed_sidecar _ _ _ _ _ _) as [[raw|]| |] eqn:E1; simpl in H; try done.
  injection H as <-. exists raw. split; [by apply sidecar_vetted | done].
Qed.

(** The trust file at [path] said [trust] at some time. *)
Definition trusted (path : string) (trust : TrustConfig) : Prop := exists n, fe_trust_file n path = Ok trust.

(** A successful answer with this body. *)
Definition served (body : string) (answer : HttpAnswer) : Prop :=
  exists status, answer = Response status (Ok body) /\ is_success status = true.

(** The token of a source: what its file said, trimmed. *)
Definition token_of (src : SignedSource) (token : option string) : Prop :=
  match src_token_file src with
  | None => token = None
  | Some path => exists n raw, fe_read_to_string n path = Ok raw /\ token = Some (trim raw)
  end.

(** The forge's answers at the two URLs of a source, asked with its token. *)
Definition fetched_from (src : SignedSource) (bytes signature : string) : Prop :=
  exists token n m, token_of src token /\
    served bytes (fe_get n (src_artifact_url src) token) /\
    served signature (fe_get m (src_signature_url src) token).

Record snapshot_ok (path : string) (window : Duration) (s : VerifiedFleetSnapshot) : Prop := {
  so_vetted : exists trust now f, trusted path trust /\
    fleet_vetted (tc_ci_release_key trust) now window (vs_artifact_bytes s) (vs_signature_bytes s) f /\
    vs_fleet s = inner f;
  so_hash : canonical_hash_from_bytes (vs_artifact_bytes s) = Ok (vs_fleet_resolved_hash s);
}.

End vetted.

(** ** The polls *)

Section polls.
Context {O : HashOrder} {Cr : Crypto} {E : FetchEnv}.

Lemma read_trust_roots_ok path now n r n' :
  signed_fetch.read_trust_roots path now n = (Returned (Ok r), n') ->
  exists trust, trusted path trust /\
    r = (active_keys_at (tc_ci_release_key trust) now, ks_reject_before (tc_ci_release_key trust)).
Proof.
  intros H. unfold signed_fetch.read_trust_roots in H. ask_step H t n1.
  destruct (fe_trust_file n path) as [trust|] eqn:Ht; [|done]. injection H as <- <-.
  exists trust. split; [by exists n | done].
Qed.

Lemma read_token_ok src n token n' :
  signed_fetch.read_token (src_token_file src) n = (Returned (Ok token), n') -> token_of src token.
Proof.
  unfold signed_fetch.read_token, token_of. intros H.
  destruct (src_token_file src) as [path|]; [|by injection H as <- _].
  ask_step H raw n1. destruct (fe_read_to_string n path) as [raw|] eqn:Hr; [|done].
  injection H as <- _. by exists n, raw.
Qed.

Lemma fetch_url_ok url token n body n' :
  signed_fetch.fetch_url url token n = (Returned (Ok body), n') ->
  exists n, served body (fe_get n url token).
Proof.
  unfold signed_fetch.fetch_url. intros H. ask_step H resp n1. exists n.
  destruct (fe_get n url token) as [err|status [text|err]]; [done| |by destruct (negb _)].
  destruct (is_success status) eqn:Es; simpl in H; [|done]. injection H as <- _. by exists status.
Qed.

Lemma fetch_signed_pair_ok src token n bytes signature n' :
  token_of src token ->
  signed_fetch.fetch_signed_pair (src_artifact_url src) (src_signature_url src) token n =
    (Returned (Ok (bytes, signature)), n') ->
  fetched_from src bytes signature.
Proof.
  intros Ht H. unfold signed_fetch.fetch_signed_pair in H.
  ask_step H a n1. destruct a as [a|]; [|done]. ask_step H g n2. destruct g as [g|]; [|done].
  injection H as <- <- _. apply fetch_url_ok in H0 as [x Hx], H1 as [y Hy]. by exists token, x, y.
Qed.

Lemma poll_signed_ok {T} {De : DeserializeOwned T} {Si : SignedSidecar T} label config n v n' :
  (0 <= src_freshness_window config)%Z ->
  poll_signed (T := T) label config n = (Returned (Ok v), n') ->
  exists trust t1 t2 bytes signature w, fetched_from config bytes signature /\
    trusted (src_trust_path config) trust /\ inner w = v /\
    verify_signed_sidecar bytes signature (active_keys_at (tc_ci_release_key trust) (fe_now t1))
      (fe_now t2) (src_freshness_window config) (ks_reject_before (tc_ci_release_key trust)) =
      Returned (Ok w).
Proof.
  intros Hw H. unfold poll_signed in H.
  ask_step H token n1. destruct token as [token|]; [|done].
  ask_step H p n2. destruct p as [[artifact signature]|]; [|done].
  apply read_token_ok in H0. apply (fetch_signed_pair_ok _ _ _ _ _ _ H0) in H1 as Hpair.
  ask_step H now n3. ask_step H roots n4. destruct roots as [[keys rb]|]; [|done].
  apply read_trust_roots_ok in H2 as (trust & Ht & [= -> ->]).
  ask_step H now2 n5. ask_step H ver n6. injection H2 as Hver <-.
  destruct ver as [w|]; [|done]. injection H as <- <-.
  by exists trust, n2, n4, artifact, signature, w.
Qed.

Context {Df : DeserializeOwned FleetResolved} {Dm : DeserializeOwned RolloutManifest}.

(** One rollout of a set: its channel is the fleet's, its identifier is the one
    projected from that fleet, and it is vetted like it. *)
Definition rollout_ok (slot : KeySlot) (now : DateTime) (window : Duration) (f : FleetResolved)
    (hash channel : string) (v : Verified RolloutManifest) : Prop :=
  is_Some (fr_channels f !! channel) /\
  exists id bytes signature, compute_rollout_id_for_channel f hash channel = Ok (Some id) /\
    rid_raw (rollout_id.new (rm_channel (inner v)) (rm_channel_ref (inner v))) = id /\
    vetted slot now window bytes signature v.

Lemma channel_manifest_ok rs f hash channel slot now window n v n' :
  (0 <= window)%Z -> is_Some (fr_channels f !! channel) ->
  fetch_and_verify_channel_manifest rs f hash channel (active_keys_at slot now) now window
    (ks_reject_before slot) n = (Returned (Ok (Some v)), n') ->
  rollout_ok slot now window f hash channel v.
Proof.
  intros Hw Hch H. unfold fetch_and_verify_channel_manifest in H.
  destruct (compute_rollout_id_for_channel f hash channel) as [[id|]|] eqn:Eid; [|done..].
  ask_step H p n1. destruct p as [[bytes signature]|]; [|done].
  ask_step H ver n2. injection H1 as Hver <-. destruct ver as [w|]; [|done].
  unfold check_rollout_id_discriminator in H. case_bool as [Hid|]; simpl in H; [|done].
  injection H as <- <-. split; [done|]. exists id, bytes, signature. split_and!; [done..|].
  by apply sidecar_vetted.
Qed.

Lemma fetch_channels_ok rs f hash slot now window rollouts channels n rollouts' n' :
  (0 <= window)%Z -> Forall (fun ch => is_Some (fr_channels f !! ch)) channels ->
  map_Forall (rollout_ok slot now window f hash) rollouts ->
  fetch_channels rs f hash (active_keys_at slot now) now window (ks_reject_before slot) rollouts channels n =
    (Returned rollouts', n') ->
  map_Forall (rollout_ok slot now window f hash) rollouts'.
Proof.
  intros Hw Hch. revert rollouts n.
  induction Hch as [|ch channels Hch _ IH]; intros rollouts n Hok H; simpl in H.
  - by injection H as <- _.
  - ask_step H fetched n1. eapply IH; [|exact H].
    destruct fetched as [[v|]|]; [|done..]. apply map_Forall_insert_2; [|done].
    by eapply channel_manifest_ok.
Qed.

(** What a poll of the manifests returns. *)
Record set_ok (path : string) (window : Duration) (set : SignedManifestSet) (s : VerifiedFleetSnapshot)
    : Prop := {
  st_fleet : vs_fleet s = inner (sms_fleet set);
  st_hash : canonical_hash_from_bytes (vs_artifact_bytes s) = Ok (vs_fleet_resolved_hash s);
  st_vetted : exists trust now, trusted path trust /\
    let slot := tc_ci_release_key trust in
    fleet_vetted slot now window (vs_artifact_bytes s) (vs_signature_bytes s) (sms_fleet set) /\
    map_Forall (rollout_ok slot now window (fleet set) (vs_fleet_resolved_hash s)) (sms_rollouts set);
}.

Lemma manifest_poll_once_ok source rs n set s n' :
  (0 <= src_freshness_window source)%Z ->
  manifest_poll_once (Some source) rs n = (Returned (Ok (Some (set, s))), n') ->
  set_ok (src_trust_path source) (src_freshness_window source) set s /\
  fetched_from source (vs_artifact_bytes s) (vs_signature_bytes s).
Proof.
  intros Hw H. unfold manifest_poll_once in H. ask_step H now n1.
  ask_step H roots n2. destruct roots as [[keys rb]|]; [|done].
  apply read_trust_roots_ok in H0 as (trust & Ht & [= -> ->]).
  ask_step H token n3. destruct token as [token|]; [|done].
  ask_step H p n4. destruct p as [[artifact signature]|]; [|done].
  apply read_token_ok in H0. apply (fetch_signed_pair_ok _ _ _ _ _ _ H0) in H1 as Hpair.
  ask_step H ver n5. injection H2 as Hver <-. destruct ver as [f|]; [|done].
  destruct (canonical_hash_from_bytes artifact) as [hash|] eqn:Eh; [|done].
  ask_step H rollouts n6. injection H as <- <- _.
  split; [|exact Hpair]. split; [done..|]. exists trust, (fe_now n). split; [done|]. split; [by apply artifact_vetted|].
  simpl. destruct rs as [rs|]; [|by injection H2 as <- _; apply map_Forall_empty].
  eapply fetch_channels_ok; [done| |apply map_Forall_empty|exact H2].
  apply Forall_forall. intros ch ([ch' d] & -> & Hin%elem_of_hash_iter)%list_elem_of_fmap. by exists d.
Qed.

Lemma set_ok_snapshot path window set s : set_ok path window set s -> snapshot_ok path window s.
Proof.
  intros [Hf Hh (trust & now & Ht & Hv & _)]. split; [|done].
  by exists trust, now, (sms_fleet set).
Qed.

Lemma prime_from_files_ok artifact signature path window n s n' :
  (0 <= window)%Z ->
  prime_from_artifact_files artifact signature path window n = (Returned (Some s), n') ->
  snapshot_ok path window s /\
  exists n m, fe_read n artifact = Some (vs_artifact_bytes s) /\
    fe_read m signature = Some (vs_signature_bytes s).
Proof.
  intros Hw H. unfold prime_from_artifact_files in H.
  ask_step H a n1. destruct (fe_read n artifact) as [bytes|] eqn:Ea; [|done].
  ask_step H g n2. destruct (fe_read _ signature) as [sig|] eqn:Eg; [|done].
  ask_step H t n3. destruct (fe_trust_file _ path) as [trust|] eqn:Ht; [|done].
  ask_step H now n4. ask_step H ver n5. injection H0 as Hver <-.
  destruct ver as [f|]; [|done]. destruct (canonical_hash_from_bytes bytes) as [hash|] eqn:Eh; [|done].
  injection H as <- _. split; [|by eauto]. split; [|done]. exists trust, (fe_now (S (S (S n)))), f.
  split_and!; [by eexists | by apply artifact_vetted | done].
Qed.

End polls.

(** ** The daemon *)

Section daemon.
Context {O : HashOrder} {Cr : Crypto} {E : FetchEnv}.
Context {Df : DeserializeOwned FleetResolved} {Dm : DeserializeOwned RolloutManifest}.
Context {Dr : DeserializeOwned Revocations} {Dn : DeserializeOwned BootstrapNonces}.
Context (args : ServeArgs).

(** The windows are durations. *)
Definition windows_ok : Prop :=
  (0 <= sa_freshness_window args)%Z /\
  forall src, sa_revocations args = Some src \/ sa_bootstrap_nonces args = Some src \/
    sa_channel_refs args = Some src -> (0 <= src_freshness_window src)%Z.

(** The two ways to get a fleet, each with its trust file and its window: its bytes
    are those of the files, or they were fetched. *)
Definition fleet_source (path : string) (window : Duration) (s : VerifiedFleetSnapshot) : Prop :=
  path = sa_trust_path args /\ window = sa_freshness_window args /\
    (exists n m, fe_read n (sa_artifact_path args) = Some (vs_artifact_bytes s) /\
       fe_read m (sa_signature_path args) = Some (vs_signature_bytes s)) \/
  exists src, sa_channel_refs args = Some src /\ path = src_trust_path src /\
    window = src_freshness_window src /\ fetched_from src (vs_artifact_bytes s) (vs_signature_bytes s).

(** A list fetched from its source, and accepted under the keys at one reading of
    the clock, at another. *)
Definition list_vetted {T} {De : DeserializeOwned T} {Si : SignedSidecar T} (src : SignedSource) (v : T)
    : Prop :=
  exists trust t1 t2 bytes signature w, fetched_from src bytes signature /\ trusted (src_trust_path src) trust /\ inner w = v /\
    verify_signed_sidecar bytes signature (active_keys_at (tc_ci_release_key trust) (fe_now t1))
      (fe_now t2) (src_freshness_window src) (ks_reject_before (tc_ci_release_key trust)) =
      Returned (Ok w).

Record state_ok (st : AppState) : Prop := {
  sk_snapshot : forall s, ap_verified_fleet st = Some s ->
    exists path window, fleet_source path window s /\ snapshot_ok path window s;
  sk_artifact : pm_artifact (ap_primed st) = true <-> is_Some (ap_verified_fleet st);
  sk_identity : is_verified_fleet (ap_identity st) = vs_fleet <$> ap_verified_fleet st;
  sk_revocations : pm_revocations (ap_primed st) = true -> sa_db_path args = true /\
    exists src revs, sa_revocations args = Some src /\ list_vetted (T := Revocations) src revs;
  sk_nonces : pm_bootstrap_nonces (ap_primed st) = true ->
    exists src bn, sa_bootstrap_nonces args = Some src /\ list_vetted (T := BootstrapNonces) src bn /\
      is_allowed_nonces (ap_identity st) = AllowedNoncesView.from_artifact bn;
  sk_required : pm_revocations_required (ap_primed st) = given (sa_revocations args) /\
    pm_bootstrap_nonces_required (ap_primed st) = given (sa_bootstrap_nonces args);
}.

Record daemon_ok (d : Daemon) : Prop := {
  dk_state : state_ok (dm_state d);
  dk_sent : Forall (fun set => exists src s, sa_channel_refs args = Some src /\
    set_ok (src_trust_path src) (src_freshness_window src) set s) (dm_sent d);
  dk_polls : dm_revocations_poll d = true -> sa_db_path args = true;
}.

Lemma publish_ok st s path window :
  state_ok st -> fleet_source path window s -> snapshot_ok path window s ->
  state_ok (publish_verified_fleet s st).
Proof.
  intros [H1 H2 H3 H4 H5 H6] Hs Hok. split; simpl; try done.
  - intros s' [= <-]. by exists path, window.
Qed.

Lemma manifest_tick_ok st n st' set n' :
  windows_ok -> state_ok st ->
  manifest_tick (sa_channel_refs args) (sa_rollouts_source args) st n = (Returned (st', set), n') ->
  state_ok st' /\ forall x, set = Some x -> exists src s, sa_channel_refs args = Some src /\
    set_ok (src_trust_path src) (src_freshness_window src) x s.
Proof.
  intros [_ Hw] Hst H. unfold manifest_tick in H. ask_step H polled n1.
  destruct (sa_channel_refs args) as [src|] eqn:Esrc.
  2:{ injection H0 as <- <-. by injection H as <- <- _. }
  destruct polled as [[[x s]|]|]; injection H as <- <- _; [|by split..].
  apply manifest_poll_once_ok in H0 as [H0 Hpair]; [|by apply Hw; auto].
  split; [|intros ? [= <-]; by exists src, s].
  eapply publish_ok; [done| |by apply set_ok_snapshot in H0]. right. by exists src.
Qed.

Lemma prime_blocking_ok st n st' r n' :
  windows_ok -> state_ok st ->
  prime_blocking (sa_channel_refs args) (sa_rollouts_source args) st n = (Returned (st', r), n') ->
  state_ok st'.
Proof.
  intros [_ Hw] Hst H. unfold prime_blocking in H.
  destruct (sa_channel_refs args) as [src|] eqn:Esrc; [|by injection H as <- _ _].
  ask_step H polled n1. destruct polled as [[[x s]|]|]; injection H as <- _ _; [|done..].
  apply manifest_poll_once_ok in H0 as [H0 Hpair]; [|by apply Hw; auto].
  eapply publish_ok; [done| |by apply set_ok_snapshot in H0]. right. by exists src.
Qed.

Lemma serve_start_ok identity timed_out n d n' :
  windows_ok -> sa_mark_ready_at_startup args = false -> is_verified_fleet identity = None ->
  serve_start args identity timed_out n = (Returned (Ok d), n') -> daemon_ok d.
Proof.
  intros Hw Hmark Hid H. unfold serve_start in H. destruct (strict_check args); [|done].
  cbv zeta in H. rewrite Hmark in H. set (st0 := MkAppState _ _ _) in H.
  assert (H0 : state_ok st0).
  { split; simpl; try done. by destruct (sa_initial_nonces args). }
  apply ask_bind_inv in H as ([st1 r] & n1 & H1 & H).
  assert (Hst1 : state_ok st1).
  { destruct timed_out; [by injection H1 as <- _ _ | by eapply prime_blocking_ok]. }
  ask_step H st2 n2.
  assert (Hst2 : state_ok st2).
  { destruct (ap_verified_fleet st1); [by injection H2 as <- _|].
    ask_step H2 primed n3. destruct primed as [s|]; injection H2 as <- _; [|done].
    apply prime_from_files_ok in H3 as [H3 Hread]; [|apply Hw].
    eapply publish_ok; [done| |exact H3]. by left. }
  ask_step H d' n3. injection H3 as <- <-. injection H as <- _. split; simpl; [done|constructor|].
  by intros [_ ?]%andb_true_iff.
Qed.

Lemma daemon_step_ok d d' : windows_ok -> daemon_step args d d' -> daemon_ok d -> daemon_ok d'.
Proof.
  intros Hw Hstep [Hst Hsent Hpoll]. destruct Hstep as [closed _|src fails retain Hp Hsrc|src _ Hsrc|tokens audit].
  - unfold manifest_turn. destruct (manifest_tick _ _ _ _) as [[[st set]| |] n] eqn:Et; [|by split..].
    apply manifest_tick_ok in Et as [Hst' Hset]; [|done..].
    destruct set as [x|]; [destruct closed|]; split; simpl; try done.
    apply Forall_app_2; [done|]. constructor; [by apply Hset | done].
  - unfold revocations_turn. destruct (revocations_tick _ _ _ _ _) as [[[st|]| |] n] eqn:Et; [|by split..].
    unfold revocations_tick in Et. ask_step Et polled n1. destruct polled as [revs|]; [|done].
    ask_step Et now n2. injection Et as <- <-. destruct Hst as [H1 H2 H3 H4 H5 H6].
    split; simpl; [|done..]. split; simpl; try done. intros _. split; [by apply Hpoll|].
    exists src, revs. split; [done|].
    apply poll_signed_ok in H; [done|]. apply (proj2 Hw). auto.
  - unfold nonces_turn. destruct (bootstrap_nonces_tick _ _ _) as [[[st|]| |] n] eqn:Et; [|by split..].
    unfold bootstrap_nonces_tick in Et. ask_step Et polled n1. destruct polled as [bn|]; [|done].
    injection Et as <- <-. destruct Hst as [H1 H2 H3 H4 H5 H6].
    split; simpl; [|done..]. split; simpl; try done. intros _.
    exists src, bn. split_and!; [done| |done]. apply poll_signed_ok in H; [done|]. apply (proj2 Hw). auto.
  - destruct Hst as [H1 H2 H3 H4 H5 H6]. by split.
Qed.

(** A daemon that started on a database without a verified fleet, not marked ready
    as the tests do, and what it comes to. *)
Definition runs (d : Daemon) : Prop :=
  sa_mark_ready_at_startup args = false /\
  exists identity timed_out n d0 n0, is_verified_fleet identity = None /\
    serve_start args identity timed_out n = (Returned (Ok d0), n0) /\ rtc (daemon_step args) d0 d.

Lemma runs_ok d : windows_ok -> runs d -> daemon_ok d.
Proof.
  intros Hw (Hmark & identity & timed_out & n & d0 & n0 & Hid & Hstart & Hrun).
  apply serve_start_ok in Hstart; [|done..].
  induction Hrun as [|d1 d2 d3 H12 _ IH]; [done|]. apply IH. by eapply daemon_step_ok.
Qed.

(** *** The revocation table

    In a run in which the statements of the revocation poll succeed, the table
    has, for each host, the date of its last entry in the list applied last. *)

Inductive clean_step (d : Daemon) : Daemon -> Prop :=
| clean_revocations src :
    dm_revocations_poll d = true -> sa_revocations args = Some src ->
    clean_step d (revocations_turn src (fun _ => false) false d)
| clean_other d' :
    daemon_step args d d' ->
    is_revocations (ap_identity (dm_state d')) = is_revocations (ap_identity (dm_state d)) ->
    pm_revocations (ap_primed (dm_state d')) = pm_revocations (ap_primed (dm_state d)) ->
    clean_step d d'.

Lemma clean_is_step d d' : clean_step d d' -> daemon_step args d d'.
Proof. intros [src H1 H2|]; [by apply step_revocations | done]. Qed.

Definition mirrors (revs : Revocations) (st : AppState) : Prop :=
  forall host, rr_not_before <$> is_revocations (ap_identity st) !! host =
    rv_not_before <$> last_entry host (revs_revocations revs).

Definition clean_ok (d : Daemon) : Prop :=
  pm_revocations (ap_primed (dm_state d)) = true ->
  exists src revs, sa_revocations args = Some src /\ list_vetted (T := Revocations) src revs /\
    mirrors revs (dm_state d).

Lemma clean_step_ok d d' : windows_ok -> clean_step d d' -> clean_ok d -> clean_ok d'.
Proof.
  intros Hw [src _ Hsrc|d'' _ Ht Hp] Hok; [|unfold clean_ok, mirrors; by rewrite Ht, Hp].
  unfold revocations_turn.
  destruct (revocations_tick _ _ _ _ _) as [[[st|]| |] n] eqn:Et; [|by apply Hok..].
  unfold revocations_tick in Et. ask_step Et polled n1. destruct polled as [revs|]; [|done].
  ask_step Et now n2. injection Et as <- <-. intros _. exists src, revs. split_and!; [done| |].
  - apply poll_signed_ok in H; [done|]. apply (proj2 Hw). auto.
  - intros host. apply retain_all.
Qed.

(** [runs], with such steps only. *)
Definition runs_clean (d : Daemon) : Prop :=
  sa_mark_ready_at_startup args = false /\
  exists identity timed_out n d0 n0, is_verified_fleet identity = None /\
    serve_start args identity timed_out n = (Returned (Ok d0), n0) /\ rtc clean_step d0 d.

Lemma runs_clean_runs d : runs_clean d -> runs d.
Proof.
  intros (Hmark & identity & timed_out & n & d0 & n0 & Hid & Hstart & Hrun). split; [done|].
  exists identity, timed_out, n, d0, n0. split_and!; [done..|].
  eapply rtc_subrel; [exact clean_is_step | exact Hrun].
Qed.

Lemma manifest_poll_unprimed src rs st n st' r n' :
  prime_blocking src rs st n = (Returned (st', r), n') ->
  pm_revocations (ap_primed st') = pm_revocations (ap_primed st).
Proof.
  unfold prime_blocking. destruct src as [src|]; [|by intros [= <- _ _]].
  intros H. ask_step H polled n1. by destruct polled as [[[x s]|]|]; injection H as <- _ _.
Qed.

Lemma serve_start_unpolled identity timed_out n d n' :
  sa_mark_ready_at_startup args = false ->
  serve_start args identity timed_out n = (Returned (Ok d), n') ->
  pm_revocations (ap_primed (dm_state d)) = false.
Proof.
  intros Hmark H. unfold serve_start in H. destruct (strict_check args); [|done].
  cbv zeta in H. rewrite Hmark in H. set (st0 := MkAppState _ _ _) in H.
  apply ask_bind_inv in H as ([st1 r] & n1 & H1 & H).
  assert (Hst1 : pm_revocations (ap_primed st1) = false).
  { destruct timed_out; [by injection H1 as <- _ _ | by apply manifest_poll_unprimed in H1]. }
  ask_step H st2 n2. ask_step H d' n3. injection H2 as <- <-. injection H as <- _. simpl.
  destruct (ap_verified_fleet st1); [by injection H0 as <- _|].
  ask_step H0 primed n3. by destruct primed as [s|]; injection H0 as <- _.
Qed.

Lemma runs_clean_ok d : windows_ok -> runs_clean d -> clean_ok d.
Proof.
  intros Hw (Hmark & identity & timed_out & n & d0 & n0 & Hid & Hstart & Hrun).
  assert (H0 : clean_ok d0).
  { intros Hp. exfalso. by rewrite (serve_start_unpolled _ _ _ _ _ Hmark Hstart) in Hp. }
  clear Hstart. revert H0. induction Hrun as [|d1 d2 d3 H12 _ IH]; intros H0; [done|].
  by eapply IH, clean_step_ok.
Qed.

(** A ready daemon has a verified fleet, and the lists it was given. *)
Lemma ready_primed d :
  daemon_ok d -> require_ready_layer (ap_primed (dm_state d)) = None ->
  (exists s path window, ap_verified_fleet (dm_state d) = Some s /\ fleet_source path window s /\
     snapshot_ok path window s) /\
  (forall src, sa_revocations args = Some src -> pm_revocations (ap_primed (dm_state d)) = true) /\
  (forall src, sa_bootstrap_nonces args = Some src -> pm_bootstrap_nonces (ap_primed (dm_state d)) = true).
Proof.
  intros [[H1 H2 _ _ _ [H6 H7]] _ _] Hready.
  unfold require_ready_layer, is_ready in Hready. rewrite H6, H7 in Hready.
  destruct (pm_artifact _) eqn:Ea; [simpl in Hready|done].
  destruct (proj1 H2 eq_refl) as [s Es]. split_and!.
  - destruct (H1 s Es) as (path & window & Hsrc & Hs). by exists s, path, window.
  - intros src Hsrc. rewrite Hsrc in Hready. by destruct (pm_revocations _).
  - intros src Hsrc. rewrite Hsrc in Hready. destruct (given _ && _); [done|]. by destruct (pm_bootstrap_nonces _).
Qed.

(** The lists of a ready daemon, and the fleet its routes give. *)
Lemma ready_serves d :
  daemon_ok d -> require_ready_layer (ap_primed (dm_state d)) = None ->
  (exists s path window, fleet_source path window s /\ snapshot_ok path window s /\
     fleet.artifact (ap_verified_fleet (dm_state d)) = Ok (vs_artifact_bytes s) /\
     fleet.signature (ap_verified_fleet (dm_state d)) = Ok (vs_signature_bytes s) /\
     is_verified_fleet (ap_identity (dm_state d)) = Some (vs_fleet s)) /\
  (forall src, sa_revocations args = Some src ->
     sa_db_path args = true /\ exists revs, list_vetted (T := Revocations) src revs) /\
  (forall src, sa_bootstrap_nonces args = Some src ->
     exists bn, list_vetted (T := BootstrapNonces) src bn /\
       is_allowed_nonces (ap_identity (dm_state d)) = AllowedNoncesView.from_artifact bn).
Proof.
  intros Hok Hready. destruct (ready_primed d Hok Hready) as ((s & path & window & Es & Hsrc & Hs) & Hr & Hn).
  destruct Hok as [[_ _ H3 H4 H5 _] _ _]. rewrite Es in H3. split_and!.
  - exists s, path, window. by rewrite Es.
  - intros src Hgiven. destruct (H4 (Hr src Hgiven)) as (Hdb & src' & revs & Hsrc' & Hv).
    split; [done|]. exists revs. by assert (src = src') as -> by congruence.
  - intros src Hgiven. destruct (H5 (Hn src Hgiven)) as (src' & bn & Hsrc' & Hv & Hb). exists bn.
    by assert (src = src') as -> by congruence.
Qed.

End daemon.

Lemma fetch_answered {E : HostEnv} url body w :
  env_get (ho_asked w) url = Response 200 (Ok body) ->
  fetch url w = (Returned (Ok body), w <| ho_asked := S (ho_asked w) |>).
Proof.
  intros H. unfold fetch, mbind, HostM_bind, ask. simpl. by rewrite H.
Qed.

Lemma no_cached_fleet : read_cached_fleet_bytes ∅ = None.
Proof. unfold read_cached_fleet_bytes. by rewrite lookup_empty. Qed.

(** ** A sample forge

    It serves a fleet of one host, its rollout and the two lists, signed by the
    release key. *)

Definition forge_body (url : string) : string :=
  if contains "fleet" url then "fleet"
  else if contains "revocations" url then "revocations"
  else if contains "nonces" url then "nonces" else "manifest".

Definition release_trust : TrustConfig :=
  MkTrustConfig 1 (MkKeySlot (Some (MkTrustedPubkey "ed25519" (letters (pad 32 "ci")))) None None None None)
    [] None None [].

Definition sample_forge : FetchEnv := {|
  fe_now := fun _ => duration_minutes 5;
  fe_trust_file := fun _ _ => Ok release_trust;
  fe_read_to_string := fun _ _ => Err "not found";
  fe_read := fun _ _ => None;
  fe_get := fun n url _ => serves forge_body n url;
  fe_status_text := fun _ => "";
  fe_debug := fun _ => "";
|}.

Definition forge_revocations : Revocations :=
  MkRevocations 1 [MkRevocationEntry "web-1" (duration_minutes 3) None None] (MkMeta 1 (Some 0%Z) None None).

Definition forge_nonces : BootstrapNonces := MkBootstrapNonces 1 [web_entry] (MkMeta 1 (Some 0%Z) None None).

Definition revocations_decoder : DeserializeOwned Revocations := fun s =>
  if bool_decide (s = "revocations") then Ok forge_revocations else Err "unexpected".

Definition nonces_decoder : DeserializeOwned BootstrapNonces := fun s =>
  if bool_decide (s = "nonces") then Ok forge_nonces else Err "unexpected".

Definition forge_source (name : string) : SignedSource :=
  MkSignedSource ("https://forge/" +:+ name) ("https://forge/" +:+ name +:+ "/sig") None "trust.json"
    (duration_minutes 60).

Definition forge_args (db : bool) : ServeArgs :=
  MkServeArgs true true (Some (forge_source "revocations")) (Some (forge_source "nonces")) false false
    false false db (Some (forge_source "fleet"))
    (Some (RolloutsSource.MkRolloutsSource "https://forge/{rolloutId}" "https://forge/{rolloutId}/sig" None))
    "fleet.json" "fleet.json.sig" "trust.json" (duration_minutes 60)
    false None.

Abbreviation on_forge f :=
  (f list_order enrol_crypto sample_forge fleet_decoder served_decoder) (only parsing).

Definition forge_start (db : bool) : ended (result Daemon (list string)) * nat :=
  on_forge (@serve_start) (forge_args db) (MkIdentityState ∅ ∅ ∅ None []) false 0.

Definition started (db : bool) : Daemon :=
  match (forge_start db).1 with
  | Returned (Ok d) => d
  | _ => MkDaemon (MkAppState (MkIdentityState ∅ ∅ ∅ None []) None (MkPrimed false false false false false))
           0 false false false []
  end.

(** The daemon after a turn of the two lists' polls, where they run. *)
Definition nonces_polled (db : bool) : Daemon :=
  nonces_turn (Cr := enrol_crypto) (E := sample_forge) (Db_ := nonces_decoder) (forge_source "nonces")
    (started db).

Definition all_polled : Daemon :=
  revocations_turn (Cr := enrol_crypto) (E := sample_forge) (Dr := revocations_decoder)
    (forge_source "revocations") (fun _ => false) false (nonces_polled true).

(** And one more turn of the manifest poll. *)
Definition polled_again : Daemon :=
  manifest_turn (O := list_order) (Cr := enrol_crypto) (E := sample_forge) (Df := fleet_decoder)
    (Dm := served_decoder) (forge_args true) false all_polled.

Abbreviation forge_runs db d :=
  (runs (O := list_order) (Cr := enrol_crypto) (E := sample_forge) (Df := fleet_decoder)
     (Dm := served_decoder) (Dr := revocations_decoder) (Dn := nonces_decoder) (forge_args db) d).

Lemma forge_windows_ok db : windows_ok (forge_args db).
Proof. split; [done|]. intros src [H|[H|H]]; simplify_eq/=; done. Qed.

Lemma nonces_polled_runs db : forge_runs db (nonces_polled db).
Proof.
  split; [done|]. exists (MkIdentityState ∅ ∅ ∅ None []), false, 0, (started db), (forge_start db).2.
  split; [done|]. split; [by destruct db; vm_compute|].
  eapply rtc_l; [|apply rtc_refl]. apply step_nonces; [by destruct db; vm_compute | done].
Qed.

Lemma runs_step {O : HashOrder} {Cr : Crypto} {E : FetchEnv}
    {Df : DeserializeOwned FleetResolved} {Dm : DeserializeOwned RolloutManifest}
    {Dr : DeserializeOwned Revocations} {Dn : DeserializeOwned BootstrapNonces} args d d' :
  runs args d -> daemon_step args d d' -> runs args d'.
Proof.
  intros (Hmark & identity & timed_out & n & d0 & n0 & Hid & Hs & Hr) Hstep.
  split; [done|]. exists identity, timed_out, n, d0, n0. split_and!; [done..|]. by eapply rtc_r.
Qed.

Lemma all_polled_runs : forge_runs true all_polled.
Proof.
  eapply runs_step; [apply nonces_polled_runs|]. apply step_revocations; [by vm_compute | done].
Qed.

(** Nothing failed on the way. *)
Lemma all_polled_clean :
  runs_clean (O := list_order) (Cr := enrol_crypto) (E := sample_forge) (Df := fleet_decoder)
    (Dm := served_decoder) (Dr := revocations_decoder) (Dn := nonces_decoder) (forge_args true) all_polled.
Proof.
  split; [done|]. exists (MkIdentityState ∅ ∅ ∅ None []), false, 0, (started true), (forge_start true).2.
  split; [done|]. split; [by vm_compute|].
  eapply rtc_l; [|apply rtc_once].
  - apply (clean_other (O := list_order) _ (started true) (nonces_polled true));
      [apply step_nonces; [by vm_compute | done] | by vm_compute | by vm_compute].
  - apply clean_revocations; [by vm_compute | done].
Qed.

Lemma polled_again_runs : forge_runs true polled_again.
Proof. eapply runs_step; [apply all_polled_runs|]. apply step_manifest. by vm_compute. Qed.

(** ** Properties *)

(** The control plane serves nothing unverified.  A daemon that is ready holds a
    fleet accepted under the trust file, the window and the clock of the turn that
    put it there; the fleet route gives its exact bytes and the enrollment checks
    use its payload.  When a revocation list or an allowlist is configured, a
    verified one was applied, and the allowlist in use is that of a verified
    artifact. *)
Theorem ready_daemon_is_vetted {O : HashOrder} {Cr : Crypto} {E : FetchEnv}
    {Df : DeserializeOwned FleetResolved} {Dm : DeserializeOwned RolloutManifest}
    {Dr : DeserializeOwned Revocations} {Dn : DeserializeOwned BootstrapNonces}
    (args : ServeArgs) (d : Daemon) :
  windows_ok args -> runs args d -> require_ready_layer (ap_primed (dm_state d)) = None ->
  (exists s path window, fleet_source args path window s /\ snapshot_ok path window s /\
     fleet.artifact (ap_verified_fleet (dm_state d)) = Ok (vs_artifact_bytes s) /\
     fleet.signature (ap_verified_fleet (dm_state d)) = Ok (vs_signature_bytes s) /\
     is_verified_fleet (ap_identity (dm_state d)) = Some (vs_fleet s)) /\
  (forall src, sa_revocations args = Some src ->
     exists revs, list_vetted (T := Revocations) src revs) /\
  (forall src, sa_bootstrap_nonces args = Some src ->
     exists bn, list_vetted (T := BootstrapNonces) src bn /\
       is_allowed_nonces (ap_identity (dm_state d)) = AllowedNoncesView.from_artifact bn).
Proof.
  intros Hw Hd Hready. destruct (ready_serves args d (runs_ok _ _ Hw Hd) Hready) as (Hf & Hr & Hn).
  split_and!; [done| |done]. intros src Hsrc. by apply (Hr src).
Qed.

(** The two lists were polled once. *)
Lemma ready_daemon_is_vetted_witness :
  require_ready_layer (ap_primed (dm_state all_polled)) = None /\
  exists revs, list_vetted (Cr := enrol_crypto) (E := sample_forge) (De := revocations_decoder)
    (forge_source "revocations") revs.
Proof.
  assert (Hr : require_ready_layer (ap_primed (dm_state all_polled)) = None) by by vm_compute.
  split; [exact Hr|].
  destruct (ready_daemon_is_vetted (O := list_order) (Cr := enrol_crypto) (E := sample_forge)
    (Df := fleet_decoder) (Dm := served_decoder) (Dr := revocations_decoder) (Dn := nonces_decoder)
    (forge_args true) all_polled (forge_windows_ok true) all_polled_runs Hr) as (_ & H & _).
  by apply H.
Defined.

(** What the reducer is told to roll out is signed.  Every set a daemon sends was
    accepted in one turn, under one reading of the trust file and of the clock:
    its fleet, and for some of its channels a manifest that bears the identifier
    projected from that very fleet. *)
Theorem sent_sets_are_vetted {O : HashOrder} {Cr : Crypto} {E : FetchEnv}
    {Df : DeserializeOwned FleetResolved} {Dm : DeserializeOwned RolloutManifest}
    {Dr : DeserializeOwned Revocations} {Dn : DeserializeOwned BootstrapNonces}
    (args : ServeArgs) (d : Daemon) (set : SignedManifestSet) :
  windows_ok args -> runs args d -> set ∈ dm_sent d ->
  exists src s, sa_channel_refs args = Some src /\
    set_ok (src_trust_path src) (src_freshness_window src) set s.
Proof.
  intros Hw Hd Hset. destruct (runs_ok _ _ Hw Hd) as [_ Hsent _].
  rewrite Forall_forall in Hsent. by apply Hsent.
Qed.

(** The set of the second poll has the rollout of its one channel. *)
Lemma sent_sets_are_vetted_witness :
  match dm_sent polled_again with
  | [set] => is_Some (sms_rollouts set !! "stable") /\
      exists src s, sa_channel_refs (forge_args true) = Some src /\
        set_ok (O := list_order) (Cr := enrol_crypto) (E := sample_forge) (Df := fleet_decoder)
          (Dm := served_decoder) (src_trust_path src) (src_freshness_window src) set s
  | _ => False
  end.
Proof.
  pose proof (sent_sets_are_vetted (O := list_order) (Cr := enrol_crypto) (E := sample_forge)
    (Df := fleet_decoder) (Dm := served_decoder) (Dr := revocations_decoder) (Dn := nonces_decoder)
    (forge_args true) polled_again) as H.
  destruct (dm_sent polled_again) as [|set [|set' sets]] eqn:E; [by vm_compute in E| |by vm_compute in E].
  split; [vm_compute in E; injection E as <-; by eexists|].
  apply H; [apply forge_windows_ok | apply polled_again_runs | by apply list_elem_of_here].
Defined.

(** Revocations without a database.  The readiness waits for a first revocation
    list as soon as a source is configured, but the poll is only started on a
    database, which the strict check does not ask for: without one the daemon
    starts and refuses every request but the health check for good. *)
Theorem revocations_need_database {O : HashOrder} {Cr : Crypto} {E : FetchEnv} {P : Pki}
    {Df : DeserializeOwned FleetResolved} {Dm : DeserializeOwned RolloutManifest}
    {Dr : DeserializeOwned Revocations} {Dn : DeserializeOwned BootstrapNonces}
    (args : ServeArgs) (d : Daemon) (src : SignedSource) (sv : Server) (strict : bool)
    (su : Surroundings) (st : IdentityState) (header : option (option string))
    (peer_certs : PeerCertificates) (route : Route) :
  windows_ok args -> sa_revocations args = Some src -> sa_db_path args = false -> runs args d ->
  guard sv strict (ap_primed (dm_state d)) su st header peer_certs route =
    match route with Healthz => Ok None | _ => Err UNAVAILABLE end.
Proof.
  intros Hw Hsrc Hdb Hd. destruct (runs_ok _ _ Hw Hd) as [[_ _ _ H4 _ [H6 _]] _ _].
  assert (Hr : is_ready (ap_primed (dm_state d)) = false).
  { unfold is_ready. destruct (negb _); [done|]. rewrite H6, Hsrc. simpl.
    destruct (pm_revocations _); [|done]. destruct (H4 eq_refl). congruence. }
  unfold guard, require_ready_layer. rewrite Hr. by destruct route.
Qed.

Lemma revocations_need_database_witness :
  strict_check (forge_args false) = Ok tt /\
  guard (P := enrol_pki) enrol_server true (ap_primed (dm_state (nonces_polled false))) (at_minute 6) enrolled
    None ["agent-web-1.fleet"] FleetArtifact = Err UNAVAILABLE.
Proof.
  split; [by vm_compute|].
  rewrite (revocations_need_database (O := list_order) (Cr := enrol_crypto) (E := sample_forge)
    (P := enrol_pki) (Df := fleet_decoder) (Dm := served_decoder) (Dr := revocations_decoder)
    (Dn := nonces_decoder) (forge_args false) (nonces_polled false) (forge_source "revocations")).
  - done.
  - apply forge_windows_ok.
  - done.
  - done.
  - apply nonces_polled_runs.
Defined.

(** A key active at some time is active before the successor is retired. *)
Lemma active_keys_later slot now later :
  (forall k r, ks_successor slot = Some k -> ks_retire_at slot = Some r -> (later < r)%Z) ->
  active_keys_at slot now ⊆ active_keys_at slot later.
Proof.
  unfold active_keys_at. intros H.
  destruct (ks_successor slot) as [k|], (ks_retire_at slot) as [r|]; try done.
  rewrite (proj2 (Z.ltb_lt later r) (H _ _ eq_refl eq_refl)).
  destruct (Z.ltb now r); [done|]. intros x Hx. apply elem_of_app. by left.
Qed.

Lemma Exists_subset {A} (P : A -> Prop) l k : l ⊆ k -> Exists P l -> Exists P k.
Proof. rewrite !Exists_exists. intros Hs (x & Hx & Hp). exists x. auto. Qed.

(** The route's answer as a client sees it. *)
Definition answer_of (r : result string Z) : HttpAnswer :=
  match r with Ok body => Response 200 (Ok body) | Err status => Response status (Ok "") end.

(** C23.  The published fleet reaches the agents.  An agent with an empty cache that
    asks a running daemon for the fleet, on whatever disk, accepts what the daemon
    serves as the same fleet with the same hash, if both have the same trust file,
    a successor key it names is not retired by the agent's clock, and the signing
    time is within the window of the agent at its own clock.  Once the agent's clock
    is past [retire_at] a fleet signed by the successor, which the daemon accepted
    before, is not covered. *)
Theorem served_fleet_reaches_agent {O : HashOrder} {Cr : Crypto} {E1 : FetchEnv} {E2 : HostEnv}
    {Df : DeserializeOwned FleetResolved} {Dm : DeserializeOwned RolloutManifest}
    {Dr : DeserializeOwned Revocations} {Dn : DeserializeOwned BootstrapNonces}
    (args : ServeArgs) (d : Daemon) (s : VerifiedFleetSnapshot) (trust : TrustConfig)
    (window : Duration) (cp_url : string) (t : DateTime) (w : HostWorld) :
  windows_ok args -> runs args d -> ap_verified_fleet (dm_state d) = Some s ->
  (forall n path, fe_trust_file n path = Ok trust) -> (forall n, env_trust_file n = Ok trust) ->
  (forall k retire_at n, ks_successor (tc_ci_release_key trust) = Some k ->
     ks_retire_at (tc_ci_release_key trust) = Some retire_at -> (env_now n < retire_at)%Z) ->
  (forall n, env_get n (strip_slashes cp_url +:+ "/v1/fleet.resolved") =
             answer_of (fleet.artifact (ap_verified_fleet (dm_state d)))) ->
  (forall n, env_get n (strip_slashes cp_url +:+ "/v1/fleet.resolved/sig") =
             answer_of (fleet.signature (ap_verified_fleet (dm_state d)))) ->
  ho_fleet w = ∅ ->
  window_fits window -> meta_signed_at (fr_meta (vs_fleet s)) = Some t ->
  (forall n, in_window window (env_now n) t) ->
  exists w', fetch_or_load_fleet window cp_url w =
    (Returned (Ok (MkVerified (vs_fleet s) t, vs_fleet_resolved_hash s)), w').
Proof.
  intros Hw Hd Hs Ht1 Ht2 Hsucc Ha Hg Hcache Hfit Ht Hwin. rewrite Hs in Ha, Hg. simpl in Ha, Hg.
  destruct (runs_ok _ _ Hw Hd) as [[H1 _ _ _ _ _] _ _].
  destruct (H1 s Hs) as (path & win & _ & [(trust' & now & f & [n0 Htr] & (raw & Hv & ->) & Hf) Hhash]).
  rewrite Ht1 in Htr. injection Htr as <-. simpl in Hf.
  destruct Hv as (c & Hc & Hk & Hp & _).
  assert (Hraw : v_signed_at raw = t).
  { destruct Hp as (_ & _ & Hsig & _). rewrite Hf in Ht. simpl in Hsig, Ht. congruence. }
  unfold fetch_or_load_fleet. rewrite (host_bind_ok _ _ _ (ho_fleet w) w), Hcache by done.
  rewrite no_cached_fleet. unfold fetch_fleet. cbv zeta.
  rewrite (host_bind_ok _ _ _ _ _ (fetch_answered _ _ _ (Ha _))).
  rewrite (host_bind_ok _ _ _ _ _ (fetch_answered _ _ _ (Hg _))).
  set (w2 := w <| ho_asked := S (ho_asked w) |> <| ho_asked := _ |>).
  assert (Hacc : accepted window (vs_artifact_bytes s) (vs_signature_bytes s) w2 raw).
  { exists trust, c. split; [apply Ht2|]. cbv zeta. split; [done|]. split; [|split; [done|]].
    - eapply Exists_subset; [|exact Hk]. apply active_keys_later. intros k r E1' E2'. by eapply Hsucc.
    - rewrite Hraw. apply Hwin. }
  rewrite (host_bind_ok _ _ _ _ _ (verify_fleet_bytes_accepted _ _ _ _ _ Hfit Hacc)), Hhash.
  destruct (write_fleet_cache_spec (vs_artifact_bytes s) (vs_signature_bytes s) (asked_twice w2))
    as (w4 & E4 & _).
  rewrite (host_bind_ok _ _ _ _ _ E4). exists w4. by rewrite Hf, Hraw.
Qed.

(** The agent's host, half an hour later. *)
Definition agent_of_forge (get : nat -> string -> HttpAnswer) : HostEnv := {|
  env_now := fun _ => duration_minutes 35;
  env_trust_file := fun _ => Ok release_trust;
  env_get := get;
  env_post_heartbeat := fun _ _ _ => HeartbeatSendFailed "unreachable";
  env_write := fun _ => FileFailed (Some "");
  env_current_system := fun _ => Some "/nix/store/old";
  status_text := fun _ => "";
  body_text := fun s => s;
  display_time := fun _ => "";
  debug_str := fun s => s;
  debug_verify_error := fun _ => "";
|}.

Definition forge_snapshot : VerifiedFleetSnapshot :=
  MkVerifiedFleetSnapshot (normalize_rollout_policies served_fleet) (hex_lowercase (pad 32 "fleet")) "fleet"
    (sample_sign (pad 32 "ci") "fleet").

Lemma all_polled_fleet : ap_verified_fleet (dm_state all_polled) = Some forge_snapshot.
Proof. by vm_compute. Qed.

Definition forge_answers (n : nat) (url : string) : HttpAnswer :=
  let published := ap_verified_fleet (dm_state all_polled) in
  answer_of (if ends_with "/sig" url then fleet.signature published else fleet.artifact published).

Lemma served_fleet_reaches_agent_witness :
  exists w', fetch_or_load_fleet (Cr := enrol_crypto) (E := agent_of_forge forge_answers)
    (Df := fleet_decoder) (duration_minutes 60) "https://cp/" empty_host =
      (Returned (Ok (MkVerified (vs_fleet forge_snapshot) 0%Z, vs_fleet_resolved_hash forge_snapshot)), w').
Proof.
  apply (served_fleet_reaches_agent (O := list_order) (Cr := enrol_crypto) (E1 := sample_forge)
    (E2 := agent_of_forge forge_answers) (Df := fleet_decoder) (Dm := served_decoder)
    (Dr := revocations_decoder) (Dn := nonces_decoder) (forge_args true) all_polled forge_snapshot
    release_trust).
  - apply forge_windows_ok.
  - apply all_polled_runs.
  - apply all_polled_fleet.
  - intros n path. reflexivity.
  - intros n. reflexivity.
  - intros k r n H. discriminate H.
  - intros n. reflexivity.
  - intros n. reflexivity.
  - reflexivity.
  - split; vm_compute; congruence.
  - reflexivity.
  - intros n. split; vm_compute; congruence.
Defined.
