(* ===== verification/AgentProbes.v ===== *)
(** * Health probes of the agent

    Models, of [crates/nixfleet-agent/src/runtime/workers/]: the probe worker
    [probe.rs] and the runners of [probe_runners/], with [proto/src/evidence.rs].
    The clock, the files and what a request, a connection or a command comes to
    are the class [ProbeEnv]; each question is answered by the number of
    questions asked before it.  A ticker is a task of its own: it runs its probe,
    sends what it has to report one event at a time, and may be aborted between
    any two of them. *)

From S2P Require Import Prelude RustStd Proto HostTypes Verify HostKey AgentQueue AgentRuntime.
From stdpp Require Import pretty.

(** ** Declarations ([probe_runners/mod.rs]) *)

Definition MIN_INTERVAL_SECS : u64 := 5.
Definition FAILURE_REASON_MAX_LEN : nat := 512.

(** The loop that backs up to a character boundary. *)
Fixpoint back_to_boundary (s : string) (end_ : nat) : nat :=
  if is_char_boundary s end_ then end_
  else match end_ with S end_ => back_to_boundary s end_ | O => O end.

Definition truncate_reason (s : string) : ended string :=
  if FAILURE_REASON_MAX_LEN <? String.length s then
    bind_ended (slice_to (back_to_boundary s FAILURE_REASON_MAX_LEN) s)
      (fun head => Returned (head +:+ "...[truncated]"))
  else Returned s.

Record ControlOverrideDecl := MkControlOverrideDecl {
  co_mode : string;
  co_reason : string;
}.

Record ProbeDecl := MkProbeDecl {
  pd_kind : string;
  pd_mode : string;
  pd_interval_seconds : u64;
  pd_run_once : bool;
  pd_url : option string;
  pd_expect_status : Z;
  pd_host : option string;
  pd_port : option Z;
  pd_connect_timeout_secs : u64;
  pd_command : list string;
  pd_timeout_secs : u64;
  pd_framework : option string;
  pd_evidence_path : string;
  pd_control_overrides : gmap string ControlOverrideDecl;
  pd_controls : gmap string ControlOverrideDecl;
}.

(** A declaration as its JSON object has it; a field with a default may be
    missing. *)
Record ProbeDeclJson := MkProbeDeclJson {
  pj_kind : string;
  pj_mode : string;
  pj_interval_seconds : option u64;
  pj_run_once : option bool;
  pj_url : option string;
  pj_expect_status : option Z;
  pj_host : option string;
  pj_port : option Z;
  pj_connect_timeout_secs : option u64;
  pj_command : option (list string);
  pj_timeout_secs : option u64;
  pj_framework : option string;
  pj_evidence_path : option string;
  pj_control_overrides : option (gmap string ControlOverrideDecl);
  pj_controls : option (gmap string ControlOverrideDecl);
}.

Definition default_interval_seconds : u64 := 30.
Definition default_expect_status : Z := 200.
Definition default_connect_timeout_secs : u64 := 5.
Definition default_timeout_secs : u64 := 10.
Definition default_evidence_path : string := "/var/lib/nixfleet-compliance/evidence.json".

Definition with_defaults (j : ProbeDeclJson) : ProbeDecl := {|
  pd_kind := pj_kind j;
  pd_mode := pj_mode j;
  pd_interval_seconds := default default_interval_seconds (pj_interval_seconds j);
  pd_run_once := default false (pj_run_once j);
  pd_url := pj_url j;
  pd_expect_status := default default_expect_status (pj_expect_status j);
  pd_host := pj_host j;
  pd_port := pj_port j;
  pd_connect_timeout_secs := default default_connect_timeout_secs (pj_connect_timeout_secs j);
  pd_command := default [] (pj_command j);
  pd_timeout_secs := default default_timeout_secs (pj_timeout_secs j);
  pd_framework := pj_framework j;
  pd_evidence_path := default default_evidence_path (pj_evidence_path j);
  pd_control_overrides := default ∅ (pj_control_overrides j);
  pd_controls := default ∅ (pj_controls j);
|}.

Definition resolved_mode (o : ControlOverrideDecl) : ProbeMode :=
  if bool_decide (co_mode o = "observe") then ProbeMode.Observe
  else if bool_decide (co_mode o = "disabled") then ProbeMode.Disabled
  else ProbeMode.Enforce.

Record RunnerOutcome := MkRunnerOutcome {
  ro_status : ProbeStatus;
  ro_observed_at : DateTime;
  ro_failure_reason : option string;
  ro_sub_results : option (list ProbeSubResult);
}.

Module RunnerOutcome.
Definition pass (observed_at : DateTime) : RunnerOutcome :=
  MkRunnerOutcome ProbeStatus.Pass observed_at None None.

Definition fail (observed_at : DateTime) (reason : string) : ended RunnerOutcome :=
  bind_ended (truncate_reason reason) (fun reason =>
    Returned (MkRunnerOutcome ProbeStatus.Fail observed_at (Some reason) None)).
End RunnerOutcome.

(** ** Evidence files ([proto/src/evidence.rs]) *)

Definition SCHEMA_VERSION : u32 := 1.

Record EvidenceControlEntry {Cr : Crypto} := MkEvidenceControlEntry {
  ec_control_id : string;
  ec_passed : bool;
  ec_framework_articles : gmap string (list string);
  ec_details : option Value;
  ec_schema : option string;
}.

Record EvidenceFile {Cr : Crypto} := MkEvidenceFile {
  ef_schema_version : u32;
  ef_hostname : string;
  ef_collected_at : DateTime;
  ef_controls : list EvidenceControlEntry;
}.

(** [serde_jcs::to_vec] of a type that derives [Serialize]. *)
Class SerializeJcs (T : Type) := serde_jcs_to_vec : T -> result string string.

(** [VerifyingKey::verify], which is laxer than [verify_strict]. *)
Class EvidenceCrypto {Cr : Crypto} := ed25519_verify : Ed25519Key -> string -> string -> bool.

(** ** The surroundings *)

(** How the client of an HTTP probe ends, a timeout being an error of the send. *)
Inductive HttpProbeEnd :=
| ClientBuildFailed (err : string)
| RequestFailed (err : string)
| Status (got : Z).

Inductive ConnectEnd :=
| Connected
| ConnectFailed (err : string)
| ConnectTimedOut.

(** The text of [stderr] is that of [from_utf8_lossy]. *)
Inductive ExecEnd :=
| SpawnFailed (err : string)
| WaitFailed (err : string)
| Exited (code : option i32) (stderr : string)
| ExecTimedOut.

Class ProbeEnv := {
  pe_now : nat -> DateTime;
  pe_var : string -> option string;                        (* [std::env::var] *)
  pe_read : nat -> string -> result string string;
  pe_read_to_string : nat -> string -> result string string;
  pe_http_get : nat -> string -> u64 -> HttpProbeEnd;
  pe_connect : nat -> string -> u64 -> ConnectEnd;
  pe_exec : nat -> list string -> u64 -> ExecEnd;
  pe_debug_i32 : i32 -> string;                            (* [{:?}] *)
  pe_display : string -> string;                           (* [Path::display] *)
}.

Definition debug_code {E : ProbeEnv} (code : option i32) : string :=
  match code with Some code => "Some(" +:+ pe_debug_i32 code +:+ ")" | None => "None" end.

(** ** The runners *)

Section runners.
Context {O : HashOrder} {Cr : Crypto} {Ev : EvidenceCrypto} {E : ProbeEnv}.
Context {De : DeserializeOwned EvidenceFile} {Je : SerializeJcs EvidenceFile}.


Definition http_run (decl : ProbeDecl) (now : DateTime) : AskM RunnerOutcome :=
  match pd_url decl with
  | None => settle (RunnerOutcome.fail now "http probe: url missing")
  | Some url =>
      sent ← question (fun n => pe_http_get n url (pd_timeout_secs decl));
      match sent with
      | ClientBuildFailed err => settle (RunnerOutcome.fail now ("http probe: client build: " +:+ err))
      | Status got =>
          if bool_decide (got = pd_expect_status decl) then mret (RunnerOutcome.pass now)
          else settle (RunnerOutcome.fail now
                 ("http probe: status " +:+ pretty got +:+ " != expected " +:+ pretty (pd_expect_status decl)))
      | RequestFailed err => settle (RunnerOutcome.fail now ("http probe: send: " +:+ err))
      end
  end.

Definition tcp_run (decl : ProbeDecl) (now : DateTime) : AskM RunnerOutcome :=
  match pd_port decl with
  | None => settle (RunnerOutcome.fail now "tcp probe: port missing")
  | Some port =>
      let host := default "127.0.0.1" (pd_host decl) in
      let addr := host +:+ ":" +:+ pretty port in
      connected ← question (fun n => pe_connect n addr (pd_connect_timeout_secs decl));
      match connected with
      | Connected => mret (RunnerOutcome.pass now)
      | ConnectFailed err =>
          settle (RunnerOutcome.fail now ("tcp probe: connect " +:+ addr +:+ ": " +:+ err))
      | ConnectTimedOut =>
          settle (RunnerOutcome.fail now
            ("tcp probe: connect " +:+ addr +:+ " timed out after " +:+
             pretty (pd_connect_timeout_secs decl) +:+ "s"))
      end
  end.

Fixpoint join (separator : string) (l : list string) : string :=
  match l with
  | [] => ""
  | [x] => x
  | x :: l => x +:+ separator +:+ join separator l
  end.

Definition exec_run (decl : ProbeDecl) (now : DateTime) : AskM RunnerOutcome :=
  match pd_command decl with
  | [] => settle (RunnerOutcome.fail now "exec probe: command argv missing")
  | argv =>
      ended_ ← question (fun n => pe_exec n argv (pd_timeout_secs decl));
      match ended_ with
      | SpawnFailed err => settle (RunnerOutcome.fail now ("exec probe: spawn: " +:+ err))
      | Exited code stderr =>
          if bool_decide (code = Some 0%Z) then mret (RunnerOutcome.pass now)
          else
            let stderr_tail := join " / " (take 3 (reverse (lines stderr))) in
            settle (RunnerOutcome.fail now
              ("exec probe: exit " +:+ debug_code code +:+ "; stderr: " +:+ stderr_tail))
      | WaitFailed err => settle (RunnerOutcome.fail now ("exec probe: wait: " +:+ err))
      | ExecTimedOut =>
          settle (RunnerOutcome.fail now
            ("exec probe: timed out after " +:+ pretty (pd_timeout_secs decl) +:+ "s"))
      end
  end.

(** ** The evidence runner ([probe_runners/evidence.rs]) *)

Definition probe_level_mode (decl : ProbeDecl) : ProbeMode :=
  if bool_decide (pd_mode decl = "observe") then ProbeMode.Observe
  else if bool_decide (pd_mode decl = "disabled") then ProbeMode.Disabled
  else ProbeMode.Enforce.

Definition resolve_effective_mode (decl : ProbeDecl) (control_id : string) (probe_mode : ProbeMode)
    (framework_filter : option string) : ProbeMode * option string :=
  match framework_filter with
  | Some _ =>
      match pd_control_overrides decl !! control_id with
      | Some o => (resolved_mode o, Some (co_reason o))
      | None => (probe_mode, None)
      end
  | None =>
      match pd_controls decl !! control_id with
      | Some c => (resolved_mode c, Some (co_reason c))
      | None => (ProbeMode.Disabled, None)
      end
  end.

(** One row per article, or one without an article. *)
Definition article_rows (entry : EvidenceControlEntry) (status : ProbeStatus)
    (effective_mode : ProbeMode) (override_reason : option string) (framework : string)
    (articles : list string) : list ProbeSubResult :=
  let row article :=
    MkProbeSubResult (ec_control_id entry) status framework article effective_mode override_reason in
  match articles with
  | [] => [row None]
  | articles => (fun article => row (Some article)) <$> articles
  end.

(** The rows that are pushed. *)
Definition push_entry_sub_results (entry : EvidenceControlEntry) (framework_filter : option string)
    (status : ProbeStatus) (effective_mode : ProbeMode) (override_reason : option string)
    : list ProbeSubResult :=
  let rows := article_rows entry status effective_mode override_reason in
  match framework_filter with
  | Some framework =>
      match ec_framework_articles entry !! framework with
      | None => []
      | Some articles => rows framework articles
      end
  | None =>
      match hash_iter (ec_framework_articles entry) with
      | [] => rows "custom" []
      | entries => mjoin ((fun e : string * list string => rows e.1 e.2) <$> entries)
      end
  end.

(** One iteration of the loop over the controls. *)
Definition control_rows (decl : ProbeDecl) (entry : EvidenceControlEntry) : list ProbeSubResult :=
  let '(effective_mode, override_reason) :=
    resolve_effective_mode decl (ec_control_id entry) (probe_level_mode decl) (pd_framework decl) in
  if bool_decide (effective_mode = ProbeMode.Disabled) then []
  else
    let status := if ec_passed entry then ProbeStatus.Pass else ProbeStatus.Fail in
    push_entry_sub_results entry (pd_framework decl) status effective_mode override_reason.

Definition resolve_host_pubkey : AskM (result string string) :=
  let priv_path := default "/etc/ssh/ssh_host_ed25519_key" (pe_var "NIXFLEET_AGENT_SSH_HOST_KEY_FILE") in
  let pub_path := priv_path +:+ ".pub" in
  raw ← question (fun n => pe_read_to_string n pub_path);
  mret match raw with
  | Err err => Err ("read host pubkey " +:+ pub_path +:+ ": " +:+ err)
  | Ok raw =>
      match split_whitespace raw !! 1 with
      | None => Err ("malformed host pubkey at " +:+ pub_path)
      | Some blob_b64 =>
          match base64_decode blob_b64 with
          | Err err => Err ("host pubkey base64 decode: " +:+ err)
          | Ok blob =>
              if String.length blob <? 32 then
                Err ("host pubkey blob len " +:+ pretty (String.length blob) +:+ " < 32")
              else Ok (String.substring (String.length blob - 32) 32 blob)
          end
      end
  end.

(** The checks of the selection, and the files up to a verified payload. *)
Definition check_selection (decl : ProbeDecl) : result unit string :=
  match pd_framework decl, bool_decide (pd_controls decl = ∅) with
  | None, true => Err "evidence probe: neither framework nor controls declared"
  | Some _, false => Err "evidence probe: framework and controls both set (XOR violation)"
  | _, _ => Ok tt
  end.

Definition verify_evidence (payload_bytes sig_b64 pubkey_bytes : string) : result EvidenceFile string :=
  match ed25519_from_bytes pubkey_bytes with
  | Err err => Err ("evidence probe: pubkey parse: " +:+ err)
  | Ok vk =>
      match base64_decode sig_b64 with
      | Err err => Err ("evidence probe: sig base64: " +:+ err)
      | Ok sig =>
          if negb (bool_decide (String.length sig = 64)) then
            Err ("evidence probe: sig length " +:+ pretty (String.length sig) +:+ " != 64")
          else
            match from_str payload_bytes with
            | Err err => Err ("evidence probe: parse: " +:+ err)
            | Ok parsed =>
                match serde_jcs_to_vec parsed with
                | Err err => Err ("evidence probe: canonicalise: " +:+ err)
                | Ok canonical_bytes =>
                    if negb (ed25519_verify vk canonical_bytes sig) then
                      Err "evidence probe: signature verify failed"
                    else if negb (bool_decide (ef_schema_version parsed = SCHEMA_VERSION)) then
                      Err ("evidence probe: schemaVersion " +:+ pretty (ef_schema_version parsed) +:+
                           " unsupported (agent expects " +:+ pretty SCHEMA_VERSION +:+
                           "); upgrade nixfleet-compliance")
                    else Ok parsed
                end
            end
      end
  end.

Definition load_evidence (decl : ProbeDecl) : AskM (result EvidenceFile string) :=
  try _ := mret (check_selection decl) in
  let sig_path := with_extension "json.sig" (pd_evidence_path decl) in
  payload_bytes ← question (fun n => pe_read n (pd_evidence_path decl));
  match payload_bytes with
  | Err err => mret (Err ("evidence probe: read " +:+ pe_display (pd_evidence_path decl) +:+ ": " +:+ err))
  | Ok payload_bytes =>
      sig_b64 ← question (fun n => pe_read_to_string n sig_path);
      match sig_b64 with
      | Err err => mret (Err ("evidence probe: read " +:+ pe_display sig_path +:+ ": " +:+ err))
      | Ok sig_b64 =>
          pubkey ← resolve_host_pubkey;
          mret match pubkey with
          | Err reason => Err ("evidence probe: " +:+ reason)
          | Ok pubkey_bytes => verify_evidence payload_bytes (trim sig_b64) pubkey_bytes
          end
      end
  end.

Definition enforced (s : ProbeSubResult) : bool := bool_decide (psr_effective_mode s = ProbeMode.Enforce).

(** The result of the rows; its reason is not truncated. *)
Definition aggregate (decl : ProbeDecl) (now : DateTime) (sub_results : list ProbeSubResult) : RunnerOutcome :=
  let all_enforce_pass :=
    forallb (fun s => bool_decide (psr_status s = ProbeStatus.Pass)) (List.filter enforced sub_results) in
  MkRunnerOutcome (if all_enforce_pass then ProbeStatus.Pass else ProbeStatus.Fail) now
    (if all_enforce_pass then None
     else Some ("evidence probe: " +:+ default "custom-controls" (pd_framework decl) +:+
                ": at least one enforce-mode control failed"))
    (Some sub_results).

Definition evidence_run (decl : ProbeDecl) (now : DateTime) : AskM RunnerOutcome :=
  loaded ← load_evidence decl;
  match loaded with
  | Err reason => settle (RunnerOutcome.fail now reason)
  | Ok parsed =>
      let sub_results := mjoin (control_rows decl <$> ef_controls parsed) in
      if is_empty sub_results then
        settle (RunnerOutcome.fail now
          match pd_framework decl with
          | Some f => "evidence probe: no controls match framework '" +:+ f +:+ "'"
          | None => "evidence probe: no controls matched the explicit selection"
          end)
      else mret (aggregate decl now sub_results)
  end.

Definition probe_run (decl : ProbeDecl) (now : DateTime) : AskM RunnerOutcome :=
  let kind := pd_kind decl in
  if bool_decide (kind = "http") then http_run decl now
  else if bool_decide (kind = "tcp") then tcp_run decl now
  else if bool_decide (kind = "exec") then exec_run decl now
  else if bool_decide (kind = "evidence") then evidence_run decl now
  else settle (RunnerOutcome.fail now ("unknown probe kind '" +:+ kind +:+ "'")).

(** ** The worker ([probe.rs]) *)

Definition HEALTH_CHECKS_PATH : string := "/etc/nixfleet/agent/health-checks.json".

Definition parse_mode (s : string) : ProbeMode :=
  if bool_decide (s = "enforce") then ProbeMode.Enforce
  else if bool_decide (s = "observe") then ProbeMode.Observe
  else if bool_decide (s = "disabled") then ProbeMode.Disabled
  else ProbeMode.Enforce.

(** A ticker with its local variables, the deadline of its next tick and the
    events of the current turn it has not sent yet.  Its start, the outcomes of
    its turns and what it has sent are recorded. *)
Record Ticker := MkTicker {
  tk_name : string;
  tk_decl : ProbeDecl;
  tk_mode : ProbeMode;
  tk_rollout_id : RolloutId;
  tk_first_observed : bool;
  tk_last_status : option ProbeStatus;
  tk_deadline : Z;
  tk_pending : list AgentInput;
  tk_started : Z;
  tk_outcomes : list RunnerOutcome;
  tk_sent : list AgentInput;
}.
#[export] Instance Ticker_eta : Etaexp Ticker := fun t =>
  MkTicker (tk_name t) (tk_decl t) (tk_mode t) (tk_rollout_id t) (tk_first_observed t) (tk_last_status t)
    (tk_deadline t) (tk_pending t) (tk_started t) (tk_outcomes t) (tk_sent t).

Definition tk_interval (t : Ticker) : Duration :=
  duration_seconds (Z.max (pd_interval_seconds (tk_decl t)) MIN_INTERVAL_SECS).

(** The first tick is due at once. *)
Definition spawn_ticker (name : string) (decl : ProbeDecl) (mode : ProbeMode) (rollout_id : RolloutId)
    (at_ : Z) : Ticker :=
  MkTicker name decl mode rollout_id false None at_ [] at_ [] [].

Definition tick_events (t : Ticker) (outcome : RunnerOutcome) : list AgentInput :=
  let send event := AgentInput.HostEvent (tk_rollout_id t) event in
  let was_fail := bool_decide (tk_last_status t = Some ProbeStatus.Fail) in
  let now_fail := bool_decide (ro_status outcome = ProbeStatus.Fail) in
  (if tk_first_observed t then []
   else [send (Event.LocalProbeObservedFirst (tk_name t) (tk_mode t) (ro_observed_at outcome) 0)]) ++
  (if now_fail && negb was_fail then
     [send (Event.LocalProbeFailureFirst (tk_name t) (tk_mode t) (ro_observed_at outcome) 0)]
   else []) ++
  [send (Event.LocalProbeResult (tk_name t) (tk_mode t) (ro_status outcome) (ro_observed_at outcome)
           (ro_failure_reason outcome) (ro_sub_results outcome) 0)].

(** A turn up to its first send; [deadline] is that of the next tick. *)
Definition tick (deadline : Z) (t : Ticker) : AskM Ticker :=
  now ← question pe_now;
  outcome ← probe_run (tk_decl t) now;
  mret (t <| tk_first_observed := true |>
          <| tk_last_status := Some (ro_status outcome) |>
          <| tk_deadline := deadline |>
          <| tk_pending := tick_events t outcome |>
          <| tk_outcomes := tk_outcomes t ++ [outcome] |>).

(** A ticker that runs once returns after its turn. *)
Definition returned (t : Ticker) : bool :=
  pd_run_once (tk_decl t) && negb (is_empty (tk_outcomes t)) && is_empty (tk_pending t).

Definition sends (input : AgentInput) (pending : list AgentInput) (t : Ticker) : Ticker :=
  t <| tk_pending := pending |> <| tk_sent := tk_sent t ++ [input] |>.

Record ProbeWorker := MkProbeWorker {
  pw_tickers : gmap string Ticker;
  pw_aborted : list Ticker;                    (* aborted, and perhaps still in a poll *)
  pw_sent : list AgentInput;                   (* to the reducer *)
  pw_asked : nat;
  pw_clock : Z;                                (* the monotonic clock of the tickers *)
}.
#[export] Instance ProbeWorker_eta : Etaexp ProbeWorker := fun w =>
  MkProbeWorker (pw_tickers w) (pw_aborted w) (pw_sent w) (pw_asked w) (pw_clock w).

Definition abort_all (w : ProbeWorker) : ProbeWorker :=
  w <| pw_tickers := ∅ |> <| pw_aborted := pw_aborted w ++ (map_to_list (pw_tickers w)).*2 |>.

Definition topology_entry (d : string * ProbeDecl) : ProbeTopologyEntry :=
  MkProbeTopologyEntry d.1 (pd_kind d.2) (parse_mode (pd_mode d.2)).

(** The loop over the declarations. *)
Definition spawn_tickers (decls : list (string * ProbeDecl)) (rollout_id : RolloutId) (at_ : Z)
    : gmap string Ticker :=
  fold_left (fun tickers '(name, decl) =>
      let mode := parse_mode (pd_mode decl) in
      if bool_decide (mode = ProbeMode.Disabled) then tickers
      else <[ name := spawn_ticker name decl mode rollout_id at_ ]> tickers)
    decls ∅.

(** The declarations, when the file is there and parses. *)
Definition read_declarations {Dd : DeserializeOwned (gmap string ProbeDeclJson)}
    : AskM (option (gmap string ProbeDecl)) :=
  match pe_var "NIXFLEET_AGENT_PROBE_TEST_MODE" with
  | Some _ => mret None
  | None =>
      raw ← question (fun n => pe_read_to_string n HEALTH_CHECKS_PATH);
      mret match raw with
      | Err _ => None
      | Ok raw => match from_str raw with Ok decls => Some (with_defaults <$> decls) | Err _ => None end
      end
  end.

(** [closed] says whether the reducer has gone. *)
Definition handle_reset {Dd : DeserializeOwned (gmap string ProbeDeclJson)} (cmd : ProbeResetCommand)
    (closed : bool) (w : ProbeWorker) : ProbeWorker :=
  let w := abort_all w in
  let rollout_id := prc_rollout_id cmd in
  match read_declarations (pw_asked w) with
  | (Returned (Some decls), n) =>
      let declared := AgentInput.HostEvent rollout_id
        (Event.LocalProbeTopologyDeclared (topology_entry <$> hash_iter decls) (pe_now n) 0) in
      let w := w <| pw_asked := S n |> in
      if closed then w
      else w <| pw_sent := pw_sent w ++ [declared] |>
             <| pw_tickers := spawn_tickers (hash_iter decls) rollout_id (pw_clock w) |>
  | (_, n) => w <| pw_asked := n |>
  end.

(** One step of the worker, of a ticker, or of time.  A ticker that was aborted
    finishes the poll it is in; it never sees another tick. *)
Inductive probe_step {Dd : DeserializeOwned (gmap string ProbeDeclJson)} (w : ProbeWorker)
    : ProbeWorker -> Prop :=
| step_reset cmd closed :
    probe_step w (handle_reset cmd closed w)
| step_tick name t t' deadline n :
    pw_tickers w !! name = Some t -> tk_pending t = [] -> returned t = false ->
    (tk_deadline t <= pw_clock w)%Z -> (tk_deadline t + tk_interval t <= deadline)%Z ->
    tick deadline t (pw_asked w) = (Returned t', n) ->
    probe_step w (w <| pw_tickers := <[ name := t' ]> (pw_tickers w) |> <| pw_asked := n |>)
| step_send name t input pending :
    pw_tickers w !! name = Some t -> tk_pending t = input :: pending ->
    probe_step w (w <| pw_tickers := <[ name := sends input pending t ]> (pw_tickers w) |>
                    <| pw_sent := pw_sent w ++ [input] |>)
| step_late before t after input pending :
    pw_aborted w = before ++ t :: after -> tk_pending t = input :: pending ->
    probe_step w (w <| pw_aborted := before ++ sends input pending t :: after |>
                    <| pw_sent := pw_sent w ++ [input] |>)
| step_gone before t after :
    pw_aborted w = before ++ t :: after ->
    probe_step w (w <| pw_aborted := before ++ after |>)
| step_clock now :
    (pw_clock w <= now)%Z -> probe_step w (w <| pw_clock := now |>)
| step_stop :
    probe_step w (abort_all w).

Definition probe_initial (clock : Z) : ProbeWorker := MkProbeWorker ∅ [] [] 0 clock.

End runners.
