(* ===== verification/AgentProbesProps.v ===== *)
(** * Health probes of the agent: lemmas

    What the runners answer, the invariant of the worker and its tickers, and what
    the reducer makes of a report.  The theorems are in [AgentProbesSpecs]. *)

From S2P Require Import Prelude RustStd Proto HostTypes HostTransitions HostProps RolloutMachine.
From S2P Require Import Gates Verify HostKey CpStore CpRuntime AgentQueue AgentRuntime AgentProps AgentProbes.
From stdpp Require Import pretty.

(** ** Reasons *)

Lemma length_substring_le n m s : String.length (String.substring n m s) <= m.
Proof.
  revert n m. induction s as [|c s IH]; intros [|n] [|m]; simpl; try lia; [|apply (IH n 0)|apply IH].
  specialize (IH 0 m). lia.
Qed.

Lemma back_to_boundary_spec s n :
  is_char_boundary s (back_to_boundary s n) = true /\ back_to_boundary s n <= n.
Proof.
  induction n as [|n [IH1 IH2]]; [done|]. cbn [back_to_boundary].
  destruct (is_char_boundary s (S n)) eqn:E; [by split|]. split; [done|lia].
Qed.

(** The cap on a reason with the text that says it was cut. *)
Definition reason_cap : nat := FAILURE_REASON_MAX_LEN + String.length "...[truncated]".

Lemma truncate_reason_spec s :
  exists r, truncate_reason s = Returned r /\ String.length r <= reason_cap.
Proof.
  unfold truncate_reason, reason_cap. destruct (Nat.ltb_spec FAILURE_REASON_MAX_LEN (String.length s)).
  - destruct (back_to_boundary_spec s FAILURE_REASON_MAX_LEN) as [Hb Hle].
    unfold slice_to. rewrite Hb. cbn [bind_ended]. eexists. split; [done|].
    rewrite length_append. apply Nat.add_le_mono; [|done]. etrans; [apply length_substring_le|done].
  - eexists. split; [done|]. unfold FAILURE_REASON_MAX_LEN in *. lia.
Qed.

Section runners.
Context {O : HashOrder} {Cr : Crypto} {Ev : EvidenceCrypto} {E : ProbeEnv}.
Context {De : DeserializeOwned EvidenceFile} {Je : SerializeJcs EvidenceFile}.

(** A failure without rows, with a capped reason. *)
Definition failed_at (now : DateTime) (o : RunnerOutcome) : Prop :=
  ro_status o = ProbeStatus.Fail /\ ro_observed_at o = now /\ ro_sub_results o = None /\
  exists r, ro_failure_reason o = Some r /\ String.length r <= reason_cap.

Lemma fail_spec now reason : exists o, RunnerOutcome.fail now reason = Returned o /\ failed_at now o.
Proof.
  unfold RunnerOutcome.fail. destruct (truncate_reason_spec reason) as (r & -> & Hr). cbn [bind_ended].
  eexists. split; [done|]. split_and!; try done. by exists r.
Qed.

(** How a probe ends without rows. *)
Definition plain (now : DateTime) (o : RunnerOutcome) : Prop :=
  o = RunnerOutcome.pass now \/ failed_at now o.

Lemma settle_fail now reason n :
  exists o n', settle (RunnerOutcome.fail now reason) n = (Returned o, n') /\ failed_at now o.
Proof. destruct (fail_spec now reason) as (o & Ho & Hf). exists o, n. unfold settle. by rewrite Ho. Qed.

Ltac plain_end :=
  match goal with
  | |- context [settle (RunnerOutcome.fail ?now ?reason) ?n] =>
      let o := fresh in let n' := fresh in let H := fresh in let Hf := fresh in
      destruct (settle_fail now reason n) as (o & n' & H & Hf); rewrite H; exists o, n';
      split; [done | by right]
  | |- _ => eexists _, _; split; [reflexivity | by left]
  end.

Lemma http_run_plain decl now n : exists o n', http_run decl now n = (Returned o, n') /\ plain now o.
Proof.
  unfold http_run. destruct (pd_url decl) as [url|]; [|plain_end].
  unfold mbind, AskM_bind, question. destruct (pe_http_get _ _ _); try case_bool_decide; plain_end.
Qed.

Lemma tcp_run_plain decl now n : exists o n', tcp_run decl now n = (Returned o, n') /\ plain now o.
Proof.
  unfold tcp_run. destruct (pd_port decl) as [port|]; [|plain_end].
  unfold mbind, AskM_bind, question. destruct (pe_connect _ _ _); plain_end.
Qed.

Lemma exec_run_plain decl now n : exists o n', exec_run decl now n = (Returned o, n') /\ plain now o.
Proof.
  unfold exec_run. destruct (pd_command decl) as [|c argv]; [plain_end|].
  unfold mbind, AskM_bind, question. destruct (pe_exec _ _ _); try case_bool_decide; plain_end.
Qed.

(** ** Evidence *)

Lemma load_evidence_returns decl n : exists r n', load_evidence decl n = (Returned r, n').
Proof.
  unfold load_evidence, mbind, AskM_bind, mret, AskM_ret, question.
  destruct (check_selection decl); [|by eexists _, _].
  destruct (pe_read n _); [|by eexists _, _]. destruct (pe_read_to_string _ _); [|by eexists _, _].
  unfold resolve_host_pubkey, mbind, AskM_bind, mret, AskM_ret, question. by eexists _, _.
Qed.

(** The rows of a file the probe selects. *)
Definition selected (decl : ProbeDecl) (file : EvidenceFile) : list ProbeSubResult :=
  mjoin (control_rows decl <$> ef_controls file).

Lemma evidence_run_cases decl now n :
  exists o n', evidence_run decl now n = (Returned o, n') /\
  ((exists file, load_evidence decl n = (Returned (Ok file), n') /\ selected decl file <> [] /\
      o = aggregate decl now (selected decl file)) \/
   (failed_at now o /\ forall file m, load_evidence decl n = (Returned (Ok file), m) -> selected decl file = [])).
Proof.
  destruct (load_evidence_returns decl n) as (r & n1 & Hr). unfold evidence_run.
  unfold mbind at 1, AskM_bind at 1. rewrite Hr. destruct r as [file|reason].
  - fold (selected decl file). destruct (is_empty (selected decl file)) eqn:Ee.
    + destruct (settle_fail now match pd_framework decl with
          | Some f => "evidence probe: no controls match framework '" +:+ f +:+ "'"
          | None => "evidence probe: no controls matched the explicit selection" end n1)
        as (o & n' & Ho & Hf).
      rewrite Ho. exists o, n'. split; [done|]. right. split; [done|].
      intros file' m [= <- _]. by apply is_empty_spec.
    + eexists _, _. split; [done|]. left. exists file. split_and!; [done| |done].
      intros E0. by rewrite E0 in Ee.
  - destruct (settle_fail now reason n1) as (o & n' & Ho & Hf). rewrite Ho. exists o, n'.
    split; [done|]. right. by split.
Qed.

Lemma aggregate_passes decl now rows :
  ro_status (aggregate decl now rows) = ProbeStatus.Pass <->
  forall r, r ∈ rows -> psr_effective_mode r = ProbeMode.Enforce -> psr_status r = ProbeStatus.Pass.
Proof.
  unfold aggregate. simpl. destruct (forallb _ _) eqn:Ef; simpl.
  - split; [intros _ r Hr Hm|done]. rewrite forallb_forall in Ef.
    apply (bool_decide_eq_true _), Ef, filter_In. split; [by apply list_elem_of_In|].
    unfold enforced. by apply bool_decide_eq_true.
  - split; [done|]. intros H. apply not_true_iff_false in Ef. destruct Ef. apply forallb_forall.
    intros r [Hr Hm]%filter_In. unfold enforced in Hm. apply bool_decide_eq_true in Hm.
    apply bool_decide_eq_true, H; [by apply list_elem_of_In|done].
Qed.

Lemma if_ok {A B} (b : bool) (x : A) (e : B) (r : A) : (if b then Err e else Ok x) = Ok r <-> b = false /\ x = r.
Proof. destruct b; split; [done|by intros []|by intros [= ->]|by intros [_ ->]]. Qed.

(** A file the runner accepts: exactly one selection is declared, the three
    files can be read, and the host's key signed the canonical form of the
    payload as it was parsed. *)
Definition accepted_evidence (decl : ProbeDecl) (n : nat) (file : EvidenceFile) : Prop :=
  (is_Some (pd_framework decl) <-> pd_controls decl = ∅) /\
  exists payload sig_text key_text key_b64 blob key sig canonical,
    pe_read n (pd_evidence_path decl) = Ok payload /\
    pe_read_to_string (S n) (with_extension "json.sig" (pd_evidence_path decl)) = Ok sig_text /\
    pe_read_to_string (S (S n))
      (default "/etc/ssh/ssh_host_ed25519_key" (pe_var "NIXFLEET_AGENT_SSH_HOST_KEY_FILE") +:+ ".pub") =
      Ok key_text /\
    split_whitespace key_text !! 1 = Some key_b64 /\ base64_decode key_b64 = Ok blob /\
    32 <= String.length blob /\
    ed25519_from_bytes (String.substring (String.length blob - 32) 32 blob) = Ok key /\
    base64_decode (trim sig_text) = Ok sig /\ String.length sig = 64 /\
    from_str payload = Ok file /\ serde_jcs_to_vec file = Ok canonical /\
    ed25519_verify key canonical sig = true /\ ef_schema_version file = SCHEMA_VERSION.

Lemma verify_evidence_ok payload sig_b64 key file :
  verify_evidence payload sig_b64 key = Ok file <->
  exists vk sig canonical, ed25519_from_bytes key = Ok vk /\ base64_decode sig_b64 = Ok sig /\
    String.length sig = 64 /\ from_str payload = Ok file /\ serde_jcs_to_vec file = Ok canonical /\
    ed25519_verify vk canonical sig = true /\ ef_schema_version file = SCHEMA_VERSION.
Proof.
  unfold verify_evidence. split.
  - destruct (ed25519_from_bytes key) as [vk|]; [|done]. destruct (base64_decode sig_b64) as [sig|]; [|done].
    case_bool_decide as Hl; [|done]. simpl. destruct (from_str payload) as [f|]; [|done].
    destruct (serde_jcs_to_vec f) as [c|] eqn:Ec; [|done]. destruct (ed25519_verify vk c sig) eqn:Ev'; [|done].
    simpl. case_bool_decide as Hs; [|done]. simpl. intros [= <-]. by exists vk, sig, c.
  - intros (vk & sig & c & -> & -> & Hl & -> & -> & -> & Hs).
    by rewrite (bool_decide_eq_true_2 _ Hl), (bool_decide_eq_true_2 _ Hs).
Qed.

Lemma check_selection_ok decl :
  check_selection decl = Ok () <-> (is_Some (pd_framework decl) <-> pd_controls decl = ∅).
Proof.
  unfold check_selection. destruct (pd_framework decl) as [f|]; case_bool_decide as Hc.
  - split; [|done]. by intros _.
  - split; [done|]. intros [H _]. by destruct Hc, H.
  - split; [done|]. intros [_ H]. by destruct (H Hc).
  - split; [|done]. intros _. split; [by intros []|done].
Qed.

Lemma load_evidence_ok decl n file n' :
  load_evidence decl n = (Returned (Ok file), n') <-> accepted_evidence decl n file /\ n' = S (S (S n)).
Proof.
  unfold load_evidence, accepted_evidence, resolve_host_pubkey. rewrite <- check_selection_ok.
  unfold mbind, AskM_bind, mret, AskM_ret, question. cbv beta iota.
  destruct (check_selection decl) as [[]|] eqn:Ecs; [|split; [done|by intros [[? _] _]]].
  destruct (pe_read n _) as [payload|]; [|split; [done|by intros [(_ & ?&?&?&?&?&?&?&?&? & _) _]]].
  destruct (pe_read_to_string (S n) _) as [sig|]; [|split; [done|by intros [(_ & ?&?&?&?&?&?&?&?&_&? & _) _]]].
  destruct (pe_read_to_string (S (S n)) _) as [key|];
    [|split; [done|by intros [(_ & ?&?&?&?&?&?&?&?&_&_&? & _) _]]].
  destruct (split_whitespace key !! 1) as [b64|] eqn:Eb;
    [|split; [done|intros [(_ & ?&?&?&?&?&?&?&?&_&_&[= ->]&Hb&_) _]; congruence]].
  destruct (base64_decode b64) as [blob|] eqn:Ebb;
    [|split; [done|intros [(_ & ?&?&?&?&?&?&?&?&_&_&[= ->]&Hb&Hd&_) _]; congruence]].
  destruct (Nat.ltb_spec (String.length blob) 32) as [Hlt|Hge].
  { split; [done|]. intros [(_ & ?&?&?&?&?&?&?&?&_&_&[= ->]&Hb&Hd&Hl&_) _].
    assert (x2 = b64) as -> by congruence. assert (x3 = blob) as -> by congruence. lia. }
  split.
  - intros [= Hv <-]. apply verify_evidence_ok in Hv as (vk & s & c & Hv). split; [|done].
    split; [done|]. exists payload, sig, key, b64, blob, vk, s, c. by split_and!; try apply Hv.
  - intros [(_ & p' & s' & k' & b' & bl & vk & sg & c & [= <-] & [= <-] & [= <-] & Hb & Hd & _ & Hv) ->].
    assert (b' = b64) as -> by congruence. assert (bl = blob) as -> by congruence.
    f_equal. f_equal. apply verify_evidence_ok. by exists vk, sg, c.
Qed.

(** ** The rows *)

(** A control counts under a mode, for a framework and perhaps an article. *)
Definition counts (decl : ProbeDecl) (entry : EvidenceControlEntry) (mode : ProbeMode)
    (framework : string) (article : option string) : Prop :=
  mode <> ProbeMode.Disabled /\
  match pd_framework decl with
  | Some f =>
      framework = f /\
      mode = from_option resolved_mode (probe_level_mode decl) (pd_control_overrides decl !! ec_control_id entry)
  | None => (resolved_mode <$> pd_controls decl !! ec_control_id entry) = Some mode
  end /\
  ((exists articles, ec_framework_articles entry !! framework = Some articles /\
     match article with None => articles = [] | Some a => a ∈ articles end) \/
   (pd_framework decl = None /\ ec_framework_articles entry = ∅ /\ framework = "custom" /\ article = None)).

Lemma article_rows_elem entry status mode reason framework articles r :
  r ∈ article_rows entry status mode reason framework articles <->
  exists article, r = MkProbeSubResult (ec_control_id entry) status framework article mode reason /\
    match article with None => articles = [] | Some a => a ∈ articles end.
Proof.
  destruct articles as [|a l]; cbn [article_rows].
  - rewrite list_elem_of_singleton. split; [intros ->; by exists None|]. intros ([x|] & -> & Hx); [|done].
    by apply not_elem_of_nil in Hx.
  - rewrite list_elem_of_fmap. split.
    + intros (x & -> & Hx). by exists (Some x).
    + intros ([x|] & -> & Hx); [by exists x|done].
Qed.

Lemma push_rows_elem entry filter status mode reason r :
  r ∈ push_entry_sub_results entry filter status mode reason <->
  exists framework article,
    r = MkProbeSubResult (ec_control_id entry) status framework article mode reason /\
    (forall f, filter = Some f -> framework = f) /\
    ((exists articles, ec_framework_articles entry !! framework = Some articles /\
       match article with None => articles = [] | Some a => a ∈ articles end) \/
     (filter = None /\ ec_framework_articles entry = ∅ /\ framework = "custom" /\ article = None)).
Proof.
  unfold push_entry_sub_results. destruct filter as [f|].
  - destruct (ec_framework_articles entry !! f) as [articles|] eqn:Ef.
    + rewrite article_rows_elem. split.
      * intros (article & -> & Ha). exists f, article. split_and!; [done|by intros ? [= <-]|]. left. by exists articles.
      * intros (framework & article & -> & Hf & [(l & Hl & Ha)|(? & _)]); [|done].
        rewrite (Hf f eq_refl) in *. exists article. assert (l = articles) as -> by congruence. done.
    + split; [by intros ?%not_elem_of_nil|].
      intros (framework & article & -> & Hf & [(l & Hl & Ha)|(? & _)]); [|done].
      rewrite (Hf f eq_refl) in *. congruence.
  - destruct (hash_iter (ec_framework_articles entry)) as [|e es] eqn:Eh.
    + assert (He : ec_framework_articles entry = ∅).
      { apply map_to_list_empty_iff, Permutation_nil_r. by rewrite <- (hash_iter_perm _), Eh. }
      rewrite article_rows_elem, He. split.
      * intros (article & -> & Ha). exists "custom", article. split_and!; [done|done|]. right.
        destruct article; [by apply not_elem_of_nil in Ha|done].
      * intros (framework & article & -> & _ & [(l & Hl & Ha)|(_ & _ & -> & ->)]); [|by exists None].
        by rewrite lookup_empty in Hl.
    + rewrite <- Eh, list_elem_of_join. split.
      * intros (rows & Hr & ([framework articles] & -> & Hin%elem_of_hash_iter)%list_elem_of_fmap).
        apply article_rows_elem in Hr as (article & -> & Ha). exists framework, article.
        split_and!; [done|done|]. left. by exists articles.
      * intros (framework & article & -> & _ & [(l & Hl & Ha)|(_ & He & _)]).
        -- exists (article_rows entry status mode reason framework l). split; [apply article_rows_elem; by exists article|].
           apply list_elem_of_fmap. exists (framework, l). split; [done|]. by apply elem_of_hash_iter.
        -- exfalso. assert (Hin : e ∈ hash_iter (ec_framework_articles entry)) by (rewrite Eh; left).
           destruct e as [k v]. apply elem_of_hash_iter in Hin. by rewrite He, lookup_empty in Hin.
Qed.

Lemma effective_mode_spec decl id mode :
  mode <> ProbeMode.Disabled ->
  (resolve_effective_mode decl id (probe_level_mode decl) (pd_framework decl)).1 = mode <->
  match pd_framework decl with
  | Some _ => mode = from_option resolved_mode (probe_level_mode decl) (pd_control_overrides decl !! id)
  | None => (resolved_mode <$> pd_controls decl !! id) = Some mode
  end.
Proof.
  intros Hd. unfold resolve_effective_mode. destruct (pd_framework decl).
  - destruct (pd_control_overrides decl !! id); simpl; by split.
  - destruct (pd_controls decl !! id); simpl.
    + split; [by intros ->|by intros [= ->]].
    + split; [by intros <-|done].
Qed.

Lemma control_rows_elem decl entry r :
  r ∈ control_rows decl entry <->
  exists mode framework article reason, counts decl entry mode framework article /\
    (resolve_effective_mode decl (ec_control_id entry) (probe_level_mode decl) (pd_framework decl)).2 = reason /\
    r = MkProbeSubResult (ec_control_id entry)
          (if ec_passed entry then ProbeStatus.Pass else ProbeStatus.Fail) framework article mode reason.
Proof.
  unfold control_rows, counts.
  pose proof (effective_mode_spec decl (ec_control_id entry)) as Hm.
  destruct (resolve_effective_mode _ _ _ _) as [mode reason]. simpl in Hm |- *.
  case_bool_decide as Hd.
  - split; [by intros ?%not_elem_of_nil|]. intros (m & f & a & rs & (Hnd & Hsel & _) & _).
    exfalso. apply Hnd. rewrite <- Hd. symmetry. apply Hm; [done|].
    destruct (pd_framework decl); [by destruct Hsel|done].
  - rewrite push_rows_elem. split.
    + intros (f & a & -> & Hf & Ha). exists mode, f, a, reason. split_and!; [done| |done|done|done].
      pose proof (proj1 (Hm mode Hd) eq_refl) as Hsel. destruct (pd_framework decl); [|done].
      split; [by apply Hf|done].
    + intros (m & f & a & rs & (Hnd & Hsel & Ha) & <- & ->). exists f, a.
      assert (mode = m) as ->.
      { apply Hm; [done|]. destruct (pd_framework decl); [by destruct Hsel|done]. }
      split_and!; [done| |done]. intros f' Hf'. rewrite Hf' in Hsel. by destruct Hsel.
Qed.

(** The row of a control. *)
Definition row_of (decl : ProbeDecl) (entry : EvidenceControlEntry) (mode : ProbeMode) (framework : string)
    (article : option string) : ProbeSubResult :=
  MkProbeSubResult (ec_control_id entry) (if ec_passed entry then ProbeStatus.Pass else ProbeStatus.Fail)
    framework article mode
    (resolve_effective_mode decl (ec_control_id entry) (probe_level_mode decl) (pd_framework decl)).2.

Lemma selected_elem decl file r :
  r ∈ selected decl file <-> exists entry, entry ∈ ef_controls file /\ r ∈ control_rows decl entry.
Proof.
  unfold selected. rewrite list_elem_of_join. split.
  - intros (rows & Hr & (entry & -> & Hin)%list_elem_of_fmap). by exists entry.
  - intros (entry & Hin & Hr). exists (control_rows decl entry). split; [done|]. by apply list_elem_of_fmap_2.
Qed.

Lemma selected_spec decl file r :
  r ∈ selected decl file <->
  exists entry mode f a, entry ∈ ef_controls file /\ counts decl entry mode f a /\ r = row_of decl entry mode f a.
Proof.
  rewrite selected_elem. setoid_rewrite control_rows_elem. split.
  - intros (entry & Hin & mode & f & a & reason & Hc & <- & ->). by exists entry, mode, f, a.
  - intros (entry & mode & f & a & Hin & Hc & ->). exists entry. split; [done|]. by eexists _, _, _, _.
Qed.

Lemma accepted_evidence_unique decl n file file' :
  accepted_evidence decl n file -> accepted_evidence decl n file' -> file' = file.
Proof.
  intros H H'. pose proof (proj2 (load_evidence_ok decl n file _) (conj H eq_refl)) as E1.
  pose proof (proj2 (load_evidence_ok decl n file' _) (conj H' eq_refl)) as E2. congruence.
Qed.

End runners.

(** ** The tickers *)

Section tickers.
Context {O : HashOrder} {Cr : Crypto} {Ev : EvidenceCrypto} {E : ProbeEnv}.
Context {De : DeserializeOwned EvidenceFile} {Je : SerializeJcs EvidenceFile}.
Context {Dd : DeserializeOwned (gmap string ProbeDeclJson)}.

(** What a ticker has reported, by kind. *)
Definition first_observation (i : AgentInput) : option (string * ProbeMode * DateTime) :=
  match i with
  | AgentInput.HostEvent _ (Event.LocalProbeObservedFirst name mode at_ _) => Some (name, mode, at_)
  | _ => None
  end.
Definition first_failure (i : AgentInput) : option (string * ProbeMode * DateTime) :=
  match i with
  | AgentInput.HostEvent _ (Event.LocalProbeFailureFirst name mode at_ _) => Some (name, mode, at_)
  | _ => None
  end.
Definition result_reported (i : AgentInput) : option (string * ProbeMode * RunnerOutcome) :=
  match i with
  | AgentInput.HostEvent _ (Event.LocalProbeResult name mode status at_ reason rows _) =>
      Some (name, mode, MkRunnerOutcome status at_ reason rows)
  | _ => None
  end.

(** The outcomes that fail after one that did not, or at the start. *)
Definition failure_starts (outcomes : list RunnerOutcome) : list RunnerOutcome :=
  omap (fun p : option RunnerOutcome * RunnerOutcome =>
          if bool_decide (ro_status p.2 = ProbeStatus.Fail /\ (ro_status <$> p.1) <> Some ProbeStatus.Fail)
          then Some p.2 else None)
    (zip (None :: (Some <$> outcomes)) outcomes).

Lemma zip_snoc {A B} (l1 : list A) (l2 : list B) a b :
  length l1 = length l2 -> zip (l1 ++ [a]) (l2 ++ [b]) = zip l1 l2 ++ [(a, b)].
Proof.
  revert l2. induction l1 as [|x l1 IH]; intros [|y l2] H; try done. simpl. f_equal. apply IH. by injection H.
Qed.

Lemma zip_longer {A B} (l1 : list A) (l2 : list B) l :
  length l2 <= length l1 -> zip (l1 ++ l) l2 = zip l1 l2.
Proof.
  revert l2. induction l1 as [|x l1 IH]; intros [|y l2] H; simpl in *; try done; try lia.
  - by destruct l.
  - f_equal. apply IH. lia.
Qed.

Lemma failure_starts_snoc outcomes o :
  failure_starts (outcomes ++ [o]) =
  failure_starts outcomes ++
    (if bool_decide (ro_status o = ProbeStatus.Fail) &&
        negb (bool_decide ((ro_status <$> last outcomes) = Some ProbeStatus.Fail)) then [o] else []).
Proof.
  unfold failure_starts. rewrite fmap_app. simpl fmap.
  change (None :: (Some <$> outcomes) ++ [Some o]) with ((None :: (Some <$> outcomes)) ++ [Some o]).
  rewrite (zip_longer _ (outcomes ++ [o])) by (rewrite length_app; simpl; rewrite length_fmap; lia).
  assert (Hl : exists pre, None :: (Some <$> outcomes) = pre ++ [last outcomes] /\ length pre = length outcomes /\
            zip pre outcomes = zip (None :: (Some <$> outcomes)) outcomes).
  { destruct outcomes as [|x l] using rev_ind; [by exists []|]. rewrite last_snoc, fmap_app.
    exists (None :: (Some <$> l)). split_and!; [done|simpl; rewrite length_fmap, length_app; simpl; lia|].
    symmetry. apply (zip_longer (None :: (Some <$> l)) (l ++ [x]) [Some x]).
    simpl. rewrite length_fmap, length_app. simpl. lia. }
  destruct Hl as (pre & Hpre & Hlen & Hzip). rewrite <- Hzip, Hpre, zip_snoc, omap_app by done.
  f_equal. cbn [omap list_omap fst snd].
  destruct (decide (ro_status o = ProbeStatus.Fail)) as [Ho|Ho];
    [rewrite (bool_decide_eq_true_2 _ Ho)|rewrite (bool_decide_eq_false_2 _ Ho)]; cbn [andb].
  - destruct (decide ((ro_status <$> last outcomes) = Some ProbeStatus.Fail)) as [Hf|Hf].
    + rewrite (bool_decide_eq_true_2 _ Hf). by rewrite bool_decide_eq_false_2 by (by intros [_ []]).
    + rewrite (bool_decide_eq_false_2 _ Hf). by rewrite bool_decide_eq_true_2 by (by split).
  - by rewrite bool_decide_eq_false_2 by (by intros []).
Qed.

(** What holds of a ticker at all times. *)
Record ticker_ok (clock : Z) (t : Ticker) : Prop := {
  to_mode : tk_mode t = parse_mode (pd_mode (tk_decl t)) /\ tk_mode t <> ProbeMode.Disabled;
  to_observed : tk_first_observed t = negb (is_empty (tk_outcomes t));
  to_last : tk_last_status t = ro_status <$> last (tk_outcomes t);
  to_first : omap first_observation (tk_sent t ++ tk_pending t) =
    match tk_outcomes t with [] => [] | o :: _ => [(tk_name t, tk_mode t, ro_observed_at o)] end;
  to_failures : omap first_failure (tk_sent t ++ tk_pending t) =
    (fun o => (tk_name t, tk_mode t, ro_observed_at o)) <$> failure_starts (tk_outcomes t);
  to_results : omap result_reported (tk_sent t ++ tk_pending t) =
    (fun o => (tk_name t, tk_mode t, o)) <$> tk_outcomes t;
  to_source : Forall (fun o => exists now n n', probe_run (tk_decl t) now n = (Returned o, n')) (tk_outcomes t);
  to_deadline : (tk_started t + Z.of_nat (length (tk_outcomes t)) * tk_interval t <= tk_deadline t)%Z;
  to_rate : tk_outcomes t = [] \/
    (tk_started t + (Z.of_nat (length (tk_outcomes t)) - 1) * tk_interval t <= clock)%Z;
  to_once : pd_run_once (tk_decl t) = true -> length (tk_outcomes t) <= 1;
}.

Lemma spawn_ticker_ok name decl rollout_id clock :
  parse_mode (pd_mode decl) <> ProbeMode.Disabled ->
  ticker_ok clock (spawn_ticker name decl (parse_mode (pd_mode decl)) rollout_id clock).
Proof. intros Hm. split; simpl; try done; [lia|by left|lia]. Qed.

Lemma ticker_ok_later clock clock' t : (clock <= clock')%Z -> ticker_ok clock t -> ticker_ok clock' t.
Proof. intros Hle []. split; try done. destruct to_rate0; [by left|right; lia]. Qed.

Lemma ticker_ok_sends clock t input pending :
  tk_pending t = input :: pending -> ticker_ok clock t -> ticker_ok clock (sends input pending t).
Proof.
  intros Hp [H1 H2 H3 H4 H5 H6 H7 H8 H9 H10]. rewrite Hp in H4, H5, H6.
  split; simpl; rewrite <- ?app_assoc; done.
Qed.

Lemma tick_inv deadline t n t' n' :
  tick deadline t n = (Returned t', n') ->
  exists outcome, probe_run (tk_decl t) (pe_now n) (S n) = (Returned outcome, n') /\
    t' = t <| tk_first_observed := true |> <| tk_last_status := Some (ro_status outcome) |>
           <| tk_deadline := deadline |> <| tk_pending := tick_events t outcome |>
           <| tk_outcomes := tk_outcomes t ++ [outcome] |>.
Proof.
  intros H. unfold tick in H. ask_step H now n1. ask_step H outcome n2. injection H as <- <-. by exists outcome.
Qed.

Lemma ticker_ok_tick clock deadline t n t' n' :
  tk_pending t = [] -> returned t = false -> (tk_deadline t <= clock)%Z ->
  (tk_deadline t + tk_interval t <= deadline)%Z ->
  tick deadline t n = (Returned t', n') -> ticker_ok clock t -> ticker_ok clock t'.
Proof.
  intros Hp Hret Hdue Hnext (o & Ho & ->)%tick_inv [H1 H2 H3 H4 H5 H6 H7 H8 H9 H10].
  rewrite Hp, app_nil_r in H4, H5, H6. unfold tick_events. rewrite H2, H3.
  split; simpl.
  - done.
  - by destruct (tk_outcomes t).
  - by rewrite last_snoc.
  - rewrite !omap_app, H4. destruct (tk_outcomes t), (_ && _); done.
  - rewrite failure_starts_snoc, !omap_app, fmap_app, H5. f_equal.
    destruct (is_empty (tk_outcomes t)); simpl; destruct (_ && _); done.
  - rewrite !omap_app, fmap_app, H6. f_equal. destruct (is_empty (tk_outcomes t)), (_ && _); by destruct o.
  - apply Forall_app_2; [done|]. constructor; [|done]. by eexists _, _, _.
  - change (tk_interval _) with (tk_interval t). rewrite length_app. simpl. lia.
  - right. change (tk_interval _) with (tk_interval t). rewrite length_app. simpl. lia.
  - intros Honce. unfold returned in Hret. rewrite Honce, Hp in Hret. simpl in Hret.
    rewrite andb_true_r in Hret. destruct (tk_outcomes t); [simpl; lia|done].
Qed.

Record worker_ok (w : ProbeWorker) : Prop := {
  wk_tickers : forall name t, pw_tickers w !! name = Some t -> tk_name t = name /\ ticker_ok (pw_clock w) t;
  wk_aborted : Forall (ticker_ok (pw_clock w)) (pw_aborted w);
  wk_epoch : exists rollout_id, forall name t, pw_tickers w !! name = Some t -> tk_rollout_id t = rollout_id;
}.

Lemma spawn_tickers_ok decls rollout_id at_ name t :
  spawn_tickers decls rollout_id at_ !! name = Some t ->
  tk_name t = name /\ tk_rollout_id t = rollout_id /\ ticker_ok at_ t.
Proof.
  unfold spawn_tickers. revert name t.
  assert (forall tickers : gmap string Ticker, (forall name t, tickers !! name = Some t ->
            tk_name t = name /\ tk_rollout_id t = rollout_id /\ ticker_ok at_ t) ->
          forall name t, fold_left (fun tickers '(name, decl) =>
            if bool_decide (parse_mode (pd_mode decl) = ProbeMode.Disabled) then tickers
            else <[ name := spawn_ticker name decl (parse_mode (pd_mode decl)) rollout_id at_ ]> tickers)
            decls tickers !! name = Some t -> tk_name t = name /\ tk_rollout_id t = rollout_id /\ ticker_ok at_ t)
    as Hgen; [|apply Hgen; by intros ??; rewrite lookup_empty].
  induction decls as [|[n d] decls IH]; [done|]. intros tickers Ht. simpl. apply IH.
  case_bool_decide; [done|]. intros name t [[<- <-]|[_ ?]]%lookup_insert_Some; [|by apply Ht].
  split_and!; [done|done|]. by apply spawn_ticker_ok.
Qed.

(** Each declaration that is not disabled gets its ticker. *)
Lemma spawn_tickers_lookup decls rollout_id at_ name decl :
  parse_mode (pd_mode decl) <> ProbeMode.Disabled -> NoDup decls.*1 -> (name, decl) ∈ decls ->
  spawn_tickers decls rollout_id at_ !! name =
    Some (spawn_ticker name decl (parse_mode (pd_mode decl)) rollout_id at_).
Proof.
  intros Hm. induction decls as [|[k d] decls IH] using rev_ind; [by intros _ ?%not_elem_of_nil|].
  rewrite fmap_app. intros (Hnd & Hnew & _)%NoDup_app [Hin|Hin]%elem_of_app;
    unfold spawn_tickers in *; rewrite fold_left_app; simpl.
  - assert (Hk : k <> name).
    { intros ->. apply (Hnew name); [by apply (list_elem_of_fmap_2 fst) in Hin|]. left. }
    case_bool_decide; [|rewrite lookup_insert_ne by done]; by apply IH.
  - apply list_elem_of_singleton in Hin as [= -> ->]. rewrite bool_decide_eq_false_2 by done.
    apply lookup_insert_eq.
Qed.

Lemma abort_all_ok w : worker_ok w -> worker_ok (abort_all w).
Proof.
  intros [H1 H2 H3]. split; simpl.
  - by intros ??; rewrite lookup_empty.
  - apply Forall_app_2; [done|]. apply Forall_forall.
    intros t ([name t'] & -> & Hin%elem_of_map_to_list)%list_elem_of_fmap. by apply (H1 name).
  - exists (rollout_id.new "" ""). by intros ??; rewrite lookup_empty.
Qed.

Lemma handle_reset_ok cmd closed w : worker_ok w -> worker_ok (handle_reset cmd closed w).
Proof.
  intros Hw%abort_all_ok. unfold handle_reset.
  destruct (read_declarations _) as [[[decls|]| |] n]; try (destruct Hw; by split).
  destruct closed; [destruct Hw; by split|]. destruct Hw as [H1 H2 H3]. split; simpl; [|done|].
  - intros name t Ht. by apply spawn_tickers_ok in Ht as (? & _ & ?).
  - exists (prc_rollout_id cmd). intros name t Ht. by apply spawn_tickers_ok in Ht as (_ & ? & _).
Qed.

Lemma worker_ok_step w w' : probe_step w w' -> worker_ok w -> worker_ok w'.
Proof.
  intros Hs Hw. destruct Hs as [cmd closed|name t t' deadline n Ht Hp Hret Hdue Hnext Htick|
    name t input pending Ht Hp|before t after input pending Ha Hp|before t after Ha|now Hle|].
  - by apply handle_reset_ok.
  - destruct Hw as [H1 H2 [rid H3]]. destruct (H1 _ _ Ht) as [Hn Hok]. split; simpl; [|done|].
    + intros name' t'' [[<- <-]|[_ ?]]%lookup_insert_Some; [|by apply H1].
      split; [|by eapply ticker_ok_tick]. by apply tick_inv in Htick as (o & _ & ->).
    + exists rid. intros name' t'' [[<- <-]|[_ ?]]%lookup_insert_Some; [|by eapply H3].
      apply tick_inv in Htick as (o & _ & ->). exact (H3 name t Ht).
  - destruct Hw as [H1 H2 [rid H3]]. destruct (H1 _ _ Ht) as [Hn Hok]. split; simpl; [|done|].
    + intros name' t'' [[<- <-]|[_ ?]]%lookup_insert_Some; [|by apply H1].
      split; [done|by apply ticker_ok_sends].
    + exists rid. intros name' t'' [[<- <-]|[_ ?]]%lookup_insert_Some; [|by eapply H3]. exact (H3 name t Ht).
  - destruct Hw as [H1 H2 H3]. rewrite Ha in H2. apply Forall_app in H2 as [Hb [Ht Hf]%Forall_cons].
    split; simpl; [done| |done]. apply Forall_app_2; [done|]. constructor; [by apply ticker_ok_sends|done].
  - destruct Hw as [H1 H2 H3]. rewrite Ha in H2. apply Forall_app in H2 as [Hb [Ht Hf]%Forall_cons].
    split; simpl; [done| |done]. by apply Forall_app_2.
  - destruct Hw as [H1 H2 H3]. split; simpl; [| |done].
    + intros name t Ht. destruct (H1 _ _ Ht). split; [done|by eapply ticker_ok_later].
    + eapply Forall_impl; [done|]. intros t. by apply ticker_ok_later.
  - by apply abort_all_ok.
Qed.

Lemma worker_ok_rtc clock w : rtc probe_step (probe_initial clock) w -> worker_ok w.
Proof.
  intros H. apply rtc_ind_l with (P := fun w0 => worker_ok w0 -> worker_ok w) in H; eauto using worker_ok_step.
  apply H. split; simpl; [by intros ??; rewrite lookup_empty|constructor|].
  exists (rollout_id.new "" ""). by intros ??; rewrite lookup_empty.
Qed.

End tickers.

(** ** What the reducer makes of the reports *)

Section reducer.
Context {O : HashOrder} {Q : QueueCodec} {C : AgentClock} {D : Disk} (cfg : AgentConfig).
Import Agent.

(** A report of the worker for [rid]; the reducer fills in the number. *)
Definition probe_report (rid : RolloutId) (i : AgentInput) : Prop :=
  match i with
  | AgentInput.HostEvent r event =>
      r = rid /\ Event.seq event = 0%Z /\
      match event with
      | Event.LocalProbeObservedFirst _ _ _ _ | Event.LocalProbeFailureFirst _ _ _ _
      | Event.LocalProbeResult _ _ _ _ _ _ _ | Event.LocalProbeTopologyDeclared _ _ _ => True
      | _ => False
      end
  | _ => False
  end.

(** The soaking record after a report. *)
Definition absorb (st : HostRolloutState) (i : AgentInput) : HostRolloutState :=
  let seq := (hs_last_event_seq st + 1)%Z in
  match i with
  | AgentInput.HostEvent _ (Event.LocalProbeTopologyDeclared probes at_ _) =>
      (soaking.local_probe_topology_declared st probes at_ seq).1
  | AgentInput.HostEvent _ (Event.LocalProbeObservedFirst name mode at_ _) =>
      (soaking.local_probe_observed_first st name mode at_ seq).1
  | AgentInput.HostEvent _ (Event.LocalProbeFailureFirst name mode at_ _) =>
      (soaking.local_probe_failure_first st name mode at_ seq).1
  | AgentInput.HostEvent _ (Event.LocalProbeResult name mode status at_ reason rows _) =>
      (soaking.local_probe_result st name mode status at_ reason rows seq).1
  | _ => st
  end.

Lemma report_outcome manifests st rid event now policy :
  probe_report rid (AgentInput.HostEvent rid event) -> hs_state st = HostState.Soaking ->
  (0 <= hs_last_event_seq st < u64_max)%Z -> resolve_policy manifests (hs_channel st) = Some policy ->
  (event_outcome manifests st event now).1 = absorb st (AgentInput.HostEvent rid event) /\
  omap intent_of (event_outcome manifests st event now).2 = [].
Proof.
  intros (_ & _ & Hev) Hs Hseq Hp. unfold event_outcome. rewrite Hp, u64_wrap_small by lia.
  unfold step, dispatch.
  destruct event; try done; cbn [with_seq Event.seq]; rewrite (proj2 (Z.leb_gt _ _)), Hs by lia; done.
Qed.

Lemma absorb_keeps st i :
  hs_state (absorb st i) = hs_state st /\ hs_channel (absorb st i) = hs_channel st /\
  hs_rollout_id (absorb st i) = hs_rollout_id st /\
  hs_current_closure_at_dispatch (absorb st i) = hs_current_closure_at_dispatch st /\
  hs_current_closure (absorb st i) = hs_current_closure st /\
  hs_target_closure (absorb st i) = hs_target_closure st /\
  hs_soak_due_at (absorb st i) = hs_soak_due_at st /\
  (hs_last_event_seq st <= hs_last_event_seq (absorb st i) <= hs_last_event_seq st + 1)%Z.
Proof.
  destruct i as [r []| | |]; try by (simpl; split_and!; done || lia).
  all: unfold absorb, soaking.local_probe_observed_first, soaking.local_probe_failure_first; simpl.
  all: try destruct (hs_probe_observed_first_at st); try destruct (hs_probe_failure_first_at st); simpl.
  all: split_and!; done || lia.
Qed.

(** Reports for a soaking record are absorbed one by one and ask for nothing. *)
Lemma reports_absorbed rid reports policy s w st :
  agent_wf s -> as_host_states s !! rid = Some st -> hs_state st = HostState.Soaking ->
  resolve_policy (as_manifests s) (hs_channel st) = Some policy ->
  (hs_last_event_seq st + Z.of_nat (length reports) <= u64_max)%Z -> Forall (probe_report rid) reports ->
  let r := agent_run cfg s reports w in
  agent_wf r.1 /\ as_manifests r.1 = as_manifests s /\
  as_host_states r.1 !! rid = Some (fold_left absorb reports st) /\ aw_intents r.2 = aw_intents w.
Proof.
  intros Hwf Hst Hs Hp Hseq Hr. revert s w st Hwf Hst Hs Hp Hseq.
  induction Hr as [|i reports Hi _ IH]; intros s w st Hwf Hst Hs Hp Hseq; [done|].
  simpl in Hseq. destruct i as [r ev| | |]; try done.
  pose proof Hi as (-> & Hev & _).
  destruct (Hwf _ _ Hst) as [Hid Hb].
  destruct (run_known cfg s rid ev w st Hst) as (now & Hrec & Hint & _).
  destruct (report_outcome (as_manifests s) st rid ev now policy Hi Hs) as [E1 E2]; [lia|done|].
  pose proof (absorb_keeps st (AgentInput.HostEvent rid ev)) as (K1 & K2 & _ & _ & _ & _ & _ & K3).
  cbn [agent_run handle_input fold_left]. destruct (run_host_event cfg s rid ev w) as [s1 w1] eqn:Erun.
  simpl in Hrec, Hint. rewrite E1 in Hrec. rewrite E2, app_nil_r in Hint.
  assert (Hwf1 : agent_wf s1).
  { pose proof (agent_wf_run_host_event cfg s rid ev w Hwf) as H. rewrite Erun in H. apply H.
    unfold u64_max. lia. }
  destruct (IH s1 w1 (absorb st (AgentInput.HostEvent rid ev)) Hwf1) as (H1 & H2 & H3 & H4).
  - rewrite Hrec. apply lookup_insert_eq.
  - congruence.
  - by rewrite K2, Hrec.
  - lia.
  - split_and!; [done| |done|congruence]. by rewrite H2, Hrec.
Qed.

End reducer.

Section timer.
Import Agent.

(** A report of another probe leaves a failing probe and its timer alone. *)
Lemma absorb_other name first pr st i :
  hs_probe_failure_first_at st = Some first -> hs_probes st !! name = Some pr ->
  (forall m o, result_reported i <> Some (name, m, o)) ->
  hs_probe_failure_first_at (absorb st i) = Some first /\ hs_probes (absorb st i) !! name = Some pr.
Proof.
  intros Hf Hp Hi. destruct i as [r []| | |]; try done; simpl.
  - by destruct (hs_probe_observed_first_at st).
  - split; [done|]. apply lookup_insert_Some. right. split; [|done]. intros ->. by eapply Hi.
  - by rewrite Hf.
Qed.

Lemma absorb_others name first pr reports st :
  hs_probe_failure_first_at st = Some first -> hs_probes st !! name = Some pr ->
  Forall (fun i => forall m o, result_reported i <> Some (name, m, o)) reports ->
  hs_probe_failure_first_at (fold_left absorb reports st) = Some first /\
  hs_probes (fold_left absorb reports st) !! name = Some pr.
Proof.
  intros Hf Hp H. revert st Hf Hp. induction H as [|i reports Hi _ IH]; intros st Hf Hp; [done|].
  destruct (absorb_other name first pr st i Hf Hp Hi). by apply IH.
Qed.

Lemma absorbs_keep reports st :
  hs_state (fold_left absorb reports st) = hs_state st /\
  hs_channel (fold_left absorb reports st) = hs_channel st /\
  hs_current_closure_at_dispatch (fold_left absorb reports st) = hs_current_closure_at_dispatch st /\
  (hs_last_event_seq (fold_left absorb reports st) <= hs_last_event_seq st + Z.of_nat (length reports))%Z.
Proof.
  revert st. induction reports as [|i reports IH]; intros st; [simpl; split_and!; done || lia|].
  destruct (absorb_keeps st i) as (K1 & K2 & _ & K4 & _ & _ & _ & K8).
  destruct (IH (absorb st i)) as (I1 & I2 & I3 & I4). cbn [fold_left length].
  split_and!; [congruence..|lia].
Qed.

(** The record after a failing turn of an enforce-mode ticker. *)
Lemma failing_turn_absorbed t outcome st :
  tk_mode t = ProbeMode.Enforce -> ro_status outcome = ProbeStatus.Fail ->
  tk_last_status t <> Some ProbeStatus.Fail ->
  let st' := fold_left absorb (tick_events t outcome) st in
  hs_probe_failure_first_at st' = Some (default (ro_observed_at outcome) (hs_probe_failure_first_at st)) /\
  exists pr, hs_probes st' !! tk_name t = Some pr /\ pr_mode pr = ProbeMode.Enforce /\
    pr_status pr = ProbeStatus.Fail.
Proof.
  intros Hm Hf Hl. unfold tick_events. rewrite Hm, Hf, (bool_decide_eq_false_2 _ Hl).
  destruct (tk_first_observed t), (hs_probe_observed_first_at st) eqn:E0, (hs_probe_failure_first_at st) eqn:E1.
  all: simpl; rewrite ?E0; simpl; rewrite ?E1; simpl.
  all: split; [done|]; eexists; rewrite lookup_insert_eq; by split_and!.
Qed.

End timer.
