(* ===== verification/AgentProbesSpecs.v ===== *)
(** * Health probes of the agent: theorems

    What the runners answer, what the tickers send over any interleaving with
    resets, and what the gates of both sides make of it. *)

From S2P Require Import Prelude RustStd Proto HostTypes HostTransitions HostProps RolloutMachine.
From S2P Require Import Gates Verify VerifyProps HostKey CpStore CpStoreProps CpRuntime CpRuntimeSpecs.
From S2P Require Import Issuance Enrollment EnrollmentProps AgentQueue AgentQueueProps AgentRuntime AgentProps AgentProbes AgentProbesProps.
Import Agent.

(** Refutes that a kind that was matched is unknown. *)
Ltac known_kind :=
  let H := fresh in intros H; exfalso; apply H, list_elem_of_In; simpl; auto 10.

(** ** A sample host

    Its evidence has two controls under one framework, of which one fails; the web
    server is down. *)

Definition host_key : string := pad 32 "host".

Definition sample_evidence : EvidenceFile (Cr := enrol_crypto) :=
  @MkEvidenceFile enrol_crypto 1 "web-1" 0
    [ @MkEvidenceControlEntry enrol_crypto "ssh" false {[ "nis2" := ["21.i"] ]} None None;
      @MkEvidenceControlEntry enrol_crypto "disk" true {[ "nis2" := [] ]} None None ].

Definition evidence_decoder : DeserializeOwned (EvidenceFile (Cr := enrol_crypto)) := fun s =>
  if bool_decide (s = "evidence") then Ok sample_evidence else Err "unexpected".

Definition evidence_encoder : SerializeJcs (EvidenceFile (Cr := enrol_crypto)) := fun _ => Ok "evidence".

Definition enrol_evidence_crypto : EvidenceCrypto (Cr := enrol_crypto) :=
  fun key message signature => bool_decide (signature = sample_sign key message).

Definition sample_probe_env : ProbeEnv := {|
  pe_now := fun _ => duration_minutes 7;
  pe_var := fun _ => None;
  pe_read := fun _ _ => Ok "evidence";
  pe_read_to_string := fun _ p =>
    if ends_with ".pub" p then Ok ("ssh-ed25519 " +:+ letters host_key +:+ " root@web-1")
    else if ends_with ".sig" p then Ok (letters (sample_sign host_key "evidence"))
    else Ok "checks";
  pe_http_get := fun _ _ _ => RequestFailed "connection refused";
  pe_connect := fun _ _ _ => Connected;
  pe_exec := fun _ _ _ => Exited (Some 0%Z) "";
  pe_debug_i32 := fun _ => "";
  pe_display := fun p => p;
|}.

(** The declaration of the framework with one override. *)
Definition nis2_probe (mode : string) (override : string) : ProbeDecl :=
  with_defaults (MkProbeDeclJson "evidence" mode None None None None None None None None None (Some "nis2") None
    (Some {[ "ssh" := MkControlOverrideDecl override "audit" ]}) None).

Definition web_probe : ProbeDeclJson :=
  MkProbeDeclJson "http" "enforce" (Some 1%Z) None (Some "http://localhost") None None None None None None
    None None None None.

Definition checks_decoder : DeserializeOwned (gmap string ProbeDeclJson) := fun s =>
  if bool_decide (s = "checks") then Ok {[ "web" := web_probe ]} else Err "unexpected".

Abbreviation sample_run decl :=
  (probe_run (O := list_order) (Cr := enrol_crypto) (Ev := enrol_evidence_crypto) (E := sample_probe_env)
     (De := evidence_decoder) (Je := evidence_encoder) decl 0 0).

Definition reset_worker : ProbeWorker :=
  handle_reset (O := list_order) (E := sample_probe_env) (Dd := checks_decoder)
    (MkProbeResetCommand staged_rid) false (probe_initial 0).

Definition web_ticker : Ticker := spawn_ticker "web" (with_defaults web_probe) ProbeMode.Enforce staged_rid 0.

(** The web probe after its first turn, and after the first report is sent. *)
Definition web_outcome : RunnerOutcome :=
  MkRunnerOutcome ProbeStatus.Fail (duration_minutes 7) (Some "http probe: send: connection refused") None.

Definition web_failed : Ticker :=
  web_ticker <| tk_first_observed := true |> <| tk_last_status := Some ProbeStatus.Fail |>
             <| tk_deadline := duration_seconds 5 |> <| tk_pending := tick_events web_ticker web_outcome |>
             <| tk_outcomes := [web_outcome] |>.

(** A host whose soak ended, on its target. *)
Definition to_soaked : list AgentInput :=
  [ AgentInput.ManifestSetUpdated staged_manifests;
    AgentInput.HostEvent staged_rid (Event.LocalActivate "/nix/store/old" "/nix/store/new" 0 0 0);
    AgentInput.HostEvent staged_rid (Event.LocalActivationStarted 0 "switch-to-configuration" 0);
    AgentInput.HostEvent staged_rid (Event.LocalActivationCompleted "/nix/store/new" 0 0 0) ].

Definition sample_soaked : HostRolloutState :=
  Eval vm_compute in
    default sample_pending (as_host_states (sample_agent_run to_soaked).1 !! staged_rid).

Definition soaked_agent : AgentState := MkAgentState {[ staged_rid := sample_soaked ]} (Some staged_manifests).

Lemma soaked_agent_wf : agent_wf soaked_agent.
Proof. apply map_Forall_singleton. by vm_compute. Qed.

(** ** Properties *)

(** Every probe concludes.  Whatever the declaration and whatever the host
    answers, a run ends with an outcome at the time it was given: no slice of a
    reason panics.  It passes or it fails with a reason, and a reason is at most
    the cap long, except for that of a failed control, which holds the name of
    the declared framework uncut.  An unknown kind fails. *)
Theorem every_probe_concludes {O : HashOrder} {Cr : Crypto} {Ev : EvidenceCrypto} {E : ProbeEnv}
    {De : DeserializeOwned EvidenceFile} {Je : SerializeJcs EvidenceFile}
    (decl : ProbeDecl) (now : DateTime) (n : nat) :
  exists o n', probe_run decl now n = (Returned o, n') /\ ro_observed_at o = now /\
    (ro_status o = ProbeStatus.Pass <-> ro_failure_reason o = None) /\
    (forall reason, ro_failure_reason o = Some reason ->
       String.length reason <= reason_cap \/
       exists rows, ro_sub_results o = Some rows /\
         reason = "evidence probe: " +:+ default "custom-controls" (pd_framework decl) +:+
                  ": at least one enforce-mode control failed") /\
    (pd_kind decl ∉ ["http"; "tcp"; "exec"; "evidence"] -> ro_status o = ProbeStatus.Fail).
Proof.
  assert (Hplain : forall o, plain now o -> ro_observed_at o = now /\
            (ro_status o = ProbeStatus.Pass <-> ro_failure_reason o = None) /\
            forall reason, ro_failure_reason o = Some reason -> String.length reason <= reason_cap).
  { intros o [->|(Hs & Ht & _ & r & Hr & Hlen)]; [by split_and!|]. rewrite Hs, Hr.
    split_and!; [done|done|by intros ? [= <-]]. }
  assert (Hrun : exists o n', probe_run decl now n = (Returned o, n') /\
            (plain now o \/ exists file, o = aggregate decl now (selected decl file)) /\
            (pd_kind decl ∉ ["http"; "tcp"; "exec"; "evidence"] -> failed_at now o)).
  { unfold probe_run. repeat case_bool_decide.
    - destruct (http_run_plain decl now n) as (o & n' & -> & Hp). exists o, n'. split_and!; [done|by left|known_kind].
    - destruct (tcp_run_plain decl now n) as (o & n' & -> & Hp). exists o, n'. split_and!; [done|by left|known_kind].
    - destruct (exec_run_plain decl now n) as (o & n' & -> & Hp). exists o, n'. split_and!; [done|by left|known_kind].
    - destruct (evidence_run_cases decl now n) as (o & n' & -> & [(file & _ & _ & ->)|[Hf _]]);
        eexists _, n'; (split_and!; [done| |known_kind]).
      + right. by exists file.
      + left. by right.
    - destruct (settle_fail now ("unknown probe kind '" +:+ pd_kind decl +:+ "'") n) as (o & n' & -> & Hf).
      exists o, n'. split_and!; [done|left; by right|done]. }
  destruct Hrun as (o & n' & Hrun & Ho & Hk). exists o, n'. split; [done|]. split_and!.
  - destruct Ho as [Hp|[file ->]]; [by apply (Hplain o Hp)|done].
  - destruct Ho as [Hp|[file ->]]; [by apply (Hplain o Hp)|]. unfold aggregate. simpl. by destruct (forallb _ _).
  - intros reason Hr. destruct Ho as [Hp|[file ->]]; [left; by apply (Hplain o Hp)|]. right.
    unfold aggregate in *. simpl in *. destruct (forallb _ _); [done|]. injection Hr as <-. by eexists.
  - intros Hkind. by apply Hk.
Qed.

(** C26.  The verdict on evidence.  An evidence probe passes exactly when the file, its
    signature and the key can be read, the host's key signed the canonical form of
    the payload as the agent parsed it, some control counts, and every control
    that counts in enforce mode passed; the rows it reports are then exactly the
    controls that count, per framework and article, with their own mode.  The
    time at which the evidence was collected plays no part. *)
Theorem evidence_verdict {O : HashOrder} {Cr : Crypto} {Ev : EvidenceCrypto} {E : ProbeEnv}
    {De : DeserializeOwned EvidenceFile} {Je : SerializeJcs EvidenceFile}
    (decl : ProbeDecl) (now : DateTime) (n : nat) :
  pd_kind decl = "evidence" ->
  exists o n', probe_run decl now n = (Returned o, n') /\
  (ro_status o = ProbeStatus.Pass <->
   exists file, accepted_evidence decl n file /\
     (exists entry mode f a, entry ∈ ef_controls file /\ counts decl entry mode f a) /\
     (forall entry f a, entry ∈ ef_controls file -> counts decl entry ProbeMode.Enforce f a ->
        ec_passed entry = true)) /\
  (forall rows, ro_sub_results o = Some rows ->
   exists file, accepted_evidence decl n file /\
     forall r, r ∈ rows <-> exists entry mode f a,
       entry ∈ ef_controls file /\ counts decl entry mode f a /\ r = row_of decl entry mode f a).
Proof.
  intros Hk. unfold probe_run. rewrite Hk. simpl.
  destruct (evidence_run_cases decl now n) as (o & n' & -> & [(file & Hl & Hne & ->)|[Hf Hnone]]).
  - apply load_evidence_ok in Hl as [Hacc _]. eexists _, _. split; [done|]. split.
    + rewrite aggregate_passes. split.
      * intros Hall. exists file. split_and!; [done| |].
        -- destruct (selected decl file) as [|r rows] eqn:Es; [done|].
           destruct (proj1 (selected_spec decl file r)) as (entry & mode & f & a & Hin & Hc & _); [rewrite Es; left|].
           by exists entry, mode, f, a.
        -- intros entry f a Hin Hc. specialize (Hall (row_of decl entry ProbeMode.Enforce f a)).
           destruct (ec_passed entry) eqn:Ep; [done|]. unfold row_of in Hall at 3. simpl in Hall. rewrite Ep in Hall.
           enough (ProbeStatus.Fail = ProbeStatus.Pass) by done. apply Hall; [|done].
           apply selected_spec. by exists entry, ProbeMode.Enforce, f, a.
      * intros (file' & Hacc' & _ & Hall) r Hr Hm.
        rewrite (accepted_evidence_unique decl n file file' Hacc Hacc') in Hall.
        apply selected_spec in Hr as (entry & mode & f & a & Hin & Hc & ->). simpl in Hm |- *. subst mode.
        by rewrite (Hall entry f a Hin Hc).
    + intros rows [= <-]. exists file. split; [done|]. apply selected_spec.
  - exists o, n'. split; [done|]. destruct Hf as (Hs & _ & Hr & _). rewrite Hs, Hr. split; [|done].
    split; [done|]. intros (file & Hacc & (entry & mode & f & a & Hin & Hc) & _). exfalso.
    assert (Hrow : row_of decl entry mode f a ∈ selected decl file)
      by (apply selected_spec; by exists entry, mode, f, a).
    rewrite (Hnone file _ (proj2 (load_evidence_ok decl n file _) (conj Hacc eq_refl))) in Hrow.
    by apply not_elem_of_nil in Hrow.
Qed.

(** The failing control is only observed. *)
Lemma evidence_verdict_witness :
  exists o n', sample_run (nis2_probe "enforce" "observe") = (Returned o, n') /\ ro_status o = ProbeStatus.Pass /\
    exists file, accepted_evidence (Cr := enrol_crypto) (Ev := enrol_evidence_crypto) (E := sample_probe_env)
      (De := evidence_decoder) (Je := evidence_encoder) (nis2_probe "enforce" "observe") 0 file.
Proof.
  destruct (evidence_verdict (O := list_order) (Cr := enrol_crypto) (Ev := enrol_evidence_crypto)
    (E := sample_probe_env) (De := evidence_decoder) (Je := evidence_encoder) (nis2_probe "enforce" "observe") 0 0
    eq_refl) as (o & n' & Hrun & Hpass & _).
  exists o, n'. split; [exact Hrun|].
  assert (Hs : ro_status o = ProbeStatus.Pass) by (vm_compute in Hrun; injection Hrun as <- <-; reflexivity).
  split; [exact Hs|]. destruct (proj1 Hpass Hs) as (file & Hacc & _). by exists file.
Defined.

(** C28.  Nothing a ticker saw is lost or repeated.  In every state of the worker, each
    live ticker runs a probe of the current reset that is not disabled; it has
    sent, or has in hand, its first observation once, the start of every run of
    failures, and the result of every turn, in that order and with the time and
    the outcome of the turn; however low the declared interval, [n] turns take at
    least [5 * (n - 1)] seconds from the start of the ticker (two turns may be closer
    than that, when the first came late); and one that runs once has run once. *)
Theorem tickers_report_everything {O : HashOrder} {Cr : Crypto} {Ev : EvidenceCrypto} {E : ProbeEnv}
    {De : DeserializeOwned EvidenceFile} {Je : SerializeJcs EvidenceFile}
    {Dd : DeserializeOwned (gmap string ProbeDeclJson)} (clock : Z) (w : ProbeWorker) (name : string) (t : Ticker) :
  rtc probe_step (probe_initial clock) w -> pw_tickers w !! name = Some t ->
  let reported := tk_sent t ++ tk_pending t in
  tk_name t = name /\ tk_mode t = parse_mode (pd_mode (tk_decl t)) /\ tk_mode t <> ProbeMode.Disabled /\
  (forall name' t', pw_tickers w !! name' = Some t' -> tk_rollout_id t' = tk_rollout_id t) /\
  Forall (fun o => exists now n n', probe_run (tk_decl t) now n = (Returned o, n')) (tk_outcomes t) /\
  omap result_reported reported = (fun o => (name, tk_mode t, o)) <$> tk_outcomes t /\
  omap first_observation reported =
    (fun o => (name, tk_mode t, ro_observed_at o)) <$> take 1 (tk_outcomes t) /\
  omap first_failure reported =
    (fun o => (name, tk_mode t, ro_observed_at o)) <$> failure_starts (tk_outcomes t) /\
  (tk_outcomes t <> [] ->
     (tk_started t + (Z.of_nat (length (tk_outcomes t)) - 1) * duration_seconds MIN_INTERVAL_SECS <= pw_clock w)%Z) /\
  (pd_run_once (tk_decl t) = true -> length (tk_outcomes t) <= 1).
Proof.
  intros Hw Ht reported. apply worker_ok_rtc in Hw as [H1 _ [rid H3]].
  destruct (H1 _ _ Ht) as [Hn [[M1 M2] _ _ F1 F2 F3 F4 _ R1 R2]]. rewrite Hn in *.
  split_and!; try done.
  - intros name' t' Ht'. by rewrite (H3 _ _ Ht), (H3 _ _ Ht').
  - unfold reported. rewrite F1. by destruct (tk_outcomes t).
  - intros Hne. destruct R1 as [|R1]; [done|]. etrans; [|exact R1]. unfold tk_interval, duration_seconds, nanos_per_sec.
    destruct (tk_outcomes t); [done|]. simpl length in *. nia.
Qed.

Lemma tickers_report_everything_witness :
  omap first_failure (tk_sent web_failed ++ tk_pending web_failed) =
    [("web", ProbeMode.Enforce, duration_minutes 7)].
Proof.
  destruct (tickers_report_everything (O := list_order) (Cr := enrol_crypto) (Ev := enrol_evidence_crypto)
    (E := sample_probe_env) (De := evidence_decoder) (Je := evidence_encoder) (Dd := checks_decoder) 0
    (reset_worker <| pw_tickers := <[ "web" := web_failed ]> (pw_tickers reset_worker) |> <| pw_asked := 4 |>)
    "web" web_failed) as (_ & _ & _ & _ & _ & _ & _ & H & _).
  - eapply rtc_l; [exact (step_reset (O := list_order) (E := sample_probe_env) (Dd := checks_decoder)
      (probe_initial 0) (MkProbeResetCommand staged_rid) false)|].
    apply rtc_once. fold reset_worker.
    apply (step_tick (O := list_order) (Cr := enrol_crypto) (Ev := enrol_evidence_crypto) (E := sample_probe_env)
      (De := evidence_decoder) (Je := evidence_encoder) (Dd := checks_decoder) reset_worker "web" web_ticker web_failed
      (duration_seconds 5) 4); vm_compute; congruence || reflexivity.
  - reflexivity.
  - rewrite H. reflexivity.
Defined.



(** A control enforced under an observed probe is gated on one side only.  When an
    evidence probe is declared [observe] and one of its controls is raised to
    [enforce] and fails, the probe as a whole fails; for the agent its result
    changes neither gate of the record, so the host converges and nothing is
    rolled back, while the control plane counts the control as an outstanding
    failure of the host, which holds back the later waves. *)
Theorem enforced_control_gates_one_side {O : HashOrder} {Cr : Crypto} {Ev : EvidenceCrypto} {E : ProbeEnv}
    {De : DeserializeOwned EvidenceFile} {Je : SerializeJcs EvidenceFile}
    (decl : ProbeDecl) (now : DateTime) (n n' : nat) (o : RunnerOutcome) (rows : list ProbeSubResult)
    (r : ProbeSubResult) (name : string) :
  parse_mode (pd_mode decl) = ProbeMode.Observe ->
  probe_run decl now n = (Returned o, n') -> ro_sub_results o = Some rows ->
  r ∈ rows -> psr_effective_mode r = ProbeMode.Enforce -> psr_status r = ProbeStatus.Fail ->
  let mode := parse_mode (pd_mode decl) in
  ro_status o = ProbeStatus.Fail /\
  (forall st seq at_,
     (forall pr, hs_probes st !! name = Some pr -> pr_mode pr <> ProbeMode.Enforce) ->
     let st' := (soaking.local_probe_result st name mode (ro_status o) (ro_observed_at o)
                   (ro_failure_reason o) (ro_sub_results o) seq).1 in
     (ready at_ st' <-> ready at_ st) /\ (sustained at_ st' <-> sustained at_ st)) /\
  (forall rid host table seq,
     (0 < ProbeFailures.group_count rid host
        (ProbeFailures.insert_many
           (Applier.probe_failure_rows rid host
              (OutboundAgentEvent.ProbeResult name mode (ro_status o) (ro_observed_at o)
                 (ro_failure_reason o) (ro_sub_results o) seq)) table))%Z).
Proof.
  intros Hobs Hrun Hrows Hr Hm Hf mode.
  assert (Hs : ro_status o = ProbeStatus.Fail).
  { unfold probe_run in Hrun. repeat case_bool_decide.
    1-3: exfalso.
    - destruct (http_run_plain decl now n) as (o' & m & Ho & [->|(_ & _ & Hn & _)]); rewrite Ho in Hrun; simplify_eq; done.
    - destruct (tcp_run_plain decl now n) as (o' & m & Ho & [->|(_ & _ & Hn & _)]); rewrite Ho in Hrun; simplify_eq; done.
    - destruct (exec_run_plain decl now n) as (o' & m & Ho & [->|(_ & _ & Hn & _)]); rewrite Ho in Hrun; simplify_eq; done.
    - destruct (evidence_run_cases decl now n) as (o' & m & Ho & [(file & _ & _ & ->)|[Hfl _]]);
        rewrite Ho in Hrun; injection Hrun as <- <-; [|apply Hfl].
      destruct (ro_status _) eqn:Es; [|done]. injection Hrows as <-.
      pose proof (proj1 (aggregate_passes _ _ _) Es r Hr Hm). congruence.
    - destruct (settle_fail now ("unknown probe kind '" +:+ pd_kind decl +:+ "'") n) as (o' & m & Ho & Hfl).
      rewrite Ho in Hrun. injection Hrun as <- <-. apply Hfl. }
  split; [done|]. split.
  - intros st seq at_ Hne st'.
    assert (Hlk : forall k pr, pr_mode pr = ProbeMode.Enforce ->
              hs_probes st' !! k = Some pr <-> hs_probes st !! k = Some pr).
    { intros k pr Hpr. unfold st', soaking.local_probe_result, update_probe. simpl.
      destruct (decide (k = name)) as [->|Hk]; [|by rewrite lookup_insert_ne].
      rewrite lookup_insert_eq. split; [|by intros Hk%Hne].
      intros [= <-]. exfalso. subst mode. rewrite Hobs in Hpr. by destruct (ro_status o). }
    split; [split; intros (H1 & H2 & H3 & H4)|split; intros (H1 & H2 & (k & pr & H3 & H4 & H5))].
    + split_and!; [done..|]. intros k pr Hk Hpr. apply (H4 k); [by apply Hlk|done].
    + split_and!; [done..|]. intros k pr Hk Hpr. apply (H4 k); [by apply Hlk in Hk|done].
    + split_and!; [done..|]. exists k, pr. split_and!; [by apply Hlk in H3|done..].
    + split_and!; [done..|]. exists k, pr. split_and!; [by apply Hlk|done..].
  - intros rid host table seq. rewrite Hrows. unfold Applier.probe_failure_rows, ProbeFailures.insert_many.
    destruct rows as [|r0 rows]; [by apply not_elem_of_nil in Hr|].
    apply group_count_pos, Exists_exists.
    exists (MkProbeFailureInsert rid host name (Some (psr_control_id r)) (Some (psr_framework r)) (ro_observed_at o)).
    split; [|done]. apply elem_of_app. right. apply list_elem_of_fmap. exists r. split; [done|].
    apply list_elem_of_In, filter_In. split; [by apply list_elem_of_In|]. by rewrite Hf, Hm.
Qed.

Lemma enforced_control_gates_one_side_witness :
  exists o n', sample_run (nis2_probe "observe" "enforce") = (Returned o, n') /\
    ro_status o = ProbeStatus.Fail.
Proof.
  destruct (sample_run (nis2_probe "observe" "enforce")) as [[o| |] n'] eqn:E;
    [|by vm_compute in E|by vm_compute in E].
  exists o, n'. split; [reflexivity|].
  destruct (ro_sub_results o) as [rows|] eqn:Er; [|by vm_compute in E; injection E as <- <-].
  apply (enforced_control_gates_one_side (O := list_order) (Cr := enrol_crypto) (Ev := enrol_evidence_crypto)
    (E := sample_probe_env) (De := evidence_decoder) (Je := evidence_encoder) (nis2_probe "observe" "enforce") 0 0 n'
    o rows (MkProbeSubResult "ssh" ProbeStatus.Fail "nis2" (Some "21.i") ProbeMode.Enforce (Some "audit")) "nis2");
    try done.
  vm_compute in E. injection E as <- <-. injection Er as <-. left.
Defined.

(** A probe that has not reported holds nothing back.  The worker declares its
    probes and starts their tickers; while none has concluded its first turn, a
    soaking host on its target converges at the first tick after its soak
    deadline, although a probe in enforce mode has been declared for it. *)
Theorem unreported_probe_does_not_gate {O : HashOrder} {E : ProbeEnv}
    {Dd : DeserializeOwned (gmap string ProbeDeclJson)} {Q : QueueCodec} {C : AgentClock} {D : Disk}
    (cfg : AgentConfig) (s : AgentState) (w : AgentWorld) (worker : ProbeWorker) (rid : RolloutId)
    (st : HostRolloutState) (policy : RolloutPolicy) (decls : gmap string ProbeDecl) (n : nat)
    (name : string) (decl : ProbeDecl) (due : DateTime) :
  agent_wf s -> as_host_states s !! rid = Some st -> hs_state st = HostState.Soaking ->
  hs_probes st = ∅ -> hs_current_closure st = Some (hs_target_closure st) ->
  hs_soak_due_at st = Some due -> (hs_last_event_seq st + 1 < u64_max)%Z ->
  resolve_policy (as_manifests s) (hs_channel st) = Some policy ->
  read_declarations (pw_asked worker) = (Returned (Some decls), n) ->
  decls !! name = Some decl -> parse_mode (pd_mode decl) = ProbeMode.Enforce ->
  let worker' := handle_reset (MkProbeResetCommand rid) false worker in
  let declared := drop (length (pw_sent worker)) (pw_sent worker') in
  let r := agent_run cfg s declared w in
  (due <= agent_clock_reading (aw_reads r.2))%Z ->
  (exists t, pw_tickers worker' !! name = Some t /\ tk_mode t = ProbeMode.Enforce /\ tk_outcomes t = []) /\
  exists st', as_host_states (handle_input cfg r.1 AgentInput.AgentAdvanceTick r.2).1 !! rid = Some st' /\
    hs_state st' = HostState.Converged.
Proof.
  intros Hwf Hst Hs Hprobes Hcur Hdue Hseq Hp Hread Hdecl Hmode worker' declared r Hnow.
  assert (Hworker : declared = [AgentInput.HostEvent rid
            (Event.LocalProbeTopologyDeclared (topology_entry <$> hash_iter decls) (pe_now n) 0)] /\
          pw_tickers worker' = spawn_tickers (hash_iter decls) rid (pw_clock worker)).
  { unfold declared, worker', handle_reset. cbn [abort_all pw_asked]. simpl. rewrite Hread. simpl.
    by rewrite drop_app_length. }
  destruct Hworker as [Hd Ht]. split.
  - rewrite Ht. exists (spawn_ticker name decl ProbeMode.Enforce rid (pw_clock worker)).
    split; [|done]. rewrite <- Hmode. apply spawn_tickers_lookup; [by rewrite Hmode| |by apply elem_of_hash_iter].
    apply NoDup_fst_hash_iter.
  - destruct (reports_absorbed cfg rid declared policy s w st Hwf Hst Hs Hp) as (R1 & R2 & R3 & R4);
      [rewrite Hd; simpl; lia|rewrite Hd; by repeat constructor|]. fold r in R1, R2, R3, R4.
    pose proof (tick_records cfg r.1 r.2 R1) as (_ & _ & H). destruct (H _ _ R3) as (st' & Hst' & Hcase).
    exists st'. split; [exact Hst'|]. rewrite Hd in Hcase. cbn [fold_left absorb] in Hcase. simpl in Hcase.
    rewrite R2, Hp in Hcase. destruct Hcase as (_ & Hready & _); [lia|].
    destruct Hready as [-> _]; [|done].
    split_and!; [done|by exists due|done|]. simpl. rewrite Hprobes. intros k pr Hk. by rewrite lookup_empty in Hk.
Qed.

Lemma unreported_probe_does_not_gate_witness :
  let declared := pw_sent reset_worker in
  let w := sample_world <| aw_reads := 10 |> in
  let r := agent_run (O := list_order) (Q := plain_codec) (C := sample_agent_clock) (D := sample_disk) sample_cfg
             soaked_agent declared w in
  exists st', as_host_states (handle_input (O := list_order) (Q := plain_codec) (C := sample_agent_clock)
      (D := sample_disk) sample_cfg r.1 AgentInput.AgentAdvanceTick r.2).1 !! staged_rid = Some st' /\
    hs_state st' = HostState.Converged.
Proof.
  intros declared w r.
  refine (proj2 (unreported_probe_does_not_gate (O := list_order) (E := sample_probe_env) (Dd := checks_decoder)
    (Q := plain_codec) (C := sample_agent_clock) (D := sample_disk) sample_cfg soaked_agent w (probe_initial 0)
    staged_rid sample_soaked sample_policy {[ "web" := with_defaults web_probe ]} 1 "web"
    (with_defaults web_probe) 0%Z soaked_agent_wf eq_refl eq_refl eq_refl eq_refl eq_refl _ eq_refl _ eq_refl eq_refl _));
    by vm_compute.
Defined.
