(* ===== verification/AgentTasks.v ===== *)
(** * The tasks of the agent and their channels

    Models [spawn] of [crates/nixfleet-agent/src/runtime/mod.rs], the loops of the
    reducer task, of the activation and probe workers and of the advance ticker,
    and the bounded channels between them, as a step relation.  [AgentRuntime] says
    what an input does when every send succeeds at once; here the reducer waits
    for room in the channels of its workers, and they wait for room in its own.
    The other tasks, which nobody waits for, put any input into the channel at
    any time there is room. *)

From S2P Require Import Prelude Proto HostTypes HostTransitions RolloutMachine Gates Wire.
From S2P Require Import AgentQueue AgentRuntime AgentActivation.
Import Agent.

(** The channels of [spawn]. *)
Definition REDUCER_INPUT_CAPACITY : nat := 64.
Definition ACTIVATION_CAPACITY : nat := 4.
Definition PROBE_RESET_CAPACITY : nat := 4.

(** ** A worker that takes messages and reports to the reducer *)

Inductive WorkerPhase :=
| Waiting                                               (* in its [select!] *)
| Reporting (pending : list AgentInput) (survives : bool)
| Ended.

(** [wk_taken] is the history of the messages it took. *)
Record Worker (M : Type) := MkWorker {
  wk_queue : list M;
  wk_taken : list M;
  wk_phase : WorkerPhase;
}.
Arguments MkWorker {M} wk_queue wk_taken wk_phase.
Arguments wk_queue {M} w.
Arguments wk_taken {M} w.
Arguments wk_phase {M} w.

(** The receiver a worker drops takes the messages left with it. *)
Definition worker_end {M} (w : Worker M) : Worker M := MkWorker [] (wk_taken w) Ended.

(** A send to a worker: it waits ([None]) while the channel is full, and is lost
    when the worker has ended. *)
Definition push {M} (capacity : nat) (m : M) (w : Worker M) : option (Worker M) :=
  match wk_phase w with
  | Ended => Some w
  | _ => if decide (length (wk_queue w) < capacity)
         then Some (MkWorker (wk_queue w ++ [m]) (wk_taken w) (wk_phase w)) else None
  end.

(** [reports m pending survives]: on [m] the worker sends [pending], and goes on
    unless it panics.  [closed] says that the reducer has returned, which resolves
    the shutdown token, the first arm of a biased [select!], and makes every send
    fail; a failed send ends the work on the message. *)
Inductive worker_step {M} (reports : M -> list AgentInput -> bool -> Prop) (closed : bool)
    : Worker M -> list AgentInput -> Worker M -> list AgentInput -> Prop :=
| worker_take m queue taken inputs pending survives :
    closed = false -> reports m pending survives ->
    worker_step reports closed (MkWorker (m :: queue) taken Waiting) inputs
      (MkWorker queue (taken ++ [m]) (Reporting pending survives)) inputs
| worker_send queue taken inputs input pending survives :
    closed = false -> length inputs < REDUCER_INPUT_CAPACITY ->
    worker_step reports closed (MkWorker queue taken (Reporting (input :: pending) survives)) inputs
      (MkWorker queue taken (Reporting pending survives)) (inputs ++ [input])
| worker_refused queue taken inputs input pending survives :
    closed = true ->
    worker_step reports closed (MkWorker queue taken (Reporting (input :: pending) survives)) inputs
      (MkWorker queue taken (Reporting [] true)) inputs
| worker_next queue taken inputs :
    worker_step reports closed (MkWorker queue taken (Reporting [] true)) inputs
      (MkWorker queue taken Waiting) inputs
| worker_dies queue taken inputs :
    worker_step reports closed (MkWorker queue taken (Reporting [] false)) inputs
      (worker_end (MkWorker queue taken Waiting)) inputs
| worker_stops queue taken inputs :
    closed = true ->
    worker_step reports closed (MkWorker queue taken Waiting) inputs
      (worker_end (MkWorker queue taken Waiting)) inputs.

(** The activation worker, on whatever its machine answers: without the last
    event its pipeline panicked. *)
Definition intent_reports (intent : ActivationIntent) (pending : list AgentInput) (survives : bool) : Prop :=
  exists target_os machine test_mode started_at now,
    pending = (handle_intent target_os machine test_mode started_at now intent).1 /\
    survives = bool_decide (length pending = if ai_rollback intent then 1 else 2).

(** The probe worker: a reset declares the topology unless the file of the
    declarations is missing or does not parse. *)
Definition reset_reports (cmd : ProbeResetCommand) (pending : list AgentInput) (survives : bool) : Prop :=
  survives = true /\
  (pending = [] \/ exists probes declared_at,
     pending = [AgentInput.HostEvent (prc_rollout_id cmd)
                  (Event.LocalProbeTopologyDeclared probes declared_at 0)]).

(** ** The network *)

(** What the reducer is at: the effects it still has to apply, and the events of
    an advance tick it still has to handle. *)
Inductive ReducerPhase :=
| Selecting
| Applying (effects : list Effect) (events : list (RolloutId * Event))
| Gone.

Record Net `{QueueCodec} := MkNet {
  nt_inputs : list AgentInput;                          (* [input_tx] *)
  nt_handled : list AgentInput;                         (* the history of [input_rx] *)
  nt_state : AgentState;
  nt_world : AgentWorld;
  nt_reducer : ReducerPhase;
  nt_cancelled : bool;
  nt_activation : Worker ActivationIntent;
  nt_probe : Worker ProbeResetCommand;
  nt_ticker : bool;                                     (* whether it runs *)
}.
#[export] Instance Net_eta `{QueueCodec} : Etaexp Net := fun n =>
  MkNet _ (nt_inputs n) (nt_handled n) (nt_state n) (nt_world n) (nt_reducer n) (nt_cancelled n)
    (nt_activation n) (nt_probe n) (nt_ticker n).

Definition worker_initial {M} : Worker M := MkWorker [] [] Waiting.

Section tasks.
Context {O : HashOrder} {Q : QueueCodec} {C : AgentClock} {D : Disk} (cfg : AgentConfig).

Definition spawn (w : AgentWorld) : Net :=
  MkNet _ [] [] agent_initial w Selecting false worker_initial worker_initial true.

Definition closed (n : Net) : bool := match nt_reducer n with Gone => true | _ => false end.

(** ** The reducer, effect by effect *)

(** [run_host_event] up to its loop over the effects. *)
Definition start_host_event (s : AgentState) (rollout_id : RolloutId) (event : Event) (w : AgentWorld)
    : AgentState * list Effect * AgentWorld :=
  match event_state s rollout_id event w with
  | None => (s, [], w)
  | Some (state, w) =>
      match resolve_policy (as_manifests s) (hs_channel state) with
      | None => (s, [], w)
      | Some policy =>
          let event := with_seq event (u64_wrap (hs_last_event_seq state + 1)) in
          let '(now, w) := clock_now w in
          match HostTransitions.step state event now policy with
          | Err _ => (s, [], w)
          | Ok (next_state, effects) =>
              (s <| as_host_states := <[ rollout_id := next_state ]> (as_host_states s) |>, effects, w)
          end
      end
  end.

(** [handle_input] up to its first effect or event. *)
Definition begin_input (s : AgentState) (input : AgentInput) (w : AgentWorld)
    : AgentState * list Effect * list (RolloutId * Event) * AgentWorld :=
  match input with
  | AgentInput.HostEvent rollout_id event =>
      let '(s, effects, w) := start_host_event s rollout_id event w in (s, effects, [], w)
  | AgentInput.AgentAdvanceTick => let '(now, w) := clock_now w in (s, [], advance_events s now, w)
  | AgentInput.ManifestSetUpdated set => (s <| as_manifests := Some set |>, [], [], w)
  | AgentInput.BootstrapHost snapshot =>
      let rollout_id := snap_rollout_id snapshot in
      let record := merge_snapshot_into_state (as_host_states s !! rollout_id) snapshot in
      (s <| as_host_states := <[ rollout_id := record ]> (as_host_states s) |>,
       rehydration_effects record, [], w)
  end.

(** The send of an effect, if it has one. *)
Definition deliver_effect (effect : Effect) (n : Net) : option Net :=
  match effect with
  | Effect.LocalFireSwitch rollout_id target =>
      (fun k => n <| nt_activation := k |>) <$>
        push ACTIVATION_CAPACITY (MkActivationIntent rollout_id target false) (nt_activation n)
  | Effect.LocalFireRollbackTo rollout_id closure =>
      (fun k => n <| nt_activation := k |>) <$>
        push ACTIVATION_CAPACITY (MkActivationIntent rollout_id closure true) (nt_activation n)
  | Effect.LocalResetProbeCache rollout_id =>
      (fun k => n <| nt_probe := k |>) <$>
        push PROBE_RESET_CAPACITY (MkProbeResetCommand rollout_id) (nt_probe n)
  | _ => Some n
  end.

(** The next thing the reducer does, unless it has to wait. *)
Definition reducer_turn (n : Net) : option Net :=
  match nt_reducer n with
  | Selecting =>
      match nt_inputs n with
      | [] => None
      | input :: inputs =>
          let '(s, effects, events, w) := begin_input (nt_state n) input (nt_world n) in
          Some (n <| nt_inputs := inputs |> <| nt_handled := nt_handled n ++ [input] |>
                  <| nt_state := s |> <| nt_world := w |> <| nt_reducer := Applying effects events |>)
      end
  | Applying (effect :: effects) events =>
      (fun n => n <| nt_world := apply_effect cfg (nt_world n) effect |>
                  <| nt_reducer := Applying effects events |>) <$> deliver_effect effect n
  | Applying [] ((rollout_id, event) :: events) =>
      let '(s, effects, w) := start_host_event (nt_state n) rollout_id event (nt_world n) in
      Some (n <| nt_state := s |> <| nt_world := w |> <| nt_reducer := Applying effects events |>)
  | Applying [] [] => Some (n <| nt_reducer := Selecting |>)
  | Gone => None
  end.

(** ** The advance ticker *)

(** A tick, or the end of the task; it waits for room like everybody. *)
Definition ticker_turn (n : Net) : option Net :=
  if closed n then Some (n <| nt_ticker := false |>)
  else if decide (length (nt_inputs n) < REDUCER_INPUT_CAPACITY)
  then Some (n <| nt_inputs := nt_inputs n ++ [AgentInput.AgentAdvanceTick] |>) else None.

(** ** The steps *)

(** The reducer looks at the cancellation in its [select!] only.  Its return drops
    the shutdown senders and the receiver of the inputs. *)
Inductive net_step (n : Net) : Net -> Prop :=
| step_reducer n' : reducer_turn n = Some n' -> net_step n n'
| step_return : nt_reducer n = Selecting -> nt_cancelled n = true ->
    net_step n (n <| nt_reducer := Gone |> <| nt_inputs := [] |>)
| step_activation k inputs :
    worker_step intent_reports (closed n) (nt_activation n) (nt_inputs n) k inputs ->
    net_step n (n <| nt_activation := k |> <| nt_inputs := inputs |>)
| step_probe k inputs :
    worker_step reset_reports (closed n) (nt_probe n) (nt_inputs n) k inputs ->
    net_step n (n <| nt_probe := k |> <| nt_inputs := inputs |>)
| step_ticker n' : nt_ticker n = true -> ticker_turn n = Some n' -> net_step n n'
| step_other input : closed n = false -> length (nt_inputs n) < REDUCER_INPUT_CAPACITY ->
    net_step n (n <| nt_inputs := nt_inputs n ++ [input] |>)
| step_cancel : nt_cancelled n = false -> net_step n (n <| nt_cancelled := true |>).

End tasks.
