(* ===== verification/AgentTasksProps.v ===== *)
(** * The tasks of the agent: what waiting for room changes

    The reducer task that waits for its workers does what [AgentRuntime] says, on
    the inputs it handles; the exact states in which it never moves again; and
    the end of all tasks once it has returned. *)

From S2P Require Import Prelude RustStd Proto HostTypes HostTransitions RolloutMachine Gates Wire Verify.
From S2P Require Import CpStore CpRuntimeSpecs AgentQueue AgentRuntime AgentProps AgentActivation.
From S2P Require Import AgentActivationProps AgentProbes AgentTasks.
Import Agent.

(** ** Workers *)

Section workers.
Context {M : Type} (reports : M -> list AgentInput -> bool -> Prop).

(** The messages given to a worker that were not dropped. *)
Definition given (k : Worker M) : list M := wk_taken k ++ wk_queue k.

(** Inputs are only appended. *)
Lemma worker_step_inputs c k inputs k' inputs' :
  worker_step reports c k inputs k' inputs' -> inputs' = inputs \/
  (exists input, inputs' = inputs ++ [input]) /\ length inputs < REDUCER_INPUT_CAPACITY /\ c = false.
Proof. destruct 1; eauto. Qed.

Lemma worker_step_taken c k inputs k' inputs' :
  worker_step reports c k inputs k' inputs' -> wk_taken k `prefix_of` wk_taken k'.
Proof. destruct 1; simpl; try done. by eexists. Qed.

(** Nothing is lost unless the worker ends. *)
Lemma worker_step_given c k inputs k' inputs' :
  worker_step reports c k inputs k' inputs' -> wk_phase k' <> Ended -> given k' = given k.
Proof. destruct 1; unfold given; simpl; try done. by rewrite <- app_assoc. Qed.

Lemma worker_step_given_prefix c k inputs k' inputs' :
  worker_step reports c k inputs k' inputs' -> given k' `prefix_of` given k.
Proof.
  destruct 1; unfold given; simpl; try done.
  - by rewrite <- app_assoc.
  - rewrite app_nil_r. by eexists.
  - rewrite app_nil_r. by eexists.
Qed.

(** An ended worker has no more steps. *)
Lemma ended_is_last c k inputs k' inputs' :
  worker_step reports c k inputs k' inputs' -> wk_phase k <> Ended.
Proof. by destruct 1. Qed.

(** After the reducer has gone no worker takes a message. *)
Lemma closed_takes_nothing k inputs k' inputs' :
  worker_step reports true k inputs k' inputs' -> wk_taken k' = wk_taken k.
Proof. by inversion 1. Qed.

End workers.

(** A worker that waits for more room than the channel to the reducer has. *)
Definition starved {M} (capacity : nat) (k : Worker M) (inputs : list AgentInput) : Prop :=
  length (wk_queue k) = capacity /\
  exists pending survives, wk_phase k = Reporting pending survives /\
    REDUCER_INPUT_CAPACITY < length inputs + length pending.

Lemma starved_dec {M} capacity (k : Worker M) inputs : starved capacity k inputs \/ ~ starved capacity k inputs.
Proof.
  unfold starved. destruct (wk_phase k) as [|p b|]; [by right; intros (_ & ? & ? & ? & _)| |
    by right; intros (_ & ? & ? & ? & _)].
  destruct (decide (length (wk_queue k) = capacity)); [|by right; intros [? _]].
  destruct (decide (REDUCER_INPUT_CAPACITY < length inputs + length p)) as [Hl|Hl]; [left; eauto|].
  right. intros (_ & ? & ? & [= <- <-] & ?). by apply Hl.
Qed.

Definition queue_ok {M} (capacity : nat) (k : Worker M) : Prop := length (wk_queue k) <= capacity.

Lemma push_ok {M} capacity (m : M) k k' : push capacity m k = Some k' -> queue_ok capacity k -> queue_ok capacity k'.
Proof.
  unfold push, queue_ok. destruct (wk_phase k); try destruct (decide _); try done;
    intros [= <-]; simpl; rewrite ?length_app; simpl; lia.
Qed.

Lemma push_taken {M} capacity (m : M) k k' : push capacity m k = Some k' -> wk_taken k' = wk_taken k.
Proof. unfold push. destruct (wk_phase k); try destruct (decide _); try done; by intros [= <-]. Qed.

Lemma push_phase {M} capacity (m : M) k k' : push capacity m k = Some k' -> wk_phase k' = wk_phase k.
Proof. unfold push. destruct (wk_phase k) eqn:E; try destruct (decide _); try done; by intros [= <-]. Qed.

Lemma push_waits {M} capacity (m : M) k : push capacity m k = None ->
  wk_phase k <> Ended /\ capacity <= length (wk_queue k).
Proof. unfold push. destruct (wk_phase k); try destruct (decide _); try done; intros _; by split; [|lia]. Qed.

Lemma push_room {M} capacity (m : M) k :
  wk_phase k = Ended \/ length (wk_queue k) < capacity -> is_Some (push capacity m k).
Proof.
  intros H. destruct (push capacity m k) eqn:E; [done|]. apply push_waits in E as [H1 H2].
  destruct H; [done | lia].
Qed.

Lemma worker_step_queue {M} (reports : M -> list AgentInput -> bool -> Prop) capacity c k inputs k' inputs' :
  worker_step reports c k inputs k' inputs' -> queue_ok capacity k -> queue_ok capacity k'.
Proof. unfold queue_ok. destruct 1; simpl; lia. Qed.

(** A starved worker stays so while the reducer takes no input. *)
Lemma worker_step_starved {M} (reports : M -> list AgentInput -> bool -> Prop) capacity k inputs k' inputs' :
  worker_step reports false k inputs k' inputs' -> length inputs <= REDUCER_INPUT_CAPACITY ->
  starved capacity k inputs -> starved capacity k' inputs'.
Proof.
  intros Hs Hin (Hq & p & b & Hp & Hroom). destruct Hs; simplify_eq/=; try (exfalso; lia).
  split; [done|]. eexists _, _. split; [done|]. rewrite length_app. simpl. lia.
Qed.

Lemma starved_more {M} capacity (k : Worker M) inputs inputs' :
  length inputs <= length inputs' -> starved capacity k inputs -> starved capacity k inputs'.
Proof. intros H (Hq & p & b & Hp & Hroom). split; [done|]. exists p, b. split; [done|]. lia. Qed.

(** A worker that is not starved makes room, or ends. *)
Lemma worker_makes_room {M} (reports : M -> list AgentInput -> bool -> Prop) capacity k inputs :
  (forall m, exists pending survives, reports m pending survives) ->
  0 < capacity -> length (wk_queue k) = capacity -> ~ starved capacity k inputs ->
  exists k' inputs',
    rtc (fun x y => worker_step reports false x.1 x.2 y.1 y.2) (k, inputs) (k', inputs') /\
    (wk_phase k' = Ended \/ length (wk_queue k') < capacity).
Proof.
  intros Htotal Hcap Hq Hns.
  assert (Htake : forall queue taken inputs, length queue = capacity -> exists k' inputs',
    rtc (fun x y => worker_step reports false x.1 x.2 y.1 y.2) (MkWorker queue taken Waiting, inputs) (k', inputs') /\
    (wk_phase k' = Ended \/ length (wk_queue k') < capacity)).
  { intros [|m queue] taken ins Hl; [simpl in Hl; lia|]. destruct (Htotal m) as (p & b & Hr).
    eexists _, _. split; [apply rtc_once; by apply worker_take|]. right. simpl in *. lia. }
  destruct k as [queue taken phase]. simpl in Hq. destruct phase as [|pending survives|].
  - by apply Htake.
  - assert (Hroom : length inputs + length pending <= REDUCER_INPUT_CAPACITY).
    { destruct (decide (length inputs + length pending <= REDUCER_INPUT_CAPACITY)); [done|].
      exfalso. apply Hns. split; [done|]. exists pending, survives. split; [done|lia]. }
    clear Hns. revert inputs Hroom. induction pending as [|i pending IH]; intros inputs Hroom.
    + destruct survives.
      * destruct (Htake queue taken inputs Hq) as (k' & ins & Hs & Hk). exists k', ins. split; [|done].
        eapply rtc_l; [|exact Hs]. apply worker_next.
      * eexists _, inputs. split; [apply rtc_once; apply worker_dies | by left].
    + destruct (IH (inputs ++ [i])) as (k' & ins & Hs & Hk); [rewrite length_app; cbn [length] in *; lia|].
      exists k', ins. split; [|done]. eapply rtc_l; [|exact Hs]. apply worker_send; [done|]. cbn [fst snd length] in *. lia.
  - exists (MkWorker queue taken Ended), inputs. split; [done | by left].
Qed.

Lemma intents_are_reported intent : exists pending survives, intent_reports intent pending survives.
Proof.
  eexists _, _, Linux, (sample_machine "old" (fun _ => "old")), true, 0%Z, 0%Z. by split.
Qed.

Lemma resets_are_reported cmd : exists pending survives, reset_reports cmd pending survives.
Proof. exists [], true. split; [done | by left]. Qed.

(** ** The reducer task *)

Section tasks.
Context {O : HashOrder} {Q : QueueCodec} {C : AgentClock} {D : Disk} (cfg : AgentConfig).

Lemma run_host_event_starts s rid e w :
  run_host_event cfg s rid e w =
  let '(s', effects, w') := start_host_event s rid e w in (s', fold_left (apply_effect cfg) effects w').
Proof.
  unfold run_host_event, start_host_event. destruct (event_state s rid e w) as [[state w']|]; [|done].
  destruct (resolve_policy _ _) as [policy|]; [|done]. cbv zeta. destruct (clock_now w') as [now w2].
  by destruct (HostTransitions.step _ _ _ _) as [[next effects]|err].
Qed.

Lemma ticker_turn_spec n n' : ticker_turn n = Some n' ->
  closed n = true /\ n' = n <| nt_ticker := false |> \/
  closed n = false /\ length (nt_inputs n) < REDUCER_INPUT_CAPACITY /\
    n' = n <| nt_inputs := nt_inputs n ++ [AgentInput.AgentAdvanceTick] |>.
Proof.
  unfold ticker_turn. destruct (closed n); [intros [= <-]; by left|].
  destruct (decide _); [|done]. intros [= <-]. by right.
Qed.

(** What is left of the input in hand, done at once. *)
Definition finish (s : AgentState) (w : AgentWorld) (effects : list Effect) (events : list (RolloutId * Event))
    : AgentState * AgentWorld :=
  fold_left (fun '(s, w) '(rid, e) => run_host_event cfg s rid e w) events
    (s, fold_left (apply_effect cfg) effects w).

Definition settle (n : Net) : AgentState * AgentWorld :=
  match nt_reducer n with
  | Applying effects events => finish (nt_state n) (nt_world n) effects events
  | _ => (nt_state n, nt_world n)
  end.

Lemma begin_input_handles s input w :
  handle_input cfg s input w =
  let '(s', effects, events, w') := begin_input s input w in finish s' w' effects events.
Proof.
  destruct input as [rid e| |set|snapshot]; [|done..]. cbn [handle_input begin_input].
  rewrite run_host_event_starts. by destruct (start_host_event s rid e w) as [[s' effects] w'].
Qed.

Lemma agent_run_snoc s inputs input w :
  agent_run cfg s (inputs ++ [input]) w =
  handle_input cfg (agent_run cfg s inputs w).1 input (agent_run cfg s inputs w).2.
Proof.
  revert s w. induction inputs as [|i inputs IH]; intros s w; cbn [agent_run app].
  - cbn [fst snd]. by destruct (handle_input cfg s input w) as [s1 w1] eqn:E; rewrite ?E.
  - destruct (handle_input cfg s i w) as [s' w']. apply IH.
Qed.

(** A delivery changes the channels of the workers only. *)
Lemma deliver_rest e n n' : deliver_effect e n = Some n' ->
  nt_inputs n' = nt_inputs n /\ nt_handled n' = nt_handled n /\ nt_state n' = nt_state n /\
  nt_world n' = nt_world n /\ nt_reducer n' = nt_reducer n /\ nt_cancelled n' = nt_cancelled n.
Proof.
  destruct e; simpl; try (by intros [= <-]); destruct (push _ _ _); try done; by intros [= <-].
Qed.

(** A turn takes the next input, or goes on with the one in hand. *)
Lemma reducer_turn_settles n n' : reducer_turn cfg n = Some n' ->
  (exists input, nt_reducer n = Selecting /\ nt_inputs n = input :: nt_inputs n' /\
     nt_handled n' = nt_handled n ++ [input] /\ nt_activation n' = nt_activation n /\
     nt_probe n' = nt_probe n /\ settle n' = handle_input cfg (nt_state n) input (nt_world n)) \/
  (nt_inputs n' = nt_inputs n /\ nt_handled n' = nt_handled n /\ settle n' = settle n).
Proof.
  unfold reducer_turn, settle. destruct (nt_reducer n) as [|[|e effects] events|] eqn:Er;
    [| destruct events as [|[rid ev] events] | |done].
  - destruct (nt_inputs n) as [|input inputs] eqn:Ei; [done|].
    destruct (begin_input _ _ _) as [[[s effects] events] w] eqn:Eb. intros [= <-]. left. exists input.
    split_and!; try done. cbn. by rewrite begin_input_handles, Eb.
  - intros [= <-]. by right.
  - destruct (start_host_event _ _ _ _) as [[s effects] w] eqn:Es. intros [= <-]. right. split_and!; [done|done|].
    cbn. unfold finish. cbn [fold_left]. by rewrite run_host_event_starts, Es.
  - destruct (deliver_effect e n) as [n1|] eqn:Ed; [|done]. intros [= <-]. right.
    destruct (deliver_rest _ _ _ Ed) as (H1 & H2 & H3 & H4 & H5 & _). cbn. by rewrite H1, H2, H3, H4.
Qed.

Definition reaches (w0 : AgentWorld) (n : Net) : Prop := rtc (net_step cfg) (spawn w0) n.

(** The channels and the worlds agree. *)
Definition told {M} (sent0 sent : list M) (k : Worker M) : Prop :=
  sent0 ++ given k `prefix_of` sent /\ (wk_phase k <> Ended -> sent = sent0 ++ given k).

Record net_ok (w0 : AgentWorld) (n : Net) : Prop := {
  no_run : settle n = agent_run cfg agent_initial (nt_handled n) w0;
  no_inputs : length (nt_inputs n) <= REDUCER_INPUT_CAPACITY;
  no_intents : queue_ok ACTIVATION_CAPACITY (nt_activation n);
  no_resets : queue_ok PROBE_RESET_CAPACITY (nt_probe n);
  no_told_activation : told (aw_intents w0) (aw_intents (nt_world n)) (nt_activation n);
  no_told_probe : told (aw_resets w0) (aw_resets (nt_world n)) (nt_probe n);
}.

Lemma spawn_ok w0 : net_ok w0 (spawn w0).
Proof. split; unfold queue_ok, told, given; simpl; rewrite ?app_nil_r; try lia; by split. Qed.

(** What an effect sends. *)
Definition intents_of (e : Effect) : list ActivationIntent :=
  match e with
  | Effect.LocalFireSwitch rid target => [MkActivationIntent rid target false]
  | Effect.LocalFireRollbackTo rid closure => [MkActivationIntent rid closure true]
  | _ => []
  end.
Definition resets_of (e : Effect) : list ProbeResetCommand :=
  match e with Effect.LocalResetProbeCache rid => [MkProbeResetCommand rid] | _ => [] end.

Lemma apply_effect_sends w e :
  aw_intents (apply_effect cfg w e) = aw_intents w ++ intents_of e /\
  aw_resets (apply_effect cfg w e) = aw_resets w ++ resets_of e.
Proof. destruct e; cbn -[enqueue]; rewrite ?app_nil_r; try done. by destruct (enqueue _ _ _). Qed.

(** [k'] was given [ms] more, unless it has ended. *)
Definition given_more {M} (ms : list M) (k k' : Worker M) : Prop :=
  wk_phase k' = wk_phase k /\ (wk_phase k <> Ended -> given k' = given k ++ ms) /\
  (wk_phase k = Ended -> k' = k).

Lemma given_nothing {M} (k : Worker M) : given_more [] k k.
Proof. split_and!; try done. by rewrite app_nil_r. Qed.

Lemma push_given_more {M} capacity (m : M) k k' : push capacity m k = Some k' -> given_more [m] k k'.
Proof.
  intros H. split_and!; [by eapply push_phase | |]; revert H; unfold push, given;
    destruct (wk_phase k); try destruct (decide _); try done; intros [= <-]; try done.
  all: intros _; simpl; by rewrite app_assoc.
Qed.

Lemma deliver_sends e n n' : deliver_effect e n = Some n' ->
  given_more (intents_of e) (nt_activation n) (nt_activation n') /\
  given_more (resets_of e) (nt_probe n) (nt_probe n') /\
  (queue_ok ACTIVATION_CAPACITY (nt_activation n) -> queue_ok ACTIVATION_CAPACITY (nt_activation n')) /\
  (queue_ok PROBE_RESET_CAPACITY (nt_probe n) -> queue_ok PROBE_RESET_CAPACITY (nt_probe n')).
Proof.
  destruct e; simpl; try (intros [= <-]; by split_and!; try apply given_nothing).
  all: destruct (push _ _ _) as [k|] eqn:E; [|done]; intros [= <-]; simpl.
  all: split_and!; try apply given_nothing; try done.
  all: first [by eapply push_given_more | by intros; eapply push_ok].
Qed.

Lemma told_more {M} (ms sent0 sent : list M) k k' :
  given_more ms k k' -> told sent0 sent k -> told sent0 (sent ++ ms) k'.
Proof.
  unfold told. intros (Hp & Hg & He) [H1 H2]. rewrite Hp. destruct (wk_phase k) eqn:E.
  3:{ rewrite He by done. split; [by apply prefix_app_r | done]. }
  all: rewrite Hg, H2, app_assoc by done; by split.
Qed.

Lemma told_step {M} reports c inputs inputs' (sent0 sent : list M) k k' :
  worker_step reports c k inputs k' inputs' -> told sent0 sent k -> told sent0 sent k'.
Proof.
  intros Hs [H1 H2]. pose proof (worker_step_given_prefix _ _ _ _ _ _ Hs) as Hg. split.
  - etrans; [|exact H1]. by apply prefix_app.
  - intros Hne. rewrite (worker_step_given _ _ _ _ _ _ Hs Hne). apply H2. by eapply ended_is_last.
Qed.

(** Up to its first effect an input sends nothing. *)
Definition same_sends (w w' : AgentWorld) : Prop := aw_intents w' = aw_intents w /\ aw_resets w' = aw_resets w.

Lemma start_host_event_sends s rid e w : same_sends w (start_host_event s rid e w).2.
Proof.
  unfold start_host_event. destruct (event_state s rid e w) as [[state w1]|] eqn:E; [|done].
  assert (H1 : same_sends w w1).
  { revert E. unfold event_state. destruct (_ !! _); [by intros [= <- <-]|]. destruct e; try done. by intros [= <- <-]. }
  destruct (resolve_policy _ _); [|done]. cbv zeta. destruct (clock_now w1) as [now w2] eqn:Ec.
  injection Ec as <- <-. by destruct (HostTransitions.step _ _ _ _) as [[]|].
Qed.

Lemma begin_input_sends s input w : same_sends w (begin_input s input w).2.
Proof.
  destruct input as [rid e| |set|snapshot]; try done. unfold begin_input.
  pose proof (start_host_event_sends s rid e w) as H. by destruct (start_host_event s rid e w) as [[s' effects] w'].
Qed.

Lemma told_same {M} (sent0 sent sent' : list M) k : sent' = sent -> told sent0 sent k -> told sent0 sent' k.
Proof. by intros ->. Qed.

Lemma reducer_turn_ok w0 n n' : net_ok w0 n -> reducer_turn cfg n = Some n' -> net_ok w0 n'.
Proof.
  intros [H1 H2 H3 H4 H5 H6] Ht.
  assert (Hrun : settle n' = agent_run cfg agent_initial (nt_handled n') w0 /\
    length (nt_inputs n') <= REDUCER_INPUT_CAPACITY).
  { destruct (reducer_turn_settles _ _ Ht) as [(i & Hr & Hi & Hh & _ & _ & Hs)|(Hi & Hh & Hs)].
    - rewrite Hi in H2. simpl in H2. split; [|lia]. rewrite Hs, Hh, agent_run_snoc, <- H1. unfold settle. by rewrite Hr.
    - by rewrite Hi, Hh, Hs. }
  destruct Hrun as [Hrun Hin]. clear H1 H2.
  unfold reducer_turn in Ht. destruct (nt_reducer n) as [|[|e effects] events|]; [| destruct events as [|[rid ev] events] | |done].
  - destruct (nt_inputs n) as [|input inputs]; [done|].
    pose proof (begin_input_sends (nt_state n) input (nt_world n)) as [Ha Hb].
    destruct (begin_input _ _ _) as [[[s effects] events] w]. injection Ht as <-. split; try done.
    + by apply (told_same _ _ _ _ Ha).
    + by apply (told_same _ _ _ _ Hb).
  - injection Ht as <-. by split.
  - pose proof (start_host_event_sends (nt_state n) rid ev (nt_world n)) as [Ha Hb].
    destruct (start_host_event _ _ _ _) as [[s effects] w]. injection Ht as <-. split; try done.
    + by apply (told_same _ _ _ _ Ha).
    + by apply (told_same _ _ _ _ Hb).
  - destruct (deliver_effect e n) as [n1|] eqn:Ed; [|done]. injection Ht as <-.
    destruct (deliver_sends _ _ _ Ed) as (Ga & Gp & Qa & Qp). destruct (deliver_rest _ _ _ Ed) as (_ & _ & _ & Hw & _).
    split; simpl; auto; rewrite Hw; destruct (apply_effect_sends (nt_world n) e) as [Ea Ep]; rewrite ?Ea, ?Ep;
      by eapply told_more.
Qed.

Lemma net_step_ok w0 n n' : net_ok w0 n -> net_step cfg n n' -> net_ok w0 n'.
Proof.
  intros Hok Hs. destruct Hs as [n' Ht|Hr Hc|k inputs Hw|k inputs Hw|n' _ Ht|input Hc Hl|Hc].
  1: by eapply reducer_turn_ok.
  4: destruct (ticker_turn_spec _ _ Ht) as [[_ ->]|(_ & Hl & ->)].
  all: destruct Hok as [H1 H2 H3 H4 H5 H6]; split; try done; try (simpl; rewrite ?length_app; simpl; lia).
  - revert H1. unfold settle. by rewrite Hr.
  - simpl. destruct (worker_step_inputs _ _ _ _ _ _ Hw) as [->|[[i ->] [? _]]]; [done|]. rewrite length_app. simpl. lia.
  - by eapply worker_step_queue.
  - by eapply told_step.
  - simpl. destruct (worker_step_inputs _ _ _ _ _ _ Hw) as [->|[[i ->] [? _]]]; [done|]. rewrite length_app. simpl. lia.
  - by eapply worker_step_queue.
  - by eapply told_step.
Qed.

Lemma reaches_ok w0 n : reaches w0 n -> net_ok w0 n.
Proof.
  revert n. apply (rtc_ind_r (net_ok w0) (spawn w0)); [apply spawn_ok|].
  intros n1 n2 _ Hs IH. by eapply net_step_ok.
Qed.

(** ** Waiting for ever *)

(** The send of [e] waits for a worker that waits for the reducer. *)
Definition waits_for (e : Effect) (n : Net) : Prop :=
  match e with
  | Effect.LocalFireSwitch _ _ | Effect.LocalFireRollbackTo _ _ =>
      starved ACTIVATION_CAPACITY (nt_activation n) (nt_inputs n)
  | Effect.LocalResetProbeCache _ => starved PROBE_RESET_CAPACITY (nt_probe n) (nt_inputs n)
  | _ => False
  end.

Definition blocked (n : Net) : Prop :=
  exists e effects events, nt_reducer n = Applying (e :: effects) events /\ waits_for e n.

(** The reducer is at the same effect whatever happens. *)
Definition halted (n : Net) : Prop :=
  nt_reducer n <> Gone /\ forall n', rtc (net_step cfg) n n' -> nt_reducer n' = nt_reducer n.

Lemma starved_full {M} capacity (m : M) k inputs : starved capacity k inputs -> push capacity m k = None.
Proof.
  intros (Hq & p & b & Hp & _). unfold push. rewrite Hp. destruct (decide _); [lia|done].
Qed.

Lemma waits_none e n : waits_for e n -> deliver_effect e n = None.
Proof. destruct e; try done; simpl; intros H; by rewrite (starved_full _ _ _ _ H). Qed.

Lemma waits_more e n n' :
  nt_activation n' = nt_activation n -> nt_probe n' = nt_probe n ->
  length (nt_inputs n) <= length (nt_inputs n') -> waits_for e n -> waits_for e n'.
Proof. intros Ea Ep Hl. destruct e; simpl; try done; rewrite ?Ea, ?Ep; by apply starved_more. Qed.

Lemma worker_step_more {M} (reports : M -> list AgentInput -> bool -> Prop) c k inputs k' inputs' :
  worker_step reports c k inputs k' inputs' -> length inputs <= length inputs'.
Proof. intros H. destruct (worker_step_inputs _ _ _ _ _ _ H) as [->|[[i ->] _]]; rewrite ?length_app; lia. Qed.

Lemma blocked_step n n' : length (nt_inputs n) <= REDUCER_INPUT_CAPACITY -> blocked n -> net_step cfg n n' ->
  nt_reducer n' = nt_reducer n /\ blocked n'.
Proof.
  intros Hin (e & effects & events & Hr & Hw) Hs.
  assert (Hc : closed n = false) by (unfold closed; by rewrite Hr).
  assert (Hgo : forall n1, nt_reducer n1 = nt_reducer n -> waits_for e n1 ->
    nt_reducer n1 = nt_reducer n /\ blocked n1).
  { intros n1 H1 H2. split; [done|]. exists e, effects, events. by rewrite H1. }
  destruct Hs as [n' Ht|Hr' _|k inputs Hk|k inputs Hk|n' _ Ht|input _ Hl|_]; try congruence.
  - unfold reducer_turn in Ht. by rewrite Hr, (waits_none _ _ Hw) in Ht.
  - rewrite Hc in Hk. apply Hgo; [done|]. pose proof (worker_step_more _ _ _ _ _ _ Hk) as Hm.
    destruct e; simpl in *; try done; first [by eapply worker_step_starved | by eapply starved_more].
  - rewrite Hc in Hk. apply Hgo; [done|]. pose proof (worker_step_more _ _ _ _ _ _ Hk) as Hm.
    destruct e; simpl in *; try done; first [by eapply worker_step_starved | by eapply starved_more].
  - destruct (ticker_turn_spec _ _ Ht) as [[Hc' _]|(_ & Hl & ->)]; [congruence|].
    apply Hgo; [done|]. apply (waits_more e n); try done. simpl. rewrite length_app. lia.
  - apply Hgo; [done|]. apply (waits_more e n); try done. simpl. rewrite length_app. lia.
  - by apply Hgo.
Qed.

Lemma blocked_halts w0 n : net_ok w0 n -> blocked n -> halted n.
Proof.
  intros Hok Hb. split.
  { destruct Hb as (e & effects & events & Hr & _). by rewrite Hr. }
  intros n' Hs. revert Hok Hb. induction Hs as [n|n n1 n' H1 Hs IH]; intros Hok Hb; [done|].
  destruct (blocked_step n n1 (no_inputs _ _ Hok) Hb H1) as [Hr Hb1].
  rewrite <- Hr. by apply IH; [eapply net_step_ok|].
Qed.

Lemma blocked_keeps w0 n n' : net_ok w0 n -> blocked n -> rtc (net_step cfg) n n' ->
  nt_handled n' = nt_handled n /\ nt_world n' = nt_world n.
Proof.
  intros Hok Hb Hs. revert Hok Hb. induction Hs as [n|n n1 n' H1 Hs IH]; intros Hok Hb; [done|].
  destruct (blocked_step n n1 (no_inputs _ _ Hok) Hb H1) as [_ Hb1].
  destruct (IH (net_step_ok _ _ _ Hok H1) Hb1) as [-> ->].
  destruct Hb as (e & effects & events & Hr & Hw).
  destruct H1 as [n1 Ht|Hr' _|k inputs Hk|k inputs Hk|n1 _ Ht|input _ Hl|_]; try done.
  - unfold reducer_turn in Ht. by rewrite Hr, (waits_none _ _ Hw) in Ht.
  - by destruct (ticker_turn_spec _ _ Ht) as [[_ ->]|(_ & _ & ->)].
Qed.

(** The steps of a worker are steps of the network. *)
Lemma activation_runs n k inputs :
  closed n = false ->
  rtc (fun x y => worker_step intent_reports false x.1 x.2 y.1 y.2) (nt_activation n, nt_inputs n) (k, inputs) ->
  rtc (net_step cfg) n (n <| nt_activation := k |> <| nt_inputs := inputs |>).
Proof.
  intros Hc. remember (nt_activation n, nt_inputs n) as x eqn:Ex. remember (k, inputs) as y eqn:Ey. intros H.
  revert n Hc Ex. induction H as [x|x [k1 ins1] y H1 _ IH]; intros n Hc ->.
  - injection Ey as <- <-. by destruct n.
  - eapply rtc_l; [apply step_activation; rewrite Hc; exact H1|]. cbn [fst snd].
    pose proof (IH Ey (n <| nt_activation := k1 |> <| nt_inputs := ins1 |>)) as H. by destruct n; apply H.
Qed.

Lemma probe_runs n k inputs :
  closed n = false ->
  rtc (fun x y => worker_step reset_reports false x.1 x.2 y.1 y.2) (nt_probe n, nt_inputs n) (k, inputs) ->
  rtc (net_step cfg) n (n <| nt_probe := k |> <| nt_inputs := inputs |>).
Proof.
  intros Hc. remember (nt_probe n, nt_inputs n) as x eqn:Ex. remember (k, inputs) as y eqn:Ey. intros H.
  revert n Hc Ex. induction H as [x|x [k1 ins1] y H1 _ IH]; intros n Hc ->.
  - injection Ey as <- <-. by destruct n.
  - eapply rtc_l; [apply step_probe; rewrite Hc; exact H1|]. cbn [fst snd].
    pose proof (IH Ey (n <| nt_probe := k1 |> <| nt_inputs := ins1 |>)) as H. by destruct n; apply H.
Qed.

(** When the send of [e] does not wait for the reducer, there comes room. *)
Lemma activation_room w0 n : net_ok w0 n -> closed n = false ->
  length (wk_queue (nt_activation n)) = ACTIVATION_CAPACITY -> ~ starved ACTIVATION_CAPACITY (nt_activation n) (nt_inputs n) ->
  exists n', rtc (net_step cfg) n n' /\ nt_reducer n' = nt_reducer n /\
    forall m, is_Some (push ACTIVATION_CAPACITY m (nt_activation n')).
Proof.
  intros Hok Hc Hl Hw.
  destruct (worker_makes_room intent_reports ACTIVATION_CAPACITY (nt_activation n) (nt_inputs n))
    as (k & ins & Hs & Hk); [apply intents_are_reported|unfold ACTIVATION_CAPACITY; lia|done|done|].
  eexists. split; [by apply (activation_runs _ _ _ Hc Hs)|]. split; [done|]. intros m. by apply push_room.
Qed.

Lemma probe_room w0 n : net_ok w0 n -> closed n = false ->
  length (wk_queue (nt_probe n)) = PROBE_RESET_CAPACITY -> ~ starved PROBE_RESET_CAPACITY (nt_probe n) (nt_inputs n) ->
  exists n', rtc (net_step cfg) n n' /\ nt_reducer n' = nt_reducer n /\
    forall m, is_Some (push PROBE_RESET_CAPACITY m (nt_probe n')).
Proof.
  intros Hok Hc Hl Hw.
  destruct (worker_makes_room reset_reports PROBE_RESET_CAPACITY (nt_probe n) (nt_inputs n))
    as (k & ins & Hs & Hk); [apply resets_are_reported|unfold PROBE_RESET_CAPACITY; lia|done|done|].
  eexists. split; [by apply (probe_runs _ _ _ Hc Hs)|]. split; [done|]. intros m. by apply push_room.
Qed.

Lemma room_comes w0 n e : net_ok w0 n -> closed n = false -> deliver_effect e n = None -> ~ waits_for e n ->
  exists n', rtc (net_step cfg) n n' /\ nt_reducer n' = nt_reducer n /\ is_Some (deliver_effect e n').
Proof.
  intros Hok Hc Hd Hw. pose proof (no_intents _ _ Hok) as Qi. pose proof (no_resets _ _ Hok) as Qr.
  unfold queue_ok in Qi, Qr. destruct e; simpl in Hd, Hw; try done.
  all: destruct (push _ _ _) eqn:Hp; [done|]; apply push_waits in Hp as [_ Hlen].
  1,2: destruct (activation_room w0 n Hok Hc) as (n' & Hs & Hr & Hroom); [lia|done|].
  3: destruct (probe_room w0 n Hok Hc) as (n' & Hs & Hr & Hroom); [lia|done|].
  all: exists n'; split_and!; try done; simpl; by rewrite fmap_is_Some.
Qed.

Lemma turn_moves n n' : reducer_turn cfg n = Some n' -> nt_reducer n' <> nt_reducer n.
Proof.
  unfold reducer_turn. destruct (nt_reducer n) as [|[|e effects] events|] eqn:Er;
    [| destruct events as [|[rid ev] events] | |done].
  - destruct (nt_inputs n); [done|]. destruct (begin_input _ _ _) as [[[s effects] events] w]. by intros [= <-].
  - by intros [= <-].
  - destruct (start_host_event _ _ _ _) as [[s effects] w]. intros [= <-]. simpl. intros [= _ Hl].
    apply (f_equal length) in Hl. simpl in Hl. lia.
  - destruct (deliver_effect e n) as [n1|]; [|done]. intros [= <-]. simpl. intros [= Hl].
    apply (f_equal length) in Hl. simpl in Hl. lia.
Qed.

(** Otherwise the reducer can move on. *)
Lemma halted_blocks w0 n : net_ok w0 n -> halted n -> blocked n.
Proof.
  intros Hok [Hgone Hh].
  assert (Hturn : forall n1, rtc (net_step cfg) n n1 -> reducer_turn cfg n1 = None).
  { intros n1 Hs. destruct (reducer_turn cfg n1) as [n2|] eqn:Ht; [|done]. exfalso.
    apply (turn_moves _ _ Ht). rewrite (Hh n1 Hs). apply Hh. eapply rtc_r; [exact Hs|]. by apply step_reducer. }
  destruct (nt_reducer n) as [|[|e effects] events|] eqn:Er; [| | |done].
  - exfalso. destruct (nt_inputs n) as [|i inputs] eqn:Ei.
    + assert (Hs : net_step cfg n (n <| nt_inputs := nt_inputs n ++ [AgentInput.AgentAdvanceTick] |>)).
      { apply step_other; unfold closed; rewrite ?Er, ?Ei; [done|]. unfold REDUCER_INPUT_CAPACITY. simpl. lia. }
      pose proof (Hturn _ (rtc_once _ _ Hs)) as Ht. unfold reducer_turn in Ht. cbn in Ht.
      rewrite Er, Ei in Ht. discriminate Ht.
    + specialize (Hturn n (rtc_refl _ _)). unfold reducer_turn in Hturn. rewrite Er, Ei in Hturn.
      by destruct (begin_input _ _ _) as [[[s effects] events] w].
  - exfalso. specialize (Hturn n (rtc_refl _ _)). unfold reducer_turn in Hturn. rewrite Er in Hturn.
    destruct events as [|[rid ev] events]; [done|]. by destruct (start_host_event _ _ _ _) as [[s effects] w].
  - exists e, effects, events. split; [done|].
    assert (Hc : closed n = false) by (unfold closed; by rewrite Er).
    destruct (deliver_effect e n) as [n1|] eqn:Hd.
    { specialize (Hturn n (rtc_refl _ _)). unfold reducer_turn in Hturn. by rewrite Er, Hd in Hturn. }
    assert (Hdec : waits_for e n \/ ~ waits_for e n).
    { destruct e; simpl; try apply starved_dec; by right. }
    destruct Hdec as [|Hw]; [done|]. exfalso.
    destruct (room_comes w0 n e Hok Hc Hd Hw) as (n1 & Hs & Hr & [n2 Hd2]).
    specialize (Hturn n1 Hs). unfold reducer_turn in Hturn. by rewrite Hr, Er, Hd2 in Hturn.
Qed.

(** ** The end *)

(** How many steps a worker still has when the reducer is gone. *)
Definition worker_left {M} (k : Worker M) : nat :=
  match wk_phase k with Reporting (_ :: _) _ => 3 | Reporting [] _ => 2 | Waiting => 1 | Ended => 0 end.
Definition steps_left (n : Net) : nat :=
  worker_left (nt_activation n) + worker_left (nt_probe n) + (if nt_ticker n then 1 else 0).

Lemma closed_worker_step {M} (reports : M -> list AgentInput -> bool -> Prop) k inputs k' inputs' :
  worker_step reports true k inputs k' inputs' -> inputs' = inputs /\ worker_left k' < worker_left k.
Proof. inversion 1; subst; try done; split; unfold worker_left; simpl; try done; lia. Qed.

(** The tasks after the return of the reducer. *)
Record wound_up (n n' : Net) : Prop := {
  wu_closed : closed n' = true;
  wu_cancelled : nt_cancelled n' = true;
  wu_reducer : nt_state n' = nt_state n /\ nt_world n' = nt_world n /\ nt_handled n' = nt_handled n;
  wu_taken : wk_taken (nt_activation n') = wk_taken (nt_activation n) /\ wk_taken (nt_probe n') = wk_taken (nt_probe n);
}.

Lemma closed_step n n' : closed n = true -> nt_cancelled n = true -> net_step cfg n n' ->
  wound_up n n' /\ steps_left n' < steps_left n.
Proof.
  intros Hc Hx Hs. assert (Hr : nt_reducer n = Gone) by (unfold closed in Hc; by destruct (nt_reducer n)).
  destruct Hs as [n' Ht|Hr' _|k inputs Hk|k inputs Hk|n' Et Ht|input Hc' _|Hx']; try congruence.
  - unfold reducer_turn in Ht. by rewrite Hr in Ht.
  - rewrite Hc in Hk. pose proof (closed_takes_nothing _ _ _ _ _ Hk).
    destruct (closed_worker_step _ _ _ _ _ Hk) as [-> Hl]. split; [by split|]. unfold steps_left. simpl. lia.
  - rewrite Hc in Hk. pose proof (closed_takes_nothing _ _ _ _ _ Hk).
    destruct (closed_worker_step _ _ _ _ _ Hk) as [-> Hl]. split; [by split|]. unfold steps_left. simpl. lia.
  - destruct (ticker_turn_spec _ _ Ht) as [[_ ->]|[Hc' _]]; [|congruence].
    split; [by split|]. unfold steps_left. simpl. rewrite Et. lia.
Qed.

Lemma wound_up_trans n n1 n2 : wound_up n n1 -> wound_up n1 n2 -> wound_up n n2.
Proof. intros [? ? (? & ? & ?) [? ?]] [? ? (? & ? & ?) [? ?]]. split; [done|done|split_and!; congruence|split; congruence]. Qed.

Lemma closed_steps k n n' : closed n = true -> nt_cancelled n = true -> nsteps (net_step cfg) k n n' ->
  wound_up n n' /\ k + steps_left n' <= steps_left n.
Proof.
  intros Hc Hx H. revert Hc Hx. induction H as [n|k n n1 n' H1 _ IH]; intros Hc Hx; [split; [by split|lia]|].
  destruct (closed_step n n1 Hc Hx H1) as [[Hc1 Hx1 ? ?] Hl].
  destruct (IH Hc1 Hx1) as [Hw Hk]. split; [|lia]. eapply wound_up_trans; [|exact Hw]. by split.
Qed.

Lemma steps_left_bound n : steps_left n <= 7.
Proof.
  unfold steps_left, worker_left.
  destruct (wk_phase (nt_activation n)) as [|[|? ?] ?|], (wk_phase (nt_probe n)) as [|[|? ?] ?|], (nt_ticker n); lia.
Qed.

Lemma worker_goes_on {M} (reports : M -> list AgentInput -> bool -> Prop) k inputs :
  wk_phase k = Ended \/ exists k' inputs', worker_step reports true k inputs k' inputs'.
Proof.
  destruct k as [q t [|[|i p] []|]]; [right|right|right|right|right|by left]; eexists _, _.
  - by apply worker_stops.
  - by apply worker_next.
  - by apply worker_dies.
  - by apply worker_refused.
  - by apply worker_refused.
Qed.

Lemma winds_up n : closed n = true -> nt_cancelled n = true -> exists k n', nsteps (net_step cfg) k n n' /\
  wk_phase (nt_activation n') = Ended /\ wk_phase (nt_probe n') = Ended /\ nt_ticker n' = false.
Proof.
  remember (steps_left n) as l eqn:El. revert n El. induction l as [l IH] using lt_wf_ind; intros n -> Hc Hx.
  assert (Hgo : forall n1, net_step cfg n n1 -> exists k n', nsteps (net_step cfg) k n n' /\
    wk_phase (nt_activation n') = Ended /\ wk_phase (nt_probe n') = Ended /\ nt_ticker n' = false).
  { intros n1 H1. destruct (closed_step n n1 Hc Hx H1) as [[Hc1 Hx1 ? ?] Hl].
    destruct (IH _ Hl n1 eq_refl Hc1 Hx1) as (k & n' & Hs & Hend). exists (S k), n'. split; [by econstructor|done]. }
  destruct (worker_goes_on intent_reports (nt_activation n) (nt_inputs n)) as [Ea|(k & ins & Hk)].
  2:{ eapply Hgo, step_activation. rewrite Hc. exact Hk. }
  destruct (worker_goes_on reset_reports (nt_probe n) (nt_inputs n)) as [Ep|(k & ins & Hk)].
  2:{ eapply Hgo, step_probe. rewrite Hc. exact Hk. }
  destruct (nt_ticker n) eqn:Et.
  { eapply Hgo, step_ticker; [done|]. unfold ticker_turn. by rewrite Hc. }
  exists 0, n. by split; [constructor|].
Qed.

(** The reducer returns when it is told to. *)
Lemma reaches_cancelled w0 n : reaches w0 n -> closed n = true -> nt_cancelled n = true.
Proof.
  revert n. apply (rtc_ind_r (fun n => closed n = true -> nt_cancelled n = true) (spawn w0)); [done|].
  intros n n' _ Hs IH. destruct Hs as [n' Ht|Hr Hx|k inputs Hk|k inputs Hk|n' _ Ht|input Hc' _|Hx']; try done.
  2: by destruct (ticker_turn_spec _ _ Ht) as [[_ ->]|(_ & _ & ->)].
  intros Hc. exfalso. unfold reducer_turn in Ht. destruct (nt_reducer n) as [|[|e effects] events|] eqn:Er;
    [| destruct events as [|[rid ev] events] | |done].
  - destruct (nt_inputs n); [done|]. destruct (begin_input _ _ _) as [[[s effects] events] w]. by injection Ht as <-.
  - by injection Ht as <-.
  - destruct (start_host_event _ _ _ _) as [[s effects] w]. by injection Ht as <-.
  - destruct (deliver_effect e n); [|done]. by injection Ht as <-.
Qed.

End tasks.

(** ** A schedule *)

Section schedule.
Context {O : HashOrder} {Q : QueueCodec} {C : AgentClock} {D : Disk} (cfg : AgentConfig).

(** Moves of single tasks, that do nothing when the task has to wait. *)
Inductive move :=
| Turns (k : nat)                                       (* of the reducer *)
| Offers (input : AgentInput)
| Takes                                                 (* the activation worker, in test mode *)
| Reports
| Cancels
| Returns.

Fixpoint turns (k : nat) (n : Net) : Net :=
  match k with
  | 0 => n
  | S k => match reducer_turn cfg n with Some n' => turns k n' | None => n end
  end.

Definition make (n : Net) (m : move) : Net :=
  match m with
  | Turns k => turns k n
  | Offers input =>
      if closed n then n
      else if decide (length (nt_inputs n) < REDUCER_INPUT_CAPACITY)
      then n <| nt_inputs := nt_inputs n ++ [input] |> else n
  | Takes =>
      match closed n, nt_activation n with
      | false, MkWorker (intent :: queue) taken Waiting =>
          let pending := (handle_intent Linux (sample_machine "old" (fun _ => "old")) true 0 0 intent).1 in
          n <| nt_activation := MkWorker queue (taken ++ [intent])
             (Reporting pending (bool_decide (length pending = if ai_rollback intent then 1 else 2))) |>
            <| nt_inputs := nt_inputs n |>
      | _, _ => n
      end
  | Reports =>
      match closed n, nt_activation n with
      | false, MkWorker queue taken (Reporting (input :: pending) survives) =>
          if decide (length (nt_inputs n) < REDUCER_INPUT_CAPACITY)
          then n <| nt_activation := MkWorker queue taken (Reporting pending survives) |>
                 <| nt_inputs := nt_inputs n ++ [input] |>
          else n
      | _, _ => n
      end
  | Cancels => if nt_cancelled n then n else n <| nt_cancelled := true |>
  | Returns =>
      match nt_reducer n, nt_cancelled n with
      | Selecting, true => n <| nt_reducer := Gone |> <| nt_inputs := [] |>
      | _, _ => n
      end
  end.

Lemma turns_run k n : rtc (net_step cfg) n (turns k n).
Proof.
  revert n. induction k as [|k IH]; intros n; simpl; [done|].
  destruct (reducer_turn cfg n) as [n'|] eqn:E; [|done]. eapply rtc_l; [by apply step_reducer | apply IH].
Qed.

Lemma activation_move n k inputs :
  worker_step intent_reports (closed n) (nt_activation n) (nt_inputs n) k inputs ->
  rtc (net_step cfg) n (n <| nt_activation := k |> <| nt_inputs := inputs |>).
Proof. intros H. by apply rtc_once, step_activation. Qed.

Lemma make_run n m : rtc (net_step cfg) n (make n m).
Proof.
  destruct m as [k|input| | | |]; cbn [make].
  - apply turns_run.
  - destruct (closed n) eqn:Hc; [done|]. destruct (decide _); [|done]. by apply rtc_once, step_other.
  - destruct (closed n) eqn:Hc; [done|]. destruct (nt_activation n) as [[|intent queue] taken []] eqn:Hw; try done.
    apply activation_move. rewrite Hc, Hw. apply worker_take; [done|].
    by exists Linux, (sample_machine "old" (fun _ => "old")), true, 0%Z, 0%Z.
  - destruct (closed n) eqn:Hc; [done|]. destruct (nt_activation n) as [queue taken [|[|i p] b|]] eqn:Hw; try done.
    destruct (decide _); [|done]. apply activation_move. rewrite Hc, Hw. by apply worker_send.
  - destruct (nt_cancelled n) eqn:Hx; [done|]. by apply rtc_once, step_cancel.
  - destruct (nt_reducer n) eqn:Hr, (nt_cancelled n) eqn:Hx; try done. by apply rtc_once, step_return.
Qed.

Lemma moves_run l n : rtc (net_step cfg) n (fold_left make l n).
Proof.
  revert n. induction l as [|m l IH]; intros n; [done|]. cbn [fold_left]. etrans; [apply make_run | apply IH].
Qed.

End schedule.

(** Six rollouts are dispatched while the first activation runs, and the timers
    and probes of the next minutes fill the channel. *)
Definition dispatch_of (ref : string) : AgentInput :=
  AgentInput.HostEvent (rollout_id.new "stable" ref)
    (Event.LocalActivate "/nix/store/old" ("/nix/store/" ++ ref) 0 (duration_minutes 600) 0).

Definition six_dispatches : list move :=
  [Offers (AgentInput.ManifestSetUpdated staged_manifests); Offers (dispatch_of "r1"); Turns 20; Takes; Reports] ++
  (Offers <$> (dispatch_of <$> ["r2"; "r3"; "r4"; "r5"; "r6"])) ++ [Turns 60] ++
  replicate 64 (Offers AgentInput.AgentAdvanceTick) ++ [Reports; Cancels].

Definition crowded : @Net plain_codec :=
  fold_left (make (O := list_order) (Q := plain_codec) (C := sample_agent_clock) (D := sample_disk) sample_cfg)
    six_dispatches (@spawn plain_codec sample_world).

Lemma crowded_phase :
  exists e effects, nt_reducer crowded = Applying (e :: effects) [] /\
    e = Effect.LocalFireSwitch (rollout_id.new "stable" "r6") "/nix/store/r6" /\
    length (nt_inputs crowded) = 64 /\ length (wk_queue (nt_activation crowded)) = 4 /\
    exists input, wk_phase (nt_activation crowded) = Reporting [input] true.
Proof. vm_compute. eexists _, _. split_and!; try reflexivity. by eexists. Qed.

Lemma crowded_reaches : reaches (O := list_order) (Q := plain_codec) (C := sample_agent_clock)
  (D := sample_disk) sample_cfg sample_world crowded.
Proof. apply moves_run. Qed.

Lemma crowded_blocked : blocked crowded.
Proof.
  destruct crowded_phase as (e & effects & Hr & He & Hin & Hq & i & Hp). exists e, effects, [].
  split; [exact Hr|]. rewrite He. split; [exact Hq|]. exists [i], true. split; [exact Hp|].
  rewrite Hin. unfold REDUCER_INPUT_CAPACITY. simpl. lia.
Qed.

(** An idle agent that is told to stop. *)
Definition stopped : @Net plain_codec :=
  fold_left (make (O := list_order) (Q := plain_codec) (C := sample_agent_clock) (D := sample_disk) sample_cfg)
    [Cancels; Returns] (@spawn plain_codec sample_world).

Lemma stopped_reaches : reaches (O := list_order) (Q := plain_codec) (C := sample_agent_clock)
  (D := sample_disk) sample_cfg sample_world stopped.
Proof. apply moves_run. Qed.

(** The reports of the probe worker are those of [AgentProbes]. *)
Lemma probe_worker_reports {O : HashOrder} {Cr : Crypto} {E : ProbeEnv}
    {Dd : DeserializeOwned (gmap string ProbeDeclJson)} cmd (w : ProbeWorker) :
  exists pending, reset_reports cmd pending true /\ pw_sent (handle_reset cmd false w) = pw_sent w ++ pending.
Proof.
  unfold handle_reset. destruct (read_declarations _) as [[[decls|]| |] k]; simpl.
  - eexists. split; [|done]. split; [done|]. right. by eexists _, _.
  - exists []. rewrite app_nil_r. by split; [split; [|left]|].
  - exists []. rewrite app_nil_r. by split; [split; [|left]|].
  - exists []. rewrite app_nil_r. by split; [split; [|left]|].
Qed.

(** ** Properties *)

(** C29.  The tasks do what the reducer says.  However the reducer, its workers and
    the other tasks interleave, no channel exceeds its capacity; between two inputs
    the records, the clock readings, the writes and the queue are those of the
    reducer run on the inputs handled so far, and within one the rest of it leads
    there; and each worker was handed, in order, exactly what the reducer fired, as
    long as it lives. *)
Theorem tasks_run_the_reducer {O : HashOrder} {Q : QueueCodec} {C : AgentClock} {D : Disk}
    (cfg : AgentConfig) (w0 : AgentWorld) (n : Net) :
  reaches cfg w0 n ->
  length (nt_inputs n) <= REDUCER_INPUT_CAPACITY /\
  length (wk_queue (nt_activation n)) <= ACTIVATION_CAPACITY /\
  length (wk_queue (nt_probe n)) <= PROBE_RESET_CAPACITY /\
  settle cfg n = agent_run cfg agent_initial (nt_handled n) w0 /\
  (nt_reducer n = Selecting -> (nt_state n, nt_world n) = agent_run cfg agent_initial (nt_handled n) w0) /\
  told (aw_intents w0) (aw_intents (nt_world n)) (nt_activation n) /\
  told (aw_resets w0) (aw_resets (nt_world n)) (nt_probe n).
Proof.
  intros H. destruct (reaches_ok _ _ _ H) as [H1 H2 H3 H4 H5 H6]. split_and!; try done.
  intros Hr. revert H1. unfold settle. by rewrite Hr.
Qed.

Lemma tasks_run_the_reducer_witness :
  let run := agent_run (O := list_order) (Q := plain_codec) (C := sample_agent_clock) (D := sample_disk)
    sample_cfg agent_initial (nt_handled crowded) sample_world in
  length (nt_handled crowded) = 8 /\
  settle (Q := plain_codec) (C := sample_agent_clock) (D := sample_disk) sample_cfg crowded = run /\
  length (aw_intents run.2) = 6 /\
  told (aw_intents sample_world) (aw_intents (nt_world crowded)) (nt_activation crowded).
Proof.
  intros run. split; [by vm_compute|].
  destruct (tasks_run_the_reducer (O := list_order) (Q := plain_codec) (C := sample_agent_clock)
    (D := sample_disk) sample_cfg sample_world crowded crowded_reaches) as (_ & _ & _ & H & _ & Ha & _).
  split; [exact H|]. split; [by vm_compute | exact Ha].
Defined.

(** C30.  When the agent stops for ever.  The reducer never moves again, whatever
    happens, exactly when it sends to a worker whose channel is full while that
    worker has more to report than the reducer's channel has room for.  It can
    happen: six rollouts dispatched during one activation suffice, when the channel
    fills up behind the sixth.  A reducer that waits does not look at the
    cancellation either, so such an agent does not shut down. *)
Theorem halts_iff_blocked {O : HashOrder} {Q : QueueCodec} {C : AgentClock} {D : Disk}
    (cfg : AgentConfig) (w0 : AgentWorld) (n : Net) :
  reaches cfg w0 n ->
  (halted cfg n <-> blocked n) /\
  (halted cfg n -> forall n', rtc (net_step cfg) n n' ->
     closed n' = false /\ nt_handled n' = nt_handled n /\ nt_world n' = nt_world n).
Proof.
  intros H. pose proof (reaches_ok _ _ _ H) as Hok.
  assert (Hiff : halted cfg n <-> blocked n) by (split; [by eapply halted_blocks | by eapply blocked_halts]).
  split; [exact Hiff|]. intros Hh n' Hs. destruct Hh as [Hg Hh]. split.
  { unfold closed. rewrite (Hh n' Hs). by destruct (nt_reducer n). }
  assert (Hb : blocked n) by (apply Hiff; by split). by eapply blocked_keeps.
Qed.

Lemma halts_iff_blocked_witness :
  nt_cancelled crowded = true /\ length (nt_handled crowded) = 8 /\
  halted (O := list_order) (Q := plain_codec) (C := sample_agent_clock) (D := sample_disk) sample_cfg crowded.
Proof.
  split; [by vm_compute|]. split; [by vm_compute|].
  destruct (halts_iff_blocked (O := list_order) (Q := plain_codec) (C := sample_agent_clock)
    (D := sample_disk) sample_cfg sample_world crowded crowded_reaches) as [[_ H] _].
  apply H, crowded_blocked.
Defined.

(** The shutdown of the agent.  Once the reducer has returned, whatever is left
    in the channels, no worker starts another message, so no switch and no rollback
    begins; nothing changes the records or the queue; and all tasks end within
    seven steps. *)
Theorem tasks_wind_up {O : HashOrder} {Q : QueueCodec} {C : AgentClock} {D : Disk}
    (cfg : AgentConfig) (w0 : AgentWorld) (n : Net) :
  reaches cfg w0 n -> closed n = true ->
  (forall k n', nsteps (net_step cfg) k n n' -> k <= 7 /\ wound_up n n') /\
  exists k n', nsteps (net_step cfg) k n n' /\
    wk_phase (nt_activation n') = Ended /\ wk_phase (nt_probe n') = Ended /\ nt_ticker n' = false.
Proof.
  intros H Hc. pose proof (reaches_cancelled _ _ _ H Hc) as Hx. split.
  - intros k n' Hs. destruct (closed_steps _ _ _ _ Hc Hx Hs) as [Hw Hk]. split; [|done].
    pose proof (steps_left_bound n). lia.
  - by apply winds_up.
Qed.

Lemma tasks_wind_up_witness :
  closed stopped = true /\
  exists k (n' : @Net plain_codec), nsteps (net_step (O := list_order) (Q := plain_codec) (C := sample_agent_clock)
    (D := sample_disk) sample_cfg) k stopped n' /\ k <= 7 /\ wk_phase (nt_activation n') = Ended.
Proof.
  split; [done|].
  destruct (tasks_wind_up (O := list_order) (Q := plain_codec) (C := sample_agent_clock) (D := sample_disk)
    sample_cfg sample_world stopped stopped_reaches eq_refl) as [H1 (k & n' & Hs & Ha & _)].
  exists k, n'. split; [done|]. split; [by apply (H1 k n')|done].
Defined.


