(* ===== verification/Release.v ===== *)
(** * The release tool

    Models [crates/nixfleet-release/src/]: [lib.rs], [sign.rs], [git.rs] and the
    argument parsers of [main.rs].  The tool runs [nix], [git] and the operator's
    hooks, and writes the signed artifacts the control plane and the agents
    verify.  What the commands, the clock and the file system answer is the class
    [ReleaseEnv], by the number of questions asked before; the files of the
    release directory, that number and everything done are the state of
    [ReleaseM]. *)

From S2P Require Import Prelude RustStd Proto Gates Verify Manifest Issuance.
From stdpp Require Import pretty.

(** ** Configuration *)

Inductive HostsSpec :=
| Auto
| AutoExclude (exclude : list string)
| Explicit (list : list string).

Inductive HostKind := Nixos | Darwin.

Definition attr_prefix (kind : HostKind) : string :=
  match kind with
  | Nixos => "nixosConfigurations"
  | Darwin => "darwinConfigurations"
  end.

Record GitPushTarget := MkGitPushTarget {
  gp_remote : string;
  gp_branch : string;
}.

Record ReleaseConfig := MkReleaseConfig {
  rc_flake_dir : string;
  rc_fleet_resolved_attr : string;
  rc_hosts : HostsSpec;
  rc_push_cmd : option string;
  rc_sign_cmd : string;
  rc_signature_algorithm : string;
  rc_release_dir : string;
  rc_artifact_name : string;
  rc_git_commit : bool;
  rc_git_push : option GitPushTarget;
  rc_commit_template : string;
  rc_git_user_name : option string;
  rc_git_user_email : option string;
  rc_smoke_verify : bool;
  rc_reuse_unchanged_signature : bool;
  rc_revocations_attr : option string;
  rc_bootstrap_nonces_attr : option string;
  rc_pin_source_url : option string;
}.

Inductive RunOutcome :=
| Released (commit_sha : option string) (hosts : list string)
| NoChange.

#[export] Instance ReleaseConfig_eta : Etaexp ReleaseConfig := fun c =>
  MkReleaseConfig (rc_flake_dir c) (rc_fleet_resolved_attr c) (rc_hosts c) (rc_push_cmd c) (rc_sign_cmd c)
    (rc_signature_algorithm c) (rc_release_dir c) (rc_artifact_name c) (rc_git_commit c) (rc_git_push c)
    (rc_commit_template c) (rc_git_user_name c) (rc_git_user_email c) (rc_smoke_verify c)
    (rc_reuse_unchanged_signature c) (rc_revocations_attr c) (rc_bootstrap_nonces_attr c) (rc_pin_source_url c).

(** ** Commands, files and the monad *)

(** A command with what tells it apart: the arguments, the directory and the
    variables of a hook.  The sign hook gets its input in a temporary file. *)
Inductive Command :=
| Nix (args : list string) (dir : option string)
| Git (args : list string) (dir : string)
| PushHook (cmd host path closure_hash : string)
| SignHook (cmd input : string).

(** How a command ends, with the bytes of its streams. *)
Inductive CommandEnd :=
| NotInvoked (err : string)
| Finished (code : option i32) (stdout stderr : string).

Definition success (code : option i32) : bool := bool_decide (code = Some 0%Z).

Class ReleaseEnv := {
  re_now : nat -> DateTime;
  re_run : nat -> Command -> CommandEnd;
  re_signature : nat -> string -> string -> string;   (* what the sign hook leaves in its output file *)
  re_io : nat -> option string;                       (* the error of an operation on files *)
  re_debug : string -> string;                        (* [{:?}] *)
  re_debug_args : list string -> string;
  re_lossy : string -> string;                        (* [from_utf8_lossy] *)
  re_to_lowercase : string -> string;
  re_to_rfc3339 : DateTime -> string;
}.

Inductive Action :=
| Ran (c : Command)
| Wrote (path bytes : string).

Record ReleaseWorld := MkReleaseWorld {
  rw_files : gmap string string;
  rw_asked : nat;
  rw_trace : list Action;
}.
#[export] Instance ReleaseWorld_eta : Etaexp ReleaseWorld := fun w =>
  MkReleaseWorld (rw_files w) (rw_asked w) (rw_trace w).

(** A call of [anyhow::Result]: the error is its chain of contexts as text. *)
Definition ReleaseM (A : Type) : Type := ReleaseWorld -> ended (result A string) * ReleaseWorld.

#[export] Instance ReleaseM_ret : MRet ReleaseM := fun A a w => (Returned (Ok a), w).
#[export] Instance ReleaseM_bind : MBind ReleaseM := fun A B k m w =>
  match m w with
  | (Returned (Ok a), w) => k a w
  | (Returned (Err e), w) => (Returned (Err e), w)
  | (Panicked, w) => (Panicked, w)
  | (OutOfFuel, w) => (OutOfFuel, w)
  end.

Definition bail {A} (e : string) : ReleaseM A := fun w => (Returned (Err e), w).

Definition from_result {A} (r : result A string) : ReleaseM A := fun w => (Returned r, w).

(** [.ok()] of a call. *)
Definition attempt {A} (m : ReleaseM A) : ReleaseM (option A) := fun w =>
  match m w with
  | (Returned (Ok a), w) => (Returned (Ok (Some a)), w)
  | (Returned (Err _), w) => (Returned (Ok None), w)
  | (Panicked, w) => (Panicked, w)
  | (OutOfFuel, w) => (OutOfFuel, w)
  end.

Definition with_context {A} (text : string) (m : ReleaseM A) : ReleaseM A := fun w =>
  match m w with
  | (Returned (Err e), w) => (Returned (Err (text +:+ ": " +:+ e)), w)
  | r => r
  end.

(** What the tool asks for is told apart by the questions before. *)
Definition consult {A} (answer : nat -> A) : ReleaseM A := fun w =>
  (Returned (Ok (answer (rw_asked w))), w <| rw_asked := S (rw_asked w) |>).

Definition acted (a : Action) : ReleaseM unit := fun w =>
  (Returned (Ok tt), w <| rw_trace := rw_trace w ++ [a] |>).

Definition each {A} (f : A -> ReleaseM unit) : list A -> ReleaseM unit :=
  foldr (fun a rest => f a ;; rest) (mret tt).

#[export] Instance Host_eta : Etaexp Host := fun h =>
  MkHost (host_system h) (host_tags h) (host_channel h) (host_closure_hash h) (host_pubkey h) (host_pin h).
#[export] Instance Meta_eta : Etaexp Meta := fun m =>
  MkMeta (meta_schema_version m) (meta_signed_at m) (meta_ci_commit m) (meta_signature_algorithm m).

(** Serialisation of a type that derives [Serialize] ([serde_json::to_string]). *)
Class SerializeJson (T : Type) := json_to_string : T -> result string string.

Section release.
Context {O : HashOrder} {Cr : Crypto} {R : ReleaseEnv}.

Definition command (c : Command) : ReleaseM CommandEnd :=
  ending ← consult (fun n => re_run n c);
  match ending with
  | NotInvoked _ => mret ending
  | Finished _ _ _ => acted (Ran c) ;; mret ending
  end.

(** An operation on files that changes nothing here. *)
Definition io : ReleaseM unit :=
  failure ← consult re_io;
  match failure with Some e => bail e | None => mret tt end.

Definition files : ReleaseM (gmap string string) := fun w => (Returned (Ok (rw_files w)), w).

(** [Path::exists]: a failing look counts as absence. *)
Definition exists_ (path : string) : ReleaseM bool :=
  failure ← consult re_io;
  store ← files;
  mret match failure with Some _ => false | None => bool_decide (is_Some (store !! path)) end.

Definition read (path : string) : ReleaseM string :=
  io ;;
  store ← files;
  match store !! path with
  | Some bytes => mret bytes
  | None => bail "No such file or directory (os error 2)"
  end.

(** A rename over [path]. *)
Definition persist (path bytes : string) : ReleaseM unit :=
  io ;;
  (fun w => (Returned (Ok tt), w <| rw_files := <[ path := bytes ]> (rw_files w) |>)) ;;
  acted (Wrote path bytes).

(** ** Signing and writing ([sign.rs]) *)

Definition canonicalize_with (what text : string) : ReleaseM string :=
  with_context what (from_result (canonicalize text)).

Definition canonicalize_resolved {Js : SerializeJson FleetResolved} (resolved : FleetResolved) : ReleaseM string :=
  raw ← with_context "serialize FleetResolved before canonicalize" (from_result (json_to_string resolved));
  canonicalize_with "canonicalize fleet.resolved" raw.

Definition display_code (code : option i32) : string := pretty (default (-1)%Z code).

Definition sign (cmd canonical : string) : ReleaseM string :=
  with_context "create tempfile for canonical bytes" io ;;
  with_context "create tempfile for signature" io ;;
  with_context "write canonical bytes to tempfile" io ;;
  attempt io ;;
  ending ← command (SignHook cmd canonical);
  match ending with
  | NotInvoked err => bail ("invoke sign hook (" +:+ re_debug cmd +:+ "): " +:+ err)
  | Finished code _ _ =>
      if negb (success code) then
        bail ("sign hook exited " +:+ display_code code +:+ " (" +:+ re_debug cmd +:+ ")")
      else
        with_context "read signature output" io ;;
        sig ← consult (fun n => re_signature n cmd canonical);
        if bool_decide (sig = "") then
          bail "sign hook produced 0-byte signature - refusing to publish"
        else mret sig
  end.

Definition smoke_verify {Js : SerializeJson FleetResolved} {De : DeserializeOwned FleetResolved}
    (canonical signature : string) : ReleaseM unit :=
  parsed ← with_context "smoke verify: canonical bytes don't parse as FleetResolved"
             (from_result (from_str canonical));
  recanonical ← with_context "smoke verify: re-canonicalize failed" (canonicalize_resolved parsed);
  if negb (bool_decide (recanonical = canonical)) then
    bail "smoke verify: canonicalization is not byte-stable round-trip"
  else if bool_decide (signature = "") then bail "smoke verify: empty signature"
  else mret tt.

(** The temporary file is in the directory of [path], and renamed over it. *)
Definition atomic_write (path bytes : string) : ReleaseM unit :=
  let dir := default "." (parent path) in
  with_context ("tempfile in " +:+ dir) io ;;
  with_context "write release tempfile" io ;;
  with_context ("rename tempfile to " +:+ path) (persist path bytes).

Definition write_release (release_dir artifact_name canonical signature : string) : ReleaseM unit :=
  with_context ("create release dir " +:+ release_dir) io ;;
  let artifact_path := path_join release_dir artifact_name in
  let signature_path := path_join release_dir (artifact_name +:+ ".sig") in
  atomic_write artifact_path canonical ;;
  atomic_write signature_path signature.

(** The signature on disk when it is that of the same bytes, else a new one. *)
Definition signature_for (config : ReleaseConfig) (what path sig_path canonical : string) : ReleaseM string :=
  here ← exists_ path;
  sig_here ← (if here : bool then exists_ sig_path else mret false);
  same ← (if sig_here : bool then
            existing ← attempt (read path);
            mret (bool_decide (existing = Some canonical))
          else mret false);
  if same : bool then with_context ("read existing " +:+ what +:+ " signature") (read sig_path)
  else sign (rc_sign_cmd config) canonical.

(** Signs [text] in its canonical form and writes the pair. *)
Definition publish (config : ReleaseConfig) (dir name what canonical : string) : ReleaseM (list string) :=
  let path := path_join dir name in
  let sig_path := path_join dir (name +:+ ".sig") in
  sig_bytes ← signature_for config what path sig_path canonical;
  write_release dir name canonical sig_bytes ;;
  mret [path; sig_path].

(** ** Git ([git.rs]) *)

Definition run_git (repo : string) (args : list string) : ReleaseM unit :=
  ending ← command (Git args repo);
  match ending with
  | NotInvoked err => bail ("invoke git " +:+ re_debug_args args +:+ ": " +:+ err)
  | Finished code _ _ =>
      if success code then mret tt
      else bail ("git " +:+ re_debug_args args +:+ " exited " +:+ display_code code)
  end.

Definition git_head_sha (repo : string) : ReleaseM string :=
  ending ← command (Git ["rev-parse"; "HEAD"] repo);
  match ending with
  | NotInvoked err => bail ("invoke `git rev-parse HEAD`: " +:+ err)
  | Finished code stdout stderr =>
      if negb (success code) then bail ("git rev-parse HEAD: " +:+ re_lossy stderr)
      else mret (trim (re_lossy stdout))
  end.

Definition render_commit_message (template sha : string) (ts : DateTime) : ended string :=
  bind_ended (if 8 <=? String.length sha then slice_to 8 sha else Returned sha) (fun short =>
  Returned (replace "{ts}" (re_to_rfc3339 ts) (replace "{sha}" sha (replace "{sha:0:8}" short template)))).

Definition git_commit_release (config : ReleaseConfig) (paths : list string) (ci_commit : option string)
    (signed_at : DateTime) : ReleaseM bool :=
  let repo := rc_flake_dir config in
  match rc_git_user_name config with
  | Some name => run_git repo ["config"; "user.name"; name]
  | None => mret tt
  end ;;
  match rc_git_user_email config with
  | Some email => run_git repo ["config"; "user.email"; email]
  | None => mret tt
  end ;;
  let file_strs := (fun p => re_lossy (default p (strip_path_prefix repo p))) <$> paths in
  run_git repo (["add"; "--"] ++ file_strs) ;;
  cached_diff ← command (Git (["diff"; "--cached"; "--quiet"; "--"] ++ file_strs) repo);
  match cached_diff with
  | NotInvoked err => bail ("invoke `git diff --cached --quiet`: " +:+ err)
  | Finished code _ _ =>
      if success code then mret false
      else
        message ← (fun w => (bind_ended (render_commit_message (rc_commit_template config)
                                           (default "HEAD" ci_commit) signed_at)
                               (fun m => Returned (Ok m)), w));
        run_git repo ["commit"; "-m"; message] ;;
        mret true
  end.

Definition git_push_release (repo : string) (target : GitPushTarget) : ReleaseM unit :=
  run_git repo ["push"; gp_remote target; "HEAD:" +:+ gp_branch target].

(** ** What nix evaluates and builds *)

Definition eval_json {T} {De : DeserializeOwned T} (config : ReleaseConfig) (attr parse_context : string)
    : ReleaseM T :=
  ending ← command (Nix ["eval"; "--json"; "--no-warn-dirty"; attr] (Some (rc_flake_dir config)));
  match ending with
  | NotInvoked err => bail ("invoke `nix eval " +:+ attr +:+ "`: " +:+ err)
  | Finished code stdout stderr =>
      if negb (success code) then bail ("nix eval " +:+ attr +:+ ": " +:+ re_lossy stderr)
      else with_context parse_context (from_result (from_str stdout))
  end.

Definition eval_revocations {De : DeserializeOwned (list RevocationEntry)} (config : ReleaseConfig)
    (attr : string) : ReleaseM (list RevocationEntry) :=
  eval_json config (".#" +:+ attr) ("parse revocations from `nix eval .#" +:+ attr +:+ "`").

Definition eval_bootstrap_nonces {De : DeserializeOwned (list BootstrapNonceEntry)} (config : ReleaseConfig)
    (attr : string) : ReleaseM (list BootstrapNonceEntry) :=
  eval_json config (".#" +:+ attr) ("parse bootstrap nonces from `nix eval .#" +:+ attr +:+ "`").

Definition eval_fleet_resolved {De : DeserializeOwned FleetResolved} (config : ReleaseConfig)
    : ReleaseM FleetResolved :=
  let attr := rc_fleet_resolved_attr config in
  eval_json config attr ("parse " +:+ attr +:+ " as FleetResolved").

Definition is_missing (stderr : string) : bool :=
  let lowered := re_to_lowercase stderr in
  existsb (fun needle => contains needle lowered)
    [ "does not provide attribute"; "has no attribute"; "attribute 'darwinconfigurations' missing";
      "attribute 'nixosconfigurations' missing" ].

Definition list_attr_optional {De : DeserializeOwned (list string)} (flake_dir attr_path : string)
    : ReleaseM (list string) :=
  let attr := ".#" +:+ attr_path in
  ending ← command (Nix ["eval"; "--json"; "--no-warn-dirty"; attr; "--apply"; "builtins.attrNames"]
                      (Some flake_dir));
  match ending with
  | NotInvoked err => bail ("invoke `nix eval " +:+ attr +:+ "`: " +:+ err)
  | Finished code stdout stderr =>
      if negb (success code) then
        let stderr := re_lossy stderr in
        if is_missing stderr then mret [] else bail ("nix eval " +:+ attr +:+ ": " +:+ stderr)
      else with_context ("parse JSON from `nix eval " +:+ attr +:+ "`") (from_result (from_str stdout))
  end.

Definition of_kind (kind : HostKind) (names : list string) : list (string * HostKind) :=
  (fun n => (n, kind)) <$> names.

Definition classify (flake_dir : string) (nixos darwin : list string) (n : string)
    : result (string * HostKind) string :=
  match mem_str n nixos, mem_str n darwin with
  | true, false => Ok (n, Nixos)
  | false, true => Ok (n, Darwin)
  | true, true =>
      Err ("host '" +:+ n +:+ "' is declared in both nixosConfigurations and darwinConfigurations" +:+
           " - disambiguate before releasing")
  | false, false =>
      Err ("host '" +:+ n +:+ "' is in neither nixosConfigurations nor darwinConfigurations of flake " +:+
           flake_dir)
  end.

Definition select_hosts (flake_dir : string) (spec : HostsSpec) (nixos darwin : list string)
    : result (list (string * HostKind)) string :=
  match spec with
  | Auto => Ok (of_kind Nixos nixos ++ of_kind Darwin darwin)
  | AutoExclude exclude =>
      let kept names := List.filter (fun h => negb (mem_str h exclude)) names in
      Ok (of_kind Nixos (kept nixos) ++ of_kind Darwin (kept darwin))
  | Explicit list => collect_results (classify flake_dir nixos darwin <$> list)
  end.

Definition sorted_names (names : list string) : list string := dedup (merge_sort (≤)%string names).

Definition enumerate_hosts {De : DeserializeOwned (list string)} (config : ReleaseConfig)
    : ReleaseM (list (string * HostKind)) :=
  nixos ← list_attr_optional (rc_flake_dir config) "nixosConfigurations";
  darwin ← list_attr_optional (rc_flake_dir config) "darwinConfigurations";
  from_result (select_hosts (rc_flake_dir config) (rc_hosts config) (sorted_names nixos) (sorted_names darwin)).

Definition filter_expired_pins (resolved : FleetResolved) (now : DateTime) : FleetResolved :=
  resolved <| fr_hosts := (fun host =>
    match host_pin host with
    | Some pin =>
        match pin_expires_at pin with
        | Some expires => if Z.leb expires now then host <| host_pin := None |> else host
        | None => host
        end
    | None => host
    end) <$> fr_hosts resolved |>.

(** The commit a host is pinned to, when it is not the current one. *)
Definition pin_target_commit (resolved : FleetResolved) (host : string) (current_commit : option string)
    : option string :=
  h ← fr_hosts resolved !! host;
  pin ← host_pin h;
  if bool_decide (Some (pin_commit pin) = current_commit) then None else Some (pin_commit pin).

Definition needs_source (current_commit : option string) (entry : string * Host) : option string :=
  let '(name, host) := entry in
  pin ← host_pin host;
  if bool_decide (Some (pin_commit pin) <> current_commit) then Some name else None.

Definition validate_pin_source_url (config : ReleaseConfig) (resolved : FleetResolved)
    (current_commit : option string) : result unit string :=
  match rc_pin_source_url config with
  | Some _ => Ok tt
  | None =>
      let needs := omap (needs_source current_commit) (hash_iter (fr_hosts resolved)) in
      if is_empty needs then Ok tt
      else Err ("--pin-source-url is required: hosts with non-current-commit pins (" +:+
                String.concat ", " needs +:+ ") can't be built without a source URL")
  end.

Definition interpret_build_output (attr : string) (code : option i32) (stdout stderr : string)
    : result string string :=
  if negb (success code) then Err ("nix build " +:+ attr +:+ ": " +:+ re_lossy stderr)
  else
    let path := trim (re_lossy stdout) in
    if bool_decide (path = "") then Err ("nix build " +:+ attr +:+ ": empty output") else Ok path.

Definition nix_build (attr : string) (dir : option string) : ReleaseM string :=
  ending ← command (Nix ["build"; "--no-link"; "--print-out-paths"; "--no-warn-dirty"; attr] dir);
  match ending with
  | NotInvoked err => bail ("invoke `nix build " +:+ attr +:+ "`: " +:+ err)
  | Finished code stdout stderr => from_result (interpret_build_output attr code stdout stderr)
  end.

Definition build_local (flake_dir attr : string) : ReleaseM string := nix_build attr (Some flake_dir).

Definition toplevel (kind : HostKind) (host : string) : string :=
  attr_prefix kind +:+ "." +:+ host +:+ ".config.system.build.toplevel".

Definition build_pinned (pin_source_url commit : string) (kind : HostKind) (host : string) : ReleaseM string :=
  nix_build (pin_source_url +:+ "?rev=" +:+ commit +:+ "#" +:+ toplevel kind host) None.

Definition build_host (config : ReleaseConfig) (resolved : FleetResolved) (current_commit : option string)
    (host : string) (kind : HostKind) : ReleaseM string :=
  match pin_target_commit resolved host current_commit with
  | None =>
      with_context ("build host " +:+ host) (build_local (rc_flake_dir config) (".#" +:+ toplevel kind host))
  | Some commit =>
      match rc_pin_source_url config with
      | None =>
          bail ("host '" +:+ host +:+ "' is pinned to commit '" +:+ commit +:+
                "' but --pin-source-url is unset")
      | Some url =>
          with_context ("build pinned host " +:+ host +:+ " @ " +:+ commit) (build_pinned url commit kind host)
      end
  end.

Fixpoint build_hosts (config : ReleaseConfig) (resolved : FleetResolved) (current_commit : option string)
    (hosts : list (string * HostKind)) (out : gmap string string) : ReleaseM (gmap string string) :=
  match hosts with
  | [] => mret out
  | (host, kind) :: hosts =>
      path ← build_host config resolved current_commit host kind;
      build_hosts config resolved current_commit hosts (<[ host := path ]> out)
  end.

Definition closure_hash (path : string) : string :=
  default "" (name ← file_name path; from_utf8 name).

Definition push_one (cmd host path closure_hash : string) : ReleaseM unit :=
  ending ← command (PushHook cmd host path closure_hash);
  match ending with
  | NotInvoked err => bail ("invoke push hook for " +:+ host +:+ ": " +:+ err)
  | Finished code _ _ =>
      if success code then mret tt
      else bail ("push hook for " +:+ host +:+ " exited " +:+ display_code code +:+ " (" +:+
                 re_debug cmd +:+ ")")
  end.

(** ** The artifacts *)

(** Hosts the fleet does not know are skipped. *)
Definition inject_closure_hashes (resolved : FleetResolved) (hashes : gmap string string) : FleetResolved :=
  fold_left (fun resolved '(host, hash) =>
      resolved <| fr_hosts := alter (fun h => h <| host_closure_hash := Some hash |>) host (fr_hosts resolved) |>)
    (btree_iter hashes) resolved.

Definition stamp_meta (resolved : FleetResolved) (signed_at : DateTime) (ci_commit : option string)
    (signature_algorithm : string) : FleetResolved :=
  let meta := (fr_meta resolved) <| meta_signed_at := Some signed_at |>
                               <| meta_ci_commit := ci_commit |>
                               <| meta_signature_algorithm := Some signature_algorithm |> in
  resolved <| fr_meta := meta |>.

Definition load_existing_signed_at_if_unchanged {De : DeserializeOwned FleetResolved} (release_path : string)
    (resolved : FleetResolved) : ReleaseM (option DateTime) :=
  here ← exists_ release_path;
  if negb here then mret None
  else
    raw ← with_context ("read existing release " +:+ release_path)
            (bytes ← read release_path;
             match from_utf8 bytes with
             | Some raw => mret raw
             | None => bail "stream did not contain valid UTF-8"
             end);
    existing ← with_context "parse existing release file" (from_result (from_str raw));
    if bool_decide (host_closure_hash <$> fr_hosts resolved = host_closure_hash <$> fr_hosts existing) then
      mret (meta_signed_at (fr_meta existing))
    else mret None.

Definition sha256_hex (bytes : string) : string := hex_lowercase (sha256 bytes).

(** Entries past their expiry at the time of signing are left out. *)
Definition prune_expired_bootstrap_nonces (entries : list BootstrapNonceEntry) (signed_at : DateTime)
    : list BootstrapNonceEntry :=
  List.filter (fun e => Z.leb signed_at (bn_expires_at e)) entries.

Section pipeline.
Context {Df : DeserializeOwned FleetResolved} {Dl : DeserializeOwned (list string)}.
Context {Dr : DeserializeOwned (list RevocationEntry)} {Db : DeserializeOwned (list BootstrapNonceEntry)}.
Context {Jf : SerializeJson FleetResolved} {Jm : SerializeJson RolloutManifest}.
Context {Jr : SerializeJson Revocations} {Jb : SerializeJson BootstrapNonces}.
Context (config : ReleaseConfig).

(** The metadata of a list signed with a release. *)
Definition release_meta (signed_at : DateTime) (ci_commit : option string) : Meta :=
  MkMeta 1 (Some signed_at) ci_commit (Some (rc_signature_algorithm config)).

Definition publish_revocations (signed_at : DateTime) (ci_commit : option string) : ReleaseM (list string) :=
  match rc_revocations_attr config with
  | None => mret []
  | Some attr =>
      entries ← eval_revocations config attr;
      let revs := MkRevocations 1 entries (release_meta signed_at ci_commit) in
      revs_json ← with_context "serialise revocations.json" (from_result (json_to_string revs));
      revs_canonical ← canonicalize_with "canonicalize revocations.json" revs_json;
      publish config (rc_release_dir config) "revocations.json" "revocations" revs_canonical
  end.

Definition publish_bootstrap_nonces (signed_at : DateTime) (ci_commit : option string)
    : ReleaseM (list string) :=
  match rc_bootstrap_nonces_attr config with
  | None => mret []
  | Some attr =>
      raw_entries ← eval_bootstrap_nonces config attr;
      let pruned := prune_expired_bootstrap_nonces raw_entries signed_at in
      let bn := MkBootstrapNonces 1 pruned (release_meta signed_at ci_commit) in
      bn_json ← with_context "serialise bootstrap-nonces.json" (from_result (json_to_string bn));
      bn_canonical ← canonicalize_with "canonicalize bootstrap-nonces.json" bn_json;
      publish config (rc_release_dir config) "bootstrap-nonces.json" "bootstrap-nonces" bn_canonical
  end.

Definition rollouts_dir : string := path_join (rc_release_dir config) "rollouts".

(** One iteration of the loop over the channels; a channel without hosts has no
    manifest. *)
Definition publish_manifest (resolved : FleetResolved) (fleet_resolved_hash : string) (signed_at : DateTime)
    (ci_commit : option string) (channel_name : string) : ReleaseM (list string) :=
  projected ← from_result (project_manifest resolved channel_name fleet_resolved_hash signed_at ci_commit
                             (rc_signature_algorithm config));
  match projected with
  | None => mret []
  | Some manifest =>
      manifest_json ← with_context ("serialise manifest for channel " +:+ channel_name)
                        (from_result (json_to_string manifest));
      manifest_canonical ← canonicalize_with ("canonicalize manifest for channel " +:+ channel_name)
                             manifest_json;
      let rollout_id := rid_raw (rollout_id.new (rm_channel manifest) (rm_channel_ref manifest)) in
      publish config rollouts_dir (rollout_id +:+ ".json") "manifest" manifest_canonical
  end.

Fixpoint publish_manifests (resolved : FleetResolved) (fleet_resolved_hash : string) (signed_at : DateTime)
    (ci_commit : option string) (channels : list string) (manifest_paths : list string)
    : ReleaseM (list string) :=
  match channels with
  | [] => mret manifest_paths
  | channel_name :: channels =>
      paths ← publish_manifest resolved fleet_resolved_hash signed_at ci_commit channel_name;
      publish_manifests resolved fleet_resolved_hash signed_at ci_commit channels (manifest_paths ++ paths)
  end.

Definition validate_config : result unit string :=
  if negb (bool_decide (rc_signature_algorithm config ∈ ["ed25519"; "ecdsa-p256"])) then
    Err ("--signature-algorithm must be 'ed25519' or 'ecdsa-p256', got '" +:+
         rc_signature_algorithm config +:+ "'")
  else if bool_decide (is_Some (rc_git_push config)) && negb (rc_git_commit config) then
    Err "--git-push requires --git-commit"
  else if bool_decide (trim (rc_sign_cmd config) = "") then Err "--sign-cmd is required and cannot be empty"
  else Ok tt.

(** The fleet artifact: its time, its canonical form and its signature. *)
Definition publish_fleet (resolved : FleetResolved) (current_commit : option string)
    : ReleaseM (FleetResolved * option DateTime * DateTime * string) :=
  let release_path := path_join (rc_release_dir config) (rc_artifact_name config) in
  let signature_path := path_join (rc_release_dir config) (rc_artifact_name config +:+ ".sig") in
  preserved_signed_at ←
    (if rc_reuse_unchanged_signature config then load_existing_signed_at_if_unchanged release_path resolved
     else mret None);
  signed_at ← match preserved_signed_at with Some t => mret t | None => consult re_now end;
  let resolved := stamp_meta resolved signed_at current_commit (rc_signature_algorithm config) in
  canonical ← canonicalize_resolved resolved;
  reuse ← (if bool_decide (is_Some preserved_signed_at) then exists_ signature_path else mret false);
  sig_bytes ← (if reuse : bool then with_context "read existing signature" (read signature_path)
               else sign (rc_sign_cmd config) canonical);
  (if rc_smoke_verify config then smoke_verify canonical sig_bytes else mret tt) ;;
  write_release (rc_release_dir config) (rc_artifact_name config) canonical sig_bytes ;;
  mret (resolved, preserved_signed_at, signed_at, canonical).

(** The optional commit; the outcome of the run. *)
Definition commit_release (release_files : list string) (ci_commit : option string) (signed_at : DateTime)
    (preserved_signed_at : option DateTime) (host_names : list string) : ReleaseM RunOutcome :=
  if rc_git_commit config then
    committed ← git_commit_release config release_files ci_commit signed_at;
    match rc_git_push config with
    | Some c => if committed : bool then git_push_release (rc_flake_dir config) c else mret tt
    | None => mret tt
    end ;;
    commit_sha ← (if committed : bool then attempt (git_head_sha (rc_flake_dir config)) else mret None);
    if negb committed && bool_decide (is_Some preserved_signed_at) then mret NoChange
    else mret (Released commit_sha host_names)
  else mret (Released None host_names).

(** Everything that is built before anything is pushed or written. *)
Definition prepare : ReleaseM (FleetResolved * option string * gmap string string) :=
  hosts ← enumerate_hosts config;
  if is_empty hosts then bail "no hosts to release - empty enumeration"
  else
    resolved ← eval_fleet_resolved config;
    current_commit ← attempt (git_head_sha (rc_flake_dir config));
    now ← consult re_now;
    let resolved := filter_expired_pins resolved now in
    from_result (validate_pin_source_url config resolved current_commit) ;;
    built ← build_hosts config resolved current_commit hosts ∅;
    mret (resolved, current_commit, built).

Definition push_all (built : gmap string string) : ReleaseM unit :=
  match rc_push_cmd config with
  | Some cmd => each (fun '(host, path) => push_one cmd host path (closure_hash path)) (btree_iter built)
  | None => mret tt
  end.

Definition run : ReleaseM RunOutcome :=
  from_result validate_config ;;
  '(resolved, current_commit, built) ← prepare;
  push_all built ;;
  let hashes := closure_hash <$> built in
  let resolved := inject_closure_hashes resolved hashes in
  '(resolved, preserved_signed_at, signed_at, canonical) ← publish_fleet resolved current_commit;
  revocations_paths ← publish_revocations signed_at current_commit;
  bootstrap_nonces_paths ← publish_bootstrap_nonces signed_at current_commit;
  manifest_paths ← publish_manifests resolved (sha256_hex canonical) signed_at current_commit
                     (hash_iter (fr_channels resolved)).*1 [];
  commit_release
    ([ path_join (rc_release_dir config) (rc_artifact_name config);
       path_join (rc_release_dir config) (rc_artifact_name config +:+ ".sig") ] ++
     revocations_paths ++ bootstrap_nonces_paths ++ manifest_paths)
    current_commit signed_at preserved_signed_at (btree_iter hashes).*1.

End pipeline.

(** ** The binary ([main.rs]) *)

Definition names_of (list_ : string) : list string :=
  List.filter (fun s => negb (bool_decide (s = ""))) (split_char ","%char "" list_).

Definition parse_hosts_spec (spec : string) : result HostsSpec string :=
  if bool_decide (spec = "auto") then Ok Auto
  else
    match RustStd.strip_prefix "auto:exclude=" spec with
    | Some rest => Ok (AutoExclude (names_of rest))
    | None =>
        let list_ := names_of spec in
        if is_empty list_ then Err "hosts spec is empty" else Ok (Explicit list_)
    end.

Definition parse_git_push (s : string) : result GitPushTarget string :=
  match split_once ":"%char s with
  | Some (remote, branch) => Ok (MkGitPushTarget remote branch)
  | None => Err ("--git-push expects REMOTE:BRANCH, got " +:+ re_debug s)
  end.

(** The exit code of an error, by its text. *)
Definition exit_of (msg : string) : Z :=
  if contains "smoke verify" msg then 3
  else if contains "sign hook" msg || contains "push hook" msg then 2
  else 1.

(** The command line; the options that are taken over as they are come as a
    configuration. *)
Record Cli := MkCli {
  cli_hosts : string;
  cli_git_commit : bool;
  cli_git_push : option string;
  cli_config : ReleaseConfig;
}.

Definition config_of (cli : Cli) : result ReleaseConfig string :=
  match parse_hosts_spec (cli_hosts cli) with
  | Err e => Err ("nixfleet-release: --hosts: " +:+ e)
  | Ok hosts =>
      let with_push git_push :=
        (cli_config cli) <| rc_hosts := hosts |>
          <| rc_git_commit := cli_git_commit cli || bool_decide (is_Some git_push) |>
          <| rc_git_push := git_push |> in
      match parse_git_push <$> cli_git_push cli with
      | Some (Ok target) => Ok (with_push (Some target))
      | Some (Err e) => Err ("nixfleet-release: " +:+ e)
      | None => Ok (with_push None)
      end
  end.

Definition main {Df : DeserializeOwned FleetResolved} {Dl : DeserializeOwned (list string)}
    {Dr : DeserializeOwned (list RevocationEntry)} {Db : DeserializeOwned (list BootstrapNonceEntry)}
    {Jf : SerializeJson FleetResolved} {Jm : SerializeJson RolloutManifest}
    {Jr : SerializeJson Revocations} {Jb : SerializeJson BootstrapNonces}
    (cli : Cli) (w : ReleaseWorld) : ended Z * ReleaseWorld :=
  match config_of cli with
  | Err _ => (Returned 1%Z, w)
  | Ok config =>
      match run config w with
      | (Returned (Ok _), w) => (Returned 0%Z, w)
      | (Returned (Err msg), w) => (Returned (exit_of msg), w)
      | (Panicked, w) => (Panicked, w)
      | (OutOfFuel, w) => (OutOfFuel, w)
      end
  end.

End release.
