(* ===== verification/ReleaseProps.v ===== *)
(** * The release tool: lemmas

    How a call of the tool's monad ends and what it does on the way ([does]), what
    the writing operations leave on disk, and the files of a finished run. *)

From S2P Require Import Prelude RustStd Proto Gates Verify VerifyProps Manifest Issuance Release.

(** ** Calls and their effects *)

Lemma release_bind_inv {A B} (m : ReleaseM A) (k : A -> ReleaseM B) w b w' :
  (m ≫= k) w = (Returned (Ok b), w') ->
  exists a w1, m w = (Returned (Ok a), w1) /\ k a w1 = (Returned (Ok b), w').
Proof.
  unfold mbind, ReleaseM_bind. destruct (m w) as [[[a|e]| |] w1]; [|done..]. intros H. by exists a, w1.
Qed.

Lemma context_inv {A} text (m : ReleaseM A) w a w' :
  with_context text m w = (Returned (Ok a), w') -> m w = (Returned (Ok a), w').
Proof. unfold with_context. destruct (m w) as [[[|]| |] ?]; [done|by intros [=]|done..]. Qed.

Lemma attempt_inv {A} (m : ReleaseM A) w a w' :
  attempt m w = (Returned (Ok a), w') ->
  exists r, m w = (Returned r, w') /\ a = match r with Ok a => Some a | Err _ => None end.
Proof.
  unfold attempt. destruct (m w) as [[[b|e]| |] w1]; [| |done..]; intros [= <- <-].
  - by exists (Ok b).
  - by exists (Err e).
Qed.

Lemma consult_inv {A} (answer : nat -> A) w a w' :
  consult answer w = (Returned (Ok a), w') ->
  a = answer (rw_asked w) /\ w' = w <| rw_asked := S (rw_asked w) |>.
Proof. by intros [= <- <-]. Qed.

Lemma from_result_inv {A} (r : result A string) w a w' :
  from_result r w = (Returned (Ok a), w') -> r = Ok a /\ w' = w.
Proof. by intros [= -> ->]. Qed.

Lemma mret_inv {A} (a : A) w b w' :
  (mret a : ReleaseM A) w = (Returned (Ok b), w') -> b = a /\ w' = w.
Proof. by intros [= <- <-]. Qed.

Lemma files_inv w store w' : files w = (Returned (Ok store), w') -> store = rw_files w /\ w' = w.
Proof. by intros [= <- <-]. Qed.

(** Splits the first call off a run that succeeded, and says what it was. *)
Ltac release_step H a w :=
  let Ha := fresh "H" in
  apply release_bind_inv in H as (a & w & Ha & H);
  repeat match type of Ha with with_context _ _ _ = _ => apply context_inv in Ha end;
  lazymatch type of Ha with
  | consult _ _ = _ => apply consult_inv in Ha as [-> ->]
  | from_result _ _ = _ => apply from_result_inv in Ha as [Ha ->]
  | mret _ _ = _ => apply mret_inv in Ha as [-> ->]
  | files _ = _ => apply files_inv in Ha as [-> ->]
  | _ => idtac
  end.

(** What is done replays on the files. *)
Definition written (a : Action) (store : gmap string string) : gmap string string :=
  match a with Ran _ => store | Wrote path bytes => <[ path := bytes ]> store end.

Definition replay (t : list Action) (store : gmap string string) : gmap string string :=
  fold_left (fun store a => written a store) t store.

Lemma replay_app t1 t2 store : replay (t1 ++ t2) store = replay t2 (replay t1 store).
Proof. apply fold_left_app. Qed.

(** However [m] ends, it did [t], and the files show exactly that. *)
Definition did (w w' : ReleaseWorld) (t : list Action) : Prop :=
  rw_trace w' = rw_trace w ++ t /\ rw_files w' = replay t (rw_files w).

Definition does {A} (P : Action -> Prop) (m : ReleaseM A) : Prop :=
  forall w r w', m w = (r, w') -> exists t, did w w' t /\ Forall P t.

Lemma did_nil w : did w w [].
Proof. split; [by rewrite app_nil_r|done]. Qed.

Lemma did_app w1 w2 w3 t1 t2 : did w1 w2 t1 -> did w2 w3 t2 -> did w1 w3 (t1 ++ t2).
Proof. intros [H1 H2] [H3 H4]. split; [by rewrite H3, H1, app_assoc|by rewrite H4, H2, replay_app]. Qed.

Lemma does_weaken {A} (P Q : Action -> Prop) (m : ReleaseM A) :
  does P m -> (forall a, P a -> Q a) -> does Q m.
Proof.
  intros Hm HPQ w r w' H. destruct (Hm _ _ _ H) as (t & Ht & Hp). exists t. split; [done|].
  by eapply Forall_impl.
Qed.

Section does.
Context (P : Action -> Prop).

Lemma does_pure {A} (f : ReleaseWorld -> ended (result A string)) : does P (fun w => (f w, w)).
Proof. intros w r w' [= <- <-]. exists []. split; [apply did_nil|done]. Qed.

Lemma does_ret {A} (a : A) : does P (mret a).
Proof. apply (does_pure (fun _ => Returned (Ok a))). Qed.

Lemma does_bail {A} e : does P (@bail A e).
Proof. apply (does_pure (fun _ => Returned (Err e))). Qed.

Lemma does_from_result {A} (r : result A string) : does P (from_result r).
Proof. apply (does_pure (fun _ => Returned r)). Qed.

Lemma does_bind {A B} (m : ReleaseM A) (k : A -> ReleaseM B) :
  does P m -> (forall a, does P (k a)) -> does P (m ≫= k).
Proof.
  intros Hm Hk w r w' H. unfold mbind, ReleaseM_bind in H.
  destruct (m w) as [r1 w1] eqn:E. destruct (Hm _ _ _ E) as (t1 & Ht1 & Hp1).
  destruct r1 as [[a|e]| |]; [|injection H as <- <-; by exists t1..].
  destruct (Hk _ _ _ _ H) as (t2 & Ht2 & Hp2). exists (t1 ++ t2).
  split; [by eapply did_app|by apply Forall_app].
Qed.

Lemma does_result_bind {A B} (r : result A string) (k : A -> ReleaseM B) :
  (forall a, r = Ok a -> does P (k a)) -> does P (from_result r ≫= k).
Proof.
  intros Hk w r' w' H. destruct r as [a|e]; [by eapply Hk|]. injection H as <- <-.
  exists []. split; [apply did_nil|done].
Qed.

Lemma does_context {A} text (m : ReleaseM A) : does P m -> does P (with_context text m).
Proof.
  intros Hm w r w' H. unfold with_context in H. destruct (m w) as [r1 w1] eqn:E.
  destruct (Hm _ _ _ E) as (t & Ht & Hp). exists t.
  destruct r1 as [[|]| |]; by injection H as <- <-.
Qed.

Lemma does_attempt {A} (m : ReleaseM A) : does P m -> does P (attempt m).
Proof.
  intros Hm w r w' H. unfold attempt in H. destruct (m w) as [r1 w1] eqn:E.
  destruct (Hm _ _ _ E) as (t & Ht & Hp). exists t.
  destruct r1 as [[|]| |]; by injection H as <- <-.
Qed.

Lemma does_consult {A} (answer : nat -> A) : does P (consult answer).
Proof. intros w r w' [= <- <-]. exists []. split; [split; [by rewrite app_nil_r|done]|done]. Qed.

Lemma does_each {A} (f : A -> ReleaseM unit) l : (forall a, does P (f a)) -> does P (each f l).
Proof. intros Hf. induction l; [apply does_ret|]. by apply does_bind. Qed.

Context {R : ReleaseEnv}.

Lemma does_acted a (Ha : P a) : (forall p b, a <> Wrote p b) -> does P (acted a).
Proof.
  intros Hw w r w' [= <- <-]. exists [a]. split; [|by constructor].
  split; [done|]. simpl. destruct a; [done|]. by destruct (Hw path bytes).
Qed.

Lemma does_command c : P (Ran c) -> does P (command c).
Proof.
  intros Hc. apply does_bind; [apply does_consult|]. intros []; [apply does_ret|].
  apply does_bind; [by apply does_acted|]. intros _. apply does_ret.
Qed.

Lemma does_io : does P io.
Proof. apply does_bind; [apply does_consult|]. intros []; [apply does_bail|apply does_ret]. Qed.

Lemma does_files : does P files.
Proof. apply (does_pure (fun w => Returned (Ok (rw_files w)))). Qed.

Lemma does_exists p : does P (exists_ p).
Proof.
  apply does_bind; [apply does_consult|]. intros. apply does_bind; [apply does_files|]. intros. apply does_ret.
Qed.

Lemma does_read p : does P (read p).
Proof.
  apply does_bind; [apply does_io|]. intros. apply does_bind; [apply does_files|]. intros store.
  destruct (store !! p); [apply does_ret|apply does_bail].
Qed.

Lemma does_persist p b : P (Wrote p b) -> does P (persist p b).
Proof.
  intros Hp w r w' H. unfold persist, mbind, ReleaseM_bind in H.
  destruct (io w) as [r1 w1] eqn:E. destruct (does_io _ _ _ E) as (t & Ht & Hpt).
  destruct r1 as [[[]|e]| |]; [|injection H as <- <-; by exists t..].
  injection H as <- <-. exists (t ++ [Wrote p b]). split; [|by apply Forall_app_2; [|constructor]].
  eapply did_app; [exact Ht|]. by split.
Qed.

End does.

Create HintDb release.
#[export] Hint Resolve does_ret does_bail does_from_result does_consult does_io does_files does_exists does_read
  : release.

(** Goes through a call for what it does. *)
Ltac does_walk :=
  repeat first
    [ progress intros
    | solve [eauto with release]
    | match goal with
      | |- does _ (_ ≫= _) => apply does_bind
      | |- does _ (with_context _ _) => apply does_context
      | |- does _ (attempt _) => apply does_attempt
      | |- does _ (fun w => (_, w)) => apply does_pure
      end
    | progress case_match
    | progress unfold canonicalize_with ].

(** ** The phases of a run *)

(** What runs before anything is pushed or written: evaluations and builds. *)
Definition is_query (a : Action) : Prop :=
  match a with
  | Ran (Nix _ _) => True
  | Ran (Git args _) => args = ["rev-parse"; "HEAD"]
  | _ => False
  end.

Definition is_push (cmd : string) (a : Action) : Prop :=
  match a with Ran (PushHook c _ _ _) => c = cmd | _ => False end.

(** Neither a build nor a push. *)
Definition is_publication (a : Action) : Prop :=
  match a with
  | Ran (Nix args _) => args !! 0 = Some "eval"
  | Ran (PushHook _ _ _ _) => False
  | _ => True
  end.

Section phases.
Context {O : HashOrder} {Cr : Crypto} {R : ReleaseEnv}.
Context {Df : DeserializeOwned FleetResolved} {Dl : DeserializeOwned (list string)}.
Context {Dr : DeserializeOwned (list RevocationEntry)} {Db : DeserializeOwned (list BootstrapNonceEntry)}.
Context {Jf : SerializeJson FleetResolved} {Jm : SerializeJson RolloutManifest}.
Context {Jr : SerializeJson Revocations} {Jb : SerializeJson BootstrapNonces}.

Lemma does_nix_build attr dir : does is_query (nix_build attr dir).
Proof. apply does_bind; [by apply does_command|]. does_walk. Qed.

#[local] Hint Resolve does_nix_build : release.

Lemma does_build_hosts config resolved commit hosts out :
  does is_query (build_hosts config resolved commit hosts out).
Proof.
  revert out. induction hosts as [|[h k] hosts IH]; intros out; [apply does_ret|].
  apply does_bind; [|done]. unfold build_host, build_local, build_pinned.
  repeat case_match; does_walk.
Qed.

#[local] Hint Resolve does_build_hosts : release.

Lemma does_prepare config : does is_query (prepare config).
Proof.
  unfold prepare, enumerate_hosts, list_attr_optional, eval_fleet_resolved, eval_json, git_head_sha.
  does_walk; by apply does_command.
Qed.

Lemma does_push_all config cmd built : rc_push_cmd config = Some cmd -> does (is_push cmd) (push_all config built).
Proof.
  intros Hcmd. unfold push_all. rewrite Hcmd. apply does_each. intros [h p]. unfold push_one.
  does_walk. by apply does_command.
Qed.

Lemma does_sign cmd canonical : does is_publication (sign cmd canonical).
Proof. unfold sign. does_walk. by apply does_command. Qed.

Lemma does_write_release dir name canonical sig : does is_publication (write_release dir name canonical sig).
Proof. unfold write_release, atomic_write. does_walk; by apply does_persist. Qed.
#[local] Hint Resolve does_sign does_write_release : release.

Lemma does_publish config dir name what canonical : does is_publication (publish config dir name what canonical).
Proof. unfold publish, signature_for. does_walk. Qed.
#[local] Hint Resolve does_publish : release.

Lemma does_publish_fleet config resolved commit : does is_publication (publish_fleet config resolved commit).
Proof.
  unfold publish_fleet, load_existing_signed_at_if_unchanged, smoke_verify, canonicalize_resolved. does_walk.
Qed.

Lemma does_publish_revocations config at_ commit : does is_publication (publish_revocations config at_ commit).
Proof. unfold publish_revocations, eval_revocations, eval_json. does_walk. by apply does_command. Qed.

Lemma does_publish_bootstrap_nonces config at_ commit :
  does is_publication (publish_bootstrap_nonces config at_ commit).
Proof. unfold publish_bootstrap_nonces, eval_bootstrap_nonces, eval_json. does_walk. by apply does_command. Qed.

Lemma does_publish_manifests config resolved hash at_ commit channels paths :
  does is_publication (publish_manifests config resolved hash at_ commit channels paths).
Proof.
  revert paths. induction channels as [|c channels IH]; intros paths; [apply does_ret|].
  apply does_bind; [|done]. unfold publish_manifest. does_walk.
Qed.

Lemma does_commit_release config paths commit at_ preserved names :
  does is_publication (commit_release config paths commit at_ preserved names).
Proof.
  unfold commit_release, git_commit_release, git_push_release, git_head_sha, run_git.
  does_walk; by apply does_command.
Qed.

End phases.

(** ** What is built and pushed *)

Section builds.
Context {R : ReleaseEnv}.

(** The build of a host: of the flake, or of the source at the commit it is
    pinned to. *)
Definition build_command (config : ReleaseConfig) (resolved : FleetResolved) (commit : option string)
    (host : string * HostKind) : option Command :=
  let build attr dir := Nix ["build"; "--no-link"; "--print-out-paths"; "--no-warn-dirty"; attr] dir in
  match pin_target_commit resolved host.1 commit with
  | None => Some (build (".#" +:+ toplevel host.2 host.1) (Some (rc_flake_dir config)))
  | Some pinned =>
      url ← rc_pin_source_url config;
      Some (build (url +:+ "?rev=" +:+ pinned +:+ "#" +:+ toplevel host.2 host.1) None)
  end.

(** [path] is what the build [c] printed. *)
Definition printed (c : Command) (path : string) : Prop :=
  path <> "" /\ exists n stdout stderr, re_run n c = Finished (Some 0%Z) stdout stderr /\
    path = trim (re_lossy stdout).

Lemma command_ok c w ending w' :
  command c w = (Returned (Ok ending), w') ->
  ending = re_run (rw_asked w) c /\
  did w w' match ending with NotInvoked _ => [] | Finished _ _ _ => [Ran c] end.
Proof.
  intros H. release_step H e w1. destruct (re_run _ c) eqn:E.
  - apply mret_inv in H as [-> ->]. split; [done|]. split; [by rewrite app_nil_r|done].
  - injection H as <- <-. split; [done|]. by split.
Qed.

Lemma success_spec code : success code = true -> code = Some 0%Z.
Proof. unfold success. by case_bool. Qed.

Lemma nix_build_ok attr dir w path w' :
  nix_build attr dir w = (Returned (Ok path), w') ->
  let c := Nix ["build"; "--no-link"; "--print-out-paths"; "--no-warn-dirty"; attr] dir in
  did w w' [Ran c] /\ printed c path.
Proof.
  intros H. release_step H ending w1. apply command_ok in H0 as [He Hd].
  destruct ending as [err|code stdout stderr]; [done|]. injection H as H <-.
  unfold interpret_build_output in H. destruct (success code) eqn:Ec; simpl in H; [|done].
  apply success_spec in Ec as ->. case_bool as [|Hp]; [done|]. injection H as <-.
  split; [done|]. split; [done|]. exists (rw_asked w), stdout, stderr. by rewrite <- He.
Qed.

Lemma build_host_ok config resolved commit host kind w path w' :
  build_host config resolved commit host kind w = (Returned (Ok path), w') ->
  exists c, build_command config resolved commit (host, kind) = Some c /\ did w w' [Ran c] /\ printed c path.
Proof.
  unfold build_host, build_command, build_local, build_pinned. simpl.
  destruct (pin_target_commit _ _ _) as [pinned|]; [destruct (rc_pin_source_url config) as [url|]; [|done]|];
    intros H%context_inv%nix_build_ok; by eexists.
Qed.

(** The builds run in the order of the hosts; a host named twice has the path of
    its last build. *)
Lemma build_hosts_ok config resolved commit hosts out w built w' :
  build_hosts config resolved commit hosts out w = (Returned (Ok built), w') ->
  exists commands, build_command config resolved commit <$> hosts = Some <$> commands /\
    did w w' (Ran <$> commands) /\
    (forall host, is_Some (built !! host) <-> is_Some (out !! host) \/ host ∈ hosts.*1) /\
    (forall host path, built !! host = Some path ->
       out !! host = Some path \/
       exists kind c, (host, kind) ∈ hosts /\ build_command config resolved commit (host, kind) = Some c /\
         printed c path).
Proof.
  revert out w. induction hosts as [|[h k] hosts IH]; intros out w H.
  { apply mret_inv in H as [-> ->]. exists []. split_and!; [done|apply did_nil|set_solver|naive_solver]. }
  release_step H path w1. apply build_host_ok in H0 as (c & Hc & Hd & Hp).
  destruct (IH _ _ H) as (cs & Hcs & Hds & Hdom & Hall). exists (c :: cs). split_and!.
  - rewrite !fmap_cons. by rewrite Hc, Hcs.
  - by eapply (did_app _ _ _ [_]).
  - intros host. rewrite Hdom. rewrite fmap_cons, elem_of_cons. simpl.
    destruct (decide (host = h)) as [->|Hh]; [rewrite lookup_insert_eq; naive_solver|].
    rewrite lookup_insert_ne by done. naive_solver.
  - intros host p Hlk. destruct (Hall _ _ Hlk) as [Ho|(kind & c' & Hin & Hc' & Hp')].
    + destruct (decide (host = h)) as [->|Hh].
      * rewrite lookup_insert_eq in Ho. injection Ho as <-. right. exists k, c. split_and!; [left|done..].
      * rewrite lookup_insert_ne in Ho by done. by left.
    + right. exists kind, c'. split_and!; [by right|done..].
Qed.

Definition push_actions (config : ReleaseConfig) (built : gmap string string) : list Action :=
  match rc_push_cmd config with
  | Some cmd => (fun '(host, path) => Ran (PushHook cmd host path (closure_hash path))) <$> btree_iter built
  | None => []
  end.

Lemma push_one_any cmd host path hash w r w' :
  push_one cmd host path hash w = (r, w') ->
  did w w' [Ran (PushHook cmd host path hash)] \/ did w w' [] /\ r <> Returned (Ok tt).
Proof.
  intros H. unfold push_one, mbind, ReleaseM_bind in H.
  destruct (command _ w) as [r1 w1] eqn:E. 
  assert (exists e, r1 = Returned (Ok e)) as [e ->].
  { unfold command, mbind, ReleaseM_bind in E. simpl in E. destruct (re_run _ _); injection E as <- _; by eexists. }
  apply command_ok in E as [He Hd]. destruct e as [err|code stdout stderr].
  - injection H as <- <-. by right.
  - left. destruct (success code); by injection H as <- <-.
Qed.

(** The pushes of a run that ended in any way are the first of all. *)
Lemma push_all_any config built w r w' :
  push_all config built w = (r, w') ->
  exists pushes rest, did w w' pushes /\ pushes ++ rest = push_actions config built /\
    (r = Returned (Ok tt) -> rest = []).
Proof.
  unfold push_all, push_actions. destruct (rc_push_cmd config) as [cmd|].
  2:{ intros [= <- <-]. exists [], []. split_and!; [apply did_nil|done..]. }
  revert w. induction (btree_iter built) as [|[host path] l IH]; intros w H.
  { injection H as <- <-. exists [], []. split_and!; [apply did_nil|done..]. }
  simpl in H. unfold mbind, ReleaseM_bind in H. destruct (push_one _ _ _ _ w) as [r1 w1] eqn:E.
  pose proof (push_one_any _ _ _ _ _ _ _ E) as Hone. rewrite fmap_cons.
  assert (r1 = Returned (Ok tt) \/ r1 <> Returned (Ok tt) /\ w' = w1 /\ r <> Returned (Ok tt)) as [->|(_ & -> & Hr)].
  { destruct r1 as [[[]|e]| |]; [by left|right; by injection H as <- <-..]. }
  - destruct Hone as [Hd|[_ Hn]]; [|done]. destruct (IH _ H) as (ps & rest & Hds & Hps & Hok).
    exists (Ran (PushHook cmd host path (closure_hash path)) :: ps), rest.
    split_and!; [by eapply (did_app _ _ _ [_])|by rewrite <- Hps|done].
  - destruct Hone as [Hd|[Hd _]].
    + eexists [_], _. split_and!; [exact Hd|done|done].
    + eexists [], _. split_and!; [exact Hd|done|done].
Qed.

End builds.

(** ** Paths *)

(** What a relative path is appended to. *)
Definition dir_prefix (base : string) : string :=
  if bool_decide (base = "") then ""
  else if bool_decide (String.get (String.length base - 1) base = Some "/"%char) then base
  else base +:+ "/".

Definition separator : ascii := "/"%char.

(** A file name of one component. *)
Definition plain (name : string) : Prop := name <> "" /\ separator ∉ chars name.

Lemma path_join_cons base c s :
  path_join base (String c s) = if bool_decide (c = separator) then String c s else dir_prefix base +:+ String c s.
Proof.
  unfold dir_prefix.
  assert (H : (if bool_decide (base = "") then String c s
               else if bool_decide (String.get (String.length base - 1) base = Some "/"%char)
                    then base +:+ String c s else base +:+ "/" +:+ String c s) =
              (if bool_decide (base = "") then ""
               else if bool_decide (String.get (String.length base - 1) base = Some "/"%char) then base
               else base +:+ "/") +:+ String c s).
  { repeat case_bool; [done|done|]. by rewrite append_assoc. }
  rewrite <- H. destruct (bool_decide_reflect (c = separator)) as [->|Hc]; [done|]. unfold separator in Hc.
  destruct c as [[] [] [] [] [] [] [] []]; done || by destruct Hc.
Qed.

Lemma path_join_app base name suffix :
  name <> "" -> path_join base (name +:+ suffix) = path_join base name +:+ suffix.
Proof.
  intros Hn. destruct name as [|c name]; [done|]. change (String c name +:+ suffix) with (String c (name +:+ suffix)).
  rewrite !path_join_cons. case_bool; [done|]. by rewrite append_assoc.
Qed.

Lemma path_join_plain base name rest :
  plain name -> path_join base (name +:+ rest) = dir_prefix base +:+ name +:+ rest.
Proof.
  intros [Hn Hs]. destruct name as [|c name]; [done|]. change (String c name +:+ rest) with (String c (name +:+ rest)).
  rewrite path_join_cons. rewrite bool_decide_eq_false_2; [done|]. intros ->. apply Hs. left.
Qed.

Lemma dir_prefix_rollouts dir : dir_prefix (path_join dir "rollouts") = dir_prefix dir +:+ "rollouts/".
Proof.
  rewrite path_join_cons, bool_decide_eq_false_2 by done.
  set (d := dir_prefix dir). unfold dir_prefix. 
  rewrite bool_decide_eq_false_2; [|by destruct d]. rewrite bool_decide_eq_false_2; [by rewrite append_assoc|].
  rewrite length_append. replace (String.length d + String.length "rollouts" - 1) with (7 + String.length d) by (simpl; lia).
  by rewrite <- String.append_correct2.
Qed.

(** ** What is left on disk *)

(** Paths of artifacts, as against those of their signatures. *)
Definition payload_path (p : string) : Prop := ends_with ".sig" p = false.

Lemma sig_path (p : string) : ends_with ".sig" (p +:+ ".sig") = true.
Proof. apply ends_with_app. Qed.

Definition paired (p bytes sig : string) (store : gmap string string) : gmap string string :=
  <[ p +:+ ".sig" := sig ]> (<[ p := bytes ]> store).

Lemma paired_here p bytes sig store :
  paired p bytes sig store !! p = Some bytes /\ paired p bytes sig store !! (p +:+ ".sig") = Some sig.
Proof.
  unfold paired. rewrite lookup_insert_eq. split; [|done].
  rewrite lookup_insert_ne by (by apply append_neq_longer). apply lookup_insert_eq.
Qed.

Lemma paired_elsewhere p q bytes sig store :
  payload_path p -> payload_path q -> p <> q ->
  paired p bytes sig store !! q = store !! q /\
  paired p bytes sig store !! (q +:+ ".sig") = store !! (q +:+ ".sig").
Proof.
  unfold payload_path, paired. intros Hp Hq Hne.
  pose proof (sig_path p). pose proof (sig_path q).
  rewrite !lookup_insert_ne; [done|..]; try congruence. by intros ?%append_cancel_r.
Qed.

Section signed.
Context {O : HashOrder} {Cr : Crypto} {R : ReleaseEnv}.
Context (keys : list TrustedPubkey).

(** Whoever trusts the keys accepts the signature of the bytes. *)
Definition signs (sig bytes : string) : Prop := Exists (key_accepts bytes sig) keys.

(** Every artifact on disk that has a signature has one of its own. *)
Definition well_signed (store : gmap string string) : Prop :=
  forall p bytes sig, payload_path p -> store !! p = Some bytes -> store !! (p +:+ ".sig") = Some sig ->
    signs sig bytes.

Lemma well_signed_paired p bytes sig store :
  payload_path p -> signs sig bytes -> well_signed store -> well_signed (paired p bytes sig store).
Proof.
  intros Hp Hs Hw q b s Hq Hb Hsg. destruct (decide (p = q)) as [<-|Hne].
  - destruct (paired_here p bytes sig store) as [H1 H2]. congruence.
  - destruct (paired_elsewhere p q bytes sig store) as [H1 H2]; [done..|]. rewrite H1 in Hb. rewrite H2 in Hsg.
    by eapply Hw.
Qed.

(** The operator's hook signs what it is given with a key that is trusted. *)
Definition hook_signs (cmd : string) : Prop :=
  forall n input, re_signature n cmd input <> "" -> signs (re_signature n cmd input) input.

Definition no_write (a : Action) : Prop := match a with Wrote _ _ => False | Ran _ => True end.

Lemma does_no_write {A} (m : ReleaseM A) w r w' : does no_write m -> m w = (r, w') -> rw_files w' = rw_files w.
Proof.
  intros Hm H. destruct (Hm _ _ _ H) as (t & [_ ->] & Ht). clear H. revert Ht. generalize (rw_files w).
  induction t as [|a t IH]; intros store Ht; [done|]. apply Forall_cons in Ht as [Ha Ht]. simpl.
  rewrite IH by done. by destruct a.
Qed.

Lemma sign_ok cmd canonical w sig w' :
  sign cmd canonical w = (Returned (Ok sig), w') ->
  rw_files w' = rw_files w /\ sig <> "" /\ exists n, sig = re_signature n cmd canonical.
Proof.
  intros H. split.
  { eapply does_no_write; [|exact H]. unfold sign. does_walk. by apply does_command. }
  unfold sign in H. release_step H u1 w1. release_step H u2 w2. release_step H u3 w3. release_step H u4 w4. release_step H ending w5.
  destruct ending; [done|]. destruct (negb _); [done|].
  release_step H u w6. release_step H sg w7. case_bool as [|Hs]; [done|].
  apply mret_inv in H as [-> ->]. by eauto.
Qed.

Lemma exists_ok p w b w' :
  exists_ p w = (Returned (Ok b), w') -> rw_files w' = rw_files w /\ (b = true -> is_Some (rw_files w !! p)).
Proof.
  intros H. split; [by eapply does_no_write; [apply does_exists|]|].
  release_step H f w1. release_step H store w2.
  apply mret_inv in H as [-> ->]. destruct (re_io _); [done|]. intros Hb%bool_decide_eq_true. exact Hb.
Qed.

Lemma read_ok p w b w' :
  read p w = (Returned (Ok b), w') -> rw_files w' = rw_files w /\ rw_files w !! p = Some b.
Proof.
  intros H. assert (Hf : rw_files w' = rw_files w) by (by eapply does_no_write; [apply does_read|]). split; [done|].
  release_step H u w1. release_step H store w2.
  rewrite <- (does_no_write _ _ _ _ (does_io _) H0). destruct (rw_files w1 !! p); [|done].
  by apply mret_inv in H as [-> ->].
Qed.

Lemma atomic_write_ok p b w w' :
  atomic_write p b w = (Returned (Ok tt), w') -> rw_files w' = <[ p := b ]> (rw_files w).
Proof.
  intros H. unfold atomic_write in H. release_step H u w1. release_step H u2 w2. apply context_inv in H.
  unfold persist in H. release_step H u3 w3. release_step H u4 w4. injection H as <-. injection H3 as <- <-. simpl.
  apply does_no_write in H0, H1, H2; [|apply does_io..]. by rewrite H2, H1, H0.
Qed.

Lemma write_release_ok dir name canonical sig w w' :
  name <> "" -> write_release dir name canonical sig w = (Returned (Ok tt), w') ->
  rw_files w' = paired (path_join dir name) canonical sig (rw_files w).
Proof.
  intros Hn H. unfold write_release in H. release_step H u w1. release_step H u2 w2. destruct u2.
  apply atomic_write_ok in H1, H. apply does_no_write in H0; [|apply does_io].
  unfold paired. by rewrite H, H1, H0, path_join_app.
Qed.

Lemma signature_for_ok config what p sig_p canonical w sig w' :
  signature_for config what p sig_p canonical w = (Returned (Ok sig), w') ->
  rw_files w' = rw_files w /\
  ((rw_files w !! p = Some canonical /\ rw_files w !! sig_p = Some sig) \/
   sig <> "" /\ exists n, sig = re_signature n (rc_sign_cmd config) canonical).
Proof.
  intros H. unfold signature_for in H. release_step H here w1. apply exists_ok in H0 as [H0 _].
  release_step H sig_here w2. assert (H1' : rw_files w2 = rw_files w1).
  { destruct here; [by apply exists_ok in H1 as [? _]|by apply mret_inv in H1 as [_ ->]]. }
  release_step H same w3. assert (H2' : rw_files w3 = rw_files w2 /\ (same = true -> rw_files w2 !! p = Some canonical)).
  { destruct sig_here; [|by apply mret_inv in H2 as [-> ->]].
    release_step H2 e w4. apply mret_inv in H2 as [-> ->].
    apply attempt_inv in H3 as (r & Hr & ->). split; [by eapply does_no_write; [apply does_read|]|].
    intros Hb%bool_decide_eq_true. destruct r; [|done]. apply read_ok in Hr as [_ Hr]. congruence. }
  destruct H2' as [H2' Hsame]. destruct same.
  - apply context_inv, read_ok in H as [H Hs]. split; [congruence|]. left. split; [|congruence].
    rewrite <- H0, <- H1'. by apply Hsame.
  - apply sign_ok in H as (H & Hs). split; [congruence|]. by right.
Qed.

(** A published pair is on disk, and its signature is good. *)
Lemma published_pair_ok config dir name what canonical w paths w' :
  name <> "" -> payload_path (path_join dir name) -> hook_signs (rc_sign_cmd config) -> well_signed (rw_files w) ->
  publish config dir name what canonical w = (Returned (Ok paths), w') ->
  exists sig, signs sig canonical /\ rw_files w' = paired (path_join dir name) canonical sig (rw_files w).
Proof.
  intros Hn Hp Hh Hw H. unfold publish in H. release_step H sg w1. release_step H u w2.
  destruct u. apply mret_inv in H as [_ ->]. apply write_release_ok in H1; [|done].
  apply signature_for_ok in H0 as [Hf Hsig]. exists sg. rewrite H1, Hf. split; [|done].
  destruct Hsig as [[H2 H3]|[Hne [n ->]]]; [|by apply Hh].
  rewrite path_join_app in H3 by done. by eapply Hw.
Qed.

End signed.

(** ** The files of a release *)

Lemma json_payload x : payload_path (x +:+ ".json").
Proof.
  unfold payload_path. change ".sig" with (".si" +:+ String "g" ""). change ".json" with (".jso" +:+ String "n" "").
  rewrite <- append_assoc. by apply ends_with_other_char.
Qed.

Section release_paths.
Context (config : ReleaseConfig).

Definition release_path : string := path_join (rc_release_dir config) (rc_artifact_name config).
Definition revocations_path : string := path_join (rc_release_dir config) "revocations.json".
Definition nonces_path : string := path_join (rc_release_dir config) "bootstrap-nonces.json".
Definition rollout_id_of (channel : string) (commit : option string) : string :=
  rid_raw (rollout_id.new channel (default "" commit)).
Definition manifest_path (id : string) : string := path_join (rollouts_dir config) (id +:+ ".json").

Definition manifest_paths (commit : option string) (channels : list string) : list string :=
  (fun c => manifest_path (rollout_id_of c commit)) <$> channels.

Lemma rollout_id_nonempty channel commit : rollout_id_of channel commit <> "".
Proof. by destruct channel. Qed.

Lemma manifest_payload id : id <> "" -> payload_path (manifest_path id).
Proof. intros Hid. unfold manifest_path. rewrite path_join_app by done. apply json_payload. Qed.

Lemma manifest_path_plain id :
  plain id -> manifest_path id = dir_prefix (rc_release_dir config) +:+ "rollouts/" +:+ id +:+ ".json".
Proof.
  intros Hid. unfold manifest_path, rollouts_dir. rewrite path_join_plain by done.
  by rewrite dir_prefix_rollouts, append_assoc.
Qed.

Lemma manifest_path_inj id1 id2 : plain id1 -> plain id2 -> manifest_path id1 = manifest_path id2 -> id1 = id2.
Proof.
  intros H1 H2. rewrite !manifest_path_plain by done. intros H%String.app_inj%String.app_inj.
  by apply append_cancel_r in H.
Qed.

Lemma rollout_id_of_inj c1 c2 commit : rollout_id_of c1 commit = rollout_id_of c2 commit -> c1 = c2.
Proof. unfold rollout_id_of. simpl. apply append_cancel_r. Qed.

(** The three files beside the manifests, and the manifests, are apart. *)
Lemma beside_manifests name id :
  plain name -> plain id -> path_join (rc_release_dir config) name <> manifest_path id.
Proof.
  intros Hn Hid. rewrite manifest_path_plain by done.
  rewrite <- (append_empty_r name), path_join_plain by done. rewrite append_empty_r.
  intros H%String.app_inj. destruct Hn as [_ Hs]. apply Hs. rewrite H. rewrite chars_app. apply elem_of_app. left.
  unfold chars, separator. simpl. set_solver.
Qed.

Lemma not_a_manifest name commit channels :
  plain name -> Forall (fun c => plain (rollout_id_of c commit)) channels ->
  path_join (rc_release_dir config) name ∉ manifest_paths commit channels.
Proof.
  intros Hn Hall (c & Heq & Hin)%list_elem_of_fmap.
  by apply (beside_manifests name (rollout_id_of c commit)); [|exact (proj1 (Forall_forall _ _) Hall _ Hin)|].
Qed.

Lemma beside_each_other name1 name2 :
  plain name1 -> plain name2 -> name1 <> name2 ->
  path_join (rc_release_dir config) name1 <> path_join (rc_release_dir config) name2.
Proof.
  intros H1 H2 Hne. rewrite <- (append_empty_r name1), <- (append_empty_r name2), !path_join_plain by done.
  rewrite !append_empty_r. by intros ?%String.app_inj.
Qed.

Lemma plain_revocations : plain "revocations.json".
Proof. split; [done|]. unfold chars, separator. simpl. set_solver. Qed.

Lemma plain_nonces : plain "bootstrap-nonces.json".
Proof. split; [done|]. unfold chars, separator. simpl. set_solver. Qed.

Lemma paths_apart artifact commit channels :
  plain artifact -> artifact <> "revocations.json" -> artifact <> "bootstrap-nonces.json" ->
  Forall (fun c => plain (rollout_id_of c commit)) channels ->
  (path_join (rc_release_dir config) artifact ∉
     [revocations_path] ++ [nonces_path] ++ manifest_paths commit channels) /\
  (revocations_path ∉ [nonces_path] ++ manifest_paths commit channels) /\
  (nonces_path ∉ manifest_paths commit channels) /\
  payload_path revocations_path /\ payload_path nonces_path.
Proof.
  intros Hpl Hn1 Hn2 Hall.
  assert (Hne : forall a b l, plain a -> plain b -> a <> b -> path_join (rc_release_dir config) a ∉ l ->
            path_join (rc_release_dir config) a ∉ path_join (rc_release_dir config) b :: l).
  { intros a b l Ha Hb Hab Hl [H|H]%elem_of_cons; [by eapply beside_each_other in H|done]. }
  pose proof plain_revocations. pose proof plain_nonces. unfold revocations_path, nonces_path. cbn [app]. split_and!.
  - apply Hne; [done..|]. apply Hne; [done..|]. by apply not_a_manifest.
  - apply Hne; [done..|]. by apply not_a_manifest.
  - by apply not_a_manifest.
  - change "revocations.json" with ("revocations" +:+ ".json"). rewrite path_join_app by done. apply json_payload.
  - change "bootstrap-nonces.json" with ("bootstrap-nonces" +:+ ".json"). rewrite path_join_app by done. apply json_payload.
Qed.

End release_paths.

(** ** What a verifier finds *)

Section offered.
Context {O : HashOrder} {Cr : Crypto} {R : ReleaseEnv}.
Context (keys : list TrustedPubkey).

(** The pair at [p] is accepted as [payload], whenever the payload is fresh. *)
Definition offers {T} {De : DeserializeOwned T} {Si : SignedSidecar T} (store : gmap string string) (p : string)
    (payload : T) : Prop :=
  exists bytes sig, store !! p = Some bytes /\ store !! (p +:+ ".sig") = Some sig /\
    forall now window reject_before signed,
      schema_version payload = ACCEPTED_SCHEMA_VERSION -> signed_at payload = Some signed ->
      window_fits window -> in_window window now signed -> not_rejected reject_before signed ->
      verify_signed_sidecar bytes sig keys now window reject_before = Returned (Ok (MkVerified payload signed)).

(** The canonical form of [payload]. *)
Definition canonical_of {T} {Js : SerializeJson T} (payload : T) (canonical : string) : Prop :=
  exists text, json_to_string payload = Ok text /\ canonicalize text = Ok canonical.

(** [serde_json] and [serde_jcs]: the canonical form is UTF-8 and its own
    canonical form. *)
Definition canonical_stable : Prop :=
  forall text canonical, canonicalize text = Ok canonical -> canonical_form canonical canonical.

(** Reading the canonical form of a value gives the value back. *)
Definition reads_back {T} (Js : SerializeJson T) (De : DeserializeOwned T) : Prop :=
  forall (payload : T) canonical, canonical_of payload canonical -> from_str canonical = Ok payload.

Lemma offers_paired {T} {Js : SerializeJson T} {De : DeserializeOwned T} {Si : SignedSidecar T} store p
    (payload : T) canonical sig :
  canonical_stable -> reads_back Js De -> canonical_of payload canonical -> signs keys sig canonical ->
  offers (paired p canonical sig store) p payload.
Proof.
  intros Hst Hrb Hc Hs. destruct (paired_here p canonical sig store) as [H1 H2].
  exists canonical, sig. split_and!; [done..|]. intros now window rb signed Hv Hsg Hfit Hin Hrej.
  apply sidecar_ok; [by destruct Hfit|]. split; [done|]. exists canonical.
  split; [destruct Hc as (text & _ & Ht); by eapply Hst|]. split; [exact Hs|]. split; [|exact Hin].
  split; [by apply Hrb|]. by split_and!.
Qed.

Lemma offers_elsewhere {T} {De : DeserializeOwned T} {Si : SignedSidecar T} store p q bytes sig (payload : T) :
  payload_path p -> payload_path q -> p <> q ->
  offers (paired p bytes sig store) q payload <-> offers store q payload.
Proof.
  intros Hp Hq Hne. destruct (paired_elsewhere p q bytes sig store) as [H1 H2]; [done..|].
  unfold offers. by rewrite H1, H2.
Qed.

Lemma canonicalize_with_ok what text w canonical w' :
  canonicalize_with what text w = (Returned (Ok canonical), w') -> canonicalize text = Ok canonical /\ w' = w.
Proof. by intros H%context_inv%from_result_inv. Qed.

Context {Df : DeserializeOwned FleetResolved} {Dm : DeserializeOwned RolloutManifest}.
Context {De_r : DeserializeOwned Revocations} {De_b : DeserializeOwned BootstrapNonces}.
Context {Dr : DeserializeOwned (list RevocationEntry)} {Db : DeserializeOwned (list BootstrapNonceEntry)}.
Context {Jf : SerializeJson FleetResolved} {Jm : SerializeJson RolloutManifest}.
Context {Jr : SerializeJson Revocations} {Jb : SerializeJson BootstrapNonces}.
Context (config : ReleaseConfig).

Hypothesis Hstable : canonical_stable.
Hypothesis Hhook : hook_signs keys (rc_sign_cmd config).

(** What a publishing call leaves: good pairs stay good, and nothing but the
    pairs at [ps] changed. *)
Definition published (ps : list string) (before after : gmap string string) : Prop :=
  (well_signed keys before -> well_signed keys after) /\
  forall q, payload_path q -> q ∉ ps ->
    after !! q = before !! q /\ after !! (q +:+ ".sig") = before !! (q +:+ ".sig").

Lemma published_refl ps store : published ps store store.
Proof. by split. Qed.

Lemma published_trans ps1 ps2 s1 s2 s3 : published ps1 s1 s2 -> published ps2 s2 s3 -> published (ps1 ++ ps2) s1 s3.
Proof.
  intros [H1 H2] [H3 H4]. split; [auto|]. intros q Hq Hn. apply not_elem_of_app in Hn as [Hn1 Hn2].
  destruct (H4 q) as [-> ->]; [done..|]. by apply H2.
Qed.

Lemma published_paired p bytes sig store :
  payload_path p -> signs keys sig bytes -> published [p] store (paired p bytes sig store).
Proof.
  intros Hp Hs. split; [by apply well_signed_paired|]. intros q Hq Hn.
  apply paired_elsewhere; [done..|]. intros ->. apply Hn. left.
Qed.

Lemma offers_published {T} {De : DeserializeOwned T} {Si : SignedSidecar T} ps before after q (payload : T) :
  published ps before after -> payload_path q -> q ∉ ps ->
  offers before q payload -> offers after q payload.
Proof. intros [_ H] Hq Hn. destruct (H q) as [H1 H2]; [done..|]. unfold offers. by rewrite H1, H2. Qed.

Lemma publish_offers {T} {Js : SerializeJson T} {De : DeserializeOwned T} {Si : SignedSidecar T}
    dir name what canonical (payload : T) w paths w' :
  reads_back Js De -> canonical_of payload canonical -> well_signed keys (rw_files w) ->
  publish config dir (name +:+ ".json") what canonical w = (Returned (Ok paths), w') -> name <> "" ->
  let p := path_join dir (name +:+ ".json") in
  published [p] (rw_files w) (rw_files w') /\ offers (rw_files w') p payload.
Proof.
  intros Hrb Hc Hw H Hn p.
  assert (Hp : payload_path p) by (unfold p; rewrite path_join_app by done; apply json_payload).
  eapply published_pair_ok in H as (sig & Hs & ->); [|by destruct name|done..].
  split; [by apply published_paired|by eapply offers_paired].
Qed.

Lemma canonicalize_resolved_ok resolved w canonical w' :
  canonicalize_resolved resolved w = (Returned (Ok canonical), w') -> canonical_of resolved canonical /\ w' = w.
Proof.
  intros H. unfold canonicalize_resolved in H. release_step H text w1.
  apply canonicalize_with_ok in H as [H ->]. split; [by exists text|done].
Qed.

(** Without reuse, the fleet gets the time and a signature of its own. *)
Lemma publish_fleet_ok resolved commit w resolved' preserved at_ canonical w' :
  rc_reuse_unchanged_signature config = false -> payload_path (release_path config) -> rc_artifact_name config <> "" ->
  reads_back Jf Df ->
  publish_fleet config resolved commit w = (Returned (Ok (resolved', preserved, at_, canonical)), w') ->
  resolved' = stamp_meta resolved at_ commit (rc_signature_algorithm config) /\ preserved = None /\
  canonical_of resolved' canonical /\
  rw_files w' !! release_path config = Some canonical /\
  published [release_path config] (rw_files w) (rw_files w') /\ offers (rw_files w') (release_path config) resolved'.
Proof.
  intros Hre Hp Hn Hrb H. unfold publish_fleet in H. rewrite Hre in H.
  release_step H preserved1 w1. release_step H at1 w2. release_step H canonical1 w3.
  apply canonicalize_resolved_ok in H0 as [Hc ->].
  change (bool_decide (is_Some (@None DateTime))) with false in H. release_step H reuse w4. release_step H sg w5.
  release_step H u w6. release_step H u2 w7. destruct u2. apply mret_inv in H as [H ->].
  injection H as -> -> -> ->. apply sign_ok in H0 as (Hf5 & Hne & n & ->).
  assert (Hf6 : rw_files w6 = rw_files w5).
  { destruct (rc_smoke_verify config); [|by apply mret_inv in H1 as [_ ->]].
    eapply does_no_write; [|exact H1]. unfold smoke_verify, canonicalize_resolved. does_walk. }
  apply write_release_ok in H2; [|done]. rewrite H2, Hf6, Hf5. simpl.
  split_and!; [done..|apply paired_here| |].
  - apply published_paired; [done|]. by apply Hhook.
  - eapply offers_paired; [done..|]. by apply Hhook.
Qed.

Lemma eval_json_ok {T} {De : DeserializeOwned T} attr ctx w (v : T) w' :
  eval_json config attr ctx w = (Returned (Ok v), w') ->
  rw_files w' = rw_files w /\
  exists n stdout stderr, re_run n (Nix ["eval"; "--json"; "--no-warn-dirty"; attr] (Some (rc_flake_dir config))) =
    Finished (Some 0%Z) stdout stderr /\ from_str stdout = Ok v.
Proof.
  intros H. split.
  { eapply does_no_write; [|exact H]. unfold eval_json. does_walk. by apply does_command. }
  unfold eval_json in H. release_step H ending w1. apply command_ok in H0 as [He _].
  destruct ending as [|code stdout stderr]; [done|]. destruct (success code) eqn:Ec; [|done].
  apply success_spec in Ec as ->. apply context_inv, from_result_inv in H as [H ->]. by eauto.
Qed.

Lemma publish_revocations_ok at_ commit w paths w' :
  reads_back Jr De_r -> well_signed keys (rw_files w) ->
  publish_revocations config at_ commit w = (Returned (Ok paths), w') ->
  published [revocations_path config] (rw_files w) (rw_files w') /\
  (rc_revocations_attr config <> None -> exists entries,
     offers (rw_files w') (revocations_path config) (MkRevocations 1 entries (release_meta config at_ commit))).
Proof.
  intros Hrb Hw H. unfold publish_revocations in H. destruct (rc_revocations_attr config) as [attr|].
  2:{ apply mret_inv in H as [_ ->]. split; [apply published_refl|done]. }
  release_step H entries w1. unfold eval_revocations in H0. apply eval_json_ok in H0 as [Hf _].
  release_step H text w2. release_step H canonical w3. apply canonicalize_with_ok in H1 as [Hc ->].
  rewrite <- Hf in *.
  eapply (publish_offers _ "revocations" _ canonical (MkRevocations 1 entries (release_meta config at_ commit))) in H as [H1 H2];
    [|exact Hrb|by exists text|done|done]. split; [exact H1|]. intros _. by exists entries.
Qed.

Lemma publish_bootstrap_nonces_ok at_ commit w paths w' :
  reads_back Jb De_b -> well_signed keys (rw_files w) ->
  publish_bootstrap_nonces config at_ commit w = (Returned (Ok paths), w') ->
  published [nonces_path config] (rw_files w) (rw_files w') /\
  (rc_bootstrap_nonces_attr config <> None -> exists entries,
     offers (rw_files w') (nonces_path config) (MkBootstrapNonces 1 entries (release_meta config at_ commit)) /\
     Forall (fun e => (at_ <= bn_expires_at e)%Z) entries).
Proof.
  intros Hrb Hw H. unfold publish_bootstrap_nonces in H. destruct (rc_bootstrap_nonces_attr config) as [attr|].
  2:{ apply mret_inv in H as [_ ->]. split; [apply published_refl|done]. }
  release_step H entries w1. unfold eval_bootstrap_nonces in H0. apply eval_json_ok in H0 as [Hf _].
  release_step H text w2. release_step H canonical w3. apply canonicalize_with_ok in H1 as [Hc ->].
  rewrite <- Hf in *.
  eapply (publish_offers _ "bootstrap-nonces" _ canonical (MkBootstrapNonces 1 _ (release_meta config at_ commit))) in H as [H1 H2];
    [|exact Hrb|by exists text|done|done]. split; [exact H1|]. intros _.
  exists (prune_expired_bootstrap_nonces entries at_). split; [done|].
  apply Forall_forall. intros e He%list_elem_of_In%filter_In. destruct He as [_ He]. by apply Z.leb_le.
Qed.

(** The manifest of a channel, if it has hosts. *)
Definition projected (fleet : FleetResolved) (hash : string) (at_ : DateTime) (commit : option string)
    (channel : string) : result (option RolloutManifest) string :=
  project_manifest fleet channel hash at_ commit (rc_signature_algorithm config).

Lemma projected_spec fleet hash at_ commit channel m :
  projected fleet hash at_ commit channel = Ok (Some m) ->
  rm_channel m = channel /\ rm_channel_ref m = default "" commit /\ rm_schema_version m = 1%Z /\
  rm_fleet_resolved_hash m = hash /\ signed_at m = Some at_.
Proof.
  unfold projected, project_manifest. repeat (case_match; try done). by intros [= <-].
Qed.

Lemma publish_manifest_ok fleet hash at_ commit channel w paths w' :
  reads_back Jm Dm -> well_signed keys (rw_files w) ->
  publish_manifest config fleet hash at_ commit channel w = (Returned (Ok paths), w') ->
  published [manifest_path config (rollout_id_of channel commit)] (rw_files w) (rw_files w') /\
  forall m, projected fleet hash at_ commit channel = Ok (Some m) ->
    offers (rw_files w') (manifest_path config (rollout_id_of channel commit)) m.
Proof.
  intros Hrb Hw H. unfold publish_manifest in H. release_step H pm w1. fold (projected fleet hash at_ commit channel) in H0.
  destruct pm as [m|].
  2:{ apply mret_inv in H as [_ ->]. split; [apply published_refl|]. intros m. by rewrite H0. }
  pose proof (projected_spec _ _ _ _ _ _ H0) as (Hch & Href & _).
  release_step H text w2. release_step H canonical w3. apply canonicalize_with_ok in H2 as [Hc ->].
  rewrite Hch, Href in H. fold (rollout_id_of channel commit) in H.
  assert (Hn : rollout_id_of channel commit <> "") by by destruct channel.
  eapply (publish_offers _ _ _ canonical m) in H as [H2 H3]; [|exact Hrb|by exists text|done|done]. split; [exact H2|].
  intros m'. rewrite H0. by intros [= <-].
Qed.

Lemma publish_manifests_ok fleet hash at_ commit channels before w paths w' :
  reads_back Jm Dm -> well_signed keys (rw_files w) -> NoDup channels ->
  Forall (fun c => plain (rollout_id_of c commit)) channels ->
  publish_manifests config fleet hash at_ commit channels before w = (Returned (Ok paths), w') ->
  published (manifest_paths config commit channels) (rw_files w) (rw_files w') /\
  forall c m, c ∈ channels -> projected fleet hash at_ commit c = Ok (Some m) ->
    offers (rw_files w') (manifest_path config (rollout_id_of c commit)) m.
Proof.
  intros Hrb. revert before w. induction channels as [|c channels IH]; intros before w Hw Hnd Hpl H.
  { apply mret_inv in H as [_ ->]. split; [apply published_refl|]. by intros c m ?%not_elem_of_nil. }
  apply NoDup_cons in Hnd as [Hnin Hnd]. apply Forall_cons in Hpl as [Hc Hpl].
  release_step H ps w1. apply publish_manifest_ok in H0 as [Hp Ho]; [|done..].
  destruct (IH (before ++ ps) w1) as [Hps Hos]; [by apply Hp|done..|]. split.
  { unfold manifest_paths. rewrite fmap_cons. by eapply (published_trans [_]). }
  intros c' m [->|Hin]%elem_of_cons Hm; [|by apply Hos].
  eapply offers_published; [exact Hps|apply manifest_payload, rollout_id_nonempty| |by apply Ho].
  intros (c2 & Heq & Hin)%list_elem_of_fmap. apply Hnin.
  apply manifest_path_inj in Heq; [|done|exact (proj1 (Forall_forall _ _) Hpl _ Hin)].
  by apply rollout_id_of_inj in Heq as ->.
Qed.

End offered.

(** The identifier a verifier computes from the fleet is that of the manifest
    the tool projected, in whatever order either side visits its maps. *)
Lemma consumer_id (O1 O2 : HashOrder) fleet at_ commit algorithm hash channel id :
  let fleet' := stamp_meta fleet at_ commit algorithm in
  @compute_rollout_id_for_channel O1 (normalize_rollout_policies fleet') hash channel = Ok (Some id) ->
  id = rollout_id_of channel commit /\ is_Some (fr_channels fleet !! channel) /\
  exists m, @project_manifest O2 fleet' channel hash at_ commit algorithm = Ok (Some m).
Proof.
  intros fleet'. rewrite (rollout_id_deterministic O1 O2). unfold compute_rollout_id_for_channel, project_manifest.
  simpl. destruct (fr_channels fleet !! channel) as [ch|]; [|done].
  rewrite lookup_fmap. destruct (fr_rollout_policies fleet !! _) as [policy|]; [|done]. simpl.
  destruct (is_empty _); [done|]. intros [= <-]. split_and!; [done|done|by eexists].
Qed.

Lemma stamped fleet at_ commit algorithm :
  let fleet' := stamp_meta fleet at_ commit algorithm in
  signed_at fleet' = Some at_ /\ meta_ci_commit (fr_meta fleet') = commit /\ fr_channels fleet' = fr_channels fleet /\
  fr_hosts fleet' = fr_hosts fleet.
Proof. done. Qed.

(** Without reuse nothing of the old fleet artifact is kept. *)
Lemma canonical_hash {Cr : Crypto} text canonical :
  canonical_stable -> canonicalize text = Ok canonical -> canonical_hash_from_bytes canonical = Ok (sha256_hex canonical).
Proof.
  intros Hst (Hu & v & Hv & Hj)%Hst. unfold canonical_hash_from_bytes. rewrite Hu.
  assert (canonicalize canonical = Ok canonical) as -> by (apply canonicalize_ok; eauto). done.
Qed.

Section whole_run.
Context {O : HashOrder} {Cr : Crypto} {R : ReleaseEnv}.
Context {Df : DeserializeOwned FleetResolved} {Dl : DeserializeOwned (list string)}.
Context {Dr : DeserializeOwned (list RevocationEntry)} {Db : DeserializeOwned (list BootstrapNonceEntry)}.
Context {Jf : SerializeJson FleetResolved} {Jm : SerializeJson RolloutManifest}.
Context {Jr : SerializeJson Revocations} {Jb : SerializeJson BootstrapNonces}.

Lemma query_no_write a : is_query a -> no_write a.
Proof. by destruct a. Qed.

Lemma push_no_write config built w r w' : push_all config built w = (r, w') -> rw_files w' = rw_files w.
Proof.
  apply does_no_write. unfold push_all. destruct (rc_push_cmd config) as [cmd|]; [|apply does_ret].
  apply does_each. intros [host path]. unfold push_one. does_walk. by apply does_command.
Qed.

Lemma commit_no_write config paths commit at_ preserved names w r w' :
  commit_release config paths commit at_ preserved names w = (r, w') -> rw_files w' = rw_files w.
Proof.
  apply does_no_write. unfold commit_release, git_commit_release, git_push_release, git_head_sha, run_git.
  does_walk; by apply does_command.
Qed.

(** Everything after the pushes. *)
Lemma does_publications config resolved commit (host_names : list string) :
  does is_publication
    ('(resolved, preserved_signed_at, signed_at, canonical) ← publish_fleet config resolved commit;
     revocations_paths ← publish_revocations config signed_at commit;
     bootstrap_nonces_paths ← publish_bootstrap_nonces config signed_at commit;
     manifest_paths ← publish_manifests config resolved (sha256_hex canonical) signed_at commit
                        (hash_iter (fr_channels resolved)).*1 [];
     commit_release config
       ([ path_join (rc_release_dir config) (rc_artifact_name config);
          path_join (rc_release_dir config) (rc_artifact_name config +:+ ".sig") ] ++
        revocations_paths ++ bootstrap_nonces_paths ++ manifest_paths)
       commit signed_at preserved_signed_at host_names).
Proof.
  apply does_bind; [apply does_publish_fleet|]. intros [[[r preserved] at_] canonical].
  apply does_bind; [apply does_publish_revocations|]. intros ps1.
  apply does_bind; [apply does_publish_bootstrap_nonces|]. intros ps2.
  apply does_bind; [apply does_publish_manifests|]. intros ps3. apply does_commit_release.
Qed.

(** The calls of a run that succeeded, with the files between them. *)
Lemma run_ok config w outcome w' :
  run config w = (Returned (Ok outcome), w') ->
  exists fleet commit built w0 w1 resolved preserved at_ canonical w2 ps1 w3 ps2 w4 ps3 w5,
    prepare config w = (Returned (Ok (fleet, commit, built)), w0) /\ rw_files w1 = rw_files w /\
    publish_fleet config (inject_closure_hashes fleet (closure_hash <$> built)) commit w1 =
      (Returned (Ok (resolved, preserved, at_, canonical)), w2) /\
    publish_revocations config at_ commit w2 = (Returned (Ok ps1), w3) /\
    publish_bootstrap_nonces config at_ commit w3 = (Returned (Ok ps2), w4) /\
    publish_manifests config resolved (sha256_hex canonical) at_ commit (hash_iter (fr_channels resolved)).*1 []
      w4 = (Returned (Ok ps3), w5) /\
    rw_files w' = rw_files w5.
Proof.
  intros H. unfold run in H. release_step H u0 w0. release_step H p1 w1. destruct p1 as [[fleet commit] built].
  release_step H u2 w2. release_step H p3 w3. destruct p3 as [[[resolved preserved] at_] canonical].
  release_step H ps1 w4. release_step H ps2 w5. release_step H ps3 w6. apply commit_no_write in H.
  apply push_no_write in H2. exists fleet, commit, built, w1, w2, resolved, preserved, at_, canonical, w3, ps1, w4, ps2, w5, ps3, w6.
  split_and!; try done. rewrite H2. eapply does_no_write; [|exact H1].
  eapply does_weaken; [apply does_prepare|apply query_no_write].
Qed.

End whole_run.

(** ** Which files a call leaves alone *)

Definition elsewhere (q : string) (a : Action) : Prop :=
  match a with Wrote p _ => p <> q /\ p <> q +:+ ".sig" | Ran _ => True end.

Lemma does_elsewhere {A} q (m : ReleaseM A) w r w' :
  does (elsewhere q) m -> m w = (r, w') ->
  rw_files w' !! q = rw_files w !! q /\ rw_files w' !! (q +:+ ".sig") = rw_files w !! (q +:+ ".sig").
Proof.
  intros Hm H. destruct (Hm _ _ _ H) as (t & [_ ->] & Ht). clear H. revert Ht. generalize (rw_files w).
  induction t as [|a t IH]; intros store Ht; [done|]. apply Forall_cons in Ht as [Ha Ht]. simpl.
  destruct (IH (written a store) Ht) as [-> ->]. destruct a as [c|p b]; [done|]. destruct Ha as [H1 H2].
  simpl. by rewrite !lookup_insert_ne.
Qed.

Lemma no_write_elsewhere q a : no_write a -> elsewhere q a.
Proof. by destruct a. Qed.

Section left_alone.
Context {O : HashOrder} {Cr : Crypto} {R : ReleaseEnv}.
Context {Df : DeserializeOwned FleetResolved} {Dr : DeserializeOwned (list RevocationEntry)}.
Context {Db : DeserializeOwned (list BootstrapNonceEntry)}.
Context {Jm : SerializeJson RolloutManifest} {Jr : SerializeJson Revocations} {Jb : SerializeJson BootstrapNonces}.
Context (config : ReleaseConfig) (q : string) (Hq : payload_path q).

Lemma pair_elsewhere p : payload_path p -> p <> q -> p <> q /\ p <> q +:+ ".sig" /\ p +:+ ".sig" <> q /\ p +:+ ".sig" <> q +:+ ".sig".
Proof.
  unfold payload_path in *. intros Hp Hne. pose proof (sig_path p). pose proof (sig_path q).
  split_and!; try congruence. by intros ?%append_cancel_r.
Qed.

Lemma publish_elsewhere dir name what canonical :
  name <> "" -> payload_path (path_join dir name) -> path_join dir name <> q ->
  does (elsewhere q) (publish config dir name what canonical).
Proof.
  intros Hn Hp Hne. destruct (pair_elsewhere _ Hp Hne) as (H1 & H2 & H3 & H4).
  unfold publish, signature_for, sign, write_release, atomic_write. rewrite path_join_app by done.
  does_walk; try (by apply does_command); by apply does_persist.
Qed.

Lemma revocations_elsewhere at_ commit :
  q <> revocations_path config -> does (elsewhere q) (publish_revocations config at_ commit).
Proof.
  intros Hne. unfold publish_revocations, eval_revocations, eval_json.
  does_walk; try (by apply does_command). apply publish_elsewhere; [done| |done].
  change "revocations.json" with ("revocations" +:+ ".json"). rewrite path_join_app by done. apply json_payload.
Qed.

Lemma nonces_elsewhere at_ commit :
  q <> nonces_path config -> does (elsewhere q) (publish_bootstrap_nonces config at_ commit).
Proof.
  intros Hne. unfold publish_bootstrap_nonces, eval_bootstrap_nonces, eval_json.
  does_walk; try (by apply does_command). apply publish_elsewhere; [done| |done].
  change "bootstrap-nonces.json" with ("bootstrap-nonces" +:+ ".json"). rewrite path_join_app by done. apply json_payload.
Qed.

Lemma manifests_elsewhere fleet hash at_ commit channels before :
  q ∉ manifest_paths config commit channels ->
  does (elsewhere q) (publish_manifests config fleet hash at_ commit channels before).
Proof.
  revert before. induction channels as [|c channels IH]; intros before Hnin; [apply does_ret|].
  apply not_elem_of_cons in Hnin as [Hne Hnin]. apply does_bind; [|intros; by apply IH].
  unfold publish_manifest. apply does_result_bind. intros [m|] E; [|apply does_ret].
  destruct (projected_spec config fleet hash at_ commit c m E) as (-> & -> & _).
  fold (rollout_id_of c commit). pose proof (rollout_id_nonempty c commit) as Hid.
  does_walk. apply publish_elsewhere.
  - by destruct (rollout_id_of c commit).
  - by apply (manifest_payload config).
  - by intros Heq; apply Hne.
Qed.

End left_alone.

(** ** Reusing a signature *)

Section reuse.
Context {O : HashOrder} {Cr : Crypto} {R : ReleaseEnv}.
Context {Df : DeserializeOwned FleetResolved} {Jf : SerializeJson FleetResolved}.
Context (config : ReleaseConfig) (Hio : forall n, re_io n = None).

Lemma exists_works p w b w' :
  exists_ p w = (Returned (Ok b), w') -> b = bool_decide (is_Some (rw_files w !! p)) /\ rw_files w' = rw_files w.
Proof using Hio.
  intros H. pose proof (proj1 (exists_ok _ _ _ _ H)) as Hf. split; [|exact Hf].
  unfold exists_ in H. release_step H f w1. release_step H store w2. apply mret_inv in H as [-> _].
  by rewrite Hio.
Qed.

(** When the closures of the release on disk are unchanged, its time and its
    signature are kept, whatever else changed. *)
Lemma publish_fleet_reused resolved commit w resolved' preserved at_ canonical w' bytes sg old signed :
  rc_reuse_unchanged_signature config = true -> rc_artifact_name config <> "" ->
  rw_files w !! release_path config = Some bytes -> rw_files w !! (release_path config +:+ ".sig") = Some sg ->
  from_utf8 bytes = Some bytes -> from_str bytes = Ok old ->
  host_closure_hash <$> fr_hosts resolved = host_closure_hash <$> fr_hosts old ->
  signed_at old = Some signed ->
  publish_fleet config resolved commit w = (Returned (Ok (resolved', preserved, at_, canonical)), w') ->
  resolved' = stamp_meta resolved signed commit (rc_signature_algorithm config) /\
  canonical_of resolved' canonical /\ rw_files w' = paired (release_path config) canonical sg (rw_files w).
Proof using Hio.
  intros Hre Hn Hb Hsg Hu Hold Heq Hsigned H. unfold publish_fleet in H. rewrite Hre in H.
  release_step H preserved1 w1.
  assert (preserved1 = Some signed /\ rw_files w1 = rw_files w) as [-> Hf1].
  { unfold load_existing_signed_at_if_unchanged in H0. release_step H0 here w2.
    apply exists_works in H1 as [-> Hf2]. fold (release_path config) in H0.
    rewrite Hb, bool_decide_eq_true_2 in H0 by done. simpl in H0. release_step H0 raw w3.
    release_step H1 bytes1 w4. apply read_ok in H2 as [Hf4 Hr]. rewrite Hf2 in Hr.
    fold (release_path config) in Hr. rewrite Hb in Hr. injection Hr as <-. rewrite Hu in H1.
    apply mret_inv in H1 as [-> ->]. release_step H0 existing w5. rewrite Hold in H1. injection H1 as <-.
    rewrite bool_decide_eq_true_2 in H0 by done. apply mret_inv in H0 as [-> ->]. split; [done|congruence]. }
  release_step H at1 w2. release_step H canonical1 w3. apply canonicalize_resolved_ok in H1 as [Hc ->].
  rewrite bool_decide_eq_true_2 in H by done. release_step H reuse w4. apply exists_works in H1 as [-> Hf4].
  rewrite path_join_app in H by done. fold (release_path config) in H.
  rewrite Hf1, Hsg, bool_decide_eq_true_2 in H by done. release_step H sg1 w5. apply read_ok in H1 as [Hf5 Hr].
  rewrite Hf4, Hf1, Hsg in Hr. injection Hr as <-. release_step H u w6.
  assert (Hf6 : rw_files w6 = rw_files w5).
  { destruct (rc_smoke_verify config); [|by apply mret_inv in H1 as [_ ->]].
    eapply does_no_write; [|exact H1]. unfold smoke_verify, canonicalize_resolved. does_walk. }
  release_step H u2 w7. destruct u2. apply write_release_ok in H2; [|done]. apply mret_inv in H as [H ->].
  injection H as -> -> -> ->. split_and!; [done..|]. rewrite H2. f_equal. congruence.
Qed.

End reuse.

(** ** Runs that end in any way *)

Lemma bind_any {A B} (m : ReleaseM A) (k : A -> ReleaseM B) w r w' :
  (m ≫= k) w = (r, w') ->
  (exists a w1, m w = (Returned (Ok a), w1) /\ k a w1 = (r, w')) \/
  (exists r1, m w = (r1, w')) /\ forall b, r <> Returned (Ok b).
Proof.
  unfold mbind, ReleaseM_bind. destruct (m w) as [[[a|e]| |] w1]; intros H; [left; by exists a, w1|..];
    injection H as <- <-; right; (split; [by eexists|done]).
Qed.

Section prepared.
Context {O : HashOrder} {Cr : Crypto} {R : ReleaseEnv}.
Context {Df : DeserializeOwned FleetResolved} {Dl : DeserializeOwned (list string)}.

Lemma does_enumerate config : does is_query (enumerate_hosts config).
Proof. unfold enumerate_hosts, list_attr_optional. does_walk; by apply does_command. Qed.

(** What was found and built when the first phase succeeds: the builds come last. *)
Lemma prepare_ok config w resolved commit built w' :
  prepare config w = (Returned (Ok (resolved, commit, built)), w') ->
  exists nixos darwin hosts fleet now before commands,
    select_hosts (rc_flake_dir config) (rc_hosts config) (sorted_names nixos) (sorted_names darwin) = Ok hosts /\
    hosts <> [] /\ resolved = filter_expired_pins fleet now /\
    build_command config resolved commit <$> hosts = Some <$> commands /\
    did w w' (before ++ (Ran <$> commands)) /\ Forall is_query before /\
    (forall host, is_Some (built !! host) <-> host ∈ hosts.*1) /\
    (forall host path, built !! host = Some path ->
       exists kind c, (host, kind) ∈ hosts /\ build_command config resolved commit (host, kind) = Some c /\
         printed c path).
Proof.
  intros H. unfold prepare in H. release_step H hosts w1.
  destruct (does_enumerate config _ _ _ H0) as (t1 & Hd1 & Ht1).
  destruct (is_empty hosts) eqn:Ee; [done|]. release_step H fl w2.
  assert (Hq1 : does is_query (eval_fleet_resolved config)).
  { unfold eval_fleet_resolved, eval_json. does_walk. by apply does_command. }
  destruct (Hq1 _ _ _ H1) as (t2 & Hd2 & Ht2). release_step H commit1 w3.
  assert (Hq2 : does is_query (attempt (git_head_sha (rc_flake_dir config)))).
  { unfold git_head_sha. does_walk. by apply does_command. }
  destruct (Hq2 _ _ _ H2) as (t3 & Hd3 & Ht3). release_step H now w4. release_step H u w5. release_step H b w6.
  apply mret_inv in H as [H ->]. injection H as -> -> ->.
  apply build_hosts_ok in H4 as (commands & Hc & Hd4 & Hdom & Hall).
  unfold enumerate_hosts in H0. release_step H0 nixos w7. release_step H0 darwin w8.
  apply from_result_inv in H0 as [Hsel ->].
  exists nixos, darwin, hosts, fl, (re_now (rw_asked w3)), ((t1 ++ t2) ++ t3), commands. split_and!; try done.
  - intros ->. done.
  - eapply did_app; [eapply did_app; [eapply did_app; [exact Hd1|exact Hd2]|exact Hd3]|exact Hd4].
  - by repeat apply Forall_app_2.
  - intros host. rewrite Hdom, lookup_empty. split; [intros [[? [=]]|]; done|by right].
  - intros host path Hlk. destruct (Hall _ _ Hlk) as [Hno|]; [by rewrite lookup_empty in Hno|done].
Qed.

(** Every selected host was built at the end of [queries], in order: from the
    flake, or from the source at the commit a pin that has not expired names.
    [built] has the path each build printed. *)
Definition everything_built (config : ReleaseConfig) (queries : list Action) (built : gmap string string) : Prop :=
  exists nixos darwin hosts fleet now commit before commands,
    let resolved := filter_expired_pins fleet now in
    select_hosts (rc_flake_dir config) (rc_hosts config) (sorted_names nixos) (sorted_names darwin) = Ok hosts /\
    hosts <> [] /\ queries = before ++ (Ran <$> commands) /\
    build_command config resolved commit <$> hosts = Some <$> commands /\
    (forall host, is_Some (built !! host) <-> host ∈ hosts.*1) /\
    (forall host path, built !! host = Some path ->
       exists kind c, (host, kind) ∈ hosts /\ build_command config resolved commit (host, kind) = Some c /\
         printed c path).

Lemma prepare_built config w resolved commit built w' queries :
  prepare config w = (Returned (Ok (resolved, commit, built)), w') -> did w w' queries ->
  everything_built config queries built.
Proof.
  intros H [Hd _]. apply prepare_ok in H as (nixos & darwin & hosts & fl & now & before & commands & H1 & H2 & -> &
    H3 & [H4 _] & _ & H5 & H6).
  exists nixos, darwin, hosts, fl, now, commit, before, commands. split_and!; try done.
  rewrite Hd in H4. by apply app_inv_head in H4.
Qed.

End prepared.
