(* ===== verification/ReleaseSpecs.v ===== *)
(** * The release tool: theorems

    A release is what the control plane and the agents accept, nothing is pushed
    or published before everything is built, and reuse of a signature publishes a
    pair nobody accepts. *)

From S2P Require Import Prelude RustStd Proto Gates Verify VerifyProps Manifest Issuance Release ReleaseProps.

(** ** A sample flake

    One host on one channel; the flake evaluates to a fleet without closures, the
    build prints a store path, and the release has two texts. *)

Definition text_crypto : Crypto := {|
  Value := string;
  parse_value := fun s => match from_utf8 s with Some s => Ok s | None => Err "utf-8" end;
  jcs_to_string := Ok;
  base64_decode := fun s => Ok (pad 32 s);
  Ed25519Key := string;
  ed25519_from_bytes := Ok;
  verify_strict := fun k m s => bool_decide (s = sample_sign k m);
  EncodedPoint := string;
  P256Key := string;
  P256Signature := string;
  encoded_point_from_bytes := Ok;
  from_encoded_point := Ok;
  p256_from_slice := Some;
  normalize_s := fun _ => None;
  p256_verify := fun _ _ _ => false;
  sha256 := pad 2;
  utf8_error := fun _ => "";
|}.

Definition flake_fleet : FleetResolved :=
  MkFleetResolved 1 {[ "web" := MkHost "x86_64-linux" [] "stable" None None None ]}
    {[ "stable" := MkChannel "p" 5 180 60 ]}
    {[ "p" := MkRolloutPolicy "waves" [] (MkHealthGate None) OnHealthFailure.Halt ]} ∅ [] [] []
    (MkMeta 1 None None None).

(** The fleet released from a commit at a time. *)
Definition released_fleet (commit : string) (at_ : DateTime) : FleetResolved :=
  stamp_meta (inject_closure_hashes flake_fleet {[ "web" := "abc-web" ]}) at_ (Some commit) "ed25519".

Definition released_revocations (at_ : DateTime) : Revocations :=
  MkRevocations 1 [] (MkMeta 1 (Some at_) (Some "c0ffee") (Some "ed25519")).

Definition released_manifest (at_ : DateTime) : RolloutManifest :=
  MkRolloutManifest 1 "stable@c0ffee" "stable" "c0ffee" "666c" [MkHostWave "web" 0 "abc-web"] (MkHealthGate None) []
    (MkMeta 1 (Some at_) (Some "c0ffee") (Some "ed25519")).

(** A codec of the values [vs], each with its text. *)
Definition encode {T} `{EqDecision T} (vs : list (T * string)) : SerializeJson T := fun x =>
  match List.find (fun p => bool_decide (p.1 = x)) vs with Some p => Ok p.2 | None => Err "unexpected" end.
Definition decode {T} (vs : list (T * string)) : DeserializeOwned T := fun s =>
  match List.find (fun p => bool_decide (p.2 = s)) vs with Some p => Ok p.1 | None => Err "unexpected" end.

Definition fleets : list (FleetResolved * string) :=
  [ (flake_fleet, "flake"); (released_fleet "c0de" (duration_minutes 2), "fleet-1");
    (released_fleet "c0ffee" (duration_minutes 2), "fleet-2"); (released_fleet "c0ffee" (duration_minutes 9), "fleet-3") ].
Definition manifests : list (RolloutManifest * string) := 
  [(released_manifest (duration_minutes 2), "manifest-2"); (released_manifest (duration_minutes 9), "manifest-3")].
Definition revocation_lists : list (Revocations * string) := 
  [ (released_revocations (duration_minutes 2), "revocations-2");
    (released_revocations (duration_minutes 9), "revocations-3") ].

Definition names_decoder : DeserializeOwned (list string) := decode [(["web"], "names")].
Definition entries_decoder : DeserializeOwned (list RevocationEntry) := decode [([], "entries")].
Definition no_nonces : DeserializeOwned (list BootstrapNonceEntry) := decode [].
Definition nonces_encoder : SerializeJson BootstrapNonces := fun _ => Err "unexpected".
Definition nonces_decoder : DeserializeOwned BootstrapNonces := decode [].

Definition flake_env : ReleaseEnv := {|
  re_now := fun _ => duration_minutes 9;
  re_run := fun _ c =>
    match c with
    | Nix args _ =>
        if mem_str "build" args then Finished (Some 0%Z) "/nix/store/abc-web" ""
        else if mem_str ".#nixosConfigurations" args then Finished (Some 0%Z) "names" ""
        else if mem_str ".#fleet.resolved" args then Finished (Some 0%Z) "flake" ""
        else if mem_str ".#revocations" args then Finished (Some 0%Z) "entries" ""
        else Finished (Some 1%Z) "" "has no attribute"
    | Git _ _ => Finished (Some 0%Z) "c0ffee" ""
    | _ => Finished (Some 0%Z) "" ""
    end;
  re_signature := fun _ _ input => sample_sign (pad 32 "ci") input;
  re_io := fun _ => None;
  re_debug := id;
  re_debug_args := fun _ => "";
  re_lossy := id;
  re_to_lowercase := id;
  re_to_rfc3339 := fun _ => "";
|}.

Definition flake_config (reuse : bool) : ReleaseConfig :=
  MkReleaseConfig "." ".#fleet.resolved" Auto (Some "push") "sign" "ed25519" "releases" "fleet.resolved.json"
    false None "release" None None true reuse (Some "revocations") None None.

(** The release of an earlier commit with the same closures. *)
Definition earlier : ReleaseWorld :=
  MkReleaseWorld
    {[ "releases/fleet.resolved.json" := "fleet-1"; "releases/fleet.resolved.json.sig" := pad 64 "1" ]} 0 [].

Abbreviation flake_run C config w :=
  (run (O := list_order) (Cr := C) (R := flake_env) (Df := decode fleets) (Dl := names_decoder) (Dr := entries_decoder)
     (Db := no_nonces) (Jf := encode fleets) (Jm := encode manifests) (Jr := encode revocation_lists)
     (Jb := nonces_encoder) config w).

Section specs.
Context {O : HashOrder} {Cr : Crypto} {R : ReleaseEnv}.
Context {Df : DeserializeOwned FleetResolved} {Dl : DeserializeOwned (list string)}.
Context {Dm : DeserializeOwned RolloutManifest} {De_r : DeserializeOwned Revocations}.
Context {De_b : DeserializeOwned BootstrapNonces}.
Context {Dr : DeserializeOwned (list RevocationEntry)} {Db : DeserializeOwned (list BootstrapNonceEntry)}.
Context {Jf : SerializeJson FleetResolved} {Jm : SerializeJson RolloutManifest}.
Context {Jr : SerializeJson Revocations} {Jb : SerializeJson BootstrapNonces}.

(** C7.  A release is what its readers accept.  When a run without reuse succeeds, with
    a hook that signs for [keys] and over files whose pairs were good, then at
    every later time within the window the fleet artifact is accepted as one
    fleet; for each channel whose rollout the control plane or an agent derives
    from that fleet and its hash, a manifest with that identifier and that hash
    is there and accepted; so are the revocations and the nonces that were asked
    for; and the pairs on disk are all good again. *)
Theorem released_artifacts_are_accepted (keys : list TrustedPubkey) (config : ReleaseConfig) (w w' : ReleaseWorld)
    (outcome : RunOutcome) :
  canonical_stable -> reads_back Jf Df -> reads_back Jm Dm -> reads_back Jr De_r -> reads_back Jb De_b ->
  hook_signs keys (rc_sign_cmd config) -> well_signed keys (rw_files w) ->
  rc_reuse_unchanged_signature config = false -> plain (rc_artifact_name config) ->
  rc_artifact_name config ∉ ["revocations.json"; "bootstrap-nonces.json"] -> payload_path (release_path config) ->
  run config w = (Returned (Ok outcome), w') ->
  let store := rw_files w' in
  exists fleet at_ commit, signed_at fleet = Some at_ /\ meta_ci_commit (fr_meta fleet) = commit /\
    ((forall c, is_Some (fr_channels fleet !! c) -> plain (rollout_id_of c commit)) ->
     well_signed keys store /\
     offers keys store (release_path config) fleet /\
     (exists bytes hash, store !! release_path config = Some bytes /\ canonical_hash_from_bytes bytes = Ok hash /\
        forall (O' : HashOrder) channel id,
          @compute_rollout_id_for_channel O' (normalize_rollout_policies fleet) hash channel = Ok (Some id) ->
          exists m, offers keys store (manifest_path config id) m /\ rm_fleet_resolved_hash m = hash /\
            rid_raw (rollout_id.new (rm_channel m) (rm_channel_ref m)) = id /\
            schema_version m = ACCEPTED_SCHEMA_VERSION /\ signed_at m = Some at_) /\
     (rc_revocations_attr config <> None -> exists entries,
        offers keys store (revocations_path config) (MkRevocations 1 entries (release_meta config at_ commit))) /\
     (rc_bootstrap_nonces_attr config <> None -> exists entries,
        offers keys store (nonces_path config) (MkBootstrapNonces 1 entries (release_meta config at_ commit)) /\
        Forall (fun e => (at_ <= bn_expires_at e)%Z) entries)).
Proof.
  intros Hst Hf Hm Hr Hb Hhook Hw Hre Hpl Hnin Hpay H store.
  apply run_ok in H as (fleet0 & commit & built & w0 & w1 & fleet & preserved & at_ & canonical & w2 & ps1 & w3 & ps2 &
    w4 & ps3 & w5 & _ & Hf1 & H2 & H3 & H4 & H5 & Hstore).
  apply (publish_fleet_ok keys) in H2 as (-> & -> & Hc & Hat & Hp2 & Ho2); [|by destruct Hpl..|done].
  set (fleet := stamp_meta _ _ _ _) in *. rewrite Hf1 in Hp2.
  assert (Hw2 : well_signed keys (rw_files w2)) by by apply Hp2.
  apply (publish_revocations_ok keys) in H3 as [Hp3 Ho3]; [|done..].
  assert (Hw3 : well_signed keys (rw_files w3)) by by apply Hp3.
  apply (publish_bootstrap_nonces_ok keys) in H4 as [Hp4 Ho4]; [|done..].
  assert (Hw4 : well_signed keys (rw_files w4)) by by apply Hp4.
  exists fleet, at_, commit. split; [done|]. split; [done|]. intros Hids.
  assert (Hall : Forall (fun c => plain (rollout_id_of c commit)) (hash_iter (fr_channels fleet)).*1).
  { apply Forall_forall. intros c ([c' ch] & -> & Hin%elem_of_hash_iter)%list_elem_of_fmap. apply Hids. by exists ch. }
  apply (publish_manifests_ok keys) in H5 as [Hp5 Ho5]; [|done..|apply NoDup_fst_hash_iter|done].
  unfold store. rewrite Hstore. apply not_elem_of_cons in Hnin as [Hn1 Hn2]. apply not_elem_of_cons in Hn2 as [Hn2 _].
  destruct (paths_apart config (rc_artifact_name config) commit _ Hpl Hn1 Hn2 Hall) as (Q1 & Q2 & Q3 & Q4 & Q5).
  pose proof (published_trans _ _ _ _ _ _ Hp4 Hp5) as Hp45.
  pose proof (published_trans _ _ _ _ _ _ Hp3 Hp45) as Hp35. split_and!.
  - by apply Hp5.
  - by eapply offers_published.
  - exists canonical, (sha256_hex canonical). split_and!.
    + destruct Hp35 as [_ Hp35]. by destruct (Hp35 (release_path config)) as [-> _].
    + destruct Hc as (text & _ & Hc). by eapply canonical_hash.
    + intros O' channel id Hid. apply (consumer_id O' O) in Hid as (-> & [ch Hch] & m & Hm').
      exists m. pose proof (projected_spec config _ _ _ _ _ _ Hm') as (-> & -> & M1 & M2 & M3).
      split_and!; [|done..]. apply (Ho5 channel); [|done].
      apply list_elem_of_fmap. exists (channel, ch). by rewrite elem_of_hash_iter.
  - intros [entries He]%Ho3. exists entries. by apply (offers_published _ _ _ _ _ _ Hp45).
  - intros [entries [He Hb']]%Ho4. exists entries. split; [by apply (offers_published _ _ _ _ _ _ Hp5)|done].
Qed.


(** C8.  Reuse publishes what nobody accepts.  Take a good release on disk, whose
    signature no trusted key verifies for another text, and a run with reuse in
    which no closure changed but the commit did.  When it succeeds, the fleet
    artifact is that of the new commit with the old signature, and every verifier
    refuses it at every time, with every window and switch. *)
Theorem reuse_publishes_stale_signature (keys : list TrustedPubkey) (config : ReleaseConfig)
    (w w0 w' : ReleaseWorld) (outcome : RunOutcome) (bytes sg : string) (old fleet : FleetResolved)
    (commit : option string) (built : gmap string string) (signed : DateTime) :
  let resolved := inject_closure_hashes fleet (closure_hash <$> built) in
  canonical_stable -> reads_back Jf Df -> (forall n, re_io n = None) ->
  rc_reuse_unchanged_signature config = true -> plain (rc_artifact_name config) ->
  rc_artifact_name config ∉ ["revocations.json"; "bootstrap-nonces.json"] -> payload_path (release_path config) ->
  rw_files w !! release_path config = Some bytes -> rw_files w !! (release_path config +:+ ".sig") = Some sg ->
  canonical_form bytes bytes -> from_str bytes = Ok old -> signed_at old = Some signed ->
  (forall text, signs keys sg text -> text = bytes) ->
  prepare config w = (Returned (Ok (fleet, commit, built)), w0) ->
  host_closure_hash <$> fr_hosts resolved = host_closure_hash <$> fr_hosts old ->
  commit <> meta_ci_commit (fr_meta old) ->
  (forall c, is_Some (fr_channels fleet !! c) -> plain (rollout_id_of c commit)) ->
  run config w = (Returned (Ok outcome), w') ->
  exists published, rw_files w' !! release_path config = Some published /\
    rw_files w' !! (release_path config +:+ ".sig") = Some sg /\
    from_str published = Ok (stamp_meta resolved signed commit (rc_signature_algorithm config)) /\
    forall now window reject_before v, (0 <= window)%Z ->
      verify_artifact published sg keys now window reject_before <> Returned (Ok v).
Proof.
  intros resolved Hst Hrb Hio Hre Hpl Hnin Hpay Hb Hsg Hcan Hold Hsigned Hbind Hprep Heq Hcommit Hids H.
  apply run_ok in H as (fleet0 & commit0 & built0 & w01 & w1 & fleet1 & preserved & at_ & canonical & w2 & ps1 & w3 &
    ps2 & w4 & ps3 & w5 & Hprep0 & Hf1 & H2 & H3 & H4 & H5 & Hstore).
  rewrite Hprep in Hprep0. injection Hprep0 as <- <- <- <-. fold resolved in H2.
  apply (publish_fleet_reused config Hio _ _ _ _ _ _ _ _ bytes sg old signed) in H2 as (-> & Hc & Hf2);
    [|done|by destruct Hpl|by rewrite Hf1|by rewrite Hf1|apply Hcan|done..].
  set (fleet1 := stamp_meta _ _ _ _) in *.
  assert (Hch : fr_channels fleet1 = fr_channels fleet).
  { unfold fleet1, resolved, inject_closure_hashes. simpl. induction (btree_iter _) as [|[h x] l IH] using rev_ind; [done|].
    by rewrite fold_left_app. }
  assert (Hall : Forall (fun c => plain (rollout_id_of c commit)) (hash_iter (fr_channels fleet1)).*1).
  { apply Forall_forall. intros c ([c' ch] & -> & Hin%elem_of_hash_iter)%list_elem_of_fmap. apply Hids.
    rewrite <- Hch. by exists ch. }
  apply not_elem_of_cons in Hnin as [Hn1 Hn2]. apply not_elem_of_cons in Hn2 as [Hn2 _].
  destruct (paths_apart config (rc_artifact_name config) commit _ Hpl Hn1 Hn2 Hall) as (Q1 & _).
  apply not_elem_of_app in Q1 as [Q1 Q2]. apply not_elem_of_app in Q2 as [Q2 Q3].
  rewrite list_elem_of_singleton in Q1. rewrite list_elem_of_singleton in Q2.
  fold (release_path config) in Q1, Q2, Q3.
  destruct (does_elsewhere _ _ _ _ _ (revocations_elsewhere config _ Hpay at_ commit Q1) H3) as [E1 E2].
  destruct (does_elsewhere _ _ _ _ _ (nonces_elsewhere config _ Hpay at_ commit Q2) H4) as [E3 E4].
  destruct (does_elsewhere _ _ _ _ _ (manifests_elsewhere config _ Hpay _ _ at_ commit _ [] Q3) H5) as [E5 E6].
  destruct (paired_here (release_path config) canonical sg (rw_files w1)) as [P1 P2].
  exists canonical. rewrite Hstore, E5, E6, E3, E4, E1, E2, Hf2. split_and!; [done|done|by apply Hrb|].
  intros now window rb v Hw Hver. unfold verify_artifact in Hver.
  destruct (verify_signed_sidecar canonical sg keys now window rb) as [[v'|e]| |] eqn:E; try done.
  apply sidecar_ok in E as (_ & c & Hc' & Hs & _); [|done].
  destruct Hc as (text & Htext & Ht). pose proof (Hst _ _ Ht) as Hcc.
  rewrite (canonical_form_unique _ _ _ Hc' Hcc) in Hs. apply Hbind in Hs as <-.
  assert (Hb2 : from_str canonical = Ok fleet1) by (apply Hrb; by exists text).
  rewrite Hold in Hb2. injection Hb2 as ->. by apply Hcommit.
Qed.

End specs.

(** ** Witnesses *)

Lemma codec_reads_back {T} {E : EqDecision T} (vs : list (T * string)) :
  (forall v text v', (v, text) ∈ vs -> List.find (fun p => bool_decide (p.2 = text)) vs = Some v' -> v'.1 = v) ->
  reads_back (Cr := text_crypto) (encode vs) (decode vs).
Proof.
  intros Hvs payload canonical (text & Hj & Hc). unfold encode, json_to_string in Hj.
  assert (text = canonical) as ->.
  { unfold canonicalize in Hc. simpl in Hc. unfold from_utf8 in Hc. destruct (utf8_valid [] text); [|done].
    by injection Hc. }
  destruct (List.find _ vs) as [[v t]|] eqn:Ef; [|done]. injection Hj as ->.
  apply List.find_some in Ef as [Hin%list_elem_of_In Hv%bool_decide_eq_true]. simpl in Hv. subst v.
  unfold decode, from_str. destruct (List.find (fun p => bool_decide (p.2 = canonical)) vs) as [p|] eqn:Ef.
  - by rewrite (Hvs _ _ _ Hin Ef).
  - exfalso. by pose proof (List.find_none _ _ Ef _ (proj1 (list_elem_of_In _ _) Hin)) as Hn%bool_decide_eq_false.
Qed.

Ltac read_codec :=
  apply codec_reads_back; intros v text v' Hin Hf;
  repeat (apply elem_of_cons in Hin as [Hin|Hin]; [injection Hin as -> ->; vm_compute in Hf; by injection Hf as <-|]);
  by apply elem_of_nil in Hin.

Lemma fleets_read_back : reads_back (Cr := text_crypto) (encode fleets) (decode fleets).
Proof. read_codec. Qed.

Lemma manifests_read_back : reads_back (Cr := text_crypto) (encode manifests) (decode manifests).
Proof. read_codec. Qed.

Lemma revocations_read_back : reads_back (Cr := text_crypto) (encode revocation_lists) (decode revocation_lists).
Proof. read_codec. Qed.

Lemma text_stable : canonical_stable (Cr := text_crypto).
Proof.
  intros text canonical H. unfold canonicalize in H. simpl in H. destruct (from_utf8 text) as [s|] eqn:Eu; [|done].
  injection H as ->. pose proof (from_utf8_id _ _ Eu) as ->. split; [done|].
  exists text. simpl. by rewrite Eu.
Qed.

Lemma length_pad n s : String.length (pad n s) = n.
Proof. revert s. induction n as [|n IH]; intros [|c s]; simpl; by rewrite ?IH. Qed.

Lemma sample_hook_signs : hook_signs (Cr := text_crypto) (R := flake_env) [sample_key "ci"] "sign".
Proof.
  intros n input _. apply Exists_cons_hd. left. split; [done|]. unfold verify_ed25519.
  cbn [base64_decode text_crypto tp_public sample_key]. rewrite length_pad, bool_decide_eq_true_2 by done.
  cbn [negb ed25519_from_bytes text_crypto]. unfold re_signature, flake_env, sample_sign. rewrite length_pad.
  rewrite bool_decide_eq_true_2 by done. cbn. by rewrite bool_decide_eq_true_2.
Qed.

Ltac plain_name := split; [discriminate|]; apply (bool_decide_unpack (_ ∉ _)); by vm_compute.

Definition no_release : ReleaseWorld := MkReleaseWorld ∅ 0 [].

Lemma released_artifacts_are_accepted_witness :
  exists outcome w', flake_run text_crypto (flake_config false) no_release = (Returned (Ok outcome), w') /\
    exists fleet at_ commit, signed_at fleet = Some at_ /\ meta_ci_commit (fr_meta fleet) = commit.
Proof.
  destruct (flake_run text_crypto (flake_config false) no_release) as [r w'] eqn:E.
  assert (Hr : exists outcome, r = Returned (Ok outcome))
    by (apply (f_equal fst) in E; vm_compute in E; rewrite <- E; by eexists).
  destruct Hr as [outcome ->]. exists outcome, w'. split; [reflexivity|].
  destruct (released_artifacts_are_accepted (O := list_order) (Cr := text_crypto) (R := flake_env)
    (Df := decode fleets) (Dl := names_decoder) (Dm := decode manifests) (De_r := decode revocation_lists)
    (De_b := nonces_decoder) (Dr := entries_decoder) (Db := no_nonces) (Jf := encode fleets) (Jm := encode manifests)
    (Jr := encode revocation_lists) (Jb := nonces_encoder) [sample_key "ci"] (flake_config false) no_release w' outcome)
    as (fleet & at_ & commit & H1 & H2 & _); try exact E.
  - exact text_stable.
  - exact fleets_read_back.
  - exact manifests_read_back.
  - exact revocations_read_back.
  - intros payload canonical (text & Hj & _). discriminate Hj.
  - exact sample_hook_signs.
  - intros p bytes sig _ Hb. change (rw_files no_release) with (∅ : gmap string string) in Hb.
    by rewrite lookup_empty in Hb.
  - reflexivity.
  - plain_name.
  - apply (bool_decide_unpack (_ ∉ _)). by vm_compute.
  - by vm_compute.
  - exists fleet, at_, commit. by split.
Defined.


(** A signature that fits one text only. *)
Definition binding_crypto : Crypto := {|
  Value := string;
  parse_value := fun s => match from_utf8 s with Some s => Ok s | None => Err "utf-8" end;
  jcs_to_string := Ok;
  base64_decode := fun s => Ok (pad 32 s);
  Ed25519Key := string;
  ed25519_from_bytes := Ok;
  verify_strict := fun k m s => bool_decide (s = pad 64 "1" /\ m = "fleet-1");
  EncodedPoint := string;
  P256Key := string;
  P256Signature := string;
  encoded_point_from_bytes := Ok;
  from_encoded_point := Ok;
  p256_from_slice := Some;
  normalize_s := fun _ => None;
  p256_verify := fun _ _ _ => false;
  sha256 := pad 2;
  utf8_error := fun _ => "";
|}.

Lemma signature_binds text : signs (Cr := binding_crypto) [sample_key "ci"] (pad 64 "1") text -> text = "fleet-1".
Proof.
  intros Hs. unfold signs in Hs. apply Exists_cons in Hs as [Hs|Hs]; [|by apply Exists_nil in Hs].
  destruct Hs as [[_ Hs]|[Hs _]]; [|by vm_compute in Hs].
  unfold verify_ed25519 in Hs. cbn [base64_decode binding_crypto tp_public sample_key] in Hs.
  rewrite !length_pad, !bool_decide_eq_true_2 in Hs by done. cbn [negb ed25519_from_bytes verify_strict binding_crypto] in Hs.
  destruct (bool_decide_reflect (pad 64 "1" = pad 64 "1" /\ text = "fleet-1")) as [[_ Ht]|]; [exact Ht|discriminate].
Qed.

Lemma reuse_publishes_stale_signature_witness :
  exists outcome w' published,
    flake_run binding_crypto (flake_config true) earlier = (Returned (Ok outcome), w') /\
    rw_files w' !! "releases/fleet.resolved.json" = Some published /\
    rw_files w' !! "releases/fleet.resolved.json.sig" = Some (pad 64 "1") /\ published <> "fleet-1".
Proof.
  destruct (flake_run binding_crypto (flake_config true) earlier) as [r w'] eqn:E.
  assert (Hr : exists outcome, r = Returned (Ok outcome))
    by (apply (f_equal fst) in E; vm_compute in E; rewrite <- E; by eexists).
  destruct Hr as [outcome ->].
  destruct (prepare (O := list_order) (R := flake_env) (Df := decode fleets) (Dl := names_decoder) (flake_config true) earlier)
    as [rp w0] eqn:Ep.
  assert (Hp : rp = Returned (Ok (flake_fleet, Some "c0ffee", {[ "web" := "/nix/store/abc-web" ]})))
    by (apply (f_equal fst) in Ep; vm_compute in Ep; rewrite <- Ep; vm_compute; reflexivity).
  subst rp.
  destruct (reuse_publishes_stale_signature (O := list_order) (Cr := binding_crypto) (R := flake_env)
    (Df := decode fleets) (Dl := names_decoder) (Dr := entries_decoder) (Db := no_nonces) (Jf := encode fleets)
    (Jm := encode manifests) (Jr := encode revocation_lists) (Jb := nonces_encoder) [sample_key "ci"] (flake_config true)
    earlier w0 w' outcome "fleet-1" (pad 64 "1") (released_fleet "c0de" (duration_minutes 2)) flake_fleet
    (Some "c0ffee") {[ "web" := "/nix/store/abc-web" ]} (duration_minutes 2)) as (published & H1 & H2 & H3 & _).
  - exact text_stable.
  - exact fleets_read_back.
  - reflexivity.
  - reflexivity.
  - plain_name.
  - apply (bool_decide_unpack (_ ∉ _)). by vm_compute.
  - by vm_compute.
  - by vm_compute.
  - by vm_compute.
  - split; [by vm_compute|]. exists "fleet-1". by split; vm_compute.
  - by vm_compute.
  - by vm_compute.
  - exact signature_binds.
  - exact Ep.
  - apply (bool_decide_unpack (_ = _)). by vm_compute.
  - discriminate.
  - intros c [ch Hc]. unfold flake_fleet in Hc. cbn [fr_channels] in Hc. apply lookup_singleton_Some in Hc as [<- _]. plain_name.
  - exact E.
  - exists outcome, w', published. split; [reflexivity|]. split; [exact H1|]. split; [exact H2|].
    intros ->. apply (f_equal (fun r => match r with Ok f => meta_ci_commit (fr_meta f) | Err _ => None end)) in H3.
    vm_compute in H3. discriminate H3.
Defined.
