(* ===== verification/FileSystem.v ===== *)
(** * Files of a process

    What the agent's boot code and the operator's tools do with files: reads,
    writes, renames and looks at a store of files by path.  Which of them fail,
    and the clock, are the class [OsEnv], by the number of questions asked before;
    a call of [anyhow::Result] is a computation of [FileM], its error the chain of
    contexts as text. *)

From S2P Require Import Prelude RustStd.

(** [std::io::Error]: its kind, as far as it is told apart, and its text. *)
Inductive IoError :=
| NotFound
| OtherIo (text : string).
#[export] Instance IoError_eq_dec : EqDecision IoError.
Proof. solve_decision. Defined.

Definition io_error_text (e : IoError) : string :=
  match e with NotFound => "No such file or directory (os error 2)" | OtherIo text => text end.

(** How [std::fs::write] ends: a failure may leave part of the bytes. *)
Inductive WriteEnd :=
| Written
| WriteFailed (part : option string) (e : IoError).

Class OsEnv := {
  os_now : nat -> DateTime;
  os_failure : nat -> option IoError;                  (* of a read, a look or a rename *)
  os_write : nat -> WriteEnd;
}.

Record FileWorld := MkFileWorld {
  fw_files : gmap string string;
  fw_asked : nat;
}.
#[export] Instance FileWorld_eta : Etaexp FileWorld := fun w => MkFileWorld (fw_files w) (fw_asked w).

Definition FileM (A : Type) : Type := FileWorld -> ended (result A string) * FileWorld.

#[export] Instance FileM_ret : MRet FileM := fun A a w => (Returned (Ok a), w).
#[export] Instance FileM_bind : MBind FileM := fun A B k m w =>
  match m w with
  | (Returned (Ok a), w) => k a w
  | (Returned (Err e), w) => (Returned (Err e), w)
  | (Panicked, w) => (Panicked, w)
  | (OutOfFuel, w) => (OutOfFuel, w)
  end.

Definition fm_bail {A} (e : string) : FileM A := fun w => (Returned (Err e), w).
Definition fm_result {A} (r : result A string) : FileM A := fun w => (Returned r, w).
Definition fm_out_of_fuel {A} : FileM A := fun w => (OutOfFuel, w).
Definition fm_panic {A} : FileM A := fun w => (Panicked, w).

(** [Context::context] on a result. *)
Definition in_context {A} (text : string) (r : result A string) : FileM A :=
  fm_result match r with Ok a => Ok a | Err e => Err (text +:+ ": " +:+ e) end.

(** [with_context] on a call. *)
Definition fm_context {A} (text : string) (m : FileM A) : FileM A := fun w =>
  match m w with
  | (Returned (Err e), w) => (Returned (Err (text +:+ ": " +:+ e)), w)
  | r => r
  end.

(** A call whose error the caller only logs. *)
Definition fm_logged (m : FileM unit) : FileM unit := fun w =>
  match m w with
  | (Returned (Err _), w) => (Returned (Ok tt), w)
  | r => r
  end.

Definition fm_ask {A} (answer : nat -> A) : FileM A := fun w =>
  (Returned (Ok (answer (fw_asked w))), w <| fw_asked := S (fw_asked w) |>).

Definition fm_files : FileM (gmap string string) := fun w => (Returned (Ok (fw_files w)), w).
Definition fm_put (path bytes : string) : FileM unit := fun w =>
  (Returned (Ok tt), w <| fw_files := <[ path := bytes ]> (fw_files w) |>).
Definition fm_move (from to : string) (bytes : string) : FileM unit := fun w =>
  (Returned (Ok tt), w <| fw_files := <[ to := bytes ]> (delete from (fw_files w)) |>).

Section files.
Context {E : OsEnv}.

(** [std::fs::read]. *)
Definition fs_read (path : string) : FileM (result string IoError) :=
  failure ← fm_ask os_failure;
  store ← fm_files;
  mret match failure with
       | Some e => Err e
       | None => match store !! path with Some bytes => Ok bytes | None => Err NotFound end
       end.

(** [std::fs::read_to_string]. *)
Definition fs_read_to_string (path : string) : FileM (result string IoError) :=
  r ← fs_read path;
  mret match r with
       | Err e => Err e
       | Ok bytes =>
           match from_utf8 bytes with
           | Some text => Ok text
           | None => Err (OtherIo "stream did not contain valid UTF-8")
           end
       end.

(** A read and its context, [read what path]. *)
Definition read_or {A} (what path : string) (r : result A IoError) : FileM A :=
  in_context (what +:+ path) match r with Ok a => Ok a | Err e => Err (io_error_text e) end.

(** [Path::exists]: a failing look counts as absence. *)
Definition fs_exists (path : string) : FileM bool :=
  failure ← fm_ask os_failure;
  store ← fm_files;
  mret match failure with Some _ => false | None => bool_decide (is_Some (store !! path)) end.

(** [std::fs::write]. *)
Definition fs_write (path bytes : string) : FileM (result unit IoError) :=
  ending ← fm_ask os_write;
  match ending with
  | Written => fm_put path bytes ;; mret (Ok tt)
  | WriteFailed part e =>
      match part with Some part => fm_put path part | None => mret tt end ;; mret (Err e)
  end.

(** [std::fs::rename]. *)
Definition fs_rename (from to : string) : FileM (result unit IoError) :=
  failure ← fm_ask os_failure;
  store ← fm_files;
  match failure, store !! from with
  | Some e, _ => mret (Err e)
  | None, None => mret (Err NotFound)
  | None, Some bytes => fm_move from to bytes ;; mret (Ok tt)
  end.

End files.

(** ** Reading runs backwards *)

Lemma fm_bind_inv {A B} (m : FileM A) (k : A -> FileM B) w r w' :
  (m ≫= k) w = (r, w') ->
  (exists a w1, m w = (Returned (Ok a), w1) /\ k a w1 = (r, w')) \/
  (exists e, m w = (Returned (Err e), w') /\ r = Returned (Err e)) \/
  (m w = (Panicked, w') /\ r = Panicked) \/
  (m w = (OutOfFuel, w') /\ r = OutOfFuel).
Proof.
  unfold mbind, FileM_bind. destruct (m w) as [[[a|e]| |] w1]; intros H.
  - left. by exists a, w1.
  - right. left. exists e. injection H as <- <-. done.
  - do 2 right. left. by injection H as <- <-.
  - do 3 right. by injection H as <- <-.
Qed.

Lemma fm_bind_ok {A B} (m : FileM A) (k : A -> FileM B) w b w' :
  (m ≫= k) w = (Returned (Ok b), w') ->
  exists a w1, m w = (Returned (Ok a), w1) /\ k a w1 = (Returned (Ok b), w').
Proof. intros [?|[(? & _ & ?)|[(_ & ?)|(_ & ?)]]]%fm_bind_inv; done. Qed.

Lemma fm_result_ok {A} (r : result A string) w a w' :
  fm_result r w = (Returned (Ok a), w') -> r = Ok a /\ w' = w.
Proof. by intros [= -> <-]. Qed.

Lemma in_context_ok {A} text (r : result A string) w a w' :
  in_context text r w = (Returned (Ok a), w') -> r = Ok a /\ w' = w.
Proof. intros [H ->]%fm_result_ok. destruct r; by simplify_eq. Qed.

Lemma fm_context_ok {A} text (m : FileM A) w a w' :
  fm_context text m w = (Returned (Ok a), w') -> m w = (Returned (Ok a), w').
Proof. unfold fm_context. by destruct (m w) as [[[]| |] w1]; intros [= <- <-]. Qed.

(** What a computation does to the store, whatever its end. *)
Definition keeps {A} (m : FileM A) : Prop := forall w r w', m w = (r, w') -> fw_files w' = fw_files w.

(** The store away from the paths [ps]. *)
Definition touches (ps : list string) {A} (m : FileM A) : Prop := forall w r w',
  m w = (r, w') -> forall p, p ∉ ps -> fw_files w' !! p = fw_files w !! p.

Lemma keeps_touches {A} (m : FileM A) ps : keeps m -> touches ps m.
Proof. intros Hm w r w' H p _. by rewrite (Hm _ _ _ H). Qed.

Lemma touches_bind {A B} ps (m : FileM A) (k : A -> FileM B) :
  touches ps m -> (forall a, touches ps (k a)) -> touches ps (m ≫= k).
Proof.
  intros Hm Hk w r w' H p Hp. apply fm_bind_inv in H as [(a & w1 & H1 & H2)|[(e & H1 & _)|[[H1 _]|[H1 _]]]].
  - rewrite (Hk a _ _ _ H2 p Hp). exact (Hm _ _ _ H1 p Hp).
  - exact (Hm _ _ _ H1 p Hp).
  - exact (Hm _ _ _ H1 p Hp).
  - exact (Hm _ _ _ H1 p Hp).
Qed.

Lemma keeps_bind {A B} (m : FileM A) (k : A -> FileM B) :
  keeps m -> (forall a, keeps (k a)) -> keeps (m ≫= k).
Proof.
  intros Hm Hk w r w' H. apply fm_bind_inv in H as [(a & w1 & H1 & H2)|[(e & H1 & _)|[[H1 _]|[H1 _]]]].
  - rewrite (Hk a _ _ _ H2). exact (Hm _ _ _ H1).
  - exact (Hm _ _ _ H1).
  - exact (Hm _ _ _ H1).
  - exact (Hm _ _ _ H1).
Qed.

Lemma keeps_ret {A} (a : A) : keeps (mret a).
Proof. by intros w r w' [= <- <-]. Qed.
Lemma keeps_bail {A} e : keeps (A := A) (fm_bail e).
Proof. by intros w r w' [= <- <-]. Qed.
Lemma keeps_result {A} (r : result A string) : keeps (fm_result r).
Proof. by intros w r' w' [= <- <-]. Qed.
Lemma keeps_context {A} text (r : result A string) : keeps (in_context text r).
Proof. apply keeps_result. Qed.
Lemma keeps_panic {A} : keeps (A := A) fm_panic.
Proof. by intros w r w' [= <- <-]. Qed.
Lemma keeps_fm_context {A} text (m : FileM A) : keeps m -> keeps (fm_context text m).
Proof.
  intros Hm w r w' H. unfold fm_context in H. destruct (m w) as [r1 w1] eqn:E. apply Hm in E.
  by destruct r1 as [[]| |]; simplify_eq.
Qed.
Lemma keeps_out_of_fuel {A} : keeps (A := A) fm_out_of_fuel.
Proof. by intros w r w' [= <- <-]. Qed.
Lemma keeps_ask {A} (answer : nat -> A) : keeps (fm_ask answer).
Proof. by intros w r w' [= <- <-]. Qed.
Lemma keeps_files : keeps fm_files.
Proof. by intros w r w' [= <- <-]. Qed.
Lemma keeps_read_or {A} what path (r : result A IoError) : keeps (read_or what path r).
Proof. apply keeps_context. Qed.

Create HintDb files.
#[export] Hint Resolve keeps_ret keeps_bail keeps_result keeps_context keeps_out_of_fuel keeps_panic keeps_fm_context keeps_ask keeps_files
  keeps_read_or : files.
#[export] Hint Extern 2 (keeps (_ ≫= _)) => apply keeps_bind; [|intros ?] : files.
#[export] Hint Extern 3 (keeps (match ?x with _ => _ end)) => destruct x : files.

Section file_lemmas.
Context {E : OsEnv}.

Lemma keeps_read path : keeps (fs_read path).
Proof. unfold fs_read. eauto with files. Qed.

Lemma keeps_read_to_string path : keeps (fs_read_to_string path).
Proof. unfold fs_read_to_string. apply keeps_bind; [apply keeps_read|]. eauto with files. Qed.

Lemma keeps_exists path : keeps (fs_exists path).
Proof. unfold fs_exists. eauto with files. Qed.

Lemma fs_read_ok path w bytes w' :
  fs_read path w = (Returned (Ok (Ok bytes)), w') ->
  fw_files w !! path = Some bytes /\ fw_files w' = fw_files w.
Proof.
  intros H. unfold fs_read, fm_ask, fm_files, mbind, FileM_bind, mret, FileM_ret in H. simpl in H.
  destruct (os_failure _); [done|]. destruct (fw_files w !! path) as [b|]; by simplify_eq.
Qed.

Lemma from_utf8_inv s t : from_utf8 s = Some t -> t = s.
Proof. unfold from_utf8. destruct (utf8_valid [] s); by intros [= <-]. Qed.

Lemma fs_read_to_string_ok path w text w' :
  fs_read_to_string path w = (Returned (Ok (Ok text)), w') ->
  fw_files w !! path = Some text /\ fw_files w' = fw_files w.
Proof.
  intros (r & w1 & H & Hr)%fm_bind_ok. injection Hr as Hr <-. destruct r as [bytes|]; [|done].
  destruct (from_utf8 bytes) as [t|] eqn:Et; [|done]. injection Hr as <-.
  apply from_utf8_inv in Et as ->. by apply fs_read_ok in H.
Qed.

Lemma fs_exists_true path w w' :
  fs_exists path w = (Returned (Ok true), w') -> is_Some (fw_files w !! path).
Proof.
  intros H. unfold fs_exists, fm_ask, fm_files, mbind, FileM_bind, mret, FileM_ret in H. simpl in H.
  destruct (os_failure _); [done|]. injection H as Hb _. by apply bool_decide_eq_true in Hb.
Qed.

Lemma fs_write_touches path bytes : touches [path] (fs_write path bytes).
Proof.
  intros w r w' H p Hp. apply not_elem_of_cons in Hp as [Hp _].
  unfold fs_write, fm_ask, fm_put, mbind, FileM_bind, mret, FileM_ret in H. simpl in H.
  destruct (os_write _) as [|[part|] e]; simplify_eq; simpl; by rewrite ?lookup_insert_ne.
Qed.

Lemma fs_write_ok path bytes w w' :
  fs_write path bytes w = (Returned (Ok (Ok tt)), w') -> fw_files w' = <[ path := bytes ]> (fw_files w).
Proof.
  intros H. unfold fs_write, fm_ask, fm_put, mbind, FileM_bind, mret, FileM_ret in H. simpl in H.
  by destruct (os_write _) as [|[part|] e]; simplify_eq.
Qed.

(** A rename moves the file, or does nothing. *)
Lemma fs_rename_inv from to w r w' :
  fs_rename from to w = (r, w') ->
  exists e, r = Returned (Ok (Err e)) /\ fw_files w' = fw_files w \/
  exists bytes, r = Returned (Ok (Ok tt)) /\ fw_files w !! from = Some bytes /\
    fw_files w' = <[ to := bytes ]> (delete from (fw_files w)).
Proof.
  intros H. unfold fs_rename, fm_ask, fm_files, fm_move, mbind, FileM_bind, mret, FileM_ret in H. simpl in H.
  destruct (os_failure _) as [e|]; [exists e; left; by simplify_eq|].
  destruct (fw_files w !! from) as [bytes|] eqn:Ef; [|exists NotFound; left; by simplify_eq].
  exists NotFound. right. exists bytes. by simplify_eq.
Qed.

End file_lemmas.
#[export] Hint Resolve keeps_read keeps_read_to_string keeps_exists : files.

(** Questions are only added. *)
Definition grows {A} (m : FileM A) : Prop := forall w r w', m w = (r, w') -> fw_asked w <= fw_asked w'.

Lemma grows_bind {A B} (m : FileM A) (k : A -> FileM B) :
  grows m -> (forall a, grows (k a)) -> grows (m ≫= k).
Proof.
  intros Hm Hk w r w' H. apply fm_bind_inv in H as [(a & w1 & H1 & H2)|[(e & H1 & _)|[[H1 _]|[H1 _]]]].
  - apply Hk in H2. apply Hm in H1. lia.
  - exact (Hm _ _ _ H1).
  - exact (Hm _ _ _ H1).
  - exact (Hm _ _ _ H1).
Qed.

Lemma grows_result {A} (r : result A string) : grows (fm_result r).
Proof. intros w r' w' [= <- <-]. lia. Qed.
Lemma grows_ret {A} (a : A) : grows (mret a).
Proof. apply (grows_result (Ok a)). Qed.
Lemma grows_bail {A} e : grows (A := A) (fm_bail e).
Proof. apply (grows_result (Err e)). Qed.
Lemma grows_context {A} text (r : result A string) : grows (in_context text r).
Proof. apply grows_result. Qed.
Lemma grows_read_or {A} what path (r : result A IoError) : grows (read_or what path r).
Proof. apply grows_context. Qed.
Lemma grows_panic {A} : grows (A := A) fm_panic.
Proof. intros w r w' [= <- <-]. lia. Qed.
Lemma grows_ask {A} (answer : nat -> A) : grows (fm_ask answer).
Proof. intros w r w' [= <- <-]. simpl. lia. Qed.
Lemma grows_files : grows fm_files.
Proof. intros w r w' [= <- <-]. lia. Qed.
Lemma grows_put path bytes : grows (fm_put path bytes).
Proof. intros w r w' [= <- <-]. simpl. lia. Qed.
Lemma grows_move from to bytes : grows (fm_move from to bytes).
Proof. intros w r w' [= <- <-]. simpl. lia. Qed.
Lemma grows_logged m : grows m -> grows (fm_logged m).
Proof.
  intros Hm w r w' H. unfold fm_logged in H. destruct (m w) as [[[]| |] w1] eqn:E; apply Hm in E; by simplify_eq.
Qed.

Create HintDb questions.
#[export] Hint Resolve grows_ret grows_bail grows_result grows_context grows_read_or grows_panic grows_ask grows_files
  grows_put grows_move grows_logged : questions.
#[export] Hint Extern 2 (grows (_ ≫= _)) => apply grows_bind; [|intros ?] : questions.
#[export] Hint Extern 3 (grows (match ?x with _ => _ end)) => destruct x : questions.

Section growth.
Context {E : OsEnv}.

Lemma grows_read path : grows (fs_read path).
Proof. unfold fs_read. eauto with questions. Qed.
Lemma grows_read_to_string path : grows (fs_read_to_string path).
Proof. unfold fs_read_to_string. apply grows_bind; [apply grows_read|eauto with questions]. Qed.
Lemma grows_write path bytes : grows (fs_write path bytes).
Proof. unfold fs_write. eauto 10 with questions. Qed.
Lemma grows_rename from to : grows (fs_rename from to).
Proof. unfold fs_rename. eauto 10 with questions. Qed.

End growth.
#[export] Hint Resolve grows_read grows_read_to_string grows_write grows_rename : questions.

(** ** The last component of a path *)

Definition no_slash (s : string) : Prop := "/"%char ∉ chars s.

Lemma split_path_app part s x :
  split_path part (s +:+ String "/" x) = split_path part s ++ split_path "" x.
Proof.
  revert part. induction s as [|c s IH]; intros part; simpl.
  - done.
  - case_bool; by rewrite IH.
Qed.

Lemma split_path_plain part x : no_slash x -> split_path part x = [part +:+ x].
Proof.
  unfold no_slash. revert part. induction x as [|c x IH]; intros part Hx; simpl; [by rewrite append_empty_r|].
  simpl in Hx. apply not_elem_of_cons in Hx as [Hc Hx]. rewrite bool_decide_eq_false_2 by done.
  rewrite IH by done. by rewrite append_assoc.
Qed.

Lemma split_path_parts part s x : no_slash part -> x ∈ split_path part s -> no_slash x.
Proof.
  unfold no_slash. revert part. induction s as [|c s IH]; intros part Hp; simpl.
  - by intros ->%list_elem_of_singleton.
  - case_bool as [Hc|Hc].
    + intros [->|Hx]%elem_of_cons; [done|]. apply (IH "" ltac:(simpl; apply not_elem_of_nil) Hx).
    + apply IH. rewrite chars_app. simpl. rewrite not_elem_of_app, list_elem_of_singleton. done.
Qed.

(** A name that [file_name] gives back. *)
Definition proper_name (x : string) : Prop := no_slash x /\ x ∉ [""; "."; ".."].

Lemma file_name_parts p l x : split_path "" p = l ++ [x] -> proper_name x -> file_name p = Some x.
Proof.
  intros Hp [_ Hx]. rewrite !not_elem_of_cons in Hx. destruct Hx as (H1 & H2 & H3 & _).
  unfold file_name. rewrite Hp, List.filter_app. simpl. rewrite !bool_decide_eq_false_2 by done. simpl.
  rewrite last_snoc. by rewrite bool_decide_eq_false_2.
Qed.

Lemma file_name_no_slash p name : file_name p = Some name -> no_slash name.
Proof.
  unfold file_name. destruct (last _) as [x|] eqn:El; [|done]. case_bool; [done|]. intros [= <-].
  apply last_Some in El as [l El].
  assert (Hin : x ∈ split_path "" p).
  { assert (Hf : x ∈ List.filter (fun x => negb (bool_decide (x = "")) && negb (bool_decide (x = ".")))
      (split_path "" p)) by (rewrite El; apply elem_of_app; right; left).
    by apply list_elem_of_In, List.filter_In in Hf as [Hf%list_elem_of_In _]. }
  eapply split_path_parts; [|exact Hin]. apply not_elem_of_nil.
Qed.

(** A text that ends in a character, taken apart. *)
Lemma ends_in_char (s : string) c :
  String.get (String.length s - 1) s = Some c -> exists t, s = t +:+ String c "".
Proof.
  induction s as [|a s IH]; [done|]. destruct s as [|b s].
  - intros [= <-]. by exists "".
  - intros H. destruct IH as [t Ht].
    + simpl in *. by rewrite Nat.sub_0_r.
    + exists (String a t). by rewrite Ht.
Qed.

Lemma file_name_join dir x : proper_name x -> file_name (path_join dir x) = Some x.
Proof.
  intros Hx. pose proof Hx as [Hs Hn]. assert (Hone : split_path "" x = [] ++ [x]) by (by rewrite split_path_plain).
  unfold path_join. destruct x as [|c x']; [by destruct Hn; left|].
  assert (Hc : c <> "/"%char) by (intros ->; apply Hs; left).
  assert (Hall : forall r, file_name (String c x') = r -> file_name (if bool_decide (dir = "") then String c x' else
    if bool_decide (String.get (String.length dir - 1) dir = Some "/"%char) then dir +:+ String c x'
    else dir +:+ "/" +:+ String c x') = Some (String c x')).
  { intros _ _. case_bool; [exact (file_name_parts _ _ _ Hone Hx)|]. case_bool as [He|He].
    - apply ends_in_char in He as [t ->]. apply (file_name_parts _ (split_path "" t)); [|done].
      rewrite append_assoc. change (String "/" "" +:+ String c x') with (String "/" (String c x')).
      by rewrite split_path_app, Hone.
    - apply (file_name_parts _ (split_path "" dir)); [|done]. 
      change ("/" +:+ String c x') with (String "/" (String c x')). by rewrite split_path_app, Hone. }
  destruct c as [[] [] [] [] [] [] [] []]; try exact (Hall _ eq_refl). by destruct Hc.
Qed.
