(* ===== verification/CpSigner.v ===== *)
(** * The signer of the control plane's certificates

    Models [build_signer_from_args], [FileCaSigner], [TpmCaSigner],
    [TpmRemoteSigner] and [invoke_tpm_sign] of
    [crates/nixfleet-control-plane/src/auth/issuance.rs].  [Issuance] takes a
    signer as a certificate and the key pair it makes for one issuance; here is
    where both come from.  rcgen is the class [SignerFormats]; the program of the
    TPM and the temporary file are answered by the class [TpmEnv], by the number
    of questions asked before. *)

From S2P Require Import Prelude RustStd Proto HostTypes Verify HostKey Issuance FileSystem.
From stdpp Require Import pretty.

(** rcgen: a key pair from a PEM text or from a public key and a signing
    function ([RemoteKeyPair]), the parameters of a certificate, and the
    certificate they make with a key pair. *)
Class SignerFormats `{Pki} := {
  key_pair_from_pem : string -> result CaKey string;
  key_pair_from_remote : list u8 -> (string -> option (list u8)) -> result CaKey string;
  CaParams : Type;
  ca_params_from_pem : string -> result CaParams string;
  self_signed : CaParams -> CaKey -> result CaCert string;
}.

(** How the invocation of the program ends. *)
Inductive TpmRun :=
| NoTempfile (e : string)
| TempfileNotWritten (e : string)
| NotInvoked (e : string)
| Exited (success : bool) (status stdout stderr : string).

Class TpmEnv := tpm_run : nat -> string -> string -> TpmRun.   (* the program, the message *)

Definition u8s_of (s : string) : list u8 :=
  (fun c => Z.of_nat (nat_of_ascii c)) <$> String.list_ascii_of_string s.

(** The error of a call as a value. *)
Definition attempt {A} (m : FileM A) : FileM (result A string) := fun w =>
  match m w with
  | (Returned r, w) => (Returned (Ok r), w)
  | (Panicked, w) => (Panicked, w)
  | (OutOfFuel, w) => (OutOfFuel, w)
  end.

(** The parts of the two implementations of [dyn CaSigner]. *)
Inductive Signer `{Pki} :=
| FileCaSigner (key_path : string) (issuer_cert : CaCert)
| TpmCaSigner (pubkey_uncompressed : list u8) (sign_wrapper_path : string) (issuer_cert : CaCert).

Section signers.
Context {Cr : Crypto} {P : Pki} {E : OsEnv} {Sf : SignerFormats} {T : TpmEnv}.

(** ** The TPM *)

Definition invoke_tpm_sign (n : nat) (wrapper msg : string) : result string string :=
  match tpm_run n wrapper msg with
  | NoTempfile e => Err ("create tpm-sign tempfile: " +:+ e)
  | TempfileNotWritten e => Err ("write tpm-sign tempfile: " +:+ e)
  | NotInvoked e => Err ("invoke tpm-sign wrapper " +:+ wrapper +:+ ": " +:+ e)
  | Exited success status stdout stderr =>
      if success then Ok stdout
      else Err ("tpm-sign wrapper " +:+ wrapper +:+ " exited " +:+ status +:+ ": stderr=" +:+ stderr)
  end.

(** [TpmRemoteSigner::sign]: an error is logged and becomes [RingUnspecified].
    The DER of 64 bytes does not panic. *)
Definition tpm_sign (n : nat) (wrapper msg : string) : option (list u8) :=
  match invoke_tpm_sign n wrapper msg with
  | Err _ => None
  | Ok raw =>
      match der_encode_ecdsa_p256_sig (u8s_of raw) with
      | Returned (Ok der) => Some der
      | _ => None
      end
  end.

Definition remote_key_pair (pubkey_uncompressed : list u8) (wrapper : string) : FileM CaKey :=
  n ← fm_ask id;
  in_context "rcgen from_remote (TPM)" (key_pair_from_remote pubkey_uncompressed (tpm_sign n wrapper)).

Definition tpm_signer_from_paths (ca_cert_path tpm_pubkey_raw_path sign_wrapper_path : string)
    : FileM Signer :=
  pubkey ← fs_read tpm_pubkey_raw_path;
  pubkey_raw ← read_or "read TPM pubkey " tpm_pubkey_raw_path pubkey;
  if negb (String.length pubkey_raw =? 64) then
    fm_bail ("TPM pubkey expected 64 bytes (raw P-256 X||Y), got " +:+ pretty (String.length pubkey_raw))
  else
    let pubkey_uncompressed := 4%Z :: u8s_of pubkey_raw in
    cert ← fs_read_to_string ca_cert_path;
    ca_cert_pem ← read_or "read issuance CA cert " ca_cert_path cert;
    key_pair ← remote_key_pair pubkey_uncompressed sign_wrapper_path;
    ca_params ← in_context "parse issuance CA cert PEM" (ca_params_from_pem ca_cert_pem);
    issuer_cert ← in_context "self-sign issuer via TPM at startup" (self_signed ca_params key_pair);
    mret (TpmCaSigner pubkey_uncompressed sign_wrapper_path issuer_cert).

(** ** The key file *)

Definition file_signer_from_paths (ca_cert_path ca_key_path : string) : FileM Signer :=
  cert ← fs_read_to_string ca_cert_path;
  ca_cert_pem ← read_or "read fleet CA cert " ca_cert_path cert;
  key ← fs_read_to_string ca_key_path;
  ca_key_pem_raw ← read_or "read fleet CA key " ca_key_path key;
  ca_key_pem ← in_context "extract private-key block from fleet CA key PEM"
                 (extract_private_key_pem_block ca_key_pem_raw);
  ca_key ← in_context "parse fleet CA key PEM" (key_pair_from_pem ca_key_pem);
  ca_params ← in_context "parse fleet CA cert PEM" (ca_params_from_pem ca_cert_pem);
  issuer_cert ← in_context "rebuild fleet CA from PEM (rcgen quirk)" (self_signed ca_params ca_key);
  mret (FileCaSigner ca_key_path issuer_cert).

Definition file_key_pair (key_path : string) : FileM CaKey :=
  key ← fs_read_to_string key_path;
  raw ← read_or "read fleet CA key " key_path key;
  pem ← in_context "extract CA key PEM block" (extract_private_key_pem_block raw);
  in_context "parse fleet CA key PEM" (key_pair_from_pem pem).

(** ** [dyn CaSigner] *)

Definition signer_issuer (s : Signer) : CaCert :=
  match s with FileCaSigner _ c | TpmCaSigner _ _ c => c end.

Definition signer_key_pair (s : Signer) : FileM CaKey :=
  match s with
  | FileCaSigner key_path _ => file_key_pair key_path
  | TpmCaSigner pubkey wrapper _ => remote_key_pair pubkey wrapper
  end.

(** The signer as one issuance sees it. *)
Definition signer_at (s : Signer) (w : FileWorld) : CaSigner :=
  MkCaSigner _ _ (signer_issuer s)
    match (signer_key_pair s w).1 with Returned r => r | _ => Err "" end.

(** Errors are logged. *)
Definition build_signer_from_args (cert_path : string)
    (tpm_pubkey_raw tpm_sign_wrapper fleet_ca_key : option string) : FileM (option Signer) :=
  match tpm_pubkey_raw, tpm_sign_wrapper, fleet_ca_key with
  | Some pub_raw, Some wrapper, _ =>
      r ← attempt (tpm_signer_from_paths cert_path pub_raw wrapper);
      mret match r with Ok s => Some s | Err _ => None end
  | None, None, Some key_path =>
      r ← attempt (file_signer_from_paths cert_path key_path);
      mret match r with Ok s => Some s | Err _ => None end
  | _, _, _ => mret None
  end.

End signers.
