(* ===== verification/CpMain.v ===== *)
(** * The command line of the control plane

    Models [crates/nixfleet-control-plane/src/main.rs] from the parsed flags on:
    the sources they pair up, what [serve] is called with, and the exit code; and
    the refusal text and the choice of the signer in [serve] of [server/mod.rs],
    whose later start is [CpFetch].  The parser of clap is third-party code, and
    the parser of socket addresses is the class [SocketAddrs]. *)

From S2P Require Import Prelude RustStd Proto HostTypes Gates Verify Manifest HostKey Issuance Enrollment.
From S2P Require Import CpStore CpRuntime CpServe CpFetch FileSystem CpSigner.
From stdpp Require Import pretty.

(** The standard parser: an address, or the text of its error. *)
Class SocketAddrs := parse_socket_addr : string -> result string string.

Record ServeFlags := MkServeFlags {
  sf_listen : string;
  sf_tls_cert : string;
  sf_tls_key : string;
  sf_client_ca : option string;
  sf_artifact : string;
  sf_signature : string;
  sf_trust_file : string;
  sf_observed : string;
  sf_freshness_window_secs : u64;
  sf_confirm_deadline_secs : i64;
  sf_channel_refs_artifact_url : option string;
  sf_channel_refs_signature_url : option string;
  sf_channel_refs_token_file : option string;
  sf_revocations_artifact_url : option string;
  sf_revocations_signature_url : option string;
  sf_revocations_token_file : option string;
  sf_bootstrap_nonces_artifact_url : option string;
  sf_bootstrap_nonces_signature_url : option string;
  sf_bootstrap_nonces_token_file : option string;
  sf_fleet_ca_cert : option string;
  sf_fleet_ca_key : option string;
  sf_tpm_ca_pubkey_raw : option string;
  sf_tpm_ca_sign_wrapper : option string;
  sf_agent_cn_suffix : string;
  sf_agent_cert_validity_secs : u64;
  sf_audit_log : string;
  sf_db_path : option string;
  sf_closure_upstream : option string;
  sf_rollouts_dir : option string;
  sf_rollouts_source_artifact_url_template : option string;
  sf_rollouts_source_signature_url_template : option string;
  sf_rollouts_source_token_file : option string;
  sf_strict : bool;
  sf_allow_file_ca_key : bool;
}.

(** Both flags, or none. *)
Definition paired_source {A B T} (name : string) (a : option A) (b : option B)
    (build : A -> B -> result T string) : result (option T) string :=
  match a, b with
  | Some a, Some b => let? t := build a b in Ok (Some t)
  | None, None => Ok None
  | _, _ => Err (name +:+ ": both URL flags must be passed together (or both omitted).")
  end.

(** What [serve] is called with: the fields its start reads, and the others. *)
Record ServeCall := MkServeCall {
  sc_listen : string;
  sc_tls_cert : string;
  sc_tls_key : string;
  sc_client_ca : option string;
  sc_fleet_ca_cert : option string;
  sc_fleet_ca_key : option string;
  sc_tpm_ca_pubkey_raw : option string;
  sc_tpm_ca_sign_wrapper : option string;
  sc_agent_cn_suffix : string;
  sc_agent_cert_validity : Duration;
  sc_audit_log_path : option string;
  sc_observed_path : string;
  sc_confirm_deadline_secs : i64;
  sc_db_path : option string;
  sc_closure_upstream : option string;
  sc_rollouts_dir : option string;
  sc_start : ServeArgs;
}.

(** A source has its own token file, or that of the channel refs. *)
Definition source_of (flags : ServeFlags) (token_file : option string) (artifact_url signature_url : string)
    : result SignedSource string :=
  Ok (MkSignedSource artifact_url signature_url token_file (sf_trust_file flags)
        (duration_seconds (sf_freshness_window_secs flags))).

Definition channel_refs_of (flags : ServeFlags) : result (option SignedSource) string :=
  paired_source "channel-refs poll" (sf_channel_refs_artifact_url flags) (sf_channel_refs_signature_url flags)
    (source_of flags (sf_channel_refs_token_file flags)).

Definition rollouts_source_of (flags : ServeFlags) : result (option RolloutsSource.t) string :=
  paired_source "rollouts source" (sf_rollouts_source_artifact_url_template flags)
    (sf_rollouts_source_signature_url_template flags)
    (fun artifact_tpl signature_tpl =>
       RolloutsSource.new artifact_tpl signature_tpl
         (or_else (sf_rollouts_source_token_file flags) (sf_channel_refs_token_file flags))).

Definition revocations_of (flags : ServeFlags) : result (option SignedSource) string :=
  paired_source "revocations poll" (sf_revocations_artifact_url flags) (sf_revocations_signature_url flags)
    (source_of flags (or_else (sf_revocations_token_file flags) (sf_channel_refs_token_file flags))).

Definition bootstrap_nonces_of (flags : ServeFlags) : result (option SignedSource) string :=
  paired_source "bootstrap-nonces poll" (sf_bootstrap_nonces_artifact_url flags)
    (sf_bootstrap_nonces_signature_url flags)
    (source_of flags (or_else (sf_bootstrap_nonces_token_file flags) (sf_channel_refs_token_file flags))).

Section run_serve.
Context {Sa : SocketAddrs}.

(** Up to the call of [serve]. *)
Definition run_serve (flags : ServeFlags) : result ServeCall string :=
  match parse_socket_addr (sf_listen flags) with
  | Err e => Err ("--listen " +:+ sf_listen flags +:+ ": " +:+ e)
  | Ok listen =>
      if Z.ltb (sf_agent_cert_validity_secs flags) 60 then
        Err ("--agent-cert-validity-secs must be >= 60 (got " +:+
             pretty (sf_agent_cert_validity_secs flags) +:+ ")")
      else
        let? channel_refs := channel_refs_of flags in
        let? rollouts_source := rollouts_source_of flags in
        let? revocations := revocations_of flags in
        let? bootstrap_nonces := bootstrap_nonces_of flags in
        Ok (MkServeCall listen (sf_tls_cert flags) (sf_tls_key flags) (sf_client_ca flags)
              (sf_fleet_ca_cert flags) (sf_fleet_ca_key flags) (sf_tpm_ca_pubkey_raw flags)
              (sf_tpm_ca_sign_wrapper flags) (sf_agent_cn_suffix flags)
              (duration_seconds (sf_agent_cert_validity_secs flags)) (Some (sf_audit_log flags))
              (sf_observed flags) (sf_confirm_deadline_secs flags) (sf_db_path flags)
              (sf_closure_upstream flags) (sf_rollouts_dir flags)
              (MkServeArgs (sf_strict flags) (given (sf_client_ca flags)) revocations bootstrap_nonces
                 (given (sf_tpm_ca_pubkey_raw flags)) (given (sf_tpm_ca_sign_wrapper flags))
                 (given (sf_fleet_ca_key flags)) (sf_allow_file_ca_key flags) (given (sf_db_path flags))
                 channel_refs rollouts_source (sf_artifact flags) (sf_signature flags) (sf_trust_file flags)
                 (duration_seconds (sf_freshness_window_secs flags)) false None))
  end.

End run_serve.

(** The exit code of the process, and what it writes to standard error. *)
Definition main_end (served : result unit string) : Z * option string :=
  match served with
  | Ok _ => (0, None)
  | Err err => (2, Some ("serve: " +:+ err))
  end%Z.

(** ** [serve] *)

(** The strict mode names each missing flag with what its absence means. *)
Definition missing_texts (args : ServeArgs) : list string :=
  let tpm_configured := sa_tpm_ca_pubkey_raw args && sa_tpm_ca_sign_wrapper args in
  let file_only := sa_fleet_ca_key args && negb tpm_configured in
  (if sa_client_ca args then [] else ["--client-ca (mTLS verification disabled - TLS-only mode)"]) ++
  (match sa_revocations args with Some _ => [] | None =>
     ["--revocations-{artifact,signature}-url (revocations polling disabled - previously-revoked certs become valid again after CP rebuild)"]
   end) ++
  (match sa_bootstrap_nonces args with Some _ => [] | None =>
     ["--bootstrap-nonces-{artifact,signature}-url (bootstrap-nonces polling disabled - replay-after-DB-wipe protection absent, nixfleet#96)"]
   end) ++
  (if file_only && negb (sa_allow_file_ca_key args) then
     ["--tpm-ca-pubkey-raw + --tpm-ca-sign-wrapper (file-backed --fleet-ca-key keeps signing material on disk; pass --allow-file-ca-key to opt out, RFC-0010 §1.5.1)"]
   else []).

Definition strict_refusal (args : ServeArgs) : option string :=
  if sa_strict args && negb (is_empty (missing_texts args)) then
    Some ("--strict refuses to start: the following security flags are unset:" +:+ newline +:+ "  - " +:+
          String.concat (newline +:+ "  - ") (missing_texts args) +:+ newline +:+
          "Either set the missing flags or drop --strict for development.")
  else None.

(** The signer is built once; without a certificate of the authority there is
    none, whatever the other flags say. *)
Definition signer_at_start {Cr : Crypto} {P : Pki} {E : OsEnv} {Sf : SignerFormats} {T : TpmEnv}
    (call : ServeCall) : FileM (option Signer) :=
  match sc_fleet_ca_cert call with
  | Some cert_path =>
      build_signer_from_args cert_path (sc_tpm_ca_pubkey_raw call) (sc_tpm_ca_sign_wrapper call)
        (sc_fleet_ca_key call)
  | None => mret None
  end.
