(* ===== verification/CpMainProps.v ===== *)
(** * The command line of the control plane: properties

    What the flags must be for the daemon to start, and what a daemon started in
    the strict mode from a command line serves. *)

From S2P Require Import Prelude RustStd Proto HostTypes Gates Verify VerifyProps Manifest HostKey Issuance Enrollment.
From S2P Require Import EnrollmentProps AgentHost AgentManifests AgentManifestsProps CpStore CpRuntime CpServe.
From S2P Require Import CpFetch CpFetchProps.
From S2P Require Import FileSystem CpSigner CpMain.

(** ** Sources *)

(** Both flags of a pair, or none. *)
Definition together {A B} (a : option A) (b : option B) : Prop := is_Some a <-> is_Some b.

Lemma paired_source_ok {A B T} name (a : option A) (b : option B) (build : A -> B -> result T string) r :
  paired_source name a b build = Ok r <->
  a = None /\ b = None /\ r = None \/
  exists x y t, a = Some x /\ b = Some y /\ build x y = Ok t /\ r = Some t.
Proof.
  unfold paired_source. destruct a as [x|], b as [y|]; split.
  - destruct (build x y) as [t|] eqn:E; [|done]. intros [= <-]. right. by exists x, y, t.
  - intros [(? & _)|(x' & y' & t & [= <-] & [= <-] & -> & ->)]; done.
  - done.
  - intros [(? & _)|(x' & y' & t & ? & ? & _)]; done.
  - done.
  - intros [(_ & ? & _)|(x' & y' & t & ? & ? & _)]; done.
  - intros [= <-]. by left.
  - intros [(_ & _ & ->)|(x' & y' & t & ? & _)]; done.
Qed.

(** The source of the flags of one artifact. *)
Definition flag_source (flags : ServeFlags) (artifact_url signature_url token_file : option string)
    (src : SignedSource) : Prop :=
  artifact_url = Some (src_artifact_url src) /\ signature_url = Some (src_signature_url src) /\
  src_token_file src = token_file /\ src_trust_path src = sf_trust_file flags /\
  src_freshness_window src = duration_seconds (sf_freshness_window_secs flags).

Lemma paired_signed name flags a b token r :
  paired_source name a b (source_of flags token) = Ok r ->
  (forall src, r = Some src -> flag_source flags a b token src) /\ (r = None -> a = None /\ b = None).
Proof.
  intros [(-> & -> & ->)|(x & y & t & -> & -> & [= <-] & ->)]%paired_source_ok; [done|].
  split; [|done]. by intros src [= <-].
Qed.

Lemma paired_signed_total name flags a b token :
  (exists r, paired_source name a b (source_of flags token) = Ok r) <-> together a b.
Proof.
  unfold together. split.
  - intros [r [(-> & -> & _)|(x & y & t & -> & -> & _)]%paired_source_ok]; [done|]. by split; intros _; eexists.
  - destruct a as [x|], b as [y|]; intros H; try by eexists.
    + by destruct (proj1 H (mk_is_Some _ _ eq_refl)).
    + by destruct (proj2 H (mk_is_Some _ _ eq_refl)).
Qed.

Lemma rollouts_template_total flags :
  let a := sf_rollouts_source_artifact_url_template flags in
  let b := sf_rollouts_source_signature_url_template flags in
  (exists r, rollouts_source_of flags = Ok r) <->
  together a b /\ forall tpl, a = Some tpl \/ b = Some tpl -> contains RolloutsSource.ROLLOUT_ID_PLACEHOLDER tpl = true.
Proof.
  cbv zeta. unfold rollouts_source_of.
  destruct (sf_rollouts_source_artifact_url_template flags) as [x|] eqn:Ex,
    (sf_rollouts_source_signature_url_template flags) as [y|] eqn:Ey; unfold paired_source, together; split.
  - unfold RolloutsSource.new. intros [r Hr].
    destruct (contains _ x) eqn:Cx; [|done]. destruct (contains _ y) eqn:Cy; [|done].
    split; [by split; intros _; eexists|]. by intros tpl [[= <-]|[= <-]].
  - intros [_ H]. unfold RolloutsSource.new. rewrite !H by auto. by eexists.
  - by intros [r Hr].
  - intros [H _]. by destruct (proj1 H (mk_is_Some _ _ eq_refl)).
  - by intros [r Hr].
  - intros [H _]. by destruct (proj2 H (mk_is_Some _ _ eq_refl)).
  - intros _. split; [done|]. by intros tpl [?|?].
  - intros _. by eexists.
Qed.

(** ** What [serve] is called with *)

Section called.
Context {Sa : SocketAddrs}.

Lemma run_serve_call flags call : run_serve flags = Ok call ->
  channel_refs_of flags = Ok (sa_channel_refs (sc_start call)) /\
  rollouts_source_of flags = Ok (sa_rollouts_source (sc_start call)) /\
  revocations_of flags = Ok (sa_revocations (sc_start call)) /\
  bootstrap_nonces_of flags = Ok (sa_bootstrap_nonces (sc_start call)) /\
  sa_strict (sc_start call) = sf_strict flags /\
  sa_client_ca (sc_start call) = given (sf_client_ca flags) /\
  sa_tpm_ca_pubkey_raw (sc_start call) = given (sf_tpm_ca_pubkey_raw flags) /\
  sa_tpm_ca_sign_wrapper (sc_start call) = given (sf_tpm_ca_sign_wrapper flags) /\
  sa_fleet_ca_key (sc_start call) = given (sf_fleet_ca_key flags) /\
  sa_allow_file_ca_key (sc_start call) = sf_allow_file_ca_key flags /\
  sa_db_path (sc_start call) = given (sf_db_path flags) /\
  sa_trust_path (sc_start call) = sf_trust_file flags /\
  sa_freshness_window (sc_start call) = duration_seconds (sf_freshness_window_secs flags) /\
  sa_artifact_path (sc_start call) = sf_artifact flags /\
  sa_signature_path (sc_start call) = sf_signature flags.
Proof.
  unfold run_serve. destruct (parse_socket_addr _); [|done]. destruct (Z.ltb _ _); [done|].
  destruct (channel_refs_of flags); [|done]. destruct (rollouts_source_of flags); [|done].
  destruct (revocations_of flags); [|done]. destruct (bootstrap_nonces_of flags); [|done].
  by intros [= <-].
Qed.

Lemma run_serve_windows flags call :
  run_serve flags = Ok call -> (0 <= sf_freshness_window_secs flags)%Z -> windows_ok (sc_start call).
Proof.
  intros H Hw. destruct (run_serve_call _ _ H) as (Hc & _ & Hr & Hn & _ & _ & _ & _ & _ & _ & _ & _ & Ew & _).
  assert (Hd : (0 <= duration_seconds (sf_freshness_window_secs flags))%Z).
  { unfold duration_seconds, nanos_per_sec. lia. }
  split; [by rewrite Ew|]. intros src Hsrc.
  apply paired_signed in Hc as [Hc _], Hr as [Hr _], Hn as [Hn _].
  destruct Hsrc as [Hsrc|[Hsrc|Hsrc]].
  - destruct (Hr _ Hsrc) as (_ & _ & _ & _ & ->). done.
  - destruct (Hn _ Hsrc) as (_ & _ & _ & _ & ->). done.
  - destruct (Hc _ Hsrc) as (_ & _ & _ & _ & ->). done.
Qed.

(** The fleet comes under the trust file and the window of the flags, whichever way:
    its bytes are those of the two files of the flags, or they were fetched from the
    URLs of the channel refs. *)
Definition fleet_from_flags `{FetchEnv} (flags : ServeFlags) (s : VerifiedFleetSnapshot) : Prop :=
  (exists n m, fe_read n (sf_artifact flags) = Some (vs_artifact_bytes s) /\
     fe_read m (sf_signature flags) = Some (vs_signature_bytes s)) \/
  exists src, fetched_from src (vs_artifact_bytes s) (vs_signature_bytes s) /\
    flag_source flags (sf_channel_refs_artifact_url flags) (sf_channel_refs_signature_url flags)
      (sf_channel_refs_token_file flags) src.

Lemma run_serve_fleet_source `{FetchEnv} flags call path window s :
  run_serve flags = Ok call -> fleet_source (sc_start call) path window s ->
  path = sf_trust_file flags /\ window = duration_seconds (sf_freshness_window_secs flags) /\
  fleet_from_flags flags s.
Proof.
  intros Hrun.
  destruct (run_serve_call _ _ Hrun) as (Hc & _ & _ & _ & _ & _ & _ & _ & _ & _ & _ & Et & Ew & Ea & Es).
  intros [(-> & -> & Hread)|(src & Hsrc & -> & -> & Hf)].
  - rewrite Ea, Es in Hread. by split_and!; [..|left].
  - apply paired_signed in Hc as [Hc _]. pose proof (Hc _ Hsrc) as (Ha & Hs & Ht & -> & ->).
    split_and!; [done..|]. right. exists src. split; [done | by apply Hc].
Qed.

End called.

(** The strict mode as a condition on the arguments. *)
Definition strict_args (args : ServeArgs) : Prop :=
  sa_client_ca args = true /\ is_Some (sa_revocations args) /\ is_Some (sa_bootstrap_nonces args) /\
  (sa_fleet_ca_key args = true ->
     sa_tpm_ca_pubkey_raw args = true /\ sa_tpm_ca_sign_wrapper args = true \/ sa_allow_file_ca_key args = true).

Lemma strict_refusal_none args : strict_refusal args = None <-> (sa_strict args = true -> strict_args args).
Proof.
  unfold strict_refusal, missing_texts, strict_args.
  destruct (sa_strict args); [|by split].
  destruct (sa_client_ca args), (sa_revocations args), (sa_bootstrap_nonces args), (sa_fleet_ca_key args),
    (sa_tpm_ca_pubkey_raw args), (sa_tpm_ca_sign_wrapper args), (sa_allow_file_ca_key args); simpl;
    split; try done; try (intros _ _; split_and!; try done; auto).
  all: intros H; destruct (H eq_refl) as (? & [? ?] & [? ?] & Hk); try done; destruct (Hk eq_refl) as [[??]|?]; done.
Qed.

(** The check of [CpFetch] and the text agree. *)
Lemma strict_check_refusal args : (exists missing, strict_check args = Err missing) <-> is_Some (strict_refusal args).
Proof.
  unfold strict_check, strict_refusal, missing_flags, missing_texts.
  destruct (sa_strict args), (sa_client_ca args), (sa_revocations args), (sa_bootstrap_nonces args),
    (sa_fleet_ca_key args), (sa_tpm_ca_pubkey_raw args), (sa_tpm_ca_sign_wrapper args),
    (sa_allow_file_ca_key args); simpl; split; try (by intros [? ?]); by eexists.
Qed.

Section started.
Context {O : HashOrder} {Cr : Crypto} {E : FetchEnv}.
Context {Df : DeserializeOwned FleetResolved} {Dm : DeserializeOwned RolloutManifest}.
Context {Dr : DeserializeOwned Revocations} {Dn : DeserializeOwned BootstrapNonces}.

Lemma runs_unrefused args d : runs args d -> strict_refusal args = None.
Proof.
  intros (_ & identity & timed_out & n & d0 & n0 & _ & Hstart & _).
  destruct (strict_refusal args) eqn:E1; [exfalso|done].
  assert (H : is_Some (strict_refusal args)) by (by rewrite E1).
  apply strict_check_refusal in H as [missing H]. unfold serve_start in Hstart. by rewrite H in Hstart.
Qed.

End started.

(** The flags of the sample forge's daemon. *)
Definition any_socket : SocketAddrs := fun s => Ok s.
Definition forge_flags : ServeFlags :=
  MkServeFlags "0.0.0.0:8080" "tls.pem" "tls.key" (Some "ca.pem") "fleet.json" "fleet.json.sig" "trust.json"
    "observed.json" 3600 360 (Some "https://forge/fleet") (Some "https://forge/fleet/sig") None
    (Some "https://forge/revocations") (Some "https://forge/revocations/sig") None
    (Some "https://forge/nonces") (Some "https://forge/nonces/sig") None
    None None None None "fleet.test" 2592000 "audit.log" (Some "cp.db") None None
    (Some "https://forge/{rolloutId}") (Some "https://forge/{rolloutId}/sig") None true false.

Lemma forge_flags_call : exists call, run_serve (Sa := any_socket) forge_flags = Ok call /\
  sc_start call = forge_args true.
Proof. eexists. by split; [vm_compute; reflexivity|]. Qed.

Lemma forge_flag_source src :
  flag_source forge_flags (sf_revocations_artifact_url forge_flags) (sf_revocations_signature_url forge_flags)
    (or_else (sf_revocations_token_file forge_flags) (sf_channel_refs_token_file forge_flags)) src ->
  src = forge_source "revocations".
Proof.
  destruct src as [a b t p w]. intros (Ha & Hb & Ht & Hp & Hw). simpl in *.
  injection Ha as <-. injection Hb as <-. by subst.
Qed.

(** ** Properties *)

(** Which command lines start a daemon.  Exactly those whose address parses,
    whose certificates live for a minute at least, and whose four pairs of URL flags
    come together, the two templates naming the rollout; every other line ends the
    process with code 2. *)
Theorem command_line_starts_iff {Sa : SocketAddrs} (flags : ServeFlags) :
  ((exists call, run_serve flags = Ok call) <->
    (exists listen, parse_socket_addr (sf_listen flags) = Ok listen) /\
    (60 <= sf_agent_cert_validity_secs flags)%Z /\
    together (sf_channel_refs_artifact_url flags) (sf_channel_refs_signature_url flags) /\
    together (sf_revocations_artifact_url flags) (sf_revocations_signature_url flags) /\
    together (sf_bootstrap_nonces_artifact_url flags) (sf_bootstrap_nonces_signature_url flags) /\
    together (sf_rollouts_source_artifact_url_template flags) (sf_rollouts_source_signature_url_template flags) /\
    forall tpl, sf_rollouts_source_artifact_url_template flags = Some tpl \/
      sf_rollouts_source_signature_url_template flags = Some tpl ->
      contains RolloutsSource.ROLLOUT_ID_PLACEHOLDER tpl = true) /\
  (forall err, run_serve flags = Err err -> main_end (Err err) = (2%Z, Some ("serve: " +:+ err))).
Proof.
  split; [|done].
  pose proof (paired_signed_total "channel-refs poll" flags (sf_channel_refs_artifact_url flags)
    (sf_channel_refs_signature_url flags) (sf_channel_refs_token_file flags)) as Hc.
  pose proof (paired_signed_total "revocations poll" flags (sf_revocations_artifact_url flags)
    (sf_revocations_signature_url flags)
    (or_else (sf_revocations_token_file flags) (sf_channel_refs_token_file flags))) as Hr.
  pose proof (paired_signed_total "bootstrap-nonces poll" flags (sf_bootstrap_nonces_artifact_url flags)
    (sf_bootstrap_nonces_signature_url flags)
    (or_else (sf_bootstrap_nonces_token_file flags) (sf_channel_refs_token_file flags))) as Hn.
  pose proof (rollouts_template_total flags) as Ht. cbv zeta in Ht.
  unfold run_serve. rewrite <- Hc, <- Hr, <- Hn, <- Ht.
  fold (channel_refs_of flags) (revocations_of flags) (bootstrap_nonces_of flags).
  split.
  - intros [call H]. destruct (parse_socket_addr _); [|done]. destruct (Z.ltb_spec (sf_agent_cert_validity_secs flags) 60); [done|].
    destruct (channel_refs_of flags); [|done]. destruct (rollouts_source_of flags); [|done].
    destruct (revocations_of flags); [|done]. destruct (bootstrap_nonces_of flags); [|done]. split_and!; eauto.
  - intros ([l ->] & Hv & [? ->] & [? ->] & [? ->] & [? ->]).
    destruct (Z.ltb_spec (sf_agent_cert_validity_secs flags) 60); [lia|]. by eexists.
Qed.

(** The source of the revocations and that of the allowlist, with the token of the
    channel refs where they have none. *)
Definition revocations_flags (flags : ServeFlags) : SignedSource -> Prop :=
  flag_source flags (sf_revocations_artifact_url flags) (sf_revocations_signature_url flags)
    (or_else (sf_revocations_token_file flags) (sf_channel_refs_token_file flags)).
Definition nonces_flags (flags : ServeFlags) : SignedSource -> Prop :=
  flag_source flags (sf_bootstrap_nonces_artifact_url flags) (sf_bootstrap_nonces_signature_url flags)
    (or_else (sf_bootstrap_nonces_token_file flags) (sf_channel_refs_token_file flags)).

(** C22.  A strict daemon from its command line.  When the process is started with
    [--strict] and becomes ready, it was given the authority of its clients and a
    database.  The fleet it serves was accepted under the file of [--trust-file] and
    the window of [--freshness-window-secs]; its bytes are those of the two files
    of the flags, or the forge's answers at the URLs of the channel refs.  The bytes
    of a revocation list and of an allowlist were the forge's answers at the URLs of
    their flags, asked with the token of their file or of that of the channel refs,
    and were accepted under the same file and window.  The allowlist in use is the
    fetched one; and when the statements of the revocation polls succeeded, the
    revocation table has for each host the date of its last entry in the list.  The
    authority's key is not in a file unless that was allowed. *)
Theorem strict_daemon_from_flags {Sa : SocketAddrs} {O : HashOrder} {Cr : Crypto} {E : FetchEnv}
    {Df : DeserializeOwned FleetResolved} {Dm : DeserializeOwned RolloutManifest}
    {Dr : DeserializeOwned Revocations} {Dn : DeserializeOwned BootstrapNonces}
    (flags : ServeFlags) (call : ServeCall) (d : Daemon)
    (window := duration_seconds (sf_freshness_window_secs flags)) :
  run_serve flags = Ok call -> sf_strict flags = true -> (0 <= sf_freshness_window_secs flags)%Z ->
  runs (sc_start call) d -> require_ready_layer (ap_primed (dm_state d)) = None ->
  is_Some (sf_client_ca flags) /\ is_Some (sf_db_path flags) /\
  (exists s, snapshot_ok (sf_trust_file flags) window s /\ fleet_from_flags flags s /\
     fleet.artifact (ap_verified_fleet (dm_state d)) = Ok (vs_artifact_bytes s) /\
     is_verified_fleet (ap_identity (dm_state d)) = Some (vs_fleet s)) /\
  (exists src revs, revocations_flags flags src /\ list_vetted (T := Revocations) src revs) /\
  (runs_clean (sc_start call) d ->
   exists src revs, revocations_flags flags src /\ list_vetted (T := Revocations) src revs /\
     mirrors revs (dm_state d)) /\
  (exists src bn, nonces_flags flags src /\ list_vetted (T := BootstrapNonces) src bn /\
     is_allowed_nonces (ap_identity (dm_state d)) = AllowedNoncesView.from_artifact bn) /\
  (is_Some (sf_fleet_ca_key flags) ->
     is_Some (sf_tpm_ca_pubkey_raw flags) /\ is_Some (sf_tpm_ca_sign_wrapper flags) \/
     sf_allow_file_ca_key flags = true).
Proof.
  intros Hrun Hstrict Hw Hd Hready.
  destruct (run_serve_call _ _ Hrun) as (_ & _ & Hr & Hn & Es & Eca & Ep & Ewr & Ek & Ea & Edb & _).
  assert (Hargs : strict_args (sc_start call)).
  { apply (proj1 (strict_refusal_none _)); [by eapply runs_unrefused|]. by rewrite Es. }
  destruct Hargs as (Hca & [rsrc Hrsrc] & [nsrc Hnsrc] & Hkey).
  pose proof (run_serve_windows _ _ Hrun Hw) as Hwin.
  pose proof (runs_ok _ _ Hwin Hd) as Hok.
  destruct (ready_serves _ d Hok Hready) as (Hf & Hrev & Hno).
  destruct (ready_primed _ d Hok Hready) as (_ & Hprimed & _).
  apply paired_signed in Hr as [Hr _], Hn as [Hn _].
  assert (Hgiven : forall A (o : option A), given o = true -> is_Some o) by (intros A [a|]; by eauto).
  split_and!.
  - apply Hgiven. by rewrite <- Eca.
  - destruct (Hrev _ Hrsrc) as [Hdb _]. apply Hgiven. by rewrite <- Edb.
  - destruct Hf as (s & path & wd & Hsrc & Hs & H1 & _ & H2). exists s.
    destruct (run_serve_fleet_source _ _ _ _ _ Hrun Hsrc) as (-> & -> & Hfrom). done.
  - destruct (Hrev _ Hrsrc) as [_ [revs Hv]]. exists rsrc, revs. split; [by apply Hr | done].
  - intros Hclean. destruct (runs_clean_ok _ d Hwin Hclean (Hprimed _ Hrsrc)) as (src & revs & Hsrc & Hv & Hm).
    exists src, revs. split_and!; [by apply Hr | done..].
  - destruct (Hno _ Hnsrc) as (bn & Hv & Hb). exists nsrc, bn. split_and!; [by apply Hn | done..].
  - intros Hk. rewrite Ek, Ep, Ewr, Ea in Hkey. destruct Hkey as [[H1 H2]|H]; [by destruct Hk as [k ->]| |by right].
    left. split; by apply Hgiven.
Qed.

Lemma strict_daemon_from_flags_witness :
  exists call, run_serve (Sa := any_socket) forge_flags = Ok call /\
  require_ready_layer (ap_primed (dm_state all_polled)) = None /\
  exists src revs, list_vetted (Cr := enrol_crypto) (E := sample_forge) (De := revocations_decoder) src revs /\
    src = forge_source "revocations" /\ mirrors revs (dm_state all_polled).
Proof.
  destruct forge_flags_call as (call & Hcall & Hstart). exists call. split; [exact Hcall|].
  assert (Hr : require_ready_layer (ap_primed (dm_state all_polled)) = None) by by vm_compute.
  split; [exact Hr|].
  destruct (strict_daemon_from_flags (Sa := any_socket) (O := list_order) (Cr := enrol_crypto)
    (E := sample_forge) (Df := fleet_decoder) (Dm := served_decoder) (Dr := revocations_decoder)
    (Dn := nonces_decoder) forge_flags call all_polled Hcall eq_refl) as (_ & _ & _ & _ & Hrev & _);
    [done | rewrite Hstart; exact all_polled_runs | exact Hr|].
  rewrite Hstart in Hrev. destruct (Hrev all_polled_clean) as (src & revs & Hsrc & Hv & Hm).
  exists src, revs. split_and!; [exact Hv | by apply forge_flag_source | exact Hm].
Defined.
