(* ===== verification/AgentIdentityProps.v ===== *)
(** * The agent's identity: lemmas

    What the boot, a renewal and the ticks of the worker do to the files, and the
    fraction of a validity that remains. *)

From S2P Require Import Prelude RustStd Proto Gates Verify HostKey Issuance Enrollment FileSystem AgentIdentity.
From Stdlib Require SpecFloat.

(** ** Doubles that are whole numbers *)

Section doubles.
Import SpecFloat.
Open Scope Z_scope.

Lemma digits_log2 p : Zpos (digits2_pos p) = Z.log2 (Zpos p) + 1.
Proof.
  induction p as [p IH|p IH|]; [..|done].
  - change (digits2_pos (xI p)) with (Pos.succ (digits2_pos p)). rewrite Pos2Z.inj_succ, IH.
    rewrite (Pos2Z.inj_xI p), Z.log2_succ_double by lia. lia.
  - change (digits2_pos (xO p)) with (Pos.succ (digits2_pos p)). rewrite Pos2Z.inj_succ, IH.
    rewrite (Pos2Z.inj_xO p), Z.log2_double by lia. lia.
Qed.

Lemma iter_xO p d : Zpos (Pos.iter xO p d) = Zpos p * 2 ^ Zpos d.
Proof.
  induction d as [|d IH] using Pos.peano_ind; [simpl; lia|].
  rewrite Pos.iter_succ, Pos2Z.inj_succ, Z.pow_succ_r by lia.
  rewrite (Pos2Z.inj_xO (Pos.iter xO p d)), IH. lia.
Qed.

Lemma shl_align_value m e e' : e' <= e -> Zpos (fst (shl_align m e e')) = Zpos m * 2 ^ (e - e').
Proof.
  intros He. unfold shl_align. destruct (e' - e) as [|d|d] eqn:Ed; simpl.
  - replace (e - e') with 0 by lia. simpl. lia.
  - lia.
  - rewrite iter_xO. do 2 f_equal. lia.
Qed.

(** A mantissa of 53 bits is not rounded. *)
Lemma round_exact s p e :
  Zpos (digits2_pos p) = 53 -> -1074 <= e <= 971 ->
  binary_round_aux 53 1024 s (Zpos p) e loc_Exact = S754_finite s p e.
Proof.
  intros Hd He. unfold binary_round_aux, shr_fexp. cbn [Zdigits2]. rewrite Hd.
  assert (Hf : fexp 53 1024 (53 + e) - e = 0) by (unfold fexp, emin; lia). rewrite Hf.
  cbn [shr shr_record_of_loc shr_m loc_of_shr_record round_nearest_even Zdigits2]. rewrite Hd, Hf.
  cbn [shr shr_record_of_loc shr_m]. by rewrite (proj2 (Z.leb_le _ _)) by lia.
Qed.

Lemma f64_from_exact z :
  0 < z < 2 ^ 53 -> exists m e, f64_from z = S754_finite false m e /\ e <= 0 /\ Zpos m = z * 2 ^ (- e).
Proof.
  intros Hz. destruct z as [|p|p]; [lia| |lia].
  unfold f64_from, binary_normalize, binary_round. rewrite Z.add_0_r, digits_log2.
  assert (Hl : 0 <= Z.log2 (Zpos p) < 53) by (split; [apply Z.log2_nonneg|apply Z.log2_lt_pow2; lia]).
  assert (Hf : fexp 53 1024 (Z.log2 (Zpos p) + 1) = Z.log2 (Zpos p) - 52) by (unfold fexp, emin; lia).
  rewrite Hf. set (l := Z.log2 (Zpos p)) in *.
  pose proof (shl_align_value p 0 (l - 52) ltac:(lia)) as Hv.
  destruct (shl_align p 0 (l - 52)) as [mz ez] eqn:Es. simpl in Hv.
  assert (ez = l - 52) as ->.
  { unfold shl_align in Es. destruct (l - 52 - 0) eqn:Ed; injection Es as _ <-; lia. }
  exists mz, (l - 52). split_and!; [|lia|rewrite Hv; f_equal].
  apply round_exact; [|lia]. rewrite digits_log2, Hv, Z.log2_mul_pow2 by lia. fold l. lia.
Qed.

(** The quotient of a double by itself. *)
Lemma f64_div_self m e : f64_div (S754_finite false m e) (S754_finite false m e) = f64_from 1.
Proof.
  unfold f64_div, SFdiv, SFdiv_core_binary. rewrite Z.sub_diag, Z.sub_diag.
  change (Z.min (fexp 53 1024 0) 0) with (-53). change (0 - -53) with 53. cbn iota.
  rewrite Z.shiftl_mul_pow2 by lia. pose proof (Z_div_mod (Zpos m * 2 ^ 53) (Zpos m) ltac:(lia)) as Hm.
  destruct (Z.div_eucl _ _) as [q r]. destruct Hm as [Hm Hr].
  assert (Hq : q = 2 ^ 53).
  { generalize dependent (2 ^ 53). intros P Hm. destruct (Z.lt_trichotomy q P) as [?|[?|?]]; nia. }
  assert (r = 0) as -> by nia. subst q.
  unfold new_location, new_location_even, new_location_odd. by destruct (Z.even _).
Qed.

Lemma f64_div_zero m e : f64_div (f64_from 0) (S754_finite false m e) = f64_from 0.
Proof. done. Qed.

(** A negative result is not above zero. *)
Lemma not_above_zero n e : n <= 0 -> f64_lt (f64_from 0) (binary_normalize 53 1024 n e false) = false.
Proof.
  intros Hn. destruct n as [|p|p]; [done|lia|]. unfold binary_normalize, binary_round, binary_round_aux.
  destruct (shl_align _ _ _) as [mz ez]. destruct (shr_fexp _ _ _ _ _) as [m1 e1].
  destruct (shr_fexp _ _ _ e1 _) as [m2 e2]. destruct (shr_m m2); [done| |done]. by destruct (Z.leb _ _).
Qed.

Lemma f64_sub_below a b :
  0 < a < 2 ^ 53 -> 0 < b < 2 ^ 53 -> a <= b ->
  f64_max_zero (f64_sub (f64_from a) (f64_from b)) = f64_from 0.
Proof.
  intros Ha Hb Hab. destruct (f64_from_exact a Ha) as (m1 & e1 & -> & He1 & Hm1).
  destruct (f64_from_exact b Hb) as (m2 & e2 & -> & He2 & Hm2).
  unfold f64_max_zero. cbv zeta. unfold f64_sub, SFsub. cbn [cond_Zopp]. rewrite not_above_zero; [done|].
  rewrite !shl_align_value by lia. rewrite Hm1, Hm2, <- !Z.mul_assoc, <- !Z.pow_add_r by lia.
  replace (- e1 + (e1 - Z.min e1 e2)) with (- Z.min e1 e2) by lia.
  replace (- e2 + (e2 - Z.min e1 e2)) with (- Z.min e1 e2) by lia.
  assert (0 < 2 ^ (- Z.min e1 e2)) by (apply Z.pow_pos_nonneg; lia). nia.
Qed.

(** The fraction at the ends of the validity. *)
Lemma remaining_before not_before not_after now :
  not_after - not_before < 2 ^ 53 -> now <= not_before ->
  remaining_fraction not_before not_after now = f64_from 1.
Proof.
  intros Ht Hn. unfold remaining_fraction. rewrite (Z.max_r (now - not_before) 0) by lia.
  destruct (f64_from_exact (Z.max (not_after - not_before) 1)) as (m & e & -> & _ & _); [lia|].
  change (f64_max_zero (f64_sub (S754_finite false m e) (f64_from 0))) with (S754_finite false m e).
  apply f64_div_self.
Qed.

Lemma remaining_after not_before not_after now :
  not_after - not_before < 2 ^ 53 -> now - not_before < 2 ^ 53 ->
  not_before + Z.max (not_after - not_before) 1 <= now ->
  remaining_fraction not_before not_after now = f64_from 0.
Proof.
  intros Ht He Hn. unfold remaining_fraction. rewrite (Z.max_l (now - not_before) 0) by lia.
  rewrite f64_sub_below by lia.
  destruct (f64_from_exact (Z.max (not_after - not_before) 1)) as (m & e & -> & _ & _); [lia|].
  apply f64_div_zero.
Qed.

(** The comparisons of a threshold between zero and one. *)
Lemma compare_swap x y : SFcompare x y = CompOpp <$> SFcompare y x.
Proof.
  destruct x as [[]|[]| |[] m1 e1], y as [[]|[]| |[] m2 e2]; try done; simpl;
    rewrite (Z.compare_antisym e1 e2); destruct (e1 ?= e2); simpl; try done; f_equal; change (Pos.compare_cont Eq) with Pos.compare;
    rewrite (Pos.compare_antisym m1 m2); by destruct (Pos.compare m1 m2).
Qed.

Lemma f64_ge_lt x y : f64_lt x y = true -> f64_ge y x = true.
Proof. unfold f64_lt, f64_ge, SFltb, SFleb. by destruct (SFcompare x y) as [[]|]. Qed.

Lemma f64_ge_not_lt x y : f64_lt x y = true -> f64_ge x y = false.
Proof.
  unfold f64_lt, f64_ge, SFltb, SFleb. rewrite (compare_swap y x). by destruct (SFcompare x y) as [[]|].
Qed.

End doubles.

(** ** Writing the certificate *)

Definition temp_name (path : string) : string := "." +:+ default "out" (file_name path) +:+ "-tmp".

Lemma temp_name_proper path : proper_name (temp_name path).
Proof.
  split.
  - assert (Hn : no_slash (default "out" (file_name path))).
    { destruct (file_name path) as [n|] eqn:En; [by eapply file_name_no_slash|].
      apply (bool_decide_unpack (_ ∉ _)). by vm_compute. }
    unfold no_slash, temp_name. rewrite !chars_app. rewrite !not_elem_of_app. split_and!; [|exact Hn|];
      apply (bool_decide_unpack (_ ∉ _)); by vm_compute.
  - unfold temp_name. rewrite !not_elem_of_cons. split_and!; [..|apply not_elem_of_nil];
      intros Heq%(f_equal String.length); rewrite !length_append in Heq; simpl in Heq; lia.
Qed.

(** The temporary file is never the target. *)
Lemma temp_neq path dir : path_join dir (temp_name path) <> path.
Proof.
  intros H. pose proof (file_name_join dir _ (temp_name_proper path)) as Hf. rewrite H in Hf.
  assert (Hl : forall n, String.length ("." +:+ n +:+ "-tmp") = S (String.length n + 4))
    by (intros n; by rewrite !length_append).
  unfold temp_name in Hf. destruct (file_name path) as [n|]; [|done]. injection Hf as Hf. simpl in Hf.
  apply (f_equal String.length) in Hf. rewrite Hl in Hf. lia.
Qed.

Section identity_props.
Context {Cr : Crypto} {B : Base64} {E : OsEnv} {Sh : SshFormats} {I : IdentityEnv}.
Context {Dt : DeserializeOwned BootstrapToken} {Dr : DeserializeOwned EnrollResponse}.

(** A write ends with the contents there, or with an error and the file as it
    was; it touches nothing but the file and the one beside it. *)
Lemma write_atomic_inv path contents w r w' :
  write_atomic path contents w = (r, w') ->
  (r = Returned (Ok tt) /\ fw_files w' !! path = Some contents) \/
  (exists e, r = Returned (Err e)) /\ fw_files w' !! path = fw_files w !! path.
Proof.
  unfold write_atomic. destruct (parent path) as [dir|]; [|intros [= <- <-]; right; eauto].
  fold (temp_name path). intros H. pose proof (temp_neq path dir) as Hne.
  set (tmp := path_join dir (temp_name path)) in *.
  apply fm_bind_inv in H as [(r1 & w1 & H1 & H)|[(e & H1 & ->)|[[H1 ->]|[H1 ->]]]].
  2-4: exfalso; unfold fs_write, fm_ask, fm_put, mbind, FileM_bind, mret, FileM_ret in H1; simpl in H1;
    by destruct (os_write _) as [|[part|] e'].
  assert (Hw1 : fw_files w1 !! path = fw_files w !! path).
  { apply (fs_write_touches _ _ _ _ _ H1). rewrite list_elem_of_singleton. congruence. }
  apply fm_bind_inv in H as [(u & w2 & H2 & H)|[(e & H2 & ->)|[[H2 ->]|[H2 ->]]]].
  2: { right. split; [by exists e|]. by rewrite (keeps_read_or _ _ _ _ _ _ H2), Hw1. }
  2-3: by destruct r1.
  apply in_context_ok in H2 as [H2 ->]. destruct r1 as [[]|]; [|done]. apply fs_write_ok in H1.
  apply fm_bind_inv in H as [(r2 & w2 & H3 & H)|[(e & H3 & _)|[[H3 _]|[H3 _]]]];
    apply fs_rename_inv in H3 as (e0 & [[Hr Hf]|(bytes & Hr & Hb & Hf)]); try discriminate Hr.
  - injection Hr as ->. injection H as <- <-. right. split; [by eexists|]. by rewrite Hf, Hw1.
  - injection Hr as ->. injection H as <- <-. left. split; [done|]. rewrite Hf, lookup_insert_eq.
    rewrite H1, lookup_insert_eq in Hb. by injection Hb as ->.
Qed.

(** ** The signing request *)

(** The request for a host under the key of a file, and its public key. *)
Definition host_csr (store : gmap string string) (path hostname csr_pem key : string) : Prop :=
  exists raw seed kp sr,
    store !! path = Some raw /\ private_key_from_openssh raw = Ok (Ed25519Pair seed) /\
    key_pair_from_pem (ed25519_pkcs8_pem_from_seed seed) = Ok kp /\
    serialize_request hostname kp = Ok sr /\ request_pem sr = Ok csr_pem /\
    public_key_raw kp = key /\ String.length key = 32.

Lemma openssh_seed_ok path raw w seed w' :
  openssh_seed path raw w = (Returned (Ok seed), w') ->
  private_key_from_openssh raw = Ok (Ed25519Pair seed) /\ w' = w.
Proof.
  unfold openssh_seed. intros (p & w1 & [Hp ->]%in_context_ok & H)%fm_bind_ok.
  destruct p as [s|a]; [|done]. by injection H as <- <-.
Qed.

Lemma keeps_openssh_seed path raw : keeps (openssh_seed path raw).
Proof. unfold openssh_seed. eauto with files. Qed.

Lemma keeps_generate_csr hostname path : keeps (generate_csr_from_ssh_host_key hostname path).
Proof.
  unfold generate_csr_from_ssh_host_key.
  repeat first [apply keeps_bind; [solve [eauto using keeps_openssh_seed with files]|intros ?]].
  case_bool; eauto with files.
Qed.

Lemma generate_csr_ok hostname path w csr_pem key w' :
  generate_csr_from_ssh_host_key hostname path w = (Returned (Ok (csr_pem, key)), w') ->
  host_csr (fw_files w) path hostname csr_pem key.
Proof.
  unfold generate_csr_from_ssh_host_key.
  intros (r & w1 & H1 & H)%fm_bind_ok. apply fm_bind_ok in H as (raw & w2 & [H2 ->]%in_context_ok & H).
  destruct r as [text|]; [|done]. injection H2 as <-. apply fs_read_to_string_ok in H1 as [Hf Hw1].
  apply fm_bind_ok in H as (seed & w3 & [Hs ->]%openssh_seed_ok & H).
  apply fm_bind_ok in H as (kp & w4 & [Hk ->]%in_context_ok & H).
  apply fm_bind_ok in H as (sr & w5 & [Hsr ->]%in_context_ok & H).
  apply fm_bind_ok in H as (pem & w6 & [Hp ->]%in_context_ok & H).
  case_bool as [Hl|Hl]; [|done]. injection H as <- <- <-. by exists text, seed, kp, sr.
Qed.

Lemma keeps_read_client_key path : keeps (read_client_key_as_pem path).
Proof.
  unfold read_client_key_as_pem.
  repeat (apply keeps_bind; [solve [eauto with files]|intros ?]).
  destruct (contains _ _); eauto using keeps_openssh_seed with files.
Qed.

Lemma keeps_build_client ca cert key : keeps (build_client ca cert key).
Proof.
  unfold build_client. apply keeps_bind; [destruct ca; eauto 10 with files|intros root].
  apply keeps_bind; [|eauto with files].
  destruct cert, key; eauto 10 using keeps_read_client_key with files.
Qed.

Lemma grows_openssh_seed path raw : grows (openssh_seed path raw).
Proof. unfold openssh_seed. eauto with questions. Qed.

Lemma grows_generate_csr hostname path : grows (generate_csr_from_ssh_host_key hostname path).
Proof.
  unfold generate_csr_from_ssh_host_key.
  repeat first [apply grows_bind; [solve [eauto using grows_openssh_seed with questions]|intros ?]].
  case_bool; eauto with questions.
Qed.

(** ** Enrolling *)

Lemma keeps_post fuel client url req : keeps (post_until_ready fuel client url req).
Proof.
  induction fuel as [|fuel IH]; [apply keeps_out_of_fuel|]. cbn [post_until_ready].
  apply keeps_bind; [apply keeps_ask|]. intros [err|status body]; [apply keeps_bail|].
  destruct (is_success status); [apply keeps_context|]. cbv zeta. destruct (_ && _); [exact IH|apply keeps_bail].
Qed.

(** A result of the loop is in a successful answer to a later question. *)
Definition answered (n0 : nat) (client : Client) (url : string) (req : AgentRequest) (resp : EnrollResponse) : Prop :=
  exists n status bytes, n0 <= n /\ send n client url protocol_header req = Response status (Ok bytes) /\
    is_success status = true /\ from_str bytes = Ok resp.

Lemma response_decoded {A} {D : DeserializeOwned A} (text : string) (body : result string string) w (a : A) w' :
  in_context text (let? bytes := body in from_str bytes) w = (Returned (Ok a), w') ->
  exists bytes, body = Ok bytes /\ from_str bytes = Ok a /\ w' = w.
Proof. intros [H ->]%in_context_ok. destruct body as [bytes|]; [|done]. by exists bytes. Qed.

Lemma post_ok fuel client url req w resp w' :
  post_until_ready fuel client url req w = (Returned (Ok resp), w') ->
  answered (fw_asked w) client url (PostEnroll req) resp.
Proof.
  revert w. induction fuel as [|fuel IH]; intros w; [done|]. cbn [post_until_ready].
  intros (ans & w1 & Ha & H)%fm_bind_ok. injection Ha as <- <-.
  destruct (send _ _ _ _ _) as [err|status body] eqn:Es; [done|].
  destruct (is_success status) eqn:Est.
  - apply response_decoded in H as (bytes & -> & Hb & _). by exists (fw_asked w), status, bytes.
  - cbv zeta in H. destruct (_ && _); [|done]. destruct (IH _ H) as (n & st & bs & Hn & Hs). exists n, st, bs.
    simpl in Hn. split; [lia|done].
Qed.

(** How an enrollment ends. *)
Lemma agent_enroll_inv fuel client cp_url hostname token_file cert_path key_path w r w' :
  agent_enroll fuel client cp_url hostname token_file cert_path key_path w = (r, w') ->
  (r = Returned (Ok tt) /\ exists raw token csr_pem key resp,
     fw_files w !! token_file = Some raw /\ from_str raw = Ok token /\
     host_csr (fw_files w) key_path hostname csr_pem key /\
     answered (fw_asked w) client (strip_slashes cp_url +:+ "/v1/enroll") (PostEnroll (MkEnrollRequest token csr_pem)) resp /\
     fw_files w' !! cert_path = Some (en_cert_pem resp)) \/
  r <> Returned (Ok tt) /\ fw_files w' !! cert_path = fw_files w !! cert_path.
Proof.
  unfold agent_enroll. intros H.
  apply fm_bind_inv in H as [(r1 & w1 & H1 & H)|[(e & H1 & ->)|[[H1 ->]|[H1 ->]]]];
    [|right; by rewrite (keeps_read_to_string _ _ _ _ H1)..].
  pose proof (keeps_read_to_string _ _ _ _ H1) as K1. pose proof (grows_read_to_string _ _ _ _ H1) as G1.
  apply fm_bind_inv in H as [(raw & w2 & H2 & H)|[(e & H2 & ->)|[[H2 ->]|[H2 ->]]]];
    [|right; by rewrite (keeps_read_or _ _ _ _ _ _ H2), K1..].
  apply in_context_ok in H2 as [H2 ->]. destruct r1 as [text|]; [|done]. injection H2 as <-.
  apply fs_read_to_string_ok in H1 as [Hraw _].
  apply fm_bind_inv in H as [(token & w2 & H2 & H)|[(e & H2 & ->)|[[H2 ->]|[H2 ->]]]];
    [|right; by rewrite (keeps_context _ _ _ _ _ H2), K1..].
  apply in_context_ok in H2 as [Htoken ->].
  apply fm_bind_inv in H as [([csr_pem key] & w2 & H2 & H)|[(e & H2 & ->)|[[H2 ->]|[H2 ->]]]];
    [|right; by rewrite (keeps_generate_csr _ _ _ _ _ H2), K1..].
  pose proof (keeps_generate_csr _ _ _ _ _ H2) as K2. pose proof (grows_generate_csr _ _ _ _ _ H2) as G2.
  apply generate_csr_ok in H2. rewrite K1 in H2.
  apply fm_bind_inv in H as [(resp & w3 & H3 & H)|[(e & H3 & ->)|[[H3 ->]|[H3 ->]]]];
    [|right; by rewrite (keeps_post _ _ _ _ _ _ _ H3), K2, K1..].
  pose proof (keeps_post _ _ _ _ _ _ _ H3) as K3. apply post_ok in H3.
  assert (Ha : answered (fw_asked w) client (strip_slashes cp_url +:+ "/v1/enroll")
    (PostEnroll (MkEnrollRequest token csr_pem)) resp).
  { destruct H3 as (n & status & bytes & Hn & Hs). exists n, status, bytes. split; [lia|done]. }
  apply write_atomic_inv in H as [[-> Hc]|[[e ->] Hc]].
  - left. split; [done|]. by exists text, token, csr_pem, key, resp.
  - right. by rewrite Hc, K3, K2, K1.
Qed.

Lemma grows_write_atomic path contents : grows (write_atomic path contents).
Proof.
  unfold write_atomic. destruct (parent path); [|apply grows_bail].
  repeat (apply grows_bind; [solve [eauto with questions]|intros ?]). eauto with questions.
Qed.

Lemma grows_agent_renew client cp_url hostname cert_path key_path :
  grows (agent_renew client cp_url hostname cert_path key_path).
Proof.
  unfold agent_renew. apply grows_bind; [apply grows_generate_csr|]. intros [csr_pem key].
  apply grows_bind; [apply grows_ask|]. intros [err|status body]; [apply grows_bail|].
  destruct (is_success status); [|apply grows_bail].
  apply grows_bind; [apply grows_context|]. intros ?. apply grows_write_atomic.
Qed.

(** How a renewal ends: the file changes only by an answer to a question asked
    with this client. *)
Lemma agent_renew_inv client cp_url hostname cert_path key_path w r w' :
  agent_renew client cp_url hostname cert_path key_path w = (r, w') ->
  fw_files w' !! cert_path = fw_files w !! cert_path \/
  exists n csr_pem key resp status bytes,
    fw_asked w <= n /\ host_csr (fw_files w) key_path hostname csr_pem key /\
    send n client (strip_slashes cp_url +:+ "/v1/agent/renew") protocol_header (PostRenew csr_pem) =
      Response status (Ok bytes) /\ is_success status = true /\ from_str bytes = Ok resp /\
    fw_files w' !! cert_path = Some (en_cert_pem resp).
Proof.
  unfold agent_renew. intros H.
  apply fm_bind_inv in H as [([csr_pem key] & w1 & H1 & H)|[(e & H1 & ->)|[[H1 ->]|[H1 ->]]]];
    [|left; by rewrite (keeps_generate_csr _ _ _ _ _ H1)..].
  pose proof (keeps_generate_csr _ _ _ _ _ H1) as K1. pose proof (grows_generate_csr _ _ _ _ _ H1) as G1.
  apply generate_csr_ok in H1.
  apply fm_bind_inv in H as [(ans & w2 & H2 & H)|[(e & H2 & _)|[[H2 _]|[H2 _]]]]; [|discriminate H2..].
  injection H2 as <- <-. destruct (send _ _ _ _ _) as [err|status body] eqn:Es.
  { left. injection H as <- <-. simpl. by rewrite K1. }
  destruct (is_success status) eqn:Est; [|left; injection H as <- <-; simpl; by rewrite K1].
  apply fm_bind_inv in H as [(resp & w3 & H3 & H)|[(e & H3 & ->)|[[H3 ->]|[H3 ->]]]];
    [|left; rewrite (keeps_context _ _ _ _ _ H3); simpl; by rewrite K1..].
  apply response_decoded in H3 as (bytes & -> & Hb & ->).
  apply write_atomic_inv in H as [[-> Hc]|[_ Hc]]; [|left; rewrite Hc; simpl; by rewrite K1].
  right. exists (fw_asked w1), csr_pem, key, resp, status, bytes. by split_and!.
Qed.

(** ** One tick of the worker *)

Lemma keeps_remaining cert_path now : keeps (cert_remaining_fraction cert_path now).
Proof.
  unfold cert_remaining_fraction. repeat (apply keeps_bind; [solve [eauto with files]|intros ?]).
  case_match. destruct (from_timestamp _); eauto with files.
Qed.

Lemma grows_remaining cert_path now : grows (cert_remaining_fraction cert_path now).
Proof.
  unfold cert_remaining_fraction. repeat (apply grows_bind; [solve [eauto with questions]|intros ?]).
  case_match. destruct (from_timestamp _); eauto with questions.
Qed.

Lemma grows_maybe_renew client cfg cert_path threshold : grows (maybe_renew_once client cfg cert_path threshold).
Proof.
  unfold maybe_renew_once. apply grows_bind; [apply grows_ask|]. intros now.
  apply grows_bind; [apply grows_remaining|]. intros [remaining ?].
  destruct (f64_ge _ _); [apply grows_ret|apply grows_agent_renew].
Qed.

(** A tick whose certificate has enough validity left does nothing. *)
Lemma maybe_renew_inv client cfg cert_path threshold w r w' :
  maybe_renew_once client cfg cert_path threshold w = (r, w') ->
  fw_files w' !! cert_path = fw_files w !! cert_path \/
  exists n csr_pem key resp status bytes,
    fw_asked w <= n /\ host_csr (fw_files w) (ic_ssh_host_key_file cfg) (ic_machine_id cfg) csr_pem key /\
    send n client (strip_slashes (ic_control_plane_url cfg) +:+ "/v1/agent/renew") protocol_header
      (PostRenew csr_pem) = Response status (Ok bytes) /\ is_success status = true /\ from_str bytes = Ok resp /\
    fw_files w' !! cert_path = Some (en_cert_pem resp).
Proof.
  unfold maybe_renew_once. intros H.
  apply fm_bind_inv in H as [(now & w1 & H1 & H)|[(e & H1 & _)|[[H1 _]|[H1 _]]]]; [|discriminate H1..].
  injection H1 as _ <-.
  apply fm_bind_inv in H as [([remaining na] & w2 & H2 & H)|[(e & H2 & ->)|[[H2 ->]|[H2 ->]]]];
    [|left; by rewrite (keeps_remaining _ _ _ _ _ H2)..].
  pose proof (keeps_remaining _ _ _ _ _ H2) as K. pose proof (grows_remaining _ _ _ _ _ H2) as G. simpl in K, G.
  destruct (f64_ge _ _); [injection H as <- <-; left; by rewrite K|].
  apply agent_renew_inv in H as [H|(n & csr_pem & key & resp & status & bytes & Hn & Hc & H)]; [left; by rewrite H, K|].
  right. exists n, csr_pem, key, resp, status, bytes. rewrite K in Hc. split; [lia|]. by split.
Qed.

(** A client that is refused changes nothing any more. *)
Lemma refused_ticks client cfg cert_path threshold n0 n w r w' :
  (forall m csr_pem status body, n0 <= m ->
     send m client (strip_slashes (ic_control_plane_url cfg) +:+ "/v1/agent/renew") protocol_header
       (PostRenew csr_pem) = Response status body -> is_success status = false) ->
  n0 <= fw_asked w ->
  renewal_ticks n cfg (MkRenewalWorker client cert_path threshold) w = (r, w') ->
  fw_files w' !! cert_path = fw_files w !! cert_path.
Proof.
  intros Hno. revert w. induction n as [|n IH]; intros w Hw H; [by injection H as <- <-|].
  cbn [renewal_ticks rw_client rw_cert_path rw_threshold] in H.
  assert (Htick : forall r1 w1, maybe_renew_once client cfg cert_path threshold w = (r1, w1) ->
            fw_files w1 !! cert_path = fw_files w !! cert_path).
  { intros r1 w1 H1. apply maybe_renew_inv in H1 as [H1|(m & ? & ? & ? & ? & ? & Hm & _ & Hs & Hok & _)]; [done|].
    assert (Hm' : n0 <= m) by lia. rewrite (Hno _ _ _ _ Hm' Hs) in Hok. discriminate Hok. }
  apply fm_bind_inv in H as [(u & w1 & H1 & H)|[(e & H1 & _)|[[H1 ->]|[H1 ->]]]]; unfold fm_logged in H1;
    destruct (maybe_renew_once _ _ _ _ w) as [[[]| |] w2] eqn:Et; simplify_eq;
    pose proof (grows_maybe_renew _ _ _ _ _ _ _ Et) as G; rewrite <- (Htick _ _ eq_refl); try done.
  - apply (IH w1); [lia|done].
  - apply (IH w1); [lia|done].
Qed.

End identity_props.
