(* ===== verification/AgentIdentitySpecs.v ===== *)
(** * The agent's identity against the control plane

    The boot of an agent and the enrollment of the control plane together: what a
    first boot ends with, what a lost answer costs, how long an identity lasts
    without a restart, and when a renewal is asked for. *)

From S2P Require Import Prelude RustStd Proto Gates Verify HostKey Issuance Enrollment EnrollmentProps FileSystem.
From S2P Require Import AgentIdentity AgentIdentityProps.

(** ** The control plane that answers *)

(** Its surroundings and state when a question reaches it, and the JSON of a
    response. *)
Record Answerer := MkAnswerer {
  an_strict : bool;
  an_primed : nat -> Primed;
  an_su : nat -> Surroundings;
  an_state : nat -> IdentityState;
  an_encode : EnrollResponse -> string;
}.

Definition quoted (s : string) : string := String (ascii_of_nat 34) s +:+ String (ascii_of_nat 34) "".

Definition not_ready_body : string :=
  "{" +:+ quoted "error" +:+ ":" +:+ quoted "control plane not ready" +:+ "," +:+
  quoted "reason" +:+ ":" +:+ quoted "awaiting first signed artifact" +:+ "}".

Section answers.
Context {Cr : Crypto} {B : Base64} {P : Pki} (sv : Server) (an : Answerer).

(** [POST /v1/enroll] through the layers of the router. *)
Definition enroll_answer (n : nat) (header : string) (req : EnrollRequest) : HttpAnswer :=
  match require_ready_layer (an_primed an n) with
  | Some status => Response status (Ok not_ready_body)
  | None =>
      match protocol_version_middleware (an_strict an) (Some (Some header)) with
      | Some status => Response status (Ok "")
      | None =>
          match (enroll sv (an_su an n) req (an_state an n)).1 with
          | Returned (Ok resp) => Response OK (Ok (an_encode an resp))
          | Returned (Err status) => Response status (Ok "")
          | _ => SendFailed "connection closed before message completed"
          end
      end
  end.

Lemma enroll_answer_success n header req status bytes :
  enroll_answer n header req = Response status (Ok bytes) -> is_success status = true ->
  exists resp st', enroll sv (an_su an n) req (an_state an n) = (Returned (Ok resp), st') /\ bytes = an_encode an resp.
Proof.
  unfold enroll_answer, require_ready_layer. destruct (is_ready _); [|intros [= <- <-]; done].
  destruct (protocol_version_middleware _ _) as [s|] eqn:Ep.
  { intros [= -> <-] Hs. exfalso. revert Ep Hs. unfold protocol_version_middleware.
    repeat case_match; intros [= <-]; done. }
  destruct (enroll _ _ _ _) as [[[resp|s]| |] st'] eqn:Ee; simpl; [|intros [= -> <-] Hs|done..].
  - intros [= <- <-] _. by exists resp, st'.
  - exfalso. revert Hs Ee. unfold enroll. destruct (enroll_checks _ _ _ _) as [[]|s] eqn:Ec.
    + unfold enroll_commit. intros Hs Ee. repeat case_match; simplify_eq; done.
    + intros Hs [= -> _]. revert Ec Hs. unfold enroll_checks, check_allowlist, check_host_key.
      repeat case_match; intros; simplify_eq; done.
Qed.

End answers.

(** ** What is assumed of the libraries and the network *)

Section laws.
Context {Cr : Crypto} {B : Base64} {P : Pki} {E : OsEnv} {Sh : SshFormats} {I : IdentityEnv}.
Context {Dr : DeserializeOwned EnrollResponse}.

(** A parsed request has the key it was signed with and the name it was made for. *)
Definition csr_faithful : Prop := forall hostname kp sr pem csr,
  serialize_request hostname kp = Ok sr -> request_pem sr = Ok pem -> csr_from_pem pem = Ok csr ->
  csr_public_key csr = public_key_raw kp /\
  exists v, find_cn (cp_distinguished_name (csr_params csr)) = Some v /\ dn_value_text v = hostname.

(** An enrollment gets the control plane's answer, or none. *)
Definition reaches (sv : Server) (an : Answerer) : Prop := forall n client url req,
  (exists err, send n client url protocol_header (PostEnroll req) = SendFailed err) \/
  send n client url protocol_header (PostEnroll req) = enroll_answer sv an n protocol_header req.

(** What is decoded of a response has its certificate. *)
Definition cert_decoded (an : Answerer) : Prop := forall resp resp',
  from_str (an_encode an resp) = Ok resp' -> en_cert_pem resp' = en_cert_pem resp.

(** A client with an expired certificate gets no success. *)
Definition refuses_expired : Prop := forall n client cert key_pem der not_before not_after url csr_pem status body,
  hc_identity client = Some (cert +:+ key_pem) -> pem_parse cert = Ok der ->
  x509_validity der = Ok (not_before, not_after) -> (not_after < timestamp (os_now n))%Z ->
  send n client url protocol_header (PostRenew csr_pem) = Response status body -> is_success status = false.

Definition clock_monotone : Prop := forall n m, n <= m -> (os_now n <= os_now m)%Z.

End laws.

Section boot_lemmas.
Context {Cr : Crypto} {B : Base64} {P : Pki} {E : OsEnv} {Sh : SshFormats} {I : IdentityEnv}.
Context {Dt : DeserializeOwned BootstrapToken} {Dr : DeserializeOwned EnrollResponse} {Dc : DeserializeOwned TrustConfig}.

Lemma keeps_parse_trust path : keeps (parse_trust_file path).
Proof. unfold parse_trust_file. repeat (apply keeps_bind; [solve [eauto with files]|intros ?]). eauto with files. Qed.

Lemma grows_parse_trust path : grows (parse_trust_file path).
Proof.
  unfold parse_trust_file. repeat (apply grows_bind; [solve [eauto with questions]|intros ?]). eauto with questions.
Qed.

Lemma grows_build_root ca : grows (build_client ca None None).
Proof.
  unfold build_client. apply grows_bind; [destruct ca; eauto 10 with questions|]. intros root.
  apply grows_bind; [apply grows_ret|]. eauto with questions.
Qed.

(** How a first boot ends. *)
Lemma first_boot_inv fuel args cert_path key_path token_file w r w' :
  ar_client_cert args = Some cert_path -> ar_client_key args = Some key_path ->
  ar_bootstrap_token_file args = Some token_file -> fw_files w !! cert_path = None ->
  boot fuel args w = (r, w') ->
  (r = Returned (Ok tt) /\ exists client raw token csr_pem key resp,
     fw_files w !! token_file = Some raw /\ from_str raw = Ok token /\
     host_csr (fw_files w) key_path (ar_machine_id args) csr_pem key /\
     answered (fw_asked w) client (strip_slashes (ar_control_plane_url args) +:+ "/v1/enroll")
       (PostEnroll (MkEnrollRequest token csr_pem)) resp /\
     fw_files w' !! cert_path = Some (en_cert_pem resp)) \/
  r <> Returned (Ok tt) /\ fw_files w' !! cert_path = None.
Proof.
  intros Hc Hk Ht Hnone H. unfold boot, maybe_run_first_boot_enrollment in H. rewrite Hc, Hk, Ht in H.
  apply fm_bind_inv in H as [([] & w1 & H1 & H)|[(e & H1 & ->)|[[H1 ->]|[H1 ->]]]];
    [|right; by rewrite (keeps_parse_trust _ _ _ _ H1)..].
  pose proof (keeps_parse_trust _ _ _ _ H1) as K1. pose proof (grows_parse_trust _ _ _ _ H1) as G1.
  apply fm_bind_inv in H as [(there & w2 & H2 & H)|[(e & H2 & ->)|[[H2 ->]|[H2 ->]]]];
    [|right; by rewrite (keeps_exists _ _ _ _ H2), K1..].
  pose proof (keeps_exists _ _ _ _ H2) as K2.
  assert (G2 : fw_asked w1 <= fw_asked w2).
  { revert H2. assert (G : grows (fs_exists cert_path)) by (unfold fs_exists; eauto with questions). apply G. }
  destruct there.
  { apply fs_exists_true in H2. rewrite K1, Hnone in H2. by destruct H2. }
  apply fm_bind_inv in H as [(client & w3 & H3 & H)|[(e & H3 & ->)|[[H3 ->]|[H3 ->]]]];
    [|right; by rewrite (keeps_build_client _ _ _ _ _ _ H3), K2, K1..].
  pose proof (keeps_build_client _ _ _ _ _ _ H3) as K3. pose proof (grows_build_root _ _ _ _ H3) as G3.
  assert (K : fw_files w3 = fw_files w) by congruence.
  apply agent_enroll_inv in H as [[-> (raw & token & csr_pem & key & resp & Hraw & Htok & Hcsr & Ha & Hf)]|[Hr Hf]].
  - left. split; [done|]. exists client, raw, token, csr_pem, key, resp. rewrite K in Hraw, Hcsr.
    split_and!; try done. destruct Ha as (n & status & bytes & Hn & Hs). exists n, status, bytes. split; [lia|done].
  - right. split; [done|]. by rewrite Hf, K.
Qed.

(** The answer to an enrollment that succeeded is a certificate of the control plane. *)
Lemma answered_enrolls sv an n0 client url req resp :
  reaches sv an -> cert_decoded an -> answered n0 client url (PostEnroll req) resp ->
  exists n resp' st', n0 <= n /\ enroll sv (an_su an n) req (an_state an n) = (Returned (Ok resp'), st') /\
    en_cert_pem resp = en_cert_pem resp'.
Proof.
  intros Hreach Hdec (n & status & bytes & Hn & Hs & Hok & Hb).
  destruct (Hreach n client url req) as [[err He]|He]; [congruence|]. rewrite He in Hs.
  apply enroll_answer_success in Hs as (resp' & st' & Henroll & ->); [|done].
  exists n, resp', st'. split_and!; [done..|]. by apply Hdec.
Qed.

Lemma build_client_identity ca cert_path key_path w client w' :
  build_client ca (Some cert_path) (Some key_path) w = (Returned (Ok client), w') ->
  exists cert key_pem, fw_files w !! cert_path = Some cert /\ hc_identity client = Some (cert +:+ key_pem).
Proof.
  unfold build_client. intros (root & w1 & H1 & H)%fm_bind_ok.
  assert (K : fw_files w1 = fw_files w).
  { refine ((_ : keeps _) _ _ _ H1). destruct ca; eauto 10 with files. }
  apply fm_bind_ok in H as (identity & w2 & H2 & H).
  apply fm_bind_ok in H2 as (r & w3 & H3 & H2). apply fm_bind_ok in H2 as (pem & w4 & [H4 ->]%in_context_ok & H2).
  destruct r as [cert|]; [|done]. injection H4 as <-. apply fs_read_ok in H3 as [Hf _]. rewrite K in Hf.
  apply fm_bind_ok in H2 as (key_pem & w5 & _ & H2). apply fm_bind_ok in H2 as (u & w6 & _ & H2).
  injection H2 as <- <-. apply fm_bind_ok in H as (u' & w7 & _ & H). injection H as <- <-.
  by exists cert, key_pem.
Qed.

(** The client of a started worker was built from the file at its start. *)
Lemma start_renewal_client cfg key_path w worker w' :
  start_renewal cfg w = (Returned (Ok (Some worker)), w') -> ic_client_key cfg = Some key_path ->
  exists cert key_pem, fw_files w !! rw_cert_path worker = Some cert /\
    hc_identity (rw_client worker) = Some (cert +:+ key_pem).
Proof.
  unfold start_renewal. destruct (ic_renewal_threshold_fraction cfg) as [th|]; [|done].
  destruct (negb _); [done|]. destruct (ic_client_cert cfg) as [cert_path|]; [|done]. intros H Hk.
  rewrite Hk in H. destruct (build_client _ _ _ w) as [[[client|]| |] w1] eqn:Eb; try done.
  injection H as <- _. by apply build_client_identity in Eb.
Qed.

End boot_lemmas.

(** ** Properties *)

(** C5.  What a first boot ends with.  Against a control plane that answers or is
    lost, the boot of an agent without a certificate either ends well, and the
    file then holds a certificate that the control plane issued to this request,
    whose token is for this machine, over the key of this host's file, which the
    fleet declares for the machine; it is valid from the second of the issuance for
    the validity of the control plane, and the name check of the control plane
    ([require_cn]) lets it through at every time unless it is revoked.  That check
    never looks at the expiry: once the certificate has expired it is the TLS
    verifier, which is not modelled, that refuses it.  Or the boot does not end
    well, and there is no certificate. *)
Theorem first_boot_gives_identity {Cr : Crypto} {B : Base64} {P : Pki} {E : OsEnv} {Sh : SshFormats} {I : IdentityEnv}
    {Dt : DeserializeOwned BootstrapToken} {Dr : DeserializeOwned EnrollResponse} {Dc : DeserializeOwned TrustConfig}
    (sv : Server) (an : Answerer) (der_of_pem : string -> string) (fuel : nat) (args : Args)
    (cert_path key_path token_file : string) (w w' : FileWorld) (r : ended (result unit string)) :
  csr_faithful -> x509_faithful der_of_pem -> reaches sv an -> cert_decoded an ->
  (forall n, 0 <= timestamp (su_now (an_su an n)) <= 8210266876799)%Z ->
  ar_client_cert args = Some cert_path -> ar_client_key args = Some key_path ->
  ar_bootstrap_token_file args = Some token_file -> fw_files w !! cert_path = None ->
  boot fuel args w = (r, w') ->
  (r = Returned (Ok tt) /\
   exists n token csr_pem csr resp st',
     let req := MkEnrollRequest token csr_pem in
     let machine_id := extract_machine_id (ar_machine_id args) (sv_agent_cn_suffix sv) in
     enroll sv (an_su an n) req (an_state an n) = (Returned (Ok resp), st') /\
     authorised sv (an_su an n) (an_state an n) req csr /\
     cl_hostname (bt_claims token) = ar_machine_id args /\
     host_csr (fw_files w) key_path (ar_machine_id args) csr_pem (csr_public_key csr) /\
     fw_files w' !! cert_path = Some (en_cert_pem resp) /\
     (exists signer, certifies signer csr (canonical_agent_cn machine_id (sv_agent_cn_suffix sv))
        (sv_agent_cert_validity sv) (su_now (an_su an n)) (en_cert_pem resp) (en_not_after resp)) /\
     forall su st, su_revocations_fail su = false ->
       (forall rb, RevocationTable.cert_revoked_before machine_id (is_revocations st) = Some rb ->
          (rb <= duration_seconds (timestamp (su_now (an_su an n))))%Z) ->
       require_cn sv su st [der_of_pem (en_cert_pem resp)] =
         Ok (canonical_agent_cn machine_id (sv_agent_cn_suffix sv))) \/
  r <> Returned (Ok tt) /\ fw_files w' !! cert_path = None.
Proof.
  intros Hcsr Hx Hreach Hdec Hnow Hc Hk Ht Hnone H.
  destruct (first_boot_inv _ _ _ _ _ _ _ _ Hc Hk Ht Hnone H) as [[-> Hok]|?]; [left|by right].
  destruct Hok as (client & raw & token & csr_pem & key & resp & _ & _ & Hhost & Ha & Hf).
  destruct (answered_enrolls _ _ _ _ _ _ _ Hreach Hdec Ha) as (n & resp' & st' & _ & Henroll & Hcert).
  split; [done|]. apply enroll_ok in Henroll as Hen. destruct Hen as (csr & signer & Hauth & _ & Hcertifies & _).
  pose proof (ok_csr _ _ _ _ _ Hauth) as Hparse. pose proof (ok_name _ _ _ _ _ Hauth) as (v & Hv & Hname).
  pose proof Hhost as (text & seed & kp & sr & _ & _ & _ & Hsr & Hpem & Hkey & _).
  destruct (Hcsr _ _ _ _ _ Hsr Hpem Hparse) as [Hpub (v' & Hv' & Hmine)].
  rewrite Hv in Hv'. injection Hv' as <-. cbn [er_token] in Hname.
  cbn [er_token] in Hcertifies. rewrite <- Hname, Hmine in Hcertifies.
  exists n, token, csr_pem, csr, resp', st'. cbv zeta.
  split_and!; [done|done|congruence| |by rewrite <- Hcert|by exists signer|].
  - rewrite Hpub, Hkey. exact Hhost.
  - intros su st Hdb Hrev. by eapply certified_name_accepted.
Qed.

(** A lost answer costs the token.  When the control plane has issued a
    certificate to a request with a token and the agent did not get the answer,
    then for as long as the table keeps the nonce no later boot with the same
    token file gets a certificate: it ends with an error, or never. *)
Theorem lost_answer_costs_token {Cr : Crypto} {B : Base64} {P : Pki} {E : OsEnv} {Sh : SshFormats} {I : IdentityEnv}
    {Dt : DeserializeOwned BootstrapToken} {Dr : DeserializeOwned EnrollResponse} {Dc : DeserializeOwned TrustConfig}
    (sv : Server) (an : Answerer) (fuel : nat) (args : Args) (cert_path key_path token_file raw : string)
    (n0 : nat) (req : EnrollRequest) (resp : EnrollResponse) (st0 : IdentityState)
    (w w' : FileWorld) (r : ended (result unit string)) :
  reaches sv an -> cert_decoded an ->
  ar_client_cert args = Some cert_path -> ar_client_key args = Some key_path ->
  ar_bootstrap_token_file args = Some token_file -> fw_files w !! cert_path = None ->
  fw_files w !! token_file = Some raw -> from_str raw = Ok (er_token req) ->
  enroll sv (an_su an n0) req (an_state an n0) = (Returned (Ok resp), st0) ->
  (forall n, n0 < n -> is_tokens st0 ⊆ is_tokens (an_state an n)) -> n0 < fw_asked w ->
  boot fuel args w = (r, w') ->
  r <> Returned (Ok tt) /\ fw_files w' !! cert_path = None.
Proof.
  intros Hreach Hdec Hc Hk Ht Hnone Hraw Htok Hlost Hkeep Hn0 H.
  destruct (first_boot_inv _ _ _ _ _ _ _ _ Hc Hk Ht Hnone H) as [[-> Hok]|?]; [exfalso|done].
  destruct Hok as (client & raw' & token & csr_pem & key & resp1 & Hraw' & Htok' & _ & Ha & _).
  rewrite Hraw in Hraw'. injection Hraw' as <-. rewrite Htok in Htok'. injection Htok' as <-.
  destruct (answered_enrolls _ _ _ _ _ _ _ Hreach Hdec Ha) as (n & resp2 & st2 & Hn & Henroll & _).
  apply enroll_ok in Hlost as (_ & _ & _ & _ & _ & Hst0).
  apply enroll_ok in Henroll as (csr & _ & Hauth & _).
  pose proof (ok_fresh _ _ _ _ _ Hauth) as Hfresh. cbn [er_token] in Hfresh.
  assert (Hin : is_tokens st0 !! nonce_of req = Some (MkTokenRow (cl_hostname (bt_claims (er_token req)))
    (timestamp (su_db_now (an_su an n0))))) by (rewrite Hst0; apply lookup_insert_eq).
  assert (Hlater : n0 < n) by lia.
  pose proof (lookup_weaken _ _ _ _ Hin (Hkeep n Hlater)) as Hbad. unfold nonce_of in Hbad. congruence.
Qed.

(** An identity lasts as long as the certificate a worker was started with.
    From the expiry of that certificate on, the ticks of the worker change
    nothing, although it may have renewed the file before: its client is not
    built again.  A boot does not help when the file has expired meanwhile: a file
    that is there is never replaced by an enrollment. *)
Theorem identity_needs_restarts {Cr : Crypto} {B : Base64} {P : Pki} {E : OsEnv} {Sh : SshFormats} {I : IdentityEnv}
    {Dt : DeserializeOwned BootstrapToken} {Dr : DeserializeOwned EnrollResponse} {Dc : DeserializeOwned TrustConfig}
    (cfg : IdentityConfig) (key_path : string) (worker : RenewalWorker) (cert der : string)
    (not_before not_after : i64) (n fuel : nat) (args : Args) (w0 w1 w w' : FileWorld)
    (r r' : ended (result unit string)) :
  refuses_expired -> clock_monotone ->
  start_renewal cfg w0 = (Returned (Ok (Some worker)), w1) -> ic_client_key cfg = Some key_path ->
  fw_files w0 !! rw_cert_path worker = Some cert -> pem_parse cert = Ok der ->
  x509_validity der = Ok (not_before, not_after) ->
  (not_after < timestamp (os_now (fw_asked w)))%Z ->
  renewal_ticks n cfg worker w = (r, w') ->
  fw_files w' !! rw_cert_path worker = fw_files w !! rw_cert_path worker /\
  (forall w2 w3 present, ar_client_cert args = Some present -> is_Some (fw_files w2 !! present) ->
     (forall n, os_failure n = None) -> boot fuel args w2 = (r', w3) -> fw_files w3 = fw_files w2).
Proof.
  intros Hexp Hmono Hstart Hk Hcert Hder Hval Hlate Hticks. split.
  - destruct (start_renewal_client _ _ _ _ _ Hstart Hk) as (cert' & key_pem & Hcert' & Hid).
    rewrite Hcert in Hcert'. injection Hcert' as <-. destruct worker as [client path th].
    eapply (refused_ticks client cfg path th (fw_asked w) n); [|done|exact Hticks].
    intros m csr_pem status body Hm Hs. eapply Hexp; [exact Hid|exact Hder|exact Hval| |exact Hs].
    eapply Z.lt_le_trans; [exact Hlate|]. unfold timestamp. apply Z.div_le_mono; [done|by apply Hmono].
  - intros w2 w3 present Hc [bytes Hb] Hio H. unfold boot in H.
    apply fm_bind_inv in H as [([] & w4 & H1 & H)|[(e & H1 & _)|[[H1 _]|[H1 _]]]];
      pose proof (keeps_parse_trust _ _ _ _ H1) as K1; try done.
    unfold maybe_run_first_boot_enrollment in H. rewrite Hc in H.
    destruct (ar_client_key args); [|by injection H as _ <-].
    destruct (ar_bootstrap_token_file args); [|by injection H as _ <-].
    apply fm_bind_inv in H as [(there & w5 & H2 & H)|[(e & H2 & _)|[[H2 _]|[H2 _]]]]; try discriminate H2.
    unfold fs_exists, fm_ask, fm_files, mbind, FileM_bind, mret, FileM_ret in H2. simpl in H2.
    rewrite Hio, K1, Hb in H2. rewrite bool_decide_eq_true_2 in H2 by done. injection H2 as <- <-.
    injection H as _ <-. done.
Qed.

(** C39.  When a renewal is asked for.  At or before the first second of the validity
    of the certificate on disk a tick asks for nothing, whatever the threshold; at
    or after its end it asks for a renewal. *)
Theorem renewal_at_the_ends {Cr : Crypto} {B : Base64} {E : OsEnv} {Sh : SshFormats} {I : IdentityEnv}
    {Dr : DeserializeOwned EnrollResponse} (client : Client) (cfg : IdentityConfig) (cert_path : string)
    (threshold : f64) (w : FileWorld) (cert der : string) (not_before not_after : i64) :
  let now := timestamp (os_now (fw_asked w)) in
  (forall n, os_failure n = None) ->
  f64_lt (f64_from 0) threshold = true -> f64_lt threshold (f64_from 1) = true ->
  fw_files w !! cert_path = Some cert -> from_utf8 cert = Some cert -> pem_parse cert = Ok der ->
  x509_validity der = Ok (not_before, not_after) -> is_Some (from_timestamp not_after) ->
  (not_after - not_before < 2 ^ 53)%Z -> (now - not_before < 2 ^ 53)%Z ->
  let run := maybe_renew_once client cfg cert_path threshold w in
  ((now <= not_before)%Z -> run.1 = Returned (Ok tt) /\ fw_files run.2 = fw_files w) /\
  ((not_before + Z.max (not_after - not_before) 1 <= now)%Z ->
   exists w1, fw_files w1 = fw_files w /\
     run = agent_renew client (ic_control_plane_url cfg) (ic_machine_id cfg) cert_path (ic_ssh_host_key_file cfg) w1).
Proof.
  intros now Hio H0 H1 Hf Hutf Hder Hval [t Ht] Htotal Helapsed run.
  assert (Hfrac : cert_remaining_fraction cert_path (os_now (fw_asked w)) (w <| fw_asked := S (fw_asked w) |>) =
    (Returned (Ok (remaining_fraction not_before not_after now, t)), w <| fw_asked := S (S (fw_asked w)) |>)).
  { unfold cert_remaining_fraction, fs_read_to_string, fs_read, fm_ask, fm_files, read_or, in_context, fm_result,
      mbind, FileM_bind, mret, FileM_ret. simpl. rewrite Hio, Hf, Hutf. simpl. rewrite Hder, Hval, Ht. done. }
  assert (Hrun : run = (if f64_ge (remaining_fraction not_before not_after now) threshold
    then (Returned (Ok tt), w <| fw_asked := S (S (fw_asked w)) |>)
    else agent_renew client (ic_control_plane_url cfg) (ic_machine_id cfg) cert_path (ic_ssh_host_key_file cfg)
           (w <| fw_asked := S (S (fw_asked w)) |>))).
  { unfold run, maybe_renew_once. unfold mbind at 1, FileM_bind at 1. unfold fm_ask at 1. cbn beta iota.
    unfold mbind, FileM_bind. rewrite Hfrac. by destruct (f64_ge _ _). }
  rewrite Hrun. split; intros Hn.
  - rewrite remaining_before by done. rewrite f64_ge_lt by done. done.
  - rewrite remaining_after by done. rewrite f64_ge_not_lt by done. eexists. split; [|reflexivity]. done.
Qed.

(** ** Witnesses *)

Definition minutes_clock : OsEnv := {|
  os_now := fun n => duration_minutes (Z.of_nat n);
  os_failure := fun _ => None;
  os_write := fun _ => Written;
|}.

(** A control plane that is not ready before the fifth question, and answers the
    ones of [lost] to nobody. *)
Definition web_answerer (lost : nat -> bool) : Answerer :=
  MkAnswerer true (fun n => MkPrimed (Nat.leb 5 n) false false false false) (fun _ => at_minute 5)
    (fun n => if existsb lost (seq 0 n) then enrolled else enrol_state) en_cert_pem.

Definition web_ssh : SshFormats := {|
  private_key_from_openssh := fun _ => Ok (Ed25519Pair "seed");
  public_key_from_openssh := fun _ => Ok OtherPublic;
|}.

(** A renewal succeeds until minute ten, when the certificates expire. *)
Definition web_identity (lost : nat -> bool) : IdentityEnv := {|
  KeyPair := string;
  key_pair_from_pem := fun _ => Ok web_key;
  public_key_raw := id;
  SigningRequest := string;
  serialize_request := fun name kp => if bool_decide (name = "web-1" /\ kp = web_key) then Ok "csr" else Err "other";
  request_pem := Ok;
  x509_validity := fun _ => Ok (0, 600)%Z;
  root_from_pem := fun _ => Ok tt;
  identity_from_pem := fun _ => Ok tt;
  client_builds := fun _ => Ok tt;
  send := fun n _ _ header req =>
    match req with
    | PostEnroll req =>
        if lost n then SendFailed "timed out"
        else enroll_answer (B := letters_base64) (P := enrol_pki) enrol_server (web_answerer lost) n header req
    | PostRenew _ => if Nat.leb n 10 then Response OK (Ok "efgh") else SendFailed "certificate expired"
    end;
  display_status := fun _ => "";
  response_text := id;
|}.

Definition web_token : DeserializeOwned BootstrapToken := fun s =>
  if bool_decide (s = "token") then Ok (er_token web_request) else Err "not a token".
Definition web_decoder : DeserializeOwned EnrollResponse := fun s => Ok (MkEnrollResponse s 0).
Definition web_trust : DeserializeOwned TrustConfig := fun _ => Ok org_trust.

Definition web_args : Args :=
  MkArgs "https://cp/" "web-1" "trust" None (Some "agent/cert.pem") (Some "key") (Some "token") "key" None.

Definition web_disk (asked : nat) : FileWorld :=
  MkFileWorld {[ "trust" := "trust"; "key" := "key"; "token" := "token" ]} asked.

Abbreviation web_boot lost w :=
  (boot (Cr := enrol_crypto) (B := letters_base64) (E := minutes_clock) (Sh := web_ssh) (I := web_identity lost)
     (Dt := web_token) (Dr := web_decoder) (Dc := web_trust) 10 web_args w).

Lemma web_csr_faithful lost : csr_faithful (P := enrol_pki) (I := web_identity lost).
Proof.
  intros name kp sr pem csr Hs Hp Hc. unfold serialize_request, web_identity in Hs. revert Hs.
  case_bool as [[-> ->]|]; [|done]. intros [= <-]. injection Hp as <-. vm_compute in Hc. injection Hc as <-.
  split; [by vm_compute|]. by eexists.
Qed.

Lemma web_reaches lost :
  reaches (B := letters_base64) (P := enrol_pki) (I := web_identity lost) enrol_server (web_answerer lost).
Proof.
  intros n client url req. unfold send, web_identity. destruct (lost n); [left; by eexists|by right].
Qed.

Lemma web_cert_decoded lost : cert_decoded (Dr := web_decoder) (web_answerer lost).
Proof. by intros resp resp' [= <-]. Qed.

Lemma first_boot_gives_identity_witness :
  exists w', web_boot (fun _ => false) (web_disk 0) = (Returned (Ok tt), w') /\
    fw_files w' !! "agent/cert.pem" <> None.
Proof.
  destruct (web_boot (fun _ => false) (web_disk 0)) as [r w'] eqn:Hrun.
  assert (Hr : r = Returned (Ok tt)) by (apply (f_equal fst) in Hrun; vm_compute in Hrun; by rewrite <- Hrun).
  subst r. exists w'. split; [reflexivity|].
  destruct (first_boot_gives_identity (B := letters_base64) (P := enrol_pki) (E := minutes_clock)
    (Sh := web_ssh) (I := web_identity (fun _ => false)) (Dt := web_token) (Dr := web_decoder) (Dc := web_trust) enrol_server
    (web_answerer (fun _ => false)) id 10 web_args "agent/cert.pem" "key" "token" (web_disk 0) w' (Returned (Ok tt)))
    as [(_ & n & token & csr_pem & csr & resp & st' & _ & _ & _ & _ & Hf & _)|[Hbad _]].
  - apply web_csr_faithful.
  - exact enrol_pki_faithful.
  - apply web_reaches.
  - apply web_cert_decoded.
  - intros n. by vm_compute.
  - reflexivity.
  - reflexivity.
  - reflexivity.
  - by vm_compute.
  - exact Hrun.
  - rewrite Hf. discriminate.
  - by destruct Hbad.
Defined.

Definition fifth_lost (n : nat) : bool := Nat.eqb n 5.

Lemma lost_answer_costs_token_witness :
  (web_boot fifth_lost (web_disk 0)).1 = Returned (Err "timed out") /\
  (web_boot fifth_lost (web_disk 20)).1 <> Returned (Ok tt).
Proof.
  split; [by vm_compute|].
  destruct (web_boot fifth_lost (web_disk 20)) as [r w'] eqn:Hrun.
  destruct (lost_answer_costs_token (B := letters_base64) (P := enrol_pki) (E := minutes_clock)
    (Sh := web_ssh) (I := web_identity fifth_lost) (Dt := web_token) (Dr := web_decoder) (Dc := web_trust) enrol_server
    (web_answerer fifth_lost) 10 web_args "agent/cert.pem" "key" "token" "token" 5 web_request web_response
    enrolled (web_disk 20) w' r) as [Hr _].
  - apply web_reaches.
  - apply web_cert_decoded.
  - reflexivity.
  - reflexivity.
  - reflexivity.
  - by vm_compute.
  - by vm_compute.
  - reflexivity.
  - exact web_enrolls.
  - intros n Hn. change (is_tokens (an_state (web_answerer fifth_lost) n))
      with (is_tokens (if existsb fifth_lost (seq 0 n) then enrolled else enrol_state)).
    assert (Hex : existsb fifth_lost (seq 0 n) = true).
    { apply existsb_exists. exists 5. split; [apply in_seq; lia|reflexivity]. }
    by rewrite Hex.
  - simpl. lia.
  - exact Hrun.
  - exact Hr.
Defined.

Definition half : f64 := f64_div (f64_from 1) (f64_from 2).

Definition web_renewal : IdentityConfig :=
  MkIdentityConfig "https://cp/" "web-1" None (Some "agent/cert.pem") (Some "key") "key" (Some half).

(** The file at the start of the worker, and after a renewal. *)
Definition cert_disk (cert : string) (asked : nat) : FileWorld :=
  MkFileWorld {[ "agent/cert.pem" := cert; "key" := "key"; "trust" := "trust" ]} asked.

Lemma web_refuses_expired :
  refuses_expired (Cr := enrol_crypto) (E := minutes_clock) (I := web_identity (fun _ => false)).
Proof.
  intros n client cert key_pem der nb na url csr_pem status body _ _ Hv Hlate Hs. injection Hv as <- <-.
  unfold send, web_identity in Hs. destruct (Nat.leb_spec n 10) as [Hle|]; [|done]. exfalso.
  unfold timestamp, os_now, minutes_clock, duration_minutes, duration_seconds in Hlate.
  assert (Z.of_nat n * 60 * nanos_per_sec / nanos_per_sec = Z.of_nat n * 60)%Z by (by apply Z.div_mul). lia.
Qed.

Lemma minutes_monotone : clock_monotone (E := minutes_clock).
Proof.
  intros n m Hnm. unfold os_now, minutes_clock, duration_minutes, duration_seconds, nanos_per_sec. lia.
Qed.

(** A worker renews in time; after minute ten its ticks are refused. *)
Lemma identity_needs_restarts_witness :
  exists worker w1, start_renewal (Cr := enrol_crypto) (B := letters_base64) (E := minutes_clock)
      (Sh := web_ssh) (I := web_identity (fun _ => false)) web_renewal (cert_disk "abcd" 0) = (Returned (Ok (Some worker)), w1) /\
    fw_files (renewal_ticks (Cr := enrol_crypto) (B := letters_base64) (E := minutes_clock)
      (Sh := web_ssh) (I := web_identity (fun _ => false)) (Dr := web_decoder) 1 web_renewal worker (cert_disk "abcd" 6)).2
      !! "agent/cert.pem" = Some "efgh" /\
    fw_files (renewal_ticks (Cr := enrol_crypto) (B := letters_base64) (E := minutes_clock)
      (Sh := web_ssh) (I := web_identity (fun _ => false)) (Dr := web_decoder) 3 web_renewal worker (cert_disk "efgh" 15)).2
      !! "agent/cert.pem" = Some "efgh".
Proof.
  destruct (start_renewal (Cr := enrol_crypto) (B := letters_base64) (E := minutes_clock)
    (Sh := web_ssh) (I := web_identity (fun _ => false)) web_renewal (cert_disk "abcd" 0)) as [r w1] eqn:Hs.
  assert (Hw : r = Returned (Ok (Some (MkRenewalWorker (MkClient None (Some "abcdkey")) "agent/cert.pem" half))))
    by (apply (f_equal fst) in Hs; vm_compute in Hs; rewrite <- Hs; by vm_compute).
  subst r. eexists _, w1. split; [reflexivity|]. split; [by vm_compute|].
  destruct (renewal_ticks (Cr := enrol_crypto) (B := letters_base64) (E := minutes_clock)
    (Sh := web_ssh) (I := web_identity (fun _ => false)) (Dr := web_decoder) 3 web_renewal
    (MkRenewalWorker (MkClient None (Some "abcdkey")) "agent/cert.pem" half) (cert_disk "efgh" 15)) as [r w'] eqn:Ht.
  destruct (identity_needs_restarts (B := letters_base64) (P := enrol_pki) (E := minutes_clock)
    (Sh := web_ssh) (I := web_identity (fun _ => false)) (Dt := web_token) (Dr := web_decoder) (Dc := web_trust) web_renewal "key"
    (MkRenewalWorker (MkClient None (Some "abcdkey")) "agent/cert.pem" half) "abcd"
    (bytes_of [1; 35]) 0 600 3 10 web_args (cert_disk "abcd" 0) w1 (cert_disk "efgh" 15) w' r (Returned (Ok tt)))
    as [Hf _].
  - exact web_refuses_expired.
  - exact minutes_monotone.
  - exact Hs.
  - reflexivity.
  - by vm_compute.
  - by vm_compute.
  - reflexivity.
  - by vm_compute.
  - exact Ht.
  - change (fw_files w' !! "agent/cert.pem" = Some "efgh"). cbn [rw_cert_path] in Hf. rewrite Hf. by vm_compute.
Defined.

Lemma renewal_at_the_ends_witness :
  (maybe_renew_once (Cr := enrol_crypto) (B := letters_base64) (E := minutes_clock)
     (Sh := web_ssh) (I := web_identity (fun _ => false)) (Dr := web_decoder) (MkClient None None) web_renewal "agent/cert.pem" half
     (cert_disk "abcd" 0)).1 = Returned (Ok tt).
Proof.
  apply (renewal_at_the_ends (Cr := enrol_crypto) (B := letters_base64) (E := minutes_clock)
    (Sh := web_ssh) (I := web_identity (fun _ => false)) (Dr := web_decoder) (MkClient None None) web_renewal "agent/cert.pem" half
    (cert_disk "abcd" 0) "abcd" (bytes_of [1; 35]) 0 600).
  - reflexivity.
  - by vm_compute.
  - by vm_compute.
  - by vm_compute.
  - by vm_compute.
  - by vm_compute.
  - reflexivity.
  - by eexists.
  - by vm_compute.
  - by vm_compute.
  - by vm_compute.
Defined.
