(* ===== verification/AgentBootProps.v ===== *)
(** * The first boot of an agent ends

    The loop of the enrollment asks again for as long as the control plane is not
    ready: with one turn of fuel for every question until it is, the boot ends,
    and more fuel changes nothing. *)

From S2P Require Import Prelude RustStd Proto Gates Verify HostKey Issuance Enrollment EnrollmentProps FileSystem.
From S2P Require Import AgentIdentity AgentIdentityProps AgentIdentitySpecs.

(** Two computations that, asked from the question [s] on, end with the same. *)
Definition alike (s : nat) {A} (m m' : FileM A) : Prop :=
  forall w, s <= fw_asked w -> (m w).1 <> OutOfFuel /\ m' w = m w.

Lemma alike_bind s {A B} (m m' : FileM A) (k k' : A -> FileM B) :
  grows m -> alike s m m' -> (forall a, alike s (k a) (k' a)) -> alike s (m ≫= k) (m' ≫= k').
Proof.
  intros Hg Hm Hk w Hw. destruct (Hm w Hw) as [Hf Heq]. unfold mbind, FileM_bind. rewrite Heq.
  destruct (m w) as [[[a|e]| |] w1] eqn:E; try done. apply Hk. apply Hg in E. lia.
Qed.

Lemma alike_result s {A} (r : result A string) : alike s (fm_result r) (fm_result r).
Proof. by intros w _. Qed.
Lemma alike_ret s {A} (a : A) : alike s (mret a) (mret a).
Proof. by intros w _. Qed.
Lemma alike_panic s {A} : alike s (A := A) fm_panic fm_panic.
Proof. by intros w _. Qed.
Lemma alike_ask s {A} (answer : nat -> A) : alike s (fm_ask answer) (fm_ask answer).
Proof. by intros w _. Qed.
Lemma alike_files s : alike s fm_files fm_files.
Proof. by intros w _. Qed.
Lemma alike_put s path bytes : alike s (fm_put path bytes) (fm_put path bytes).
Proof. by intros w _. Qed.
Lemma alike_move s from to bytes : alike s (fm_move from to bytes) (fm_move from to bytes).
Proof. by intros w _. Qed.

Create HintDb ends.
#[export] Hint Resolve alike_ret alike_panic alike_ask alike_files alike_put alike_move : ends.
#[export] Hint Extern 1 (alike _ (in_context _ _) _) => apply alike_result : ends.
#[export] Hint Extern 1 (alike _ (read_or _ _ _) _) => apply alike_result : ends.
#[export] Hint Extern 1 (alike _ (fm_bail _) _) => apply alike_result : ends.
#[export] Hint Extern 1 (alike _ (fm_result _) _) => apply alike_result : ends.
#[export] Hint Extern 2 (alike _ (_ ≫= _) _) => apply alike_bind; [|intros ?..] : ends.
#[export] Hint Extern 3 (alike _ (match ?x with _ => _ end) _) => destruct x : ends.
#[export] Hint Extern 2 (grows _) => solve [eauto 10 with questions] : ends.

Section calls.
Context {E : OsEnv}.

(** Without the loop every call ends. *)
Lemma alike_read s path : alike s (fs_read path) (fs_read path).
Proof. unfold fs_read. eauto 20 with ends. Qed.
Lemma alike_read_to_string s path : alike s (fs_read_to_string path) (fs_read_to_string path).
Proof. unfold fs_read_to_string. apply alike_bind; [apply grows_read|apply alike_read|]. eauto with ends. Qed.
Lemma alike_write s path bytes : alike s (fs_write path bytes) (fs_write path bytes).
Proof.
  unfold fs_write. apply alike_bind; [apply grows_ask|apply alike_ask|]. intros [|[part|] e]; eauto 20 with ends.
Qed.
Lemma alike_rename s from to : alike s (fs_rename from to) (fs_rename from to).
Proof. unfold fs_rename. eauto 20 with ends. Qed.
Lemma alike_exists s path : alike s (fs_exists path) (fs_exists path).
Proof. unfold fs_exists. eauto 20 with ends. Qed.
End calls.
#[export] Hint Resolve alike_read alike_read_to_string alike_write alike_rename alike_exists : ends.

Section ends.
Context {Cr : Crypto} {B : Base64} {P : Pki} {E : OsEnv} {Sh : SshFormats} {I : IdentityEnv}.
Context {Dt : DeserializeOwned BootstrapToken} {Dr : DeserializeOwned EnrollResponse} {Dc : DeserializeOwned TrustConfig}.

Lemma alike_openssh_seed s path raw : alike s (openssh_seed path raw) (openssh_seed path raw).
Proof. unfold openssh_seed. eauto 10 with ends. Qed.

Lemma alike_generate_csr s hostname path :
  alike s (generate_csr_from_ssh_host_key hostname path) (generate_csr_from_ssh_host_key hostname path).
Proof.
  unfold generate_csr_from_ssh_host_key. apply alike_bind; [apply grows_read_to_string|apply alike_read_to_string|].
  intros r. apply alike_bind; [auto with questions|apply alike_result|]. intros raw.
  apply alike_bind; [apply grows_openssh_seed|apply alike_openssh_seed|]. intros seed. eauto 20 with ends.
Qed.

Lemma alike_write_atomic s path contents : alike s (write_atomic path contents) (write_atomic path contents).
Proof.
  unfold write_atomic. destruct (parent path); [|apply alike_result].
  apply alike_bind; [apply grows_write|apply alike_write|]. intros r.
  apply alike_bind; [auto with questions|apply alike_result|]. intros _.
  apply alike_bind; [apply grows_rename|apply alike_rename|]. eauto with ends.
Qed.

Lemma alike_parse_trust s path : alike s (parse_trust_file path) (parse_trust_file path).
Proof.
  unfold parse_trust_file. apply alike_bind; [apply grows_read_to_string|apply alike_read_to_string|]. eauto 10 with ends.
Qed.

Lemma alike_build_root s ca : alike s (build_client ca None None) (build_client ca None None).
Proof.
  unfold build_client. apply alike_bind.
  - destruct ca; eauto 10 with questions.
  - destruct ca; [|apply alike_ret]. apply alike_bind; [apply grows_read|apply alike_read|]. eauto 10 with ends.
  - intros root. apply alike_bind; [apply grows_ret|apply alike_ret|]. eauto 10 with ends.
Qed.

(** ** The loop *)

Context (sv : Server) (an : Answerer) (ready : nat).
Hypothesis Hreaches : reaches sv an.
Hypothesis Hready : forall n, ready <= n -> is_ready (an_primed an n) = true.
Hypothesis Htext : contains "control plane not ready" (response_text "") = false.

(** A control plane that is ready gives no reason to ask again. *)
Lemma ready_answer n client url req status body :
  ready <= n -> send n client url protocol_header (PostEnroll req) = Response status body ->
  is_success status = false -> body = Ok "".
Proof.
  intros Hn Hs Hno. destruct (Hreaches n client url req) as [[err He]|He]; rewrite Hs in He; [done|].
  symmetry in He. unfold enroll_answer, require_ready_layer in He. rewrite (Hready n Hn) in He.
  destruct (protocol_version_middleware _ _); [by injection He as _ <-|].
  destruct (enroll _ _ _ _) as [[[resp|s]| |] st']; simpl in He; [|by injection He as _ <-|done..].
  injection He as <- _. by vm_compute in Hno.
Qed.

Lemma grows_post fuel client url req : grows (post_until_ready fuel client url req).
Proof.
  induction fuel as [|fuel IH]; [by intros w r w' [= <- <-]|]. cbn [post_until_ready].
  apply grows_bind; [apply grows_ask|]. intros [err|status body]; [apply grows_bail|].
  destruct (is_success status); [apply grows_context|]. cbn zeta.
  destruct (bool_decide _ && contains _ _); [apply IH|apply grows_bail].
Qed.

Lemma alike_post s fuel fuel' client url req :
  ready - s < fuel -> fuel <= fuel' ->
  alike s (post_until_ready fuel client url req) (post_until_ready fuel' client url req).
Proof.
  revert s fuel'. induction fuel as [|fuel IH]; intros s [|fuel'] Hs Hf w Hw; try lia.
  cbn [post_until_ready]. unfold mbind, FileM_bind, fm_ask.
  destruct (send (fw_asked w) _ _ _ _) as [err|status body] eqn:Ea; [done|].
  destruct (is_success status) eqn:Eok; [by destruct body|].
  destruct (bool_decide _ && contains _ _) eqn:Eagain; [|done].
  apply (IH (S s)); [|lia|simpl; lia].
  destruct (le_lt_dec ready (fw_asked w)) as [Hle|Hlt]; [|lia]. exfalso.
  rewrite (ready_answer _ _ _ _ _ _ Hle Ea Eok), Htext, andb_false_r in Eagain. done.
Qed.

Lemma alike_enroll s fuel fuel' client cp_url hostname token_file cert_path key_path :
  ready - s < fuel -> fuel <= fuel' ->
  alike s (agent_enroll fuel client cp_url hostname token_file cert_path key_path)
    (agent_enroll fuel' client cp_url hostname token_file cert_path key_path).
Proof.
  intros Hs Hf. unfold agent_enroll.
  apply alike_bind; [apply grows_read_to_string|apply alike_read_to_string|]. intros r.
  apply alike_bind; [auto with questions|apply alike_result|]. intros raw.
  apply alike_bind; [auto with questions|apply alike_result|]. intros token.
  apply alike_bind; [apply grows_generate_csr|apply alike_generate_csr|]. intros [csr_pem key]. cbn zeta.
  apply alike_bind; [apply grows_post|by apply alike_post|]. intros body. apply alike_write_atomic.
Qed.

Lemma alike_boot s fuel fuel' args : ready - s < fuel -> fuel <= fuel' -> alike s (boot fuel args) (boot fuel' args).
Proof.
  intros Hs Hf. unfold boot. apply alike_bind; [apply grows_parse_trust|apply alike_parse_trust|]. intros _.
  unfold maybe_run_first_boot_enrollment.
  destruct (ar_client_cert args); [|apply alike_ret]. destruct (ar_client_key args); [|apply alike_ret].
  destruct (ar_bootstrap_token_file args); [|apply alike_ret].
  apply alike_bind; [unfold fs_exists; eauto with questions|apply alike_exists|]. intros [|]; [apply alike_ret|].
  apply alike_bind; [apply grows_build_root|apply alike_build_root|]. intros client. by apply alike_enroll.
Qed.

End ends.

(** C40.  The first boot ends once the control plane is ready.  When it is ready from
    the question [ready] on, one turn of fuel for each question until then is
    enough: the boot ends, and with more fuel in the same way. *)
Theorem first_boot_ends {Cr : Crypto} {B : Base64} {P : Pki} {E : OsEnv} {Sh : SshFormats} {I : IdentityEnv}
    {Dt : DeserializeOwned BootstrapToken} {Dr : DeserializeOwned EnrollResponse} {Dc : DeserializeOwned TrustConfig}
    (sv : Server) (an : Answerer) (ready fuel : nat) (args : Args) (w : FileWorld) :
  reaches sv an -> (forall n, ready <= n -> is_ready (an_primed an n) = true) ->
  contains "control plane not ready" (response_text "") = false -> ready - fw_asked w < fuel ->
  exists r w', r <> OutOfFuel /\ forall fuel', fuel <= fuel' -> boot fuel' args w = (r, w').
Proof.
  intros Hreaches Hready Htext Hfuel. destruct (boot fuel args w) as [r w'] eqn:Hb. exists r, w'. split.
  - destruct (alike_boot sv an ready Hreaches Hready Htext (fw_asked w) fuel fuel args Hfuel (le_n _) w (le_n _)) as [Hr _].
    by rewrite Hb in Hr.
  - intros fuel' Hf. rewrite <- Hb. by apply (alike_boot sv an ready Hreaches Hready Htext (fw_asked w)).
Qed.

Lemma first_boot_ends_witness :
  exists r w', r <> OutOfFuel /\ forall fuel', 10 <= fuel' ->
    boot (Cr := enrol_crypto) (B := letters_base64) (E := minutes_clock) (Sh := web_ssh)
      (I := web_identity (fun _ => false)) (Dt := web_token) (Dr := web_decoder) (Dc := web_trust) fuel' web_args
      (web_disk 0) = (r, w').
Proof.
  apply (first_boot_ends (B := letters_base64) (P := enrol_pki) (E := minutes_clock) (Sh := web_ssh)
    (I := web_identity (fun _ => false)) (Dt := web_token) (Dr := web_decoder) (Dc := web_trust) enrol_server
    (web_answerer (fun _ => false)) 5 10 web_args (web_disk 0)).
  - apply web_reaches.
  - intros n Hn. cbn -[Nat.leb]. by rewrite (proj2 (Nat.leb_le 5 n) Hn).
  - by vm_compute.
  - simpl. lia.
Defined.
