(* ===== verification/Evidence.v ===== *)
(** * Signatures over evidence, and the offline verifier

    Models [crates/nixfleet-agent/src/evidence_signer.rs],
    [crates/nixfleet-reconciler/src/evidence.rs] and the commands of
    [crates/nixfleet-verify-artifact/src/main.rs].  The verifier answers with its
    exit code; what it prints is not modelled. *)

From S2P Require Import Prelude RustStd Proto Gates Verify HostKey FileSystem AgentProbes AgentIdentity.

(** [SigningKey::sign] and the public half, of a seed. *)
Class Signing {Cr : Crypto} := {
  ed25519_sign : string -> string -> string;
  ed25519_public : string -> string;
}.

(** ** Signing ([evidence_signer.rs]) *)

(** The signing key is its seed. *)
Record EvidenceSigner := MkEvidenceSigner { es_signing_key : string }.

Definition DEFAULT_SSH_HOST_KEY_PATH : string := "/etc/ssh/ssh_host_ed25519_key".
Definition default_ssh_host_key_path : string := DEFAULT_SSH_HOST_KEY_PATH.

Module SignatureStatus.
Inductive t :=
| Verified
| Unsigned
| NoPubkey
| Mismatch
| Malformed
| WrongAlgorithm.
#[global] Instance t_eq_dec : EqDecision t.
Proof. solve_decision. Defined.

Definition counts_for_gate (s : t) : bool :=
  match s with Mismatch | Malformed => false | _ => true end.
End SignatureStatus.
Abbreviation SignatureStatus := SignatureStatus.t.

Section evidence.
Context {Cr : Crypto} {B : Base64} {Ec : EvidenceCrypto} {Sg : Signing} {Sh : SshFormats} {E : OsEnv}.

(** An absent key file disables the signing. *)
Definition load (path : string) : FileM (option EvidenceSigner) :=
  r ← fs_read_to_string path;
  match r with
  | Err NotFound => mret None
  | Err e => fm_bail ("read " +:+ path +:+ ": " +:+ io_error_text e)
  | Ok raw =>
      seed ← openssh_seed path raw;
      mret (Some (MkEvidenceSigner seed))
  end.

Definition evidence_sign {T} {J : SerializeJcs T} (signer : EvidenceSigner) (payload : T) : result string string :=
  match serde_jcs_to_vec payload with
  | Err e => Err ("JCS canonicalisation of evidence payload failed: " +:+ e)
  | Ok canonical => Ok (base64_encode (ed25519_sign (es_signing_key signer) canonical))
  end.

Definition try_sign {T} {J : SerializeJcs T} (signer : EvidenceSigner) (payload : T) : option string :=
  match evidence_sign signer payload with Ok sg => Some sg | Err _ => None end.

(** [nixfleet_canonicalize::sha256_jcs_hex]. *)
Definition sha256_jcs {T} {J : SerializeJcs T} (payload : T) : result string string :=
  match serde_jcs_to_vec payload with
  | Err e => Err ("JCS canonicalization failed: " +:+ e)
  | Ok canonical => Ok (hex_lowercase (sha256 canonical))
  end.

(** ** Checking ([reconciler/src/evidence.rs]) *)

Definition parse_ssh_ed25519_pubkey (line : string) : result (option Ed25519Key) string :=
  match public_key_from_openssh (trim line) with
  | Err e => Err ("parse OpenSSH pubkey: " +:+ e)
  | Ok (Ed25519Public bytes) =>
      match ed25519_from_bytes bytes with
      | Err e => Err ("ed25519 verifying key from 32 bytes: " +:+ e)
      | Ok vk => Ok (Some vk)
      end
  | Ok OtherPublic => Ok None
  end.

Definition verify_canonical_payload (canonical : string) (pubkey_openssh signature : option string)
    : SignatureStatus :=
  match signature with
  | None => SignatureStatus.Unsigned
  | Some sig_b64 =>
      match pubkey_openssh with
      | None => SignatureStatus.NoPubkey
      | Some pubkey_str =>
          match parse_ssh_ed25519_pubkey pubkey_str with
          | Err _ => SignatureStatus.Malformed
          | Ok None => SignatureStatus.WrongAlgorithm
          | Ok (Some pubkey) =>
              match base64_decode sig_b64 with
              | Err _ => SignatureStatus.Malformed
              | Ok sig_bytes =>
                  if negb (bool_decide (String.length sig_bytes = 64)) then SignatureStatus.Malformed
                  else if ed25519_verify pubkey canonical sig_bytes then SignatureStatus.Verified
                  else SignatureStatus.Mismatch
              end
          end
      end
  end.

Definition verify_event {T} {J : SerializeJcs T} (signature pubkey_openssh : option string) (payload : T)
    : SignatureStatus :=
  match serde_jcs_to_vec payload with
  | Err _ => SignatureStatus.Malformed
  | Ok canonical => verify_canonical_payload canonical pubkey_openssh signature
  end.

(** ** The offline verifier ([nixfleet-verify-artifact]) *)

Abbreviation ExitCode := Z (only parsing).
Definition SUCCESS : ExitCode := 0.
Definition REFUSED : ExitCode := 1.
Definition arg_error : ExitCode := 2.

(** [TrustConfig::CURRENT_SCHEMA_VERSION]. *)
Definition CURRENT_SCHEMA_VERSION : u32 := 1.

(** A file the command needs, or its exit. *)
Definition needed {A} (r : result A IoError) (k : A -> FileM ExitCode) : FileM ExitCode :=
  match r with Err _ => mret arg_error | Ok a => k a end.

Definition fm_ended {A} (r : ended A) : FileM A := fun w =>
  (match r with Returned a => Returned (Ok a) | Panicked => Panicked | OutOfFuel => OutOfFuel end, w).

(** The trust file of both artifact commands. *)
Definition load_trust {Dc : DeserializeOwned TrustConfig} (trust_file : string) (k : TrustConfig -> FileM ExitCode)
    : FileM ExitCode :=
  r ← fs_read_to_string trust_file;
  needed r (fun trust_raw =>
  match from_str (T := TrustConfig) trust_raw with
  | Err _ => mret arg_error
  | Ok trust =>
      if negb (bool_decide (tc_schema_version trust = CURRENT_SCHEMA_VERSION)) then mret arg_error
      else k trust
  end).

Definition run_rollout_manifest {Dc : DeserializeOwned TrustConfig} {Dm : DeserializeOwned RolloutManifest}
    (manifest_path signature_path trust_file : string) (now : DateTime) (freshness_window_secs : u64)
    (expected_rollout_id : string) : FileM ExitCode :=
  r ← fs_read manifest_path;
  needed r (fun manifest_bytes =>
  r ← fs_read signature_path;
  needed r (fun signature_bytes =>
  load_trust trust_file (fun trust =>
  verified ← fm_ended (verify_rollout_manifest manifest_bytes signature_bytes
               (active_keys_at (tc_ci_release_key trust) now) now (duration_seconds freshness_window_secs)
               (ks_reject_before (tc_ci_release_key trust)));
  match verified with
  | Err _ => mret REFUSED
  | Ok v =>
      let parsed_id := rollout_id.new (rm_channel (inner v)) (rm_channel_ref (inner v)) in
      if negb (bool_decide (rid_raw parsed_id = expected_rollout_id)) then mret REFUSED
      else mret SUCCESS
  end))).

Definition run_artifact {Dc : DeserializeOwned TrustConfig} {Df : DeserializeOwned FleetResolved}
    (artifact signature trust_file : string) (now : DateTime) (freshness_window_secs : u64) : FileM ExitCode :=
  r ← fs_read artifact;
  needed r (fun artifact_bytes =>
  r ← fs_read signature;
  needed r (fun signature_bytes =>
  load_trust trust_file (fun trust =>
  verified ← fm_ended (verify_artifact artifact_bytes signature_bytes
               (active_keys_at (tc_ci_release_key trust) now) now (duration_seconds freshness_window_secs)
               (ks_reject_before (tc_ci_release_key trust)));
  match verified with
  | Err _ => mret REFUSED
  | Ok _ => mret SUCCESS
  end))).

Definition run_probe (payload signature pubkey : string) : FileM ExitCode :=
  r ← fs_read_to_string payload;
  needed r (fun payload_raw =>
  match parse_value payload_raw with
  | Err _ => mret arg_error
  | Ok payload_value =>
      match jcs_to_string payload_value with
      | Err _ => mret arg_error
      | Ok canonical =>
          r ← fs_read_to_string signature;
          needed r (fun sig_b64 =>
          r ← fs_read_to_string pubkey;
          needed r (fun pubkey_str =>
          let status := verify_canonical_payload canonical (Some (trim pubkey_str)) (Some (trim sig_b64)) in
          if bool_decide (status = SignatureStatus.Verified) then mret SUCCESS else mret REFUSED))
      end
  end).

Inductive Cmd :=
| Artifact (artifact signature trust_file : string) (now : DateTime) (freshness_window_secs : u64)
| RolloutManifestCmd (manifest signature trust_file : string) (now : DateTime) (freshness_window_secs : u64)
    (rollout_id : string)
| Probe (payload signature pubkey : string).

Definition verifier_main {Dc : DeserializeOwned TrustConfig} {Df : DeserializeOwned FleetResolved}
    {Dm : DeserializeOwned RolloutManifest} (cmd : Cmd) : FileM ExitCode :=
  match cmd with
  | Artifact artifact signature trust_file now window => run_artifact artifact signature trust_file now window
  | RolloutManifestCmd manifest signature trust_file now window id =>
      run_rollout_manifest manifest signature trust_file now window id
  | Probe payload signature pubkey => run_probe payload signature pubkey
  end.

End evidence.
