(* ===== verification/CliKeys.v ===== *)
(** * Operator commands on keys

    Models, of [crates/nixfleet-cli/src/]: [commands/mint_token.rs],
    [commands/derive_pubkey.rs], [operator_cert.rs] and
    [commands/mint_operator_cert.rs].  Random bytes, the environment and the
    certificates of an operator are the class [CliEnv]; a command answers with
    what it prints on its standard output. *)

From S2P Require Import Prelude RustStd Proto Gates Verify HostKey Issuance FileSystem AgentProbes AgentIdentity Evidence.
From stdpp Require Import pretty.

(** ** Pieces of Rust *)

Definition trim_start (s : string) : string :=
  String.string_of_list_ascii (drop_spaces space_of_2 space_of_3 (String.list_ascii_of_string s)).

(** [trim_start_matches] of a text that is not empty. *)
Fixpoint strip_all (fuel : nat) (p s : string) : string :=
  match fuel with
  | O => s
  | S fuel => match RustStd.strip_prefix p s with Some rest => strip_all fuel p rest | None => s end
  end.
Definition trim_start_matches (p s : string) : string := strip_all (String.length s) p s.

Definition is_ascii_whitespace (c : ascii) : bool :=
  let n := nat_of_ascii c in (n =? 9) || (n =? 10) || (n =? 12) || (n =? 13) || (n =? 32).

Fixpoint filter_chars (p : ascii -> bool) (s : string) : string :=
  match s with
  | EmptyString => EmptyString
  | String c s => if p c then String c (filter_chars p s) else filter_chars p s
  end.

(** [hex::decode]. *)
Definition hex_value (c : ascii) : option nat :=
  let n := nat_of_ascii c in
  if is_ascii_digit c then Some (n - 48)
  else if char_in 97 102 c then Some (n - 87)
  else if char_in 65 70 c then Some (n - 55)
  else None.

Fixpoint hex_decode (s : string) : option string :=
  match s with
  | EmptyString => Some EmptyString
  | String _ EmptyString => None
  | String a (String b s) =>
      x ← hex_value a;
      y ← hex_value b;
      rest ← hex_decode s;
      Some (String (ascii_of_nat (16 * x + y)) rest)
  end.

(** The last [n] bytes. *)
Definition last_bytes (n : nat) (s : string) : string := String.substring (String.length s - n) n s.

(** Display of an error of [host_key.rs]. *)
Definition display_openssh_error (e : OpenSshParseError) : string :=
  match e with
  | OpenSshParseError.Empty => "empty OpenSSH pubkey line"
  | OpenSshParseError.WrongAlgorithm got => "expected ssh-ed25519 algorithm, got " +:+ got
  | OpenSshParseError.MissingBase64 => "OpenSSH pubkey missing base64 blob"
  | OpenSshParseError.InvalidBase64 => "OpenSSH pubkey base64 invalid"
  | OpenSshParseError.Truncated => "OpenSSH wire blob truncated"
  | OpenSshParseError.InnerAlgorithmMismatch => "OpenSSH wire blob inner algo != ssh-ed25519"
  | OpenSshParseError.WrongPubkeyLength got => "ed25519 pubkey is not 32 bytes (got " +:+ pretty got +:+ ")"
  end.

(** ** The surroundings *)

Class CliEnv `{Pki} := {
  random_bytes : nat -> string;                        (* 16 of them *)
  random_u32 : nat -> Z;
  env_var : string -> option string;
  host_name : option string;
  config_dir : option string;
  ca_key_from_pem : string -> result CaKey string;
  ca_key_algorithm : CaKey -> string;                  (* its [Debug] text *)
  ca_from_pem : string -> CaKey -> result CaCert string;   (* the parameters, then [self_signed] *)
  generate_key : nat -> result (string * string) string;   (* the public key and the PEM *)
  create_dir_all : nat -> result unit IoError;
  sync_all : nat -> result unit IoError;
  display_rfc3339 : DateTime -> string;
  debug_text : string -> string;
}.

Definition duration_hours (h : Z) : Duration := duration_minutes (60 * h).
Definition duration_days (d : Z) : Duration := duration_hours (24 * d).

(** [DateTime + TimeDelta], which panics past the calendar. *)
Definition date_add (t : DateTime) (d : Duration) : FileM DateTime :=
  match from_timestamp (timestamp (t + d)) with
  | Some _ => mret (t + d)%Z
  | None => fm_panic
  end.

Section keys.
Context {Cr : Crypto} {B : Base64} {P : Pki} {Sg : Signing} {E : OsEnv} {C : CliEnv}.

(** ** [nixfleet derive-pubkey] *)

Definition derive_pubkey (private_key_path : string) : FileM string :=
  r ← fs_read private_key_path;
  bytes ← read_or "read " private_key_path r;
  if 32 <=? String.length bytes then
    mret (base64_encode (ed25519_public (String.substring 0 32 bytes)))
  else fm_bail ("expected at least 32 bytes, got " +:+ pretty (String.length bytes)).

(** ** [nixfleet mint-token] *)

Record MintTokenArgs := MkMintTokenArgs {
  mt_hostname : string;
  mt_csr_pubkey_fingerprint : option string;
  mt_fleet_resolved : option string;
  mt_org_root_key : string;
  mt_validity_hours : u32;
  mt_version : u32;
}.

(** The seed in the bytes of a key file. *)
Definition signing_key_of (bytes : string) : result string string :=
  let pem :=
    match from_utf8 bytes with
    | Some orig => if starts_with "-----BEGIN" (trim_start orig) then Some orig else None
    | None => None
    end in
  match pem with
  | Some orig =>
      match base64_decode (pem_body orig) with
      | Err e => Err ("base64 decode PEM body: " +:+ e)
      | Ok der =>
          if String.length der <? 34 then Err "PEM too short for PKCS#8 ed25519"
          else Ok (last_bytes 32 der)
      end
  | None =>
      let trimmed := filter_chars (fun c => negb (is_ascii_whitespace c)) bytes in
      if String.length trimmed =? 32 then Ok trimmed
      else
        let no_key := Err "couldn't parse org root key - expected 32 raw bytes, hex, or PEM PKCS#8" in
        match from_utf8 trimmed with
        | Some s =>
            let s := trim (trim_start_matches "0x" s) in
            if String.length s =? 64 then
              match hex_decode s with
              | Some raw => Ok (String.substring 0 32 raw)
              | None => Err "hex decode org root key"
              end
            else no_key
        | None => no_key
        end
  end.

Definition read_signing_key (path : string) : FileM string :=
  r ← fs_read path;
  bytes ← read_or "read org root key " path r;
  fm_result (signing_key_of bytes).

Definition fingerprint_from_fleet {Df : DeserializeOwned FleetResolved} (fleet_path hostname : string)
    : FileM string :=
  r ← fs_read_to_string fleet_path;
  raw ← read_or "read fleet.resolved.json " fleet_path r;
  fleet ← in_context ("parse fleet.resolved.json " +:+ fleet_path) (from_str (T := FleetResolved) raw);
  match fr_hosts fleet !! hostname with
  | None => fm_bail ("host " +:+ hostname +:+ " not declared in " +:+ fleet_path)
  | Some host =>
      match host_pubkey host with
      | None => fm_bail ("host " +:+ hostname +:+ " has no `pubkey` declared in fleet.nix - set it before minting")
      | Some openssh =>
          match fingerprint_openssh_pubkey openssh with
          | Err e => fm_bail ("derive fingerprint from declared pubkey: " +:+ display_openssh_error e)
          | Ok fp => mret fp
          end
      end
  end.

Definition random_nonce : FileM string :=
  buf ← fm_ask random_bytes;
  mret (hex_lowercase buf).

(** The parser of the arguments refuses both sources at once. *)
Definition mint_token {Df : DeserializeOwned FleetResolved} (args : MintTokenArgs) : FileM BootstrapToken :=
  seed ← read_signing_key (mt_org_root_key args);
  fp ←
    match mt_csr_pubkey_fingerprint args, mt_fleet_resolved args with
    | Some fp, None => mret fp
    | None, Some fleet_path => fingerprint_from_fleet fleet_path (mt_hostname args)
    | None, None => fm_bail "must pass --csr-pubkey-fingerprint OR --fleet-resolved (declarative path)"
    | Some _, Some _ => fm_panic
    end;
  now ← fm_ask os_now;
  expires_at ← date_add now (duration_hours (mt_validity_hours args));
  nonce ← random_nonce;
  let claims := MkTokenClaims (mt_hostname args) fp now expires_at nonce in
  claims_json ← in_context "serialize claims" (claims_to_string claims);
  canonical ← in_context "canonicalize claims" (canonicalize claims_json);
  let signature := base64_encode (ed25519_sign seed canonical) in
  mret (MkBootstrapToken (mt_version args) claims signature).

(** The entry the operator is told to add to the allowlist. *)
Definition allowlist_entry (token : BootstrapToken) : BootstrapNonceEntry :=
  let claims := bt_claims token in
  MkBootstrapNonceEntry (cl_nonce claims) (cl_hostname claims) (cl_expires_at claims) (Some (cl_issued_at claims))
    (env_var "USER").

(** ** [nixfleet mint-operator-cert] *)

Record MintOperatorCertArgs := MkMintOperatorCertArgs {
  mo_root_cert_path : string;
  mo_root_key_path : string;
  mo_cn : string;
  mo_output_cert_path : string;
  mo_output_key_path : string;
  mo_validity_days : u32;
  mo_overwrite : bool;
}.

Record MintOutcome := MkMintOutcome {
  mi_cn : string;
  mi_not_after : DateTime;
  mi_cert_path : string;
  mi_key_path : string;
}.

(** The file is created, written and synced beside the target, then renamed. *)
Definition write_atomic_with_mode (path body : string) : FileM unit :=
  match parent path with
  | Some dir => r ← fm_ask create_dir_all; read_or "create dir " dir r
  | None => mret tt
  end ;;
  n ← fm_ask random_u32;
  let tmp := with_extension ("tmp." +:+ pretty n) path in
  r ← fs_write tmp body;
  read_or "write temp " tmp r ;;
  r ← fm_ask sync_all;
  read_or "fsync " tmp r ;;
  r ← fs_rename tmp path;
  read_or ("rename " +:+ tmp +:+ " -> ") path r.

Fixpoint refuse_existing (overwrite : bool) (paths : list string) : FileM unit :=
  match paths with
  | [] => mret tt
  | path :: paths =>
      there ← fs_exists path;
      if there && negb overwrite then fm_bail (path +:+ " already exists; pass --force to overwrite")
      else refuse_existing overwrite paths
  end.

(** What is signed: the names replace the default one. *)
Definition operator_params (cn : string) (not_before not_after : Z) : CertParams := {|
  cp_distinguished_name :=
    [(CommonName, Utf8String cn); (OtherType "organizationName", Utf8String "arcanesys");
     (OtherType "organizationalUnitName", Utf8String "fleet")];
  cp_extended_key_usages := [ClientAuth];
  cp_subject_alt_names := [];
  cp_not_before := not_before;
  cp_not_after := not_after;
  cp_rest := "ExplicitNoCa, digitalSignature";
|}.

Definition P256 : string := "PKCS_ECDSA_P256_SHA256".

Definition mint_operator_cert (args : MintOperatorCertArgs) : FileM MintOutcome :=
  if bool_decide (mo_cn args = "") then fm_bail "operator CN is empty"
  else if Z.eqb (mo_validity_days args) 0 then fm_bail "validity must be at least 1 day; got 0"
  else
    refuse_existing (mo_overwrite args) [mo_output_cert_path args; mo_output_key_path args] ;;
    r ← fs_read_to_string (mo_root_cert_path args);
    ca_cert_pem ← read_or "read fleet root cert " (mo_root_cert_path args) r;
    r ← fs_read_to_string (mo_root_key_path args);
    ca_key_pem ← read_or "read fleet root key " (mo_root_key_path args) r;
    ca_key ← in_context "parse fleet root key PEM" (ca_key_from_pem ca_key_pem);
    if negb (bool_decide (ca_key_algorithm ca_key = P256)) then
      fm_bail ("fleet root key must be ECDSA-P-256 (matches issuance CA chain); got " +:+ ca_key_algorithm ca_key)
    else
      ca_cert ← fm_result (ca_from_pem ca_cert_pem ca_key);
      child_key ← fm_ask generate_key;
      '(child_public, child_pem) ← in_context "generate operator keypair" child_key;
      now ← fm_ask os_now;
      not_before ← date_add now (- duration_minutes 5);
      not_after ← date_add now (duration_days (mo_validity_days args));
      let not_before_sys := duration_seconds (Z.max (timestamp not_before) 0) in
      let not_after_sys := duration_seconds (Z.max (timestamp not_after) 0) in
      if negb (fits_offset_date_time not_before_sys && fits_offset_date_time not_after_sys) then fm_panic
      else
        cert ← in_context "sign operator cert with fleet root"
                 (signed_by (operator_params (mo_cn args) not_before_sys not_after_sys) child_public ca_cert ca_key);
        write_atomic_with_mode (mo_output_cert_path args) cert ;;
        write_atomic_with_mode (mo_output_key_path args) child_pem ;;
        mret (MkMintOutcome (mo_cn args) not_after (mo_output_cert_path args) (mo_output_key_path args)).

Record OperatorCertArgs := MkOperatorCertArgs {
  oc_root_cert : option string;
  oc_root_key : option string;
  oc_cn : option string;
  oc_output_cert : option string;
  oc_output_key : option string;
  oc_days : u32;
  oc_force : bool;
}.

(** [config::default_config_path]. *)
Definition default_config_path : string :=
  match config_dir with
  | Some base => path_join (path_join base "nixfleet") "config.toml"
  | None => ".nixfleet/config.toml"
  end.

Definition run_mint_operator_cert (args : OperatorCertArgs) : FileM MintOutcome :=
  match parent default_config_path with
  | None => fm_bail "resolve ~/.config/nixfleet directory"
  | Some cfg_dir =>
      let root_cert := default (path_join cfg_dir "fleet-root.cert.pem")
        (or_else (oc_root_cert args) (env_var "NIXFLEET_OPERATOR_FLEET_ROOT_CERT_FILE")) in
      let root_key := default (path_join cfg_dir "fleet-root.key.pem")
        (or_else (oc_root_key args) (env_var "NIXFLEET_OPERATOR_FLEET_ROOT_KEY_FILE")) in
      let output_cert := default (path_join cfg_dir "operator.pem") (oc_output_cert args) in
      let output_key := default (path_join cfg_dir "operator.key") (oc_output_key args) in
      cn ←
        match oc_cn args with
        | Some c => mret c
        | None =>
            let user := default "" (env_var "USER") in
            let host := default "" host_name in
            if bool_decide (user = "") || bool_decide (host = "") then
              fm_bail ("operator CN is empty (USER=" +:+ debug_text user +:+ ", HOSTNAME=" +:+ debug_text host +:+
                       "); pass --cn")
            else mret ("operator-" +:+ user +:+ "@" +:+ host)
        end;
      mint_operator_cert
        (MkMintOperatorCertArgs root_cert root_key cn output_cert output_key (oc_days args) (oc_force args))
  end.

End keys.
