(* ===== verification/CliKeysSpecs.v ===== *)
(** * Operator commands on keys: theorems

    A minted token enrolls the host it was minted for; which key files the two
    commands that read them understand alike; what a signature over evidence is
    worth; and that the offline verifier answers as an agent does. *)

From S2P Require Import Prelude RustStd Proto HostTypes Gates Wire Verify VerifyProps HostKey Issuance Enrollment EnrollmentProps.
From S2P Require Import FileSystem AgentRuntime AgentHost AgentManifests AgentProbes AgentIdentity AgentIdentityProps.
From S2P Require Import Evidence CliKeys CliKeysProps.

Section laws.
Context {Cr : Crypto} {B : Base64} {P : Pki} {Sg : Signing} {Ec : EvidenceCrypto} {Sh : SshFormats}.

(** The public half of a seed verifies what the seed signs over a token. *)
Definition token_signing : Prop := forall seed m, String.length seed = 32 ->
  String.length (ed25519_public seed) = 32 /\
  exists key sg, ed25519_from_bytes (ed25519_public seed) = Ok key /\
    ed25519_signature_from_slice (ed25519_sign seed m) = Some sg /\ Issuance.ed25519_verify key m sg = true.

(** ... and over evidence. *)
Definition evidence_signing : Prop := forall seed m,
  String.length (ed25519_sign seed m) = 64 /\
  exists key, ed25519_from_bytes (ed25519_public seed) = Ok key /\
    AgentProbes.ed25519_verify key m (ed25519_sign seed m) = true.

End laws.

Section lemmas.
Context {Cr : Crypto} {B : Base64} {P : Pki} {Sg : Signing} {E : OsEnv} {C : CliEnv}.

Lemma date_add_ok t d w t' w' : date_add t d w = (Returned (Ok t'), w') -> t' = (t + d)%Z /\ w' = w.
Proof. unfold date_add. destruct (from_timestamp _); intros [=]; by subst. Qed.

Lemma read_signing_key_ok path w seed w' :
  read_signing_key path w = (Returned (Ok seed), w') ->
  exists bytes, fw_files w !! path = Some bytes /\ signing_key_of bytes = Ok seed /\ fw_files w' = fw_files w.
Proof.
  unfold read_signing_key. intros (r & w1 & H1 & H)%fm_bind_ok.
  apply fm_bind_ok in H as (bytes & w2 & [H2 ->]%in_context_ok & H).
  destruct r as [b|]; [|done]. injection H2 as <-. apply fs_read_ok in H1 as [Hf K].
  apply fm_result_ok in H as [H ->]. by exists b.
Qed.

Lemma fingerprint_from_fleet_ok {Df : DeserializeOwned FleetResolved} path hostname w fp w' :
  fingerprint_from_fleet path hostname w = (Returned (Ok fp), w') ->
  exists raw fleet host line key, fw_files w !! path = Some raw /\ from_str raw = Ok fleet /\
    fr_hosts fleet !! hostname = Some host /\ host_pubkey host = Some line /\
    ed25519_pubkey_raw_from_openssh line = Ok key /\ fp = fingerprint key.
Proof.
  unfold fingerprint_from_fleet. intros (r & w1 & H1 & H)%fm_bind_ok.
  apply fm_bind_ok in H as (raw & w2 & [H2 ->]%in_context_ok & H).
  destruct r as [text|]; [|done]. injection H2 as <-. apply fs_read_to_string_ok in H1 as [Hf _].
  apply fm_bind_ok in H as (fleet & w3 & [H3 ->]%in_context_ok & H).
  destruct (fr_hosts fleet !! hostname) as [host|] eqn:Eh; [|done].
  destruct (host_pubkey host) as [line|] eqn:El; [|done]. unfold fingerprint_openssh_pubkey in H.
  destruct (ed25519_pubkey_raw_from_openssh line) as [key|] eqn:Ek; [|done]. injection H as <- _.
  by exists text, fleet, host, line, key.
Qed.

(** What a minted token holds. *)
Lemma mint_token_ok {Df : DeserializeOwned FleetResolved} args fleet_path w token w' :
  mint_token args w = (Returned (Ok token), w') ->
  mt_csr_pubkey_fingerprint args = None -> mt_fleet_resolved args = Some fleet_path ->
  let claims := bt_claims token in
  exists bytes seed canonical json raw fleet host line key,
    fw_files w !! mt_org_root_key args = Some bytes /\ signing_key_of bytes = Ok seed /\
    fw_files w !! fleet_path = Some raw /\ from_str raw = Ok fleet /\
    fr_hosts fleet !! mt_hostname args = Some host /\ host_pubkey host = Some line /\
    ed25519_pubkey_raw_from_openssh line = Ok key /\ cl_expected_pubkey_fingerprint claims = fingerprint key /\
    claims_to_string claims = Ok json /\ canonicalize json = Ok canonical /\
    cl_hostname claims = mt_hostname args /\
    cl_expires_at claims = (cl_issued_at claims + duration_hours (mt_validity_hours args))%Z /\
    token = MkBootstrapToken (mt_version args) claims (base64_encode (ed25519_sign seed canonical)).
Proof.
  intros H Hfp Hfleet. unfold mint_token in H. rewrite Hfp, Hfleet in H.
  apply fm_bind_ok in H as (seed & w1 & H1 & H). apply read_signing_key_ok in H1 as (bytes & Hb & Hs & K1).
  apply fm_bind_ok in H as (fp & w2 & H2 & H).
  apply fingerprint_from_fleet_ok in H2 as (raw & fleet & host & line & key & Hr & Hfl & Hh & Hl & Hk & ->).
  rewrite K1 in Hr. apply fm_bind_ok in H as (now & w3 & _ & H).
  apply fm_bind_ok in H as (expires & w4 & [-> ->]%date_add_ok & H).
  apply fm_bind_ok in H as (nonce & w5 & _ & H).
  apply fm_bind_ok in H as (json & w6 & [Hj ->]%in_context_ok & H).
  apply fm_bind_ok in H as (canonical & w7 & [Hc ->]%in_context_ok & H). injection H as <- _.
  by exists bytes, seed, canonical, json, raw, fleet, host, line, key.
Qed.

(** A raw key of an OpenSSH line has 32 bytes. *)
Lemma raw_key_length line key : ed25519_pubkey_raw_from_openssh line = Ok key -> String.length key = 32.
Proof.
  unfold ed25519_pubkey_raw_from_openssh. destruct (split_whitespace _) as [|algo [|blob ?]]; try done.
  - by case_bool.
  - case_bool; [|done]. simpl. destruct (base64_decode blob) as [b|]; [|done].
    destruct (read_ssh_string b 0) as [[a n]|]; [|done]. case_bool; [|done]. simpl.
    destruct (read_ssh_string b n) as [[k m]|]; [|done]. case_bool; [|done]. simpl. by intros [= ->].
Qed.

(** The signature of a minted token is accepted under its public key. *)
Lemma minted_signature_ok token seed json canonical k :
  base64_laws -> token_signing -> String.length seed = 32 ->
  bt_version token = 1%Z -> claims_to_string (bt_claims token) = Ok json -> canonicalize json = Ok canonical ->
  bt_signature token = base64_encode (ed25519_sign seed canonical) ->
  tp_algorithm k = "ed25519" -> base64_decode (tp_public k) = Ok (ed25519_public seed) ->
  candidate_accepts token k = true.
Proof.
  intros [Hdec _] Hsign Hseed Hv Hj Hc Hsig Halg Hpub.
  destruct (Hsign seed canonical Hseed) as (Hlen & key & sg & Hkey & Hsg & Hver).
  unfold candidate_accepts, verify_token_signature. rewrite Halg, Hpub, Hv. cbn [negb].
  rewrite !bool_decide_eq_true_2 by done. cbn [negb Z.eqb]. change (negb (1 =? 1)%Z) with false. cbn iota.
  by rewrite Hkey, Hsig, Hdec, Hsg, Hj, Hc, Hver.
Qed.

End lemmas.

(** ** Properties *)

(** C6.  A minted token enrolls its host.  A token minted from the released fleet with
    the key of the organisation passes every check of the control plane, once
    the entry the operator is told to add is in the verified allowlist: for the
    host it names, with the key the fleet declares for it, while it is valid and
    has not been used. *)
Theorem minted_token_enrolls {Cr : Crypto} {B : Base64} {P : Pki} {Sg : Signing} {E : OsEnv} {C : CliEnv}
    {Df : DeserializeOwned FleetResolved} (args : MintTokenArgs) (token : BootstrapToken)
    (fleet_path raw bytes seed csr_pem line : string) (minted_fleet fleet : FleetResolved) (host : Host)
    (trust : TrustConfig) (slot : KeySlot) (k : TrustedPubkey) (csr : Csr) (v : DnValue)
    (sv : Server) (su : Surroundings) (st : IdentityState) (w w' : FileWorld) :
  let claims := bt_claims token in
  base64_laws -> token_signing ->
  mint_token args w = (Returned (Ok token), w') -> mt_version args = 1%Z ->
  mt_csr_pubkey_fingerprint args = None -> mt_fleet_resolved args = Some fleet_path ->
  fw_files w !! fleet_path = Some raw -> from_str raw = Ok minted_fleet -> fr_hosts minted_fleet = fr_hosts fleet ->
  fw_files w !! mt_org_root_key args = Some bytes -> signing_key_of bytes = Ok seed ->
  su_trust su = TrustRead trust -> tc_org_root_key trust = Some slot -> k ∈ active_keys_at slot (su_now su) ->
  tp_algorithm k = "ed25519" -> base64_decode (tp_public k) = Ok (ed25519_public seed) ->
  is_verified_fleet st = Some fleet -> fr_hosts fleet !! mt_hostname args = Some host ->
  host_pubkey host = Some line -> ed25519_pubkey_raw_from_openssh line = Ok (csr_public_key csr) ->
  csr_from_pem csr_pem = Ok csr -> find_cn (cp_distinguished_name (csr_params csr)) = Some v ->
  dn_value_text v = mt_hostname args ->
  is_allowed_nonces st !! cl_nonce claims = Some (allowlist_entry token) -> is_tokens st !! cl_nonce claims = None ->
  (cl_issued_at claims <= su_now su < cl_expires_at claims)%Z -> sv_has_db sv = true ->
  su_token_seen_fails su = false ->
  enroll_checks sv su st (MkEnrollRequest token csr_pem) = Ok tt.
Proof.
  intros claims Hb64 Hsign Hmint Hver Hfp Hfleet Hraw Hparse Hhosts Hbytes Hseed Htrust Hslot Hk Halg Hpub Hvf Hh Hl Hkey
    Hcsr Hcn Hname Hallow Hfresh Htime Hdb Hseen.
  destruct (mint_token_ok _ _ _ _ _ Hmint Hfp Hfleet) as (bytes' & seed' & canonical & json & raw' & fl & host' & line' &
    key & Hb' & Hs' & Hr' & Hfl & Hh' & Hl' & Hkey' & Hfinger & Hjson & Hcanon & Hhost & _ & Htoken).
  rewrite Hbytes in Hb'. injection Hb' as <-. rewrite Hseed in Hs'. injection Hs' as <-.
  rewrite Hraw in Hr'. injection Hr' as <-. rewrite Hparse in Hfl. injection Hfl as <-.
  rewrite Hhosts, Hh in Hh'. injection Hh' as <-. rewrite Hl in Hl'. injection Hl' as <-.
  rewrite Hkey in Hkey'. injection Hkey' as <-. apply enroll_checks_ok. split; [done|]. exists csr.
  split; cbn [er_token er_csr_pem]; try done.
  - exists (allowlist_entry token). split_and!; [done|done|]. simpl. fold claims. lia.
  - exists trust, slot, k. split_and!; [done..|].
    eapply (minted_signature_ok token seed); [done..| | |exact Hjson|exact Hcanon| |done|done].
    + by eapply signing_key_length.
    + by rewrite Htoken.
    + by rewrite Htoken.
  - exists v. split; [done|]. by rewrite Hname.
  - exists fleet. split; [done|]. split; [by eapply raw_key_length|]. exists host, line. by rewrite Hhost.
Qed.

(** The two commands that read a key file disagree.  [derive-pubkey] takes the
    first 32 bytes of whatever the file holds.  [mint-token] reads the PEM and the
    hexadecimal text of a seed as the seed, so that the key that was derived from
    such a file is not that of the tokens; and it refuses a raw key with a byte
    that looks like white space, which is nearly half of all raw keys.  They agree
    on the other raw keys. *)
Theorem key_commands_disagree {Cr : Crypto} {B : Base64} {P : Pki} {Sg : Signing} {E : OsEnv} {C : CliEnv}
    (path bytes : string) (w : FileWorld) :
  base64_laws -> (forall n, os_failure n = None) -> fw_files w !! path = Some bytes -> 32 <= String.length bytes ->
  (derive_pubkey path w).1 = Returned (Ok (base64_encode (ed25519_public (String.substring 0 32 bytes)))) /\
  (forall seed, String.length seed = 32 -> bytes = ed25519_pkcs8_pem_from_seed seed \/ bytes = hex_lowercase seed ->
     (read_signing_key path w).1 = Returned (Ok seed)) /\
  (String.length bytes = 32 -> pem_like bytes = false ->
     (read_signing_key path w).1 =
       if all_chars not_whitespace bytes then Returned (Ok bytes)
       else Returned (Err "couldn't parse org root key - expected 32 raw bytes, hex, or PEM PKCS#8")).
Proof.
  intros Hb64 Hio Hf Hlen.
  assert (Hread : (read_signing_key path w).1 = Returned (signing_key_of bytes)).
  { unfold read_signing_key, fs_read, fm_ask, fm_files, read_or, in_context, fm_result, mbind, FileM_bind, mret, FileM_ret.
    simpl. by rewrite Hio, Hf. }
  split_and!.
  - unfold derive_pubkey, fs_read, fm_ask, fm_files, read_or, in_context, fm_result, mbind, FileM_bind, mret, FileM_ret.
    cbn -[Nat.leb]. rewrite Hio, Hf. cbn -[Nat.leb]. by rewrite (proj2 (Nat.leb_le _ _)).
  - intros seed Hs [-> | ->]; rewrite Hread; [by rewrite signing_key_of_pem|by rewrite signing_key_of_hex].
  - intros Hl Hp. rewrite Hread. destruct (all_chars not_whitespace bytes) eqn:Ew.
    + by rewrite signing_key_of_raw.
    + by rewrite signing_key_of_spaced.
Qed.

(** What a signature over evidence is worth.  A payload signed with the key in a
    host's key file verifies under the public half of that key, also by the
    offline command on the files; a payload without a signature does not verify,
    and counts for the gate all the same. *)
Theorem evidence_signature_roundtrip {Cr : Crypto} {B : Base64} {Ec : EvidenceCrypto} {Sg : Signing} {Sh : SshFormats}
    {E : OsEnv} {T : Type} {J : SerializeJcs T} (key_path line sg canonical : string) (payload : T)
    (signer : EvidenceSigner) (w w' : FileWorld) :
  base64_laws -> evidence_signing ->
  load key_path w = (Returned (Ok (Some signer)), w') -> serde_jcs_to_vec payload = Ok canonical ->
  public_key_from_openssh (trim line) = Ok (Ed25519Public (ed25519_public (es_signing_key signer))) ->
  try_sign signer payload = Some sg ->
  (exists raw, fw_files w !! key_path = Some raw /\
     private_key_from_openssh raw = Ok (Ed25519Pair (es_signing_key signer))) /\
  verify_event (Some sg) (Some line) payload = SignatureStatus.Verified /\
  (verify_event None (Some line) payload <> SignatureStatus.Verified /\
   SignatureStatus.counts_for_gate (verify_event None (Some line) payload) = true) /\
  (forall payload_path sig_path pub_path text value w1, (forall n, os_failure n = None) ->
     fw_files w1 !! payload_path = Some text -> from_utf8 text = Some text -> parse_value text = Ok value ->
     jcs_to_string value = Ok canonical -> fw_files w1 !! sig_path = Some (sg +:+ newline) ->
     fw_files w1 !! pub_path = Some line -> from_utf8 line = Some line -> trim (trim line) = trim line ->
     (run_probe payload_path sig_path pub_path w1).1 = Returned (Ok SUCCESS)).
Proof.
  intros Hb64 Hsign Hload Hjcs Hpub Htry. pose proof Hb64 as [Hdec Hchars].
  assert (Hsg : sg = base64_encode (ed25519_sign (es_signing_key signer) canonical)).
  { unfold try_sign, evidence_sign in Htry. rewrite Hjcs in Htry. by injection Htry. }
  assert (Hv : forall l, trim l = trim line ->
            verify_canonical_payload canonical (Some l) (Some sg) = SignatureStatus.Verified).
  { intros l Hl. destruct (Hsign (es_signing_key signer) canonical) as (Hlen & key & Hkey & Hver).
    unfold verify_canonical_payload, parse_ssh_ed25519_pubkey.
    rewrite Hl, Hpub, Hkey, Hsg, Hdec, bool_decide_eq_true_2 by done. cbn [negb]. by rewrite Hver. }
  split_and!.
  - unfold load in Hload. apply fm_bind_ok in Hload as (r & w1 & H1 & H). destruct r as [raw|[|e]]; [|done..].
    apply fs_read_to_string_ok in H1 as [Hf _]. apply fm_bind_ok in H as (seed & w2 & [Hp ->]%openssh_seed_ok & H).
    injection H as <- _. by exists raw.
  - unfold verify_event. rewrite Hjcs. by apply Hv.
  - unfold verify_event. by rewrite Hjcs.
  - unfold verify_event. by rewrite Hjcs.
  - intros payload_path sig_path pub_path text value w1 Hio Hp Hputf Hval Hcan Hs Hl Hlutf Htrim.
    assert (Hread : forall path bytes w2, fw_files w2 = fw_files w1 -> fw_files w1 !! path = Some bytes ->
              from_utf8 bytes = Some bytes ->
              fs_read_to_string path w2 = (Returned (Ok (Ok bytes)), w2 <| fw_asked := S (fw_asked w2) |>)).
    { intros path bytes w2 K Hf Hu. unfold fs_read_to_string, fs_read, fm_ask, fm_files, mbind, FileM_bind, mret, FileM_ret.
      simpl. rewrite Hio, K, Hf, Hu, <- K. done. }
    assert (Hplain : all_chars is_plain_byte sg = true).
    { rewrite Hsg. eapply all_chars_impl; [|apply Hchars]. intros c Hc. by apply base64_char_plain in Hc as [? _]. }
    assert (Hsutf : from_utf8 (sg +:+ newline) = Some (sg +:+ newline)).
    { apply from_utf8_ascii. rewrite all_chars_app. apply andb_true_iff. split; [|done].
      eapply all_chars_impl; [apply plain_byte_ascii|done]. }
    unfold run_probe, needed, mbind at 1, FileM_bind at 1. rewrite (Hread _ _ _ eq_refl Hp Hputf). rewrite Hval, Hcan.
    unfold mbind at 1, FileM_bind at 1. rewrite (Hread sig_path (sg +:+ newline)) by done.
    unfold mbind at 1, FileM_bind at 1. rewrite (Hread pub_path line) by done.
    rewrite trim_line, Hv by done. by rewrite bool_decide_eq_true_2.
Qed.

(** C36.  The offline verifier answers as an agent does.  On the same manifest, signature
    and trust file, at the agent's clock and with its window, the command ends with
    success exactly when the agent accepts the manifest under the identifier, with
    the refusal when the agent refuses it, and panics when the agent does; only a
    trust file of another schema version, which the agent never looks at, makes
    the command end as for a bad argument. *)
Theorem offline_verifier_agrees {Cr : Crypto} {E : OsEnv} {H : HostEnv} {Dc : DeserializeOwned TrustConfig}
    {Dm : DeserializeOwned RolloutManifest} (manifest_path signature_path trust_file : string)
    (manifest_bytes signature_bytes trust_raw rollout_id : string) (trust : TrustConfig) (window : u64)
    (w : FileWorld) (host : HostWorld) :
  (forall n, os_failure n = None) ->
  fw_files w !! manifest_path = Some manifest_bytes -> fw_files w !! signature_path = Some signature_bytes ->
  fw_files w !! trust_file = Some trust_raw -> from_utf8 trust_raw = Some trust_raw ->
  from_str (T := TrustConfig) trust_raw = Ok trust -> env_trust_file (S (ho_asked host)) = Ok trust ->
  (run_rollout_manifest manifest_path signature_path trust_file (env_now (ho_asked host)) window rollout_id w).1 =
  if bool_decide (tc_schema_version trust = CURRENT_SCHEMA_VERSION) then
    match (verify_bytes (duration_seconds window) manifest_bytes signature_bytes rollout_id host).1 with
    | Returned (Ok _) => Returned (Ok SUCCESS)
    | Returned (Err _) => Returned (Ok REFUSED)
    | Panicked => Panicked
    | OutOfFuel => OutOfFuel
    end
  else Returned (Ok arg_error).
Proof.
  intros Hio Hm Hs Ht Hutf Htrust Hhost.
  assert (Hread : forall path bytes w2, fw_files w2 = fw_files w -> fw_files w !! path = Some bytes ->
            fs_read path w2 = (Returned (Ok (Ok bytes)), w2 <| fw_asked := S (fw_asked w2) |>)).
  { intros path bytes w2 K Hf. unfold fs_read, fm_ask, fm_files, mbind, FileM_bind, mret, FileM_ret.
    simpl. rewrite Hio, K, Hf, <- K. done. }
  assert (Htext : forall w2, fw_files w2 = fw_files w ->
            fs_read_to_string trust_file w2 = (Returned (Ok (Ok trust_raw)), w2 <| fw_asked := S (fw_asked w2) |>)).
  { intros w2 K. unfold fs_read_to_string, mbind, FileM_bind. rewrite (Hread _ trust_raw) by done. by rewrite Hutf. }
  unfold run_rollout_manifest, needed. unfold mbind at 1, FileM_bind at 1. rewrite (Hread _ _ _ eq_refl Hm).
  unfold mbind at 1, FileM_bind at 1. rewrite (Hread signature_path signature_bytes) by done.
  unfold load_trust, needed. unfold mbind at 1, FileM_bind at 1. rewrite Htext, Htrust by done.
  case_bool as [Hv|Hv]; [|done]. cbn [negb].
  unfold verify_bytes, load_trust_roots, ask, lift_ended, mbind, HostM_bind, mret, HostM_ret. simpl. rewrite Hhost. simpl.
  unfold fm_ended, FileM_bind, FileM_ret.
  destruct (verify_rollout_manifest _ _ _ _ _ _) as [[v|e]| |]; try done.
  unfold assert_rollout_id_matches. simpl. by destruct (bool_decide _).
Qed.

(** ** Witnesses *)

Lemma letters_roundtrip s : unletters (letters s) = Ok s.
Proof.
  induction s as [|c s IH]; [done|]. cbn [letters unletters]. rewrite IH. do 2 f_equal.
  destruct c as [[] [] [] [] [] [] [] []]; by vm_compute.
Qed.

Lemma letters_laws : base64_laws (B := letters_base64).
Proof.
  split; [exact letters_roundtrip|]. intros s. change (base64_encode s) with (letters s).
  induction s as [|c s IH]; [done|]. cbn [letters all_chars]. rewrite IH.
  destruct c as [[] [] [] [] [] [] [] []]; by vm_compute.
Qed.

Definition pad_signing : Signing (Cr := enrol_crypto) := {|
  ed25519_sign := fun seed m => sample_sign (pad 32 seed) m;
  ed25519_public := pad 32;
|}.

Lemma pad_length n s : String.length (pad n s) = n.
Proof. revert s. induction n as [|n IH]; intros [|c s]; simpl; by rewrite ?IH. Qed.

Lemma pad_token_signing : token_signing (P := enrol_pki) (Sg := pad_signing).
Proof.
  intros seed m _. split; [apply pad_length|]. exists (pad 32 seed), (sample_sign (pad 32 seed) m).
  split_and!; [done..|]. by apply bool_decide_eq_true_2.
Qed.

Definition disk_env : OsEnv := {|
  os_now := fun _ => duration_minutes 5;
  os_failure := fun _ => None;
  os_write := fun _ => Written;
|}.

Definition mint_env : CliEnv (H := enrol_pki) := @Build_CliEnv enrol_crypto enrol_pki
  (fun _ => "nonce-1") (fun _ => 7%Z) (fun _ => None) None None (fun _ => Ok tt) (fun _ => P256) (fun _ _ => Ok tt)
  (fun _ => Ok ("public", "pem")) (fun _ => Ok tt) (fun _ => Ok tt) (fun _ => "") id.

Definition fleet_decoder : DeserializeOwned FleetResolved := fun _ => Ok enrol_fleet.

Definition mint_args : MintTokenArgs := MkMintTokenArgs "web-1" None (Some "fleet") "org.key" 24 1.

Definition mint_disk : FileWorld :=
  MkFileWorld {[ "fleet" := "fleet"; "org.key" := hex_lowercase (pad 32 "org") ]} 0.

Definition minted : BootstrapToken :=
  let claims := MkTokenClaims "web-1" (letters (pad 32 web_key)) (duration_minutes 5) (duration_minutes (24 * 60 + 5))
                  (hex_lowercase "nonce-1") in
  MkBootstrapToken 1 claims (letters (sample_sign (pad 32 "org") ("web-1/" +:+ hex_lowercase "nonce-1"))).

Definition listed : IdentityState :=
  publish_fleet enrol_fleet
    (apply_verified_allowlist
       (MkBootstrapNonces 1 [allowlist_entry (P := enrol_pki) (C := mint_env) minted] (MkMeta 1 (Some 0%Z) None None))
       (MkIdentityState ∅ ∅ ∅ None [])).

Lemma minted_token_enrolls_witness :
  exists w', mint_token (B := letters_base64) (P := enrol_pki) (Sg := pad_signing) (E := disk_env) (C := mint_env)
      (Df := fleet_decoder) mint_args mint_disk = (Returned (Ok minted), w') /\
    enroll_checks (B := letters_base64) (P := enrol_pki) enrol_server (at_minute 60) listed
      (MkEnrollRequest minted "csr") = Ok tt.
Proof.
  destruct (mint_token (B := letters_base64) (P := enrol_pki) (Sg := pad_signing) (E := disk_env) (C := mint_env)
    (Df := fleet_decoder) mint_args mint_disk) as [r w'] eqn:Hmint.
  assert (Hr : r = Returned (Ok minted))
    by (apply (f_equal fst) in Hmint; vm_compute in Hmint; rewrite <- Hmint; by vm_compute).
  subst r. exists w'. split; [reflexivity|].
  apply (minted_token_enrolls (B := letters_base64) (P := enrol_pki) (Sg := pad_signing) (E := disk_env) (C := mint_env)
    (Df := fleet_decoder) mint_args minted "fleet" "fleet" (hex_lowercase (pad 32 "org")) (pad 32 "org") "csr" web_line
    enrol_fleet enrol_fleet web_host org_trust
    (MkKeySlot (Some (MkTrustedPubkey "ed25519" (letters (pad 32 "org")))) None None None None)
    (MkTrustedPubkey "ed25519" (letters (pad 32 "org"))) (csr_named "web-1") (Utf8String "web-1") enrol_server
    (at_minute 60) listed mint_disk w').
  - exact letters_laws.
  - exact pad_token_signing.
  - exact Hmint.
  - reflexivity.
  - reflexivity.
  - reflexivity.
  - by vm_compute.
  - reflexivity.
  - reflexivity.
  - by vm_compute.
  - by vm_compute.
  - reflexivity.
  - reflexivity.
  - vm_compute. by apply list_elem_of_here.
  - reflexivity.
  - by vm_compute.
  - reflexivity.
  - by vm_compute.
  - reflexivity.
  - by vm_compute.
  - reflexivity.
  - by vm_compute.
  - reflexivity.
  - by vm_compute.
  - by vm_compute.
  - by vm_compute.
  - reflexivity.
  - reflexivity.
Defined.

(** The key derived from a hexadecimal file is not the one its tokens are signed with. *)
Lemma key_commands_disagree_witness :
  (derive_pubkey (B := letters_base64) (Sg := pad_signing) (E := disk_env) "org.key" mint_disk).1 =
    Returned (Ok (letters (String.substring 0 32 (hex_lowercase (pad 32 "org"))))) /\
  (read_signing_key (Cr := enrol_crypto) (E := disk_env) "org.key" mint_disk).1 = Returned (Ok (pad 32 "org")) /\
  String.substring 0 32 (hex_lowercase (pad 32 "org")) <> pad 32 "org".
Proof.
  destruct (key_commands_disagree (B := letters_base64) (P := enrol_pki) (Sg := pad_signing) (E := disk_env)
    (C := mint_env) "org.key" (hex_lowercase (pad 32 "org")) mint_disk) as (H1 & H2 & _).
  - exact letters_laws.
  - reflexivity.
  - by vm_compute.
  - vm_compute. lia.
  - split; [rewrite H1; by vm_compute|]. split; [|by vm_compute].
    apply H2; [by vm_compute|]. by right.
Defined.

Definition pad_evidence : EvidenceCrypto (Cr := enrol_crypto) :=
  fun (k : string) m s => bool_decide (s = sample_sign k m).

Lemma pad_evidence_signing : evidence_signing (Ec := pad_evidence) (Sg := pad_signing).
Proof.
  intros seed m. split; [apply pad_length|]. exists (pad 32 seed). split; [done|]. by apply bool_decide_eq_true_2.
Qed.

Definition text_jcs : SerializeJcs string := Ok.

Definition seed_ssh : SshFormats := {|
  private_key_from_openssh := fun raw => Ok (Ed25519Pair (pad 32 raw));
  public_key_from_openssh := fun line => Ok (Ed25519Public (pad 32 line));
|}.

Definition evidence_disk : FileWorld := MkFileWorld {[ "host.key" := "web" ]} 0.

Lemma evidence_signature_roundtrip_witness :
  verify_event (Cr := enrol_crypto) (Ec := pad_evidence) (Sh := seed_ssh) (J := text_jcs)
    (Some (letters (sample_sign (pad 32 "web") "{}"))) (Some "web") "{}" = SignatureStatus.Verified.
Proof.
  destruct (load (Sh := seed_ssh) (E := disk_env) "host.key" evidence_disk) as [r w'] eqn:Hload.
  assert (Hr : r = Returned (Ok (Some (MkEvidenceSigner (pad 32 "web")))))
    by (apply (f_equal fst) in Hload; vm_compute in Hload; rewrite <- Hload; by vm_compute).
  subst r.
  destruct (evidence_signature_roundtrip (B := letters_base64) (Ec := pad_evidence) (Sg := pad_signing) (Sh := seed_ssh)
    (E := disk_env) (J := text_jcs) "host.key" "web" (letters (sample_sign (pad 32 "web") "{}")) "{}" "{}"
    (MkEvidenceSigner (pad 32 "web")) evidence_disk w') as (_ & Hv & _).
  - exact letters_laws.
  - exact pad_evidence_signing.
  - exact Hload.
  - reflexivity.
  - by vm_compute.
  - by vm_compute.
  - exact Hv.
Defined.

Definition ci_trust : TrustConfig :=
  MkTrustConfig 1 (MkKeySlot (Some (MkTrustedPubkey "ed25519" (letters (pad 32 "ci")))) None None None None) [] None None [].

Definition quiet_host : HostEnv := {|
  env_now := fun _ => duration_minutes 5;
  env_trust_file := fun _ => Ok ci_trust;
  env_get := fun _ _ => SendFailed "";
  env_post_heartbeat := fun _ _ _ => HeartbeatSendFailed "";
  env_write := fun _ => FileWritten;
  env_current_system := fun _ => None;
  status_text := fun _ => "";
  body_text := id;
  display_time := fun _ => "";
  debug_str := id;
  debug_verify_error := fun _ => "";
|}.

Definition trust_decoder : DeserializeOwned TrustConfig := fun _ => Ok ci_trust.
Definition manifest_decoder : DeserializeOwned RolloutManifest := fun _ =>
  Ok (MkRolloutManifest 1 "stable@c0ffee" "stable" "c0ffee" "" [] (MkHealthGate None) []
        (MkMeta 1 (Some 0%Z) (Some "c0ffee") None)).

Definition manifest_disk : FileWorld :=
  MkFileWorld {[ "m" := "manifest"; "s" := sample_sign (pad 32 "ci") "manifest"; "t" := "trust" ]} 0.

Lemma offline_verifier_agrees_witness :
  (run_rollout_manifest (Cr := enrol_crypto) (E := disk_env) (Dc := trust_decoder) (Dm := manifest_decoder)
     "m" "s" "t" (duration_minutes 5) 3600 "stable@c0ffee" manifest_disk).1 = Returned (Ok SUCCESS).
Proof.
  rewrite (offline_verifier_agrees (E := disk_env) (H := quiet_host) (Dc := trust_decoder) (Dm := manifest_decoder)
    "m" "s" "t" "manifest" (sample_sign (pad 32 "ci") "manifest") "trust" "stable@c0ffee" ci_trust 3600 manifest_disk
    (MkHostWorld ∅ ∅ 0)).
  - by vm_compute.
  - reflexivity.
  - by vm_compute.
  - by vm_compute.
  - by vm_compute.
  - by vm_compute.
  - reflexivity.
  - reflexivity.
Defined.
