(* ===== verification/CliStatus.v ===== *)
(** * Operator commands that ask the control plane

    Models [crates/nixfleet-cli/src/lib.rs] with [config.rs] and [color.rs], and
    the commands of [bin/nixfleet.rs].  What a GET answers is the argument [get];
    JSON, TOML and the text of a time are the class [CliText]; strings are UTF-8,
    and the width of a text is its number of characters. *)

From S2P Require Import Prelude RustStd Proto HostTypes Gates Wire Verify HostKey Issuance Enrollment CpStore CpRuntime.
From S2P Require Import CpServe FileSystem AgentProbes AgentIdentity Evidence CliKeys.
Import CpServe.rollouts CpServe.status.
From stdpp Require Import pretty.

(** ** Configuration ([config.rs]) *)

Record FileConfig := MkFileConfig {
  fc_cp_url : option string;
  fc_ca_cert : option string;
  fc_client_cert : option string;
  fc_client_key : option string;
}.

(** The same four, from flags or from the environment. *)
Definition Overrides : Type := FileConfig.
Definition no_config : FileConfig := MkFileConfig None None None None.

Record ResolvedClientConfig := MkResolvedClientConfig {
  rc_cp_url : string;
  rc_ca_cert : string;
  rc_client_cert : string;
  rc_client_key : string;
}.

Module ConfigError.
Inductive t :=
| Read (e : IoError)
| Parse (e : string)
| Missing (field : string).
End ConfigError.
Abbreviation ConfigError := ConfigError.t.

Class CliText := {
  toml_to_string : FileConfig -> result string string;
  toml_from_str : string -> result FileConfig string;
  uppercase : string -> string;
  to_rfc3339_text : DateTime -> string;
  reformat_rfc3339 : string -> option string;          (* "%Y-%m-%d %H:%M:%S" of a text that parses *)
  status_error : Z -> string -> string;                (* of [error_for_status], with the URL *)
  status_json : list HostStatusEntry -> result string string;
  hosts_json : RolloutHosts -> result string string;
  events_json : RolloutEvents -> result string string;
  token_json : BootstrapToken -> result string string;
  freshness_field : string -> result (option u64) string;   (* of the body of [/v1/channels/{name}] *)
}.

(** ** Colour ([color.rs]) *)

Inductive Style := Green | Yellow | Red | Dim.

Definition code (s : Style) : string :=
  match s with Green => "32" | Yellow => "33" | Red => "31" | Dim => "2" end.

Definition escape : string := String (ascii_of_nat 27) EmptyString.

Definition paint (enabled : bool) (style : Style) (s : string) : string :=
  if enabled then escape +:+ "[" +:+ code style +:+ "m" +:+ s +:+ escape +:+ "[0m" else s.

(** Whether to paint, on a terminal or not. *)
Definition detect (force_off no_color is_terminal : bool) : bool :=
  if force_off then false else if no_color then false else is_terminal.

(** ** Tables *)

(** [chars().count()]. *)
Fixpoint char_count (s : string) : nat :=
  match s with
  | EmptyString => 0
  | String c s => if is_continuation_byte c then char_count s else S (char_count s)
  end.

Fixpoint spaces (n : nat) : string := match n with O => "" | S n => " " +:+ spaces n end.

(** The widest text of each column; a row is what is printed and what is measured. *)
Definition column_widths (columns : nat) (rows : list (list (string * string))) : list nat :=
  fold_left (fun widths row => zip_with (fun w (col : string * string) => Nat.max w (char_count col.2)) widths row)
    rows (replicate columns 0).

Fixpoint layout_row (first : bool) (widths : list nat) (row : list (string * string)) : string :=
  match widths, row with
  | w :: widths, (render, width_src) :: row =>
      (if first then "" else "  ") +:+ render +:+
      (if is_empty row then "" else spaces (w - char_count width_src)) +:+
      layout_row false widths row
  | _, _ => ""
  end.

Definition layout_styled (columns : nat) (rows : list (list (string * string))) : string :=
  let widths := column_widths columns rows in
  String.concat "" ((fun row => layout_row true widths row +:+ newline) <$> rows).

(** A table without colours measures what it prints. *)
Definition unstyled (row : list string) : list (string * string) := (fun col => (col, col)) <$> row.
Definition layout (columns : nat) (rows : list (list string)) : string := layout_styled columns (unstyled <$> rows).

(** ** The status of a host ([status_label]) *)

Definition display_hash (h : option string) (fallback : string) : string :=
  match h with
  | None => fallback
  | Some s => if char_count s <=? 14 then s else take_chars 13 s +:+ "…"
  end.

Definition current_column (host : HostStatusEntry) : string :=
  match hse_current_closure_hash host with
  | Some c => display_hash (Some c) ""
  | None =>
      match hse_pending_closure_hash host with
      | Some p => display_hash (Some p) "" +:+ " →"
      | None => "<unseen>"
      end
  end.

Definition format_age (d : Duration) : string :=
  let total_seconds := Z.max (num_seconds d) 0 in
  if Z.leb 86400 total_seconds then pretty (total_seconds / 86400)%Z +:+ "d"
  else if Z.leb 3600 total_seconds then pretty (total_seconds / 3600)%Z +:+ "h"
  else pretty (total_seconds / 60)%Z +:+ "m".

(** Past twice the freshness window. *)
Definition stale_label (host : HostStatusEntry) (now : DateTime) (freshness_minutes : option u32) : option string :=
  last ← hse_last_checkin_at host;
  window ← freshness_minutes;
  let age := (now - last)%Z in
  if Z.ltb (duration_minutes (window * 2)) age then Some ("⚠ stale (" +:+ format_age age +:+ ")") else None.

Definition state_label (state : WireState.t) (quarantined : bool) (health_failures : Z) : string :=
  match state with
  | WireState.Pending => "→ in progress"
  | WireState.Activating => "→ activating"
  | WireState.Deferred => "▲ pending reboot"
  | WireState.Soaking => if Z.ltb 0 health_failures then "⚠ probes failing" else "→ soaking"
  | WireState.Converged => "✓ converged"
  | WireState.Failed => if quarantined then "✗ failed - channel halted, push fix" else "✗ failed"
  | WireState.Reverted => if quarantined then "✗ reverted - channel halted, push fix" else "✗ reverted"
  end.

Definition base_status_label (host : HostStatusEntry) (now : DateTime) (freshness_minutes : option u32) : string :=
  let quarantined := bool_decide (is_Some (hse_quarantined_closure host)) in
  let stale := stale_label host now freshness_minutes in
  match hse_rollout_state host with
  | Some state =>
      match (if WireState.is_in_flight state then stale else None) with
      | Some label => label
      | None => state_label state quarantined (hse_outstanding_health_failures host)
      end
  | None =>
      if quarantined then "✗ quarantined - channel halted, push fix"
      else if hse_pending_reboot host then "⟳ pending reboot"
      else if hse_converged host then "✓ converged"
      else
        match hse_last_checkin_at host with
        | None => "✗ never"
        | Some _ => match stale with Some label => label | None => "→ in progress" end
        end
  end.

Definition status_label (host : HostStatusEntry) (now : DateTime) (freshness_minutes : option u32) : string :=
  let base := base_status_label host now freshness_minutes in
  match hse_pin host with
  | Some pin => base +:+ " 🔒" +:+ take_chars 7 (pin_commit pin)
  | None => base
  end.

Definition paint_status (enabled : bool) (label : string) : string :=
  if contains "✓" label then paint enabled Green label
  else if contains "⚠" label || contains "⟳" label || contains "→" label || contains "…" label then
    paint enabled Yellow label
  else if contains "✗" label then paint enabled Red label
  else label.

Definition compliance_label (host : HostStatusEntry) : string :=
  pretty (hse_outstanding_compliance_failures host + hse_outstanding_runtime_gate_errors host +
          hse_outstanding_health_failures host)%Z +:+ " outstanding".

Record StatusInputs := MkStatusInputs {
  si_now : DateTime;
  si_hosts : list HostStatusEntry;
  si_channel_freshness : gmap string u32;
}.

Definition status_header : list string := ["HOST"; "CHANNEL"; "CURRENT"; "DECLARED"; "STATUS"; "COMPLIANCE"].

Definition label_of (input : StatusInputs) (host : HostStatusEntry) : string :=
  status_label host (si_now input) (si_channel_freshness input !! hse_channel host).

Definition status_row (input : StatusInputs) (host : HostStatusEntry) : list string :=
  [ hse_hostname host; hse_channel host; current_column host;
    display_hash (hse_declared_closure_hash host) "<unset>"; label_of input host; compliance_label host ].

Definition render_status_table (input : StatusInputs) : string :=
  layout 6 (status_header :: (status_row input <$> si_hosts input)).

(** Only the status is painted, and it is measured without the paint. *)
Definition status_row_styled (color : bool) (input : StatusInputs) (host : HostStatusEntry) : list (string * string) :=
  unstyled [ hse_hostname host; hse_channel host; current_column host;
             display_hash (hse_declared_closure_hash host) "<unset>" ] ++
  [(paint_status color (label_of input host), label_of input host)] ++
  unstyled [compliance_label host].

Definition render_status_table_with_color (input : StatusInputs) (color : bool) : string :=
  layout_styled 6 (unstyled status_header :: (status_row_styled color input <$> si_hosts input)).

Section cli.
Context {Cr : Crypto} {P : Pki} {E : OsEnv} {I : IdentityEnv} {C : CliEnv} {Tx : CliText}.

(** ** Rollouts *)

Definition short_ts (rfc3339 : string) : string := default rfc3339 (reformat_rfc3339 rfc3339).

Definition hosts_header : list string := ["WAVE"; "HOST"; "DISPATCHED"; "TERMINAL"; "AT"].

Definition hosts_row (h : RolloutHostEntry) : list string :=
  [ pretty (rhe_wave h); rhe_host h; short_ts (to_rfc3339_text (rhe_dispatched_at h));
    default "<open>" (rhe_terminal_state h);
    default "" ((fun t => short_ts (to_rfc3339_text t)) <$> rhe_terminal_at h) ].

Definition render_hosts_table (rollout : RolloutHosts) : string :=
  "rollout " +:+ rid_raw (rh_rollout_id rollout) +:+ newline +:+
  layout 5 (hosts_header :: (hosts_row <$> rh_hosts rollout)).

(** [{:>n}] and [{:n}]. *)
Definition pad_left (n : nat) (s : string) : string := spaces (n - char_count s) +:+ s.
Definition pad_right (n : nat) (s : string) : string := s +:+ spaces (n - char_count s).

Definition events_line (seq ts kind host : string) : string :=
  pad_left 8 seq +:+ " " +:+ pad_right 24 ts +:+ " " +:+ pad_right 18 kind +:+ " " +:+ host +:+ newline.

Definition render_events_summary (events : RolloutEvents) : string :=
  "rollout " +:+ rid_raw (rv_rollout_id events) +:+ " — " +:+ pretty (length (rv_events events)) +:+ " event(s)" +:+
  newline +:+ events_line "SEQ" "TS" "KIND" "HOST" +:+
  String.concat "" ((fun e =>
    events_line (pretty (ree_seq e)) (to_rfc3339_text (ree_ts e)) (ree_kind e) (default "-" (ree_host e)))
    <$> rv_events events).

(** ** The configuration file *)

Definition config_error_text (e : ConfigError) : string :=
  match e with
  | ConfigError.Read e => "read config: " +:+ io_error_text e
  | ConfigError.Parse e => "parse config: " +:+ e
  | ConfigError.Missing field =>
      "no " +:+ field +:+ " in flags, env, or config file. Run `nixfleet config init` to create one, or pass --" +:+
      replace "_" "-" field +:+ " / set NIXFLEET_" +:+ uppercase field +:+ "."
  end.

Definition load_file (path : string) : FileM (result FileConfig ConfigError) :=
  r ← fs_read_to_string path;
  mret match r with
       | Err e => Err (ConfigError.Read e)
       | Ok body => match toml_from_str body with Ok c => Ok c | Err e => Err (ConfigError.Parse e) end
       end.

(** A field of the highest layer that has it. *)
Definition layered (field : FileConfig -> option string) (name : string) (flags env file : FileConfig)
    : result string ConfigError :=
  match or_else (field flags) (or_else (field env) (field file)) with
  | Some v => Ok v
  | None => Err (ConfigError.Missing name)
  end.

Definition resolve (file_path : option string) (env flags : Overrides)
    : FileM (result ResolvedClientConfig ConfigError) :=
  file ←
    match file_path with
    | None => mret (Ok no_config)
    | Some p =>
        loaded ← load_file p;
        mret match loaded with
             | Err (ConfigError.Read NotFound) => Ok no_config
             | other => other
             end
    end;
  mret (let? file := file in
        let? cp_url := layered fc_cp_url "cp_url" flags env file in
        let? ca_cert := layered fc_ca_cert "ca_cert" flags env file in
        let? client_cert := layered fc_client_cert "client_cert" flags env file in
        let? client_key := layered fc_client_key "client_key" flags env file in
        Ok (MkResolvedClientConfig cp_url ca_cert client_cert client_key)).

(** [ConnArgs::resolve]. *)
Definition resolve_connection (config : option string) (flags : Overrides) : FileM ResolvedClientConfig :=
  let path := default default_config_path (or_else config (env_var "NIXFLEET_CONFIG")) in
  let env := MkFileConfig (env_var "NIXFLEET_CP_URL") (env_var "NIXFLEET_CA_CERT") (env_var "NIXFLEET_CLIENT_CERT")
               (env_var "NIXFLEET_CLIENT_KEY") in
  r ← resolve (Some path) env flags;
  fm_result match r with Ok cfg => Ok cfg | Err e => Err (config_error_text e) end.

(** The file is truncated and written in place. *)
Definition save (cfg : FileConfig) (path : string) : FileM (result unit string) :=
  created ← match parent path with
            | Some _ => fm_ask create_dir_all
            | None => mret (Ok tt)
            end;
  match created with
  | Err e => mret (Err (io_error_text e))
  | Ok _ =>
      match toml_to_string cfg with
      | Err e => mret (Err e)
      | Ok body =>
          r ← fs_write path body;
          mret match r with Ok _ => Ok tt | Err e => Err (io_error_text e) end
      end
  end.

Definition run_config_init (path cp_url ca_cert client_cert client_key : string) (overwrite : bool) : FileM string :=
  there ← fs_exists path;
  if there && negb overwrite then fm_bail (path +:+ " already exists; pass --force to overwrite")
  else
    r ← save (MkFileConfig (Some cp_url) (Some ca_cert) (Some client_cert) (Some client_key)) path;
    in_context ("write " +:+ path) r ;;
    mret path.

(** ** Requests *)

Definition build_cli_client (cfg : ResolvedClientConfig) : FileM Client :=
  r ← fs_read (rc_ca_cert cfg);
  pem ← read_or "read CA cert " (rc_ca_cert cfg) r;
  in_context "parse CA cert PEM" (root_from_pem pem) ;;
  r ← fs_read (rc_client_cert cfg);
  id_pem ← read_or "read client cert " (rc_client_cert cfg) r;
  r ← fs_read (rc_client_key cfg);
  key_pem ← read_or "read client key " (rc_client_key cfg) r;
  in_context "parse client identity PEM" (identity_from_pem (id_pem +:+ key_pem)) ;;
  let client := MkClient (Some pem) (Some (id_pem +:+ key_pem)) in
  in_context "build HTTP client" (client_builds client) ;;
  mret client.

Context (get : nat -> Client -> string -> HttpAnswer).

(** A GET, whose error says what was asked for. *)
Definition cli_get (client : Client) (url : string) : FileM (Z * result string string) :=
  resp ← fm_ask (fun n => get n client url);
  match resp with
  | SendFailed err => fm_bail ("GET " +:+ url +:+ ": " +:+ err)
  | Response status body => mret (status, body)
  end.

(** [error_for_status], then [json]. *)
Definition decoded {A} (url : string) (status : Z) (body : result string string) (what : string)
    (decode : string -> result A string) : FileM A :=
  if Z.leb 400 status && Z.ltb status 600 then fm_bail (status_error status url)
  else in_context ("parse " +:+ what +:+ " response") (let? bytes := body in decode bytes).

Definition channels_seen (hosts : list HostStatusEntry) : list string :=
  dedup (merge_sort (≤)%string (hse_channel <$> hosts)).

(** One request for each channel. *)
Fixpoint fetch_freshness (client : Client) (cp_url : string) (channels : list string) (m : gmap string u32)
    : FileM (gmap string u32) :=
  match channels with
  | [] => mret m
  | channel :: channels =>
      let url := cp_url +:+ "/v1/channels/" +:+ channel in
      '(status, body) ← cli_get client url;
      window ← decoded url status body "/v1/channels" freshness_field;
      fetch_freshness client cp_url channels
        match window with Some w => <[ channel := u32_wrap w ]> m | None => m end
  end.

Definition run_status {Dh : DeserializeOwned (list HostStatusEntry)} (cfg : ResolvedClientConfig) (json color : bool)
    : FileM string :=
  let cp_url := strip_slashes (rc_cp_url cfg) in
  client ← build_cli_client cfg;
  let url := cp_url +:+ "/v1/hosts" in
  '(status, body) ← cli_get client url;
  hosts ← decoded url status body "/v1/hosts" from_str;
  if json then in_context "serialize HostsResponse to JSON" (status_json hosts)
  else
    channel_freshness ← fetch_freshness client cp_url (channels_seen hosts) ∅;
    now ← fm_ask os_now;
    mret (render_status_table_with_color (MkStatusInputs now hosts channel_freshness) color).

Definition run_hosts {Dh : DeserializeOwned RolloutHosts} (cfg : ResolvedClientConfig) (rollout_id : string)
    (json : bool) : FileM string :=
  let cp_url := strip_slashes (rc_cp_url cfg) in
  client ← build_cli_client cfg;
  let url := cp_url +:+ "/v1/rollouts/" +:+ rollout_id +:+ "/hosts" in
  '(status, body) ← cli_get client url;
  if Z.eqb status 404 then
    fm_bail ("rollout " +:+ rollout_id +:+
             " has no host_rollout_records (never dispatched, or rollout id unknown)")
  else
    hosts ← decoded url status body "/v1/rollouts/{id}/hosts" from_str;
    if json then in_context "serialize RolloutHosts to JSON" (hosts_json hosts)
    else mret (render_hosts_table hosts).

Definition run_events {De : DeserializeOwned RolloutEvents} (cfg : ResolvedClientConfig) (rollout_id : string)
    (limit : option i64) (json : bool) : FileM string :=
  let cp_url := strip_slashes (rc_cp_url cfg) in
  client ← build_cli_client cfg;
  let url := cp_url +:+ "/v1/rollouts/" +:+ rollout_id +:+ "/events" +:+
             match limit with Some n => "?limit=" +:+ pretty n | None => "" end in
  '(status, body) ← cli_get client url;
  if Z.eqb status 404 then fm_bail ("rollout " +:+ rollout_id +:+ " unknown")
  else
    events ← decoded url status body "/v1/rollouts/{id}/events" from_str;
    if json then in_context "serialize RolloutEvents to JSON" (events_json events)
    else mret (render_events_summary events).

(** ** The commands ([bin/nixfleet.rs]) *)

Record ConnArgs := MkConnArgs {
  cn_flags : Overrides;
  cn_config : option string;
}.

Inductive Commands :=
| StatusCommand (conn : ConnArgs) (json no_color : bool)
| HostsCommand (rollout_id : string) (conn : ConnArgs) (json : bool)
| EventsCommand (rollout_id : string) (conn : ConnArgs) (limit : option i64) (json : bool)
| ConfigInit (cp_url ca_cert client_cert client_key : string) (path : option string) (force : bool)
| DerivePubkey (private_key_path : string)
| MintOperatorCert (args : OperatorCertArgs)
| MintToken (args : MintTokenArgs).

(** What the command prints on its standard output. *)
Definition nixfleet_main {B : Base64} {Sg : Signing} {Df : DeserializeOwned FleetResolved} {Dh : DeserializeOwned (list HostStatusEntry)} {Dr : DeserializeOwned RolloutHosts}
    {De : DeserializeOwned RolloutEvents} (is_terminal : bool) (command : Commands) : FileM string :=
  match command with
  | StatusCommand conn json no_color =>
      cfg ← resolve_connection (cn_config conn) (cn_flags conn);
      run_status cfg json (detect no_color (bool_decide (is_Some (env_var "NO_COLOR"))) is_terminal)
  | HostsCommand rollout_id conn json =>
      cfg ← resolve_connection (cn_config conn) (cn_flags conn);
      run_hosts cfg rollout_id json
  | EventsCommand rollout_id conn limit json =>
      cfg ← resolve_connection (cn_config conn) (cn_flags conn);
      run_events cfg rollout_id limit json
  | ConfigInit cp_url ca_cert client_cert client_key path force =>
      run_config_init (default default_config_path path) cp_url ca_cert client_cert client_key force ;;
      mret ""
  | DerivePubkey path =>
      pubkey ← derive_pubkey path;
      mret (pubkey +:+ newline)
  | MintOperatorCert args => run_mint_operator_cert args ;; mret ""
  | MintToken args =>
      token ← mint_token args;
      out ← fm_result (token_json token);
      mret (out +:+ newline)
  end.

End cli.
