(* ===== verification/CliStatusProps.v ===== *)
(** * What [nixfleet status] shows of what the control plane serves

    The status table against the route that feeds it: what the label of a host
    can say, what the table depends on, when it is not shown at all, and how its
    columns line up. *)

From S2P Require Import Prelude RustStd Proto HostTypes Gates PlannerProps Wire Verify HostKey FileSystem AgentProbes.
From S2P Require Import Issuance Enrollment EnrollmentProps AgentIdentity Evidence CliKeys CpStore CpRuntime CpRoutes.
From S2P Require Import CpServe CpServeProps CliStatus.
From stdpp Require Import pretty.
Import CpServe.rollouts CpServe.status.

(** ** Calls that return *)

(** An answer or an error, never a panic. *)
Definition returns {A} (m : FileM A) : Prop := forall w, exists r w', m w = (Returned r, w').

Lemma returns_bind {A B} (m : FileM A) (k : A -> FileM B) :
  returns m -> (forall a, returns (k a)) -> returns (m ≫= k).
Proof.
  intros Hm Hk w. destruct (Hm w) as (r & w' & H). unfold mbind, FileM_bind. rewrite H.
  destruct r as [a|e]; [apply Hk|by exists (Err e), w'].
Qed.

Lemma returns_result {A} (r : result A string) : returns (fm_result r).
Proof. intros w. by exists r, w. Qed.
Lemma returns_ret {A} (a : A) : returns (mret a).
Proof. apply (returns_result (Ok a)). Qed.
Lemma returns_bail {A} e : returns (A := A) (fm_bail e).
Proof. apply (returns_result (Err e)). Qed.
Lemma returns_context {A} text (r : result A string) : returns (in_context text r).
Proof. apply returns_result. Qed.
Lemma returns_ask {A} (answer : nat -> A) : returns (fm_ask answer).
Proof. intros w. by eexists _, _. Qed.
Lemma returns_read {E : OsEnv} path : returns (fs_read path).
Proof.
  intros w. unfold fs_read, fm_ask, fm_files, mbind, FileM_bind, mret, FileM_ret. simpl.
  by destruct (os_failure _); eexists _, _.
Qed.

Create HintDb returns.
#[export] Hint Resolve returns_ret returns_bail returns_result returns_context returns_ask returns_read : returns.
#[export] Hint Extern 2 (returns (_ ≫= _)) => apply returns_bind; [|intros ?] : returns.
#[export] Hint Extern 3 (returns (match ?x with _ => _ end)) => destruct x : returns.

(** Once a step fails, so does the call. *)
Definition fails {A} (m : FileM A) : Prop := forall w, exists e w', m w = (Returned (Err e), w').

Lemma fails_here {A B} (m : FileM A) (k : A -> FileM B) : fails m -> fails (m ≫= k).
Proof. intros Hm w. destruct (Hm w) as (e & w' & H). exists e, w'. unfold mbind, FileM_bind. by rewrite H. Qed.

Lemma fails_later {A B} (m : FileM A) (k : A -> FileM B) : returns m -> (forall a, fails (k a)) -> fails (m ≫= k).
Proof.
  intros Hm Hk w. destruct (Hm w) as (r & w' & H). unfold mbind, FileM_bind. rewrite H.
  destruct r as [a|e]; [apply Hk|by exists e, w'].
Qed.

(** After a step that can only end one way. *)
Lemma fails_known {A B} (m : FileM A) (k : A -> FileM B) a :
  (forall w, exists w', m w = (Returned (Ok a), w')) -> fails (k a) -> fails (m ≫= k).
Proof.
  intros Hm Hk w. destruct (Hm w) as (w' & H). unfold mbind, FileM_bind. rewrite H. apply Hk.
Qed.

(** ** The label of a host that is served *)

Lemma served_entries {O : HashOrder} db verified ff lf rf hosts h :
  hosts_status db verified ff lf rf = Ok hosts -> h ∈ hosts ->
  exists count row, h = host_status_entry verified count row.
Proof.
  unfold hosts_status. destruct db as [d|]; [|intros [= <-] H; by apply elem_of_nil in H].
  destruct (query lf _) as [rollouts|]; [|done]. intros [= <-] H.
  apply list_elem_of_bind in H as (r & H & _). destruct (rf _); [by apply elem_of_nil in H|].
  apply list_elem_of_bind in H as (row & H & _). apply list_elem_of_singleton in H as ->. eauto.
Qed.

Lemma stale_needs_contact host now fresh : hse_last_checkin_at host = None -> stale_label host now fresh = None.
Proof. unfold stale_label. by intros ->. Qed.

Lemma base_label_of_entry verified count row now fresh :
  base_status_label (host_status_entry verified count row) now fresh =
  state_label (host_state_to_wire (hs_state row)) false 0.
Proof.
  unfold base_status_label. rewrite stale_needs_contact by done. simpl. by destruct (WireState.is_in_flight _).
Qed.

Lemma label_without_contact host input input' :
  hse_last_checkin_at host = None -> label_of input host = label_of input' host.
Proof.
  intros H. unfold label_of, status_label, base_status_label. by rewrite !stale_needs_contact, H by done.
Qed.

Lemma table_without_contact hosts now now' fresh fresh' color :
  Forall (fun h => hse_last_checkin_at h = None) hosts ->
  render_status_table_with_color (MkStatusInputs now hosts fresh) color =
  render_status_table_with_color (MkStatusInputs now' hosts fresh') color.
Proof.
  intros H. unfold render_status_table_with_color. f_equal. f_equal. simpl.
  apply list_fmap_ext. intros i h Hh. unfold status_row_styled. 
  rewrite Forall_forall in H. apply list_elem_of_lookup_2 in Hh.
  by rewrite (label_without_contact h _ (MkStatusInputs now' hosts fresh')) by auto.
Qed.

(** ** The columns *)

(** A row of a table whose cells are measured as they are printed, and one that
    is painted. *)
Lemma plain_rows input h : status_row_styled false input h = unstyled (status_row input h).
Proof.
  unfold status_row_styled, unstyled, status_row. simpl. unfold paint_status, paint.
  by repeat case_match.
Qed.

Fixpoint offsets (widths : list nat) : nat :=
  match widths with [] => 0 | [_] => 0 | w :: widths => w + 2 + offsets widths end.

Lemma char_count_app s t : char_count (s +:+ t) = char_count s + char_count t.
Proof. induction s as [|c s IH]; [done|]. simpl. rewrite IH. by destruct (is_continuation_byte c). Qed.

Lemma char_count_spaces n : char_count (spaces n) = n.
Proof. induction n as [|n IH]; [done|]. change (spaces (S n)) with (String " " (spaces n)). cbn -[spaces]. by rewrite IH. Qed.

Lemma unstyled_cons col row : unstyled (col :: row) = (col, col) :: unstyled row.
Proof. done. Qed.

(** The last cell of every row begins at the same column. *)
Lemma layout_row_width first widths row cell :
  length widths = S (length row) ->
  (forall i w, widths !! i = Some w -> forall col, row !! i = Some col -> char_count col <= w) ->
  char_count (layout_row first widths (unstyled (row ++ [cell]))) =
  (if first then 0 else 2) + offsets widths + char_count cell.
Proof.
  revert first widths. induction row as [|col row IH]; intros first widths Hl Hw.
  - destruct widths as [|w [|]]; [done| |done]. simpl. rewrite !char_count_app. destruct first; simpl; lia.
  - destruct widths as [|w widths]; [done|]. simpl in Hl. injection Hl as Hl.
    change ((col :: row) ++ [cell]) with (col :: (row ++ [cell])). rewrite unstyled_cons. cbn [layout_row].
    rewrite !char_count_app, IH; [|done|intros i w' Hi; apply (Hw (S i) w' Hi)].
    pose proof (Hw 0 w eq_refl col eq_refl) as Hc.
    assert (He : is_empty (unstyled (row ++ [cell])) = false) by (by destruct row).
    rewrite He. cbn iota. rewrite char_count_spaces. destruct widths as [|w' widths]; [by destruct row|].
    destruct first; simpl; lia.
Qed.

Lemma zip_widths_length widths (row : list (string * string)) :
  length row = length widths ->
  length (zip_with (fun w (col : string * string) => Nat.max w (char_count col.2)) widths row) = length widths.
Proof. intros H. rewrite length_zip_with. lia. Qed.

(** The widths only grow, and every measured cell fits. *)
Lemma widths_fit rows widths :
  Forall (fun row : list (string * string) => length row = length widths) rows ->
  let final := fold_left (fun widths row =>
    zip_with (fun w (col : string * string) => Nat.max w (char_count col.2)) widths row) rows widths in
  length final = length widths /\
  (forall i w w', widths !! i = Some w -> final !! i = Some w' -> w <= w') /\
  (forall row i col w, row ∈ rows -> row !! i = Some col -> final !! i = Some w -> char_count col.2 <= w).
Proof.
  revert widths. induction rows as [|row rows IH]; intros widths Hrows; simpl.
  - split; [done|]. split; [intros i w w' H1 H2; by simplify_eq|]. by intros row i col w H%elem_of_nil.
  - apply Forall_cons in Hrows as [Hr Hrows]. set (next := zip_with _ widths row).
    assert (Hn : length next = length widths) by (by apply zip_widths_length).
    destruct (IH next) as (Hl & Hgrow & Hfit); [by rewrite Hn|].
    assert (Hstep : forall i w, widths !! i = Some w -> exists col, row !! i = Some col /\
      next !! i = Some (Nat.max w (char_count col.2))).
    { intros i w Hi. destruct (lookup_lt_is_Some_2 row i) as [col Hc].
      { rewrite Hr. by apply lookup_lt_Some in Hi. }
      exists col. split; [done|]. unfold next. by rewrite lookup_zip_with, Hi, Hc. }
    split; [lia|]. split.
    + intros i w w' Hi Hf. destruct (Hstep i w Hi) as (col & _ & Hx). specialize (Hgrow _ _ _ Hx Hf). lia.
    + intros row' i col w [->|Hin]%elem_of_cons Hc Hf; [|by eapply Hfit].
      destruct (lookup_lt_is_Some_2 widths i) as [w0 Hi]; [rewrite <- Hr; by eapply lookup_lt_Some|].
      destruct (Hstep i w0 Hi) as (col' & Hc' & Hx). simplify_eq. specialize (Hgrow _ _ _ Hx Hf). lia.
Qed.

(** The table without colours is the plain one, and in it every row reaches its
    last column after the same number of characters. *)
Lemma status_columns_align input :
  render_status_table_with_color input false = render_status_table input /\
  exists n, Forall (fun row => exists cell, last row = Some cell /\
    char_count (layout_row true (column_widths 6 (unstyled <$> status_header :: (status_row input <$> si_hosts input)))
      (unstyled row)) = n + char_count cell)
    (status_header :: (status_row input <$> si_hosts input)).
Proof.
  split.
  { unfold render_status_table_with_color, render_status_table, layout. f_equal. rewrite fmap_cons. f_equal.
    rewrite <- list_fmap_compose. apply list_fmap_ext. intros i h _. apply plain_rows. }
  set (rows := status_header :: _). set (widths := column_widths 6 _).
  assert (Hlen : Forall (fun row => exists a b c d e f : string, row = [a; b; c; d; e; f]) rows).
  { constructor; [by do 6 eexists|]. apply Forall_fmap, Forall_forall. intros h _. by do 6 eexists. }
  destruct (widths_fit (unstyled <$> rows) (replicate 6 0)) as (Hw & _ & Hfit).
  { apply Forall_fmap. eapply Forall_impl; [exact Hlen|]. by intros row (a & b & c & d & e & f & ->). }
  exists (offsets widths). apply Forall_forall. intros row Hrow.
  pose proof (proj1 (Forall_forall _ _) Hlen row Hrow) as (a & b & c & d & e & f & ->).
  exists f. split; [done|].
  change (unstyled [a; b; c; d; e; f]) with (unstyled ([a; b; c; d; e] ++ [f])).
  rewrite layout_row_width; [done|exact Hw|]. intros i w Hi col Hcol.
  apply (Hfit (unstyled [a; b; c; d; e; f]) i (col, col) w); [by apply list_elem_of_fmap_2| |exact Hi].
  unfold unstyled. change ([a; b; c; d; e; f]) with ([a; b; c; d; e] ++ [f]).
  rewrite list_lookup_fmap, lookup_app_l; [by rewrite Hcol|]. by eapply lookup_lt_Some.
Qed.

(** ** The command *)

Section command.
Context {E : OsEnv} {I : IdentityEnv} {Tx : CliText}.
Context (get : nat -> Client -> string -> HttpAnswer).

Lemma returns_client cfg : returns (build_cli_client cfg).
Proof. unfold build_cli_client. eauto 30 with returns. Qed.

Lemma returns_cli_get client url : returns (cli_get get client url).
Proof. unfold cli_get. eauto with returns. Qed.

Lemma returns_decoded {A} url status body what (decode : string -> result A string) :
  returns (decoded url status body what decode).
Proof. unfold decoded. eauto with returns. Qed.

(** The request of one channel that is refused ends the loop. *)
Lemma fetch_freshness_fails client cp_url channels m channel status body :
  channel ∈ channels ->
  (forall n, get n client (cp_url +:+ "/v1/channels/" +:+ channel) = Response status body) ->
  (400 <= status < 600)%Z -> fails (fetch_freshness get client cp_url channels m).
Proof.
  intros Hin Hget Hs. revert m. induction Hin as [c channels|c c' channels Hin IH]; intros m; cbn [fetch_freshness].
  - eapply fails_known.
    { intros w. eexists. unfold cli_get, fm_ask, mbind, FileM_bind. by rewrite Hget. }
    cbn beta iota. apply fails_here. intros w. unfold decoded.
    rewrite (proj2 (Z.leb_le _ _)), (proj2 (Z.ltb_lt _ _)) by lia. by eexists _, _.
  - apply fails_later; [apply returns_cli_get|]. intros [s b].
    apply fails_later; [apply returns_decoded|]. intros window. apply (IH Hget).
Qed.

Lemma elem_of_dedup {A} `{EqDecision A} (x : A) l : x ∈ l -> x ∈ dedup l.
Proof.
  induction l as [|y l IH]; [done|]. intros [->|H]%elem_of_cons; destruct l as [|z l].
  - by left.
  - cbn [dedup]. case_bool as [->|_]; [|by left]. apply IH. by left.
  - by apply elem_of_nil in H.
  - cbn [dedup]. case_bool; [by apply IH|]. right. by apply IH.
Qed.

Lemma channels_seen_elem h hosts : h ∈ hosts -> hse_channel h ∈ channels_seen hosts.
Proof.
  intros H. unfold channels_seen. apply elem_of_dedup. rewrite merge_sort_Permutation.
  by apply list_elem_of_fmap_2.
Qed.

End command.

(** ** The theorems *)

(** The table of [nixfleet status], whose rows are what the control plane
    serves for the hosts of its active rollouts, says of a host only the state of
    its record: the label is the one of that state, never a stale host, failing
    probes or a halted channel, and the whole table is the same whenever it is
    asked for and whatever the freshness windows of the channels are. *)
Theorem status_is_of_the_record {O : HashOrder} {E : OsEnv} {I : IdentityEnv} {Tx : CliText}
    {Dh : DeserializeOwned (list HostStatusEntry)} get cfg color db verified ff lf rf hosts body w out w' :
  hosts_status db verified ff lf rf = Ok hosts ->
  from_str body = Ok hosts ->
  (forall n client, get n client (strip_slashes (rc_cp_url cfg) +:+ "/v1/hosts") = Response OK (Ok body)) ->
  run_status get cfg false color w = (Returned (Ok out), w') ->
  out = render_status_table_with_color (MkStatusInputs 0 hosts ∅) color /\
  forall h, h ∈ hosts -> exists s, hse_rollout_state h = Some s /\
    forall now fresh, base_status_label h now fresh = state_label s false 0.
Proof.
  intros Hserved Hbody Hget Hrun. split.
  - unfold run_status in Hrun. apply fm_bind_ok in Hrun as (client & w1 & _ & Hrun). cbn zeta in Hrun.
    apply fm_bind_ok in Hrun as ([status answer] & w2 & Ha & Hrun).
    unfold cli_get, fm_ask, mbind, FileM_bind in Ha. rewrite Hget in Ha. injection Ha as <- <- <-.
    apply fm_bind_ok in Hrun as (hosts' & w3 & Hd & Hrun). unfold decoded in Hd. cbn -[from_str in_context] in Hd.
    rewrite Hbody in Hd. injection Hd as <- <-.
    apply fm_bind_ok in Hrun as (windows & w4 & _ & Hrun). apply fm_bind_ok in Hrun as (now & w5 & _ & Hrun).
    injection Hrun as <- _. apply table_without_contact, Forall_forall. intros h Hh.
    by destruct (served_entries _ _ _ _ _ _ _ Hserved Hh) as (count & row & ->).
  - intros h Hh. destruct (served_entries _ _ _ _ _ _ _ Hserved Hh) as (count & row & ->).
    exists (host_state_to_wire (hs_state row)). split; [done|]. intros now fresh. apply base_label_of_entry.
Qed.

(** What the route of a channel answers. *)
Definition channel_answer (encode : ChannelStatusResponse -> string) (r : result ChannelStatusResponse Status)
    : HttpAnswer :=
  match r with Ok c => Response OK (Ok (encode c)) | Err status => Response status (Ok "") end.

(** One host whose channel the verified fleet no longer declares is enough for
    [nixfleet status] to fail: the control plane still serves the record of its
    active rollout, answers 404 for the channel, and the table of every other host
    is not shown either. *)
Theorem removed_channel_hides_status {O : HashOrder} {E : OsEnv} {I : IdentityEnv} {Tx : CliText}
    {Dh : DeserializeOwned (list HostStatusEntry)} get encode cfg color snap body hosts h :
  from_str body = Ok hosts ->
  (forall n client, get n client (strip_slashes (rc_cp_url cfg) +:+ "/v1/hosts") = Response OK (Ok body)) ->
  (forall n client name, get n client (strip_slashes (rc_cp_url cfg) +:+ "/v1/channels/" +:+ name) =
                         channel_answer encode (channel_status (Some snap) name)) ->
  h ∈ hosts -> fr_channels (vs_fleet snap) !! hse_channel h = None ->
  forall w, exists e w', run_status get cfg false color w = (Returned (Err e), w').
Proof.
  intros Hbody Hget Hchannel Hh Hnone. unfold run_status. cbn zeta.
  apply fails_later; [apply returns_client|]. intros client. eapply fails_known.
  { intros w. eexists. unfold cli_get, fm_ask, mbind, FileM_bind. by rewrite Hget. }
  cbn beta iota. eapply fails_known.
  { intros w. unfold decoded. cbn -[from_str in_context]. rewrite Hbody. by eexists. }
  apply fails_here. eapply (fetch_freshness_fails get client _ _ _ (hse_channel h) NOT_FOUND (Ok "")).
  - by apply channels_seen_elem.
  - intros n. rewrite Hchannel. unfold channel_status. by rewrite Hnone.
  - done.
Qed.

(** Two hosts of one rollout, and a control plane that serves them. *)
Definition console_env : OsEnv := {|
  os_now := fun n => Z.of_nat n; os_failure := fun _ => None; os_write := fun _ => Written |}.

Definition console_identity : IdentityEnv := {|
  KeyPair := unit;
  key_pair_from_pem := fun _ => Ok tt;
  public_key_raw := fun _ => "";
  SigningRequest := unit;
  serialize_request := fun _ _ => Ok tt;
  request_pem := fun _ => Ok "";
  x509_validity := fun _ => Ok (0, 600)%Z;
  root_from_pem := fun _ => Ok tt;
  identity_from_pem := fun _ => Ok tt;
  client_builds := fun _ => Ok tt;
  send := fun _ _ _ _ _ => SendFailed "";
  display_status := fun _ => "";
  response_text := id;
|}.

Definition console_text : CliText := {|
  toml_to_string := fun _ => Ok "";
  toml_from_str := fun _ => Err "";
  uppercase := id;
  to_rfc3339_text := fun _ => "";
  reformat_rfc3339 := fun _ => None;
  status_error := fun s url => pretty s +:+ " for " +:+ url;
  status_json := fun _ => Ok "";
  hosts_json := fun _ => Ok "";
  events_json := fun _ => Ok "";
  token_json := fun _ => Ok "";
  freshness_field := fun _ => Ok (Some 180%Z);
|}.

Definition console_config : ResolvedClientConfig := MkResolvedClientConfig "https://cp/" "ca" "cert" "key".
Definition console_disk : FileWorld := MkFileWorld {[ "ca" := "CA"; "cert" := "CERT"; "key" := "KEY" ]} 0.

Definition served_hosts : list HostStatusEntry :=
  match hosts_status (O := list_order) (Some (w_db twowaves.2)) None false false (fun _ => false) with
  | Ok hosts => hosts
  | Err _ => []
  end.
Definition hosts_decoder : DeserializeOwned (list HostStatusEntry) := fun _ => Ok served_hosts.

Definition console_get (snap : VerifiedFleetSnapshot) (_ : nat) (_ : Client) (url : string) : HttpAnswer :=
  if bool_decide (url = "https://cp/v1/hosts") then Response 200 (Ok "hosts")
  else match RustStd.strip_prefix "https://cp/v1/channels/" url with
       | Some name => channel_answer (fun _ => "channel") (channel_status (Some snap) name)
       | None => SendFailed "no route"
       end.

Definition with_channels : VerifiedFleetSnapshot := MkVerifiedFleetSnapshot sample_fleet "" "" "".
Definition without_channels : VerifiedFleetSnapshot :=
  MkVerifiedFleetSnapshot (sample_fleet <| fr_channels := ∅ |>) "" "" "".

Lemma console_answers_hosts snap n client :
  console_get snap n client (strip_slashes (rc_cp_url console_config) +:+ "/v1/hosts") = Response OK (Ok "hosts").
Proof. done. Qed.

Lemma console_answers_channel snap n client name :
  console_get snap n client (strip_slashes (rc_cp_url console_config) +:+ "/v1/channels/" +:+ name) =
  channel_answer (fun _ => "channel") (channel_status (Some snap) name).
Proof.
  replace (strip_slashes (rc_cp_url console_config)) with "https://cp" by (by vm_compute). done.
Qed.

Abbreviation console_status snap :=
  (run_status (E := console_env) (I := console_identity) (Tx := console_text) (Dh := hosts_decoder)
     (console_get snap) console_config false true console_disk).

Lemma status_is_of_the_record_witness :
  exists out, (console_status with_channels).1 = Returned (Ok out) /\ contains "→ in progress" out = true /\
    out = render_status_table_with_color (MkStatusInputs 0 served_hosts ∅) true.
Proof.
  destruct (console_status with_channels) as [r w'] eqn:Hrun.
  assert (Hr : exists out, r = Returned (Ok out) /\ contains "→ in progress" out = true).
  { apply (f_equal fst) in Hrun. vm_compute in Hrun. rewrite <- Hrun. eexists. split; [reflexivity|by vm_compute]. }
  destruct Hr as (out & -> & Hc). exists out. split; [reflexivity|]. split; [exact Hc|].
  eapply (status_is_of_the_record (O := list_order) (E := console_env) (I := console_identity) (Tx := console_text)
    (Dh := hosts_decoder) (console_get with_channels) console_config true (Some (w_db twowaves.2)) None false false
    (fun _ => false) served_hosts "hosts" console_disk out w').
  - reflexivity.
  - reflexivity.
  - apply console_answers_hosts.
  - exact Hrun.
Defined.

Lemma removed_channel_hides_status_witness :
  exists e w', console_status without_channels = (Returned (Err e), w').
Proof.
  assert (Hh : exists h l, served_hosts = h :: l /\ hse_channel h = "stable").
  { vm_compute. eexists _, _. split; reflexivity. }
  destruct Hh as (h & l & Hh & Hc).
  apply (removed_channel_hides_status (O := list_order) (E := console_env) (I := console_identity)
    (Tx := console_text) (Dh := hosts_decoder) (console_get without_channels) (fun _ => "channel") console_config true
    without_channels "hosts" served_hosts h).
  - reflexivity.
  - apply console_answers_hosts.
  - apply console_answers_channel.
  - rewrite Hh. left.
  - rewrite Hc. reflexivity.
Defined.
